(* ===== verification/_CoqProject ===== *)
-Q . S2P
Prelude.v
Scheduler.v
System.v
Cpu.v
Memory.v
MemoryCard.v
Sio.v
Dma.v
Timers.v
IsoImage.v
IsoFs.v
Cdrom.v
Gte.v
GteMath.v
Spu.v
SpuSafe.v
SpuMix.v
Mdec.v
MdecMath.v
Gpu.v
GpuVram.v
Gif.v
GifMath.v
Texture.v
Primitives.v
GpuDma.v
GpuList.v
PrimMath.v
TextureMath.v
Interpreter.v
InterpSafe.v
InterpTime.v
InterpRef.v
InterpTraps.v
Recompiler.v
RecompMath.v
LoadDelay.v
Emit.v
EmitMath.v
EmitRep.v
EmitAlu.v
EmitBlock.v
EmitTraps.v
