(* ===== verification/Prelude.v ===== *)
(** * SuperPSX: a verification library for the emulator core

    SuperPSX runs PlayStation programs on the PlayStation 2 (and, by a second
    port, on the PSP).  This library models the core of the emulator in Rocq,
    file by file, and proves what makes its parts correct.  Paths below are
    relative to [src/]; C's integers are [Z] with the wrap-around written out
    ([u32], [s16], ...), C arrays are lists or maps, static variables are the
    fields of a record, and every function that changes state takes the record
    and returns it.  Where the C code loops without a structural bound the
    model takes fuel and a theorem says how much is enough.

    ** The program and its model

    The interpreter or the recompiled code runs chains of instructions until
    the deadline of the next event; the scheduler then runs the callbacks of
    the devices; loads and stores in the I/O window reach the devices, and DMA
    moves words between them and RAM.  The state every part shares is the
    record [Sys] (processor, memories, scheduler, clock, interrupt line); each
    device threads its own record next to it.

    - [Prelude]: machine words, record update, arrays, byte memory, the tactics
      and hint databases of the library.
    - [Scheduler] ([include/scheduler.h], [src/scheduler.c], the guarded
      dispatch of [src/dynarec_run.c]): [Sched_Init], [Sched_Add],
      [Sched_Remove], [Sched_Tick] over any machine that has a scheduler
      ([HasSched]).
    - [System] ([include/superpsx.h], the interrupt line of
      [src/hardware.c]): [Sys], [SignalInterrupt], [jit_invalidate_page].
    - [Cpu] ([src/cpu.c], [src/dynarec_run.c]): [PSX_Exception], the trapping
      helpers, the delivery of interrupts between chains.
    - [Memory] ([src/memory.c]): loads, stores, the unaligned and the division
      helpers, the page table [mem_lut], over any [Platform].
    - [Interpreter] ([src/interpreter.c]): [exec], [iterate],
      [run_interpreter_chain].  [InterpSafe] its type invariant, [InterpTime]
      its progress, [InterpRef] an R3000A with architectural delays and the
      refinement, [InterpTraps] exceptions and where the code leaves the
      architecture.
    - [Gte], [GteMath] ([src/gte.c]): the 64 registers, the 22 commands as
      actions of a state monad, the register reads and writes; the division
      table, the matrix products and the projection against exact arithmetic.
    - [Recompiler] ([src/dynarec_compile.c]): the scan of a block, dead code,
      register masks, constants before a block, the compile loop, idle loops,
      the load-delay protocol.  [RecompMath] and [LoadDelay] check them against
      the processor of [InterpRef].
    - [Emit] ([src/dynarec_emit.c], the arithmetic of [src/dynarec_insn.c], the
      entry and exit of a block of [src/dynarec_compile.c], the encodings of
      [src/dynarec.h]): emitters return the words they emit.  [EmitMath] is the
      host processor that runs the words, [EmitRep] relates the places of the
      registers to their values, [EmitAlu] treats each instruction, [EmitBlock]
      the slots, the entry, the exit and a whole block, [EmitTraps] what the
      emitter gets wrong.
    - [Dma] ([src/dma.c]): the controller over a [DmaBus].
    - [Timers] ([src/timers.c], [include/psx_timing.h]): the root counters.
    - [Sio] ([src/sio.c]) and [MemoryCard] ([src/memorycard.c]): the serial
      port, the pads as host input, the cards and their files.
    - [Cdrom] ([src/cdrom.c]), [IsoImage] ([src/iso_image.c]), [IsoFs]
      ([src/iso_fs.c]): the drive, the disc images, the directory reader.
    - [Spu], [SpuSafe], [SpuMix] ([src/spu.c]): the sound processor, its
      invariant, the mixer against a sample-by-sample reference.
    - [Mdec], [MdecMath] ([src/mdec.c]): the motion decoder and what it
      computes.
    - [Gpu] ([src/gpu_commands.c], [src/platform/ps2/gpu_ps2_core.c] and
      [gpu_ps2_dma.c]): the command interface, DMA blocks and display lists
      over any renderer ([GpuBackend]).  [GpuVram] uploads, downloads and
      copies; [GpuDma] blocks; [GpuList] lists and queries.
    - [Gif], [GifMath] ([gpu_ps2_gif.c], [gpu_ps2_vram.c],
      [gpu_ps2_backend.c]): the packets sent to the graphics chip.
    - [Texture], [TextureMath] ([gpu_ps2_texture.c]): the texture pages kept in
      the chip.
    - [Primitives], [PrimMath] ([gpu_ps2_primitives.c]): the renderer, which is
      the instance [prim_backend] of [GpuBackend].

    ** Interfaces

    - [HasSched]: where a machine keeps its scheduler and what a callback does.
    - [Platform]: the I/O window seen from the processor ([ReadHardware],
      [WriteHardware], [SIO_Write]).  The switch over addresses in
      [src/hardware.c] that would implement it is not modelled.
      [SafePlatform] adds that devices keep the shared state typed;
      [TimedPlatform] that they move the clock only forward and by a bounded
      amount per access, as a status read of a busy graphics processor
      ([GPU_ReadStatus]) and a DMA transfer ([GPU_DMA2]) do.  [ram_platform]
      and [waiting_platform] are instances.
    - [DmaBus]: the devices at the other end of a DMA channel.
    - [GsSdk]: register layouts and numbers that come from the console's SDK.
    - [GpuBackend]: the renderer behind the command interface.
      [RendererLaws] is what the block dispatch and the lists need of it, and
      [prim_laws] proves it of the renderer in [Primitives], for any
      [GpuHost] (the read-back transfer, the divider of timer 0 and the
      scheduler's callbacks).

    ** What the theorems show

    - Processor: the interpreter refines an R3000A with load and branch delays
      ([interpreter_refines]), keeps every type ([interpreter_safe]), its
      chains end ([chain_terminates]), misaligned accesses and exceptions are
      those of the architecture ([unaligned_access_traps],
      [PSX_Exception_entry]), an unaligned word is loaded by its two halves
      ([unaligned_load]).
    - Recompiler: removing dead code preserves a super-block
      ([super_block_dce]), emitted blocks of arithmetic compute what the
      processor computes ([block_exact]), the load-delay protocol is right
      where it is stated to be ([load_delay_exact]), constants found before a
      block hold ([lui_scan_sound]), compilation ends ([comp_loop_ends]), slots
      go to the registers used most ([slots_to_most_used]); a result for $zero
      corrupts a cached register ([zero_result_corrupts]).
    - Geometry: types, the quotient, matrix products, projection
      ([gte_registers_typed], [gte_divide_accurate], [mvmva_exact],
      [rtpt_projects]).
    - Events and time: the cached deadline is exact ([sched_cache_exact]), a
      tick runs what is due ([Sched_Tick_runs_due]), counters may be
      synchronised at any moments ([lazy_sync_exact]).
    - Devices: write and read back a memory card ([MCD_write_read_roundtrip]),
      also through the port ([card_transparent]); sectors in order
      ([sector_delivery]), commands answered ([command_answered]); sound
      ([spu_invariant], [mixer_batches_exact], [catch_up_exact]); pictures
      ([quant_block_exact]).
    - Graphics: uploads, downloads and copies pixel by pixel
      ([load_image_exact], [image_download_exact], [copy_image_exact]); blocks
      and lists by DMA ([block_dispatch_exact], [list_walk_exact]); packets
      ([uploads_send_pixels], [gif_packet_fits]); texture pages
      ([texture_page_current]); the renderer's short cuts
      ([fast_polygon_exact], [poly_state_exact], [fill_exact]) and where one
      fails ([texture_window_lost]).

    The comment before each theorem states its hypotheses in words.  Other
    theorems of the files (round trips, registers, defects) are not repeated
    here.

    ** Bounds and fuel

    - [comp_loop]: 201 turns suffice for any code ([comp_loop_ends]); a block
      holds at most 200 words and one delay slot.
    - [block_loop]: one unit per word, each round takes a word at least.
      [ll_words]: one unit per word of a packet, at most 255.  [ll_walk]: one
      unit per packet, the limit of the code; [list_walk_exact] says that it
      always answers.
    - [run_interpreter_chain]: one unit per turn; as many turns as cycles to
      the deadline suffice ([chain_terminates]).
    - [mix_loop]: the number of samples; the loops of the motion decoder stop
      at the end of the array they read, which the code does not test.
    - [run_due] answers [None] if the callbacks never catch up with the clock.
      The loops over texts and directories have the length of their text or
      sector as fuel.

    ** What is not modelled

    The switch over I/O addresses; emitted words for memory accesses,
    branches and coprocessors, the trampolines, block linking and the run loop
    around generated code; the floating-point and vector-unit paths of the
    geometry engine and the hardware decoder for pictures; the PSP graphics
    port; the on-screen display, profiler, configuration, loading, input and
    audio drivers, start-up.  They are pure I/O, assembly for units without a
    definition in the repository, or debugging aids. *)

From Stdlib Require Export ZArith Lia List Bool.
From stdpp Require Export base gmap list strings fin_maps.

#[export] Set Default Goal Selector "!".
#[global] Open Scope Z_scope.

(** ** Machine words

    C's unsigned integers are [Z] with the wrap-around written out. *)

Definition u8 (x : Z) : Z := x mod 256.
Definition u16 (x : Z) : Z := x mod 65536.
Definition u32 (x : Z) : Z := x mod 4294967296.
Definition u64 (x : Z) : Z := x mod 18446744073709551616.

(** Two's-complement reading of the low 8, 16, 32 bits: the casts
    [(int8_t)], [(int16_t)], [(int32_t)]. *)
Definition s8 (x : Z) : Z := let y := u8 x in if y <? 128 then y else y - 256.
Definition s16 (x : Z) : Z := let y := u16 x in if y <? 32768 then y else y - 65536.
Definition s32 (x : Z) : Z := let y := u32 x in if y <? 2147483648 then y else y - 4294967296.

(** [x & m] used as a C condition. *)
Definition tst (x m : Z) : bool := negb (Z.land x m =? 0).

(** A C comparison or [&&] stored in an integer. *)
Definition b2z (b : bool) : Z := if b then 1 else 0.

(** C's [~m] on a 32-bit operand. *)
Definition not32 (m : Z) : Z := u32 (Z.lnot m).

Definition UINT64_MAX : Z := 18446744073709551615.

#[global] Arguments u8 : simpl never.
#[global] Arguments u16 : simpl never.
#[global] Arguments u32 : simpl never.
#[global] Arguments u64 : simpl never.
#[global] Arguments s8 : simpl never.
#[global] Arguments s16 : simpl never.
#[global] Arguments s32 : simpl never.
#[global] Arguments tst : simpl never.
#[global] Arguments not32 : simpl never.

Definition is_u8 (x : Z) : Prop := 0 <= x < 256.
Definition is_u16 (x : Z) : Prop := 0 <= x < 65536.
Definition is_u32 (x : Z) : Prop := 0 <= x < 4294967296.
Definition is_u64 (x : Z) : Prop := 0 <= x < 18446744073709551616.

(** ** Functional record update

    [r <| f := v |>] is [r] with field [f] set to [v], [r <| f ::= g |>]
    with [g] applied to it.  A record gives its eta expansion once
    ([Eta]); the setter of each field is computed from it. *)

Class Eta (R : Type) := eta : R -> R.
Class Setter {R E : Type} (proj : R -> E) := setter : (E -> E) -> R -> R.

Ltac synth_setter :=
  lazymatch goal with
  | |- @Setter ?R ?E ?proj =>
    let inst := constr:(_ : Eta R) in
    let body := eval red in inst in
    exact (fun (g : E -> E) (r : R) =>
      ltac:(let expanded := eval cbv beta in (body r) in
            match expanded with
            | context C [proj r] =>
              let updated := context C [g (proj r)] in exact updated
            end))
  end.
#[global] Hint Extern 1 (Setter _) => synth_setter : typeclass_instances.

Definition upd {R E : Type} (proj : R -> E) {S : Setter proj} (g : E -> E) (r : R) : R :=
  S g r.

Declare Scope record_scope.
Notation "r <| f := v |>" := (upd f (fun _ => v) r)
  (at level 1, left associativity, f at level 0, v at level 200,
   format "r  <| f  :=  v |>") : record_scope.
Notation "r <| f ::= g |>" := (upd f g r)
  (at level 1, left associativity, f at level 0, g at level 200,
   format "r  <| f  ::=  g |>") : record_scope.
#[global] Open Scope record_scope.

(** ** Arrays: C arrays indexed by a [Z], as lists *)

Definition anth {A : Type} (d : A) (l : list A) (i : Z) : A := nth (Z.to_nat i) l d.
Definition aget (l : list Z) (i : Z) : Z := anth 0 l i.
Definition aset {A : Type} (l : list A) (i : Z) (v : A) : list A := <[Z.to_nat i := v]> l.
Definition zlen {A : Type} (l : list A) : Z := Z.of_nat (length l).

(** ** Byte-addressed memory, little-endian as on the EE and the Allegrex *)

Definition rd8 (m : gmap Z Z) (a : Z) : Z := default 0 (m !! a).
Definition rd16 (m : gmap Z Z) (a : Z) : Z :=
  Z.lor (rd8 m a) (Z.shiftl (rd8 m (a + 1)) 8).
Definition rd32 (m : gmap Z Z) (a : Z) : Z :=
  Z.lor (Z.lor (rd8 m a) (Z.shiftl (rd8 m (a + 1)) 8))
        (Z.lor (Z.shiftl (rd8 m (a + 2)) 16) (Z.shiftl (rd8 m (a + 3)) 24)).
Definition wr8 (m : gmap Z Z) (a v : Z) : gmap Z Z := <[a := u8 v]> m.
Definition wr16 (m : gmap Z Z) (a v : Z) : gmap Z Z :=
  wr8 (wr8 m a v) (a + 1) (Z.shiftr v 8).
Definition wr32 (m : gmap Z Z) (a v : Z) : gmap Z Z :=
  wr8 (wr8 (wr8 (wr8 m a v) (a + 1) (Z.shiftr v 8))
           (a + 2) (Z.shiftr v 16)) (a + 3) (Z.shiftr v 24).

(** [memcpy] of a byte list into memory. *)
Fixpoint wr_bytes (m : gmap Z Z) (a : Z) (bs : list Z) : gmap Z Z :=
  match bs with
  | [] => m
  | b :: bs' => wr_bytes (wr8 m a b) (a + 1) bs'
  end.

#[global] Arguments anth : simpl never.
#[global] Arguments aget : simpl never.
#[global] Arguments aset : simpl never.
#[global] Arguments zlen : simpl never.
#[global] Arguments rd8 : simpl never.
#[global] Arguments rd16 : simpl never.
#[global] Arguments rd32 : simpl never.
#[global] Arguments wr8 : simpl never.
#[global] Arguments wr16 : simpl never.
#[global] Arguments wr32 : simpl never.

(** Every cell of a memory is a byte. *)
Definition mem_ok (m : gmap Z Z) : Prop := map_Forall (fun _ b => is_u8 b) m.

(** ** Automation *)

Create HintDb word discriminated.
Create HintDb sched discriminated.

(** Linear arithmetic with division and remainder by literals. *)
Ltac zify_div := Z.div_mod_to_equations; lia.

(** Bit [i] of every operator of the goal; side conditions by [lia]. *)
Ltac push_testbit :=
  repeat first
    [ rewrite Z.lor_spec | rewrite Z.land_spec | rewrite Z.lxor_spec
    | rewrite Z.shiftr_spec by lia | rewrite Z.shiftl_spec by lia
    | rewrite Z.lnot_spec by lia ].


(** ** Ranges of words *)

Lemma u8_range x : is_u8 (u8 x).
Proof. apply Z.mod_pos_bound. lia. Qed.
Lemma u16_range x : is_u16 (u16 x).
Proof. apply Z.mod_pos_bound. lia. Qed.
Lemma u32_range x : is_u32 (u32 x).
Proof. apply Z.mod_pos_bound. lia. Qed.
Lemma u64_range x : is_u64 (u64 x).
Proof. apply Z.mod_pos_bound. lia. Qed.
#[export] Hint Resolve u8_range u16_range u32_range u64_range : word.

Lemma u8_small x : is_u8 x -> u8 x = x.
Proof. apply Z.mod_small. Qed.
Lemma u16_small x : is_u16 x -> u16 x = x.
Proof. apply Z.mod_small. Qed.
Lemma u32_small x : is_u32 x -> u32 x = x.
Proof. apply Z.mod_small. Qed.
Lemma u64_small x : is_u64 x -> u64 x = x.
Proof. apply Z.mod_small. Qed.
Lemma u32_u32 x : u32 (u32 x) = u32 x.
Proof. apply u32_small, u32_range. Qed.

Lemma s32_range x : -2147483648 <= s32 x < 2147483648.
Proof.
  unfold s32. pose proof (u32_range x) as H. unfold is_u32 in H.
  destruct (Z.ltb_spec (u32 x) 2147483648); lia.
Qed.

Lemma u32_s32 x : u32 (s32 x) = u32 x.
Proof.
  unfold s32. pose proof (u32_range x) as H. unfold is_u32 in H.
  destruct (Z.ltb_spec (u32 x) 2147483648).
  - apply u32_u32.
  - unfold u32 at 1. replace (u32 x - 4294967296) with (u32 x + (-1) * 4294967296) by lia.
    rewrite Z.mod_add by lia. apply u32_small. exact H.
Qed.

Lemma s32_u32 x : -2147483648 <= x < 2147483648 -> s32 (u32 x) = x.
Proof.
  intros Hx. unfold s32. rewrite u32_u32. unfold u32.
  destruct (Z.ltb_spec (x mod 4294967296) 2147483648); Z.div_mod_to_equations; lia.
Qed.

(** A word of [n] bits, by its bits. *)
Lemma bits_bound n x : 0 <= n -> 0 <= x ->
  (x < 2 ^ n <-> forall i, n <= i -> Z.testbit x i = false).
Proof.
  intros Hn Hx. split.
  - intros Hlt i Hi. destruct (Z.eq_dec x 0) as [->|]; [apply Z.testbit_0_l|].
    apply Z.bits_above_log2; [lia|].
    apply Z.log2_lt_pow2 in Hlt; lia.
  - intros Hbits. destruct (Z.eq_dec x 0) as [->|]; [apply Z.pow_pos_nonneg; lia|].
    apply Z.log2_lt_pow2; [lia|].
    destruct (Z.lt_ge_cases (Z.log2 x) n); [lia|].
    specialize (Hbits (Z.log2 x) ltac:(lia)). rewrite Z.bit_log2 in Hbits by lia. discriminate.
Qed.

Lemma bits_above n x i : 0 <= n -> 0 <= x < 2 ^ n -> n <= i -> Z.testbit x i = false.
Proof. intros Hn [Hx Hlt] Hi. apply (proj1 (bits_bound n x Hn Hx) Hlt i Hi). Qed.

Lemma lor_bound n x y : 0 <= n -> 0 <= x < 2 ^ n -> 0 <= y < 2 ^ n -> 0 <= Z.lor x y < 2 ^ n.
Proof.
  intros Hn Hx Hy. assert (0 <= Z.lor x y) by (apply Z.lor_nonneg; lia).
  split; [lia|]. apply bits_bound; [lia..|]. intros i Hi.
  rewrite Z.lor_spec, !(bits_above n) by lia. reflexivity.
Qed.

Lemma lxor_bound n x y : 0 <= n -> 0 <= x < 2 ^ n -> 0 <= y < 2 ^ n -> 0 <= Z.lxor x y < 2 ^ n.
Proof.
  intros Hn Hx Hy. assert (0 <= Z.lxor x y) by (apply Z.lxor_nonneg; lia).
  split; [lia|]. apply bits_bound; [lia..|]. intros i Hi.
  rewrite Z.lxor_spec, !(bits_above n) by lia. reflexivity.
Qed.

Lemma land_bound_r x y : 0 <= y -> 0 <= Z.land x y <= y.
Proof.
  intros Hy. assert (0 <= Z.land x y) by (apply Z.land_nonneg; lia). split; [lia|].
  apply Z.ldiff_le; [lia|]. apply Z.bits_inj'. intros i Hi.
  rewrite Z.ldiff_spec, Z.land_spec, Z.bits_0. destruct (Z.testbit x i), (Z.testbit y i); reflexivity.
Qed.

Lemma land_bound_l x y : 0 <= x -> 0 <= Z.land x y <= x.
Proof. rewrite Z.land_comm. apply land_bound_r. Qed.

Lemma lor_u32 x y : is_u32 x -> is_u32 y -> is_u32 (Z.lor x y).
Proof. apply (lor_bound 32); lia. Qed.
Lemma lxor_u32 x y : is_u32 x -> is_u32 y -> is_u32 (Z.lxor x y).
Proof. apply (lxor_bound 32); lia. Qed.
Lemma land_u32_r x y : is_u32 y -> is_u32 (Z.land x y).
Proof. unfold is_u32. pose proof (land_bound_r x y). lia. Qed.
Lemma land_u32_l x y : is_u32 x -> is_u32 (Z.land x y).
Proof. rewrite Z.land_comm. apply land_u32_r. Qed.
Lemma shiftr_u32 x n : 0 <= n -> is_u32 x -> is_u32 (Z.shiftr x n).
Proof.
  unfold is_u32. intros Hn Hx. rewrite Z.shiftr_div_pow2 by lia.
  pose proof (Z.pow_pos_nonneg 2 n). split; [apply Z.div_pos; lia|].
  apply Z.le_lt_trans with x; [|lia]. apply Z.div_le_upper_bound; nia.
Qed.
#[export] Hint Resolve lor_u32 lxor_u32 land_u32_r land_u32_l : word.

Lemma lor_u8 x y : is_u8 x -> is_u8 y -> is_u8 (Z.lor x y).
Proof. apply (lor_bound 8); lia. Qed.
Lemma lxor_u8 x y : is_u8 x -> is_u8 y -> is_u8 (Z.lxor x y).
Proof. apply (lxor_bound 8); lia. Qed.
Lemma land_u8_r x y : is_u8 y -> is_u8 (Z.land x y).
Proof. unfold is_u8. pose proof (land_bound_r x y). lia. Qed.
Lemma land_u8_l x y : is_u8 x -> is_u8 (Z.land x y).
Proof. rewrite Z.land_comm. apply land_u8_r. Qed.
#[export] Hint Resolve lor_u8 lxor_u8 land_u8_r land_u8_l : word.

Lemma u32_bits x i : 0 <= i -> Z.testbit (u32 x) i = (i <? 32) && Z.testbit x i.
Proof.
  intros Hi. unfold u32. change 4294967296 with (2 ^ 32).
  destruct (Z.ltb_spec i 32); simpl.
  - apply Z.mod_pow2_bits_low. lia.
  - apply Z.mod_pow2_bits_high. lia.
Qed.

Lemma u8_bits x i : 0 <= i -> Z.testbit (u8 x) i = (i <? 8) && Z.testbit x i.
Proof.
  intros Hi. unfold u8. change 256 with (2 ^ 8).
  destruct (Z.ltb_spec i 8); simpl.
  - apply Z.mod_pow2_bits_low. lia.
  - apply Z.mod_pow2_bits_high. lia.
Qed.

Lemma is_u32_bits x i : is_u32 x -> 32 <= i -> Z.testbit x i = false.
Proof. intros Hx Hi. apply (bits_above 32); [lia | exact Hx | exact Hi]. Qed.

Lemma is_u8_bits x i : is_u8 x -> 8 <= i -> Z.testbit x i = false.
Proof. intros Hx Hi. apply (bits_above 8); [lia | exact Hx | exact Hi]. Qed.

(** ** Flag tests *)

Lemma tst_pow2 x k : 0 <= k -> tst x (2 ^ k) = Z.testbit x k.
Proof.
  intros Hk. unfold tst. destruct (Z.testbit x k) eqn:E.
  - destruct (Z.eqb_spec (Z.land x (2 ^ k)) 0) as [H0|]; [|reflexivity].
    assert (Z.testbit (Z.land x (2 ^ k)) k = false) as H by (rewrite H0; apply Z.bits_0).
    rewrite Z.land_spec, E, Z.pow2_bits_true in H by lia. discriminate.
  - destruct (Z.eqb_spec (Z.land x (2 ^ k)) 0) as [|H0]; [reflexivity|].
    exfalso. apply H0. apply Z.bits_inj'. intros i Hi.
    rewrite Z.land_spec, Z.bits_0, Z.pow2_bits_eqb by lia.
    destruct (Z.eqb_spec k i) as [->|]; [rewrite E; reflexivity | apply andb_false_r].
Qed.

Lemma tst_shiftl x k : 0 <= k -> tst x (Z.shiftl 1 k) = Z.testbit x k.
Proof. intros Hk. rewrite Z.shiftl_1_l. apply tst_pow2, Hk. Qed.

Lemma tst_1 x : tst x 1 = Z.testbit x 0.
Proof. apply (tst_pow2 x 0). lia. Qed.

Lemma tst_false_land x m : tst x m = false <-> Z.land x m = 0.
Proof. unfold tst. rewrite negb_false_iff. apply Z.eqb_eq. Qed.

(** ** Arrays *)

Lemma length_aset {A} (l : list A) i v : length (aset l i v) = length l.
Proof. apply length_insert. Qed.

Lemma anth_aset_eq {A} (d : A) l i v : 0 <= i < zlen l -> anth d (aset l i v) i = v.
Proof.
  unfold anth, aset, zlen. intros Hi.
  rewrite (nth_lookup (<[Z.to_nat i:=v]> l)), list_lookup_insert_eq by lia. reflexivity.
Qed.

Lemma anth_aset_ne {A} (d : A) l i j v :
  0 <= i -> 0 <= j -> i <> j -> anth d (aset l i v) j = anth d l j.
Proof.
  unfold anth, aset. intros Hi Hj Hij.
  rewrite !nth_lookup, list_lookup_insert_ne by lia. reflexivity.
Qed.

Lemma anth_aset {A} (d : A) l i j v : 0 <= i < zlen l -> 0 <= j ->
  anth d (aset l i v) j = if i =? j then v else anth d l j.
Proof.
  intros Hi Hj. destruct (Z.eqb_spec i j) as [<-|Hne].
  - apply anth_aset_eq, Hi.
  - apply anth_aset_ne; lia.
Qed.

Lemma aget_aset_eq l i v : 0 <= i < zlen l -> aget (aset l i v) i = v.
Proof. apply anth_aset_eq. Qed.

Lemma aget_aset_ne l i j v : 0 <= i -> 0 <= j -> i <> j -> aget (aset l i v) j = aget l j.
Proof. apply anth_aset_ne. Qed.

Lemma Forall_anth {A} (P : A -> Prop) d l i : P d -> Forall P l -> P (anth d l i).
Proof.
  intros H0 Hl. unfold anth.
  destruct (nth_in_or_default (Z.to_nat i) l d) as [Hin | ->]; [|exact H0].
  rewrite List.Forall_forall in Hl. apply Hl, Hin.
Qed.

Lemma zlen_app {A} (l k : list A) : zlen (l ++ k) = zlen l + zlen k.
Proof. unfold zlen. rewrite length_app. lia. Qed.
Lemma zlen_aset {A} (l : list A) i v : zlen (aset l i v) = zlen l.
Proof. unfold zlen. rewrite length_aset. reflexivity. Qed.

Lemma aget_out l i : zlen l <= i -> aget l i = 0.
Proof. unfold aget, anth, zlen. intros H. apply nth_overflow. lia. Qed.

Lemma Forall_aset {A} (P : A -> Prop) l i v : Forall P l -> P v -> Forall P (aset l i v).
Proof. intros Hl Hv. apply Forall_insert; assumption. Qed.

Lemma Forall_aget (P : Z -> Prop) l i : P 0 -> Forall P l -> P (aget l i).
Proof. apply Forall_anth. Qed.

Lemma Forall_repeat {A} (P : A -> Prop) x n : P x -> Forall P (repeat x n).
Proof. intros Hx. induction n; constructor; assumption. Qed.

Lemma lor_concat n a b : 0 <= n -> 0 <= a < 2 ^ n -> Z.lor a (Z.shiftl b n) = a + b * 2 ^ n.
Proof.
  intros Hn Ha. rewrite Z.shiftl_mul_pow2 by lia.
  assert (H0 : Z.land a (b * 2 ^ n) = 0).
  { apply Z.bits_inj'. intros k Hk. rewrite Z.land_spec, Z.bits_0, Z.mul_pow2_bits by lia.
    destruct (Z_lt_ge_dec k n); [rewrite (Z.testbit_neg_r b) by lia; apply andb_false_r|].
    rewrite <- (Z.mod_small a (2 ^ n)) by exact Ha. rewrite Z.mod_pow2_bits_high by lia. reflexivity. }
  rewrite Z.add_nocarry_lxor by exact H0. symmetry. apply Z.lxor_lor. exact H0.
Qed.

(** The index range of a C loop [for (i = 0; i < n; i++)]. *)
Definition zseq (n : nat) : list Z := map Z.of_nat (seq 0 n).

Lemma in_zseq n i : In i (zseq n) <-> 0 <= i < Z.of_nat n.
Proof.
  unfold zseq. rewrite in_map_iff. split.
  - intros (k & <- & Hk). apply in_seq in Hk. lia.
  - intros Hi. exists (Z.to_nat i). split; [lia|]. apply in_seq. lia.
Qed.

Lemma NoDup_zseq n : NoDup (zseq n).
Proof.
  unfold zseq. apply (NoDup_fmap_2 Z.of_nat (seq 0 n)). apply NoDup_seq.
Qed.

Lemma zseq_snoc n : zseq (S n) = zseq n ++ [Z.of_nat n].
Proof. unfold zseq. rewrite seq_S, map_app. reflexivity. Qed.

Lemma zseq_add a b : zseq (a + b) = zseq a ++ map (fun j => Z.of_nat a + j) (zseq b).
Proof.
  induction b as [|b IH]; [rewrite Nat.add_0_r, app_nil_r; reflexivity|].
  rewrite Nat.add_succ_r, !zseq_snoc, IH, map_app, <- app_assoc. cbn [map]. rewrite Nat2Z.inj_add. reflexivity.
Qed.

Lemma zseq_succ n : zseq (S n) = 0 :: map (Z.add 1) (zseq n).
Proof.
  unfold zseq. simpl. f_equal. rewrite <- seq_shift, !map_map.
  apply map_ext. intros k. lia.
Qed.

Lemma length_zseq n : length (zseq n) = n.
Proof. unfold zseq. rewrite length_map, length_seq. reflexivity. Qed.

Lemma zlen_map_zseq {A} (f : Z -> A) n : zlen (map f (zseq n)) = Z.of_nat n.
Proof. unfold zlen, zseq. rewrite !length_map, length_seq. reflexivity. Qed.

Lemma anth_map_zseq {A} (d : A) (f : Z -> A) n i : 0 <= i < Z.of_nat n -> anth d (map f (zseq n)) i = f i.
Proof.
  intros Hi. unfold anth, zseq. rewrite map_map.
  rewrite (nth_indep _ d (f (Z.of_nat 0))) by (rewrite length_map, length_seq; lia).
  rewrite (map_nth (fun k => f (Z.of_nat k))), seq_nth by lia. f_equal. lia.
Qed.

(** A check of all [2 ^ k] integers from [base], splitting in halves. *)
Fixpoint zforall (k : nat) (f : Z -> bool) (base : Z) : bool :=
  match k with
  | O => f base
  | S k' => zforall k' f base && zforall k' f (base + 2 ^ Z.of_nat k')
  end.

Lemma zforall_true k f : forall base, zforall k f base = true ->
  forall i, base <= i < base + 2 ^ Z.of_nat k -> f i = true.
Proof.
  induction k as [|k IH]; intros base Hb i Hi; cbn [zforall] in Hb.
  - change (2 ^ Z.of_nat 0) with 1 in Hi. replace i with base by lia. exact Hb.
  - apply andb_prop in Hb as [H1 H2].
    rewrite Nat2Z.inj_succ, Z.pow_succ_r in Hi by lia.
    destruct (Z.lt_ge_cases i (base + 2 ^ Z.of_nat k)).
    + apply (IH base H1). lia.
    + apply (IH _ H2). lia.
Qed.

(** ** Memory *)

Lemma rd8_wr8 m a v b : rd8 (wr8 m a v) b = if a =? b then u8 v else rd8 m b.
Proof.
  unfold rd8, wr8. destruct (Z.eqb_spec a b) as [->|Hne].
  - rewrite lookup_insert_eq. reflexivity.
  - rewrite lookup_insert_ne by exact Hne. reflexivity.
Qed.

Lemma rd8_range m a : mem_ok m -> is_u8 (rd8 m a).
Proof.
  intros Hm. unfold rd8. destruct (m !! a) as [b|] eqn:E; simpl.
  - exact (map_Forall_lookup_1 _ _ _ _ Hm E).
  - unfold is_u8. lia.
Qed.

Lemma mem_ok_wr8 m a v : mem_ok m -> mem_ok (wr8 m a v).
Proof. intros Hm. apply map_Forall_insert_2; [apply u8_range | exact Hm]. Qed.

Lemma mem_ok_wr16 m a v : mem_ok m -> mem_ok (wr16 m a v).
Proof. intros Hm. unfold wr16. auto using mem_ok_wr8. Qed.

Lemma mem_ok_wr32 m a v : mem_ok m -> mem_ok (wr32 m a v).
Proof. intros Hm. unfold wr32. auto using mem_ok_wr8. Qed.

Lemma mem_ok_wr_bytes bs : forall m a, mem_ok m -> mem_ok (wr_bytes m a bs).
Proof. induction bs as [|b bs IH]; intros m a Hm; simpl; auto using mem_ok_wr8. Qed.

(** Case analysis on every address comparison of the goal. *)
Ltac split_addr :=
  repeat match goal with
    | |- context [?a =? ?b] => destruct (Z.eqb_spec a b); try (exfalso; lia)
    end.

Lemma rd8_wr32 m a v b :
  rd8 (wr32 m a v) b
  = if (a <=? b) && (b <? a + 4) then u8 (Z.shiftr v (8 * (b - a))) else rd8 m b.
Proof.
  unfold wr32. rewrite !rd8_wr8.
  destruct (Z.leb_spec a b), (Z.ltb_spec b (a + 4)); simpl; split_addr; subst; try reflexivity;
    f_equal.
  - rewrite Z.add_simpl_l. reflexivity.
  - rewrite Z.add_simpl_l. reflexivity.
  - rewrite Z.add_simpl_l. reflexivity.
  - rewrite Z.sub_diag. symmetry. apply Z.shiftr_0_r.
Qed.

Lemma rd8_wr32_out m a v b : b < a \/ a + 4 <= b -> rd8 (wr32 m a v) b = rd8 m b.
Proof.
  intros H. rewrite rd8_wr32.
  destruct (Z.leb_spec a b), (Z.ltb_spec b (a + 4)); simpl; try reflexivity. lia.
Qed.

Lemma rd32_wr32_disjoint m a v b :
  b + 4 <= a \/ a + 4 <= b -> rd32 (wr32 m a v) b = rd32 m b.
Proof. intros H. unfold rd32. rewrite !rd8_wr32_out by lia. reflexivity. Qed.

(** The bits of a little-endian word are those of its bytes. *)
Lemma rd32_bits m a i : mem_ok m -> 0 <= i < 32 ->
  Z.testbit (rd32 m a) i = Z.testbit (rd8 m (a + i / 8)) (i mod 8).
Proof.
  intros Hm Hi. unfold rd32. push_testbit.
  assert (Hlo : forall c j, j < 0 -> Z.testbit (rd8 m c) j = false)
    by (intros; apply Z.testbit_neg_r; lia).
  assert (Hhi : forall c j, 8 <= j -> Z.testbit (rd8 m c) j = false)
    by (intros; apply is_u8_bits; [apply rd8_range; exact Hm | lia]).
  assert (i < 8 \/ 8 <= i < 16 \/ 16 <= i < 24 \/ 24 <= i) as [H|[H|[H|H]]] by lia.
  - rewrite (Z.div_small i 8), (Z.mod_small i 8), Z.add_0_r, (Hlo (a + 1)), (Hlo (a + 2)),
      (Hlo (a + 3)), !orb_false_r by lia. reflexivity.
  - replace (i / 8) with 1 by zify_div. replace (i mod 8) with (i - 8) by zify_div.
    rewrite (Hhi a), (Hlo (a + 2)), (Hlo (a + 3)), !orb_false_r by lia. reflexivity.
  - replace (i / 8) with 2 by zify_div. replace (i mod 8) with (i - 16) by zify_div.
    rewrite (Hhi a), (Hhi (a + 1)), (Hlo (a + 3)), !orb_false_r by lia. reflexivity.
  - replace (i / 8) with 3 by zify_div. replace (i mod 8) with (i - 24) by zify_div.
    rewrite (Hhi a), (Hhi (a + 1)), (Hhi (a + 2)) by lia. reflexivity.
Qed.

Lemma rd32_range m a : mem_ok m -> is_u32 (rd32 m a).
Proof.
  intros Hm. unfold rd32.
  assert (H : forall c k, 0 <= k <= 24 -> is_u32 (Z.shiftl (rd8 m c) k)).
  { intros c k Hk. pose proof (rd8_range m c Hm) as Hb. unfold is_u8 in Hb. unfold is_u32.
    rewrite Z.shiftl_mul_pow2 by lia.
    pose proof (Z.pow_le_mono_r 2 k 24). pose proof (Z.pow_pos_nonneg 2 k). nia. }
  repeat apply lor_u32; try (apply H; lia).
  rewrite <- (Z.shiftl_0_r (rd8 m a)). apply H. lia.
Qed.

(** Two 32-bit words with the same 32 bits are equal. *)
Lemma u32_ext x y : is_u32 x -> is_u32 y ->
  (forall i, 0 <= i < 32 -> Z.testbit x i = Z.testbit y i) -> x = y.
Proof.
  intros Hx Hy H. apply Z.bits_inj'. intros i Hi.
  destruct (Z.lt_ge_cases i 32); [apply H; lia|].
  rewrite !is_u32_bits by assumption. reflexivity.
Qed.

Lemma rd32_wr32_same m a v : mem_ok m -> rd32 (wr32 m a v) a = u32 v.
Proof.
  intros Hm. apply u32_ext; [apply rd32_range, mem_ok_wr32, Hm | apply u32_range|].
  intros i Hi. rewrite rd32_bits by (auto using mem_ok_wr32). rewrite rd8_wr32, u32_bits by lia.
  destruct (Z.leb_spec a (a + i / 8)), (Z.ltb_spec (a + i / 8) (a + 4)),
    (Z.ltb_spec i 32); simpl; try (exfalso; zify_div).
  rewrite u8_bits by zify_div.
  destruct (Z.ltb_spec (i mod 8) 8); simpl; [|exfalso; zify_div].
  rewrite Z.shiftr_spec by zify_div. f_equal. zify_div.
Qed.

(** Reading back a [memcpy]. *)
Lemma rd8_wr_bytes bs : forall m a b,
  rd8 (wr_bytes m a bs) b
  = if (a <=? b) && (b <? a + zlen bs) then u8 (aget bs (b - a)) else rd8 m b.
Proof.
  induction bs as [|x bs IH]; intros m a b; simpl.
  - change (zlen []) with 0. destruct (Z.leb_spec a b), (Z.ltb_spec b (a + 0)); simpl;
      try reflexivity. exfalso; lia.
  - rewrite IH, rd8_wr8. unfold zlen; simpl length. rewrite Nat2Z.inj_succ.
    destruct (Z.leb_spec (a + 1) b), (Z.leb_spec a b),
      (Z.ltb_spec b (a + 1 + Z.of_nat (length bs))),
      (Z.ltb_spec b (a + Z.succ (Z.of_nat (length bs)))), (Z.eqb_spec a b);
      simpl; try reflexivity; try (exfalso; lia).
    + unfold aget, anth. replace (Z.to_nat (b - a)) with (S (Z.to_nat (b - (a + 1)))) by lia. reflexivity.
    + subst b. rewrite Z.sub_diag. reflexivity.
Qed.

(** ** Deciding equations between 32-bit words bit by bit *)

Lemma is_u32_lit p : (p < 4294967296)%positive -> is_u32 (Zpos p).
Proof. intros H. split; [discriminate | exact H]. Qed.
#[export] Hint Extern 1 (is_u32 (Zpos _)) => (apply is_u32_lit; reflexivity) : word.
#[export] Hint Extern 1 (is_u32 0) => (unfold is_u32; lia) : word.
#[export] Hint Extern 1 (is_u32 (not32 _)) => (apply u32_range) : word.
#[export] Hint Extern 2 (is_u32 (Z.shiftr _ _)) => (apply shiftr_u32; [lia|]) : word.

(** Evaluates every [Z.testbit] of a literal, and every literal index. *)
Ltac eval_testbits :=
  repeat match goal with
    | |- context [Z.testbit ?x ?k] =>
      lazymatch k with
      | Z0 => fail | Zpos _ => fail | Zneg _ => fail
      | _ => let k' := eval vm_compute in k in
             lazymatch k' with
             | Z0 => idtac | Zpos _ => idtac | Zneg _ => idtac
             end; change k with k'
      end
    | |- context [Z.testbit (Zpos ?p) ?k] =>
      let b := eval vm_compute in (Z.testbit (Zpos p) k) in
      change (Z.testbit (Zpos p) k) with b
    | |- context [Z.testbit Z0 ?k] => change (Z.testbit Z0 k) with false
    | |- context [Z.testbit ?x (Zneg ?p)] => change (Z.testbit x (Zneg p)) with false
    | |- context [?a <? ?b] =>
      let b' := eval vm_compute in (a <? b) in
      lazymatch b' with true => idtac | false => idtac end;
      change (a <? b) with b'
    end.

(** Bits beyond the width of a variable. *)
Ltac high_bits :=
  repeat match goal with
    | H : is_u32 ?x |- context [Z.testbit ?x (Zpos ?k)] =>
      lazymatch eval vm_compute in (32 <=? Zpos k) with
      | true => rewrite (is_u32_bits x (Zpos k) H ltac:(lia))
      end
    | H : is_u8 ?x |- context [Z.testbit ?x (Zpos ?k)] =>
      lazymatch eval vm_compute in (8 <=? Zpos k) with
      | true => rewrite (is_u8_bits x (Zpos k) H ltac:(lia))
      end
    end.

(** The bit operators at a literal position, down to bits of variables. *)
Ltac eval_bits :=
  unfold not32;
  repeat first [rewrite u32_bits by lia | progress push_testbit];
  eval_testbits; high_bits;
  cbn [andb orb negb xorb];
  rewrite ?andb_true_r, ?andb_false_r, ?orb_true_r, ?orb_false_r, ?xorb_false_r, ?xorb_true_r.

Ltac bool_cases :=
  repeat match goal with |- context [Z.testbit ?x ?k] => destruct (Z.testbit x k) end;
  reflexivity.

(** [0 <= i < n] for a literal [n]: one goal per value. *)
Ltac enum i H :=
  let rec go k :=
    lazymatch type of H with
    | _ <= _ < ?n =>
      let done := eval vm_compute in (n <=? k) in
      lazymatch done with
      | true => exfalso; lia
      | false =>
        destruct (Z.eq_dec i k) as [->|?];
        [clear H | let k' := eval vm_compute in (k + 1) in go k']
      end
    end in go 0.

(** An equation of 32-bit words, bit by bit; [tac] knows facts on single
    bits of the variables. *)
Ltac word_bits_using tac :=
  apply u32_ext; [auto with word | auto with word |];
  let i := fresh "i" in let Hi := fresh "Hi" in
  intros i Hi; enum i Hi; eval_bits; try tac; try reflexivity; bool_cases.
Ltac word_bits := word_bits_using idtac.
