(* ===== verification/Scheduler.v ===== *)
(** * The event scheduler ([include/scheduler.h], [src/scheduler.c])

    Ten event slots, each with an active flag, an absolute deadline and a
    callback; a cached copy of the earliest deadline lets the execution loop
    compare one number per chain instead of scanning the slots.

    The callbacks are a type parameter [CB] ([NULL] is [None]); [Sched_Tick]
    runs them on the state [S] of the whole machine, of which the scheduler is
    a part reached by a getter and a setter ([HasSched]). *)

From S2P Require Import Prelude.

Definition SCHED_EVENT_TIMER0 : Z := 0.
Definition SCHED_EVENT_SIO_IRQ : Z := 3.
Definition SCHED_EVENT_CDROM : Z := 4.
Definition SCHED_EVENT_CDROM_DEFERRED : Z := 5.
Definition SCHED_EVENT_CDROM_IRQ : Z := 6.
Definition SCHED_EVENT_CDROM_PENDING : Z := 7.
Definition SCHED_EVENT_HBLANK : Z := 8.
Definition SCHED_EVENT_DMA : Z := 9.
Definition SCHED_EVENT_COUNT : nat := 10.

Record Sched (CB : Type) := mkSched {
  sched_active : list bool;
  sched_deadline : list Z;
  sched_callback : list (option CB);
  sched_cached_earliest : Z;
  sched_earliest_id : Z
}.
Arguments mkSched {CB}.
Arguments sched_active {CB}.
Arguments sched_deadline {CB}.
Arguments sched_callback {CB}.
Arguments sched_cached_earliest {CB}.
Arguments sched_earliest_id {CB}.

#[export] Instance eta_Sched CB : Eta (Sched CB) := fun s =>
  mkSched (sched_active s) (sched_deadline s) (sched_callback s)
          (sched_cached_earliest s) (sched_earliest_id s).

Definition active_at {CB} (s : Sched CB) (i : Z) : bool := anth false (sched_active s) i.
Definition deadline_at {CB} (s : Sched CB) (i : Z) : Z := aget (sched_deadline s) i.
Definition callback_at {CB} (s : Sched CB) (i : Z) : option CB := anth None (sched_callback s) i.

Definition Sched_Init {CB} : Sched CB :=
  mkSched (repeat false SCHED_EVENT_COUNT) (repeat 0 SCHED_EVENT_COUNT)
          (repeat None SCHED_EVENT_COUNT) UINT64_MAX (-1).

(** One iteration of the scan of [sched_recompute_cached]; the accumulator is
    the pair of locals [(earliest, earliest_id)]. *)
Definition recompute_step {CB} (s : Sched CB) (acc : Z * Z) (i : Z) : Z * Z :=
  if active_at s i && (deadline_at s i <? acc.1) then (deadline_at s i, i) else acc.

Definition sched_recompute_cached {CB} (s : Sched CB) : Sched CB :=
  let '(earliest, earliest_id) :=
    fold_left (recompute_step s) (zseq SCHED_EVENT_COUNT) (UINT64_MAX, -1) in
  s <| sched_cached_earliest := earliest |> <| sched_earliest_id := earliest_id |>.

Definition Sched_Add {CB} (event_id absolute_cycle : Z) (cb : CB) (s : Sched CB) : Sched CB :=
  let was_earliest := event_id =? sched_earliest_id s in
  let s := s <| sched_active ::= fun l => aset l event_id true |>
             <| sched_deadline ::= fun l => aset l event_id absolute_cycle |>
             <| sched_callback ::= fun l => aset l event_id (Some cb) |> in
  if absolute_cycle <=? sched_cached_earliest s then
    s <| sched_cached_earliest := absolute_cycle |> <| sched_earliest_id := event_id |>
  else if was_earliest then sched_recompute_cached s
  else s.

Definition Sched_Remove {CB} (event_id : Z) (s : Sched CB) : Sched CB :=
  let was_earliest := event_id =? sched_earliest_id s in
  let s := s <| sched_active ::= fun l => aset l event_id false |> in
  if was_earliest then sched_recompute_cached s else s.

(** What [Sched_Tick] needs of the machine: where its scheduler is, and what a
    callback does to it. *)
Class HasSched (S CB : Type) := {
  get_sched : S -> Sched CB;
  set_sched : Sched CB -> S -> S;
  run_callback : CB -> Z -> S -> S;
  get_set_sched : forall c s, get_sched (set_sched c s) = c
}.

Section Tick.
Context {S CB : Type} `{HasSched S CB}.

(** Is event [i] due at [current_cycle]? *)
Definition due (current_cycle : Z) (c : Sched CB) (i : Z) : bool :=
  active_at c i && (deadline_at c i <=? current_cycle).

(** The body of the loop; [needed_recompute] is threaded with the state. *)
Definition tick_step (current_cycle : Z) (acc : S * bool) (i : Z) : S * bool :=
  let '(s, needed_recompute) := acc in
  let c := get_sched s in
  if due current_cycle c i then
    let needed_recompute := if i =? sched_earliest_id c then true else needed_recompute in
    let ticks_late := s32 (current_cycle - deadline_at c i) in
    let s := set_sched (c <| sched_active ::= fun l => aset l i false |>) s in
    match callback_at c i with
    | Some cb => (run_callback cb ticks_late s, needed_recompute)
    | None => (s, needed_recompute)
    end
  else (s, needed_recompute).

Definition Sched_Tick (current_cycle : Z) (s : S) : S :=
  let '(s, needed_recompute) :=
    fold_left (tick_step current_cycle) (zseq SCHED_EVENT_COUNT) (s, false) in
  if needed_recompute then set_sched (sched_recompute_cached (get_sched s)) s else s.

(** The dispatch of [Run_CPU]'s loops: tick only when the cached deadline
    has passed. *)
Definition dispatch_due (global_cycles : Z) (s : S) : S :=
  if sched_cached_earliest (get_sched s) <=? global_cycles
  then Sched_Tick global_cycles s else s.
End Tick.

(** ** Well-formedness and the cache *)

Definition wf_sched {CB} (s : Sched CB) : Prop :=
  zlen (sched_active s) = 10 /\ zlen (sched_deadline s) = 10 /\
  zlen (sched_callback s) = 10 /\ Forall is_u64 (sched_deadline s).

(** The cached pair is the true minimum over the active events; [-1] with
    [UINT64_MAX] when no event has a deadline below [UINT64_MAX]. *)
Definition cache_valid {CB} (s : Sched CB) : Prop :=
  (forall i, 0 <= i < 10 -> active_at s i = true ->
     sched_cached_earliest s <= deadline_at s i) /\
  ((sched_earliest_id s = -1 /\ sched_cached_earliest s = UINT64_MAX) \/
   (0 <= sched_earliest_id s < 10 /\ active_at s (sched_earliest_id s) = true /\
    deadline_at s (sched_earliest_id s) = sched_cached_earliest s)).

(** A word on reading the fields of an updated scheduler. *)
Lemma active_at_set {CB} (s : Sched CB) i j b : wf_sched s -> 0 <= i < 10 -> 0 <= j ->
  active_at (s <| sched_active ::= fun l => aset l i b |>) j
  = if i =? j then b else active_at s j.
Proof. intros (Ha & _) Hi Hj. apply anth_aset; lia. Qed.

Lemma wf_sched_active {CB} (s : Sched CB) i b :
  wf_sched s -> wf_sched (s <| sched_active ::= fun l => aset l i b |>).
Proof. intros (Ha & Hd & Hc & Hu). unfold wf_sched; cbn. rewrite zlen_aset. auto. Qed.

Lemma deadline_u64 {CB} (s : Sched CB) i : wf_sched s -> is_u64 (deadline_at s i).
Proof. intros (_ & _ & _ & Hu). apply (Forall_aget is_u64); [|exact Hu]. unfold is_u64; lia. Qed.

(** *** The scan *)

Lemma recompute_fold {CB} (s : Sched CB) l : forall acc,
  let res := fold_left (recompute_step s) l acc in
  res.1 <= acc.1 /\
  (forall i, In i l -> active_at s i = true -> res.1 <= deadline_at s i) /\
  (res = acc \/ (In res.2 l /\ active_at s res.2 = true /\ deadline_at s res.2 = res.1)).
Proof.
  induction l as [|j l IH]; intros acc; simpl.
  - repeat split; [lia | tauto | auto].
  - destruct (IH (recompute_step s acc j)) as (Hle & Hall & Hres).
    unfold recompute_step in *.
    destruct (active_at s j) eqn:Ej; simpl in *.
    + destruct (Z.ltb_spec (deadline_at s j) acc.1); simpl in *.
      * repeat split; [lia| |].
        -- intros i [<-|Hi] Hai; auto.
        -- right. destruct Hres as [->|(? & ? & ?)]; simpl; auto.
      * repeat split; [lia| |].
        -- intros i [<-|Hi] Hai; [lia|auto].
        -- destruct Hres as [->|(? & ? & ?)]; auto.
    + repeat split; [lia| |].
      * intros i [<-|Hi] Hai; [congruence|auto].
      * destruct Hres as [->|(? & ? & ?)]; auto.
Qed.

(** The same scheduler up to the cached pair. *)
Definition same_events {CB} (s s' : Sched CB) : Prop :=
  sched_active s = sched_active s' /\ sched_deadline s = sched_deadline s' /\
  sched_callback s = sched_callback s'.

Lemma recompute_same {CB} (s : Sched CB) : same_events (sched_recompute_cached s) s.
Proof. unfold sched_recompute_cached. destruct (fold_left _ _ _). repeat split. Qed.

Lemma same_events_wf {CB} (s s' : Sched CB) : same_events s s' -> wf_sched s' -> wf_sched s.
Proof. unfold wf_sched. intros (-> & -> & ->). auto. Qed.

Lemma same_events_at {CB} (s s' : Sched CB) i : same_events s s' ->
  active_at s i = active_at s' i /\ deadline_at s i = deadline_at s' i.
Proof. unfold active_at, deadline_at. intros (-> & -> & _). auto. Qed.

Lemma recompute_wf {CB} (s : Sched CB) : wf_sched s -> wf_sched (sched_recompute_cached s).
Proof. apply same_events_wf, recompute_same. Qed.

Lemma recompute_valid {CB} (s : Sched CB) :
  wf_sched s -> cache_valid (sched_recompute_cached s).
Proof.
  intros Hwf. pose proof (fun i => same_events_at _ _ i (recompute_same s)) as Hsame.
  unfold cache_valid. setoid_rewrite (fun i => proj1 (Hsame i)).
  setoid_rewrite (fun i => proj2 (Hsame i)).
  unfold sched_recompute_cached.
  pose proof (recompute_fold s (zseq SCHED_EVENT_COUNT) (UINT64_MAX, -1)) as (Hle & Hall & Hres).
  destruct (fold_left _ _ _) as [e id]. cbn [fst snd] in *. cbn. split.
  - intros i Hi. apply Hall. apply in_zseq. exact Hi.
  - destruct Hres as [[= -> ->]|(Hin & Hact & Hd)]; [auto|].
    right. apply in_zseq in Hin. auto.
Qed.

#[export] Hint Resolve recompute_wf recompute_valid wf_sched_active : sched.

(** *** Adding and removing events *)

Lemma wf_sched_add_fields {CB} (s : Sched CB) ev c cb :
  wf_sched s -> is_u64 c ->
  wf_sched (s <| sched_active ::= fun l => aset l ev true |>
              <| sched_deadline ::= fun l => aset l ev c |>
              <| sched_callback ::= fun l => aset l ev (Some cb) |>).
Proof.
  intros (Ha & Hd & Hc & Hu) Hr. unfold wf_sched; cbn. rewrite !zlen_aset.
  auto using Forall_aset.
Qed.

Lemma Sched_Add_wf {CB} (s : Sched CB) ev c cb :
  wf_sched s -> is_u64 c -> wf_sched (Sched_Add ev c cb s).
Proof.
  intros Hwf Hc. pose proof (wf_sched_add_fields s ev c cb Hwf Hc) as Hf. unfold Sched_Add.
  destruct (_ <=? _); [exact Hf|]. destruct (_ =? _); auto with sched.
Qed.

Lemma Sched_Remove_wf {CB} (s : Sched CB) ev : wf_sched s -> wf_sched (Sched_Remove ev s).
Proof. intros Hwf. unfold Sched_Remove. destruct (_ =? _); auto with sched. Qed.

(** The slots after [Sched_Add]: only [ev] changes. *)
Lemma Sched_Add_at {CB} (s : Sched CB) ev c cb i : wf_sched s -> 0 <= ev < 10 -> 0 <= i ->
  active_at (Sched_Add ev c cb s) i = (if ev =? i then true else active_at s i) /\
  deadline_at (Sched_Add ev c cb s) i = (if ev =? i then c else deadline_at s i) /\
  callback_at (Sched_Add ev c cb s) i = (if ev =? i then Some cb else callback_at s i).
Proof.
  intros (Ha & Hd & Hc & Hu) Hev Hi.
  assert (Hf : forall s', same_events s' (s <| sched_active ::= fun l => aset l ev true |>
              <| sched_deadline ::= fun l => aset l ev c |>
              <| sched_callback ::= fun l => aset l ev (Some cb) |>) ->
    active_at s' i = (if ev =? i then true else active_at s i) /\
    deadline_at s' i = (if ev =? i then c else deadline_at s i) /\
    callback_at s' i = (if ev =? i then Some cb else callback_at s i)).
  { unfold active_at, deadline_at, callback_at, aget. intros s' (-> & -> & ->). cbn.
    rewrite !anth_aset by lia. auto. }
  unfold Sched_Add. destruct (_ <=? _); [apply Hf; repeat split|].
  destruct (_ =? sched_earliest_id _); apply Hf; [apply recompute_same | repeat split].
Qed.

Lemma Sched_Remove_at {CB} (s : Sched CB) ev i : wf_sched s -> 0 <= ev < 10 -> 0 <= i ->
  active_at (Sched_Remove ev s) i = (if ev =? i then false else active_at s i) /\
  deadline_at (Sched_Remove ev s) i = deadline_at s i.
Proof.
  intros Hwf Hev Hi. rewrite <- (active_at_set s ev i false) by assumption.
  unfold Sched_Remove. destruct (_ =? _); [|split; reflexivity].
  destruct (same_events_at _ _ i (recompute_same
    (s <| sched_active ::= fun l => aset l ev false |>))) as [-> ->]. split; reflexivity.
Qed.

Lemma deactivate_valid {CB} (s : Sched CB) ev : wf_sched s -> 0 <= ev < 10 ->
  cache_valid s -> ev <> sched_earliest_id s ->
  cache_valid (s <| sched_active ::= fun l => aset l ev false |>).
Proof.
  intros Hwf Hev (Hmin & Hid) Hne. unfold cache_valid. cbn [upd setter sched_earliest_id
    sched_cached_earliest]. split.
  - intros i Hi. rewrite active_at_set by lia || assumption.
    destruct (Z.eqb_spec ev i); [discriminate | apply Hmin, Hi].
  - destruct Hid as [?|(? & ? & ?)]; [auto|]. right.
    rewrite active_at_set by lia || assumption.
    destruct (Z.eqb_spec ev (sched_earliest_id s)); [congruence | auto].
Qed.

(** [Sched_Add] keeps the cached earliest deadline exact, including when it
    pushes the event that was the earliest into the future. *)
Lemma Sched_Add_valid {CB} (s : Sched CB) ev c cb :
  wf_sched s -> 0 <= ev < 10 -> is_u64 c -> cache_valid s ->
  cache_valid (Sched_Add ev c cb s).
Proof.
  intros Hwf Hev Hc (Hmin & Hid).
  pose proof (fun i => Sched_Add_at s ev c cb i Hwf Hev) as Hat. unfold is_u64 in Hc.
  pose proof (wf_sched_add_fields s ev c cb Hwf Hc) as Hf.
  unfold Sched_Add in Hat |- *. cbn [upd setter sched_cached_earliest] in Hat |- *.
  destruct (Z.leb_spec c (sched_cached_earliest s)); cbn zeta in Hat |- *.
  - split.
    + intros i Hi. destruct (Hat i) as (-> & -> & _); [lia|].
      cbn. destruct (Z.eqb_spec ev i); [lia|]. intros Ha. specialize (Hmin i Hi Ha). lia.
    + right. destruct (Hat ev) as (Ha & Hd & _); [lia|]. rewrite Z.eqb_refl in Ha, Hd. auto.
  - destruct (Z.eqb_spec ev (sched_earliest_id s)) as [|Hne]; [apply recompute_valid, Hf|].
    split.
    + intros i Hi. destruct (Hat i) as (-> & -> & _); [lia|].
      cbn. destruct (Z.eqb_spec ev i); [lia|]. apply Hmin, Hi.
    + right. destruct Hid as [(? & ?)|(Hr & Ha & Hd)]; [unfold UINT64_MAX in *; lia|].
      cbn [upd setter sched_earliest_id sched_cached_earliest].
      destruct (Hat (sched_earliest_id s)) as (-> & -> & _); [lia|].
      destruct (Z.eqb_spec ev (sched_earliest_id s)); [congruence | auto].
Qed.

Lemma Sched_Remove_valid {CB} (s : Sched CB) ev : wf_sched s -> 0 <= ev < 10 ->
  cache_valid s -> cache_valid (Sched_Remove ev s).
Proof.
  intros Hwf Hev Hv. unfold Sched_Remove.
  destruct (Z.eqb_spec ev (sched_earliest_id s)); [auto with sched|].
  apply deactivate_valid; assumption.
Qed.

(** ** The tick *)

Section TickProofs.
Context {S CB : Type} `{HasSched S CB}.

Lemma tick_step_not_due now (s : S) b i :
  due now (get_sched s) i = false -> tick_step now (s, b) i = (s, b).
Proof. intros Hd. unfold tick_step. rewrite Hd. reflexivity. Qed.

(** No event is due before the cached deadline. *)
Lemma not_due_before_cached now (c : Sched CB) i :
  cache_valid c -> now < sched_cached_earliest c -> 0 <= i < 10 -> due now c i = false.
Proof.
  intros (Hmin & _) Hlt Hi. unfold due. destruct (active_at c i) eqn:Ea; [|reflexivity].
  specialize (Hmin i Hi Ea). apply Z.leb_gt. lia.
Qed.

Lemma tick_fold_idle now (s : S) b l :
  (forall i, In i l -> due now (get_sched s) i = false) ->
  fold_left (tick_step now) l (s, b) = (s, b).
Proof.
  induction l as [|i l IH]; intros Hl; [reflexivity|].
  cbn [fold_left]. rewrite tick_step_not_due by (apply Hl; left; reflexivity).
  apply IH. intros j Hj. apply Hl. right. exact Hj.
Qed.

(** The fast path of the execution loops is exact: testing the one cached
  deadline and skipping the scan when it lies in the future gives the same
  machine as always running the full tick. *)
Theorem dispatch_due_eq_tick (now : Z) (s : S) :
cache_valid (get_sched s) -> dispatch_due now s = Sched_Tick now s.
Proof.
intros Hv. unfold dispatch_due. destruct (Z.leb_spec (sched_cached_earliest (get_sched s)) now);
  [reflexivity|].
unfold Sched_Tick. rewrite tick_fold_idle; [reflexivity|].
intros i Hi. apply not_due_before_cached; [assumption..|]. apply in_zseq in Hi. exact Hi.
Qed.

(** What the tick asks of the callbacks: built from [Sched_Add] and
    [Sched_Remove] they keep the slots well-formed and, when the cache is
    right before them, right after. *)
Definition callbacks_ok : Prop :=
  forall cb late (s : S), wf_sched (get_sched s) ->
    wf_sched (get_sched (run_callback cb late s)) /\
    (cache_valid (get_sched s) -> cache_valid (get_sched (run_callback cb late s))).

Definition tick_inv (acc : S * bool) : Prop :=
  wf_sched (get_sched acc.1) /\ (acc.2 = false -> cache_valid (get_sched acc.1)).

Lemma tick_step_inv now acc i :
  callbacks_ok -> 0 <= i < 10 -> tick_inv acc -> tick_inv (tick_step now acc i).
Proof.
  intros Hcb Hi. destruct acc as [s b]. intros (Hwf & Hv). cbn in *. unfold tick_step.
  destruct (due now (get_sched s) i); [|split; assumption].
  set (c := (get_sched s) <| sched_active ::= fun l => aset l i false |>).
  assert (Hwf' : wf_sched (get_sched (set_sched c s)))
    by (rewrite get_set_sched; apply wf_sched_active, Hwf).
  assert (Hv' : (if i =? sched_earliest_id (get_sched s) then true else b) = false ->
            cache_valid (get_sched (set_sched c s))).
  { rewrite get_set_sched.
    destruct (Z.eqb_spec i (sched_earliest_id (get_sched s))); [discriminate|].
    intros ->. apply deactivate_valid; auto. }
  destruct (callback_at (get_sched s) i) as [cb|]; [|split; assumption].
  destruct (Hcb cb (s32 (now - deadline_at (get_sched s) i)) _ Hwf') as (? & ?).
  split; cbn; auto.
Qed.

Lemma tick_fold_inv now l : forall acc,
  callbacks_ok -> (forall i, In i l -> 0 <= i < 10) ->
  tick_inv acc -> tick_inv (fold_left (tick_step now) l acc).
Proof.
  induction l as [|i l IH]; intros acc Hcb Hl Hacc; [exact Hacc|].
  cbn [fold_left]. apply IH; [exact Hcb | intros j Hj; apply Hl; right; exact Hj |].
  apply tick_step_inv; [exact Hcb | apply Hl; left; reflexivity | exact Hacc].
Qed.

(** A tick leaves the cached earliest deadline exact, whatever its
  callbacks add, remove or reschedule while the slots are being walked: the
  recomputation at the end runs exactly when it is needed. *)
Theorem Sched_Tick_cache_valid (now : Z) (s : S) :
callbacks_ok -> wf_sched (get_sched s) -> cache_valid (get_sched s) ->
wf_sched (get_sched (Sched_Tick now s)) /\ cache_valid (get_sched (Sched_Tick now s)).
Proof.
intros Hcb Hwf Hv. unfold Sched_Tick.
destruct (tick_fold_inv now (zseq SCHED_EVENT_COUNT) (s, false)) as (Hwf' & Hv').
- exact Hcb.
- intros i Hi. apply in_zseq in Hi. exact Hi.
- split; auto.
- destruct (fold_left _ _ _) as [s' [|]]; cbn in *; [|auto].
  rewrite get_set_sched. auto with sched.
Qed.
End TickProofs.

(** ** Which callbacks a tick runs

    Any machine, with a record of the callbacks run on it. *)

Section Record_calls.
Context {S CB : Type} `{HasSched S CB}.

Definition Recorded : Type := S * list (CB * Z).

#[local] Instance recorded : HasSched Recorded CB := {
  get_sched := fun x => get_sched x.1;
  set_sched := fun c x => (set_sched c x.1, x.2);
  run_callback := fun cb late x => (run_callback cb late x.1, x.2 ++ [(cb, late)]);
  get_set_sched := fun c x => get_set_sched c x.1
}.

(** What slot [i] is meant to run: its callback when it is active and due,
    with the lateness as a 32-bit number. *)
Definition turn_calls (now : Z) (c : Sched CB) (i : Z) : list (CB * Z) :=
  if due now c i then
    match callback_at c i with Some cb => [(cb, s32 (now - deadline_at c i))] | None => [] end
  else [].

(** The machine when the loop reaches slot [i]: the callbacks of the slots
    before it have run. *)
Definition at_turn (now : Z) (s : S) (i : Z) : S :=
  (fold_left (tick_step now) (zseq (Z.to_nat i)) (s, false)).1.

Lemma tick_step_recorded now (s : S) log b i :
  let r := tick_step now ((s, log) : Recorded, b) i in
  (r.1.1, r.2) = tick_step now (s, b) i /\ r.1.2 = log ++ turn_calls now (get_sched s) i.
Proof.
  unfold tick_step, turn_calls. cbn [get_sched recorded fst].
  destruct (due now (get_sched s) i); cbn; [|rewrite app_nil_r; auto].
  destruct (callback_at (get_sched s) i); cbn; rewrite ?app_nil_r; auto.
Qed.

Lemma zseq_S n : zseq (Datatypes.S n) = zseq n ++ [Z.of_nat n].
Proof. unfold zseq. rewrite seq_S, map_app. reflexivity. Qed.

Lemma tick_fold_snoc {T} `{HasSched T CB} now (acc : T * bool) n :
  fold_left (tick_step now) (zseq (Datatypes.S n)) acc
  = tick_step now (fold_left (tick_step now) (zseq n) acc) (Z.of_nat n).
Proof. rewrite zseq_S, fold_left_app. reflexivity. Qed.

Lemma tick_fold_recorded now (s : S) n :
  let r := fold_left (tick_step now) (zseq n) ((s, []) : Recorded, false) in
  (r.1.1, r.2) = fold_left (tick_step now) (zseq n) (s, false) /\
  r.1.2 = flat_map (fun i => turn_calls now (get_sched (at_turn now s i)) i) (zseq n).
Proof.
  induction n as [|n IH]; [split; reflexivity|]. cbn zeta in *.
  rewrite (tick_fold_snoc now (s, false)), (tick_fold_snoc (T := Recorded) now ((s, []), false)), zseq_S, flat_map_app.
  unfold at_turn at 2. cbn [flat_map]. rewrite Nat2Z.id, app_nil_r.
  set (r := fold_left (tick_step now) (zseq n) ((s, []) : Recorded, false)) in *.
  change (fold_left _ (zseq n) (s, [], false)) with r. destruct r as [ [s1 log] b].
  destruct IH as [E1 <-]. rewrite <- E1. cbn [fst snd].
  apply (tick_step_recorded now s1 log b (Z.of_nat n)).
Qed.

Lemma at_turn_S now (s : S) i : 0 <= i ->
  exists b, at_turn now s (i + 1) = (tick_step now (at_turn now s i, b) i).1.
Proof.
  intros Hi. exists (fold_left (tick_step now) (zseq (Z.to_nat i)) (s, false)).2.
  unfold at_turn. replace (Z.to_nat (i + 1)) with (Datatypes.S (Z.to_nat i)) by lia.
  rewrite tick_fold_snoc, Z2Nat.id by exact Hi. rewrite <- surjective_pairing. reflexivity.
Qed.

Lemma at_turn_wf now (s : S) i : callbacks_ok (S := S) -> wf_sched (get_sched s) -> 0 <= i <= 10 ->
  wf_sched (get_sched (at_turn now s i)).
Proof.
  intros Hcb Hwf.
  assert (Hn : forall n, (n <= 10)%nat -> wf_sched (get_sched (at_turn now s (Z.of_nat n)))).
  { induction n as [|n IH]; intros Hn; [exact Hwf|].
    destruct (at_turn_S now s (Z.of_nat n)) as [b E]; [lia|].
    replace (Z.of_nat (Datatypes.S n)) with (Z.of_nat n + 1) by lia. rewrite E.
    assert (Hw : wf_sched (get_sched (at_turn now s (Z.of_nat n)))) by (apply IH; lia).
    unfold tick_step. destruct (due now _ _); [|exact Hw].
    destruct (callback_at _ _); cbn [fst]; [refine (proj1 (Hcb _ _ _ _))|]; rewrite get_set_sched; apply wf_sched_active, Hw. }
  intros Hi. rewrite <- (Z2Nat.id i) by lia. apply Hn. lia.
Qed.

Lemma due_deactivate now (c : Sched CB) i j : wf_sched c -> 0 <= i < 10 -> 0 <= j ->
  due now (c <| sched_active ::= fun l => aset l i false |>) j = negb (i =? j) && due now c j.
Proof.
  intros Hwf Hi Hj. unfold due. rewrite active_at_set by assumption. destruct (i =? j); reflexivity.
Qed.

(** Slot [i] became due in the turn of slot [j], through its callback. *)
Definition armed_by (now : Z) (s : S) (j i : Z) : Prop :=
  due now (get_sched (at_turn now s j)) j = true /\
  (exists cb, callback_at (get_sched (at_turn now s j)) j = Some cb) /\
  (j = i \/ due now (get_sched (at_turn now s j)) i = false) /\
  due now (get_sched (at_turn now s (j + 1))) i = true.

Lemma turn_arms now (s : S) i j : callbacks_ok (S := S) -> wf_sched (get_sched s) -> 0 <= i < 10 -> 0 <= j < 10 ->
  due now (get_sched (at_turn now s (j + 1))) i = true ->
  (j <> i /\ due now (get_sched (at_turn now s j)) i = true) \/ armed_by now s j i.
Proof.
  intros Hcb Hwf Hi Hj Hd. destruct (at_turn_S now s j) as [b E]; [lia|].
  pose proof (at_turn_wf now s j Hcb Hwf ltac:(lia)) as Hw.
  destruct (Z.eq_dec j i) as [->|Hne].
  - right. pose proof Hd as Hd'. rewrite E in Hd'. unfold tick_step in Hd'.
    destruct (due now (get_sched (at_turn now s i)) i) eqn:Ei; [|cbn in Hd'; congruence].
    destruct (callback_at (get_sched (at_turn now s i)) i) as [cb|] eqn:Ec.
    + split; [exact Ei | split; [eauto | split; [auto | exact Hd] ] ].
    + cbn [fst] in Hd'. rewrite get_set_sched, due_deactivate, Z.eqb_refl in Hd' by (assumption || lia). discriminate.
  - destruct (due now (get_sched (at_turn now s j)) i) eqn:Ei; [left; auto|]. right.
    pose proof Hd as Hd'. rewrite E in Hd'. unfold tick_step in Hd'.
    destruct (due now (get_sched (at_turn now s j)) j) eqn:Ej; [|cbn in Hd'; congruence].
    destruct (callback_at (get_sched (at_turn now s j)) j) as [cb|] eqn:Ec.
    + split; [exact Ej | split; [eauto | split; [auto | exact Hd] ] ].
    + cbn [fst] in Hd'. rewrite get_set_sched, due_deactivate, Ei, andb_false_r in Hd' by (assumption || lia). discriminate.
Qed.

Lemma tick_same_due now (s : S) i :
  due now (get_sched (Sched_Tick now s)) i = due now (get_sched (at_turn now s 10)) i.
Proof.
  unfold Sched_Tick, at_turn. change (Z.to_nat 10) with SCHED_EVENT_COUNT.
  destruct (fold_left _ _ _) as [s' [|] ]; cbn [fst]; [|reflexivity]. rewrite get_set_sched.
  unfold due. destruct (same_events_at _ _ i (recompute_same (get_sched s'))) as [-> ->]. reflexivity.
Qed.

End Record_calls.
Arguments Recorded : clear implicits.
#[local] Existing Instance recorded.

(** ** Reachable schedulers *)

Lemma Sched_Init_wf {CB} : wf_sched (Sched_Init (CB := CB)).
Proof.
  repeat split. unfold Sched_Init; cbn. repeat constructor; unfold is_u64; lia.
Qed.

Lemma Sched_Init_valid {CB} : cache_valid (Sched_Init (CB := CB)).
Proof.
  split; [|left; split; reflexivity].
  intros i Hi. unfold active_at, Sched_Init, anth. cbn [sched_active].
  rewrite nth_repeat. discriminate.
Qed.
#[export] Hint Resolve Sched_Init_wf Sched_Init_valid Sched_Add_wf Sched_Remove_wf
  Sched_Add_valid Sched_Remove_valid : sched.

(** The schedulers the program can build: [Sched_Init], then any additions
    and removals of its ten events. *)
Inductive sched_reach {CB} : Sched CB -> Prop :=
| reach_init : sched_reach Sched_Init
| reach_add ev c cb s : 0 <= ev < 10 -> is_u64 c -> sched_reach s ->
    sched_reach (Sched_Add ev c cb s)
| reach_remove ev s : 0 <= ev < 10 -> sched_reach s -> sched_reach (Sched_Remove ev s).

Lemma sched_reach_inv {CB} (s : Sched CB) : sched_reach s -> wf_sched s /\ cache_valid s.
Proof. induction 1 as [|? ? ? ? ? ? ? []|? ? ? ? []]; eauto with sched. Qed.

(** [C1] The cached earliest deadline is exact in every scheduler the program
    can build: no active event has an earlier deadline, and the cached id names
    an active event with that deadline unless no event has one. *)
Theorem sched_cache_exact {CB} (s : Sched CB) : sched_reach s -> cache_valid s.
Proof. intros Hs. apply (sched_reach_inv s Hs). Qed.

(** ** Witnesses *)

(** Two events, the earlier one added second. *)
Definition two_events : Sched nat := Sched_Add 4 1000 7%nat (Sched_Add 9 5000 8%nat Sched_Init).

Lemma two_events_reach : sched_reach two_events.
Proof. repeat constructor; unfold is_u64; lia. Qed.

(** A machine that is nothing but its scheduler; each callback arms slot 9
    again, in the past. *)
#[local] Instance bare_machine : HasSched (Sched nat) nat := {
  get_sched := fun c => c;
  set_sched := fun c _ => c;
  run_callback := fun cb late c => Sched_Add 9 1500 cb c;
  get_set_sched := fun c s => eq_refl
}.

Lemma bare_callbacks_ok : callbacks_ok (S := Sched nat).
Proof.
  intros cb late s Hwf. split; [|intros Hv]; [apply Sched_Add_wf | apply Sched_Add_valid];
    auto; unfold is_u64; lia.
Qed.

Lemma sched_cache_exact_witness :
  cache_valid (Sched_Add 4 6000 7%nat two_events) /\
  sched_cached_earliest (Sched_Add 4 6000 7%nat two_events) = 5000.
Proof.
  split; [|reflexivity]. apply sched_cache_exact.
  apply reach_add; [lia | unfold is_u64; lia | exact two_events_reach].
Defined.

Lemma Sched_Tick_cache_valid_witness :
  cache_valid (Sched_Tick 2000 two_events) /\
  sched_cached_earliest (Sched_Tick 2000 two_events) = 1500.
Proof.
  split; [|vm_compute; reflexivity].
  refine (proj2 (Sched_Tick_cache_valid 2000 two_events bare_callbacks_ok _ _));
    apply (sched_reach_inv two_events), two_events_reach.
Defined.

Lemma dispatch_due_eq_tick_witness : dispatch_due 999 two_events = Sched_Tick 999 two_events.
Proof.
  apply (dispatch_due_eq_tick 999 two_events). apply (sched_reach_inv two_events), two_events_reach.
Defined.

