(* ===== verification/System.v ===== *)
(** * The state every component shares ([include/superpsx.h])

    The CPU record, the memories, the scheduler instance and the flags that
    [superpsx.h] declares [extern], with the interrupt line
    ([SignalInterrupt] and the level computation of [src/hardware.c]).  Each
    device file threads its own state next to this record. *)

From S2P Require Import Prelude Scheduler.

(** [R3000CPU]; the padding word is left out. *)
Record R3000CPU := mkCPU {
  cycles_left : Z; block_aborted : Z; irq_pending : Z; irq_pending_fast : Z;
  i_stat : Z; i_mask : Z; pc : Z; current_pc : Z; hi : Z; lo : Z;
  branch_cond : Z; initial_cycles_left : Z; cycles_left_correction : Z;
  load_delay_reg : Z; load_delay_val : Z; load_commit_reg : Z; load_commit_val : Z;
  regs : list Z; cop0 : list Z; cp2_data : list Z; cp2_ctrl : list Z
}.
#[export] Instance eta_CPU : Eta R3000CPU := fun c =>
  mkCPU (cycles_left c) (block_aborted c) (irq_pending c) (irq_pending_fast c)
    (i_stat c) (i_mask c) (pc c) (current_pc c) (hi c) (lo c)
    (branch_cond c) (initial_cycles_left c) (cycles_left_correction c)
    (load_delay_reg c) (load_delay_val c) (load_commit_reg c) (load_commit_val c)
    (regs c) (cop0 c) (cp2_data c) (cp2_ctrl c).

Definition PSX_COP0_BADVADDR : Z := 8.
Definition PSX_COP0_SR : Z := 12.
Definition PSX_COP0_CAUSE : Z := 13.
Definition PSX_COP0_EPC : Z := 14.

(** Every function the source stores in a scheduler slot. *)
Inductive callback :=
| Timer_Callback (t : Z)
| Sched_SIO_IRQ_Callback
| CDROM_EventCallback
| CDROM_PendingCallback
| CDROM_DeferredCallback
| CDROM_DeferredIRQActivate
| cdrom_shell_close_stage2
| cdrom_shell_close_stage3
| DMA_FireCompletion
| Sched_HBlank_Callback.

(** The options of [psx_config] the modelled code reads. *)
Record PSXConfig := mkConfig { region_pal : bool; cdrom_fast : bool; interpreter : bool }.

Record Sys := mkSys {
  cpu : R3000CPU;
  psx_ram : gmap Z Z; psx_bios : gmap Z Z; scratchpad_buf : gmap Z Z;
  cache_ctrl : Z;
  sched : Sched callback;
  global_cycles : Z; partial_block_cycles : Z; sched_interrupt_chain : Z;
  psx_block_exception : bool; psx_abort_pc : Z;
  cdrom_irq_active : bool;
  hblank_frame_start_cycle : Z;
  jit_l1_ram : gmap Z unit;  (* the RAM pages that have translated code *)
  jit_page_gen : list Z;
  psx_config : PSXConfig
}.
#[export] Instance eta_Sys : Eta Sys := fun s =>
  mkSys (cpu s) (psx_ram s) (psx_bios s) (scratchpad_buf s) (cache_ctrl s) (sched s)
    (global_cycles s) (partial_block_cycles s) (sched_interrupt_chain s)
    (psx_block_exception s) (psx_abort_pc s) (cdrom_irq_active s)
    (hblank_frame_start_cycle s) (jit_l1_ram s) (jit_page_gen s) (psx_config s).

Definition upd_cpu (f : R3000CPU -> R3000CPU) (s : Sys) : Sys := s <| cpu ::= f |>.
Definition upd_sched (f : Sched callback -> Sched callback) (s : Sys) : Sys := s <| sched ::= f |>.

Definition get_cop0 (s : Sys) (i : Z) : Z := aget (cop0 (cpu s)) i.
Definition set_cop0 (i v : Z) (s : Sys) : Sys := upd_cpu (fun c => c <| cop0 ::= fun l => aset l i v |>) s.
Definition get_reg (s : Sys) (i : Z) : Z := aget (regs (cpu s)) i.
Definition set_reg (i v : Z) (s : Sys) : Sys := upd_cpu (fun c => c <| regs ::= fun l => aset l i v |>) s.
Definition set_pc (v : Z) (s : Sys) : Sys := upd_cpu (fun c => c <| pc := v |>) s.

(** ** The interrupt line ([src/hardware.c]) *)

Definition PSX_IRQ_VALID_MASK : Z := 0x7FF.

(** [CheckInterrupts()] of [superpsx.h]. *)
Definition CheckInterrupts (s : Sys) : Z :=
  Z.land (Z.land (i_stat (cpu s)) (i_mask (cpu s))) PSX_IRQ_VALID_MASK.

(** The two assignments that recompute the line after [i_stat] or [i_mask]
    changed. *)
Definition recompute_irq_pending (s : Sys) : Sys :=
  let p := b2z (negb (CheckInterrupts s =? 0)) in
  upd_cpu (fun c => c <| irq_pending := p |>
                      <| irq_pending_fast := Z.land p (Z.land (get_cop0 s PSX_COP0_SR) 1) |>) s.

(** [(int32_t)cpu.cycles_left > limit] trims the chain to [limit]. *)
Definition cap_cycles (limit : Z) (s : Sys) : Sys :=
  if limit <? s32 (cycles_left (cpu s)) then
    upd_cpu (fun c => c
      <| cycles_left_correction ::= fun k => s32 (k + (s32 (cycles_left c) - limit)) |>
      <| cycles_left := u32 limit |>) s
  else s.

Definition cap_cycles_for_irq (s : Sys) : Sys :=
  if psx_block_exception s then cap_cycles 0 s else s.

(** The tail shared by [SignalInterrupt] and the I_STAT and I_MASK writes. *)
Definition raise_if_pending (s : Sys) : Sys :=
  if irq_pending (cpu s) =? 0 then s
  else cap_cycles_for_irq (s <| sched_interrupt_chain := 1 |>).

Definition SignalInterrupt (irq : Z) (s : Sys) : Sys :=
  if 10 <? irq then s
  else raise_if_pending (recompute_irq_pending
         (upd_cpu (fun c => c <| i_stat ::= fun v => Z.lor v (Z.shiftl 1 irq) |>) s)).

(** ** JIT page invalidation ([jit_invalidate_page], [src/dynarec.h]) *)

Definition JIT_L1_RAM_PAGES : Z := 512.

Definition jit_invalidate_page (phys_addr : Z) (s : Sys) : Sys :=
  let page := Z.shiftr phys_addr 12 in
  if (page <? JIT_L1_RAM_PAGES) && bool_decide (is_Some (jit_l1_ram s !! page))
  then s <| jit_page_gen ::= fun l => aset l page (u8 (aget l page + 1)) |> else s.

(** Cycles elapsed including the running block: [EFFECTIVE_CYCLES] of
    [timers.c] and [DMA_EFFECTIVE_CYCLES] of [dma.c].  The subtraction is on
    [uint32_t], the sum on [uint64_t]. *)
Definition EFFECTIVE_CYCLES (s : Sys) : Z :=
  u64 (global_cycles s + u32 (initial_cycles_left (cpu s) - cycles_left (cpu s))
       + partial_block_cycles s).

(** ** Reading back updated fields *)

Lemma get_set_cop0 s i j v : zlen (cop0 (cpu s)) = 32 -> 0 <= i < 32 -> 0 <= j ->
  get_cop0 (set_cop0 i v s) j = if i =? j then v else get_cop0 s j.
Proof. intros Hl Hi Hj. apply anth_aset; lia. Qed.

Lemma get_set_reg s i j v : zlen (regs (cpu s)) = 32 -> 0 <= i < 32 -> 0 <= j ->
  get_reg (set_reg i v s) j = if i =? j then v else get_reg s j.
Proof. intros Hl Hi Hj. apply anth_aset; lia. Qed.

Lemma zlen_cop0_set s i v : zlen (cop0 (cpu (set_cop0 i v s))) = zlen (cop0 (cpu s)).
Proof. apply zlen_aset. Qed.

Lemma cop0_set_pc s v : cop0 (cpu (set_pc v s)) = cop0 (cpu s).
Proof. reflexivity. Qed.

(** ** The interrupt line *)

(** The precomputed copies of the line agree with I_STAT, I_MASK and IEc. *)
Definition irq_line_ok (s : Sys) : Prop :=
  irq_pending (cpu s) = b2z (negb (CheckInterrupts s =? 0)) /\
  irq_pending_fast (cpu s) = Z.land (irq_pending (cpu s)) (Z.land (get_cop0 s PSX_COP0_SR) 1).

Lemma recompute_irq_ok s : irq_line_ok (recompute_irq_pending s).
Proof. split; reflexivity. Qed.

(** [cap_cycles] moves cycles from the chain budget to the correction. *)
Lemma cap_cycles_frame k s :
  let c := cpu s in let c' := cpu (cap_cycles k s) in
  i_stat c' = i_stat c /\ i_mask c' = i_mask c /\ cop0 c' = cop0 c /\
  irq_pending c' = irq_pending c /\ irq_pending_fast c' = irq_pending_fast c /\
  sched_interrupt_chain (cap_cycles k s) = sched_interrupt_chain s /\
  regs c' = regs c /\ pc c' = pc c.
Proof. unfold cap_cycles. destruct (_ <? _); repeat split. Qed.

Lemma raise_if_pending_frame s :
  let c := cpu s in let c' := cpu (raise_if_pending s) in
  i_stat c' = i_stat c /\ i_mask c' = i_mask c /\ cop0 c' = cop0 c /\
  irq_pending c' = irq_pending c /\ irq_pending_fast c' = irq_pending_fast c /\
  regs c' = regs c /\ pc c' = pc c.
Proof.
  unfold raise_if_pending, cap_cycles_for_irq. destruct (_ =? _); [repeat split|].
  destruct (psx_block_exception _); [|repeat split].
  destruct (cap_cycles_frame 0 (s <| sched_interrupt_chain := 1 |>))
    as (-> & -> & -> & -> & -> & _ & -> & ->). repeat split.
Qed.

Lemma raise_if_pending_irq_ok s : irq_line_ok s -> irq_line_ok (raise_if_pending s).
Proof.
  unfold irq_line_ok, CheckInterrupts, get_cop0.
  destruct (raise_if_pending_frame s) as (-> & -> & -> & -> & -> & _). auto.
Qed.

Lemma raise_if_pending_chain s : irq_pending (cpu s) <> 0 ->
  sched_interrupt_chain (raise_if_pending s) = 1.
Proof.
  intros Hp. unfold raise_if_pending, cap_cycles_for_irq.
  destruct (Z.eqb_spec (irq_pending (cpu s)) 0); [contradiction|].
  destruct (psx_block_exception _); [|reflexivity].
  unfold cap_cycles. destruct (_ <? _); reflexivity.
Qed.

(** After the trim the running chain has no budget left. *)
Lemma raise_if_pending_trims s : irq_pending (cpu s) <> 0 -> psx_block_exception s = true ->
  s32 (cycles_left (cpu (raise_if_pending s))) <= 0.
Proof.
  intros Hp Hb. unfold raise_if_pending, cap_cycles_for_irq.
  destruct (Z.eqb_spec (irq_pending (cpu s)) 0); [contradiction|]. cbn. rewrite Hb.
  unfold cap_cycles; cbn. destruct (Z.ltb_spec 0 (s32 (cycles_left (cpu s)))); cbn; [|lia].
  reflexivity.
Qed.

(** [SignalInterrupt] latches its line in I_STAT, leaves the other lines
    and the mask alone, recomputes both cached levels from I_STAT, I_MASK and
    IEc, and, when the interrupt is unmasked while translated code runs, makes
    that code stop: the chain flag is set and no cycle budget remains. *)
Theorem SignalInterrupt_spec (irq : Z) (s : Sys) :
  0 <= irq <= 10 ->
  let s' := SignalInterrupt irq s in
  (forall i, 0 <= i -> Z.testbit (i_stat (cpu s')) i = (i =? irq) || Z.testbit (i_stat (cpu s)) i) /\
  i_mask (cpu s') = i_mask (cpu s) /\ regs (cpu s') = regs (cpu s) /\
  irq_line_ok s' /\
  (Z.testbit (i_mask (cpu s)) irq = true ->
     irq_pending (cpu s') = 1 /\ sched_interrupt_chain s' = 1 /\
     (psx_block_exception s = true -> s32 (cycles_left (cpu s')) <= 0)).
Proof.
  intros Hirq s'. subst s'. unfold SignalInterrupt.
  destruct (Z.ltb_spec 10 irq); [lia|].
  set (s1 := upd_cpu _ s). set (s2 := recompute_irq_pending s1).
  assert (Hbits : forall i, 0 <= i ->
    Z.testbit (i_stat (cpu s2)) i = (i =? irq) || Z.testbit (i_stat (cpu s)) i).
  { intros i Hi. subst s2 s1. cbn. rewrite Z.lor_spec, Z.shiftl_spec by lia.
    rewrite orb_comm. f_equal. destruct (Z.eqb_spec i irq) as [->|].
    - rewrite Z.sub_diag. reflexivity.
    - destruct (Z.lt_ge_cases i irq); [apply Z.testbit_neg_r; lia|].
      change 1 with (2 ^ 0). rewrite Z.pow2_bits_eqb by lia. apply Z.eqb_neq. lia. }
  destruct (raise_if_pending_frame s2) as (-> & -> & _ & Hp & _ & -> & _).
  split; [exact Hbits|]. split; [reflexivity|]. split; [reflexivity|].
  split; [apply raise_if_pending_irq_ok, recompute_irq_ok|].
  intros Hm. assert (Hp2 : irq_pending (cpu s2) = 1).
  { change (irq_pending (cpu s2)) with (b2z (negb (CheckInterrupts s2 =? 0))).
    destruct (Z.eqb_spec (CheckInterrupts s2) 0) as [E|]; [|reflexivity].
    apply (f_equal (fun v => Z.testbit v irq)) in E. unfold CheckInterrupts in E.
    rewrite !Z.land_spec, Hbits, Z.eqb_refl in E by lia.
    change (i_mask (cpu s2)) with (i_mask (cpu s)) in E.
    rewrite Hm, Z.bits_0 in E. unfold PSX_IRQ_VALID_MASK in E.
    change 0x7FF with (Z.ones 11) in E. rewrite Z.ones_spec_low in E by lia. discriminate. }
  rewrite Hp, Hp2. split; [reflexivity|].
  split; [apply raise_if_pending_chain; lia|].
  intros Hb. apply raise_if_pending_trims; [lia | exact Hb].
Qed.

Definition cpu0 : R3000CPU :=
  mkCPU 0 0 0 0 0 0 0 0 0 0 0 0 0 0 0 0 0 (repeat 0 32) (repeat 0 32) (repeat 0 32) (repeat 0 32).

(** A freshly initialised machine. *)
Definition sys0 : Sys :=
  mkSys cpu0 ∅ ∅ ∅ 0 Sched_Init 0 0 0 false 0 false 0 ∅ (repeat 0 512)
        (mkConfig false false true).

Lemma SignalInterrupt_spec_witness :
  let s := upd_cpu (fun c => c <| i_mask := 8 |> <| cycles_left := 100 |>)
             (sys0 <| psx_block_exception := true |>) in
  irq_pending (cpu (SignalInterrupt 3 s)) = 1 /\ sched_interrupt_chain (SignalInterrupt 3 s) = 1.
Proof.
  intros s. destruct (SignalInterrupt_spec 3 s ltac:(lia)) as (_ & _ & _ & _ & H).
  destruct (H eq_refl) as (? & ? & _). split; assumption.
Defined.
