(* ===== verification/Cpu.v ===== *)
(** * CPU exceptions and trapping arithmetic ([src/cpu.c])

    [PSX_Exception] and the helpers that call it, the BIOS system calls, and
    the delivery of hardware interrupts between two chains
    ([sync_hardware_and_interrupts], [src/dynarec_run.c]). *)

From S2P Require Import Prelude Scheduler System.

(** The mode-stack push shared by every exception. *)
Definition push_mode (sr : Z) : Z :=
  let mode_bits := Z.land sr 0x3F in
  Z.lor (Z.land sr (not32 0x3F)) (Z.land (u32 (Z.shiftl mode_bits 2)) 0x3F).

(** The early-abort signal at the end of [PSX_Exception]. *)
Definition signal_block_abort (s : Sys) : Sys :=
  if psx_block_exception s then
    (upd_cpu (fun c => c <| block_aborted := 1 |>) s) <| psx_abort_pc := pc (cpu s) |>
  else s.

Definition PSX_Exception (cause_code : Z) (s : Sys) : Sys :=
  let s := set_cop0 PSX_COP0_EPC (pc (cpu s)) s in
  let cause := Z.land (get_cop0 s PSX_COP0_CAUSE) 0x0000FF00 in
  let cause := Z.lor cause (Z.shiftl (Z.land cause_code 0x1F) 2) in
  let cause := if cause_code =? 0 then Z.lor cause (Z.shiftl 1 10) else cause in
  let s := set_cop0 PSX_COP0_CAUSE cause s in
  let sr := push_mode (get_cop0 s PSX_COP0_SR) in
  let s := set_cop0 PSX_COP0_SR sr s in
  if tst sr 0x00400000 then signal_block_abort (set_pc 0xBFC00180 s)
  else
    let handler_word := rd32 (psx_ram s) 0x80 in
    if (handler_word =? 0) && (cause_code =? 0) then
      let s := set_cop0 PSX_COP0_SR sr s in
      set_pc (get_cop0 s PSX_COP0_EPC) s
    else signal_block_abort (set_pc 0x80000080 s).

Definition Helper_Syscall_Exception (p : Z) (s : Sys) : Sys := PSX_Exception 0x08 (set_pc p s).
Definition Helper_Break_Exception (p : Z) (s : Sys) : Sys := PSX_Exception 0x09 (set_pc p s).

Definition Helper_CU_Exception (p cop_num : Z) (s : Sys) : Sys :=
  let s := set_pc p s in
  let cause := Z.land (get_cop0 s PSX_COP0_CAUSE) 0x0000FF00 in
  let cause := Z.lor cause (Z.shiftl (Z.land 0x0B 0x1F) 2) in
  let cause := Z.lor cause (u32 (Z.shiftl (Z.land cop_num 0x3) 28)) in
  let s := set_cop0 PSX_COP0_CAUSE cause s in
  let sr := push_mode (get_cop0 s PSX_COP0_SR) in
  let s := set_cop0 PSX_COP0_SR sr s in
  let s := set_cop0 PSX_COP0_EPC p s in
  let s := set_pc (if tst sr 0x00400000 then 0xBFC00180 else 0x80000080) s in
  signal_block_abort s.

Definition SIGN : Z := 0x80000000.

Definition Helper_ADD (rs_val rt_val rd p : Z) (s : Sys) : Sys :=
  let result := u32 (rs_val + rt_val) in
  if negb (tst (Z.lxor rs_val rt_val) SIGN) && tst (Z.lxor result rs_val) SIGN
  then PSX_Exception 0x0C (set_pc p s)
  else if negb (rd =? 0) then set_reg rd result s else s.

Definition Helper_SUB (rs_val rt_val rd p : Z) (s : Sys) : Sys :=
  let result := u32 (rs_val - rt_val) in
  if tst (Z.lxor rs_val rt_val) SIGN && tst (Z.lxor result rs_val) SIGN
  then PSX_Exception 0x0C (set_pc p s)
  else if negb (rd =? 0) then set_reg rd result s else s.

Definition Helper_ADDI (rs_val imm_sext rt p : Z) (s : Sys) : Sys :=
  let result := u32 (rs_val + imm_sext) in
  if negb (tst (Z.lxor rs_val imm_sext) SIGN) && tst (Z.lxor result rs_val) SIGN
  then PSX_Exception 0x0C (set_pc p s)
  else if negb (rt =? 0) then set_reg rt result s else s.

Definition Helper_Overflow_Exception (s : Sys) : Sys :=
  PSX_Exception 0x0C (set_pc (current_pc (cpu s)) s).

(** [cpu.pc += 4]. *)
Definition skip_insn (s : Sys) : Sys := set_pc (u32 (pc (cpu s) + 4)) s.

Definition Handle_Syscall (s : Sys) : Sys :=
  let func := get_reg s 4 in
  let sr := get_cop0 s PSX_COP0_SR in
  if func =? 0 then skip_insn s
  else if func =? 1 then
    skip_insn (set_cop0 PSX_COP0_SR (Z.land sr (not32 1)) (set_reg 2 (Z.land sr 1) s))
  else if func =? 2 then skip_insn (set_cop0 PSX_COP0_SR (Z.lor sr 0x00000401) s)
  else if func =? 3 then skip_insn s
  else PSX_Exception 0x08 s.

(** [sync_hardware_and_interrupts]: the level of the interrupt line is copied
    to CAUSE.IP2 and, with IEc and IM2 set, the exception is taken. *)
Definition clear_irq_pending (s : Sys) : Sys :=
  upd_cpu (fun c => c <| irq_pending := 0 |> <| irq_pending_fast := 0 |>) s.

Definition sync_hardware_and_interrupts (s : Sys) : Sys :=
  if negb (CheckInterrupts s =? 0) then
    let s := set_cop0 PSX_COP0_CAUSE (Z.lor (get_cop0 s PSX_COP0_CAUSE) (Z.shiftl 1 10)) s in
    let sr := get_cop0 s PSX_COP0_SR in
    if tst sr 1 && tst sr (Z.shiftl 1 10) then PSX_Exception 0 (clear_irq_pending s) else s
  else
    clear_irq_pending
      (set_cop0 PSX_COP0_CAUSE (Z.land (get_cop0 s PSX_COP0_CAUSE) (not32 (Z.shiftl 1 10))) s).

(** [Init_CPU]: clears exactly the fields the code clears. *)
Definition Init_CPU (s : Sys) : Sys :=
  upd_cpu (fun c => c <| regs := repeat 0 32 |> <| cop0 := repeat 0 32 |>
    <| pc := 0 |> <| hi := 0 |> <| lo := 0 |> <| i_stat := 0 |> <| i_mask := 0 |>) s.

(** ** Well-formed CPUs *)

Definition wf_cpu (c : R3000CPU) : Prop :=
  zlen (regs c) = 32 /\ zlen (cop0 c) = 32 /\
  Forall is_u32 (regs c) /\ Forall is_u32 (cop0 c) /\
  is_u32 (pc c) /\ is_u32 (current_pc c).

(** ** The mode stack *)

Lemma push_mode_u32 sr : is_u32 sr -> is_u32 (push_mode sr).
Proof. intros H. unfold push_mode. auto with word. Qed.

(** Entering an exception clears IEc and KUc and moves the current and
    previous mode bits up one level. *)
Lemma push_mode_low sr : is_u32 sr -> Z.land (push_mode sr) 3 = 0.
Proof. intros H. unfold push_mode. word_bits. Qed.

Lemma push_mode_stack sr : is_u32 sr ->
  Z.land (push_mode sr) 0x3C = u32 (Z.shiftl (Z.land sr 0xF) 2).
Proof. intros H. unfold push_mode. word_bits. Qed.

Lemma push_mode_high sr : is_u32 sr -> Z.shiftr (push_mode sr) 6 = Z.shiftr sr 6.
Proof. intros H. unfold push_mode. word_bits. Qed.

Lemma push_mode_bev sr : is_u32 sr -> tst (push_mode sr) 0x00400000 = tst sr 0x00400000.
Proof.
  intros H. change 0x00400000 with (2 ^ 22). rewrite !tst_pow2 by lia.
  unfold push_mode. eval_bits. reflexivity.
Qed.

(** ** Exception entry *)

Lemma signal_block_abort_frame s :
  let s' := signal_block_abort s in
  regs (cpu s') = regs (cpu s) /\ cop0 (cpu s') = cop0 (cpu s) /\ pc (cpu s') = pc (cpu s) /\
  psx_ram s' = psx_ram s /\ i_stat (cpu s') = i_stat (cpu s) /\ i_mask (cpu s') = i_mask (cpu s).
Proof. unfold signal_block_abort. destruct (psx_block_exception s); repeat split. Qed.

(** The three COP0 registers [PSX_Exception] writes, before the vector is
    chosen. *)
Definition exc_cop0 (cause_code : Z) (s : Sys) : list Z :=
  let cause := Z.lor (Z.land (get_cop0 s PSX_COP0_CAUSE) 0x0000FF00)
                     (Z.shiftl (Z.land cause_code 0x1F) 2) in
  aset (aset (aset (cop0 (cpu s)) PSX_COP0_EPC (pc (cpu s))) PSX_COP0_CAUSE
    (if cause_code =? 0 then Z.lor cause (Z.shiftl 1 10) else cause))
    PSX_COP0_SR (push_mode (get_cop0 s PSX_COP0_SR)).

(** Does an exception with this code have a handler to jump to? *)
Definition exc_deliverable (cause_code : Z) (s : Sys) : bool :=
  tst (get_cop0 s PSX_COP0_SR) 0x00400000 ||
  negb (rd32 (psx_ram s) 0x80 =? 0) || negb (cause_code =? 0).

Definition exc_vector (s : Sys) : Z :=
  if tst (get_cop0 s PSX_COP0_SR) 0x00400000 then 0xBFC00180 else 0x80000080.

Lemma PSX_Exception_cpu code s : zlen (cop0 (cpu s)) = 32 -> is_u32 (get_cop0 s PSX_COP0_SR) ->
  let s' := PSX_Exception code s in
  regs (cpu s') = regs (cpu s) /\ psx_ram s' = psx_ram s /\
  i_stat (cpu s') = i_stat (cpu s) /\ i_mask (cpu s') = i_mask (cpu s) /\
  (exc_deliverable code s = true -> cop0 (cpu s') = exc_cop0 code s /\ pc (cpu s') = exc_vector s).
Proof.
  intros Hl Hsr. unfold PSX_Exception, exc_vector, exc_deliverable.
  set (s1 := set_cop0 PSX_COP0_EPC (pc (cpu s)) s).
  assert (Hc : get_cop0 s1 PSX_COP0_CAUSE = get_cop0 s PSX_COP0_CAUSE)
    by (unfold s1; rewrite get_set_cop0 by (unfold PSX_COP0_EPC, PSX_COP0_CAUSE; lia); reflexivity).
  rewrite Hc. clear Hc.
  set (cause := if code =? 0 then _ else _).
  set (s2 := set_cop0 PSX_COP0_CAUSE cause s1).
  assert (Hs : get_cop0 s2 PSX_COP0_SR = get_cop0 s PSX_COP0_SR).
  { unfold s2, s1. rewrite !get_set_cop0;
      rewrite ?zlen_cop0_set; unfold PSX_COP0_EPC, PSX_COP0_CAUSE, PSX_COP0_SR; try lia.
    reflexivity. }
  rewrite Hs, push_mode_bev by exact Hsr.
  set (s3 := set_cop0 PSX_COP0_SR (push_mode (get_cop0 s PSX_COP0_SR)) s2).
  change (rd32 (psx_ram s3) 0x80) with (rd32 (psx_ram s) 0x80).
  assert (H3 : cop0 (cpu s3) = exc_cop0 code s) by reflexivity.
  destruct (tst (get_cop0 s PSX_COP0_SR) 0x00400000); cbn [orb].
  - destruct (signal_block_abort_frame (set_pc 0xBFC00180 s3)) as (-> & -> & -> & -> & -> & ->).
    repeat split. 
  - destruct (_ && _) eqn:E.
    + do 4 (split; [reflexivity|]). intros Hx. exfalso.
      apply andb_prop in E as [Eh Ec]. rewrite Eh, Ec in Hx. discriminate.
    + destruct (signal_block_abort_frame (set_pc 0x80000080 s3)) as (-> & -> & -> & -> & -> & ->).
      repeat split.
Qed.

Lemma exc_cop0_at code s i : zlen (cop0 (cpu s)) = 32 -> 0 <= i ->
  aget (exc_cop0 code s) i =
    if i =? PSX_COP0_SR then push_mode (get_cop0 s PSX_COP0_SR)
    else if i =? PSX_COP0_CAUSE then
      let cause := Z.lor (Z.land (get_cop0 s PSX_COP0_CAUSE) 0x0000FF00)
                         (Z.shiftl (Z.land code 0x1F) 2) in
      if code =? 0 then Z.lor cause (Z.shiftl 1 10) else cause
    else if i =? PSX_COP0_EPC then pc (cpu s) else get_cop0 s i.
Proof.
  intros Hl Hi. unfold exc_cop0, aget, PSX_COP0_SR, PSX_COP0_CAUSE, PSX_COP0_EPC.
  rewrite !anth_aset; rewrite ?zlen_aset; try lia.
  rewrite (Z.eqb_sym i 12), (Z.eqb_sym i 13), (Z.eqb_sym i 14). reflexivity.
Qed.

(** The ExcCode and IP fields of the new CAUSE. *)
Lemma exc_cause_fields code cause : is_u32 cause -> 0 <= code < 32 ->
  let c := Z.lor (Z.land cause 0x0000FF00) (Z.shiftl (Z.land code 0x1F) 2) in
  let c := if code =? 0 then Z.lor c (Z.shiftl 1 10) else c in
  Z.land (Z.shiftr c 2) 0x1F = code /\
  Z.land c 0xFF00 = Z.lor (Z.land cause 0xFF00) (if code =? 0 then 0x400 else 0) /\ Z.land c 0xFFFF0083 = 0.
Proof.
  intros Hc Hcode. assert (Hu : is_u32 code) by (unfold is_u32; lia).
  assert (H8 : is_u8 code) by (unfold is_u8; lia).
  assert (Hs : Z.shiftl (Z.land code 0x1F) 2 = u32 (Z.shiftl (Z.land code 0x1F) 2)).
  { symmetry. apply u32_small. pose proof (land_bound_r code 0x1F). unfold is_u32.
    rewrite Z.shiftl_mul_pow2 by lia. lia. }
  assert (H5 : forall i, 5 <= i -> Z.testbit code i = false)
    by (intros i Hi; apply (bits_above 5); lia).
  cbn zeta. rewrite Hs. destruct (code =? 0); change (Z.shiftl 1 10) with 1024;
    (repeat split; [word_bits_using ltac:(rewrite H5 by lia) | word_bits | word_bits]).
Qed.

(** [C34] Exception entry is the R3000A's, except for an interrupt with BEV
    clear and no handler at 80h ([exc_deliverable]), which does not jump to
    the vector.  EPC is the interrupted pc; CAUSE holds the code and the eight
    interrupt-pending bits as they were, IP2 set as well for an interrupt, and
    every other bit (BD among them) clear; the mode stack is pushed so that
    the CPU is in kernel mode with interrupts off and the old modes are one
    level up; the vector is chosen by BEV; the general registers and I_STAT
    are untouched. *)
Theorem PSX_Exception_entry (code : Z) (s : Sys) :
  wf_cpu (cpu s) -> 0 <= code < 32 -> exc_deliverable code s = true ->
  let s' := PSX_Exception code s in
  let sr := get_cop0 s PSX_COP0_SR in
  get_cop0 s' PSX_COP0_EPC = pc (cpu s) /\
  Z.land (Z.shiftr (get_cop0 s' PSX_COP0_CAUSE) 2) 0x1F = code /\
  Z.land (get_cop0 s' PSX_COP0_CAUSE) 0xFF00
    = Z.lor (Z.land (get_cop0 s PSX_COP0_CAUSE) 0xFF00) (if code =? 0 then 0x400 else 0) /\
  Z.land (get_cop0 s' PSX_COP0_CAUSE) 0xFFFF0083 = 0 /\
  Z.land (get_cop0 s' PSX_COP0_SR) 3 = 0 /\
  Z.land (get_cop0 s' PSX_COP0_SR) 0x3C = u32 (Z.shiftl (Z.land sr 0xF) 2) /\
  Z.shiftr (get_cop0 s' PSX_COP0_SR) 6 = Z.shiftr sr 6 /\
  pc (cpu s') = exc_vector s /\ regs (cpu s') = regs (cpu s) /\
  i_stat (cpu s') = i_stat (cpu s).
Proof.
  intros (_ & Hl & _ & Hu & _) Hcode Hd s' sr. subst s'.
  assert (Hc : forall i, is_u32 (get_cop0 s i))
    by (intros i; apply (Forall_aget is_u32); [unfold is_u32; lia | exact Hu]).
  destruct (PSX_Exception_cpu code s Hl (Hc _)) as (Hr & _ & Hi & _ & H).
  destruct (H Hd) as (Hcop & Hpc). rewrite Hpc, Hr, Hi.
  assert (G : forall i, get_cop0 (PSX_Exception code s) i = aget (exc_cop0 code s) i)
    by (intros; unfold get_cop0; rewrite Hcop; reflexivity).
  rewrite !G, !exc_cop0_at by (unfold PSX_COP0_SR, PSX_COP0_CAUSE, PSX_COP0_EPC; lia || exact Hl).
  cbn [PSX_COP0_SR PSX_COP0_CAUSE PSX_COP0_EPC Z.eqb Pos.eqb].
  destruct (exc_cause_fields code (get_cop0 s PSX_COP0_CAUSE) (Hc _) Hcode) as (H1 & H2 & H3).
  pose proof (push_mode_low _ (Hc PSX_COP0_SR)). pose proof (push_mode_stack _ (Hc PSX_COP0_SR)).
  pose proof (push_mode_high _ (Hc PSX_COP0_SR)). subst sr. tauto.
Qed.

(** An interrupt taken with no handler installed is not ignored cleanly:
    the pc is restored but the mode stack stays pushed, so interrupts that were
    enabled end up disabled. *)
Theorem PSX_Exception_ignored_irq (s : Sys) :
  wf_cpu (cpu s) -> exc_deliverable 0 s = false ->
  Z.testbit (get_cop0 s PSX_COP0_SR) 0 = true ->
  let s' := PSX_Exception 0 s in
  pc (cpu s') = pc (cpu s) /\
  Z.testbit (get_cop0 s' PSX_COP0_SR) 0 = false /\
  get_cop0 s' PSX_COP0_SR <> get_cop0 s PSX_COP0_SR.
Proof.
  intros (_ & Hl & _ & Hu & _) Hd Hie s'. subst s'.
  assert (Hsr : is_u32 (get_cop0 s PSX_COP0_SR))
    by (apply (Forall_aget is_u32); [unfold is_u32; lia | exact Hu]).
  assert (H : pc (cpu (PSX_Exception 0 s)) = pc (cpu s) /\
              get_cop0 (PSX_Exception 0 s) PSX_COP0_SR = push_mode (get_cop0 s PSX_COP0_SR)).
  { unfold exc_deliverable in Hd. apply orb_false_iff in Hd as [Hd _].
    apply orb_false_iff in Hd as [Hbev Hh]. apply negb_false_iff in Hh.
    unfold PSX_Exception. rewrite (Z.eqb_refl 0), andb_true_r.
    assert (E : forall v w, get_cop0 (set_cop0 PSX_COP0_CAUSE v (set_cop0 PSX_COP0_EPC w s))
                  PSX_COP0_SR = get_cop0 s PSX_COP0_SR).
    { intros. rewrite !get_set_cop0; rewrite ?zlen_cop0_set;
        unfold PSX_COP0_EPC, PSX_COP0_CAUSE, PSX_COP0_SR; try lia. reflexivity. }
    rewrite E, push_mode_bev, Hbev by exact Hsr. cbn [psx_ram set_cop0 upd_cpu upd].
    change (psx_ram (set_cop0 _ _ _)) with (psx_ram s). cbn. rewrite Hh. split.
    - cbn. unfold get_cop0; cbn. unfold aget.
      rewrite !anth_aset; rewrite ?zlen_aset; unfold PSX_COP0_EPC, PSX_COP0_CAUSE, PSX_COP0_SR; lia || reflexivity.
    - unfold get_cop0 at 1; cbn. unfold aget.
      rewrite !anth_aset; rewrite ?zlen_aset; unfold PSX_COP0_EPC, PSX_COP0_CAUSE, PSX_COP0_SR; lia || reflexivity. }
  destruct H as (Hpc & Hs). rewrite Hs.
  assert (Hp : Z.testbit (push_mode (get_cop0 s PSX_COP0_SR)) 0 = false)
    by (unfold push_mode; eval_bits; reflexivity).
  split; [exact Hpc|]. split; [exact Hp|]. intros E. rewrite E in Hp. congruence.
Qed.

(** ** Trapping arithmetic *)

Lemma tst_sign x : is_u32 x -> tst x SIGN = (2147483648 <=? x).
Proof.
  intros Hx. unfold SIGN. change 0x80000000 with (2 ^ 31). rewrite tst_pow2 by lia.
  rewrite Z.testbit_odd, Z.shiftr_div_pow2 by lia. change (2 ^ 31) with 2147483648.
  unfold is_u32 in Hx. destruct (Z.leb_spec 2147483648 x).
  - replace (x / 2147483648) with 1 by zify_div. reflexivity.
  - rewrite Z.div_small by lia. reflexivity.
Qed.

Lemma tst_sign_lxor x y : tst (Z.lxor x y) SIGN = xorb (tst x SIGN) (tst y SIGN).
Proof. unfold SIGN. change 0x80000000 with (2 ^ 31). rewrite !tst_pow2, Z.lxor_spec by lia. reflexivity. Qed.

(** The sign-bit tests of the three helpers are exactly signed overflow. *)
Lemma add_overflow_test a b : is_u32 a -> is_u32 b ->
  negb (tst (Z.lxor a b) SIGN) && tst (Z.lxor (u32 (a + b)) a) SIGN
  = negb ((-2147483648 <=? s32 a + s32 b) && (s32 a + s32 b <? 2147483648)).
Proof.
  intros Ha Hb. rewrite !tst_sign_lxor, !tst_sign by auto with word.
  unfold s32. rewrite !(u32_small a), !(u32_small b) by assumption.
  unfold u32, is_u32 in *.
  destruct (Z.leb_spec 2147483648 a), (Z.leb_spec 2147483648 b),
    (Z.leb_spec 2147483648 ((a + b) mod 4294967296)),
    (Z.ltb_spec a 2147483648), (Z.ltb_spec b 2147483648); try lia; cbn [xorb negb andb];
    symmetry; rewrite ?negb_true_iff, ?negb_false_iff, ?andb_true_iff, ?andb_false_iff,
      ?Z.leb_le, ?Z.leb_gt, ?Z.ltb_lt, ?Z.ltb_ge; zify_div.
Qed.

Lemma sub_overflow_test a b : is_u32 a -> is_u32 b ->
  tst (Z.lxor a b) SIGN && tst (Z.lxor (u32 (a - b)) a) SIGN
  = negb ((-2147483648 <=? s32 a - s32 b) && (s32 a - s32 b <? 2147483648)).
Proof.
  intros Ha Hb. rewrite !tst_sign_lxor, !tst_sign by auto with word.
  unfold s32. rewrite !(u32_small a), !(u32_small b) by assumption.
  unfold u32, is_u32 in *.
  destruct (Z.leb_spec 2147483648 a), (Z.leb_spec 2147483648 b),
    (Z.leb_spec 2147483648 ((a - b) mod 4294967296)),
    (Z.ltb_spec a 2147483648), (Z.ltb_spec b 2147483648); try lia; cbn [xorb negb andb];
    symmetry; rewrite ?negb_true_iff, ?negb_false_iff, ?andb_true_iff, ?andb_false_iff,
      ?Z.leb_le, ?Z.leb_gt, ?Z.ltb_lt, ?Z.ltb_ge; zify_div.
Qed.

Lemma u32_add_s32 a b : is_u32 a -> is_u32 b ->
  u32 (s32 a + s32 b) = u32 (a + b) /\ u32 (s32 a - s32 b) = u32 (a - b).
Proof.
  intros Ha Hb. unfold s32. rewrite !(u32_small a), !(u32_small b) by assumption.
  unfold u32, is_u32 in *.
  destruct (Z.ltb_spec a 2147483648), (Z.ltb_spec b 2147483648); split; zify_div.
Qed.

(** What the ISA asks of a trapping add or subtract with exact result [r]. *)
Definition trap_or_write (r rd p : Z) (s : Sys) : Sys :=
  if (-2147483648 <=? r) && (r <? 2147483648)
  then (if rd =? 0 then s else set_reg rd (u32 r) s)
  else PSX_Exception 0x0C (set_pc p s).

(** ADD, ADDI and SUB compute on signed integers: the sign-bit tests trap
    exactly when the mathematical result does not fit 32 bits, and otherwise
    the destination (unless it is $zero) receives that result. *)
Theorem trapping_arith_exact (a b rd p : Z) (s : Sys) :
  is_u32 a -> is_u32 b ->
  Helper_ADD a b rd p s = trap_or_write (s32 a + s32 b) rd p s /\
  Helper_ADDI a b rd p s = trap_or_write (s32 a + s32 b) rd p s /\
  Helper_SUB a b rd p s = trap_or_write (s32 a - s32 b) rd p s.
Proof.
  intros Ha Hb. destruct (u32_add_s32 a b Ha Hb) as (E1 & E2).
  unfold Helper_ADD, Helper_ADDI, Helper_SUB, trap_or_write.
  rewrite add_overflow_test, sub_overflow_test, E1, E2 by assumption.
  repeat split; (destruct (_ && _); [|reflexivity]); cbn; destruct (rd =? 0); reflexivity.
Qed.

(** ** Interrupt delivery *)

Lemma clear_irq_pending_frame s :
  let s' := clear_irq_pending s in
  regs (cpu s') = regs (cpu s) /\ cop0 (cpu s') = cop0 (cpu s) /\ pc (cpu s') = pc (cpu s) /\
  psx_ram s' = psx_ram s.
Proof. repeat split. Qed.

Lemma cause_ip2_set cause : Z.testbit (Z.lor cause (Z.shiftl 1 10)) 10 = true.
Proof. rewrite Z.lor_spec. apply orb_true_r. Qed.

Lemma cause_ip2_clear cause : Z.testbit (Z.land cause (not32 (Z.shiftl 1 10))) 10 = false.
Proof. rewrite Z.land_spec. apply andb_false_r. Qed.

(** Between two chains an interrupt is delivered exactly when one is both
    latched and unmasked and SR has IEc and IM2 set: then the CPU is at the
    vector with EPC at the interrupted instruction and interrupts off.
    Otherwise the program continues at the same pc with the same SR, and
    CAUSE.IP2 follows the line. *)
Theorem sync_delivers_iff_enabled (s : Sys) :
  wf_cpu (cpu s) -> exc_deliverable 0 s = true ->
  let s' := sync_hardware_and_interrupts s in
  let sr := get_cop0 s PSX_COP0_SR in
  let line := negb (CheckInterrupts s =? 0) in
  Z.testbit (get_cop0 s' PSX_COP0_CAUSE) 10 = line /\
  (if line && Z.testbit sr 0 && Z.testbit sr 10
   then pc (cpu s') = exc_vector s /\ get_cop0 s' PSX_COP0_EPC = pc (cpu s) /\
        Z.testbit (get_cop0 s' PSX_COP0_SR) 0 = false
   else pc (cpu s') = pc (cpu s) /\ get_cop0 s' PSX_COP0_SR = sr).
Proof.
  intros (_ & Hl & _ & Hu & _) Hd s' sr line. subst s' sr line.
  assert (Hsr : is_u32 (get_cop0 s PSX_COP0_SR))
    by (apply (Forall_aget is_u32); [unfold is_u32; lia | exact Hu]).
  assert (E : forall v, get_cop0 (set_cop0 PSX_COP0_CAUSE v s) PSX_COP0_SR = get_cop0 s PSX_COP0_SR)
    by (intros; rewrite get_set_cop0; unfold PSX_COP0_CAUSE, PSX_COP0_SR; lia || reflexivity).
  assert (E2 : forall v, get_cop0 (set_cop0 PSX_COP0_CAUSE v s) PSX_COP0_CAUSE = v)
    by (intros; rewrite get_set_cop0; unfold PSX_COP0_CAUSE; lia || reflexivity).
  unfold sync_hardware_and_interrupts.
  destruct (CheckInterrupts s =? 0); cbn [negb andb].
  { change (get_cop0 (clear_irq_pending ?x) ?i) with (get_cop0 x i). rewrite E, E2.
    split; [apply cause_ip2_clear | split; reflexivity]. }
  rewrite E, tst_1, tst_shiftl by lia.
  destruct (Z.testbit (get_cop0 s PSX_COP0_SR) 0), (Z.testbit (get_cop0 s PSX_COP0_SR) 10);
    cbn [andb]; try (rewrite E, E2; split; [apply cause_ip2_set | split; reflexivity]).
  set (s1 := set_cop0 PSX_COP0_CAUSE _ s).
  assert (Hl1 : zlen (cop0 (cpu (clear_irq_pending s1))) = 32)
    by (change (zlen (cop0 (cpu s1)) = 32); unfold s1; rewrite zlen_cop0_set; exact Hl).
  assert (Es : get_cop0 (clear_irq_pending s1) PSX_COP0_SR = get_cop0 s PSX_COP0_SR) by apply E.
  destruct (PSX_Exception_cpu 0 (clear_irq_pending s1) Hl1) as (_ & _ & _ & _ & H);
    [rewrite Es; exact Hsr|].
  destruct H as (Hcop & Hpc); [unfold exc_deliverable; rewrite Es; exact Hd|].
  assert (G : forall i, get_cop0 (PSX_Exception 0 (clear_irq_pending s1)) i
                        = aget (exc_cop0 0 (clear_irq_pending s1)) i)
    by (intros; unfold get_cop0; rewrite Hcop; reflexivity).
  rewrite !G, !exc_cop0_at, Hpc, Es by (unfold PSX_COP0_SR, PSX_COP0_CAUSE, PSX_COP0_EPC; lia || exact Hl1).
  unfold exc_vector. rewrite Es. cbn [PSX_COP0_SR PSX_COP0_CAUSE PSX_COP0_EPC Z.eqb Pos.eqb].
  split; [apply cause_ip2_set|]. split; [reflexivity|]. split; [reflexivity|].
  unfold push_mode. eval_bits. reflexivity.
Qed.

(** ** Witnesses *)

(** A machine in the middle of a program: interrupts on, a handler installed,
    the VBlank line latched and unmasked. *)
Definition sys_running : Sys :=
  set_pc 0x80010000 (upd_cpu (fun c => c <| i_stat := 1 |> <| i_mask := 1 |>
    <| cop0 ::= fun l => aset l PSX_COP0_SR 0x401 |>)
    (sys0 <| psx_ram := wr32 ∅ 0x80 0x3C1A0000 |>)).

Lemma wf_cpu_running : wf_cpu (cpu sys_running).
Proof.
  assert (H : Forall is_u32 (repeat 0 32)) by (apply Forall_repeat; unfold is_u32; lia).
  assert (Hsr : is_u32 0x401) by (unfold is_u32; lia).
  split; [reflexivity|]. split; [reflexivity|]. split; [exact H|].
  split; [apply (Forall_aset is_u32 _ _ _ H Hsr)|]. split; unfold is_u32; cbn; lia.
Qed.

Lemma PSX_Exception_entry_witness :
  pc (cpu (PSX_Exception 0x08 sys_running)) = 0x80000080 /\
  get_cop0 (PSX_Exception 0x08 sys_running) PSX_COP0_EPC = 0x80010000.
Proof.
  destruct (PSX_Exception_entry 0x08 sys_running wf_cpu_running ltac:(lia) eq_refl)
    as (H1 & _ & _ & _ & _ & _ & _ & H2 & _).
  split; [exact H2 | exact H1].
Defined.

Lemma PSX_Exception_ignored_irq_witness :
  let s := sys_running <| psx_ram := ∅ |> in
  get_cop0 s PSX_COP0_SR = 0x401 /\
  Z.testbit (get_cop0 (PSX_Exception 0 s) PSX_COP0_SR) 0 = false.
Proof.
  split; [reflexivity|].
  apply (PSX_Exception_ignored_irq (sys_running <| psx_ram := ∅ |>)).
  - exact wf_cpu_running.
  - vm_compute. reflexivity.
  - vm_compute. reflexivity.
Defined.

Lemma trapping_arith_exact_witness :
  pc (cpu (Helper_ADD 0x7FFFFFFF 1 2 0x80010000 sys_running)) = 0x80000080 /\
  get_reg (Helper_SUB 5 7 2 0x80010000 sys_running) 2 = 0xFFFFFFFE.
Proof.
  split.
  - destruct (trapping_arith_exact 0x7FFFFFFF 1 2 0x80010000 sys_running) as (-> & _);
      [unfold is_u32; lia | unfold is_u32; lia | vm_compute; reflexivity].
  - destruct (trapping_arith_exact 5 7 2 0x80010000 sys_running) as (_ & _ & ->);
      [unfold is_u32; lia | unfold is_u32; lia | vm_compute; reflexivity].
Defined.

Lemma sync_delivers_iff_enabled_witness :
  pc (cpu (sync_hardware_and_interrupts sys_running)) = 0x80000080.
Proof.
  destruct (sync_delivers_iff_enabled sys_running wf_cpu_running) as (_ & H & _);
    [vm_compute; reflexivity|].
  exact H.
Defined.
