(* ===== verification/Memory.v ===== *)
(** * The memory map ([src/memory.c])

    Loads and stores dispatch on the physical address: RAM, BIOS ROM,
    scratchpad, the I/O window, the cache-control register.  The I/O window is
    reached through the interface [Platform]; everything here is proved
    against that interface.
    [mem_lut] is the page table the translated code uses instead. *)

From S2P Require Import Prelude Scheduler System Cpu.

(** What memory accesses need of the machine [S] around the shared state. *)
Class Platform (S : Type) := {
  get_sys : S -> Sys;
  set_sys : Sys -> S -> S;
  ReadHardware : Z -> S -> Z * S;
  WriteHardware : Z -> Z -> Z -> S -> S;
  SIO_Write : Z -> Z -> S -> S;
  get_set_sys : forall x s, get_sys (set_sys x s) = x;
  set_set_sys : forall x y s, set_sys x (set_sys y s) = set_sys x s;
  set_get_sys : forall s, set_sys (get_sys s) s = s
}.

Definition PSX_RAM_SIZE : Z := 0x200000.
Definition PSX_BIOS_SIZE : Z := 0x80000.

Definition translate_addr (addr : Z) : Z := Z.land addr 0x1FFFFFFF.

Definition in_ram (phys : Z) : bool := phys <? PSX_RAM_SIZE.
Definition in_bios (phys : Z) : bool := (0x1FC00000 <=? phys) && (phys <? 0x1FC00000 + PSX_BIOS_SIZE).
Definition in_scratchpad (phys : Z) : bool := (0x1F800000 <=? phys) && (phys <? 0x1F800400).
Definition in_io (phys : Z) : bool := (0x1F801000 <=? phys) && (phys <? 0x1F803000).
Definition in_sio (phys : Z) : bool := (0x1F801040 <=? phys) && (phys <=? 0x1F80105E).

Section Memory.
Context {S : Type} `{Platform S}.

Definition upd_sys (f : Sys -> Sys) (s : S) : S := set_sys (f (get_sys s)) s.

(** An address-error exception: BADVADDR, pc back to the instruction. *)
Definition address_error (code addr : Z) (s : S) : S :=
  upd_sys (fun y => PSX_Exception code
    (set_pc (current_pc (cpu y)) (set_cop0 PSX_COP0_BADVADDR addr y))) s.

Definition ReadByte (addr : Z) (s : S) : Z * S :=
  let phys := translate_addr addr in
  let y := get_sys s in
  if in_ram phys then (rd8 (psx_ram y) phys, s)
  else if in_bios phys then (rd8 (psx_bios y) (phys - 0x1FC00000), s)
  else if in_scratchpad phys then (rd8 (scratchpad_buf y) (phys - 0x1F800000), s)
  else if in_io phys then let '(v, s) := ReadHardware phys s in (u8 v, s)
  else (0, s).

Definition ReadHalf (addr : Z) (s : S) : Z * S :=
  if tst addr 1 then (0, address_error 4 addr s)
  else
    let phys := translate_addr addr in
    let y := get_sys s in
    if in_ram phys then (rd16 (psx_ram y) phys, s)
    else if in_bios phys then (rd16 (psx_bios y) (phys - 0x1FC00000), s)
    else if in_scratchpad phys then (rd16 (scratchpad_buf y) (phys - 0x1F800000), s)
    else if in_io phys then let '(v, s) := ReadHardware phys s in (u16 v, s)
    else (0, s).

Definition ReadWord (addr : Z) (s : S) : Z * S :=
  if tst addr 3 then (0, address_error 4 addr s)
  else
    let phys := translate_addr addr in
    let y := get_sys s in
    if in_ram phys then (rd32 (psx_ram y) phys, s)
    else if in_bios phys then (rd32 (psx_bios y) (phys - 0x1FC00000), s)
    else if in_scratchpad phys then (rd32 (scratchpad_buf y) (phys - 0x1F800000), s)
    else if in_io phys then ReadHardware phys s
    else if phys =? 0x1FFE0130 then (cache_ctrl y, s)
    else (0, s).

(** SR bit 16 isolates the cache: only KSEG1 stores reach the bus. *)
Definition store_isolated (addr : Z) (s : S) : bool :=
  tst (get_cop0 (get_sys s) PSX_COP0_SR) 0x10000 &&
  negb (Z.land addr 0xE0000000 =? 0xA0000000).

Definition WriteByte (addr data : Z) (s : S) : S :=
  if store_isolated addr s then s
  else
    let phys := translate_addr addr in
    if in_sio phys then SIO_Write phys data s
    else if in_ram phys then upd_sys (fun y => y <| psx_ram ::= fun m => wr8 m phys data |>) s
    else if in_scratchpad phys then
      upd_sys (fun y => y <| scratchpad_buf ::= fun m => wr8 m (phys - 0x1F800000) data |>) s
    else if in_io phys then WriteHardware phys data 1 s
    else s.

Definition WriteHalf (addr data : Z) (s : S) : S :=
  if tst addr 1 then address_error 5 addr s
  else if store_isolated addr s then s
  else
    let phys := translate_addr addr in
    if in_sio phys then SIO_Write phys data s
    else if in_ram phys then upd_sys (fun y => y <| psx_ram ::= fun m => wr16 m phys data |>) s
    else if in_scratchpad phys then
      upd_sys (fun y => y <| scratchpad_buf ::= fun m => wr16 m (phys - 0x1F800000) data |>) s
    else if in_io phys then WriteHardware phys data 2 s
    else s.

Definition WriteWord (addr data : Z) (s : S) : S :=
  if tst addr 3 then address_error 5 addr s
  else if store_isolated addr s then s
  else
    let phys := translate_addr addr in
    if in_ram phys then
      upd_sys (fun y => jit_invalidate_page phys (y <| psx_ram ::= fun m => wr32 m phys data |>)) s
    else if in_scratchpad phys then
      upd_sys (fun y => y <| scratchpad_buf ::= fun m => wr32 m (phys - 0x1F800000) data |>) s
    else if in_io phys then WriteHardware phys data 4 s
    else if phys =? 0x1FFE0130 then upd_sys (fun y => y <| cache_ctrl := data |>) s
    else s.

(** [addr & ~3]. *)
Definition align4 (addr : Z) : Z := Z.land addr (not32 3).

Definition lwl_merge (addr word cur_rt : Z) : Z :=
  match Z.land addr 3 with
  | 0 => Z.lor (u32 (Z.shiftl (Z.land word 0x000000FF) 24)) (Z.land cur_rt 0x00FFFFFF)
  | 1 => Z.lor (u32 (Z.shiftl (Z.land word 0x0000FFFF) 16)) (Z.land cur_rt 0x0000FFFF)
  | 2 => Z.lor (u32 (Z.shiftl (Z.land word 0x00FFFFFF) 8)) (Z.land cur_rt 0x000000FF)
  | _ => word
  end.

Definition Helper_LWL (addr cur_rt : Z) (s : S) : Z * S :=
  let '(word, s) := ReadWord (align4 addr) s in (lwl_merge addr word cur_rt, s).

Definition lwr_merge (addr word cur_rt : Z) : Z :=
  match Z.land addr 3 with
  | 0 => word
  | 1 => Z.lor (Z.shiftr word 8) (Z.land cur_rt 0xFF000000)
  | 2 => Z.lor (Z.shiftr word 16) (Z.land cur_rt 0xFFFF0000)
  | _ => Z.lor (Z.shiftr word 24) (Z.land cur_rt 0xFFFFFF00)
  end.

Definition Helper_LWR (addr cur_rt : Z) (s : S) : Z * S :=
  let '(word, s) := ReadWord (align4 addr) s in (lwr_merge addr word cur_rt, s).

Definition swl_merge (addr word rt_val : Z) : Z :=
  match Z.land addr 3 with
  | 0 => Z.lor (Z.land word 0xFFFFFF00) (Z.shiftr rt_val 24)
  | 1 => Z.lor (Z.land word 0xFFFF0000) (Z.shiftr rt_val 16)
  | 2 => Z.lor (Z.land word 0xFF000000) (Z.shiftr rt_val 8)
  | _ => rt_val
  end.

Definition Helper_SWL (addr rt_val : Z) (s : S) : S :=
  let '(word, s) := ReadWord (align4 addr) s in
  WriteWord (align4 addr) (swl_merge addr word rt_val) s.

Definition swr_merge (addr word rt_val : Z) : Z :=
  match Z.land addr 3 with
  | 0 => rt_val
  | 1 => Z.lor (Z.land word 0x000000FF) (u32 (Z.shiftl rt_val 8))
  | 2 => Z.lor (Z.land word 0x0000FFFF) (u32 (Z.shiftl rt_val 16))
  | _ => Z.lor (Z.land word 0x00FFFFFF) (u32 (Z.shiftl rt_val 24))
  end.

Definition Helper_SWR (addr rt_val : Z) (s : S) : S :=
  let '(word, s) := ReadWord (align4 addr) s in
  WriteWord (align4 addr) (swr_merge addr word rt_val) s.
End Memory.

(** [Helper_DIV], [Helper_DIVU]: the results are [(lo, hi)]; the operands of
    [Helper_DIV] are [int32_t]. *)
Definition Helper_DIV (rs_u rt_u : Z) : Z * Z :=
  let rs := s32 rs_u in
  let rt := s32 rt_u in
  if rt =? 0 then ((if 0 <=? rs then 0xFFFFFFFF else 1), u32 rs)
  else if (u32 rs =? 0x80000000) && (rt =? -1) then (0x80000000, 0)
  else (u32 (Z.quot rs rt), u32 (Z.rem rs rt)).

Definition Helper_DIVU (rs rt : Z) : Z * Z :=
  if rt =? 0 then (0xFFFFFFFF, rs) else (rs / rt, rs mod rt).

(** ** The page table of the translated code ([Init_MemoryLUT]) *)

(** A host pointer: an offset into one of the two allocated buffers. *)
Inductive host_ptr := HostRam (off : Z) | HostBios (off : Z).

#[export] Instance host_ptr_eq_dec : EqDecision host_ptr.
Proof. solve_decision. Defined.

Definition lut_ram_page (lut : gmap Z host_ptr) (page : Z) : gmap Z host_ptr :=
  let base := HostRam (page * 0x10000) in
  fold_left (fun l seg => <[seg + page := base]> l)
    [0x0000; 0x8000; 0xA000; 0x0020; 0x0040; 0x0060;
     0x8020; 0x8040; 0x8060; 0xA020; 0xA040; 0xA060] lut.

Definition lut_bios_page (lut : gmap Z host_ptr) (page : Z) : gmap Z host_ptr :=
  let base := HostBios (page * 0x10000) in
  fold_left (fun l seg => <[seg + page := base]> l) [0x1FC0; 0x9FC0; 0xBFC0] lut.

Definition mem_lut : gmap Z host_ptr :=
  fold_left lut_bios_page (zseq 8) (fold_left lut_ram_page (zseq 0x20) ∅).

(** A byte load through the table, as the translated code does it; [None]
    sends it to the C helper. *)
Definition lut_load (addr : Z) (y : Sys) : option Z :=
  match mem_lut !! Z.shiftr addr 16 with
  | Some (HostRam off) => Some (rd8 (psx_ram y) (off + Z.land addr 0xFFFF))
  | Some (HostBios off) => Some (rd8 (psx_bios y) (off + Z.land addr 0xFFFF))
  | None => None
  end.

(** ** Addresses *)

Lemma translate_addr_mod a : translate_addr a = a mod 536870912.
Proof. unfold translate_addr. change 0x1FFFFFFF with (Z.ones 29). apply Z.land_ones. lia. Qed.

Lemma land_3_mod a : Z.land a 3 = a mod 4.
Proof. change 3 with (Z.ones 2). apply Z.land_ones. lia. Qed.

Lemma align4_sub a : is_u32 a -> align4 a = a - a mod 4.
Proof.
  intros Ha. unfold align4. rewrite <- land_3_mod.
  assert (E : Z.lor (Z.land a (not32 3)) (Z.land a 3) = a) by word_bits.
  assert (D : Z.land (Z.land a (not32 3)) (Z.land a 3) = 0) by word_bits.
  apply Z.add_nocarry_lxor in D as E2. rewrite <- Z.lxor_lor in E by exact D. lia.
Qed.

(** The aligned address of [a] and its physical form. *)
Lemma translate_align4 a : is_u32 a ->
  translate_addr (align4 a) = translate_addr a - translate_addr a mod 4 /\
  translate_addr a mod 4 = a mod 4.
Proof.
  intros Ha. rewrite align4_sub, !translate_addr_mod by exact Ha. unfold is_u32 in Ha.
  split; zify_div.
Qed.

Lemma tst_align4 a : tst (align4 a) 3 = false.
Proof.
  apply tst_false_land. unfold align4. rewrite <- Z.land_assoc.
  change (Z.land (not32 3) 3) with 0. apply Z.land_0_r.
Qed.

(** ** RAM accesses over any platform *)

Section RamLemmas.
Context {S : Type} `{Platform S}.

Lemma get_upd_sys f (s : S) : get_sys (upd_sys f s) = f (get_sys s).
Proof. apply get_set_sys. Qed.

Lemma ReadWord_ram a (s : S) : tst a 3 = false -> in_ram (translate_addr a) = true ->
  ReadWord a s = (rd32 (psx_ram (get_sys s)) (translate_addr a), s).
Proof. intros Ha Hr. unfold ReadWord. rewrite Ha, Hr. reflexivity. Qed.

Lemma jit_invalidate_frame p y :
  let y' := jit_invalidate_page p y in
  psx_ram y' = psx_ram y /\ cpu y' = cpu y /\ scratchpad_buf y' = scratchpad_buf y /\
  psx_bios y' = psx_bios y /\ sched y' = sched y.
Proof. unfold jit_invalidate_page. destruct (_ && _); repeat split. Qed.

Lemma WriteWord_ram a v (s : S) : tst a 3 = false -> in_ram (translate_addr a) = true ->
  store_isolated a s = false ->
  let s' := WriteWord a v s in
  psx_ram (get_sys s') = wr32 (psx_ram (get_sys s)) (translate_addr a) v /\
  cpu (get_sys s') = cpu (get_sys s).
Proof.
  intros Ha Hr Hi. unfold WriteWord. rewrite Ha, Hr, Hi, get_upd_sys.
  destruct (jit_invalidate_frame (translate_addr a)
    ((get_sys s) <| psx_ram ::= fun m => wr32 m (translate_addr a) v |>)) as (-> & -> & _).
  split; reflexivity.
Qed.

Lemma store_isolated_cpu a (s s' : S) : cpu (get_sys s') = cpu (get_sys s) ->
  store_isolated a s' = store_isolated a s.
Proof. unfold store_isolated, get_cop0. intros ->. reflexivity. Qed.
End RamLemmas.

(** ** Unaligned words: the bytes moved by LWL/LWR and SWL/SWR *)

Lemma u8_ext x y : is_u8 x -> is_u8 y ->
  (forall i, 0 <= i < 8 -> Z.testbit x i = Z.testbit y i) -> x = y.
Proof.
  intros Hx Hy Hb. apply Z.bits_inj'. intros i Hi.
  destruct (Z.lt_ge_cases i 8); [apply Hb; lia|].
  rewrite !is_u8_bits by assumption. reflexivity.
Qed.

(** Literal quotients and remainders. *)
Ltac eval_divs :=
  repeat match goal with
    | |- context [Z.div ?a ?b] =>
      let v := eval vm_compute in (Z.div a b) in
      lazymatch v with Z0 => idtac | Zpos _ => idtac end; change (Z.div a b) with v
    | |- context [Z.modulo ?a ?b] =>
      let v := eval vm_compute in (Z.modulo a b) in
      lazymatch v with Z0 => idtac | Zpos _ => idtac end; change (Z.modulo a b) with v
    end.

(** Splits every loaded word into its bytes and matches their addresses. *)
Ltac byte_bits Hm :=
  rewrite ?rd32_bits by (exact Hm || lia); eval_divs; rewrite ?Z.add_0_r;
  repeat (f_equal; try lia).

(** Picks the branch of a [switch (addr & 3)] at a literal address. *)
Ltac eval_selector :=
  repeat match goal with
    | |- context [Z.land ?a 3] =>
      let v := eval vm_compute in (Z.land a 3) in
      lazymatch v with Z0 => idtac | Zpos _ => idtac end; change (Z.land a 3) with v
    end; cbv iota.

Lemma lwl_lwr_bytes m p x r : mem_ok m -> is_u32 x -> 0 <= r < 4 ->
  lwl_merge (r + 3) (rd32 m (p + r + 3 - (r + 3) mod 4)) (lwr_merge r (rd32 m p) x)
  = rd32 m (p + r).
Proof.
  intros Hm Hx Hr. pose proof (fun q => rd32_range m q Hm) as Hq.
  pose proof (Hq p) as Hp. pose proof (Hq (p + 4)) as Hp4.
  assert (r = 0 \/ r = 1 \/ r = 2 \/ r = 3) as [-> | [-> | [-> | -> ] ] ] by lia.
  - change (lwl_merge _ ?w _) with w. f_equal. eval_divs. lia.
  - replace (p + 1 + 3 - (1 + 3) mod 4) with (p + 4) by (eval_divs; lia).
    unfold lwl_merge, lwr_merge. eval_selector.
    word_bits_using ltac:(byte_bits Hm).
  - replace (p + 2 + 3 - (2 + 3) mod 4) with (p + 4) by (eval_divs; lia).
    unfold lwl_merge, lwr_merge. eval_selector.
    word_bits_using ltac:(byte_bits Hm).
  - replace (p + 3 + 3 - (3 + 3) mod 4) with (p + 4) by (eval_divs; lia).
    unfold lwl_merge, lwr_merge. eval_selector.
    word_bits_using ltac:(byte_bits Hm).
Qed.

(** Byte [j] of the word a partial store writes back. *)
Lemma swr_bytes m q v r j : mem_ok m -> is_u32 v -> 0 <= r < 4 -> 0 <= j < 4 ->
  u8 (Z.shiftr (swr_merge r (rd32 m q) v) (8 * j))
  = if r <=? j then u8 (Z.shiftr v (8 * (j - r))) else rd8 m (q + j).
Proof.
  intros Hm Hv Hr Hj. pose proof (rd32_range m q Hm) as Hq.
  pose proof (fun a => rd8_range m a Hm) as Hb.
  assert (r = 0 \/ r = 1 \/ r = 2 \/ r = 3) as [-> | [-> | [-> | -> ] ] ] by lia;
    assert (j = 0 \/ j = 1 \/ j = 2 \/ j = 3) as [-> | [-> | [-> | -> ] ] ] by lia;
    unfold swr_merge; eval_selector; cbn [Z.leb Z.compare Pos.compare Pos.compare_cont];
    (apply u8_ext; [apply u8_range | apply u8_range || apply Hb |]);
    intros i Hi; rewrite ?u8_bits by lia; enum i Hi; eval_bits; byte_bits Hm;
    reflexivity.
Qed.

Lemma swl_bytes m q v r j : mem_ok m -> is_u32 v -> 0 <= r < 4 -> 0 <= j < 4 ->
  u8 (Z.shiftr (swl_merge r (rd32 m q) v) (8 * j))
  = if j <=? r then u8 (Z.shiftr v (8 * (j + 3 - r))) else rd8 m (q + j).
Proof.
  intros Hm Hv Hr Hj. pose proof (rd32_range m q Hm) as Hq.
  pose proof (fun a => rd8_range m a Hm) as Hb.
  assert (r = 0 \/ r = 1 \/ r = 2 \/ r = 3) as [-> | [-> | [-> | -> ] ] ] by lia;
    assert (j = 0 \/ j = 1 \/ j = 2 \/ j = 3) as [-> | [-> | [-> | -> ] ] ] by lia;
    unfold swl_merge; eval_selector; cbn [Z.leb Z.compare Pos.compare Pos.compare_cont];
    (apply u8_ext; [apply u8_range | apply u8_range || apply Hb |]);
    intros i Hi; rewrite ?u8_bits by lia; enum i Hi; eval_bits; byte_bits Hm;
    reflexivity.
Qed.

(** The memory after SWR at [q + r] and SWL three bytes further. *)
Lemma swr_swl_bytes m q v r b : mem_ok m -> is_u32 v -> 0 <= r < 4 ->
  let m1 := wr32 m q (swr_merge r (rd32 m q) v) in
  let q3 := q + r + 3 - (r + 3) mod 4 in
  rd8 (wr32 m1 q3 (swl_merge ((r + 3) mod 4) (rd32 m1 q3) v)) b
  = if (q + r <=? b) && (b <? q + r + 4) then u8 (Z.shiftr v (8 * (b - (q + r)))) else rd8 m b.
Proof.
  intros Hm Hv Hr m1 q3. subst q3.
  assert (Hm1 : mem_ok m1) by (apply mem_ok_wr32, Hm).
  assert (H1 : forall c, rd8 m1 c = if (q <=? c) && (c <? q + 4)
            then (if r <=? c - q then u8 (Z.shiftr v (8 * (c - q - r))) else rd8 m c)
            else rd8 m c).
  { intros c. unfold m1. rewrite rd8_wr32.
    destruct (Z.leb_spec q c), (Z.ltb_spec c (q + 4)); cbn [andb]; try reflexivity.
    rewrite swr_bytes by (assumption || lia). replace (q + (c - q)) with c by lia. reflexivity. }
  set (q3 := q + r + 3 - (r + 3) mod 4).
  assert (H2 : forall c, rd8 (wr32 m1 q3 (swl_merge ((r + 3) mod 4) (rd32 m1 q3) v)) c
    = if (q3 <=? c) && (c <? q3 + 4)
      then (if c - q3 <=? (r + 3) mod 4 then u8 (Z.shiftr v (8 * (c - q3 + 3 - (r + 3) mod 4)))
            else rd8 m1 c)
      else rd8 m1 c).
  { intros c. rewrite rd8_wr32.
    destruct (Z.leb_spec q3 c), (Z.ltb_spec c (q3 + 4)); cbn [andb]; try reflexivity.
    rewrite swl_bytes by (assumption || lia || (apply Z.mod_pos_bound; lia)).
    replace (q3 + (c - q3)) with c by lia. reflexivity. }
  rewrite H2, H1. clear H1 H2. subst q3.
  assert (r = 0 \/ r = 1 \/ r = 2 \/ r = 3) as [-> | [-> | [-> | -> ] ] ] by lia; eval_divs;
    repeat match goal with
      | |- context [?x <=? ?y] => destruct (Z.leb_spec x y)
      | |- context [?x <? ?y] => destruct (Z.ltb_spec x y)
      end; cbn [andb]; try reflexivity; try (exfalso; lia); f_equal; f_equal; lia.
Qed.

Lemma merge_mod a w x :
  lwl_merge a w x = lwl_merge (a mod 4) w x /\ lwr_merge a w x = lwr_merge (a mod 4) w x /\
  swl_merge a w x = swl_merge (a mod 4) w x /\ swr_merge a w x = swr_merge (a mod 4) w x.
Proof.
  unfold lwl_merge, lwr_merge, swl_merge, swr_merge.
  rewrite !land_3_mod, Zmod_mod. repeat split.
Qed.

(** The aligned words around the four bytes at [a]: [p - r] and, for the last
    byte, [p + 3 - (r + 3) mod 4]. *)
Lemma unaligned_addrs a : is_u32 a -> a + 3 < 4294967296 ->
  translate_addr a + 3 < PSX_RAM_SIZE ->
  let p := translate_addr a in
  let r := p mod 4 in
  0 <= r < 4 /\ a mod 4 = r /\ (a + 3) mod 4 = (r + 3) mod 4 /\ 0 <= p /\
  translate_addr (align4 a) = p - r /\
  translate_addr (align4 (a + 3)) = p + 3 - (r + 3) mod 4 /\
  in_ram (p - r) = true /\ in_ram (p + 3 - (r + 3) mod 4) = true.
Proof.
  intros Ha H3 Hp p r. subst p r.
  assert (Ha3 : is_u32 (a + 3)) by (unfold is_u32 in *; lia).
  destruct (translate_align4 a Ha) as (-> & <-).
  destruct (translate_align4 (a + 3) Ha3) as (-> & <-).
  rewrite !translate_addr_mod in *. unfold in_ram, PSX_RAM_SIZE, is_u32 in *.
  rewrite !Z.ltb_lt. zify_div.
Qed.

Section Unaligned.
Context {S : Type} `{Platform S}.

(** [C21] The LWR/LWL pair loads an unaligned word: for any address whose four
    bytes are in RAM, loading with LWR at [a] and LWL at [a + 3] yields exactly
    the little-endian word at [a], whatever the register held before, and
    changes no state. *)
Theorem unaligned_load (a x : Z) (s : S) :
  is_u32 a -> is_u32 x -> a + 3 < 4294967296 -> translate_addr a + 3 < PSX_RAM_SIZE ->
  mem_ok (psx_ram (get_sys s)) ->
  let '(w, s1) := Helper_LWR a x s in
  Helper_LWL (a + 3) w s1 = (rd32 (psx_ram (get_sys s)) (translate_addr a), s).
Proof.
  intros Ha Hx H3 Hp Hm.
  destruct (unaligned_addrs a Ha H3 Hp) as (Hr & Er & Er3 & _ & E1 & E2 & I1 & I2).
  unfold Helper_LWR. rewrite ReadWord_ram by (rewrite ?E1; auto using tst_align4).
  unfold Helper_LWL. rewrite ReadWord_ram by (rewrite ?E2; auto using tst_align4).
  f_equal. rewrite E1, E2. set (m := psx_ram (get_sys s)) in *.
  set (p := translate_addr a) in *. set (r := p mod 4) in *.
  destruct (merge_mod a (rd32 m (p - r)) x) as (_ & -> & _).
  destruct (merge_mod (a + 3) (rd32 m (p + 3 - (r + 3) mod 4))
              (lwr_merge (a mod 4) (rd32 m (p - r)) x)) as (-> & _).
  rewrite Er, Er3.
  rewrite <- (proj1 (merge_mod (r + 3) _ _)).
  replace (p + 3 - (r + 3) mod 4) with (p - r + r + 3 - (r + 3) mod 4) by lia.
  rewrite lwl_lwr_bytes by assumption. f_equal. lia.
Qed.

(** The SWR/SWL pair stores an unaligned word: the four bytes at [a]
    become those of the register, in little-endian order, and every other byte
    of RAM keeps its value. *)
Theorem unaligned_store (a v : Z) (s : S) (b : Z) :
  is_u32 a -> is_u32 v -> a + 3 < 4294967296 -> translate_addr a + 3 < PSX_RAM_SIZE ->
  mem_ok (psx_ram (get_sys s)) ->
  tst (get_cop0 (get_sys s) PSX_COP0_SR) 0x10000 = false ->
  let p := translate_addr a in
  rd8 (psx_ram (get_sys (Helper_SWL (a + 3) v (Helper_SWR a v s)))) b
  = if (p <=? b) && (b <? p + 4) then u8 (Z.shiftr v (8 * (b - p)))
    else rd8 (psx_ram (get_sys s)) b.
Proof.
  intros Ha Hv H3 Hp Hm Hsr p.
  assert (Hiso : forall c, store_isolated c s = false)
    by (intros c; unfold store_isolated; rewrite Hsr; reflexivity).
  destruct (unaligned_addrs a Ha H3 Hp) as (Hr & Er & Er3 & _ & E1 & E2 & I1 & I2).
  unfold Helper_SWR. rewrite ReadWord_ram by (rewrite ?E1; auto using tst_align4).
  set (w1 := swr_merge a _ v).
  destruct (WriteWord_ram (align4 a) w1 s) as (M1 & C1);
    [apply tst_align4 | rewrite E1; exact I1 | apply Hiso |].
  set (s1 := WriteWord (align4 a) w1 s) in *.
  unfold Helper_SWL. rewrite ReadWord_ram by (rewrite ?E2; auto using tst_align4).
  set (w2 := swl_merge (a + 3) _ v).
  destruct (WriteWord_ram (align4 (a + 3)) w2 s1) as (M2 & _);
    [apply tst_align4 | rewrite E2; exact I2 | rewrite (store_isolated_cpu _ s s1 C1); apply Hiso |].
  rewrite M2. subst w2. rewrite M1, E1, E2.
  set (m := psx_ram (get_sys s)) in *. subst w1. rewrite E1. fold m.
  set (r := translate_addr a mod 4) in *. fold p in E1, E2, I1, I2 |- *.
  destruct (merge_mod a (rd32 m (p - r)) v) as (_ & _ & _ & ->). rewrite Er.
  set (w1 := swr_merge r _ v).
  assert (Hm1 : mem_ok (wr32 m (p - r) w1)) by (apply mem_ok_wr32, Hm).
  destruct (merge_mod (a + 3) (rd32 (wr32 m (p - r) w1) (p + 3 - (r + 3) mod 4)) v)
    as (_ & _ & -> & _). rewrite Er3.
  assert (Hr3 : 0 <= (r + 3) mod 4 < 4) by (apply Z.mod_pos_bound; lia).
  replace (p + 3 - (r + 3) mod 4) with (p - r + r + 3 - (r + 3) mod 4) by lia.
  subst w1. rewrite swr_swl_bytes by assumption.
  replace (p - r + r) with p by lia. reflexivity.
Qed.
End Unaligned.

(** ** Division *)

(** DIV and DIVU agree with integer division wherever it is defined:
    [lo] and [hi] are the truncated quotient and the remainder (with the sign
    of the dividend) of the operands; division by zero and the one overflowing
    quotient give the R3000A's fixed results. *)
Theorem Helper_DIV_correct (a b : Z) :
  is_u32 a -> is_u32 b ->
  (s32 b = 0 -> Helper_DIV a b = (if 0 <=? s32 a then 0xFFFFFFFF else 1, a)) /\
  (s32 b <> 0 -> ~ (s32 a = -2147483648 /\ s32 b = -1) ->
     let '(lo, hi) := Helper_DIV a b in
     s32 a = s32 b * s32 lo + s32 hi /\ Z.abs (s32 hi) < Z.abs (s32 b) /\
     0 <= s32 hi * s32 a) /\
  (s32 a = -2147483648 -> s32 b = -1 -> Helper_DIV a b = (0x80000000, 0)) /\
  (b = 0 -> Helper_DIVU a b = (0xFFFFFFFF, a)) /\
  (b <> 0 -> let '(lo, hi) := Helper_DIVU a b in
     a = b * lo + hi /\ 0 <= hi < b /\ is_u32 lo).
Proof.
  intros Ha Hb. pose proof (s32_range a) as Ra. pose proof (s32_range b) as Rb.
  assert (Ea : u32 (s32 a) = a) by (rewrite u32_s32; apply u32_small, Ha).
  unfold Helper_DIV, Helper_DIVU. repeat split.
  - intros ->. rewrite Ea. reflexivity.
  - intros Hnz Hov. destruct (Z.eqb_spec (s32 b) 0); [contradiction|].
    rewrite Ea. destruct (_ && _) eqn:E.
    { exfalso. apply andb_prop in E as [E1 E2]. apply Z.eqb_eq in E1, E2.
      apply Hov. subst a. split; [reflexivity | exact E2]. }
    pose proof (Z.quot_rem' (s32 a) (s32 b)) as Hqr.
    pose proof (Z.rem_bound_abs (s32 a) (s32 b) n) as Hrb.
    pose proof (Z.rem_sign_nz (s32 a) (s32 b) n) as Hsgn.
    assert (Hq : -2147483648 <= Z.quot (s32 a) (s32 b) < 2147483648).
    { assert (Z.abs (Z.quot (s32 a) (s32 b)) <= Z.abs (s32 a)).
      { rewrite <- Z.quot_abs by exact n. apply Z.quot_le_upper_bound; nia. }
      assert (Z.quot (s32 a) (s32 b) <> 2147483648); [|lia].
      intros Eq. rewrite Eq in *. assert (s32 b = -1) by nia. apply Hov. nia. }
    assert (Hr : -2147483648 <= Z.rem (s32 a) (s32 b) < 2147483648) by lia.
    rewrite (s32_u32 (Z.quot _ _)), (s32_u32 (Z.rem _ _)) by assumption.
    split; [lia|]. split; [lia|].
    destruct (Z.eq_dec (Z.rem (s32 a) (s32 b)) 0) as [->|Hnr]; [lia|].
    specialize (Hsgn Hnr). set (m := Z.rem (s32 a) (s32 b)) in *.
    assert (0 < m /\ 0 < s32 a \/ m < 0 /\ s32 a < 0 \/ s32 a = 0) by lia. nia.
  - intros Hmin Hm1. rewrite Hm1, Ea. destruct (Z.eqb_spec (-1) 0); [lia|].
    rewrite <- Ea, Hmin. reflexivity.
  - intros ->. reflexivity.
  - intros Hnz. destruct (Z.eqb_spec b 0); [contradiction|]. unfold is_u32 in *.
    pose proof (Z.div_mod a b ltac:(lia)). pose proof (Z.mod_pos_bound a b ltac:(lia)).
    pose proof (Z.div_pos a b ltac:(lia) ltac:(lia)).
    repeat split; [assumption | lia | lia | lia | nia].
Qed.

(** ** The page table against the C helpers *)

(** The page table in closed form, on page numbers. *)
Definition lut_spec (page : Z) : option host_ptr :=
  let seg := page / 8192 in
  let phys := page mod 8192 in
  if (seg =? 0) || (seg =? 4) || (seg =? 5) then
    if phys <? 0x80 then Some (HostRam ((phys mod 0x20) * 0x10000))
    else if (0x1FC0 <=? phys) && (phys <? 0x1FC8) then Some (HostBios ((phys - 0x1FC0) * 0x10000))
    else None
  else None.

Lemma mem_lut_spec page : 0 <= page < 65536 -> mem_lut !! page = lut_spec page.
Proof.
  intros Hp.
  assert (H : zforall 16 (fun p => bool_decide (mem_lut !! p = lut_spec p)) 0 = true)
    by (vm_compute; reflexivity).
  apply (bool_decide_eq_true_1 _ (zforall_true 16 _ 0 H page Hp)).
Qed.

(** The segments the table maps: KUSEG, KSEG0 and KSEG1. *)
Definition mapped_segment (addr : Z) : bool :=
  let seg := addr / 0x20000000 in (seg =? 0) || (seg =? 4) || (seg =? 5).

Lemma lut_load_spec addr y : is_u32 addr ->
  lut_load addr y =
    let phys := translate_addr addr in
    if mapped_segment addr then
      if phys <? 0x800000 then Some (rd8 (psx_ram y) (phys mod PSX_RAM_SIZE))
      else if in_bios phys then Some (rd8 (psx_bios y) (phys - 0x1FC00000))
      else None
    else None.
Proof.
  intros Ha. unfold lut_load. unfold is_u32 in Ha.
  rewrite Z.shiftr_div_pow2 by lia. change (2 ^ 16) with 65536.
  change 0xFFFF with (Z.ones 16). rewrite Z.land_ones by lia. change (2 ^ 16) with 65536.
  rewrite mem_lut_spec by zify_div. unfold lut_spec, mapped_segment, in_bios, PSX_BIOS_SIZE, PSX_RAM_SIZE.
  rewrite translate_addr_mod.
  replace (addr / 65536 / 8192) with (addr / 0x20000000) by zify_div.
  destruct (_ || _ || _); [|reflexivity].
  assert (E : addr mod 536870912 = (addr / 65536) mod 8192 * 65536 + addr mod 65536) by zify_div.
  rewrite E. set (ph := (addr / 65536) mod 8192). set (off := addr mod 65536).
  assert (0 <= off < 65536) by (apply Z.mod_pos_bound; lia).
  assert (0 <= ph < 8192) by (apply Z.mod_pos_bound; lia).
  clearbody ph off. clear E Ha.
  destruct (Z.ltb_spec ph 128), (Z.ltb_spec (ph * 65536 + off) 8388608); try lia.
  - f_equal. f_equal. zify_div.
  - destruct (Z.leb_spec 8128 ph), (Z.ltb_spec ph 8136),
      (Z.leb_spec 532676608 (ph * 65536 + off)),
      (Z.ltb_spec (ph * 65536 + off) (532676608 + 524288)); cbn [andb]; try lia; try reflexivity.
    f_equal. f_equal. lia.
Qed.

(** Where the translated code reads RAM or BIOS through the page table,
    it reads the byte the C helper reads: the two paths agree on every address
    of the first 2 MB of RAM and of the BIOS in the three mapped segments. *)
Theorem lut_agrees_ReadByte {St} `{Platform St} (addr v : Z) (s : St) :
  is_u32 addr -> lut_load addr (get_sys s) = Some v ->
  translate_addr addr < PSX_RAM_SIZE \/ 0x800000 <= translate_addr addr ->
  ReadByte addr s = (v, s).
Proof.
  intros Ha Hl Hp. rewrite lut_load_spec in Hl by exact Ha. cbv zeta in Hl.
  unfold ReadByte, in_ram. unfold PSX_RAM_SIZE in *.
  destruct (mapped_segment addr); [|discriminate].
  assert (0 <= translate_addr addr) by (rewrite translate_addr_mod; apply Z.mod_pos_bound; lia).
  destruct (Z.ltb_spec (translate_addr addr) 8388608), (Z.ltb_spec (translate_addr addr) 2097152);
    try lia.
  - injection Hl as <-. rewrite Z.mod_small by lia. reflexivity.
  - destruct (in_bios (translate_addr addr)); [|discriminate]. injection Hl as <-. reflexivity.
Qed.

(** The RAM mirrors exist only for translated code: between 2 MB and 8 MB
    the page table reads RAM modulo 2 MB, as the memory map documents, while
    the C helpers, which the interpreter uses, read zero there and drop
    stores. *)
Theorem ram_mirror_only_in_lut {St} `{Platform St} (addr v : Z) (s : St) :
  is_u32 addr -> mapped_segment addr = true ->
  PSX_RAM_SIZE <= translate_addr addr < 0x800000 ->
  lut_load addr (get_sys s)
    = Some (rd8 (psx_ram (get_sys s)) (translate_addr addr mod PSX_RAM_SIZE)) /\
  ReadByte addr s = (0, s) /\ WriteByte addr v s = s.
Proof.
  intros Ha Hseg Hp. rewrite lut_load_spec by exact Ha. cbv zeta. rewrite Hseg.
  unfold PSX_RAM_SIZE in Hp.
  unfold ReadByte, WriteByte, in_ram, in_bios, in_scratchpad, in_io, in_sio, PSX_RAM_SIZE, PSX_BIOS_SIZE.
  destruct (Z.ltb_spec (translate_addr addr) 8388608), (Z.ltb_spec (translate_addr addr) 2097152);
    try lia.
  destruct (Z.leb_spec 532676608 (translate_addr addr)), (Z.leb_spec 528482304 (translate_addr addr)),
    (Z.leb_spec 528486400 (translate_addr addr)), (Z.leb_spec 528486464 (translate_addr addr)); try lia.
  cbn [andb]. destruct (store_isolated addr s); auto.
Qed.

(** ** The memories alone as a platform

    No I/O behind the bus: enough for accesses to RAM (the DMA engine's) and
    for the witnesses. *)
#[export] Instance ram_platform : Platform Sys := {
  get_sys := fun s => s;
  set_sys := fun x _ => x;
  ReadHardware := fun _ s => (0, s);
  WriteHardware := fun _ _ _ s => s;
  SIO_Write := fun _ _ s => s;
  get_set_sys := fun x s => eq_refl;
  set_set_sys := fun x y s => eq_refl;
  set_get_sys := fun s => eq_refl
}.

(** RAM with the bytes 11h, 22h, ... from address 100h. *)
Definition sys_bytes : Sys :=
  sys0 <| psx_ram := wr_bytes ∅ 0x100 [0x11; 0x22; 0x33; 0x44; 0x55; 0x66; 0x77; 0x88] |>.

Lemma sys_bytes_ok : mem_ok (psx_ram sys_bytes).
Proof. apply mem_ok_wr_bytes, map_Forall_empty. Qed.

Lemma unaligned_load_witness :
  Helper_LWL 0x80000104 (fst (Helper_LWR 0x80000101 0xDEADBEEF sys_bytes)) sys_bytes
  = (0x55443322, sys_bytes).
Proof.
  pose proof (unaligned_load 0x80000101 0xDEADBEEF sys_bytes) as H.
  destruct (Helper_LWR 0x80000101 0xDEADBEEF sys_bytes) as [w s1] eqn:E.
  assert (Hs : s1 = sys_bytes) by (vm_compute in E; injection E as _ <-; vm_compute; reflexivity).
  subst s1. cbn [fst]. change 0x80000104 with (0x80000101 + 3). rewrite H.
  - vm_compute. reflexivity.
  - unfold is_u32; lia.
  - unfold is_u32; lia.
  - lia.
  - vm_compute. reflexivity.
  - exact sys_bytes_ok.
Defined.

Lemma unaligned_store_witness :
  rd8 (psx_ram (Helper_SWL 0x80000104 0xAABBCCDD (Helper_SWR 0x80000101 0xAABBCCDD sys_bytes))) 0x104
  = 0xAA.
Proof.
  change 0x80000104 with (0x80000101 + 3).
  refine (eq_trans (unaligned_store 0x80000101 0xAABBCCDD sys_bytes 0x104 _ _ _ _ _ _) _);
    try (unfold is_u32; lia).
  - vm_compute. reflexivity.
  - exact sys_bytes_ok.
  - vm_compute. reflexivity.
  - vm_compute. reflexivity.
Defined.

Lemma Helper_DIV_correct_witness :
  Helper_DIV 0xFFFFFFF9 2 = (0xFFFFFFFD, 0xFFFFFFFF) /\ Helper_DIV 0x80000000 0xFFFFFFFF = (0x80000000, 0).
Proof.
  split; [vm_compute; reflexivity|].
  apply (Helper_DIV_correct 0x80000000 0xFFFFFFFF);
    solve [unfold is_u32; lia | vm_compute; reflexivity].
Defined.

Lemma lut_agrees_ReadByte_witness : ReadByte 0xA0000103 sys_bytes = (0x44, sys_bytes).
Proof.
  apply lut_agrees_ReadByte; [unfold is_u32; lia | vm_compute; reflexivity | left; vm_compute; reflexivity].
Defined.

Lemma ram_mirror_only_in_lut_witness :
  lut_load 0x80200103 sys_bytes = Some 0x44 /\ ReadByte 0x80200103 sys_bytes = (0, sys_bytes).
Proof.
  destruct (ram_mirror_only_in_lut 0x80200103 0 sys_bytes) as (H1 & H2 & _).
  - unfold is_u32; lia.
  - reflexivity.
  - rewrite translate_addr_mod. vm_compute. split; [discriminate | reflexivity].
  - split; [refine (eq_trans H1 _); vm_compute; reflexivity | exact H2].
Defined.
