(* ===== verification/MemoryCard.v ===== *)
(** * Memory cards ([src/memorycard.c])

    The byte-exchange protocol of the two card slots: every access is one
    [MCD_Tick], a state machine over [MCDPhase].  The card image is a byte
    memory, the backing file a list of bytes that the host may or may not
    let the program create. *)

From S2P Require Import Prelude.

Definition MCD_SECTOR_SIZE : Z := 128.
Definition MCD_NUM_SECTORS : Z := 1024.
Definition MCD_SIZE : Z := MCD_NUM_SECTORS * MCD_SECTOR_SIZE.

Inductive MCDPhase :=
| MCD_IDLE | MCD_CMD | MCD_ID1 | MCD_ID2 | MCD_ADDR_MSB | MCD_ADDR_LSB
| MCD_RD_ACK1 | MCD_RD_ACK2 | MCD_RD_ADDR_MSB | MCD_RD_ADDR_LSB
| MCD_RD_DATA | MCD_RD_CHK | MCD_RD_END | MCD_RD_COMPLETE
| MCD_WR_DATA | MCD_WR_CHK | MCD_WR_ACK1 | MCD_WR_ACK2 | MCD_WR_END
| MCD_ID_ACK1 | MCD_ID_ACK2 | MCD_ID_DATA.

#[export] Instance MCDPhase_eq_dec : EqDecision MCDPhase.
Proof. solve_decision. Defined.

(** The host side of a slot: whether the configuration names a path, the
    file behind it, and whether the host lets the program create it. *)
Record CardFile := mkCardFile {
  path_set : bool; contents : option (list Z); can_create : bool
}.
#[export] Instance eta_CardFile : Eta CardFile := fun f =>
  mkCardFile (path_set f) (contents f) (can_create f).

(** One element of [cards]. *)
Record Card := mkCard {
  data : gmap Z Z; phase : MCDPhase; cmd : Z; flag : Z; sector : Z;
  checksum : Z; byte_count : Z; wr_buf : list Z; loaded : bool; file : CardFile
}.
#[export] Instance eta_Card : Eta Card := fun c =>
  mkCard (data c) (phase c) (cmd c) (flag c) (sector c)
    (checksum c) (byte_count c) (wr_buf c) (loaded c) (file c).

(** ** Formatting *)

(** [memset] of [n] bytes at [off]. *)
Definition memset (m : gmap Z Z) (off v : Z) (n : nat) : gmap Z Z :=
  wr_bytes m off (repeat v n).

(** XOR of the 128 bytes of a frame. *)
Definition frame_xor (m : gmap Z Z) (off : Z) : Z :=
  fold_left (fun x j => Z.lxor x (rd8 m (off + j))) (zseq 128) 0.

Definition format_dir_entry (m : gmap Z Z) (i : Z) : gmap Z Z :=
  let off := i * MCD_SECTOR_SIZE in
  let m := wr8 m off 0xA0 in
  wr8 m (off + 0x7F) (frame_xor m off).

(** ["BESCES-00000FAKE"] and ["SuperPSX Test"]. *)
Definition fname_bytes : list Z :=
  [0x42; 0x45; 0x53; 0x43; 0x45; 0x53; 0x2D; 0x30; 0x30; 0x30; 0x30; 0x30; 0x46; 0x41; 0x4B; 0x45].
Definition title_bytes : list Z :=
  [0x53; 0x75; 0x70; 0x65; 0x72; 0x50; 0x53; 0x58; 0x20; 0x54; 0x65; 0x73; 0x74].

Definition format_fake_save (m : gmap Z Z) : gmap Z Z :=
  let off := 1 * MCD_SECTOR_SIZE in
  let m := wr_bytes m off [0x51; 0; 0; 0; 0; 0x20; 0; 0; 0xFF; 0xFF] in
  let m := wr_bytes m (off + 0x0A) fname_bytes in
  let m := wr8 m (off + 0x7F) 0 in
  let m := wr8 m (off + 0x7F) (frame_xor m off) in
  let boff := 64 * MCD_SECTOR_SIZE in
  let m := wr_bytes m boff [0x53; 0x43; 0x11; 0x01] in
  let m := wr_bytes m (boff + 4) title_bytes in
  let m := wr_bytes m (boff + 0x60) [0x00; 0x00; 0xFF; 0x7F] in
  memset m (boff + 0x80) 0x11 128.

Definition format_broken_entry (m : gmap Z Z) (i : Z) : gmap Z Z :=
  let off := i * MCD_SECTOR_SIZE in
  let m := wr_bytes m off [0xFF; 0xFF; 0xFF; 0xFF] in
  wr8 m (off + 0x7F) (frame_xor m off).

(** [mcd_format]; the empty memory is the initial [memset] to zero. *)
Definition mcd_format : gmap Z Z :=
  let m := wr_bytes ∅ 0 [0x4D; 0x43] in
  let m := wr8 m 0x7F 0x0E in
  let m := fold_left format_dir_entry (map (Z.add 1) (zseq 15)) m in
  let m := format_fake_save m in
  let m := fold_left format_broken_entry (map (Z.add 16) (zseq 20)) m in
  let m := fold_left (fun m i => memset m (i * MCD_SECTOR_SIZE) 0xFF 128) (map (Z.add 36) (zseq 27)) m in
  memset m (63 * MCD_SECTOR_SIZE) 0x00 128.

(** ** The backing file *)

(** [n] bytes of the image from [off]. *)
Definition image_bytes (m : gmap Z Z) (off : Z) (n : nat) : list Z :=
  map (fun i => rd8 m (off + i)) (zseq n).

(** The whole image, as [fwrite] of [MCD_SIZE] bytes stores it. *)
Definition card_image (m : gmap Z Z) : list Z := image_bytes m 0 (Z.to_nat MCD_SIZE).

(** [fseek] to [off], then [fwrite]: a gap beyond the end reads as zero. *)
Definition fwrite_at (f : list Z) (off : Z) (bs : list Z) : list Z :=
  let n := Z.to_nat off in
  take n f ++ repeat 0 (n - length f) ++ bs ++ drop (n + length bs) f.

Definition save_file (m : gmap Z Z) (sec : Z) (f : CardFile) : CardFile :=
  if negb (path_set f) then f
  else match contents f with
       | None => if can_create f then f <| contents := Some (card_image m) |> else f
       | Some bs =>
         let off := sec * MCD_SECTOR_SIZE in
         f <| contents := Some (fwrite_at bs off (image_bytes m off 128)) |>
       end.

Definition mcd_save_sector (sec : Z) (c : Card) : Card :=
  c <| file := save_file (data c) sec (file c) |>.

(** One iteration of [MCD_Init]. *)
Definition MCD_Init_slot (c : Card) : Card :=
  let c := c <| phase := MCD_IDLE |> <| flag := 0x08 |> <| loaded := false |> in
  let f := file c in
  if negb (path_set f) then c
  else match contents f with
       | None =>
         let c := c <| data := mcd_format |> in
         let c := if can_create f
                  then c <| file := f <| contents := Some (card_image mcd_format) |> |> else c in
         c <| loaded := true |>
       | Some bs =>
         let bs := take (Z.to_nat MCD_SIZE) bs in
         let got := zlen bs in
         let c := c <| data := wr_bytes (data c) 0 bs |> in
         if got =? MCD_SIZE then c <| loaded := true |>
         else
           let c := if 0 <? got
                    then c <| data := memset (data c) got 0 (Z.to_nat (MCD_SIZE - got)) |> else c in
           c <| loaded := true |>
       end.

(** ** One byte exchange

    [MCD_Tick] of a slot: the byte received and the card afterwards.  The
    switch is cut along its paths. *)

Definition tick_head (tx : Z) (c : Card) : Z * Card :=
  match phase c with
  | MCD_IDLE => if tx =? 0x81 then (0xFF, c <| phase := MCD_CMD |>) else (0xFF, c)
  | MCD_CMD =>
    let rx := flag c in
    let c := c <| cmd := tx |> in
    if (tx =? 0x52) || (tx =? 0x57) then (rx, c <| phase := MCD_ID1 |>)
    else if tx =? 0x53 then (rx, c <| phase := MCD_ID1 |>)
    else (rx, c <| phase := MCD_IDLE |>)
  | MCD_ID1 => (0x5A, c <| phase := MCD_ID2 |>)
  | MCD_ID2 =>
    (0x5D, if cmd c =? 0x53 then c <| phase := MCD_ID_ACK1 |> else c <| phase := MCD_ADDR_MSB |>)
  | MCD_ADDR_MSB => (0, c <| sector := u16 (Z.shiftl tx 8) |> <| phase := MCD_ADDR_LSB |>)
  | MCD_ADDR_LSB =>
    let sec := Z.lor (sector c) tx in
    let c := c <| sector := sec |>
               <| checksum := Z.lxor (u8 (Z.shiftr sec 8)) (u8 (Z.land sec 0xFF)) |>
               <| byte_count := 0 |> in
    (0, if cmd c =? 0x52 then c <| phase := MCD_RD_ACK1 |> else c <| phase := MCD_WR_DATA |>)
  | _ => (0xFF, c)
  end.

Definition tick_read (c : Card) : Z * Card :=
  match phase c with
  | MCD_RD_ACK1 => (0x5C, c <| phase := MCD_RD_ACK2 |>)
  | MCD_RD_ACK2 =>
    (0x5D, if MCD_NUM_SECTORS <=? sector c
           then c <| phase := MCD_RD_ADDR_MSB |> <| sector := 0xFFFF |>
           else c <| phase := MCD_RD_ADDR_MSB |>)
  | MCD_RD_ADDR_MSB => (u8 (Z.shiftr (sector c) 8), c <| phase := MCD_RD_ADDR_LSB |>)
  | MCD_RD_ADDR_LSB =>
    (u8 (Z.land (sector c) 0xFF),
     if MCD_NUM_SECTORS <=? sector c then c <| phase := MCD_IDLE |> else c <| phase := MCD_RD_DATA |>)
  | MCD_RD_DATA =>
    let off := sector c * MCD_SECTOR_SIZE + byte_count c in
    let rx := rd8 (data c) off in
    let c := c <| checksum ::= fun k => Z.lxor k rx |> <| byte_count ::= Z.add 1 |> in
    (rx, if MCD_SECTOR_SIZE <=? byte_count c then c <| phase := MCD_RD_CHK |> else c)
  | MCD_RD_CHK => (checksum c, c <| phase := MCD_RD_END |>)
  | MCD_RD_END => (0x47, c <| phase := MCD_RD_COMPLETE |>)
  | MCD_RD_COMPLETE => (0xFF, c <| phase := MCD_IDLE |>)
  | _ => (0xFF, c)
  end.

Definition tick_write (tx : Z) (c : Card) : Z * Card :=
  match phase c with
  | MCD_WR_DATA =>
    let c := c <| wr_buf := aset (wr_buf c) (byte_count c) tx |>
               <| checksum ::= fun k => Z.lxor k tx |> <| byte_count ::= Z.add 1 |> in
    (0, if MCD_SECTOR_SIZE <=? byte_count c then c <| phase := MCD_WR_CHK |> else c)
  | MCD_WR_CHK =>
    let c :=
      if tx =? checksum c then
        if sector c <? MCD_NUM_SECTORS then
          let c := c <| data := wr_bytes (data c) (sector c * MCD_SECTOR_SIZE) (wr_buf c) |> in
          let c := mcd_save_sector (sector c) c in
          c <| flag ::= fun f => Z.land f (u8 (Z.lnot 0x08)) |>
        else c
      else c <| flag ::= fun f => Z.lor f 0x04 |> in
    (0, c <| phase := MCD_WR_ACK1 |>)
  | MCD_WR_ACK1 => (0x5C, c <| phase := MCD_WR_ACK2 |>)
  | MCD_WR_ACK2 => (0x5D, c <| phase := MCD_WR_END |>)
  | MCD_WR_END =>
    (if MCD_NUM_SECTORS <=? sector c then 0xFF
     else if tst (flag c) 0x04 then 0x4E else 0x47, c <| phase := MCD_IDLE |>)
  | _ => (0xFF, c)
  end.

Definition id_data : list Z := [0x04; 0x00; 0x00; 0x80].

Definition tick_id (c : Card) : Z * Card :=
  match phase c with
  | MCD_ID_ACK1 => (0x5C, c <| phase := MCD_ID_ACK2 |>)
  | MCD_ID_ACK2 => (0x5D, c <| byte_count := 0 |> <| phase := MCD_ID_DATA |>)
  | MCD_ID_DATA =>
    let rx := aget id_data (byte_count c) in
    let c := c <| byte_count ::= Z.add 1 |> in
    (rx, if 4 <=? byte_count c then c <| phase := MCD_IDLE |> else c)
  | _ => (0xFF, c)
  end.

Definition card_tick (tx : Z) (c : Card) : Z * Card :=
  if negb (loaded c) then (0xFF, c)
  else match phase c with
       | MCD_IDLE | MCD_CMD | MCD_ID1 | MCD_ID2 | MCD_ADDR_MSB | MCD_ADDR_LSB => tick_head tx c
       | MCD_RD_ACK1 | MCD_RD_ACK2 | MCD_RD_ADDR_MSB | MCD_RD_ADDR_LSB
       | MCD_RD_DATA | MCD_RD_CHK | MCD_RD_END | MCD_RD_COMPLETE => tick_read c
       | MCD_WR_DATA | MCD_WR_CHK | MCD_WR_ACK1 | MCD_WR_ACK2 | MCD_WR_END => tick_write tx c
       | MCD_ID_ACK1 | MCD_ID_ACK2 | MCD_ID_DATA => tick_id c
       end.

(** ** The two slots *)

Definition in_slot (slot : Z) : bool := (0 <=? slot) && (slot <? 2).

(** [static struct {...} cards[2]] before [MCD_Init]. *)
Definition card0 (f : CardFile) : Card :=
  mkCard ∅ MCD_IDLE 0 0 0 0 0 (repeat 0 128) false f.

Definition get_card (cards : list Card) (slot : Z) : Card :=
  anth (card0 (mkCardFile false None false)) cards slot.

Definition MCD_Init (cards : list Card) : list Card := map MCD_Init_slot cards.

Definition MCD_Reset (slot : Z) (cards : list Card) : list Card :=
  if in_slot slot then aset cards slot ((get_card cards slot) <| phase := MCD_IDLE |>) else cards.

Definition MCD_IsIdle (slot : Z) (cards : list Card) : bool :=
  if negb (in_slot slot) then true else bool_decide (phase (get_card cards slot) = MCD_IDLE).

Definition MCD_IsLoaded (slot : Z) (cards : list Card) : bool :=
  if negb (in_slot slot) then false else loaded (get_card cards slot).

Definition MCD_InReadDataPhase (slot : Z) (cards : list Card) : bool :=
  if negb (in_slot slot) then false
  else match phase (get_card cards slot) with
       | MCD_RD_DATA | MCD_RD_CHK | MCD_RD_END | MCD_RD_COMPLETE => true
       | _ => false
       end.

Definition MCD_Tick (slot tx : Z) (cards : list Card) : Z * list Card :=
  if negb (in_slot slot) then (0xFF, cards)
  else let '(rx, c) := card_tick tx (get_card cards slot) in (rx, aset cards slot c).

(** Numeric value of the enum, for [MCD_GetPhase]. *)
Definition phase_index (p : MCDPhase) : Z :=
  match p with
  | MCD_IDLE => 0 | MCD_CMD => 1 | MCD_ID1 => 2 | MCD_ID2 => 3
  | MCD_ADDR_MSB => 4 | MCD_ADDR_LSB => 5 | MCD_RD_ACK1 => 6 | MCD_RD_ACK2 => 7
  | MCD_RD_ADDR_MSB => 8 | MCD_RD_ADDR_LSB => 9 | MCD_RD_DATA => 10 | MCD_RD_CHK => 11
  | MCD_RD_END => 12 | MCD_RD_COMPLETE => 13 | MCD_WR_DATA => 14 | MCD_WR_CHK => 15
  | MCD_WR_ACK1 => 16 | MCD_WR_ACK2 => 17 | MCD_WR_END => 18
  | MCD_ID_ACK1 => 19 | MCD_ID_ACK2 => 20 | MCD_ID_DATA => 21
  end.

Definition MCD_GetPhase (slot : Z) (cards : list Card) : Z :=
  if negb (in_slot slot) then -1 else phase_index (phase (get_card cards slot)).

(** ** Runs of byte exchanges *)

Fixpoint card_run (txs : list Z) (c : Card) : list Z * Card :=
  match txs with
  | [] => ([], c)
  | tx :: txs =>
    let '(rx, c) := card_tick tx c in
    let '(rxs, c) := card_run txs c in (rx :: rxs, c)
  end.

Lemma card_run_app xs : forall ys c,
  card_run (xs ++ ys) c
  = let '(r1, c1) := card_run xs c in
    let '(r2, c2) := card_run ys c1 in (r1 ++ r2, c2).
Proof.
  induction xs as [|x xs IH]; intros ys c; simpl.
  - destruct (card_run ys c); reflexivity.
  - destruct (card_tick x c) as [rx c']. rewrite IH.
    destruct (card_run xs c') as [r1 c1], (card_run ys c1); reflexivity.
Qed.

(** XOR of a byte list onto an accumulator. *)
Definition xor_bytes (acc : Z) (bs : list Z) : Z := fold_left Z.lxor bs acc.

(** The checksum both ends compute: address bytes and data. *)
Definition sector_checksum (s : Z) (bs : list Z) : Z :=
  xor_bytes (Z.lxor (u8 (Z.shiftr s 8)) (u8 (Z.land s 0xFF))) bs.

Definition sector_bytes (m : gmap Z Z) (s : Z) : list Z := image_bytes m (s * MCD_SECTOR_SIZE) 128.

Definition set_phase (p : MCDPhase) (c : Card) : Card := c <| phase := p |>.

Lemma image_bytes_succ m off n :
  image_bytes m off (S n) = rd8 m off :: image_bytes m (off + 1) n.
Proof.
  unfold image_bytes. rewrite zseq_succ. simpl. rewrite Z.add_0_r, map_map.
  f_equal. apply map_ext. intros i. f_equal. lia.
Qed.

Lemma length_image_bytes m off n : length (image_bytes m off n) = n.
Proof. unfold image_bytes, zseq. rewrite !length_map, length_seq. reflexivity. Qed.

Lemma aget_image_bytes m off n i :
  0 <= i < Z.of_nat n -> aget (image_bytes m off n) i = rd8 m (off + i).
Proof.
  revert off i. induction n as [|n IH]; intros off i Hi; [lia|].
  rewrite image_bytes_succ. unfold aget, anth.
  destruct (Z.to_nat i) as [|k] eqn:E.
  - simpl. f_equal. lia.
  - simpl. specialize (IH (off + 1) (i - 1) ltac:(lia)). unfold aget, anth in IH.
    replace (Z.to_nat (i - 1)) with k in IH by lia. rewrite IH. f_equal. lia.
Qed.

(** The data phase of a read sends the rest of the sector. *)
Lemma read_data_run n : forall txs c,
  length txs = S n -> loaded c = true -> phase c = MCD_RD_DATA ->
  0 <= byte_count c -> byte_count c + Z.of_nat (S n) = MCD_SECTOR_SIZE ->
  forall bs, bs = image_bytes (data c) (sector c * MCD_SECTOR_SIZE + byte_count c) (S n) ->
  card_run txs c
  = (bs, c <| checksum := xor_bytes (checksum c) bs |>
           <| byte_count := MCD_SECTOR_SIZE |> <| phase := MCD_RD_CHK |>).
Proof.
  unfold MCD_SECTOR_SIZE.
  induction n as [|n IH]; intros txs c Hlen Hl Hp H0 Hn bs ->;
    destruct txs as [|tx txs]; try discriminate; rewrite image_bytes_succ;
    destruct c as [d p cm fl sec ck bc wb ld fi]; simpl in Hl, Hp, H0, Hn; subst ld p.
  - destruct txs; [|discriminate]. replace bc with 127 by lia. reflexivity.
  - simpl length in Hlen. unfold card_run; fold card_run. unfold card_tick, tick_read, MCD_SECTOR_SIZE.
    cbn [loaded phase byte_count sector data negb checksum upd setter].
    rewrite (proj2 (Z.leb_gt 128 (1 + bc))) by lia.
    rewrite (IH txs _) with (bs := image_bytes d (sec * 128 + bc + 1) (S n));
      [reflexivity | lia | reflexivity | reflexivity | cbn; lia | cbn; lia |].
    cbn [data sector byte_count upd setter]. f_equal. lia.
Qed.

Lemma take_aset_succ (l : list Z) k v :
  0 <= k < zlen l -> take (Z.to_nat (1 + k)) (aset l k v) = take (Z.to_nat k) l ++ [v].
Proof.
  unfold zlen, aset. intros Hk. replace (Z.to_nat (1 + k)) with (S (Z.to_nat k)) by lia.
  erewrite take_S_r by (apply list_lookup_insert_eq; lia).
  rewrite take_insert_ge by lia. reflexivity.
Qed.

(** The data phase of a write fills the rest of the staging buffer. *)
Lemma write_data_run : forall txs c,
  txs <> [] -> loaded c = true -> phase c = MCD_WR_DATA -> zlen (wr_buf c) = 128 ->
  0 <= byte_count c -> byte_count c + zlen txs = MCD_SECTOR_SIZE ->
  card_run txs c
  = (repeat 0 (length txs),
     c <| wr_buf := take (Z.to_nat (byte_count c)) (wr_buf c) ++ txs |>
       <| checksum := xor_bytes (checksum c) txs |>
       <| byte_count := MCD_SECTOR_SIZE |> <| phase := MCD_WR_CHK |>).
Proof.
  unfold MCD_SECTOR_SIZE.
  induction txs as [|tx txs IH]; intros c Hne Hl Hp Hw H0 Hn; [congruence|].
  destruct c as [d p cm fl sec ck bc wb ld fi]; simpl in Hl, Hp, Hw, H0, Hn; subst ld p.
  assert (Hz : zlen (tx :: txs) = 1 + zlen txs) by (unfold zlen; simpl length; lia).
  assert (Hbuf : take (Z.to_nat (1 + bc)) (aset wb bc tx) ++ txs
                 = take (Z.to_nat bc) wb ++ tx :: txs).
  { rewrite take_aset_succ by (unfold zlen in *; lia). rewrite <- app_assoc. reflexivity. }
  unfold card_run; fold card_run. unfold card_tick, tick_write, MCD_SECTOR_SIZE.
  cbn [loaded phase byte_count sector data negb checksum upd setter].
  destruct txs as [|tx' txs].
  - change (zlen [tx]) with 1 in Hn. replace bc with 127 by lia.
    replace bc with 127 in Hbuf by lia. rewrite app_nil_r in Hbuf.
    cbn [byte_count wr_buf]. rewrite <- Hbuf, take_ge; [reflexivity|].
    rewrite length_aset. change (Z.to_nat (1 + 127)) with 128%nat. unfold zlen in Hw. lia.
  - assert (0 < zlen (tx' :: txs)) by (unfold zlen; simpl length; lia).
    rewrite (proj2 (Z.leb_gt 128 (1 + bc))) by lia.
    rewrite IH; [| congruence | reflexivity | reflexivity | cbn; rewrite zlen_aset; exact Hw
                 | cbn; lia | cbn -[zlen]; lia].
    cbn [byte_count wr_buf upd setter length repeat]. rewrite Hbuf. reflexivity.
Qed.

Lemma address_bytes s : 0 <= s < 65536 ->
  Z.lor (u16 (Z.shiftl (Z.shiftr s 8) 8)) (Z.land s 0xFF) = s.
Proof.
  intros Hs. apply Z.eqb_eq.
  apply (zforall_true 16 (fun s => Z.lor (u16 (Z.shiftl (Z.shiftr s 8) 8)) (Z.land s 0xFF) =? s) 0);
    [vm_compute; reflexivity | exact Hs].
Qed.

(** Access, command, identification and address: the first six exchanges. *)
Definition head_txs (cm x y s : Z) : list Z := [0x81; cm; x; y; Z.shiftr s 8; Z.land s 0xFF].

Definition after_head (cm s : Z) (c : Card) : Card :=
  c <| cmd := cm |> <| sector := s |> <| checksum := sector_checksum s [] |> <| byte_count := 0 |>
    <| phase := if cm =? 0x52 then MCD_RD_ACK1 else MCD_WR_DATA |>.

Lemma head_run cm x y s c :
  loaded c = true -> phase c = MCD_IDLE -> 0 <= s < 65536 -> cm = 0x52 \/ cm = 0x57 ->
  card_run (head_txs cm x y s) c = ([0xFF; flag c; 0x5A; 0x5D; 0; 0], after_head cm s c).
Proof.
  intros Hl Hp Hs Hcm. destruct c as [d p cm0 fl sec ck bc wb ld fi]; simpl in Hl, Hp; subst ld p.
  unfold head_txs. generalize (address_bytes s Hs).
  generalize (Z.shiftr s 8) (Z.land s 0xFF). intros msb lsb <-.
  destruct Hcm as [-> | ->]; reflexivity.
Qed.

(** The acknowledge and confirmed-address exchanges of a read. *)
Lemma read_ack_run x1 x2 x3 x4 s c :
  loaded c = true -> phase c = MCD_RD_ACK1 -> sector c = s ->
  card_run [x1; x2; x3; x4] c
  = if MCD_NUM_SECTORS <=? s
    then ([0x5C; 0x5D; 0xFF; 0xFF], c <| sector := 0xFFFF |> <| phase := MCD_IDLE |>)
    else ([0x5C; 0x5D; u8 (Z.shiftr s 8); u8 (Z.land s 0xFF)], c <| phase := MCD_RD_DATA |>).
Proof.
  intros Hl Hp Hs. destruct c as [d p cm fl sec ck bc wb ld fi]; simpl in Hl, Hp, Hs; subst ld p sec.
  destruct (MCD_NUM_SECTORS <=? s) eqn:E; cbn [card_run card_tick tick_read loaded phase negb];
    unfold card_tick, tick_read; cbn -[Z.leb u8 Z.shiftr Z.land];
    rewrite ?E; cbn -[Z.leb u8 Z.shiftr Z.land]; rewrite ?E; reflexivity.
Qed.

(** A whole read transaction of sector [s]; [xs] are the 135 bytes the host
    sends after the address, which the card ignores. *)
Lemma read_run x y s xs bs c :
  loaded c = true -> phase c = MCD_IDLE -> 0 <= s < MCD_NUM_SECTORS -> length xs = 135%nat ->
  bs = sector_bytes (data c) s ->
  let ck := sector_checksum s bs in
  card_run (head_txs 0x52 x y s ++ xs) c
  = ([0xFF; flag c; 0x5A; 0x5D; 0; 0; 0x5C; 0x5D; u8 (Z.shiftr s 8); u8 (Z.land s 0xFF)]
       ++ bs ++ [ck; 0x47; 0xFF],
     c <| cmd := 0x52 |> <| sector := s |> <| checksum := ck |> <| byte_count := MCD_SECTOR_SIZE |>
       <| phase := MCD_IDLE |>).
Proof.
  intros Hl Hp Hs Hlen Hbs ck. unfold MCD_NUM_SECTORS in Hs. rewrite card_run_app.
  rewrite head_run by (try assumption; try lia; tauto).
  destruct xs as [|x1 [|x2 [|x3 [|x4 xs] ] ] ]; try discriminate. simpl in Hlen.
  change (x1 :: x2 :: x3 :: x4 :: xs) with ([x1; x2; x3; x4] ++ xs). rewrite card_run_app.
  rewrite (read_ack_run x1 x2 x3 x4 s) by (try reflexivity; exact Hl).
  rewrite (proj2 (Z.leb_gt MCD_NUM_SECTORS s)) by (unfold MCD_NUM_SECTORS; lia).
  rewrite <- (take_drop 128 xs), card_run_app.
  assert (Hd : length (drop 128 xs) = 3%nat) by (rewrite length_drop; lia).
  rewrite (read_data_run 127 (take 128 xs)) with (bs := bs);
    [| rewrite length_take; lia | exact Hl | reflexivity | cbn; lia
     | reflexivity | rewrite Hbs; unfold sector_bytes; f_equal; symmetry; apply Z.add_0_r].
  clear Hbs.
  destruct (drop 128 xs) as [|y1 [|y2 [|y3 [|] ] ] ]; try discriminate.
  destruct c as [d p cm fl sec ck0 bc wb ld fi]; simpl in Hl, Hp; subst ld p. reflexivity.
Qed.

Lemma tst_clear_new_card f : tst (Z.land f (u8 (Z.lnot 0x08))) 0x04 = tst f 0x04.
Proof.
  change 0x04 with (2 ^ 2). rewrite !tst_pow2, Z.land_spec by lia.
  change (Z.testbit (u8 (Z.lnot 0x08)) 2) with true. apply andb_true_r.
Qed.

(** A committed sector: data, backing file, new-card bit. *)
Definition commit (s : Z) (bs : list Z) (c : Card) : Card :=
  let m := wr_bytes (data c) (s * MCD_SECTOR_SIZE) bs in
  c <| data := m |> <| file := save_file m s (file c) |>
    <| flag := Z.land (flag c) (u8 (Z.lnot 0x08)) |>.

Lemma write_tail_run k a b d s bs c :
  checksum c = k -> loaded c = true -> phase c = MCD_WR_CHK -> sector c = s -> s < MCD_NUM_SECTORS ->
  wr_buf c = bs ->
  card_run [k; a; b; d] c
  = ([0; 0x5C; 0x5D; if tst (flag c) 0x04 then 0x4E else 0x47],
     (commit s bs c) <| phase := MCD_IDLE |>).
Proof.
  intros <- Hl Hp Hs Hlt Hb. rewrite <- (tst_clear_new_card (flag c)).
  destruct c as [dt p cm fl sec ck bc wb ld fi]; simpl in Hl, Hp, Hs, Hb; subst ld p sec wb.
  unfold card_run, card_tick, tick_write. cbn [loaded phase negb sector checksum upd setter].
  rewrite Z.eqb_refl, (proj2 (Z.ltb_lt _ _) Hlt). unfold mcd_save_sector.
  cbn [loaded phase negb sector checksum upd setter].
  rewrite (proj2 (Z.leb_gt _ _) Hlt). reflexivity.
Qed.

(** A whole write transaction with the checksum the protocol asks for. *)
Lemma write_run x y s bs a b d c :
  loaded c = true -> phase c = MCD_IDLE -> 0 <= s < MCD_NUM_SECTORS ->
  zlen (wr_buf c) = 128 -> length bs = 128%nat ->
  card_run (head_txs 0x57 x y s ++ bs ++ [sector_checksum s bs; a; b; d]) c
  = ([0xFF; flag c; 0x5A; 0x5D; 0; 0] ++ repeat 0 128
       ++ [0; 0x5C; 0x5D; if tst (flag c) 0x04 then 0x4E else 0x47],
     (commit s bs c) <| cmd := 0x57 |> <| sector := s |> <| checksum := sector_checksum s bs |>
       <| byte_count := MCD_SECTOR_SIZE |> <| wr_buf := bs |> <| phase := MCD_IDLE |>).
Proof.
  intros Hl Hp Hs Hw Hlen. unfold MCD_NUM_SECTORS in Hs. rewrite card_run_app.
  rewrite head_run by (try assumption; try lia; tauto). rewrite card_run_app.
  rewrite write_data_run;
    [| intros ->; discriminate | exact Hl | reflexivity | exact Hw | cbn; lia
     | unfold zlen; rewrite Hlen; reflexivity].
  rewrite Hlen, (write_tail_run _ a b d s bs);
    [| reflexivity | exact Hl | reflexivity | reflexivity | unfold MCD_NUM_SECTORS; lia
     | reflexivity].
  destruct c as [dt p cm fl sec ck0 bc wb ld fi]; simpl in Hl, Hp; subst ld p. reflexivity.
Qed.

(** ** Invariant and progress *)

(** What the phase says about sector and counter. *)
Definition phase_ok (c : Card) : Prop :=
  match phase c with
  | MCD_RD_ACK1 | MCD_RD_ACK2 | MCD_RD_ADDR_MSB | MCD_RD_ADDR_LSB =>
    0 <= sector c < 65536 /\ byte_count c = 0
  | MCD_RD_DATA => 0 <= sector c < MCD_NUM_SECTORS /\ 0 <= byte_count c < MCD_SECTOR_SIZE
  | MCD_ADDR_LSB | MCD_WR_CHK | MCD_WR_ACK1 | MCD_WR_ACK2 | MCD_WR_END => 0 <= sector c < 65536
  | MCD_WR_DATA => 0 <= sector c < 65536 /\ 0 <= byte_count c < MCD_SECTOR_SIZE
  | MCD_ID_DATA => 0 <= byte_count c < 4
  | _ => True
  end.

(** The cards that the operations reach. *)
Inductive card_reach : Card -> Prop :=
| reach_init f : card_reach (MCD_Init_slot (card0 f))
| reach_reset c : card_reach c -> card_reach (set_phase MCD_IDLE c)
| reach_tick c tx : card_reach c -> is_u8 tx -> card_reach (snd (card_tick tx c)).

(** Exchanges until the card is idle again, at most. *)
Definition exchanges_left (c : Card) : Z :=
  match phase c with
  | MCD_IDLE => 0
  | MCD_CMD => 140 | MCD_ID1 => 139 | MCD_ID2 => 138 | MCD_ADDR_MSB => 137 | MCD_ADDR_LSB => 136
  | MCD_RD_ACK1 => 135 | MCD_RD_ACK2 => 134 | MCD_RD_ADDR_MSB => 133 | MCD_RD_ADDR_LSB => 132
  | MCD_RD_DATA => 131 - byte_count c | MCD_RD_CHK => 3 | MCD_RD_END => 2 | MCD_RD_COMPLETE => 1
  | MCD_WR_DATA => 132 - byte_count c | MCD_WR_CHK => 4 | MCD_WR_ACK1 => 3 | MCD_WR_ACK2 => 2
  | MCD_WR_END => 1
  | MCD_ID_ACK1 => 6 | MCD_ID_ACK2 => 5 | MCD_ID_DATA => 4 - byte_count c
  end.

Lemma is_u16_sector x y : is_u16 x -> is_u8 y -> 0 <= Z.lor x y < 65536.
Proof. unfold is_u16, is_u8. intros. apply (lor_bound 16); lia. Qed.

(** One tick: the phase invariant is kept, and progress is made. *)
Lemma tick_phase_ok tx c : is_u8 tx -> phase_ok c ->
  phase_ok (snd (card_tick tx c)) /\
  (loaded c = true -> phase c <> MCD_IDLE ->
   exchanges_left (snd (card_tick tx c)) < exchanges_left c).
Proof.
  intros Htx Hok. destruct c as [d p cm fl sec ck bc wb ld fi].
  unfold card_tick. destruct ld; cbn [loaded negb]; [|split; [exact Hok | discriminate] ].
  pose proof (u16_range (Z.shiftl tx 8)) as H16.
  pose proof (fun H => is_u16_sector sec tx H Htx) as Hor.
  unfold is_u16 in *. unfold phase_ok, MCD_SECTOR_SIZE, MCD_NUM_SECTORS in *.
  destruct p; cbn in Hok |- *; unfold MCD_SECTOR_SIZE, MCD_NUM_SECTORS;
    repeat match goal with
      | |- context [if ?b then _ else _] =>
        lazymatch b with
        | ?x =? ?y => destruct (Z.eqb_spec x y)
        | ?x <=? ?y => destruct (Z.leb_spec x y)
        | ?x <? ?y => destruct (Z.ltb_spec x y)
        | _ => destruct b
        end; cbn
      end;
    (split; [try exact I; try (split; lia); try lia | intros _ Hne; unfold exchanges_left; cbn; try congruence; try lia]).
Qed.

Lemma tick_wr_buf tx c : zlen (wr_buf c) = 128 -> zlen (wr_buf (snd (card_tick tx c))) = 128.
Proof.
  intros Hw. destruct c as [d p cm fl sec ck bc wb ld fi]. unfold card_tick.
  destruct ld; [|exact Hw]. cbn [loaded negb].
  destruct p; cbn -[zlen]; repeat case_match; cbn -[zlen]; try exact Hw;
    rewrite zlen_aset; exact Hw.
Qed.

Lemma reach_inv c : card_reach c -> zlen (wr_buf c) = 128 /\ phase_ok c.
Proof.
  induction 1 as [f | c _ [Hw Hok] | c tx _ [Hw Hok] Htx].
  - unfold MCD_Init_slot. cbn -[card0 mcd_format wr_bytes memset card_image Z.to_nat].
    repeat case_match; split; try reflexivity; exact I.
  - split; [exact Hw | exact I].
  - split; [apply tick_wr_buf, Hw | apply tick_phase_ok; assumption].
Qed.

Lemma tick_loaded tx c : loaded (snd (card_tick tx c)) = loaded c.
Proof.
  destruct c as [d p cm fl sec ck bc wb ld fi]. unfold card_tick.
  destruct ld; [|reflexivity]. cbn [loaded negb].
  destruct p; cbn -[zlen]; repeat case_match; reflexivity.
Qed.

Lemma snd_card_run tx txs c : snd (card_run (tx :: txs) c) = snd (card_run txs (snd (card_tick tx c))).
Proof.
  cbn [card_run]. destruct (card_tick tx c) as [rx c']. cbn [snd].
  destruct (card_run txs c'). reflexivity.
Qed.

(** Within [n] exchanges the card is idle again. *)
Lemma run_to_idle : forall n c txs, phase_ok c -> loaded c = true ->
  Forall is_u8 txs -> length txs = n -> exchanges_left c <= Z.of_nat n ->
  exists k, (k <= n)%nat /\ phase (snd (card_run (take k txs) c)) = MCD_IDLE.
Proof.
  induction n as [|n IH]; intros c txs Hok Hl Htx Hlen Hm.
  - exists O. split; [lia|]. change (snd (card_run (take 0 txs) c)) with c. revert Hok Hm. unfold phase_ok, exchanges_left, MCD_SECTOR_SIZE.
    cbn. destruct (phase c); lia || reflexivity.
  - destruct (decide (phase c = MCD_IDLE)) as [Hp|Hp]; [exists O; split; [lia | exact Hp] |].
    destruct txs as [|tx txs]; [discriminate|]. inversion Htx as [|? ? H1 H2]; subst.
    destruct (tick_phase_ok tx c H1 Hok) as [Hok' Hlt]. specialize (Hlt Hl Hp).
    destruct (IH (snd (card_tick tx c)) txs) as (k & Hk & Hidle);
      [exact Hok' | rewrite tick_loaded; exact Hl | exact H2 | simpl in Hlen; lia | lia |].
    exists (S k). split; [lia|]. cbn [take]. rewrite snd_card_run. exact Hidle.
Qed.


(** ** Transactions through the slots *)

Fixpoint slot_run (slot : Z) (txs : list Z) (cards : list Card) : list Z * list Card :=
  match txs with
  | [] => ([], cards)
  | tx :: txs =>
    let '(rx, cards) := MCD_Tick slot tx cards in
    let '(rxs, cards) := slot_run slot txs cards in (rx :: rxs, cards)
  end.

Lemma get_card_aset cards slot c : zlen cards = 2 -> in_slot slot = true ->
  get_card (aset cards slot c) slot = c.
Proof. intros Hz Hs. apply anth_aset_eq. unfold in_slot in Hs. lia. Qed.

Lemma aset_get_card cards slot : zlen cards = 2 -> in_slot slot = true ->
  aset cards slot (get_card cards slot) = cards.
Proof.
  intros Hz Hs. unfold aset, get_card, anth, in_slot, zlen in *. apply list_insert_id.
  destruct (nth_lookup_or_length cards (Z.to_nat slot) (card0 (mkCardFile false None false)))
    as [H|H]; [exact H | lia].
Qed.

Lemma slot_run_card slot txs : forall cards, zlen cards = 2 -> in_slot slot = true ->
  slot_run slot txs cards
  = let '(rxs, c) := card_run txs (get_card cards slot) in (rxs, aset cards slot c).
Proof.
  induction txs as [|tx txs IH]; intros cards Hz Hs; cbn [slot_run card_run].
  - rewrite aset_get_card by assumption. reflexivity.
  - unfold MCD_Tick. rewrite Hs. cbn [negb].
    destruct (card_tick tx (get_card cards slot)) as [rx c].
    rewrite IH by (try rewrite zlen_aset; assumption). rewrite get_card_aset by assumption.
    destruct (card_run txs c) as [rxs c']. unfold aset. rewrite list_insert_insert_eq. reflexivity.
Qed.

Lemma other_slot cards slot slot' c : in_slot slot = true -> in_slot slot' = true -> slot' <> slot ->
  get_card (aset cards slot c) slot' = get_card cards slot'.
Proof. unfold in_slot. intros Hs Hs' Hne. apply anth_aset_ne; lia. Qed.

(** A sector of a card after a write of sector [s]. *)
Lemma sector_bytes_commit m s t bs : length bs = 128%nat -> Forall is_u8 bs ->
  0 <= s -> 0 <= t ->
  sector_bytes (wr_bytes m (s * MCD_SECTOR_SIZE) bs) t = if s =? t then bs else sector_bytes m t.
Proof.
  unfold sector_bytes, image_bytes, MCD_SECTOR_SIZE. intros Hlen Hbs Hs Ht.
  assert (Hz : zlen bs = 128) by (unfold zlen; rewrite Hlen; reflexivity).
  destruct (Z.eqb_spec s t) as [<-|Hne].
  - apply nth_ext with (d := 0) (d' := 0).
    + rewrite length_map. unfold zseq. rewrite length_map, length_seq. symmetry. exact Hlen.
    + intros i Hi. rewrite length_map in Hi. unfold zseq in Hi. rewrite length_map, length_seq in Hi.
      pose proof (aget_image_bytes (wr_bytes m (s * 128) bs) (s * 128) 128 (Z.of_nat i) ltac:(lia)) as E.
      unfold aget, anth, image_bytes in E. rewrite Nat2Z.id in E. rewrite E, rd8_wr_bytes, Hz.
      destruct (Z.leb_spec (s * 128) (s * 128 + Z.of_nat i)),
        (Z.ltb_spec (s * 128 + Z.of_nat i) (s * 128 + 128)); try lia.
      cbn [andb]. rewrite Z.add_simpl_l. rewrite u8_small.
      * unfold aget, anth. rewrite Nat2Z.id. reflexivity.
      * apply (Forall_aget is_u8); [unfold is_u8; lia | exact Hbs].
  - apply map_ext_in. intros i Hi. apply in_zseq in Hi. rewrite rd8_wr_bytes, Hz.
    destruct (Z.leb_spec (s * 128) (t * 128 + i)), (Z.ltb_spec (t * 128 + i) (s * 128 + 128));
      cbn [andb]; try reflexivity; lia.
Qed.

(** ** The theorems *)

(** A card file the host already holds, of 128 KB of zeros. *)
Definition blank_cards : list Card :=
  [ (card0 (mkCardFile true None false)) <| loaded := true |> <| flag := 0x08 |>;
    card0 (mkCardFile false None false) ].

(** A read command: after the access byte, the command, two don't-care
    bytes and the sector address, the host receives FLAG, the card's
    identification, the acknowledge and the echoed address, then the 128 bytes
    of that sector, the XOR checksum of address and data, 47h and FFh, whatever
    it sends meanwhile; the card is idle again and nothing is modified, on
    either slot. *)
Theorem MCD_read_transaction cards slot x y s xs :
  zlen cards = 2 -> in_slot slot = true ->
  MCD_IsLoaded slot cards = true -> MCD_IsIdle slot cards = true ->
  0 <= s < MCD_NUM_SECTORS -> length xs = 135%nat ->
  let c := get_card cards slot in
  let bs := sector_bytes (data c) s in
  exists cards',
    slot_run slot ([0x81; 0x52; x; y; Z.shiftr s 8; Z.land s 0xFF] ++ xs) cards
    = ([0xFF; flag c; 0x5A; 0x5D; 0; 0; 0x5C; 0x5D; u8 (Z.shiftr s 8); u8 (Z.land s 0xFF)]
         ++ bs ++ [sector_checksum s bs; 0x47; 0xFF], cards') /\
    MCD_IsIdle slot cards' = true /\
    data (get_card cards' slot) = data c /\ flag (get_card cards' slot) = flag c /\
    file (get_card cards' slot) = file c /\
    (forall slot', in_slot slot' = true -> slot' <> slot -> get_card cards' slot' = get_card cards slot').
Proof.
  intros Hz Hs Hl Hi Hsec Hlen c bs. unfold MCD_IsLoaded, MCD_IsIdle in *.
  rewrite Hs in *. cbn [negb] in *. apply bool_decide_eq_true in Hi.
  rewrite slot_run_card by assumption.
  rewrite (read_run x y s xs bs) by (try assumption; reflexivity).
  eexists. split; [reflexivity|]. rewrite get_card_aset by assumption.
  split; [reflexivity|]. repeat (split; [reflexivity|]).
  intros slot' Hs' Hne. apply other_slot; assumption.
Qed.

Lemma MCD_read_transaction_witness :
  exists cards', slot_run 0 ([0x81; 0x52; 7; 9; Z.shiftr 3 8; Z.land 3 0xFF] ++ repeat 1 135) blank_cards
    = ([0xFF; 8; 0x5A; 0x5D; 0; 0; 0x5C; 0x5D; u8 (Z.shiftr 3 8); u8 (Z.land 3 0xFF)]
         ++ sector_bytes ∅ 3 ++ [sector_checksum 3 (sector_bytes ∅ 3); 0x47; 0xFF], cards').
Proof.
  destruct (MCD_read_transaction blank_cards 0 7 9 3 (repeat 1 135)) as (cards' & H & _);
    [reflexivity | reflexivity | reflexivity | reflexivity | unfold MCD_NUM_SECTORS; lia
     | reflexivity | exists cards'; exact H].
Defined.

(** [C9] A write command with the right checksum, then a read: the write is
    acknowledged with 47h (unless the error bit of FLAG was already set), and
    reading any sector afterwards returns the written bytes for the written
    sector and the old bytes for every other one. *)
Theorem MCD_write_read_roundtrip cards slot x y s bs a b d t xs :
  zlen cards = 2 -> in_slot slot = true -> card_reach (get_card cards slot) ->
  MCD_IsLoaded slot cards = true -> MCD_IsIdle slot cards = true ->
  0 <= s < MCD_NUM_SECTORS -> 0 <= t < MCD_NUM_SECTORS ->
  length bs = 128%nat -> Forall is_u8 bs -> length xs = 135%nat ->
  let c := get_card cards slot in
  let old := sector_bytes (data c) t in
  let '(rx1, cards1) := slot_run slot (head_txs 0x57 x y s ++ bs ++ [sector_checksum s bs; a; b; d]) cards in
  let '(rx2, cards2) := slot_run slot (head_txs 0x52 x y t ++ xs) cards1 in
  drop 134 rx1 = [0; 0x5C; 0x5D; if tst (flag c) 0x04 then 0x4E else 0x47] /\
  take 128 (drop 10 rx2) = (if s =? t then bs else old).
Proof.
  intros Hz Hs Hr Hl Hi Hsec Ht Hlen Hbs Hxs c old. unfold MCD_IsLoaded, MCD_IsIdle in *.
  rewrite Hs in *. cbn [negb] in *. apply bool_decide_eq_true in Hi.
  destruct (reach_inv _ Hr) as [Hw _].
  rewrite slot_run_card by assumption. rewrite write_run by assumption.
  rewrite slot_run_card by (try rewrite zlen_aset; assumption).
  rewrite !get_card_aset by assumption.
  rewrite (read_run x y t xs (if s =? t then bs else old)); [| exact Hl | reflexivity | exact Ht | exact Hxs |].
  - split; [reflexivity|].
    assert (Hb : length (if s =? t then bs else old) = 128%nat)
      by (destruct (s =? t); [exact Hlen | apply length_image_bytes]).
    revert Hb. generalize (if s =? t then bs else old). intros rbs Hb.
    rewrite drop_app_ge by reflexivity. change (10 - length _)%nat with O.
    rewrite drop_0, take_app_le, take_ge by lia. reflexivity.
  - symmetry. apply sector_bytes_commit; try assumption; lia.
Qed.

(** A card whose configured file is empty: all zeros, loaded. *)
Definition zero_cards : list Card :=
  MCD_Init [card0 (mkCardFile true (Some []) false); card0 (mkCardFile false None false)].

Lemma MCD_write_read_roundtrip_witness :
  let '(rx1, cards1) := slot_run 0 (head_txs 0x57 1 2 5 ++ repeat 7 128 ++ [sector_checksum 5 (repeat 7 128); 0; 0; 0]) zero_cards in
  let '(rx2, cards2) := slot_run 0 (head_txs 0x52 1 2 5 ++ repeat 1 135) cards1 in
  drop 134 rx1 = [0; 0x5C; 0x5D; 0x47] /\ take 128 (drop 10 rx2) = repeat 7 128.
Proof.
  assert (H := MCD_write_read_roundtrip zero_cards 0 1 2 5 (repeat 7 128) 0 0 0 5 (repeat 1 135)
    eq_refl eq_refl (reach_init _) eq_refl eq_refl ltac:(unfold MCD_NUM_SECTORS; lia)
    ltac:(unfold MCD_NUM_SECTORS; lia) eq_refl
    ltac:(apply Forall_repeat; unfold is_u8; lia) eq_refl).
  exact H.
Defined.

(** Any number of exchanges and port resets. *)
Inductive card_op := OpTick (tx : Z) | OpReset.

Definition card_do (o : card_op) (c : Card) : Card :=
  match o with OpTick tx => snd (card_tick tx c) | OpReset => set_phase MCD_IDLE c end.

Lemma card_do_error o c : tst (flag c) 0x04 = true -> tst (flag (card_do o c)) 0x04 = true.
Proof.
  intros H. destruct o as [tx|]; [|exact H].
  assert (Hset : forall f, tst (Z.lor f 0x04) 0x04 = true).
  { intros f. change 0x04 with (2 ^ 2). rewrite tst_pow2, Z.lor_spec by lia. apply orb_true_r. }
  destruct c as [d p cm fl sec ck bc wb ld fi]. cbn [flag] in H. unfold card_do, card_tick.
  destruct ld; [|exact H]. cbn [loaded negb].
  destruct p; cbn; repeat case_match; cbn; try exact H; try apply Hset.
  rewrite tst_clear_new_card. exact H.
Qed.

Lemma cards_do_error ops : forall c, tst (flag c) 0x04 = true ->
  tst (flag (fold_left (fun c o => card_do o c) ops c)) 0x04 = true.
Proof. induction ops as [|o ops IH]; intros c H; [exact H|]. cbn. apply IH, card_do_error, H. Qed.

(** The error bit of FLAG is never cleared: once a write has arrived
    with a wrong checksum, every later write that arrives intact, after any
    exchanges and resets, is committed to the card and still answered with the
    bad-checksum byte 4Eh. *)
Theorem MCD_write_error_sticky c ops w x y s bs a b d :
  let c1 := fold_left (fun c o => card_do o c) ops (snd (card_tick w c)) in
  phase c = MCD_WR_CHK -> loaded c = true -> w <> checksum c ->
  loaded c1 = true -> phase c1 = MCD_IDLE -> zlen (wr_buf c1) = 128 ->
  0 <= s < MCD_NUM_SECTORS -> length bs = 128%nat -> Forall is_u8 bs ->
  let '(rx, c2) := card_run (head_txs 0x57 x y s ++ bs ++ [sector_checksum s bs; a; b; d]) c1 in
  last rx = Some 0x4E /\ sector_bytes (data c2) s = bs.
Proof.
  intros c1 Hp Hl Ha Hl1 Hp1 Hw1 Hs Hlen Hbs.
  assert (He : tst (flag c1) 0x04 = true).
  { apply cards_do_error. destruct c as [dt p cm fl sec ck bc wb ld fi].
    cbn in Hp, Hl, Ha. subst p ld. cbn. rewrite (proj2 (Z.eqb_neq w ck) Ha). cbn.
    change 0x04 with (2 ^ 2). rewrite tst_pow2, Z.lor_spec by lia. apply orb_true_r. }
  rewrite write_run by assumption. rewrite He. split; [reflexivity|].
  change (sector_bytes (wr_bytes (data c1) (s * MCD_SECTOR_SIZE) bs) s = bs).
  rewrite sector_bytes_commit, Z.eqb_refl by (try assumption; lia). reflexivity.
Qed.

Lemma MCD_write_error_sticky_witness :
  let c := (card0 (mkCardFile true None false)) <| loaded := true |> <| phase := MCD_WR_CHK |> in
  let c1 := fold_left (fun c o => card_do o c) [OpTick 0; OpTick 0; OpTick 0] (snd (card_tick 1 c)) in
  let '(rx, c2) := card_run (head_txs 0x57 0 0 5 ++ repeat 7 128 ++ [sector_checksum 5 (repeat 7 128); 0; 0; 0]) c1 in
  last rx = Some 0x4E /\ sector_bytes (data c2) 5 = repeat 7 128.
Proof.
  intros c c1.
  apply (MCD_write_error_sticky c [OpTick 0; OpTick 0; OpTick 0] 1 0 0 5 (repeat 7 128) 0 0 0);
    try reflexivity; [discriminate | unfold MCD_NUM_SECTORS; lia | apply Forall_repeat; unfold is_u8; lia].
Defined.

(** On every card the operations reach, each access to the card image,
    the staging buffer and the identification table is within its bounds, and
    a loaded card is idle again within 140 exchanges, whatever the host
    sends. *)
Theorem MCD_bounds_and_progress c : card_reach c ->
  (phase c = MCD_RD_DATA -> 0 <= sector c * MCD_SECTOR_SIZE + byte_count c < MCD_SIZE) /\
  (phase c = MCD_WR_DATA -> 0 <= byte_count c < zlen (wr_buf c)) /\
  (phase c = MCD_ID_DATA -> 0 <= byte_count c < zlen id_data) /\
  (forall txs, loaded c = true -> Forall is_u8 txs -> length txs = 140%nat ->
   exists k, (k <= 140)%nat /\ phase (snd (card_run (take k txs) c)) = MCD_IDLE).
Proof.
  intros Hr. destruct (reach_inv c Hr) as [Hw Hok]. pose proof Hok as Hok'.
  unfold phase_ok, MCD_SIZE, MCD_SECTOR_SIZE, MCD_NUM_SECTORS in *. rewrite Hw.
  split; [|split; [|split] ]; try (intros Hp; rewrite Hp in Hok; try change (zlen id_data) with 4; lia).
  intros txs Hl Htx Hlen. apply run_to_idle; try assumption.
  unfold exchanges_left. destruct (phase c); cbn in *; lia.
Qed.

Lemma MCD_bounds_and_progress_witness :
  exists k, (k <= 140)%nat /\
    phase (snd (card_run (take k (repeat 0x81 140)) (MCD_Init_slot (card0 (mkCardFile true (Some []) false))))) = MCD_IDLE.
Proof.
  apply (MCD_bounds_and_progress _ (reach_init _)); [reflexivity | apply Forall_repeat; unfold is_u8; lia | reflexivity].
Defined.

(** Every checksum of a frame: byte 7Fh is the XOR of the 127 before it. *)
Definition frame_checksum_ok (m : gmap Z Z) (i : Z) : bool :=
  rd8 m (i * 128 + 0x7F) =? xor_bytes 0 (image_bytes m (i * 128) 127).

(** A slot whose configured file does not exist starts with a freshly
    formatted image, loaded and idle, which is also what the new file holds;
    the formatted image starts with the card magic and the header, the
    directory and the broken-sector list carry correct checksums. *)
Theorem MCD_Init_formats f :
  let c := MCD_Init_slot (card0 (mkCardFile true None f)) in
  loaded c = true /\ phase c = MCD_IDLE /\ flag c = 0x08 /\ data c = mcd_format /\
  contents (file c) = (if f then Some (card_image (data c)) else None) /\
  image_bytes (data c) 0 2 = [0x4D; 0x43] /\
  forallb (frame_checksum_ok (data c)) (zseq 36) = true.
Proof.
  intros c. assert (E : data c = mcd_format) by (destruct f; reflexivity).
  rewrite E. split; [destruct f; reflexivity|]. split; [destruct f; reflexivity|].
  split; [destruct f; reflexivity|]. split; [reflexivity|]. split; [destruct f; reflexivity|].
  split; vm_compute; reflexivity.
Qed.
