(* ===== verification/Sio.v ===== *)
(** * Serial I/O: the controller and memory-card port ([src/sio.c])

    The SIO registers, the byte-exchange state machine that routes each
    transmitted byte to a pad, a multitap or a memory card, and the delayed
    acknowledge interrupt.  The pads themselves are host input: [Pads]. *)

From Stdlib Require Import Relation_Operators.
From S2P Require Import Prelude Scheduler System MemoryCard.

(** The host's controllers ([joystick.h]). *)
Record Pads := mkPads {
  Joystick_HasMultitap : Z -> bool;
  Joystick_IsConnected : Z -> Z -> bool;
  Joystick_GetPSXDigitalResponse : Z -> Z -> list Z
}.

(** The static state of [sio.c], with the cards behind it. *)
Record Sio := mkSio {
  sio_data : Z; sio_stat : Z; sio_mode : Z; sio_ctrl : Z; sio_baud : Z;
  sio_tx_pending : bool; sio_state : Z; sio_deferred_vblank : bool;
  sio_response : list Z; sio_response_len : Z; sio_selected : bool;
  sio_port : Z; sio_device : Z;
  serial_mode : Z; serial_ctrl : Z; serial_baud : Z;
  sio_irq_delay_cycle : Z; sio_irq_pending : bool; sio_ack_latch : bool;
  sio_cards : list Card
}.
#[export] Instance eta_Sio : Eta Sio := fun s =>
  mkSio (sio_data s) (sio_stat s) (sio_mode s) (sio_ctrl s) (sio_baud s)
    (sio_tx_pending s) (sio_state s) (sio_deferred_vblank s)
    (sio_response s) (sio_response_len s) (sio_selected s)
    (sio_port s) (sio_device s)
    (serial_mode s) (serial_ctrl s) (serial_baud s)
    (sio_irq_delay_cycle s) (sio_irq_pending s) (sio_ack_latch s) (sio_cards s).

Definition sio_init (cards : list Card) : Sio :=
  mkSio 0xFF 5 0 0 0 false 0 false (repeat 0 20) 0 false 0 0 0 0 0 0 false false cards.

Definition SIO_IRQ_DELAY : Z := 500.
Definition SIO_MCD_IRQ_DELAY : Z := 1500.

(** Operations work on the port and the shared state. *)
Definition SioSys : Type := Sio * Sys.

Definition sio_flush_deferred_vblank (x : SioSys) : SioSys :=
  let '(s, y) := x in
  if sio_deferred_vblank s then
    (s <| sio_deferred_vblank := false |>,
     raise_if_pending (recompute_irq_pending (upd_cpu (fun c => c <| i_stat ::= fun v => Z.lor v 1 |>) y)))
  else x.

(** The scheduled callback. *)
Definition Sched_SIO_IRQ (ticks_late : Z) (x : SioSys) : SioSys :=
  let '(s, y) := x in
  (s <| sio_irq_delay_cycle := 0 |> <| sio_irq_pending := false |>
     <| sio_stat ::= fun v => Z.lor v (Z.shiftl 1 9) |>,
   SignalInterrupt 7 y).

(** Arms the interrupt [delay] cycles from now. *)
Definition sio_arm_irq (delay : Z) (x : SioSys) : SioSys :=
  let '(s, y) := x in
  let deadline := u64 (global_cycles y + partial_block_cycles y + delay) in
  (s <| sio_irq_delay_cycle := deadline |>,
   upd_sched (Sched_Add SCHED_EVENT_SIO_IRQ deadline Sched_SIO_IRQ_Callback) y).

Definition sio_schedule_irq : SioSys -> SioSys := sio_arm_irq SIO_IRQ_DELAY.

Definition sio_assert_ack (x : SioSys) : SioSys :=
  let '(s, y) := x in
  let s := s <| sio_ack_latch := true |> in
  let delay := if sio_device s =? 2 then SIO_MCD_IRQ_DELAY else SIO_IRQ_DELAY in
  let '(s, y) :=
    if sio_device s =? 2 then sio_arm_irq SIO_MCD_IRQ_DELAY (s, y)
    else sio_schedule_irq (s <| sio_irq_pending := true |>, y) in
  (s, cap_cycles (delay + 200) y).

Definition sio_cancel_irq (x : SioSys) : SioSys :=
  let '(s, y) := x in
  (s <| sio_irq_delay_cycle := 0 |>, upd_sched (Sched_Remove SCHED_EVENT_SIO_IRQ) y).

(** ** Register reads *)

Definition read_stat (s : Sio) : Z * Sio :=
  let stat := 0x05 in
  let stat := if sio_tx_pending s then Z.lor stat 0x02 else stat in
  let '(stat, s) :=
    if sio_selected s && (0 <? sio_state s) then
      if sio_device s =? 2 then
        if sio_ack_latch s then (Z.lor stat 0x80, s <| sio_ack_latch := false |>) else (stat, s)
      else if sio_state s <? sio_response_len s then (Z.lor stat 0x80, s)
      else (stat, s)
    else (stat, s) in
  (Z.lor stat (Z.land (sio_stat s) (Z.shiftl 1 9)), s).

Definition SIO_Read_Inner (phys : Z) (s : Sio) : Z * Sio :=
  match phys - 0x1F801040 with
  | 0x00 => (sio_data s, s <| sio_tx_pending := false |> <| sio_data := 0xFF |>)
  | 0x04 => read_stat s
  | 0x08 => (Z.land (sio_mode s) 0x3F, s)
  | 0x0A => (sio_ctrl s, s)
  | 0x0E => (sio_baud s, s)
  | 0x10 => (0xFF, s)
  | 0x14 => (0x05, s)
  | 0x18 => (Z.land (serial_mode s) 0xFF, s)
  | 0x1A => (serial_ctrl s, s)
  | 0x1E => (serial_baud s, s)
  | _ => (0, s)
  end.

Definition SIO_Read (phys : Z) (s : Sio) : Z * Sio := SIO_Read_Inner phys s.

(** ** Transmission *)

Section Sio.
Context (pads : Pads).

(** One of the four controllers of a multitap. *)
Definition multitap_slot (port : Z) (resp : list Z) (slot : Z) : list Z :=
  let base := 3 + slot * 4 in
  if Joystick_IsConnected pads port slot then
    let pad := Joystick_GetPSXDigitalResponse pads port slot in
    aset (aset (aset (aset resp base (aget pad 0)) (base + 1) 0x5A) (base + 2) (aget pad 1)) (base + 3) (aget pad 2)
  else
    aset (aset (aset (aset resp base 0xFF) (base + 1) 0xFF) (base + 2) 0xFF) (base + 3) 0xFF.

(** The response buffer a pad access prepares. *)
Definition pad_response (s : Sio) : Sio :=
  let resp := sio_response s in
  if Joystick_HasMultitap pads (sio_port s) then
    let resp := aset (aset (aset resp 0 0xFF) 1 0x80) 2 0x5A in
    s <| sio_response := fold_left (multitap_slot (sio_port s)) (zseq 4) resp |>
      <| sio_response_len := 19 |>
  else
    let pad := Joystick_GetPSXDigitalResponse pads (sio_port s) 0 in
    s <| sio_response := aset (aset (aset (aset (aset resp 0 0xFF) 1 (aget pad 0)) 2 0x5A) 3 (aget pad 1)) 4 (aget pad 2) |>
      <| sio_response_len := 5 |>.

(** The first byte of an exchange selects the device. *)
Definition write_first (tx : Z) (s : Sio) (y : Sys) : SioSys :=
  if tx =? 0x01 then
    let s := pad_response (s <| sio_device := 1 |>) in
    sio_assert_ack (s <| sio_data := aget (sio_response s) 0 |> <| sio_state := 1 |> <| sio_tx_pending := true |>, y)
  else if tx =? 0x81 then
    let s := s <| sio_device := 2 |> in
    let cards := MCD_Reset (sio_port s) (sio_cards s) in
    let '(rx, cards) := MCD_Tick (sio_port s) tx cards in
    let s := s <| sio_cards := cards |> <| sio_data := rx |> <| sio_state := 1 |> <| sio_tx_pending := true |> in
    if negb (MCD_IsIdle (sio_port s) cards) then sio_assert_ack (s, y) else (s, y)
  else (s <| sio_data := 0xFF |> <| sio_tx_pending := true |>, y).

(** The later bytes go to the memory card, or step through the response. *)
Definition write_card (tx : Z) (s : Sio) (y : Sys) : SioSys :=
  let '(rx, cards) := MCD_Tick (sio_port s) tx (sio_cards s) in
  let s := s <| sio_cards := cards |> <| sio_data := rx |> <| sio_tx_pending := true |> <| sio_state ::= Z.add 1 |> in
  if negb (MCD_IsIdle (sio_port s) cards) then sio_assert_ack (s, y) else (s, cap_cycles 200 y).

Definition write_pad (s : Sio) (y : Sys) : SioSys :=
  if sio_state s <? sio_response_len s then
    let s := s <| sio_data := aget (sio_response s) (sio_state s) |> <| sio_tx_pending := true |> in
    let '(s, y) := if sio_state s <? sio_response_len s - 1 then sio_assert_ack (s, y) else (s, y) in
    (s <| sio_state ::= Z.add 1 |>, y)
  else (s <| sio_data := 0xFF |> <| sio_tx_pending := true |>, y).

Definition write_data (d : Z) (x : SioSys) : SioSys :=
  let '(s, y) := x in
  let tx := u8 (Z.land d 0xFF) in
  if negb (sio_selected s) then (s <| sio_data := 0xFF |> <| sio_tx_pending := true |>, y)
  else if sio_state s =? 0 then write_first tx s y
  else if sio_device s =? 2 then write_card tx s y
  else write_pad s y.

(** ** The control register *)

Definition ctrl_reset (x : SioSys) : SioSys :=
  let '(s, y) := x in
  let s := s <| sio_ctrl := 0 |> <| sio_mode := 0 |> <| sio_baud := 0 |> <| sio_tx_pending := false |> in
  let '(s, y) := sio_flush_deferred_vblank (s, y) in
  sio_cancel_irq
    (s <| sio_state := 0 |> <| sio_response_len := 0 |> <| sio_selected := false |>
       <| sio_port := 0 |> <| sio_device := 0 |> <| sio_data := 0xFF |>
       <| sio_irq_pending := false |> <| sio_ack_latch := false |>, y).

(** Bit 4: acknowledge. *)
Definition ctrl_ack (x : SioSys) : SioSys :=
  let '(s, y) := x in
  let s := s <| sio_stat ::= fun v => Z.land v (not32 (Z.shiftl 1 9)) |> in
  if sio_irq_pending s then
    let '(s, y) := sio_cancel_irq (s, y) in
    (s, upd_cpu (fun c => c <| block_aborted := 1 |>) (y <| psx_abort_pc := u32 (current_pc (cpu y) + 4) |>))
  else (s, y).

(** Bit 1 set: select, a fresh exchange if the port was not selected. *)
Definition ctrl_select (old_port : Z) (x : SioSys) : SioSys :=
  let '(s, y) := x in
  let '(s, y) :=
    if negb (sio_selected s) || negb (sio_port s =? old_port) then
      let s := if sio_selected s && (sio_device s =? 2) && negb (sio_port s =? old_port)
               then s <| sio_cards ::= MCD_Reset old_port |> else s in
      let '(s, y) := sio_flush_deferred_vblank (s, y) in
      (s <| sio_state := 0 |> <| sio_device := 0 |> <| sio_ack_latch := false |>, y)
    else (s, y) in
  (s <| sio_selected := true |>, y).

Definition ctrl_deselect (x : SioSys) : SioSys :=
  let '(s, y) := x in
  let s := if sio_selected s && (sio_device s =? 2) then s <| sio_cards ::= MCD_Reset (sio_port s) |> else s in
  let '(s, y) := sio_flush_deferred_vblank (s <| sio_selected := false |>, y) in
  sio_cancel_irq
    (s <| sio_state := 0 |> <| sio_device := 0 |> <| sio_irq_pending := false |>
       <| sio_ack_latch := false |>, y).

Definition write_ctrl (d : Z) (x : SioSys) : SioSys :=
  let '(s, y) := x in
  let s := s <| sio_ctrl := u16 d |> in
  if tst d 0x40 then ctrl_reset (s, y)
  else
    let '(s, y) := if tst d 0x10 then ctrl_ack (s, y) else (s, y) in
    let old_port := sio_port s in
    let s := s <| sio_port := Z.land (Z.shiftr d 13) 1 |> in
    if tst d 0x02 then ctrl_select old_port (s, y) else ctrl_deselect (s, y).

Definition SIO_Write_Inner (phys d : Z) (x : SioSys) : SioSys :=
  let '(s, y) := x in
  match phys - 0x1F801040 with
  | 0x00 => write_data d x
  | 0x08 => (s <| sio_mode := u16 (Z.land d 0x3F) |>, y)
  | 0x0A => write_ctrl d x
  | 0x0E => (s <| sio_baud := u16 d |>, y)
  | 0x18 => (s <| serial_mode := u16 (Z.land d 0xFF) |>, y)
  | 0x1A =>
    let s := s <| serial_ctrl := u16 d |> in
    if tst d 0x40 then (s <| serial_ctrl := 0 |> <| serial_mode := 0 |> <| serial_baud := 0 |>, y) else (s, y)
  | 0x1E => (s <| serial_baud := u16 d |>, y)
  | _ => x
  end.

Definition SIO_Write (phys d : Z) (x : SioSys) : SioSys := SIO_Write_Inner phys d x.

(** ** Exchanges: one DATA write, one DATA read *)

Definition sio_exchange (tx : Z) (x : SioSys) : Z * SioSys :=
  let '(s, y) := SIO_Write 0x1F801040 tx x in
  let '(v, s) := SIO_Read 0x1F801040 s in (v, (s, y)).

Fixpoint exchange_run (txs : list Z) (x : SioSys) : list Z * SioSys :=
  match txs with
  | [] => ([], x)
  | tx :: txs =>
    let '(v, x) := sio_exchange tx x in
    let '(vs, x) := exchange_run txs x in (v :: vs, x)
  end.

(** ** Invariant *)

(** Buffer sizes and the values the selectors take; the bounds of every
    array access of [sio.c]. *)
Record sio_ok (s : Sio) : Prop := {
  ok_response : zlen (sio_response s) = 20;
  ok_len : sio_response_len s = 0 \/ sio_response_len s = 5 \/ sio_response_len s = 19;
  ok_port : sio_port s = 0 \/ sio_port s = 1;
  ok_state : 0 <= sio_state s;
  ok_cards : zlen (sio_cards s) = 2
}.

Lemma zlen_multitap l resp : zlen (fold_left (multitap_slot l) (zseq 4) resp) = zlen resp.
Proof.
  generalize (zseq 4). intros ids. revert resp. induction ids as [|i ids IH]; intros resp; [reflexivity|].
  cbn [fold_left]. rewrite IH. unfold multitap_slot. destruct (Joystick_IsConnected _ _ _);
    rewrite !zlen_aset; reflexivity.
Qed.

Lemma zlen_MCD_Reset p cards : zlen (MCD_Reset p cards) = zlen cards.
Proof. unfold MCD_Reset. destruct (in_slot p); [apply zlen_aset | reflexivity]. Qed.

Lemma zlen_MCD_Tick p tx cards : zlen (snd (MCD_Tick p tx cards)) = zlen cards.
Proof.
  unfold MCD_Tick. destruct (in_slot p); [|reflexivity]. cbn [negb].
  destruct (card_tick tx (get_card cards p)). apply zlen_aset.
Qed.

(** Operations that only touch the interrupt side of the port. *)
Definition same_port (s s' : Sio) : Prop :=
  sio_response s' = sio_response s /\ sio_response_len s' = sio_response_len s /\
  sio_port s' = sio_port s /\ sio_state s' = sio_state s /\ sio_cards s' = sio_cards s /\
  sio_data s' = sio_data s /\ sio_selected s' = sio_selected s /\ sio_device s' = sio_device s.

Lemma same_port_ok s s' : same_port s s' -> sio_ok s -> sio_ok s'.
Proof. intros (E1 & E2 & E3 & E4 & E5 & _) []. split; congruence. Qed.

Lemma assert_ack_same x : same_port (fst x) (fst (sio_assert_ack x)).
Proof. destruct x as [s y]. unfold sio_assert_ack. destruct (_ =? 2) eqn:E; cbn; rewrite ?E; repeat split. Qed.

Lemma flush_same x : same_port (fst x) (fst (sio_flush_deferred_vblank x)).
Proof. destruct x as [s y]. cbn. destruct (sio_deferred_vblank s); repeat split. Qed.

Lemma pad_response_ok s : sio_ok s -> sio_ok (pad_response s).
Proof.
  intros [H1 H2 H3 H4 H5]. unfold pad_response. destruct (Joystick_HasMultitap _ _); split; cbn -[zseq zlen];
    try assumption; try tauto; rewrite ?zlen_multitap, !zlen_aset; exact H1.
Qed.

Ltac by_same := eapply same_port_ok; [first [apply assert_ack_same | apply flush_same] |].

Lemma write_data_ok d x : sio_ok (fst x) -> sio_ok (fst (write_data d x)).
Proof.
  destruct x as [s y]. intros H. cbn in H. unfold write_data. set (tx := u8 _). clearbody tx.
  destruct (negb _); [destruct H; split; assumption|].
  destruct (sio_state s =? 0).
  - unfold write_first. destruct (tx =? 1); [|destruct (tx =? 0x81)].
    + by_same. cbn.
      assert (Hp : sio_ok (pad_response (s <| sio_device := 1 |>)))
        by (apply pad_response_ok; destruct H; split; assumption).
      destruct Hp. split; cbn; try assumption. lia.
    + pose proof (zlen_MCD_Tick (sio_port s) tx (MCD_Reset (sio_port s) (sio_cards s))) as E.
      cbn [sio_port sio_cards upd setter].
      destruct (MCD_Tick _ _ _) as [rx cards]. rewrite zlen_MCD_Reset in E. cbn in E.
      destruct (negb _); [by_same|]; destruct H; split; cbn -[zlen]; lia || assumption || congruence.
    + destruct H; split; assumption.
  - destruct (sio_device s =? 2).
    + unfold write_card. pose proof (zlen_MCD_Tick (sio_port s) tx (sio_cards s)) as E.
      destruct (MCD_Tick _ _ _) as [rx cards]. cbn in E.
      destruct (negb _); [by_same|]; destruct H; split; cbn -[zlen]; lia || assumption || congruence.
    + unfold write_pad. destruct (_ <? _); [|destruct H; split; assumption].
      destruct (_ <? _).
      * pose proof (assert_ack_same (s <| sio_data := aget (sio_response s) (sio_state s) |> <| sio_tx_pending := true |>, y)) as Hs.
        destruct (sio_assert_ack _) as [s' y']. eapply same_port_ok in Hs; [|destruct H; split; assumption].
        destruct Hs. split; cbn; try assumption. cbn in *; lia.
      * destruct H. split; cbn; try assumption. lia.
Qed.

Lemma land_1 x : Z.land x 1 = 0 \/ Z.land x 1 = 1.
Proof. pose proof (land_bound_r x 1). lia. Qed.

Lemma write_ctrl_ok d x : sio_ok (fst x) -> sio_ok (fst (write_ctrl d x)).
Proof.
  destruct x as [s y]. intros H. cbn in H. unfold write_ctrl.
  destruct (tst d 0x40).
  - unfold ctrl_reset. pose proof (flush_same (s <| sio_ctrl := u16 d |> <| sio_ctrl := 0 |> <| sio_mode := 0 |>
      <| sio_baud := 0 |> <| sio_tx_pending := false |>, y)) as Hs.
    destruct (sio_flush_deferred_vblank _) as [s' y']. eapply same_port_ok in Hs; [|destruct H; split; assumption].
    destruct Hs. cbn in *. split; cbn; try assumption; lia.
  - assert (Ha : sio_ok (fst (if tst d 0x10 then ctrl_ack (s <| sio_ctrl := u16 d |>, y) else (s <| sio_ctrl := u16 d |>, y)))).
    { destruct (tst d 0x10); [|destruct H; split; assumption].
      unfold ctrl_ack. cbn. destruct (sio_irq_pending s); destruct H; split; assumption. }
    destruct (if tst d 0x10 then _ else _) as [s1 y1]. cbn in Ha.
    set (s2 := s1 <| sio_port := _ |>).
    assert (H2 : sio_ok s2) by (destruct Ha; split; cbn; try assumption; apply land_1).
    clearbody s2. destruct (tst d 0x02).
    + unfold ctrl_select. destruct (negb (sio_selected s2) || _).
      * set (s3 := if sio_selected s2 && _ && _ then _ else _).
        assert (H3 : sio_ok s3) by (subst s3; destruct (_ && _); destruct H2; split; cbn; try assumption;
                                    rewrite zlen_MCD_Reset; assumption).
        pose proof (flush_same (s3, y1)) as Hs. destruct (sio_flush_deferred_vblank _) as [s' y'].
        eapply same_port_ok in Hs; [|exact H3]. destruct Hs. cbn in *. split; cbn; try assumption; lia.
      * destruct H2. split; assumption.
    + unfold ctrl_deselect. set (s3 := if sio_selected s2 && _ then _ else _).
      assert (H3 : sio_ok s3) by (subst s3; destruct (_ && _); destruct H2; split; cbn; try assumption;
                                  rewrite zlen_MCD_Reset; assumption).
      pose proof (flush_same (s3 <| sio_selected := false |>, y1)) as Hs.
      destruct (sio_flush_deferred_vblank _) as [s' y'].
      eapply same_port_ok in Hs; [|destruct H3; split; assumption]. destruct Hs. cbn in *. split; cbn; try assumption; lia.
Qed.

(** Every access of the program to the port, and the scheduled interrupt. *)
Inductive sio_step : SioSys -> SioSys -> Prop :=
| step_write phys d x : sio_step x (SIO_Write phys d x)
| step_read phys s y : sio_step (s, y) (snd (SIO_Read phys s), y)
| step_irq late x : sio_step x (Sched_SIO_IRQ late x).

Lemma write_other_ok phys d x : sio_ok (fst x) -> sio_ok (fst (SIO_Write phys d x)).
Proof.
  intros H. pose proof (write_data_ok d x H) as Hd. pose proof (write_ctrl_ok d x H) as Hc.
  destruct x as [s y]. unfold SIO_Write, SIO_Write_Inner. cbn in H.
  repeat case_match; try exact Hd; try exact Hc; try exact H; destruct H; split; assumption.
Qed.

Lemma read_ok phys s : sio_ok s -> sio_ok (snd (SIO_Read phys s)).
Proof.
  intros H. unfold SIO_Read, SIO_Read_Inner, read_stat.
  repeat case_match; simplify_eq; try exact H; destruct H; split; assumption.
Qed.

(** ** A pad or multitap access *)

(** The bytes a port with these controllers answers. *)
Definition poll_bytes (port : Z) : list Z :=
  let pad slot := Joystick_GetPSXDigitalResponse pads port slot in
  if Joystick_HasMultitap pads port then
    [0xFF; 0x80; 0x5A] ++
    flat_map (fun slot => if Joystick_IsConnected pads port slot
                          then [aget (pad slot) 0; 0x5A; aget (pad slot) 1; aget (pad slot) 2]
                          else [0xFF; 0xFF; 0xFF; 0xFF]) (zseq 4)
  else [0xFF; aget (pad 0) 0; 0x5A; aget (pad 0) 1; aget (pad 0) 2].

Lemma zlen_nat {A} (l : list A) n : zlen l = Z.of_nat n -> length l = n.
Proof. unfold zlen. lia. Qed.

Lemma pad_response_poll s : sio_ok s ->
  take (Z.to_nat (sio_response_len (pad_response s))) (sio_response (pad_response s)) = poll_bytes (sio_port s) /\
  sio_response_len (pad_response s) = zlen (poll_bytes (sio_port s)).
Proof.
  intros [H1 _ _ _ _]. apply (zlen_nat _ 20) in H1.
  unfold pad_response, poll_bytes. destruct s as [? ? ? ? ? ? ? ? resp ? ? port ? ? ? ? ? ? ? ?]. cbn in H1.
  do 20 (destruct resp as [|? resp]; [discriminate|]). destruct resp; [|discriminate].
  cbn [sio_port sio_response]. destruct (Joystick_HasMultitap pads port); [|split; reflexivity].
  change (zseq 4) with [0; 1; 2; 3]. cbn [fold_left flat_map]. unfold multitap_slot.
  destruct (Joystick_IsConnected pads port 0), (Joystick_IsConnected pads port 1),
    (Joystick_IsConnected pads port 2), (Joystick_IsConnected pads port 3); split; reflexivity.
Qed.

(** A pad exchange is under way: [k] bytes of the response were sent. *)
Definition pad_selected (resp : list Z) (k : Z) (s : Sio) : Prop :=
  sio_selected s = true /\ sio_device s = 1 /\ sio_state s = k /\ 0 < k <= zlen resp /\
  sio_response_len s = zlen resp /\ take (Z.to_nat (zlen resp)) (sio_response s) = resp.

Lemma pad_exchange resp k tx x : pad_selected resp k (fst x) ->
  fst (sio_exchange tx x) = (if k <? zlen resp then aget resp k else 0xFF) /\
  pad_selected resp (if k <? zlen resp then 1 + k else k) (fst (snd (sio_exchange tx x))).
Proof.
  destruct x as [s y]. unfold pad_selected. cbn [fst].
  intros (Hsel & Hd & Hk & Hr & Hlen & Htake). unfold sio_exchange, SIO_Write, SIO_Write_Inner.
  change (0x1F801040 - 0x1F801040) with 0. cbv iota. unfold write_data. rewrite Hsel, Hk, Hd. cbn [negb].
  rewrite (proj2 (Z.eqb_neq k 0)) by lia. change (1 =? 2) with false. cbv iota.
  unfold write_pad. rewrite Hk, Hlen.
  assert (Haget : 0 <= k < zlen resp -> aget (sio_response s) k = aget resp k).
  { intros Hlt. unfold aget, anth. rewrite <- Htake, !nth_lookup, lookup_take_lt; [reflexivity|].
    unfold zlen in *. lia. }
  destruct (Z.ltb_spec k (zlen resp)).
  - rewrite Haget by lia.
    set (s1 := s <| sio_data := aget resp k |> <| sio_tx_pending := true |>).
    change (sio_state s1) with (sio_state s). change (sio_response_len s1) with (sio_response_len s).
    rewrite Hk, Hlen.
    assert (Hs : same_port s1 (fst (if k <? zlen resp - 1 then sio_assert_ack (s1, y) else (s1, y))))
      by (destruct (k <? zlen resp - 1); [apply (assert_ack_same (s1, y)) | repeat split]).
    destruct (if k <? zlen resp - 1 then _ else _) as [s2 y2].
    destruct Hs as (E1 & E2 & E3 & E4 & E5 & E6 & E7 & E8). cbn in E1, E2, E3, E4, E5, E6, E7, E8.
    unfold SIO_Read, SIO_Read_Inner. change (0x1F801040 - 0x1F801040) with 0. cbn.
    split; [exact E6|]. rewrite E1, E2, E4, E7, E8, Hk. repeat split; try assumption; lia.
  - unfold SIO_Read, SIO_Read_Inner. change (0x1F801040 - 0x1F801040) with 0. cbn.
    split; [reflexivity|]. repeat split; try assumption; lia.
Qed.

Lemma pad_run resp : forall txs k x, pad_selected resp k (fst x) ->
  fst (exchange_run txs x) = take (length txs) (drop (Z.to_nat k) resp ++ repeat 0xFF (length txs)).
Proof.
  induction txs as [|tx txs IH]; intros k x Hx; [reflexivity|]. cbn [exchange_run].
  destruct (pad_exchange resp k tx x Hx) as [Hv Hx'].
  destruct (sio_exchange tx x) as [v x'] eqn:E. cbn [fst snd] in Hv, Hx'. specialize (IH _ _ Hx').
  destruct (exchange_run txs x') as [vs x'']. cbn [fst] in *. rewrite IH, Hv.
  destruct Hx as (_ & _ & _ & Hk & _). unfold zlen in *.
  destruct (Z.ltb_spec k (Z.of_nat (length resp))).
  - unfold aget, anth. cbn [length repeat].
    rewrite (drop_S resp (nth (Z.to_nat k) resp 0) (Z.to_nat k)) by
      (rewrite nth_lookup; destruct (lookup_lt_is_Some_2 resp (Z.to_nat k) ltac:(lia)) as [z Hz];
       rewrite Hz; reflexivity).
    cbn [app take]. f_equal. replace (Z.to_nat (1 + k)) with (S (Z.to_nat k)) by lia.
    set (d := drop _ _). clearbody d.
    rewrite (repeat_cons (length txs) 255), app_assoc.
    rewrite (take_app_le (d ++ repeat 255 (length txs))); [reflexivity|].
    rewrite length_app, repeat_length. lia.
  - rewrite !drop_ge by lia. cbn [app length repeat take]. reflexivity.
Qed.

Lemma pad_first s y : sio_ok s -> sio_selected s = true -> sio_state s = 0 ->
  let r := poll_bytes (sio_port s) in
  fst (sio_exchange 0x01 (s, y)) = aget r 0 /\ pad_selected r 1 (fst (snd (sio_exchange 0x01 (s, y)))).
Proof.
  intros Hok Hsel Hst r. destruct (pad_response_poll (s <| sio_device := 1 |>)) as [Hp Hl].
  { destruct Hok. split; assumption. }
  cbn [sio_port upd setter] in Hp, Hl. change (sio_port (s <| sio_device := 1 |>)) with (sio_port s) in Hp, Hl.
  fold r in Hp, Hl.
  assert (Hr : 1 <= zlen r).
  { subst r. unfold poll_bytes. destruct (Joystick_HasMultitap _ _); [|unfold zlen; cbn; lia].
    unfold zlen. rewrite length_app. cbn [length]. lia. }
  unfold sio_exchange, SIO_Write, SIO_Write_Inner. change (0x1F801040 - 0x1F801040) with 0. cbv iota.
  unfold write_data. rewrite Hsel, Hst. change (u8 (Z.land 1 0xFF)) with 1. cbn [negb Z.eqb].
  unfold write_first. cbn [Z.eqb Pos.eqb].
  set (s0 := pad_response _). fold s0 in Hp, Hl.
  set (s1 := s0 <| sio_data := _ |> <| sio_state := 1 |> <| sio_tx_pending := true |>).
  pose proof (assert_ack_same (s1, y)) as Hs.
  destruct (sio_assert_ack (s1, y)) as [s2 y2].
  destruct Hs as (E1 & E2 & E3 & E4 & E5 & E6 & E7 & E8). cbn in E1, E2, E3, E4, E5, E6, E7, E8.
  assert (Hdev : sio_selected s0 = true /\ sio_device s0 = 1).
  { subst s0. unfold pad_response. destruct (Joystick_HasMultitap _ _); split; try exact Hsel; reflexivity. }
  destruct Hdev as [Hd1 Hd2].
  unfold SIO_Read, SIO_Read_Inner. change (0x1F801040 - 0x1F801040) with 0. unfold pad_selected. cbn.
  rewrite E1, E2, E4, E6, E7, E8. split.
  - unfold aget, anth. rewrite <- Hp, Hl, !nth_lookup, lookup_take_lt; [reflexivity|]. revert Hr; generalize (zlen r); intros; lia.
  - rewrite <- Hl. split; [exact Hd1|]. split; [exact Hd2|]. split; [reflexivity|].
    split; [lia|]. split; [reflexivity|exact Hp].
Qed.

Lemma drop_aget_0 (l : list Z) : 0 < zlen l -> l = aget l 0 :: drop 1 l.
Proof. destruct l as [|z l]; [unfold zlen; cbn; lia|]. intros _. simpl. rewrite drop_0. reflexivity. Qed.

(** A controller access: the host sends 01h and any further bytes, and
    reads, after each, the response of the port (FFh and the pad's identifier,
    5Ah and the two button bytes, or the multitap header and the four
    controllers behind it), then FFh for every byte beyond its end. *)
Theorem pad_transaction s y txs :
  sio_ok s -> sio_selected s = true -> sio_state s = 0 ->
  fst (exchange_run (0x01 :: txs) (s, y))
  = take (S (length txs)) (poll_bytes (sio_port s) ++ repeat 0xFF (length txs)).
Proof.
  intros Hok Hsel Hst. destruct (pad_first s y Hok Hsel Hst) as [Hv Hp]. cbn [exchange_run].
  destruct (sio_exchange 0x01 (s, y)) as [v x'] eqn:E. cbn [fst snd] in Hv, Hp.
  pose proof (pad_run _ txs 1 x' Hp) as Hrun. destruct (exchange_run txs x') as [vs x'']. cbn [fst] in *.
  rewrite Hrun, Hv. destruct Hp as (_ & _ & _ & Hk & _).
  rewrite (drop_aget_0 (poll_bytes (sio_port s))) at 3 by lia. reflexivity.
Qed.

(** ** A memory-card access *)

Definition card_selected (s : Sio) : Prop :=
  sio_selected s = true /\ sio_device s = 2 /\ 0 < sio_state s.

Lemma card_exchange tx s y : card_selected s -> is_u8 tx ->
  let '(v, (s', y')) := sio_exchange tx (s, y) in
  (v, sio_cards s') = MCD_Tick (sio_port s) tx (sio_cards s) /\
  sio_port s' = sio_port s /\ card_selected s'.
Proof.
  intros (Hsel & Hd & Hk) Htx. unfold sio_exchange, SIO_Write, SIO_Write_Inner.
  change (0x1F801040 - 0x1F801040) with 0. cbv iota. unfold write_data. rewrite Hsel, Hd. cbn [negb].
  rewrite (proj2 (Z.eqb_neq (sio_state s) 0)) by lia. change (2 =? 2) with true. cbv iota.
  replace (u8 (Z.land tx 0xFF)) with tx.
  2: { change 0xFF with (Z.ones 8). rewrite Z.land_ones by lia. unfold u8, is_u8 in *.
       change (2 ^ 8) with 256; zify_div. }
  unfold write_card. destruct (MCD_Tick _ _ _) as [rx cards].
  set (s1 := s <| sio_cards := cards |> <| sio_data := rx |> <| sio_tx_pending := true |> <| sio_state ::= Z.add 1 |>).
  assert (Hs : same_port s1 (fst (if negb (MCD_IsIdle (sio_port s1) cards) then sio_assert_ack (s1, y) else (s1, cap_cycles 200 y))))
    by (destruct (negb _); [apply (assert_ack_same (s1, y)) | repeat split]).
  destruct (if negb _ then _ else _) as [s2 y2].
  destruct Hs as (E1 & E2 & E3 & E4 & E5 & E6 & E7 & E8). cbn in E1, E2, E3, E4, E5, E6, E7, E8.
  unfold SIO_Read, SIO_Read_Inner. change (0x1F801040 - 0x1F801040) with 0. unfold card_selected. cbn.
  rewrite E3, E4, E5, E6, E7, E8. repeat split; try assumption; lia.
Qed.

Lemma card_exchanges txs : forall s y, card_selected s -> Forall is_u8 txs ->
  let '(vs, (s', y')) := exchange_run txs (s, y) in
  (vs, sio_cards s') = slot_run (sio_port s) txs (sio_cards s).
Proof.
  induction txs as [|tx txs IH]; intros s y Hs Htx; [reflexivity|].
  inversion Htx as [|? ? H1 H2]; subst. cbn [exchange_run slot_run].
  pose proof (card_exchange tx s y Hs H1) as Hx. destruct (sio_exchange tx (s, y)) as [v [s1 y1] ].
  destruct Hx as (Ht & Hport & Hs1). rewrite <- Ht. specialize (IH s1 y1 Hs1 H2).
  destruct (exchange_run txs (s1, y1)) as [vs [s2 y2] ]. rewrite Hport in IH. rewrite <- IH. reflexivity.
Qed.

(** [C10] A memory-card access through the port is transparent: once the port
    is selected, the bytes the program reads from DATA for 81h and whatever
    follows, and the cards afterwards, are those of the card's own exchange
    started from its idle state. *)
Theorem card_transparent s y txs :
  sio_selected s = true -> sio_state s = 0 -> Forall is_u8 txs ->
  let '(vs, (s', y')) := exchange_run (0x81 :: txs) (s, y) in
  (vs, sio_cards s') = slot_run (sio_port s) (0x81 :: txs) (MCD_Reset (sio_port s) (sio_cards s)).
Proof.
  intros Hsel Hst Htx. cbn [exchange_run slot_run].
  assert (Hx : let '(v, (s1, y1)) := sio_exchange 0x81 (s, y) in
    (v, sio_cards s1) = MCD_Tick (sio_port s) 0x81 (MCD_Reset (sio_port s) (sio_cards s)) /\
    sio_port s1 = sio_port s /\ card_selected s1).
  { unfold sio_exchange, SIO_Write, SIO_Write_Inner.
    change (0x1F801040 - 0x1F801040) with 0. cbv iota. unfold write_data. rewrite Hsel, Hst.
    change (u8 (Z.land 0x81 0xFF)) with 0x81. cbn [negb Z.eqb]. unfold write_first. cbn [Z.eqb Pos.eqb].
    cbn [sio_port sio_cards upd setter]. destruct (MCD_Tick _ _ _) as [rx cards].
    set (s1 := s <| sio_device := 2 |> <| sio_cards := cards |> <| sio_data := rx |> <| sio_state := 1 |> <| sio_tx_pending := true |>).
    assert (Hs : same_port s1 (fst (if negb (MCD_IsIdle (sio_port s1) cards) then sio_assert_ack (s1, y) else (s1, y))))
      by (destruct (negb _); [apply (assert_ack_same (s1, y)) | repeat split]).
    destruct (if negb _ then _ else _) as [s2 y2].
    destruct Hs as (E1 & E2 & E3 & E4 & E5 & E6 & E7 & E8). cbn in E1, E2, E3, E4, E5, E6, E7, E8.
    unfold SIO_Read, SIO_Read_Inner. change (0x1F801040 - 0x1F801040) with 0. unfold card_selected. cbn.
    rewrite E3, E4, E5, E6, E7, E8. repeat split; try assumption; lia. }
  destruct (sio_exchange 0x81 (s, y)) as [v [s1 y1] ]. destruct Hx as (Ht & Hport & Hs1). rewrite <- Ht.
  pose proof (card_exchanges txs s1 y1 Hs1 Htx) as IH.
  destruct (exchange_run txs (s1, y1)) as [vs [s2 y2] ]. rewrite Hport in IH. rewrite <- IH. reflexivity.
Qed.

(** ** The interrupt *)

Lemma sched_cap_cycles k y : sched (cap_cycles k y) = sched y.
Proof. unfold cap_cycles. destruct (_ <? _); reflexivity. Qed.

Lemma sched_raise_if_pending y : sched (raise_if_pending y) = sched y.
Proof.
  unfold raise_if_pending, cap_cycles_for_irq. destruct (_ =? _); [reflexivity|].
  destruct (psx_block_exception _); [|reflexivity]. rewrite sched_cap_cycles. reflexivity.
Qed.

Lemma sched_flush x : sched (snd (sio_flush_deferred_vblank x)) = sched (snd x).
Proof.
  destruct x as [s y]. cbn. destruct (sio_deferred_vblank s); [|reflexivity].
  cbn [snd]. rewrite sched_raise_if_pending. reflexivity.
Qed.

Lemma cap_cycles_bound k y : 0 <= k < 2147483648 -> s32 (cycles_left (cpu (cap_cycles k y))) <= k.
Proof.
  intros Hk. unfold cap_cycles. destruct (Z.ltb_spec k (s32 (cycles_left (cpu y)))); [|lia].
  cbn. rewrite s32_u32; lia.
Qed.

(** The SIO interrupt is on its way. *)
Definition sio_irq_armed (y : Sys) : bool := active_at (sched y) SCHED_EVENT_SIO_IRQ.

Lemma deselect_quiet x : wf_sched (sched (snd x)) ->
  let '(s', y') := ctrl_deselect x in
  sio_irq_armed y' = false /\ sio_irq_pending s' = false /\ sio_selected s' = false /\
  sio_state s' = 0 /\ sio_device s' = 0.
Proof.
  destruct x as [s y]. intros Hwf. unfold ctrl_deselect.
  set (s3 := if sio_selected s && _ then _ else _).
  pose proof (sched_flush (s3 <| sio_selected := false |>, y)) as Hy.
  pose proof (flush_same (s3 <| sio_selected := false |>, y)) as Hs.
  destruct (sio_flush_deferred_vblank _) as [s' y']. cbn in Hy. destruct Hs as (_ & _ & _ & _ & _ & _ & Hsel & _).
  cbn. split; [|cbn in Hsel; tauto]. unfold sio_irq_armed. cbn. rewrite Hy.
  apply (Sched_Remove_at (sched y) SCHED_EVENT_SIO_IRQ SCHED_EVENT_SIO_IRQ Hwf); unfold SCHED_EVENT_SIO_IRQ; lia.
Qed.

Lemma reset_quiet x : wf_sched (sched (snd x)) ->
  let '(s', y') := ctrl_reset x in
  sio_irq_armed y' = false /\ sio_irq_pending s' = false /\ sio_selected s' = false /\
  sio_state s' = 0 /\ sio_device s' = 0.
Proof.
  destruct x as [s y]. intros Hwf. unfold ctrl_reset.
  set (s3 := s <| sio_ctrl := 0 |> <| sio_mode := 0 |> <| sio_baud := 0 |> <| sio_tx_pending := false |>).
  pose proof (sched_flush (s3, y)) as Hy.
  destruct (sio_flush_deferred_vblank _) as [s' y']. cbn in Hy.
  cbn. split; [|tauto]. unfold sio_irq_armed. cbn. rewrite Hy.
  apply (Sched_Remove_at (sched y) SCHED_EVENT_SIO_IRQ SCHED_EVENT_SIO_IRQ Hwf); unfold SCHED_EVENT_SIO_IRQ; lia.
Qed.

Lemma ctrl_ack_wf x : wf_sched (sched (snd x)) -> wf_sched (sched (snd (ctrl_ack x))).
Proof.
  destruct x as [s y]. unfold ctrl_ack. intros Hwf. cbn. destruct (sio_irq_pending s); [|exact Hwf].
  cbn. apply Sched_Remove_wf, Hwf.
Qed.

(** The acknowledge interrupt: an acknowledged byte arms the SIO event
    500 cycles (1500 for a memory card) after the current cycle and caps the
    running chain shortly after it; writing CTRL with the reset bit, or without
    the select bit, disarms it, deselects the device and forgets the exchange,
    so that the next byte is answered FFh. *)
Theorem sio_irq_lifecycle s y d : wf_sched (sched y) ->
  (let '(s1, y1) := sio_assert_ack (s, y) in
   let delay := if sio_device s =? 2 then 1500 else 500 in
   sio_irq_armed y1 = true /\
   deadline_at (sched y1) SCHED_EVENT_SIO_IRQ = u64 (global_cycles y + partial_block_cycles y + delay) /\
   callback_at (sched y1) SCHED_EVENT_SIO_IRQ = Some Sched_SIO_IRQ_Callback /\
   s32 (cycles_left (cpu y1)) <= delay + 200) /\
  (tst d 0x40 = true \/ tst d 0x02 = false ->
   let '(s1, y1) := SIO_Write 0x1F80104A d (s, y) in
   sio_irq_armed y1 = false /\ sio_irq_pending s1 = false /\ sio_selected s1 = false /\
   sio_state s1 = 0 /\ sio_device s1 = 0 /\
   forall tx, fst (sio_exchange tx (s1, y1)) = 0xFF).
Proof.
  intros Hwf. split.
  - unfold sio_assert_ack, sio_irq_armed. cbn [sio_device upd setter].
    change (sio_device (s <| sio_ack_latch := true |>)) with (sio_device s).
    destruct (sio_device s =? 2) eqn:E; cbn; unfold SIO_MCD_IRQ_DELAY, SIO_IRQ_DELAY; rewrite !sched_cap_cycles; cbn;
      match goal with |- context [Sched_Add _ ?c ?cb _] =>
        destruct (Sched_Add_at (sched y) SCHED_EVENT_SIO_IRQ c cb SCHED_EVENT_SIO_IRQ Hwf) as (-> & -> & ->);
          try (unfold SCHED_EVENT_SIO_IRQ; lia)
      end; repeat split; apply cap_cycles_bound; lia.
  - intros Hd. assert (Hq : let '(s1, y1) := SIO_Write 0x1F80104A d (s, y) in
      sio_irq_armed y1 = false /\ sio_irq_pending s1 = false /\ sio_selected s1 = false /\
      sio_state s1 = 0 /\ sio_device s1 = 0).
    { unfold SIO_Write, SIO_Write_Inner. change (0x1F80104A - 0x1F801040) with 0x0A. cbv iota.
      unfold write_ctrl. destruct (tst d 0x40); [apply reset_quiet; exact Hwf|].
      destruct Hd as [Hd|Hd]; [discriminate|]. rewrite Hd.
      assert (Hw : wf_sched (sched (snd (if tst d 0x10 then ctrl_ack (s <| sio_ctrl := u16 d |>, y) else (s <| sio_ctrl := u16 d |>, y)))))
        by (destruct (tst d 0x10); [apply ctrl_ack_wf|]; exact Hwf).
      destruct (if tst d 0x10 then _ else _) as [s1 y1]. apply deselect_quiet, Hw. }
    destruct (SIO_Write 0x1F80104A d (s, y)) as [s1 y1]. destruct Hq as (H1 & H2 & H3 & H4 & H5).
    repeat (split; [assumption|]). intros tx. unfold sio_exchange, SIO_Write, SIO_Write_Inner.
    change (0x1F801040 - 0x1F801040) with 0. cbv iota. unfold write_data. rewrite H3. reflexivity.
Qed.

(** Buffer sizes, response length, port and counter stay in range under
    every register access and the scheduled interrupt, so no access to the
    response buffer leaves it. *)
Theorem sio_invariant s y s' y' : sio_ok s -> clos_refl_trans_1n _ sio_step (s, y) (s', y') ->
  sio_ok s' /\ (sio_state s' < sio_response_len s' -> 0 <= sio_state s' < zlen (sio_response s')).
Proof.
  intros Hok Hs. assert (Hs' : sio_ok (fst (s', y'))).
  { revert Hok. change s with (fst (s, y)). generalize dependent (s, y). intros x Hx.
    induction Hx as [x|x x1 x2 Hstep _ IH]; [tauto|]. intros Hok. apply IH.
    destruct Hstep as [x phys d|phys s0 y0|late x].
    - apply write_other_ok, Hok.
    - apply read_ok, Hok.
    - destruct x. destruct Hok. split; assumption. }
  split; [exact Hs'|]. destruct Hs' as [H1 H2 _ H4 _]. cbn [fst] in *. rewrite H1. lia.
Qed.

End Sio.

(** ** Witnesses: one digital pad, one empty card *)

Definition one_pad : Pads :=
  mkPads (fun _ => false) (fun _ slot => slot =? 0) (fun _ _ => [0x41; 0xFF; 0xBF]).

(** Port 1 selected, nothing exchanged yet. *)
Definition selected_sio : Sio := (sio_init zero_cards) <| sio_selected := true |>.

Lemma sio_init_ok cards : zlen cards = 2 -> sio_ok (sio_init cards).
Proof. intros H. split; try reflexivity; try exact H; try (left; reflexivity). Qed.

Lemma pad_transaction_witness :
  fst (exchange_run one_pad [0x01; 0x42; 0; 0; 0; 0] (selected_sio, sys0)) = [0xFF; 0x41; 0x5A; 0xFF; 0xBF; 0xFF].
Proof.
  rewrite (pad_transaction one_pad selected_sio sys0 [0x42; 0; 0; 0; 0]); [reflexivity | | reflexivity | reflexivity].
  split; try reflexivity; left; reflexivity.
Defined.

Lemma card_transparent_witness :
  let '(vs, (s', y')) := exchange_run one_pad [0x81; 0x52; 0] (selected_sio, sys0) in
  (vs, sio_cards s') = slot_run 0 [0x81; 0x52; 0] (MCD_Reset 0 zero_cards).
Proof.
  apply (card_transparent one_pad selected_sio sys0 [0x52; 0]); [reflexivity | reflexivity |].
  repeat constructor; unfold is_u8; lia.
Defined.

Lemma sio_irq_lifecycle_witness :
  let '(s1, y1) := SIO_Write one_pad 0x1F80104A 0 (selected_sio, sys0) in sio_irq_armed y1 = false.
Proof.
  pose proof (proj2 (sio_irq_lifecycle one_pad selected_sio sys0 0 Sched_Init_wf) (or_intror eq_refl)) as H.
  destruct (SIO_Write one_pad 0x1F80104A 0 (selected_sio, sys0)) as [s1 y1]. apply H.
Defined.

Lemma sio_invariant_witness :
  sio_ok (snd (SIO_Read 0x1F801040 (sio_init zero_cards))).
Proof.
  apply (sio_invariant one_pad (sio_init zero_cards) sys0 _ sys0 (sio_init_ok zero_cards eq_refl)).
  eapply rt1n_trans; [apply (step_read one_pad 0x1F801040) | apply rt1n_refl].
Defined.
