(* ===== verification/Dma.v ===== *)
(** * The DMA controller ([src/dma.c])

    Seven channels, the control register DPCR and the interrupt register
    DICR.  Storing CHCR with the start bit runs the whole transfer; the SPU
    channel alone completes later, by the scheduler or by a polling read.
    The devices at the other end are reached through [DmaBus]. *)

From S2P Require Import Prelude Scheduler System Cpu Memory.

Record DmaChannel := mkDmaChannel { madr : Z; bcr : Z; chcr : Z }.
#[export] Instance eta_DmaChannel : Eta DmaChannel := fun c =>
  mkDmaChannel (madr c) (bcr c) (chcr c).

(** The static state of [dma.c].  [dma_hung] is not a variable of the
    program: it records that the invalidation loop of [CDROM_DMA3] was
    entered with a length for which it does not terminate. *)
Record Dma := mkDma {
  dma_channels : list DmaChannel; dma_dpcr : Z; dma_dicr : Z;
  dma_pending_channel : Z; dma_pending_deadline : Z; dma_hung : bool
}.
#[export] Instance eta_Dma : Eta Dma := fun d =>
  mkDma (dma_channels d) (dma_dpcr d) (dma_dicr d)
    (dma_pending_channel d) (dma_pending_deadline d) (dma_hung d).

Definition dma_init : Dma :=
  mkDma (repeat (mkDmaChannel 0 0 0) 7) 0x07654321 0 (-1) 0 false.

Definition get_channel (d : Dma) (ch : Z) : DmaChannel := anth (mkDmaChannel 0 0 0) (dma_channels d) ch.
Definition set_channel (ch : Z) (f : DmaChannel -> DmaChannel) (d : Dma) : Dma :=
  d <| dma_channels ::= fun l => aset l ch (f (get_channel d ch)) |>.

Definition SPU_DMA_CYCLES_PER_WORD : Z := 8.

(** What the controller needs of the machine around it. [CDROM_ReadDataFIFO]
    returns the bytes it copies to its destination. *)
Class DmaBus (S : Type) `{Platform S} := {
  get_dma : S -> Dma;
  set_dma : Dma -> S -> S;
  MDEC_DMA0 : Z -> Z -> Z -> S -> S;
  MDEC_DMA1 : Z -> Z -> Z -> S -> S;
  GPU_DMA2 : Z -> Z -> Z -> S -> bool * S;
  SPU_DMA4 : Z -> Z -> Z -> S -> S;
  CDROM_ReadDataFIFO : Z -> S -> list Z * S;
  get_set_dma : forall d s, get_dma (set_dma d s) = d;
  get_sys_set_dma : forall d s, get_sys (set_dma d s) = get_sys s;
  get_dma_set_sys : forall y s, get_dma (set_sys y s) = get_dma s
}.

Section Dma.
Context {S : Type} `{DmaBus S}.

Definition upd_dma (f : Dma -> Dma) (s : S) : S := set_dma (f (get_dma s)) s.

(** Interrupt flag of channel [ch], and the interrupt if enabled. *)
Definition dma_flag_irq (ch : Z) (s : S) : S :=
  if tst (dma_dicr (get_dma s)) (Z.shiftl 1 (16 + ch)) then
    let s := upd_dma (fun d => d <| dma_dicr ::= fun v => Z.lor v (Z.shiftl 1 (24 + ch)) |>) s in
    if tst (dma_dicr (get_dma s)) 0x00800000 then
      let s := upd_dma (fun d => d <| dma_dicr ::= fun v => Z.lor v 0x80000000 |>) s in
      upd_sys (SignalInterrupt 3) s
    else s
  else s.

Definition dma_complete_channel (ch : Z) (s : S) : S :=
  dma_flag_irq ch
    (upd_dma (set_channel ch (fun c => c <| chcr ::= fun v => Z.land v (not32 0x01000000) |>)) s).

(** The scheduled callback. *)
Definition DMA_Fire (ticks_late : Z) (s : S) : S :=
  let ch := dma_pending_channel (get_dma s) in
  let s := if (0 <=? ch) && (ch <? 7) then dma_complete_channel ch s else s in
  upd_dma (fun d => d <| dma_pending_channel := -1 |>) s.

Definition DMA_EFFECTIVE_CYCLES (s : S) : Z := EFFECTIVE_CYCLES (get_sys s).

Definition dma_check_pending (s : S) : S :=
  let d := get_dma s in
  if (0 <=? dma_pending_channel d) && (dma_pending_deadline d <=? DMA_EFFECTIVE_CYCLES s) then
    let ch := dma_pending_channel d in
    let s := upd_dma (fun d => d <| dma_pending_channel := -1 |>) s in
    let s := upd_sys (upd_sched (Sched_Remove SCHED_EVENT_DMA)) s in
    dma_complete_channel ch s
  else s.

Definition DMA_IsPending (s : S) : bool := 0 <=? dma_pending_channel (get_dma s).

(** ** Channel 3: CD-ROM *)

(** [for (off = 0; off < total; off += 4096) jit_invalidate_page(phys + off)],
    in 32-bit arithmetic; [None] when the fuel ends first. *)
Fixpoint invalidate_pages (fuel : nat) (phys total off : Z) (y : Sys) : option Sys :=
  if off <? total then
    match fuel with
    | O => None
    | Datatypes.S fuel =>
      invalidate_pages fuel phys total (u32 (off + 4096)) (jit_invalidate_page (u32 (phys + off)) y)
    end
  else Some y.

(** The length in bytes of a block transfer, with the limit at the end of RAM. *)
Definition cdrom_dma_length (bcr : Z) : Z :=
  let block_size_words := Z.land bcr 0xFFFF in
  let block_count := Z.land (Z.shiftr bcr 16) 0xFFFF in
  let block_count := if block_count =? 0 then 1 else block_count in
  let block_size_words := if block_size_words =? 0 then 1 else block_size_words in
  u32 (block_size_words * block_count * 4).

Definition clamp_to_ram (phys total : Z) : Z :=
  if PSX_RAM_SIZE <? u32 (phys + total) then u32 (PSX_RAM_SIZE - phys) else total.

Definition CDROM_DMA3 (madr bcr chcr : Z) (s : S) : S :=
  let phys_addr := Z.land madr 0x1FFFFC in
  let total_bytes := clamp_to_ram phys_addr (cdrom_dma_length bcr) in
  let '(bs, s) := CDROM_ReadDataFIFO total_bytes s in
  let s := upd_sys (fun y => y <| psx_ram ::= fun m => wr_bytes m phys_addr bs |>) s in
  match invalidate_pages (Z.to_nat (total_bytes / 4096 + 1)) phys_addr total_bytes 0 (get_sys s) with
  | None => upd_dma (fun d => d <| dma_hung := true |>) s
  | Some y =>
    set_sys (if 0 <? total_bytes then jit_invalidate_page (u32 (phys_addr + total_bytes - 1)) y else y) s
  end.

(** ** Channel 6: the ordering-table clear *)

Fixpoint otc_loop (length : nat) (addr : Z) (s : S) : Z * S :=
  match length with
  | O => (addr, s)
  | Datatypes.S n =>
    let next_addr := Z.land (u32 (addr - 4)) 0x1FFFFC in
    otc_loop n next_addr (WriteWord addr next_addr s)
  end.

Definition GPU_DMA6 (madr bcr chcr : Z) (s : S) : S :=
  let addr := Z.land madr 0x1FFFFC in
  let length := if bcr =? 0 then 0x10000 else bcr in
  let '(addr, s) := otc_loop (Z.to_nat length) addr s in
  WriteWord (Z.land (addr + 4) 0x1FFFFC) 0xFFFFFF s.

(** ** Registers *)

(** The master flag, bit 31 of DICR: forced, or enabled with an enabled flag
    set. *)
Definition dicr_master (v : Z) : bool :=
  let force := Z.land (Z.shiftr v 15) 1 in
  let master_en := Z.land (Z.shiftr v 23) 1 in
  let en := Z.land (Z.shiftr v 16) 0x7F in
  let flg := Z.land (Z.shiftr v 24) 0x7F in
  negb (force =? 0) || (negb (master_en =? 0) && tst en flg).

Definition read_dicr (v : Z) : Z :=
  let read_val := Z.lor (Z.land v 0x7F000000) (Z.land v 0x00FF803F) in
  if dicr_master v then Z.lor read_val 0x80000000 else read_val.

Definition DMA_Read (addr : Z) (s : S) : Z * S :=
  let phys := Z.land addr 0x1FFFFFFF in
  let ch := (phys - 0x1F801080) / 0x10 in
  let reg := ((phys - 0x1F801080) mod 0x10) / 4 in
  if (0x1F801080 <=? phys) && (phys <? 0x1F801100) && (ch <? 7) then
    let c := get_channel (get_dma s) ch in
    match reg with
    | 0 => (madr c, s)
    | 1 => (bcr c, s)
    | 2 =>
      if ch =? 6 then (Z.lor (Z.land (chcr c) 0x51000000) 0x00000002, s)
      else
        let s := if ch =? dma_pending_channel (get_dma s) then dma_check_pending s else s in
        (chcr (get_channel (get_dma s) ch), s)
    | _ => (0, s)
    end
  else if phys =? 0x1F8010F0 then (dma_dpcr (get_dma s), s)
  else if phys =? 0x1F8010F4 then (read_dicr (dma_dicr (get_dma s)), s)
  else (0, s).

(** The transfer of a channel; whether it stalled. *)
Definition dma_transfer (ch : Z) (s : S) : bool * S :=
  let c := get_channel (get_dma s) ch in
  match ch with
  | 0 => (false, MDEC_DMA0 (madr c) (bcr c) (chcr c) s)
  | 1 => (false, MDEC_DMA1 (madr c) (bcr c) (chcr c) s)
  | 2 => GPU_DMA2 (madr c) (bcr c) (chcr c) s
  | 3 => (false, CDROM_DMA3 (madr c) (bcr c) (chcr c) s)
  | 4 => (false, SPU_DMA4 (madr c) (bcr c) (chcr c) s)
  | 6 => (false, GPU_DMA6 (madr c) (bcr c) (chcr c) s)
  | _ => (false, s)
  end.

(** Length of an SPU transfer in cycles. *)
Definition spu_delay_cycles (bcr : Z) : Z :=
  let block_size := Z.land bcr 0xFFFF in
  let block_count := Z.land (Z.shiftr bcr 16) 0xFFFF in
  let block_size := if block_size =? 0 then 1 else block_size in
  let block_count := if block_count =? 0 then 1 else block_count in
  let total_words := u32 (block_size * block_count) in
  let delay_cycles := total_words * SPU_DMA_CYCLES_PER_WORD in
  if delay_cycles <? 32 then 32 else delay_cycles.

Definition dma_defer_spu (ch : Z) (s : S) : S :=
  let delay_cycles := spu_delay_cycles (bcr (get_channel (get_dma s) ch)) in
  let s := upd_dma (fun d => d <| dma_pending_channel := ch |>
             <| dma_pending_deadline := u64 (DMA_EFFECTIVE_CYCLES s + delay_cycles) |>) s in
  upd_sys (fun y => upd_sched (Sched_Add SCHED_EVENT_DMA (u64 (global_cycles y + delay_cycles)) DMA_FireCompletion) y) s.

Definition dma_finish (ch : Z) (s : S) : S :=
  dma_flag_irq ch
    (upd_dma (set_channel ch (fun c => c <| chcr ::= fun v => Z.land v (not32 0x11000000) |>)) s).

(** A store to CHCR. *)
Definition write_chcr (ch data : Z) (s : S) : S :=
  let v := if ch =? 6 then Z.lor (Z.land data 0x51000000) 0x00000002 else data in
  let s := upd_dma (set_channel ch (fun c => c <| chcr := v |>)) s in
  if negb (tst data 0x01000000) then s
  else if Z.land (Z.shiftr (dma_dpcr (get_dma s)) (ch * 4 + 3)) 1 =? 0 then s
  else
    let sync_mode := Z.land (Z.shiftr v 9) 3 in
    if (ch =? 6) && (sync_mode =? 0) && negb (tst v 0x10000000) then
      upd_dma (set_channel ch (fun c => c <| chcr ::= fun v => Z.land v (not32 0x01000000) |>)) s
    else
      let '(dma_stalled, s) := dma_transfer ch s in
      if ch =? 4 then dma_defer_spu ch s
      else if dma_stalled then s
      else dma_finish ch s.

Definition write_dicr (data : Z) (s : S) : S :=
  let dicr := dma_dicr (get_dma s) in
  let ack_bits := Z.land data 0x7F000000 in
  let old_master := tst dicr 0x80000000 in
  let v := Z.lor (Z.land data 0x00FF803F) (Z.land (Z.land dicr 0x7F000000) (not32 ack_bits)) in
  let v := if dicr_master v then Z.lor v 0x80000000 else v in
  let s := upd_dma (fun d => d <| dma_dicr := v |>) s in
  if negb old_master && tst v 0x80000000 then upd_sys (SignalInterrupt 3) s else s.

Definition DMA_Write (addr data : Z) (s : S) : S :=
  let phys := Z.land addr 0x1FFFFFFF in
  if (0x1F801080 <=? phys) && (phys <? 0x1F8010F0) then
    let ch := (phys - 0x1F801080) / 0x10 in
    let reg := ((phys - 0x1F801080) mod 0x10) / 4 in
    if ch <? 7 then
      match reg with
      | 0 => upd_dma (set_channel ch (fun c => c <| madr := Z.land data 0x00FFFFFF |>)) s
      | 1 => upd_dma (set_channel ch (fun c => c <| bcr := data |>)) s
      | 2 => write_chcr ch data s
      | _ => s
      end
    else s
  else if phys =? 0x1F8010F0 then upd_dma (fun d => d <| dma_dpcr := data |>) s
  else if phys =? 0x1F8010F4 then write_dicr data s
  else s.

Lemma get_upd_dma f s : get_dma (upd_dma f s) = f (get_dma s).
Proof. apply get_set_dma. Qed.

Lemma get_sys_upd_dma f s : get_sys (upd_dma f s) = get_sys s.
Proof. apply get_sys_set_dma. Qed.

Lemma get_dma_upd_sys f s : get_dma (upd_sys f s) = get_dma s.
Proof. apply get_dma_set_sys. Qed.

(** ** The ordering table *)

Lemma mask_word_addr x : x mod 4 = 0 -> Z.land x 0x1FFFFC = x mod 0x200000.
Proof.
  intros Hx. pose proof (Z.div_mod x 4 ltac:(lia)) as E. rewrite Hx, Z.add_0_r in E.
  set (q := x / 4) in *. rewrite E. replace (4 * q) with (Z.shiftl q 2) by (rewrite Z.shiftl_mul_pow2 by lia; lia).
  change 0x1FFFFC with (Z.shiftl (Z.ones 19) 2).
  rewrite <- Z.shiftl_land, Z.land_ones, !Z.shiftl_mul_pow2 by lia.
  change (2 ^ 19) with 524288. change (2 ^ 2) with 4. zify_div.
Qed.

Lemma otc_next a : a mod 4 = 0 -> 0 <= a < 0x200000 ->
  Z.land (u32 (a - 4)) 0x1FFFFC = (a - 4) mod 0x200000.
Proof. intros H4 Ha. rewrite mask_word_addr; unfold u32; zify_div. Qed.

Lemma ram_word_addr a : a mod 4 = 0 -> 0 <= a < 0x200000 ->
  tst a 3 = false /\ in_ram (translate_addr a) = true /\ translate_addr a = a.
Proof.
  intros H4 Ha. assert (Ht : translate_addr a = a).
  { unfold translate_addr. change 0x1FFFFFFF with (Z.ones 29). rewrite Z.land_ones by lia.
    change (2 ^ 29) with 536870912. zify_div. }
  split; [|split; [|exact Ht] ].
  - apply tst_false_land. change 3 with (Z.ones 2). rewrite Z.land_ones by lia. exact H4.
  - unfold in_ram, PSX_RAM_SIZE. rewrite Ht. apply Z.ltb_lt. lia.
Qed.

Definition not_isolated (s : S) : Prop := tst (get_cop0 (get_sys s) PSX_COP0_SR) 0x10000 = false.

Lemma store_word a v s : a mod 4 = 0 -> 0 <= a < 0x200000 -> not_isolated s ->
  psx_ram (get_sys (WriteWord a v s)) = wr32 (psx_ram (get_sys s)) a v /\
  not_isolated (WriteWord a v s).
Proof.
  intros H4 Ha Hi. destruct (ram_word_addr a H4 Ha) as (Hb & Hr & Ht).
  destruct (WriteWord_ram a v s Hb Hr) as [Hm Hc].
  { unfold store_isolated. unfold not_isolated in Hi. rewrite Hi. reflexivity. }
  rewrite Ht in Hm. split; [exact Hm|]. unfold not_isolated, get_cop0 in *. rewrite Hc. exact Hi.
Qed.

(** The links that [n] iterations from [a] leave. *)
Definition otc_links (m m' : gmap Z Z) (n a : Z) : Prop :=
  (forall k, 0 <= k < n -> rd32 m' (a - 4 * k) = (a - 4 * (k + 1)) mod 0x200000) /\
  (forall b, b < a - 4 * (n - 1) \/ a + 4 <= b -> rd8 m' b = rd8 m b).

Lemma otc_loop_links n : forall a s, a mod 4 = 0 -> 0 <= a < 0x200000 ->
  4 * (Z.of_nat n - 1) <= a -> mem_ok (psx_ram (get_sys s)) -> not_isolated s ->
  let '(e, s') := otc_loop n a s in
  e = (a - 4 * Z.of_nat n) mod 0x200000 /\ not_isolated s' /\ mem_ok (psx_ram (get_sys s')) /\
  otc_links (psx_ram (get_sys s)) (psx_ram (get_sys s')) (Z.of_nat n) a.
Proof.
  induction n as [|n IH]; intros a s H4 Ha Hn Hm Hi.
  - split; [change (Z.of_nat 0) with 0; zify_div|]. split; [exact Hi|]. split; [exact Hm|].
    split; [intros; lia | reflexivity].
  - cbn [otc_loop]. rewrite otc_next by assumption.
    destruct (store_word a ((a - 4) mod 0x200000) s H4 Ha Hi) as [Hw Hi'].
    set (s1 := WriteWord _ _ s) in *. clearbody s1.
    assert (Hm1 : mem_ok (psx_ram (get_sys s1))) by (rewrite Hw; apply mem_ok_wr32, Hm).
    destruct n as [|n].
    + split; [reflexivity|]. split; [exact Hi'|]. split; [exact Hm1|]. cbn [otc_loop]. rewrite Hw.
      split.
      * intros k Hk. replace k with 0 by lia. rewrite Z.mul_0_r, Z.sub_0_r, rd32_wr32_same by exact Hm.
        unfold u32. zify_div.
      * intros b Hb. apply rd8_wr32_out. lia.
    + rewrite !Nat2Z.inj_succ in *. assert (E : (a - 4) mod 0x200000 = a - 4) by (apply Z.mod_small; lia).
      rewrite E in Hw |- *.
      specialize (IH (a - 4) s1). specialize (IH ltac:(zify_div) ltac:(lia) ltac:(lia) Hm1 Hi').
      destruct (otc_loop (Datatypes.S n) (a - 4) s1) as [e s']. destruct IH as (He & Hi2 & Hm2 & Hk2 & Hb2).
      split; [rewrite He; f_equal; lia|]. split; [exact Hi2|].
      split; [exact Hm2|]. split.
      * intros k Hk. destruct (Z.eq_dec k 0) as [->|Hk0].
        -- rewrite Z.mul_0_r, Z.sub_0_r. transitivity (rd32 (psx_ram (get_sys s1)) a).
           ++ unfold rd32. rewrite !Hb2 by lia. reflexivity.
           ++ rewrite Hw, rd32_wr32_same by exact Hm. rewrite <- E. unfold u32. zify_div.
        -- specialize (Hk2 (k - 1) ltac:(lia)). replace (a - 4 * k) with (a - 4 - 4 * (k - 1)) by lia.
           rewrite Hk2. f_equal. lia.
      * intros b Hb. rewrite Hb2, Hw by lia. apply rd8_wr32_out. lia.
Qed.

(** Channel 6 clears an ordering table: with a table of [n] words ending
    at word address [a], every word but the lowest then holds the address of the
    word below it, the lowest the end marker, and no other byte of RAM
    changes. *)
Theorem otc_table s madr n chcr a :
  mem_ok (psx_ram (get_sys s)) -> not_isolated s ->
  Z.land madr 0x1FFFFC = a -> 1 <= n -> 4 * (n - 1) <= a ->
  let m := psx_ram (get_sys s) in
  let m' := psx_ram (get_sys (GPU_DMA6 madr n chcr s)) in
  (forall k, 0 <= k < n - 1 -> rd32 m' (a - 4 * k) = a - 4 * (k + 1)) /\
  rd32 m' (a - 4 * (n - 1)) = 0xFFFFFF /\
  (forall b, b < a - 4 * (n - 1) \/ a + 4 <= b -> rd8 m' b = rd8 m b).
Proof.
  intros Hm Hi Ha Hn1 Hn m m'. subst m m'.
  assert (Hr : 0 <= a < 0x200000 /\ a mod 4 = 0).
  { subst a.
    pose proof (land_bound_r madr 0x1FFFFC ltac:(lia)). split; [lia|].
    change 4 with (2 ^ 2). rewrite <- Z.land_ones, <- Z.land_assoc by lia. apply Z.land_0_r. }
  destruct Hr as [Hr H4]. unfold GPU_DMA6. rewrite Ha, (proj2 (Z.eqb_neq n 0)) by lia.
  pose proof (otc_loop_links (Z.to_nat n) a s H4 Hr ltac:(lia) Hm Hi) as Hl.
  destruct (otc_loop (Z.to_nat n) a s) as [e s1]. destruct Hl as (He & Hi1 & Hm1 & Hk & Hb).
  rewrite Z2Nat.id in * by lia.
  assert (Hlast : Z.land (e + 4) 0x1FFFFC = a - 4 * (n - 1)).
  { rewrite mask_word_addr; subst e; zify_div. }
  rewrite Hlast. destruct (store_word (a - 4 * (n - 1)) 0xFFFFFF s1) as [Hw _];
    [zify_div | lia | exact Hi1 |]. rewrite Hw. split; [|split].
  - intros k Hk0. rewrite rd32_wr32_disjoint by lia. rewrite Hk by lia. apply Z.mod_small. lia.
  - rewrite rd32_wr32_same by exact Hm1. reflexivity.
  - intros b Hb0. rewrite rd8_wr32_out by lia. apply Hb. lia.
Qed.

(** ** The interrupt register *)

Lemma tst_existsb n x y : 0 <= y < 2 ^ Z.of_nat n ->
  tst x y = existsb (fun i => Z.testbit x i && Z.testbit y i) (zseq n).
Proof.
  intros Hy. apply eq_true_iff_eq. rewrite existsb_exists. split.
  - intros Ht. destruct (existsb (fun i => Z.testbit x i && Z.testbit y i) (zseq n)) eqn:E.
    + apply existsb_exists in E. exact E.
    + exfalso. unfold tst in Ht. apply negb_true_iff, Z.eqb_neq in Ht. apply Ht.
      apply Z.bits_inj'. intros i Hi. rewrite Z.land_spec, Z.bits_0.
      destruct (Z.lt_ge_cases i (Z.of_nat n)).
      * apply not_true_is_false. intros Hb. apply not_true_iff_false in E. apply E.
        apply existsb_exists. exists i. split; [apply in_zseq; lia | exact Hb].
      * rewrite (bits_above (Z.of_nat n) y i) by lia. apply andb_false_r.
  - intros (i & Hin & Hb). apply in_zseq in Hin. unfold tst. apply negb_true_iff, Z.eqb_neq.
    intros E. apply (f_equal (fun z => Z.testbit z i)) in E. rewrite Z.land_spec, Z.bits_0 in E. congruence.
Qed.

Lemma bit_field v k : 0 <= k -> negb (Z.land (Z.shiftr v k) 1 =? 0) = Z.testbit v k.
Proof.
  intros Hk. change (negb (Z.land (Z.shiftr v k) 1 =? 0)) with (tst (Z.shiftr v k) 1).
  rewrite tst_1, Z.shiftr_spec by lia. reflexivity.
Qed.

(** Bit 31 as the documentation of the controller words it. *)
Definition master_flag (v : Z) : bool :=
  Z.testbit v 15 || (Z.testbit v 23 &&
    existsb (fun c => Z.testbit v (16 + c) && Z.testbit v (24 + c)) (zseq 7)).

Lemma dicr_master_flag v : dicr_master v = master_flag v.
Proof.
  unfold dicr_master, master_flag. rewrite !bit_field by lia. f_equal. f_equal.
  rewrite (tst_existsb 7) by (change (2 ^ Z.of_nat 7) with 128;
    pose proof (land_bound_r (Z.shiftr v 24) 0x7F ltac:(lia)); lia).
  change (zseq 7) with [0; 1; 2; 3; 4; 5; 6]. cbn [existsb]. push_testbit. eval_testbits. rewrite ?andb_true_r. reflexivity.
Qed.

Lemma tst_bit31 v : tst v 0x80000000 = Z.testbit v 31.
Proof. change 0x80000000 with (2 ^ 31). apply tst_pow2. lia. Qed.

(** The register before bit 31 is recomputed. *)
Definition dicr_store (data dicr : Z) : Z :=
  Z.lor (Z.land data 0x00FF803F) (Z.land (Z.land dicr 0x7F000000) (not32 (Z.land data 0x7F000000))).

Lemma dicr_store_bits data dicr i : 0 <= i < 32 ->
  Z.testbit (dicr_store data dicr) i
  = if (24 <=? i) && (i <? 31) then Z.testbit dicr i && negb (Z.testbit data i)
    else if ((i <? 6) || (15 <=? i)) && (i <? 24) then Z.testbit data i else false.
Proof.
  intros Hi. unfold dicr_store. enum i Hi; eval_bits; cbn; rewrite ?andb_true_r, ?andb_false_r; reflexivity.
Qed.

Lemma master_flag_ext v w : (forall i, 0 <= i < 31 -> Z.testbit v i = Z.testbit w i) ->
  master_flag v = master_flag w.
Proof.
  intros Hb. unfold master_flag. change (zseq 7) with [0; 1; 2; 3; 4; 5; 6]. cbn [existsb].
  rewrite !Hb by lia. reflexivity.
Qed.

Definition with_master (v : Z) : Z := if master_flag v then Z.lor v 0x80000000 else v.

Lemma with_master_bits v i : 0 <= i < 32 -> Z.testbit v 31 = false ->
  Z.testbit (with_master v) i = if i =? 31 then master_flag v else Z.testbit v i.
Proof.
  intros Hi H31. unfold with_master. destruct (master_flag v).
  - rewrite Z.lor_spec. change 0x80000000 with (2 ^ 31). rewrite Z.pow2_bits_eqb, Z.eqb_sym by lia.
    destruct (Z.eqb_spec i 31); [apply orb_true_r | apply orb_false_r].
  - destruct (Z.eqb_spec i 31) as [->|]; [exact H31 | reflexivity].
Qed.

Lemma read_dicr_stored v : is_u32 v -> (forall i, 6 <= i < 15 -> Z.testbit v i = false) ->
  Z.testbit v 31 = master_flag v -> read_dicr v = v.
Proof.
  intros Hv H6 H31. unfold read_dicr. rewrite dicr_master_flag, <- H31.
  assert (Hu : is_u32 (if Z.testbit v 31 then Z.lor (Z.lor (Z.land v 0x7F000000) (Z.land v 0x00FF803F)) 0x80000000
                       else Z.lor (Z.land v 0x7F000000) (Z.land v 0x00FF803F)))
    by (destruct (Z.testbit v 31); auto 8 with word).
  apply u32_ext; [exact Hu | exact Hv |]. intros i Hi.
  destruct (Z.testbit v 31) eqn:E; push_testbit; enum i Hi; eval_testbits;
    rewrite ?andb_true_r, ?andb_false_r, ?orb_false_r, ?orb_true_r; cbn [orb]; try congruence;
    rewrite ?H6 by lia; reflexivity.
Qed.

(** A store to DICR: the flags acknowledge by writing one, the enables,
    the force bit and the low bits are written, the gap reads zero; bit 31 is
    exactly "forced, or the master enable with an enabled channel flag"; the
    register reads back as stored; and the interrupt line is raised exactly on
    a rising edge of bit 31. *)
Theorem write_dicr_spec s data : is_u32 data -> is_u32 (dma_dicr (get_dma s)) ->
  let v := dma_dicr (get_dma s) in
  let s' := DMA_Write 0x1F8010F4 data s in
  let v' := dma_dicr (get_dma s') in
  (forall i, 24 <= i < 31 -> Z.testbit v' i = Z.testbit v i && negb (Z.testbit data i)) /\
  (forall i, 0 <= i < 6 \/ 15 <= i < 24 -> Z.testbit v' i = Z.testbit data i) /\
  (forall i, 6 <= i < 15 -> Z.testbit v' i = false) /\
  Z.testbit v' 31 = master_flag v' /\
  fst (DMA_Read 0x1F8010F4 s') = v' /\
  get_sys s' = (if Z.testbit v' 31 && negb (Z.testbit v 31) then SignalInterrupt 3 (get_sys s) else get_sys s).
Proof.
  intros Hdata Hd v s' v'.
  assert (Es : s' = write_dicr data s) by reflexivity.
  unfold write_dicr in Es. fold v in Es. fold (dicr_store data v) in Es.
  rewrite dicr_master_flag, !tst_bit31 in Es. fold (with_master (dicr_store data v)) in Es.
  set (w := with_master (dicr_store data v)) in Es.
  assert (Ev : v' = w).
  { subst v'. rewrite Es. destruct (_ && _); rewrite ?get_dma_upd_sys, get_upd_dma; reflexivity. }
  assert (H31 : Z.testbit (dicr_store data v) 31 = false) by (rewrite dicr_store_bits by lia; reflexivity).
  assert (Hw : forall i, 0 <= i < 31 -> Z.testbit w i = Z.testbit (dicr_store data v) i).
  { intros i Hi. subst w. rewrite with_master_bits by (lia || exact H31).
    destruct (Z.eqb_spec i 31); [lia | reflexivity]. }
  assert (Hm : Z.testbit w 31 = master_flag w).
  { subst w. rewrite with_master_bits by (lia || exact H31). symmetry. apply master_flag_ext, Hw. }
  rewrite Ev. clear Ev v'. split; [|split; [|split; [|split; [|split] ] ] ].
  - intros i Hi. rewrite Hw, dicr_store_bits by lia.
    destruct (Z.leb_spec 24 i), (Z.ltb_spec i 31); try lia. reflexivity.
  - intros i Hi. rewrite Hw, dicr_store_bits by lia.
    destruct (Z.leb_spec 24 i), (Z.ltb_spec i 31), (Z.ltb_spec i 6), (Z.leb_spec 15 i), (Z.ltb_spec i 24);
      try lia; reflexivity.
  - intros i Hi. rewrite Hw, dicr_store_bits by lia.
    destruct (Z.leb_spec 24 i), (Z.ltb_spec i 31), (Z.ltb_spec i 6), (Z.leb_spec 15 i), (Z.ltb_spec i 24);
      try lia; reflexivity.
  - exact Hm.
  - assert (Ev : dma_dicr (get_dma s') = w)
      by (rewrite Es; destruct (_ && _); rewrite ?get_dma_upd_sys, get_upd_dma; reflexivity).
    change (fst (DMA_Read 0x1F8010F4 s')) with (read_dicr (dma_dicr (get_dma s'))). rewrite Ev.
    apply read_dicr_stored; [| |exact Hm].
    + assert (Hs : is_u32 (dicr_store data v)).
      { apply lor_u32; apply land_u32_r; [apply is_u32_lit; reflexivity | apply u32_range]. }
      subst w. unfold with_master.
      destruct (master_flag (dicr_store data v)); [apply lor_u32; [|apply is_u32_lit; reflexivity]|]; exact Hs.
    + intros i Hi. rewrite Hw, dicr_store_bits by lia.
      destruct (Z.leb_spec 24 i), (Z.ltb_spec i 31), (Z.ltb_spec i 6), (Z.leb_spec 15 i), (Z.ltb_spec i 24);
        try lia; reflexivity.
  - rewrite Es, (andb_comm (Z.testbit w 31)). destruct (negb (Z.testbit v 31) && Z.testbit w 31).
    + rewrite get_upd_sys, get_sys_upd_dma. reflexivity.
    + apply get_sys_upd_dma.
Qed.

(** ** The deferred completion of the SPU channel *)

Lemma sched_SignalInterrupt n y : sched (SignalInterrupt n y) = sched y.
Proof.
  unfold SignalInterrupt. destruct (_ <? _); [reflexivity|].
  unfold raise_if_pending, cap_cycles_for_irq, cap_cycles.
  repeat case_match; reflexivity.
Qed.

Lemma flag_irq_frame ch s :
  let s' := dma_flag_irq ch s in
  dma_channels (get_dma s') = dma_channels (get_dma s) /\
  dma_pending_channel (get_dma s') = dma_pending_channel (get_dma s) /\
  sched (get_sys s') = sched (get_sys s).
Proof.
  unfold dma_flag_irq. cbn zeta. destruct (tst _ (Z.shiftl 1 (16 + ch))); [|repeat split].
  destruct (tst _ 0x00800000); rewrite ?get_dma_upd_sys, ?get_upd_sys, ?get_upd_dma, ?get_sys_upd_dma.
  - rewrite sched_SignalInterrupt, ?get_sys_upd_dma. repeat split.
  - repeat split.
Qed.

Lemma get_set_channel ch f d : zlen (dma_channels d) = 7 -> 0 <= ch < 7 ->
  get_channel (set_channel ch f d) ch = f (get_channel d ch).
Proof. intros Hl Hc. apply anth_aset_eq. rewrite Hl. exact Hc. Qed.

Lemma bit24_cleared v m : Z.testbit m 24 = true -> Z.testbit (Z.land v (not32 m)) 24 = false.
Proof.
  intros Hm. rewrite Z.land_spec. unfold not32. rewrite u32_bits, Z.lnot_spec, Hm by lia. apply andb_false_r.
Qed.

(** The words of an SPU transfer; a zero count means one. *)
Definition count1 (n : Z) : Z := if n =? 0 then 1 else n.
Definition spu_words (bcr : Z) : Z := u32 (count1 (Z.land bcr 0xFFFF) * count1 (Z.land (Z.shiftr bcr 16) 0xFFFF)).

Lemma spu_delay_words v : spu_delay_cycles v = Z.max 32 (8 * spu_words v).
Proof.
  unfold spu_delay_cycles, SPU_DMA_CYCLES_PER_WORD. fold (count1 (Z.land v 0xFFFF)).
  fold (count1 (Z.land (Z.shiftr v 16) 0xFFFF)). fold (spu_words v).
  destruct (Z.ltb_spec (spu_words v * 8) 32); lia.
Qed.

(** The bus leaves the controller and the shared state alone during the
    transfer of an SPU block. *)
Definition spu_silent : Prop :=
  forall a b c s, get_dma (SPU_DMA4 a b c s) = get_dma s /\ get_sys (SPU_DMA4 a b c s) = get_sys s.

Lemma spu_start s data : spu_silent -> zlen (dma_channels (get_dma s)) = 7 ->
  Z.testbit data 24 = true -> Z.testbit (dma_dpcr (get_dma s)) 19 = true ->
  let s' := write_chcr 4 data s in
  dma_pending_channel (get_dma s') = 4 /\ chcr (get_channel (get_dma s') 4) = data /\
  dma_pending_deadline (get_dma s')
  = u64 (DMA_EFFECTIVE_CYCLES s + Z.max 32 (8 * spu_words (bcr (get_channel (get_dma s) 4)))).
Proof.
  intros Hsil Hlen Hd Hp. cbv zeta. unfold write_chcr. change (4 =? 6) with false. cbv iota.
  set (s1 := upd_dma (set_channel 4 (fun c => c <| chcr := data |>)) s).
  assert (E24 : tst data 0x01000000 = true) by (change 0x01000000 with (2 ^ 24); rewrite tst_pow2 by lia; exact Hd).
  rewrite E24. cbn [negb andb].
  assert (Ed : dma_dpcr (get_dma s1) = dma_dpcr (get_dma s)) by (subst s1; rewrite get_upd_dma; reflexivity).
  rewrite Ed. change (4 * 4 + 3) with 19.
  rewrite <- (negb_involutive (Z.land _ 1 =? 0)), bit_field, Hp by lia. cbn [negb].
  unfold dma_transfer. change (4 =? 4) with true. cbv iota beta zeta.
  set (s2 := SPU_DMA4 _ _ _ s1). destruct (Hsil (madr (get_channel (get_dma s1) 4))
    (bcr (get_channel (get_dma s1) 4)) (chcr (get_channel (get_dma s1) 4)) s1) as [E2 E3].
  fold s2 in E2, E3. clearbody s2. unfold s1 in E3. rewrite get_sys_upd_dma in E3.
  unfold dma_defer_spu. rewrite get_dma_upd_sys, get_upd_dma. cbn [dma_pending_channel dma_pending_deadline upd setter].
  unfold DMA_EFFECTIVE_CYCLES. rewrite spu_delay_words, E2, E3.
  assert (Ec : get_channel (get_dma s1) 4 = (get_channel (get_dma s) 4) <| chcr := data |>)
    by (subst s1; rewrite get_upd_dma; apply get_set_channel; [exact Hlen | lia]).
  rewrite Ec. split; [reflexivity|]. split; [|reflexivity].
  change (chcr (get_channel (get_dma s1) 4) = data). rewrite Ec. reflexivity.
Qed.

Lemma complete_channel_frame ch s : zlen (dma_channels (get_dma s)) = 7 -> 0 <= ch < 7 ->
  let s' := dma_complete_channel ch s in
  Z.testbit (chcr (get_channel (get_dma s') ch)) 24 = false /\
  dma_pending_channel (get_dma s') = dma_pending_channel (get_dma s) /\
  sched (get_sys s') = sched (get_sys s).
Proof.
  intros Hlen Hc. unfold dma_complete_channel. cbv zeta.
  destruct (flag_irq_frame ch (upd_dma (set_channel ch (fun c => c <| chcr ::= fun v => Z.land v (not32 0x01000000) |>)) s))
    as (E1 & E2 & E3). unfold get_channel. rewrite E1, E2, E3, get_upd_dma, get_sys_upd_dma.
  split; [|split; reflexivity]. fold (get_channel (set_channel ch (fun c => c <| chcr ::= fun v => Z.land v (not32 0x01000000) |>) (get_dma s)) ch).
  rewrite get_set_channel by assumption. apply bit24_cleared. reflexivity.
Qed.

Lemma check_pending_due s ch : zlen (dma_channels (get_dma s)) = 7 -> wf_sched (sched (get_sys s)) ->
  dma_pending_channel (get_dma s) = ch -> 0 <= ch < 7 ->
  dma_pending_deadline (get_dma s) <= DMA_EFFECTIVE_CYCLES s ->
  let s' := dma_check_pending s in
  Z.testbit (chcr (get_channel (get_dma s') ch)) 24 = false /\
  dma_pending_channel (get_dma s') = -1 /\ active_at (sched (get_sys s')) SCHED_EVENT_DMA = false.
Proof.
  intros Hlen Hwf Hp Hc Hdue. cbv zeta. unfold dma_check_pending. rewrite Hp.
  rewrite (proj2 (Z.leb_le _ _) Hdue), (proj2 (Z.leb_le 0 ch)) by lia. cbn [andb].
  set (s1 := upd_sys _ (upd_dma _ s)).
  assert (E1 : get_dma s1 = (get_dma s) <| dma_pending_channel := -1 |>)
    by (subst s1; rewrite get_dma_upd_sys, get_upd_dma; reflexivity).
  destruct (complete_channel_frame ch s1) as (H1 & H2 & H3); [rewrite E1; exact Hlen | exact Hc |].
  split; [exact H1|]. rewrite H2, H3, E1. split; [reflexivity|].
  subst s1. rewrite get_upd_sys, get_sys_upd_dma.
  apply (Sched_Remove_at (sched (get_sys s)) SCHED_EVENT_DMA SCHED_EVENT_DMA Hwf); unfold SCHED_EVENT_DMA; lia.
Qed.

(** An SPU transfer ends once, at its deadline: starting it (channel
    enabled in DPCR) leaves the channel busy with the deadline 8 cycles per
    word away, at least 32; until then a read of CHCR changes nothing and sees
    the start bit; from then on it sees the start bit clear, cancels the
    scheduler event, and the callback, should it still run, does nothing. *)
Theorem spu_dma_completion s data late :
  zlen (dma_channels (get_dma s)) = 7 -> wf_sched (sched (get_sys s)) -> spu_silent ->
  (Z.testbit data 24 = true -> Z.testbit (dma_dpcr (get_dma s)) 19 = true ->
   let s' := DMA_Write 0x1F8010C8 data s in
   DMA_IsPending s' = true /\ chcr (get_channel (get_dma s') 4) = data /\
   dma_pending_deadline (get_dma s')
   = u64 (DMA_EFFECTIVE_CYCLES s + Z.max 32 (8 * spu_words (bcr (get_channel (get_dma s) 4))))) /\
  (dma_pending_channel (get_dma s) = 4 ->
   let '(v, s') := DMA_Read 0x1F8010C8 s in
   if dma_pending_deadline (get_dma s) <=? DMA_EFFECTIVE_CYCLES s then
     Z.testbit v 24 = false /\ DMA_IsPending s' = false /\
     active_at (sched (get_sys s')) SCHED_EVENT_DMA = false /\
     get_dma (DMA_Fire late s') = get_dma s' /\ get_sys (DMA_Fire late s') = get_sys s'
   else v = chcr (get_channel (get_dma s) 4) /\ s' = s).
Proof.
  intros Hlen Hwf Hsil. split.
  - intros Hd Hp s'. change s' with (write_chcr 4 data s). unfold DMA_IsPending.
    destruct (spu_start s data Hsil Hlen Hd Hp) as (-> & H2 & H3). auto.
  - intros Hp. change (DMA_Read 0x1F8010C8 s) with
      (let s' := if 4 =? dma_pending_channel (get_dma s) then dma_check_pending s else s in
       (chcr (get_channel (get_dma s') 4), s')).
    rewrite Hp. change (4 =? 4) with true. cbv iota zeta.
    destruct (Z.leb_spec (dma_pending_deadline (get_dma s)) (DMA_EFFECTIVE_CYCLES s)) as [Hdue|Hnot].
    + destruct (check_pending_due s 4 Hlen Hwf Hp ltac:(lia) Hdue) as (H1 & H2 & H3).
      split; [exact H1|]. unfold DMA_IsPending, DMA_Fire. rewrite H2. split; [reflexivity|].
      split; [exact H3|]. change ((0 <=? -1) && (-1 <? 7)) with false. cbv iota.
      rewrite get_upd_dma, get_sys_upd_dma. split; [|reflexivity].
      destruct (get_dma (dma_check_pending s)); cbn in H2 |- *. rewrite H2. reflexivity.
    + unfold dma_check_pending. rewrite (proj2 (Z.leb_gt _ _) Hnot), andb_false_r. split; reflexivity.
Qed.

(** ** The CD-ROM channel *)

Lemma invalidate_hangs fuel : forall phys total off y,
  0xFFFFF000 < total -> off mod 4096 = 0 -> 0 <= off <= 0xFFFFF000 ->
  invalidate_pages fuel phys total off y = None.
Proof.
  induction fuel as [|fuel IH]; intros phys total off y Ht Hoff Hr; cbn [invalidate_pages];
    rewrite (proj2 (Z.ltb_lt off total)) by lia; [reflexivity|].
  apply IH; [exact Ht | |]; unfold u32; zify_div.
Qed.

Lemma invalidate_ends fuel : forall phys total off y,
  total <= 0xFFFFF000 -> off mod 4096 = 0 -> 0 <= off <= 0xFFFFF000 ->
  total <= off + 4096 * Z.of_nat fuel ->
  exists y', invalidate_pages fuel phys total off y = Some y' /\ psx_ram y' = psx_ram y.
Proof.
  induction fuel as [|fuel IH]; intros phys total off y Ht Hoff Hr Hf; cbn [invalidate_pages];
    destruct (Z.ltb_spec off total).
  - lia.
  - exists y. split; reflexivity.
  - rewrite Nat2Z.inj_succ in Hf. assert (Hn : off + 4096 <= 0xFFFFF000) by zify_div.
    destruct (IH phys total (u32 (off + 4096)) (jit_invalidate_page (u32 (phys + off)) y)) as (y' & Hy & Hm);
      [exact Ht | unfold u32; zify_div .. |].
    exists y'. split; [exact Hy|]. rewrite Hm.
    apply (jit_invalidate_frame (u32 (phys + off)) y).
  - exists y. split; reflexivity.
Qed.

(** The CD-ROM channel: the loop that invalidates translated pages ends
    for every length up to FFFFF000h bytes, with RAM changed by the sector data
    alone; for a longer one no number of iterations suffices, and the block
    register 7FFF8001h asks for such a length at every word address but
    zero, because the limit at the end of RAM is tested on a sum that wraps. *)
Theorem CDROM_DMA3_ends_or_hangs s madr bcr chcr :
  let phys := Z.land madr 0x1FFFFC in
  let total := clamp_to_ram phys (cdrom_dma_length bcr) in
  let '(bs, s1) := CDROM_ReadDataFIFO total s in
  let s' := CDROM_DMA3 madr bcr chcr s in
  (total <= 0xFFFFF000 ->
   dma_hung (get_dma s') = dma_hung (get_dma s1) /\
   psx_ram (get_sys s') = wr_bytes (psx_ram (get_sys s1)) phys bs) /\
  (0xFFFFF000 < total ->
   dma_hung (get_dma s') = true /\ forall fuel y, invalidate_pages fuel phys total 0 y = None) /\
  (bcr = 0x7FFF8001 -> 4 <= phys -> 0xFFFFF000 < total).
Proof.
  cbv zeta. set (phys := Z.land madr 0x1FFFFC). set (total := clamp_to_ram phys (cdrom_dma_length bcr)).
  unfold CDROM_DMA3. fold phys. fold total.
  destruct (CDROM_ReadDataFIFO total s) as [bs s1]. set (s2 := upd_sys _ s1).
  assert (Ed : get_dma s2 = get_dma s1) by apply get_dma_upd_sys.
  assert (Em : psx_ram (get_sys s2) = wr_bytes (psx_ram (get_sys s1)) phys bs)
    by (subst s2; rewrite get_upd_sys; reflexivity).
  split; [|split].
  - intros Ht. destruct (invalidate_ends (Z.to_nat (total / 4096 + 1)) phys total 0 (get_sys s2)) as (y & -> & Hy);
      [exact Ht | reflexivity | lia | |].
    + destruct (Z.lt_ge_cases total 0); [lia|]. rewrite Z2Nat.id by zify_div. zify_div.
    + rewrite get_dma_set_sys, get_set_sys, Ed, <- Em, <- Hy. split; [reflexivity|].
      destruct (0 <? total); [|reflexivity]. apply (jit_invalidate_frame (u32 (phys + total - 1)) y).
  - intros Ht. rewrite invalidate_hangs by (try exact Ht; try reflexivity; lia).
    rewrite get_upd_dma. split; [reflexivity|]. intros fuel y. apply invalidate_hangs; [exact Ht | reflexivity | lia].
  - intros -> Hp. subst total. change (cdrom_dma_length 0x7FFF8001) with 0xFFFFFFFC.
    assert (phys <= 0x1FFFFC) by (apply land_bound_r; lia).
    unfold clamp_to_ram, PSX_RAM_SIZE. destruct (Z.ltb_spec 0x200000 (u32 (phys + 0xFFFFFFFC))); [|lia].
    unfold u32 in *. zify_div.
Qed.

End Dma.

(** ** Witnesses: the controller on a bus whose devices are silent *)

Definition DmaBench : Type := Dma * Sys.

#[export] Instance bench_platform : Platform DmaBench := {
  get_sys := snd;
  set_sys := fun y s => (fst s, y);
  ReadHardware := fun _ s => (0, s);
  WriteHardware := fun _ _ _ s => s;
  SIO_Write := fun _ _ s => s;
  get_set_sys := fun x s => eq_refl;
  set_set_sys := fun x y s => eq_refl;
  set_get_sys := fun s => match s with (d, y) => eq_refl end
}.

#[export] Instance bench_bus : DmaBus DmaBench := {
  get_dma := fst;
  set_dma := fun d s => (d, snd s);
  MDEC_DMA0 := fun _ _ _ s => s;
  MDEC_DMA1 := fun _ _ _ s => s;
  GPU_DMA2 := fun _ _ _ s => (false, s);
  SPU_DMA4 := fun _ _ _ s => s;
  CDROM_ReadDataFIFO := fun n s => (take (Z.to_nat (Z.min n 4)) [1; 2; 3; 4], s);
  get_set_dma := fun d s => eq_refl;
  get_sys_set_dma := fun d s => eq_refl;
  get_dma_set_sys := fun y s => eq_refl
}.

(** Channel 4 enabled; the register holds 16 blocks of 32 words. *)
Definition bench : DmaBench :=
  (set_channel 4 (fun c => c <| bcr := 0x100020 |>) (dma_init <| dma_dpcr := 0x0FFFFFFF |>), sys0).

Lemma otc_table_witness :
  let m' := psx_ram (get_sys (GPU_DMA6 0x1000 4 0 bench)) in
  rd32 m' 0x1000 = 0xFFC /\ rd32 m' 0xFF4 = 0xFFFFFF.
Proof.
  destruct (otc_table bench 0x1000 4 0 0x1000) as (H1 & H2 & _);
    [apply map_Forall_empty | reflexivity | reflexivity | lia | lia |].
  split; [apply (H1 0); lia | exact H2].
Defined.

Lemma write_dicr_spec_witness :
  let s' := DMA_Write 0x1F8010F4 0x00FF8000 bench in
  Z.testbit (dma_dicr (get_dma s')) 31 = master_flag (dma_dicr (get_dma s')).
Proof.
  apply (write_dicr_spec bench 0x00FF8000); unfold is_u32; cbn; lia.
Defined.

Lemma spu_dma_completion_witness :
  DMA_IsPending (DMA_Write 0x1F8010C8 0x01000201 bench) = true.
Proof.
  apply (spu_dma_completion bench 0x01000201 0); try reflexivity.
  - apply Sched_Init_wf.
  - intros a b c s. split; reflexivity.
Defined.

Lemma CDROM_DMA3_ends_or_hangs_witness :
  dma_hung (get_dma (CDROM_DMA3 4 0x7FFF8001 0 bench)) = true.
Proof.
  pose proof (CDROM_DMA3_ends_or_hangs bench 4 0x7FFF8001 0) as H. cbv zeta in H.
  destruct (CDROM_ReadDataFIFO _ bench) as [bs s1]. destruct H as (_ & H2 & H3).
  apply H2, H3; [reflexivity | vm_compute; discriminate].
Defined.
