(* ===== verification/Timers.v ===== *)
(** * The root counters ([src/timers.c])

    Three counters whose value is not advanced cycle by cycle but computed
    on demand from the cycles since the last synchronisation, with the sync
    modes that follow the blanking periods, the fractional dot clock and the
    scheduled interrupts. *)

From S2P Require Import Prelude Scheduler System.

(** ** [psx_timing.h] *)

Definition CYCLES_PER_HBLANK_NTSC : Z := 2173.
Definition CYCLES_PER_HBLANK_PAL : Z := 2168.
Definition SCANLINES_PER_FRAME : Z := 263.
Definition SCANLINES_PER_FRAME_PAL : Z := 314.
Definition VBLANK_START_SCANLINE_NTSC : Z := 240.
Definition VBLANK_START_SCANLINE_PAL : Z := 288.
Definition hblank_visible_cycles : Z := 1630.

(** Integer divider and numerator of the dot clock: [DOTCLOCK_DIV_*] and
    [DOTCLOCK_NUM_*]. *)
Definition dotclock (hres : Z) (hres368 : bool) : Z * Z :=
  if hres368 then (4, 49)
  else match hres with
       | 0 => (7, 70) | 1 => (5, 56) | 2 => (3, 35) | 3 => (3, 28) | _ => (5, 56)
       end.

Record PsxTimer := mkTimer { value : Z; mode : Z; target : Z; last_sync_cycle : Z }.
#[export] Instance eta_PsxTimer : Eta PsxTimer := fun t =>
  mkTimer (value t) (mode t) (target t) (last_sync_cycle t).

Record Timers := mkTimers {
  timers : list PsxTimer;
  timer_stopped_cache : list bool; timer_divider_cache : list Z;
  timer_irq_fired : list bool; timer_mode_set_cycle : list Z;
  timer0_dotclock_num : Z; timer0_dotclock_residue : Z;
  timer_sync_mode3_freed : list bool
}.
#[export] Instance eta_Timers : Eta Timers := fun x =>
  mkTimers (timers x) (timer_stopped_cache x) (timer_divider_cache x)
    (timer_irq_fired x) (timer_mode_set_cycle x)
    (timer0_dotclock_num x) (timer0_dotclock_residue x) (timer_sync_mode3_freed x).

Definition timers_init : Timers :=
  mkTimers (repeat (mkTimer 0 0 0 0) 3) (repeat false 3) (repeat 1 3)
    (repeat false 3) (repeat 0 3) 0 0 (repeat false 3).

Definition get_timer (x : Timers) (t : Z) : PsxTimer := anth (mkTimer 0 0 0 0) (timers x) t.
Definition upd_timer (t : Z) (f : PsxTimer -> PsxTimer) (x : Timers) : Timers :=
  x <| timers ::= fun l => aset l t (f (get_timer x t)) |>.

(** ** Blanking geometry *)

Definition cycles_per_scanline (y : Sys) : Z :=
  if region_pal (psx_config y) then CYCLES_PER_HBLANK_PAL else CYCLES_PER_HBLANK_NTSC.

Definition count_active_cycles_hblank (from to : Z) (y : Sys) : Z :=
  let cps := cycles_per_scanline y in
  let vis := hblank_visible_cycles in
  let elapsed := u64 (to - from) in
  if (elapsed =? 0) || (cps =? 0) then 0
  else
    let phase := u32 (u64 (from - hblank_frame_start_cycle y) mod cps) in
    let remaining := u32 elapsed in
    let scanline_remaining := cps - phase in
    if remaining <=? scanline_remaining then
      if phase <? vis then
        let vis_remain := vis - phase in
        if remaining <? vis_remain then remaining else vis_remain
      else 0
    else
      let active := if phase <? vis then vis - phase else 0 in
      let remaining := remaining - scanline_remaining in
      let full_scanlines := remaining / cps in
      let active := u32 (active + full_scanlines * vis) in
      let remaining := remaining - full_scanlines * cps in
      u32 (active + (if remaining <? vis then remaining else vis)).

(** ** Cached divider and stop flag *)

Definition timer_update_divider_cache (gpu_stat t : Z) (y : Sys) (x : Timers) : Timers :=
  if (t <? 0) || (2 <? t) then x
  else
    let src := Z.land (Z.shiftr (mode (get_timer x t)) 8) 3 in
    if (t =? 0) && ((src =? 1) || (src =? 3)) then
      let hres368 := negb (Z.land (Z.shiftr gpu_stat 16) 1 =? 0) in
      let '(div, num) := dotclock (Z.land (Z.shiftr gpu_stat 17) 3) hres368 in
      x <| timer_divider_cache ::= fun l => aset l 0 div |>
        <| timer0_dotclock_num := num |> <| timer0_dotclock_residue := 0 |>
    else
      let x := if t =? 0 then x <| timer0_dotclock_num := 0 |> else x in
      if (t =? 1) && ((src =? 1) || (src =? 3)) then
        x <| timer_divider_cache ::= fun l => aset l 1 (cycles_per_scanline y - 1) |>
      else if (t =? 2) && ((src =? 2) || (src =? 3)) then
        x <| timer_divider_cache ::= fun l => aset l 2 8 |>
      else x <| timer_divider_cache ::= fun l => aset l t 1 |>.

Definition timer_update_stopped_cache (t : Z) (x : Timers) : Timers :=
  if (t <? 0) || (2 <? t) then x
  else
    let m := mode (get_timer x t) in
    let sync_mode := Z.land (Z.shiftr m 1) 3 in
    let stopped := tst m 1 && ((t =? 2) && ((sync_mode =? 0) || (sync_mode =? 3))) in
    x <| timer_stopped_cache ::= fun l => aset l t stopped |>.

(** ** Sync modes

    Each returns the counter and the cycles to count, or [None] when the
    synchronisation ends there. *)

Definition reset_value (t : Z) (x : Timers) : Timers := upd_timer t (fun c => c <| value := 0 |>) x.
Definition clear_residue (x : Timers) : Timers :=
  if 0 <? timer0_dotclock_num x then x <| timer0_dotclock_residue := 0 |> else x.
Definition set_last_sync (t now : Z) (x : Timers) : Timers :=
  upd_timer t (fun c => c <| last_sync_cycle := now |>) x.

Definition timer0_sync_mode (now elapsed : Z) (y : Sys) (x : Timers) : Timers * option Z :=
  let sync_mode := Z.land (Z.shiftr (mode (get_timer x 0)) 1) 3 in
  let cps := cycles_per_scanline y in
  let vis := hblank_visible_cycles in
  let start := hblank_frame_start_cycle y in
  let last := last_sync_cycle (get_timer x 0) in
  let frame_offs_from := u64 (last - start) in
  let frame_offs_to := u64 (now - start) in
  let phase_from := u32 (frame_offs_from mod cps) in
  let phase_to := u32 (frame_offs_to mod cps) in
  let scan_from := u32 (frame_offs_from / cps) in
  let scan_to := u32 (frame_offs_to / cps) in
  let hblank_crossed := (scan_from <? scan_to) ||
    ((scan_to =? scan_from) && (phase_from <? vis) && (vis <=? phase_to)) in
  match sync_mode with
  | 0 => (x, Some (count_active_cycles_hblank last now y))
  | 1 =>
    if hblank_crossed then
      let x := clear_residue (reset_value 0 x) in
      let last_hblank :=
        if vis <=? phase_to then u64 (start + scan_to * cps + vis)
        else if 0 <? scan_to then u64 (start + u32 (scan_to - 1) * cps + vis)
        else last in
      (x, Some (u64 (now - last_hblank)))
    else (x, Some elapsed)
  | 2 =>
    if vis <=? phase_to then
      let x := clear_residue (reset_value 0 x) in
      (x, Some (u64 (now - u64 (start + scan_to * cps + vis))))
    else (clear_residue (set_last_sync 0 now (reset_value 0 x)), None)
  | _ =>
    if negb (anth false (timer_sync_mode3_freed x) 0) then
      if hblank_crossed then
        let x := x <| timer_sync_mode3_freed ::= fun l => aset l 0 true |> in
        let x := clear_residue (reset_value 0 x) in
        let first_hblank :=
          if phase_from <? vis then u64 (start + scan_from * cps + vis)
          else u64 (start + u32 (scan_from + 1) * cps + vis) in
        (x, Some (u64 (now - first_hblank)))
      else (set_last_sync 0 now x, None)
    else (x, Some elapsed)
  end.

Definition timer1_sync_mode (now elapsed : Z) (y : Sys) (x : Timers) : Timers * option Z :=
  let sync_mode := Z.land (Z.shiftr (mode (get_timer x 1)) 1) 3 in
  let cps := cycles_per_scanline y in
  let pal := region_pal (psx_config y) in
  let vblank_sl := if pal then VBLANK_START_SCANLINE_PAL else VBLANK_START_SCANLINE_NTSC in
  let scanlines := if pal then SCANLINES_PER_FRAME_PAL else SCANLINES_PER_FRAME in
  let cpf := scanlines * cps in
  let start := hblank_frame_start_cycle y in
  let frame_offset := u64 (now - start) in
  let frame_phase := u32 (frame_offset mod cpf) in
  let vblank_start_cycle := vblank_sl * cps in
  let in_vblank := vblank_start_cycle <=? frame_phase in
  match sync_mode with
  | 0 => if in_vblank then (set_last_sync 1 now x, None) else (x, Some elapsed)
  | 1 =>
    let from_phase := u32 (u64 (last_sync_cycle (get_timer x 1) - start) mod cpf) in
    let vblank_crossed := (cpf <=? elapsed) ||
      ((from_phase <? vblank_start_cycle) && (vblank_start_cycle <=? frame_phase)) ||
      (frame_phase <? from_phase) in
    if vblank_crossed then
      let x := reset_value 1 x in
      let frames_elapsed := frame_offset / cpf in
      let vb_start := u64 (start + frames_elapsed * cpf + vblank_start_cycle) in
      let vb_start := if now <? vb_start then u64 (vb_start - cpf) else vb_start in
      (x, Some (u64 (now - vb_start)))
    else (x, Some elapsed)
  | 2 =>
    if negb in_vblank then (set_last_sync 1 now (reset_value 1 x), None) else (x, Some elapsed)
  | _ =>
    if negb (anth false (timer_sync_mode3_freed x) 1) then
      if in_vblank || (cpf <=? u64 (now - aget (timer_mode_set_cycle x) 1)) then
        let x := x <| timer_sync_mode3_freed ::= fun l => aset l 1 true |> in
        (set_last_sync 1 now (reset_value 1 x), Some elapsed)
      else (set_last_sync 1 now x, None)
    else (x, Some elapsed)
  end.

(** ** Ticks *)

(** Ticks in [elapsed] cycles, and the synchronisation point moved by them. *)
Definition timer_ticks (t now elapsed : Z) (x : Timers) : Z * Timers :=
  if (t =? 0) && (0 <? timer0_dotclock_num x) then
    let num := timer0_dotclock_num x in
    let sub11 := u64 (elapsed * 11 + timer0_dotclock_residue x) in
    let ticks := u32 (sub11 / num) in
    let consumed_sub11 := u64 (ticks * num) in
    let remaining_sub11 := u32 (sub11 - consumed_sub11) in
    (ticks, (set_last_sync 0 (u64 (now - remaining_sub11 / 11)) x)
              <| timer0_dotclock_residue := remaining_sub11 mod 11 |>)
  else
    let divider := aget (timer_divider_cache x) t in
    let ticks := u32 (elapsed / divider) in
    (ticks, upd_timer t (fun c => c <| last_sync_cycle ::= fun l => u64 (l + ticks * divider) |>) x).

(** The value after [ticks] ticks, and whether it passed the target and
    overflowed. *)
Definition count_ticks (m val tgt ticks : Z) : Z * bool * bool :=
  let new_val := u32 (val + ticks) in
  if tst m 0x8 && (0 <? tgt) then
    let wrapped_target :=
      ((val <? tgt) && (tgt <=? new_val)) || ((val =? tgt + 1) && (tgt <? ticks)) in
    if tgt <? new_val then
      (new_val mod (tgt + 2), wrapped_target, (0xFFFF <=? tgt) && (0xFFFF <? new_val))
    else (new_val, wrapped_target, false)
  else
    let wrapped_target := (0 <? tgt) && (val <? tgt) && (tgt <=? new_val) in
    let wrapped_overflow := 0xFFFF <? new_val in
    let new_val := if wrapped_overflow then new_val - 0x10000 else new_val in
    (Z.land new_val 0xFFFF, wrapped_target, wrapped_overflow).

Definition timer_count (t ticks : Z) (x : Timers) (y : Sys) : Timers * Sys :=
  let c := get_timer x t in
  let m := mode c in
  let '(new_val, wrapped_target, wrapped_overflow) :=
    count_ticks m (Z.land (value c) 0xFFFF) (Z.land (target c) 0xFFFF) ticks in
  let m' := if wrapped_target then Z.lor m 0x800 else m in
  let m' := if wrapped_overflow then Z.lor m' 0x1000 else m' in
  let x := upd_timer t (fun c => c <| mode := m' |> <| value := new_val |>) x in
  let can_fire := tst m 0x40 || negb (anth false (timer_irq_fired x) t) in
  let fire '(x, y) := (x <| timer_irq_fired ::= fun l => aset l t true |>, SignalInterrupt (4 + t) y) in
  let '(x, y) := if wrapped_target && tst m 0x10 && can_fire then fire (x, y) else (x, y) in
  if wrapped_overflow && tst m 0x20 && can_fire then fire (x, y) else (x, y).

Definition Timer_SyncValue (t : Z) (x : Timers) (y : Sys) : Timers * Sys :=
  if (t <? 0) || (2 <? t) then (x, y)
  else
    let now := EFFECTIVE_CYCLES y in
    if anth false (timer_stopped_cache x) t then (set_last_sync t now x, y)
    else
      let elapsed := u64 (now - last_sync_cycle (get_timer x t)) in
      let m := mode (get_timer x t) in
      let '(x, elapsed) :=
        if tst m 1 && (t =? 0) then timer0_sync_mode now elapsed y x
        else if tst m 1 && (t =? 1) then timer1_sync_mode now elapsed y x
        else (x, Some elapsed) in
      match elapsed with
      | None => (x, y)
      | Some elapsed =>
        let '(ticks, x) := timer_ticks t now elapsed x in
        if ticks =? 0 then (x, y) else timer_count t ticks x y
      end.

(** ** Scheduling *)

(** Ticks until the next event an interrupt may need. *)
Definition ticks_to_event (m val tgt : Z) : Z :=
  let n :=
    if tst m 0x8 && (0 <? tgt) then
      if val <=? tgt then (tgt + 1) - val else tgt + 2
    else
      let ticks_to_overflow := 0x10000 - val in
      if tst m 0x10 && (0 <? tgt) && (val <=? tgt) then
        let ticks_to_target := (tgt + 1) - val in
        if ticks_to_target <? ticks_to_overflow then ticks_to_target else ticks_to_overflow
      else ticks_to_overflow in
  if n =? 0 then 1 else n.

Definition Timer_ScheduleOne (t : Z) (x : Timers) (y : Sys) : Timers * Sys :=
  if (t <? 0) || (2 <? t) then (x, y)
  else
    let '(x, y) := Timer_SyncValue t x y in
    let c := get_timer x t in
    let m := mode c in
    let val := Z.land (value c) 0xFFFF in
    let tgt := Z.land (target c) 0xFFFF in
    let divider := aget (timer_divider_cache x) t in
    if anth false (timer_stopped_cache x) t then (x, y)
    else
      let irq_can_fire := tst m 0x30 && (tst m 0x40 || negb (anth false (timer_irq_fired x) t)) in
      if negb irq_can_fire then (x, upd_sched (Sched_Remove (SCHED_EVENT_TIMER0 + t)) y)
      else
        let divider := if divider =? 0 then 1 else divider in
        let n := ticks_to_event m val tgt in
        let deadline :=
          if (t =? 0) && (0 <? timer0_dotclock_num x)
          then u64 (EFFECTIVE_CYCLES y + u64 (n * timer0_dotclock_num x + 10) / 11)
          else u64 (EFFECTIVE_CYCLES y + n * divider) in
        (x, upd_sched (Sched_Add (SCHED_EVENT_TIMER0 + t) deadline (Timer_Callback t)) y).

(** [Timer_Callback0], [Timer_Callback1], [Timer_Callback2]. *)
Definition Timer_Fire (t ticks_late : Z) (x : Timers) (y : Sys) : Timers * Sys :=
  Timer_ScheduleOne t x y.

(** ** Registers *)

Definition Timers_Read (addr : Z) (x : Timers) (y : Sys) : Z * (Timers * Sys) :=
  let phys := Z.land addr 0x1FFFFFFF in
  let t := (phys - 0x1F801100) / 0x10 in
  let reg := ((phys - 0x1F801100) mod 0x10) / 4 in
  if (t <? 0) || (2 <? t) then (0, (x, y))
  else
    match reg with
    | 0 =>
      let '(x, y) := Timer_SyncValue t x y in
      let v := value (get_timer x t) in
      let tgt := Z.land (target (get_timer x t)) 0xFFFF in
      let v := if tst (mode (get_timer x t)) 0x8 && (0 <? tgt) && (tgt <? v) then 0 else v in
      (Z.land v 0xFFFF, (x, y))
    | 1 =>
      let '(x, y) := Timer_SyncValue t x y in
      let m := mode (get_timer x t) in
      (m, (upd_timer t (fun c => c <| mode ::= fun m => Z.land m (not32 0x1800) |>) x, y))
    | 2 => (target (get_timer x t), (x, y))
    | _ => (0, (x, y))
    end.

Definition write_mode (gpu_stat t data now : Z) (y : Sys) (x : Timers) : Timers :=
  let x := upd_timer t (fun c => c <| value := 0 |> <| mode := Z.land data (not32 0x1800) |>
                                  <| last_sync_cycle := now |>) x in
  let x := x <| timer_mode_set_cycle ::= fun l => aset l t now |>
             <| timer_irq_fired ::= fun l => aset l t false |>
             <| timer_sync_mode3_freed ::= fun l => aset l t false |> in
  timer_update_divider_cache gpu_stat t y (timer_update_stopped_cache t x).

Definition Timers_Write (gpu_stat addr data : Z) (x : Timers) (y : Sys) : Timers * Sys :=
  let phys := Z.land addr 0x1FFFFFFF in
  let t := (phys - 0x1F801100) / 0x10 in
  let reg := ((phys - 0x1F801100) mod 0x10) / 4 in
  if (t <? 0) || (2 <? t) then (x, y)
  else
    let now := EFFECTIVE_CYCLES y in
    let x :=
      match reg with
      | 0 => upd_timer t (fun c => c <| value := data |> <| last_sync_cycle := now |>) x
      | 1 => write_mode gpu_stat t data now y x
      | 2 => upd_timer t (fun c => c <| target := data |>) x
      | _ => x
      end in
    Timer_ScheduleOne t x y.

Definition Timer_RefreshDividerCache (gpu_stat : Z) (y : Sys) (x : Timers) : Timers :=
  timer_update_divider_cache gpu_stat 0 y x.

Definition Timer_ScheduleAll (x : Timers) (y : Sys) : Timers * Sys :=
  fold_left (fun '(x, y) t => Timer_ScheduleOne t x y) (zseq 3) (x, y).

(** ** Counting against one tick at a time *)

Definition resets_at_target (m tgt : Z) : bool := tst m 0x8 && (0 <? tgt).

(** One tick of the counter.  With reset at target the value [tgt + 1] is
    the dead phase that reads as zero. *)
Definition tick_once (m tgt v : Z) : Z :=
  if resets_at_target m tgt then if v =? tgt + 1 then 0 else v + 1
  else if v =? 0xFFFF then 0 else v + 1.

Definition period (m tgt : Z) : Z := if resets_at_target m tgt then tgt + 2 else 65536.

(** [n] ticks. *)
Definition tick_n (m tgt : Z) (n : nat) (v : Z) : Z := Nat.iter n (tick_once m tgt) v.

Lemma tick_once_mod m tgt v : 0 <= v < period m tgt ->
  tick_once m tgt v = (v + 1) mod period m tgt.
Proof.
  unfold tick_once, period. intros Hv. destruct (resets_at_target m tgt).
  - destruct (Z.eqb_spec v (tgt + 1)) as [->|].
    + replace (tgt + 1 + 1) with (tgt + 2) by lia. symmetry. apply Z.mod_same. lia.
    + symmetry. apply Z.mod_small. lia.
  - destruct (Z.eqb_spec v 0xFFFF) as [->|]; [reflexivity|]. symmetry. apply Z.mod_small. lia.
Qed.

Lemma period_pos m tgt v : 0 <= v < period m tgt -> 0 < period m tgt.
Proof. lia. Qed.

Lemma tick_n_mod m tgt n v : 0 <= v < period m tgt ->
  tick_n m tgt n v = (v + Z.of_nat n) mod period m tgt.
Proof.
  intros Hv. pose proof (period_pos _ _ _ Hv) as Hp. induction n as [|n IH].
  - rewrite Z.add_0_r. symmetry. apply Z.mod_small, Hv.
  - change (tick_n m tgt (S n) v) with (tick_once m tgt (tick_n m tgt n v)).
    rewrite IH, tick_once_mod by (apply Z.mod_pos_bound, Hp).
    rewrite Zplus_mod_idemp_l. f_equal. lia.
Qed.

Lemma land_ffff x : Z.land x 0xFFFF = x mod 65536.
Proof. change 0xFFFF with (Z.ones 16). rewrite Z.land_ones by lia. reflexivity. Qed.

(** The counter's arithmetic, in closed form. *)
Lemma count_ticks_value m v tgt n : 0 <= v < period m tgt -> 0 <= tgt -> 0 <= n -> v + n < 4294967296 ->
  fst (fst (count_ticks m v tgt n)) = (v + n) mod period m tgt.
Proof.
  unfold period, resets_at_target, count_ticks. intros Hv Ht Hn Hb.
  assert (Eu : u32 (v + n) = v + n) by (apply u32_small; unfold is_u32; destruct (tst m 8 && (0 <? tgt)); lia).
  destruct (tst m 8 && (0 <? tgt)); cbv zeta; rewrite Eu.
  - destruct (Z.ltb_spec tgt (v + n)); cbn [fst]; [reflexivity|]. symmetry. apply Z.mod_small. lia.
  - cbn [fst]. rewrite land_ffff. destruct (Z.ltb_spec 0xFFFF (v + n)); [|reflexivity].
    replace (v + n - 0x10000) with (v + n + (-1) * 65536) by lia. apply Z.mod_add. lia.
Qed.

Lemma passes_iff m tgt v n p : 0 <= v < period m tgt -> 0 <= p < period m tgt -> 0 <= n ->
  (exists k, (1 <= k <= Z.to_nat n)%nat /\ tick_n m tgt k v = p) <->
  (if v <? p then p <= v + n else p + period m tgt <= v + n).
Proof.
  intros Hv Hp Hn. set (q := period m tgt) in *. split.
  - intros (k & Hk & E). rewrite tick_n_mod in E by exact Hv. fold q in E.
    destruct (Z.ltb_spec v p).
    + destruct (Z.lt_ge_cases (v + Z.of_nat k) q); [rewrite Z.mod_small in E by lia; lia | lia].
    + destruct (Z.lt_ge_cases (v + Z.of_nat k) q); [rewrite Z.mod_small in E by lia; lia|].
      assert (E2 : v + Z.of_nat k = q * ((v + Z.of_nat k) / q) + p) by (rewrite <- E; apply Z.div_mod; lia).
      assert (1 <= (v + Z.of_nat k) / q) by (apply Z.div_le_lower_bound; lia). nia.
  - intros H. exists (Z.to_nat (if v <? p then p - v else p + q - v)).
    rewrite tick_n_mod by exact Hv. fold q. destruct (Z.ltb_spec v p).
    + split; [lia|]. rewrite Z2Nat.id by lia. rewrite Z.mod_small; lia.
    + split; [lia|]. rewrite Z2Nat.id by lia. replace (v + (p + q - v)) with (p + 1 * q) by lia.
      rewrite Z.mod_add, Z.mod_small; lia.
Qed.

(** The counter computed in one step agrees with counting tick by tick:
    the value after any number of ticks is that of the one-tick counter (with
    its dead phase at [target + 1], or wrapping at 10000h), the overflow flag
    of a free-running counter is raised exactly when it passes through zero,
    and the target flag exactly when it passes the target, for a start other
    than the target itself and, free running, up to the first wrap. *)
Theorem count_ticks_exact m v tgt n :
  0 <= v < period m tgt -> 0 <= tgt < 0xFFFF -> 0 <= n -> v + n < 4294967296 ->
  let '(v', wrapped_target, wrapped_overflow) := count_ticks m v tgt n in
  v' = tick_n m tgt (Z.to_nat n) v /\
  (resets_at_target m tgt = false ->
     (wrapped_overflow = true <-> exists k, (1 <= k <= Z.to_nat n)%nat /\ tick_n m tgt k v = 0)) /\
  (0 < tgt -> v <> tgt -> (resets_at_target m tgt = false -> v < tgt \/ v + n < 65536) ->
     (wrapped_target = true <-> exists k, (1 <= k <= Z.to_nat n)%nat /\ tick_n m tgt k v = tgt)).
Proof.
  intros Hv Ht Hn Hb. pose proof (count_ticks_value m v tgt n Hv ltac:(lia) Hn Hb) as Hval.
  destruct (count_ticks m v tgt n) as [ [v' wt] wo] eqn:E. cbn [fst] in Hval.
  split; [rewrite tick_n_mod, Z2Nat.id by assumption; exact Hval|].
  unfold count_ticks in E. fold (resets_at_target m tgt) in E.
  assert (Eu : u32 (v + n) = v + n) by (apply u32_small; unfold is_u32; lia).
  assert (Hp : period m tgt = if resets_at_target m tgt then tgt + 2 else 65536) by reflexivity.
  split.
  - intros Hr. rewrite passes_iff by lia. rewrite Hr in *. cbv zeta in E. rewrite Eu in E.
    injection E as _ _ <-. rewrite Z.ltb_lt, (proj2 (Z.ltb_ge v 0)), Hp by lia. lia.
  - intros Ht0 Hne Hfree. rewrite passes_iff by (destruct (resets_at_target m tgt); lia).
    destruct (resets_at_target m tgt); cbv zeta in E; rewrite Eu in E.
    + assert (Ewt : wt = ((v <? tgt) && (tgt <=? v + n) || (v =? tgt + 1) && (tgt <? n)))
        by (destruct (tgt <? v + n); injection E as _ <- _; reflexivity).
      rewrite Ewt, Hp. destruct (Z.ltb_spec v tgt), (Z.leb_spec tgt (v + n)), (Z.eqb_spec v (tgt + 1)),
        (Z.ltb_spec tgt n); cbn; split; intros; try lia; try discriminate; reflexivity.
    + injection E as _ <- _. rewrite (proj2 (Z.ltb_lt 0 tgt) Ht0), Hp. cbn [andb].
      destruct (Z.ltb_spec v tgt), (Z.leb_spec tgt (v + n)); cbn; split; intros; try lia; try discriminate; reflexivity.
Qed.

(** A counter that stands at its target misses its next passes: with
    reset at target, any whole number of further periods up to the wrap of the
    32-bit sum brings it back to the target without the target flag, hence
    without its interrupt, although it passed the target again. *)
Theorem target_pass_missed m tgt n :
  resets_at_target m tgt = true -> 0 < tgt < 0xFFFF -> tgt + 2 <= n -> tgt + n < 4294967296 ->
  snd (fst (count_ticks m tgt tgt n)) = false /\
  exists k, (1 <= k <= Z.to_nat n)%nat /\ tick_n m tgt k tgt = tgt.
Proof.
  intros Hr Ht Hn Hb. split.
  - unfold count_ticks. fold (resets_at_target m tgt). rewrite Hr. cbv zeta.
    rewrite Z.ltb_irrefl, (proj2 (Z.eqb_neq tgt (tgt + 1))) by lia. destruct (tgt <? u32 (tgt + n)); reflexivity.
  - apply passes_iff; unfold period; rewrite ?Hr, ?Z.ltb_irrefl; lia.
Qed.

Lemma target_pass_missed_witness : snd (fst (count_ticks 0x8 5 5 7)) = false.
Proof. apply (target_pass_missed 0x8 5 7); [reflexivity | lia ..]. Defined.

Lemma count_ticks_exact_witness : fst (fst (count_ticks 0x8 3 10 25)) = tick_n 0x8 10 25 3.
Proof.
  assert (H := count_ticks_exact 0x8 3 10 25 ltac:(change (period 0x8 10) with 12; lia) ltac:(lia) ltac:(lia) ltac:(lia)).
  destruct (count_ticks 0x8 3 10 25) as [ [v' wt] wo]. exact (proj1 H).
Defined.

(** ** Free-running synchronisation *)

(** A counter that counts every [d] cycles, without sync mode or dot clock. *)
Record free_running (t d : Z) (x : Timers) : Prop := {
  fr_slot : 0 <= t <= 2;
  fr_timers : zlen (timers x) = 3;
  fr_stopped : anth false (timer_stopped_cache x) t = false;
  fr_sync : t = 2 \/ tst (mode (get_timer x t)) 1 = false;
  fr_dotclock : t <> 0 \/ timer0_dotclock_num x <= 0;
  fr_divider : aget (timer_divider_cache x) t = d;
  fr_divider_pos : 0 < d
}.

(** Value and target in the range the counter keeps itself in. *)
Definition counter_ok (c : PsxTimer) : Prop :=
  0 <= target c < 0xFFFF /\ 0 <= value c < period (mode c) (target c).

Lemma get_upd_timer t f x : zlen (timers x) = 3 -> 0 <= t <= 2 ->
  get_timer (upd_timer t f x) t = f (get_timer x t).
Proof. intros Hl Ht. apply anth_aset_eq. lia. Qed.

Lemma period_mode m m' tgt : tst m' 0x8 = tst m 0x8 -> period m' tgt = period m tgt.
Proof. unfold period, resets_at_target. intros ->. reflexivity. Qed.

Lemma tst_lor_other m f b : Z.land f b = 0 -> tst (Z.lor m f) b = tst m b.
Proof.
  intros Hf. unfold tst. rewrite Z.land_lor_distr_l, Hf, Z.lor_0_r. reflexivity.
Qed.

(** The flags that synchronisation may add. *)
Definition same_settings (m m' : Z) : Prop := tst m' 0x8 = tst m 0x8 /\ tst m' 1 = tst m 1.

Lemma timer_count_at t ticks x y : zlen (timers x) = 3 -> 0 <= t <= 2 ->
  counter_ok (get_timer x t) -> 0 <= ticks -> value (get_timer x t) + ticks < 4294967296 ->
  let c := get_timer x t in
  let x' := fst (timer_count t ticks x y) in
  exists m', same_settings (mode c) m' /\
    timers x' = timers (upd_timer t (fun c => c <| mode := m' |>
                  <| value := (value c + ticks) mod period (mode c) (target c) |>) x) /\
    timer_stopped_cache x' = timer_stopped_cache x /\ timer_divider_cache x' = timer_divider_cache x /\
    timer0_dotclock_num x' = timer0_dotclock_num x.
Proof.
  intros Hl Ht [Htgt Hv] Hn Hb c x'. subst x'. unfold timer_count. fold c in Htgt, Hv, Hb |- *.
  assert (Hv16 : value c < 65536 /\ Z.land (value c) 0xFFFF = value c /\ Z.land (target c) 0xFFFF = target c).
  { assert (value c < 65536) by (unfold period in Hv; destruct (resets_at_target _ _); lia).
    rewrite !land_ffff, !Z.mod_small by lia. tauto. }
  destruct Hv16 as (_ & -> & ->).
  pose proof (count_ticks_value (mode c) (value c) (target c) ticks Hv ltac:(lia) Hn Hb) as E.
  destruct (count_ticks (mode c) (value c) (target c) ticks) as [ [nv wt] wo]. cbn [fst] in E. subst nv.
  set (m1 := if wt then Z.lor (mode c) 0x800 else mode c). set (m2 := if wo then Z.lor m1 0x1000 else m1).
  exists m2. split.
  - assert (same_settings (mode c) m1) by (subst m1; destruct wt; split; rewrite ?tst_lor_other; reflexivity).
    subst m2. destruct wo; [|assumption]. unfold same_settings in *. rewrite !tst_lor_other by reflexivity. assumption.
  - cbv zeta.
    destruct (wt && tst (mode c) 0x10 && _), (wo && tst (mode c) 0x20 && _); repeat split.
Qed.

Lemma EFFECTIVE_u64 y : is_u64 (EFFECTIVE_CYCLES y).
Proof. apply u64_range. Qed.

(** A synchronisation of a free-running counter. *)
Lemma sync_free t d x y : free_running t d x -> counter_ok (get_timer x t) ->
  let c := get_timer x t in
  let n := (EFFECTIVE_CYCLES y - last_sync_cycle c) / d in
  0 <= last_sync_cycle c <= EFFECTIVE_CYCLES y -> n + 65536 < 4294967296 ->
  let x' := fst (Timer_SyncValue t x y) in
  free_running t d x' /\
  value (get_timer x' t) = (value c + n) mod period (mode c) (target c) /\
  target (get_timer x' t) = target c /\
  last_sync_cycle (get_timer x' t) = last_sync_cycle c + n * d /\
  same_settings (mode c) (mode (get_timer x' t)).
Proof.
  intros Hfr Hc c n Hlast Hn x'. fold c in Hc. pose proof Hfr as [Ht Hl Hst Hsync Hdot Hdiv Hd].
  pose proof (EFFECTIVE_u64 y) as Hnow. unfold is_u64 in Hnow.
  assert (Hn0 : 0 <= n) by (apply Z.div_pos; lia).
  assert (Hnd : n * d <= EFFECTIVE_CYCLES y - last_sync_cycle c) by (rewrite Z.mul_comm; apply Z.mul_div_le; lia).
  subst x'. unfold Timer_SyncValue. rewrite (proj2 (Z.ltb_ge t 0)), (proj2 (Z.ltb_ge 2 t)) by lia.
  cbn [orb]. rewrite Hst. cbv zeta. fold c.
  replace (u64 (EFFECTIVE_CYCLES y - last_sync_cycle c)) with (EFFECTIVE_CYCLES y - last_sync_cycle c)
    by (symmetry; apply u64_small; unfold is_u64; lia).
  assert (E0 : tst (mode c) 1 && (t =? 0) = false /\ tst (mode c) 1 && (t =? 1) = false).
  { destruct Hsync as [-> | Hm]; [split; apply andb_false_r | fold c in Hm; rewrite Hm; split; reflexivity]. }
  destruct E0 as [-> ->]. unfold timer_ticks.
  assert (Ed : (t =? 0) && (0 <? timer0_dotclock_num x) = false).
  { destruct Hdot as [H|H]; [rewrite (proj2 (Z.eqb_neq t 0) H); reflexivity|].
    rewrite (proj2 (Z.ltb_ge 0 _) H). apply andb_false_r. }
  rewrite Ed, Hdiv. fold n. rewrite (u32_small n) by (unfold is_u32; lia).
  set (x1 := upd_timer t _ x).
  assert (Ec1 : get_timer x1 t = c <| last_sync_cycle := last_sync_cycle c + n * d |>).
  { subst x1. rewrite get_upd_timer by assumption. fold c. cbv [upd]. rewrite u64_small by (unfold is_u64; lia). reflexivity. }
  assert (Hl1 : zlen (timers x1) = 3) by (subst x1; unfold upd_timer; cbn -[zlen]; rewrite zlen_aset; exact Hl).
  destruct (Z.eqb_spec n 0) as [E|Hne].
  - cbn [fst]. rewrite Ec1. split; [|rewrite E; cbn].
    + split; try assumption. rewrite Ec1. exact Hsync.
    + rewrite Z.add_0_r, Z.mod_small by apply Hc. repeat split.
  - destruct (timer_count_at t n x1 y) as (m' & Hm & Et & E1 & E2 & E3); try assumption; try lia.
    + rewrite Ec1. exact Hc.
    + rewrite Ec1. change (value c + n < 4294967296). destruct Hc as [Htg Hv]. unfold period in Hv. destruct (resets_at_target _ _); lia.
    + set (x2 := fst (timer_count t n x1 y)) in *. clearbody x2.
      assert (Eg : get_timer x2 t = c <| last_sync_cycle := last_sync_cycle c + n * d |> <| mode := m' |>
                     <| value := (value c + n) mod period (mode c) (target c) |>).
      { unfold get_timer at 1. rewrite Et. fold (get_timer (upd_timer t (fun c0 => c0 <| mode := m' |>
          <| value := (value c0 + n) mod period (mode c0) (target c0) |>) x1) t).
        rewrite get_upd_timer, Ec1 by assumption. reflexivity. }
      rewrite Ec1 in Hm. cbn in Hm. rewrite Eg. split; [|repeat split; apply Hm].
      split; try assumption.
      * rewrite Et. unfold upd_timer. cbn -[zlen]. rewrite zlen_aset. exact Hl1.
      * rewrite E1. exact Hst.
      * rewrite Eg. destruct Hsync as [->|Hs]; [left; reflexivity|]. right. cbn. destruct Hm as [_ ->]. exact Hs.
      * rewrite E3. exact Hdot.
      * rewrite E2. exact Hdiv.
Qed.

(** [C8] A free-running counter may be synchronised at any moments: doing
    it at a first moment and again at a later one leaves the value and the
    synchronisation point of doing it at the later one alone, namely the value
    counted tick by tick for the whole divider periods since the last
    synchronisation. *)
Theorem lazy_sync_exact t d x y1 y2 :
  free_running t d x -> counter_ok (get_timer x t) ->
  let c := get_timer x t in
  0 <= last_sync_cycle c <= EFFECTIVE_CYCLES y1 -> EFFECTIVE_CYCLES y1 <= EFFECTIVE_CYCLES y2 ->
  (EFFECTIVE_CYCLES y2 - last_sync_cycle c) / d + 65536 < 4294967296 ->
  let once := get_timer (fst (Timer_SyncValue t x y2)) t in
  let twice := get_timer (fst (Timer_SyncValue t (fst (Timer_SyncValue t x y1)) y2)) t in
  value twice = value once /\ last_sync_cycle twice = last_sync_cycle once /\
  value once = tick_n (mode c) (target c) (Z.to_nat ((EFFECTIVE_CYCLES y2 - last_sync_cycle c) / d)) (value c).
Proof.
  intros Hfr Hc c H1 H12 Hn once twice. pose proof Hfr as [_ _ _ _ _ _ Hd].
  set (L := last_sync_cycle c) in *. set (n1 := (EFFECTIVE_CYCLES y1 - L) / d).
  set (n2 := (EFFECTIVE_CYCLES y2 - L) / d) in *.
  assert (Hle : n1 <= n2) by (apply Z.div_le_mono; lia).
  assert (Hn1 : 0 <= n1) by (apply Z.div_pos; lia).
  assert (Hm1 : n1 * d <= EFFECTIVE_CYCLES y1 - L) by (rewrite Z.mul_comm; apply Z.mul_div_le; lia).
  destruct (sync_free t d x y2 Hfr Hc) as (_ & Hv & _ & Hs & _); fold c; fold L; fold n2; try lia.
  destruct (sync_free t d x y1 Hfr Hc) as (Hfr1 & Hv1 & Ht1 & Hs1 & Hm); fold c; fold L; fold n1; try lia.
  fold c in Hv, Hs, Hv1, Ht1, Hs1, Hm. fold L in Hv, Hs, Hv1, Hs1. fold n1 in Hv1, Hs1. fold n2 in Hv, Hs.
  fold once in Hv, Hs. set (x1 := fst (Timer_SyncValue t x y1)) in *.
  pose proof (period_mode (mode c) (mode (get_timer x1 t)) (target c) (proj1 Hm)) as Hper.
  assert (Hpos : 0 < period (mode c) (target c)) by (apply (period_pos _ _ (value c)), Hc).
  assert (Hc1 : counter_ok (get_timer x1 t)).
  { unfold counter_ok. rewrite Hv1, Ht1, Hper. split; [apply Hc | apply Z.mod_pos_bound, Hpos]. }
  assert (Hrem : (EFFECTIVE_CYCLES y2 - (L + n1 * d)) / d = n2 - n1).
  { replace (EFFECTIVE_CYCLES y2 - (L + n1 * d)) with (EFFECTIVE_CYCLES y2 - L + (- n1) * d) by lia.
    rewrite Z.div_add by lia. fold n2. lia. }
  destruct (sync_free t d x1 y2 Hfr1 Hc1) as (_ & Hv2 & _ & Hs2 & _); rewrite ?Hs1; try lia.
  rewrite Hs1, Hrem in Hv2, Hs2. rewrite Hv1, Ht1, Hper in Hv2. fold twice in Hv2, Hs2.
  split; [|split].
  - rewrite Hv2, Hv, Zplus_mod_idemp_l. f_equal. lia.
  - rewrite Hs2, Hs. lia.
  - rewrite tick_n_mod by apply Hc. rewrite Z2Nat.id by lia. exact Hv.
Qed.

(** A machine at cycle [n]; timer 2 at cycle 0 counting every 8 cycles,
    reset at target 100. *)
Definition at_cycle (n : Z) : Sys := sys0 <| global_cycles := n |>.

Definition timer2_example : Timers :=
  (upd_timer 2 (fun c => c <| mode := 0x208 |> <| target := 100 |>) timers_init)
    <| timer_divider_cache := [1; 1; 8] |>.

Lemma lazy_sync_exact_witness :
  value (get_timer (fst (Timer_SyncValue 2 (fst (Timer_SyncValue 2 timer2_example (at_cycle 1003))) (at_cycle 5000))) 2)
  = value (get_timer (fst (Timer_SyncValue 2 timer2_example (at_cycle 5000))) 2).
Proof.
  assert (E1 : EFFECTIVE_CYCLES (at_cycle 1003) = 1003) by reflexivity.
  assert (E2 : EFFECTIVE_CYCLES (at_cycle 5000) = 5000) by reflexivity.
  apply (lazy_sync_exact 2 8 timer2_example (at_cycle 1003) (at_cycle 5000)).
  - split; try reflexivity; lia.
  - vm_compute. repeat split; discriminate.
  - rewrite E1. vm_compute. split; discriminate.
  - rewrite E1, E2. lia.
  - rewrite E2. reflexivity.
Defined.

(** ** The dot clock *)

Lemma dotclock_step x now elapsed : 0 < timer0_dotclock_num x < 4294967296 ->
  0 <= timer0_dotclock_residue x < 11 -> 0 <= elapsed <= now -> is_u64 now ->
  11 * elapsed + timer0_dotclock_residue x < 4294967296 -> zlen (timers x) = 3 ->
  let num := timer0_dotclock_num x in
  let sub := 11 * elapsed + timer0_dotclock_residue x in
  let '(n, x') := timer_ticks 0 now elapsed x in
  n = sub / num /\ last_sync_cycle (get_timer x' 0) = now - (sub mod num) / 11 /\
  timer0_dotclock_residue x' = (sub mod num) mod 11 /\ timer0_dotclock_num x' = num /\ zlen (timers x') = 3.
Proof.
  intros Hnum Hres Hel Hnow Hb Hl num sub. unfold is_u64 in Hnow. unfold timer_ticks.
  rewrite (proj2 (Z.ltb_lt 0 _) (proj1 Hnum)). change ((0 =? 0) && true) with true. cbv iota zeta. fold num.
  replace (elapsed * 11 + timer0_dotclock_residue x) with sub by (subst sub; lia).
  assert (Hsub : 0 <= sub < 4294967296) by (subst sub; lia).
  rewrite (u64_small sub) by (unfold is_u64; lia).
  pose proof (Z.div_mod sub num ltac:(lia)) as Hdm. pose proof (Z.mod_pos_bound sub num ltac:(lia)) as Hm.
  assert (Hq : 0 <= sub / num <= sub) by (split; [apply Z.div_pos; lia | apply Z.div_le_upper_bound; nia]).
  rewrite (u32_small (sub / num)) by (unfold is_u32; lia).
  rewrite (u64_small (sub / num * num)) by (unfold is_u64; nia).
  replace (sub - sub / num * num) with (sub mod num) by lia.
  rewrite (u32_small (sub mod num)) by (unfold is_u32; lia).
  assert (Hrem : 0 <= sub mod num / 11 <= now).
  { split; [apply Z.div_pos; lia|]. apply Z.lt_succ_r, Z.div_lt_upper_bound; [lia|].
    pose proof (Z.mod_le sub num ltac:(lia) ltac:(lia)). subst sub. lia. }
  split; [reflexivity|]. split; [|split; [reflexivity | split; [reflexivity|] ] ].
  - change (last_sync_cycle (get_timer (set_last_sync 0 (u64 (now - sub mod num / 11)) x) 0) = now - sub mod num / 11).
    unfold set_last_sync. rewrite get_upd_timer by (exact Hl || lia). cbv [upd]. cbn [last_sync_cycle].
    apply u64_small. unfold is_u64. lia.
  - unfold set_last_sync, upd_timer. cbn -[zlen]. rewrite zlen_aset. exact Hl.
Qed.

(** The dot clock of timer 0 loses nothing to rounding: between two
    synchronisations, and over any split of the time between them, the ticks
    are exactly the whole multiples of the dot period of [num / 11] cycles in
    the elapsed cycles plus the residue carried over. *)
Theorem dotclock_exact x now1 now2 :
  let num := timer0_dotclock_num x in
  let last := last_sync_cycle (get_timer x 0) in
  let sub := 11 * (now2 - last) + timer0_dotclock_residue x in
  0 < num < 4294967296 -> 0 <= timer0_dotclock_residue x < 11 ->
  0 <= last <= now1 -> now1 <= now2 -> is_u64 now2 -> sub < 4294967296 -> zlen (timers x) = 3 ->
  let '(n1, x1) := timer_ticks 0 now1 (now1 - last) x in
  let '(n2, x2) := timer_ticks 0 now2 (now2 - last_sync_cycle (get_timer x1 0)) x1 in
  let '(n, x') := timer_ticks 0 now2 (now2 - last) x in
  n = sub / num /\ n1 + n2 = n /\
  last_sync_cycle (get_timer x2 0) = last_sync_cycle (get_timer x' 0) /\
  timer0_dotclock_residue x2 = timer0_dotclock_residue x'.
Proof.
  intros num last sub Hnum Hres Hlast H12 Hu Hb Hl. unfold is_u64 in Hu.
  pose proof (dotclock_step x now1 (now1 - last) Hnum Hres ltac:(lia) ltac:(unfold is_u64; lia) ltac:(subst sub; lia) Hl) as S1.
  pose proof (dotclock_step x now2 (now2 - last) Hnum Hres ltac:(lia) Hu Hb Hl) as S.
  cbv zeta in S1, S. fold num in S1, S. fold sub in S.
  destruct (timer_ticks 0 now1 (now1 - last) x) as [n1 x1]. destruct S1 as (En1 & El1 & Er1 & Enum1 & Hl1).
  destruct (timer_ticks 0 now2 (now2 - last) x) as [n x']. destruct S as (En & El & Er & _ & _).
  set (sub1 := 11 * (now1 - last) + timer0_dotclock_residue x) in *.
  pose proof (Z.div_mod sub1 num ltac:(lia)) as Hdm. pose proof (Z.mod_pos_bound sub1 num ltac:(lia)) as Hm.
  assert (Hle : sub1 mod num <= sub1) by (apply Z.mod_le; lia).
  set (r := sub1 mod num) in *.
  pose proof (Z.div_mod r 11 ltac:(lia)) as Hr11. pose proof (Z.mod_pos_bound r 11 ltac:(lia)) as Hr.
  assert (Hrd : 0 <= r / 11 <= now1 - last).
  { split; [apply Z.div_pos; lia|]. apply Z.lt_succ_r, Z.div_lt_upper_bound; lia. }
  assert (Esub : 11 * (now2 - last_sync_cycle (get_timer x1 0)) + timer0_dotclock_residue x1 = 11 * (now2 - now1) + r)
    by (rewrite El1, Er1; lia).
  pose proof (dotclock_step x1 now2 (now2 - last_sync_cycle (get_timer x1 0))) as S2.
  rewrite Esub, Enum1, Er1, El1 in S2.
  specialize (S2 Hnum Hr ltac:(lia) Hu ltac:(lia) Hl1). cbv zeta in S2. rewrite El1.
  destruct (timer_ticks 0 now2 (now2 - (now1 - r / 11)) x1) as [n2 x2]. destruct S2 as (En2 & El2 & Er2 & _ & _).
  assert (Hs : sub = 11 * (now2 - now1) + r + (sub1 / num) * num) by (subst sub sub1; lia).
  assert (Hmod : sub mod num = (11 * (now2 - now1) + r) mod num) by (rewrite Hs; apply Z.mod_add; lia).
  split; [exact En|]. split.
  - rewrite En1, En2, En, Hs, Z.div_add by lia. lia.
  - rewrite El2, El, Er2, Er, Hmod. split; reflexivity.
Qed.

Definition dotclock_example : Timers := timers_init <| timer0_dotclock_num := 56 |>.

Lemma dotclock_exact_witness :
  let '(n1, x1) := timer_ticks 0 100 100 dotclock_example in
  let '(n2, x2) := timer_ticks 0 1000 (1000 - last_sync_cycle (get_timer x1 0)) x1 in
  n1 + n2 = 196.
Proof.
  pose proof (dotclock_exact dotclock_example 100 1000) as H. cbn [last_sync_cycle] in H.
  specialize (H ltac:(split; reflexivity) ltac:(vm_compute; split; [discriminate | reflexivity])
    ltac:(vm_compute; split; discriminate) ltac:(lia) ltac:(unfold is_u64; lia) eq_refl eq_refl).
  change (100 - last_sync_cycle (get_timer dotclock_example 0)) with 100 in H.
  destruct (timer_ticks 0 100 100 dotclock_example) as [n1 x1].
  destruct (timer_ticks 0 1000 (1000 - last_sync_cycle (get_timer x1 0)) x1) as [n2 x2].
  destruct (timer_ticks 0 1000 (1000 - last_sync_cycle (get_timer dotclock_example 0)) dotclock_example) as [n x'].
  destruct H as (H1 & H2 & _). rewrite H2, H1. reflexivity.
Defined.

(** ** Blanking geometry *)

(** Cycles of a scanline phase in [phase, phase + n) that are visible, one by
    one. *)
Fixpoint visible_cycles (cps vis : Z) (phase : Z) (n : nat) : Z :=
  match n with
  | O => 0
  | S n => b2z (phase mod cps <? vis) + visible_cycles cps vis (phase + 1) n
  end.

(** The same from the start of a frame, in closed form. *)
Definition visible_before (cps vis x : Z) : Z := (x / cps) * vis + Z.min (x mod cps) vis.

Lemma visible_before_succ cps vis x : 0 < cps -> 0 <= vis <= cps -> 0 <= x ->
  visible_before cps vis (x + 1) = visible_before cps vis x + b2z (x mod cps <? vis).
Proof.
  intros Hc Hv Hx. unfold visible_before.
  pose proof (Z.div_mod x cps ltac:(lia)) as E. pose proof (Z.mod_pos_bound x cps Hc) as Hm.
  set (q := x / cps) in *. set (r := x mod cps) in *.
  destruct (Z.eq_dec (r + 1) cps) as [Er|Er].
  - assert (Eq : (x + 1) / cps = q + 1) by (symmetry; apply Z.div_unique with 0; nia).
    assert (Em : (x + 1) mod cps = 0) by (symmetry; apply Z.mod_unique with (q + 1); nia).
    rewrite Eq, Em. destruct (Z.ltb_spec r vis); cbn; lia.
  - assert (Eq : (x + 1) / cps = q) by (symmetry; apply Z.div_unique with (r + 1); nia).
    assert (Em : (x + 1) mod cps = r + 1) by (symmetry; apply Z.mod_unique with q; nia).
    rewrite Eq, Em. destruct (Z.ltb_spec r vis); cbn; lia.
Qed.

Lemma visible_cycles_before cps vis n : forall phase, 0 < cps -> 0 <= vis <= cps -> 0 <= phase ->
  visible_cycles cps vis phase n = visible_before cps vis (phase + Z.of_nat n) - visible_before cps vis phase.
Proof.
  induction n as [|n IH]; intros phase Hc Hv Hp; cbn [visible_cycles].
  - rewrite Z.add_0_r. lia.
  - rewrite IH by lia. pose proof (visible_before_succ cps vis phase Hc Hv Hp) as E.
    rewrite Nat2Z.inj_succ. replace (phase + Z.succ (Z.of_nat n)) with (phase + 1 + Z.of_nat n) by lia. lia.
Qed.

(** A part of the line from a phase below [cps]. *)
Lemma visible_before_line cps vis x : 0 < cps -> 0 <= x < cps ->
  visible_before cps vis x = Z.min x vis.
Proof. intros Hc Hx. unfold visible_before. rewrite Z.div_small, Z.mod_small by lia. lia. Qed.

Lemma visible_before_lines cps vis k x : 0 < cps ->
  visible_before cps vis (k * cps + x) = k * vis + visible_before cps vis x.
Proof.
  intros Hc. unfold visible_before. rewrite (Z.add_comm (k * cps)), Z.div_add, Z.mod_add by lia. lia.
Qed.

(** The visible cycles counted for timer 0 while it pauses in the
    horizontal blanking, computed from whole scanlines and two partial ones,
    are the cycles of the interval whose scanline phase is below the visible
    length, counted one by one. *)
Theorem count_active_exact from to y :
  hblank_frame_start_cycle y <= from -> from <= to -> 0 <= hblank_frame_start_cycle y ->
  is_u64 to -> to - from < 4294967296 ->
  count_active_cycles_hblank from to y
  = visible_cycles (cycles_per_scanline y) hblank_visible_cycles
      (from - hblank_frame_start_cycle y) (Z.to_nat (to - from)).
Proof.
  intros Hs Hle H0 Hto Hb. unfold is_u64 in Hto. unfold count_active_cycles_hblank.
  assert (Hc : cycles_per_scanline y = 2173 \/ cycles_per_scanline y = 2168)
    by (unfold cycles_per_scanline; destruct (region_pal _); auto).
  set (cps := cycles_per_scanline y) in *. set (P := from - hblank_frame_start_cycle y) in *.
  set (n := to - from) in *. change hblank_visible_cycles with 1630.
  rewrite visible_cycles_before, Z2Nat.id by lia. rewrite (u64_small n), (u64_small P) by (unfold is_u64; lia).
  rewrite (proj2 (Z.eqb_neq cps 0)) by lia. rewrite orb_false_r. cbv zeta.
  destruct (Z.eqb_spec n 0) as [->|Hn]; [rewrite Z.add_0_r; lia|].
  pose proof (Z.mod_pos_bound P cps ltac:(lia)) as Hm. pose proof (Z.div_mod P cps ltac:(lia)) as E.
  rewrite (u32_small (P mod cps)), (u32_small n) by (unfold is_u32; lia).
  set (p := P mod cps) in *. set (k := P / cps) in *.
  assert (EP : forall z, visible_before cps 1630 (P + z) = k * 1630 + visible_before cps 1630 (p + z)).
  { intros z. rewrite <- visible_before_lines by lia. f_equal. lia. }
  replace (visible_before cps 1630 P) with (visible_before cps 1630 (P + 0)) by (f_equal; lia).
  rewrite !EP, Z.add_0_r, (visible_before_line cps 1630 p) by lia.
  destruct (Z.leb_spec n (cps - p)).
  - destruct (Z.eq_dec (p + n) cps) as [Ep|Ep].
    + replace (p + n) with (1 * cps + 0) by lia. rewrite visible_before_lines, visible_before_line by lia.
      destruct (Z.ltb_spec p 1630); [destruct (Z.ltb_spec n (1630 - p)) |]; lia.
    + rewrite visible_before_line by lia.
      destruct (Z.ltb_spec p 1630); [destruct (Z.ltb_spec n (1630 - p)) |]; lia.
  - set (r := n - (cps - p)) in *. pose proof (Z.div_mod r cps ltac:(lia)) as Er.
    pose proof (Z.mod_pos_bound r cps ltac:(lia)) as Hr. assert (0 <= r / cps) by (apply Z.div_pos; lia).
    replace (r - r / cps * cps) with (r mod cps) by lia.
    replace (p + n) with ((1 + r / cps) * cps + r mod cps) by lia.
    rewrite visible_before_lines, visible_before_line by lia.
    assert (r / cps * 1630 <= r) by nia.
    rewrite !u32_small; unfold is_u32; destruct (Z.ltb_spec p 1630), (Z.ltb_spec (r mod cps) 1630);
      rewrite ?u32_small; unfold is_u32; lia.
Qed.

Lemma count_active_exact_witness : count_active_cycles_hblank 1000 9000 (at_cycle 9000) = 5828.
Proof.
  rewrite (count_active_exact 1000 9000 (at_cycle 9000)); [vm_compute; reflexivity | vm_compute; discriminate | lia
    | vm_compute; discriminate | unfold is_u64; lia | lia].
Defined.

(** ** Defects of the sync modes and of the trimmed budget *)

Lemma timer_count_last_sync t ticks x y : zlen (timers x) = 3 -> 0 <= t <= 2 ->
  last_sync_cycle (get_timer (fst (timer_count t ticks x y)) t) = last_sync_cycle (get_timer x t).
Proof.
  intros Hl Ht. unfold timer_count. destruct (count_ticks _ _ _ _) as [ [nv wt] wo].
  set (m2 := if wo then _ else _). set (x1 := upd_timer t _ x).
  assert (E : last_sync_cycle (get_timer x1 t) = last_sync_cycle (get_timer x t))
    by (subst x1; rewrite get_upd_timer by assumption; reflexivity).
  cbv zeta. destruct (wt && _ && _), (wo && _ && _); exact E.
Qed.

(** The sync modes do not all synchronise: when timer 1 in mode 3 is
    released by the vertical blanking, its synchronisation point lands beyond
    the current cycle by the ticks it counts, instead of at it; and timer 0
    pausing in the horizontal blanking, synchronised twice at one cycle,
    counts again. *)
Theorem sync_mode_defects x y d :
  let c := get_timer x 1 in
  let now := EFFECTIVE_CYCLES y in
  let elapsed := now - last_sync_cycle c in
  (zlen (timers x) = 3 -> anth false (timer_stopped_cache x) 1 = false ->
   tst (mode c) 1 = true -> Z.land (Z.shiftr (mode c) 1) 3 = 3 ->
   anth false (timer_sync_mode3_freed x) 1 = false ->
   region_pal (psx_config y) = false ->
   521520 <= u64 (now - hblank_frame_start_cycle y) mod 571499 ->
   aget (timer_divider_cache x) 1 = d -> 0 < d -> d <= elapsed < 4294967296 ->
   0 <= last_sync_cycle c -> now + elapsed < 18446744073709551616 ->
   last_sync_cycle (get_timer (fst (Timer_SyncValue 1 x y)) 1) = now + (elapsed / d) * d) /\
  (let x0 := upd_timer 0 (fun c => c <| mode := 1 |>) timers_init in
   let sync x := fst (Timer_SyncValue 0 x (at_cycle 4000)) in
   value (get_timer (sync x0) 0) = 3260 /\ value (get_timer (sync (sync x0)) 0) = 3803).
Proof.
  intros c now elapsed. split; [|vm_compute; split; reflexivity].
  intros Hl Hst Hm Hmode Hfree Hpal Hvb Hdiv Hd Hel Hl0 Hnow.
  pose proof (EFFECTIVE_u64 y) as Hu. fold now in Hu. unfold is_u64 in Hu.
  unfold Timer_SyncValue. change ((1 <? 0) || (2 <? 1)) with false. cbv iota. rewrite Hst. cbv zeta.
  fold c. rewrite Hm. change (true && (1 =? 0)) with false. change (true && (1 =? 1)) with true. cbv iota.
  fold now. fold elapsed. rewrite (u64_small elapsed) by (unfold is_u64; subst elapsed; lia).
  unfold timer1_sync_mode. fold c. rewrite Hmode, Hfree, Hpal. cbv zeta. cbn [negb].
  assert (Ecps : cycles_per_scanline y = 2173) by (unfold cycles_per_scanline; rewrite Hpal; reflexivity).
  rewrite Ecps. change (SCANLINES_PER_FRAME * 2173) with 571499. change (VBLANK_START_SCANLINE_NTSC * 2173) with 521520.
  pose proof (Z.mod_pos_bound (u64 (now - hblank_frame_start_cycle y)) 571499 ltac:(lia)) as Hmb.
  rewrite (u32_small (_ mod 571499)) by (unfold is_u32; lia).
  rewrite (proj2 (Z.leb_le _ _) Hvb). cbn [orb].
  set (x1 := set_last_sync 1 now (reset_value 1 (x <| timer_sync_mode3_freed ::= fun l => aset l 1 true |>))).
  assert (Hl1 : zlen (timers x1) = 3) by (unfold x1, set_last_sync, reset_value, upd_timer; cbn -[zlen]; rewrite !zlen_aset; exact Hl).
  assert (Ec1 : last_sync_cycle (get_timer x1 1) = now)
    by (unfold x1, set_last_sync; rewrite get_upd_timer by (try lia; unfold reset_value, upd_timer; cbn -[zlen]; rewrite zlen_aset; exact Hl); reflexivity).
  unfold timer_ticks. change ((1 =? 0) && _) with false. cbv iota.
  change (timer_divider_cache x1) with (timer_divider_cache x). rewrite Hdiv. cbv zeta.
  assert (Hq : 1 <= elapsed / d <= elapsed) by (split; [apply Z.div_le_lower_bound; lia | apply Z.div_le_upper_bound; nia]).
  rewrite (u32_small (elapsed / d)) by (unfold is_u32; lia).
  destruct (Z.eqb_spec (elapsed / d) 0); [lia|].
  assert (Hmul : elapsed / d * d <= elapsed) by (rewrite Z.mul_comm; apply Z.mul_div_le; lia).
  rewrite timer_count_last_sync; [| unfold upd_timer; cbn -[zlen]; rewrite zlen_aset; exact Hl1 | lia].
  rewrite get_upd_timer by (exact Hl1 || lia). cbv [upd]. cbn [last_sync_cycle]. rewrite Ec1.
  apply u64_small. unfold is_u64. nia.
Qed.

(** An interrupt raised while translated code runs moves the clock the
    timers see: the trim of the cycle budget makes [EFFECTIVE_CYCLES] jump
    ahead by the whole remaining budget, although none of it was executed. *)
Theorem irq_trim_moves_clock irq y :
  0 <= irq <= 10 -> psx_block_exception y = true ->
  irq_pending (cpu (SignalInterrupt irq y)) = 1 ->
  let left := s32 (cycles_left (cpu y)) in
  0 < left -> cycles_left (cpu y) = left -> left <= initial_cycles_left (cpu y) < 4294967296 ->
  EFFECTIVE_CYCLES (SignalInterrupt irq y) = u64 (EFFECTIVE_CYCLES y + left).
Proof.
  intros Hirq Hb Hp left Hleft Hcl Hinit. pose proof (s32_range (cycles_left (cpu y))) as Hr. fold left in Hr.
  unfold SignalInterrupt in *. destruct (Z.ltb_spec 10 irq); [lia|].
  set (y1 := recompute_irq_pending _) in *.
  destruct (raise_if_pending_frame y1) as (_ & _ & _ & E & _). rewrite E in Hp.
  unfold raise_if_pending. rewrite Hp. change (1 =? 0) with false. cbv iota. unfold cap_cycles_for_irq.
  change (psx_block_exception (y1 <| sched_interrupt_chain := 1 |>)) with (psx_block_exception y). rewrite Hb.
  unfold cap_cycles. change (cycles_left (cpu (y1 <| sched_interrupt_chain := 1 |>))) with (cycles_left (cpu y)).
  fold left. rewrite (proj2 (Z.ltb_lt 0 left) Hleft).
  assert (EL : EFFECTIVE_CYCLES y = u64 (global_cycles y + u32 (initial_cycles_left (cpu y) - left) + partial_block_cycles y))
    by (unfold EFFECTIVE_CYCLES; rewrite Hcl; reflexivity).
  rewrite EL.
  match goal with |- EFFECTIVE_CYCLES ?t = _ =>
    assert (ER : EFFECTIVE_CYCLES t = u64 (global_cycles y + u32 (initial_cycles_left (cpu y) - u32 0) + partial_block_cycles y))
      by reflexivity end.
  rewrite ER. change (u32 0) with 0. rewrite !u32_small by (unfold is_u32; lia).
  unfold u64. rewrite Zplus_mod_idemp_l. f_equal. lia.
Qed.

Lemma irq_trim_moves_clock_witness :
  let y := upd_cpu (fun c => c <| i_mask := 0x10 |> <| cycles_left := 500 |> <| initial_cycles_left := 800 |>)
             (sys0 <| psx_block_exception := true |>) in
  EFFECTIVE_CYCLES (SignalInterrupt 4 y) = u64 (EFFECTIVE_CYCLES y + 500).
Proof.
  intros y. apply (irq_trim_moves_clock 4 y); try reflexivity; try lia. vm_compute. split; [discriminate | reflexivity].
Defined.

Lemma sync_mode_defects_witness :
  let x := (upd_timer 1 (fun c => c <| mode := 7 |> <| last_sync_cycle := 530000 |>) timers_init) in
  last_sync_cycle (get_timer (fst (Timer_SyncValue 1 x (at_cycle 540000))) 1) = 550000.
Proof.
  intros x. rewrite (proj1 (sync_mode_defects x (at_cycle 540000) 1)); try reflexivity.
  - vm_compute. discriminate.
  - vm_compute. split; [discriminate | reflexivity].
  - vm_compute. discriminate.
Defined.
