(* ===== verification/IsoImage.v ===== *)
(** * Disc images ([src/iso_image.c])

    Detection of the sector format of an image file, sector reads, and the
    CUE sheet parser.  The host's files are a function from paths to
    contents; paths, names and text are lists of character codes, as C strings
    without their terminator. *)

From S2P Require Import Prelude.

Definition ISO_SECTOR_SIZE : Z := 2048.
Definition RAW_SECTOR_SIZE : Z := 2352.
Definition RAW_DATA_OFFSET : Z := 24.
Definition RAW_MODE1_OFFSET : Z := 16.

(** [iso_state]; the descriptor is the open file's contents. *)
Record IsoState := mkIso {
  iso_fd : option (list Z); total_sectors : Z; sector_size : Z; data_offset : Z; iso_loaded : bool
}.
#[export] Instance eta_Iso : Eta IsoState := fun s =>
  mkIso (iso_fd s) (total_sectors s) (sector_size s) (data_offset s) (iso_loaded s).

Definition iso_empty : IsoState := mkIso None 0 0 0 false.

(** [n] bytes from [off], fewer at the end of the file: [lseek], [read]. *)
Definition file_read (f : list Z) (off : Z) (n : nat) : list Z := take n (drop (Z.to_nat off) f).

Definition cd_sync : list Z :=
  [0x00; 0xFF; 0xFF; 0xFF; 0xFF; 0xFF; 0xFF; 0xFF; 0xFF; 0xFF; 0xFF; 0x00].

Definition bytes_eqb (a b : list Z) : bool := bool_decide (a = b).

(** ** C strings *)

(** A buffer as a C string: up to the first NUL. *)
Fixpoint c_string (b : list Z) : list Z :=
  match b with
  | [] => []
  | c :: b => if c =? 0 then [] else c :: c_string b
  end.

Definition to_lower (c : Z) : Z := if (65 <=? c) && (c <=? 90) then c + 32 else c.
Definition to_upper (c : Z) : Z := if (97 <=? c) && (c <=? 122) then c - 32 else c.

(** [strncasecmp(p, kw, strlen(kw)) == 0]. *)
Definition prefix_ci (kw p : list Z) : bool :=
  bytes_eqb (map to_lower (take (length kw) p)) (map to_lower kw).

(** The longest prefix satisfying [f], and the rest. *)
Fixpoint span (f : Z -> bool) (l : list Z) : list Z * list Z :=
  match l with
  | [] => ([], [])
  | c :: r => if f c then let '(a, b) := span f r in (c :: a, b) else ([], l)
  end.

Definition skip (f : Z -> bool) (l : list Z) : list Z := snd (span f l).

Definition is_blank (c : Z) : bool := (c =? 32) || (c =? 9).

(** ** Images *)

Definition ISO_Close (s : IsoState) : IsoState :=
  s <| iso_fd := None |> <| iso_loaded := false |> <| total_sectors := 0 |>.

Definition set_format (size offset : Z) (f : list Z) (s : IsoState) : IsoState :=
  s <| sector_size := size |> <| data_offset := offset |> <| total_sectors := u32 (zlen f / size) |>.

Section Host.
Context (host : list Z -> option (list Z)).

(** Returns C's status code and the state. *)
Definition ISO_Open (path : list Z) (s : IsoState) : Z * IsoState :=
  let s := if iso_loaded s then ISO_Close s else s in
  let s := iso_empty in
  match host path with
  | None => (-1, s)
  | Some f =>
    let file_size := zlen f in
    if file_size <=? 0 then (-2, s)
    else
      let s := s <| iso_fd := Some f |> in
      let s :=
        if file_size mod RAW_SECTOR_SIZE =? 0 then
          let sync := file_read f 0 12 in
          if bytes_eqb sync cd_sync then
            let mode_byte := aget (file_read f 15 1) 0 in
            set_format RAW_SECTOR_SIZE (if mode_byte =? 2 then RAW_DATA_OFFSET else RAW_MODE1_OFFSET) f s
          else set_format ISO_SECTOR_SIZE 0 f s
        else set_format ISO_SECTOR_SIZE 0 f s in
      (0, s <| iso_loaded := true |>)
  end.

(** The sector's 2048 bytes, or [None] for the error code. *)
Definition ISO_ReadSector (lba : Z) (s : IsoState) : option (list Z) :=
  match iso_fd s with
  | Some f =>
    if negb (iso_loaded s) then None
    else if total_sectors s <=? lba then None
    else
      let buf := file_read f (lba * sector_size s + data_offset s) 2048 in
      if zlen buf =? ISO_SECTOR_SIZE then Some buf else None
  | None => None
  end.

Definition ISO_IsLoaded (s : IsoState) : bool := iso_loaded s.
Definition ISO_GetSectorCount (s : IsoState) : Z := total_sectors s.

(** ** CUE sheets *)

(** The name after a FILE keyword: quoted, or up to white space. *)
Definition cue_file_name (p : list Z) : list Z :=
  let p := skip is_blank p in
  let name :=
    match p with
    | 34 :: p =>
      let '(a, b) := span (fun c => negb (c =? 34)) p in
      match b with [] => [] | _ => a end
    | _ => fst (span (fun c => negb ((c =? 32) || (c =? 9) || (c =? 13) || (c =? 10))) p)
    end in
  take 255 name.

(** A line: [Some] the name when it is a FILE directive. *)
Definition cue_line (line : list Z) : option (list Z) :=
  let p := skip is_blank line in
  if prefix_ci [70; 73; 76; 69] p && is_blank (aget p 4) then Some (cue_file_name (drop 4 p)) else None.

(** The loop over the lines; each iteration consumes at least a character,
    so the length of the text is enough fuel. *)
Fixpoint cue_loop (fuel : nat) (text : list Z) : list Z :=
  match fuel, text with
  | S fuel, _ :: _ =>
    let '(line, rest) := span (fun c => negb (c =? 10)) text in
    match cue_line line with
    | Some name => name
    | None => match rest with [] => [] | _ :: rest => cue_loop fuel rest end
    end
  | _, _ => []
  end.

Definition cue_bin_filename (cue : list Z) : list Z :=
  let buf := c_string (take (Z.to_nat 8191) cue) in cue_loop (length buf) buf.

(** Up to and including the last slash. *)
Definition dir_of (path : list Z) : list Z :=
  rev (skip (fun c => negb (c =? 47)) (rev path)).

Definition ISO_OpenCue (cue_path : list Z) (s : IsoState) : Z * IsoState :=
  match host cue_path with
  | None => (-1, s)
  | Some cue =>
    if zlen cue <=? 0 then (-1, s)
    else
      let bin_filename := c_string (cue_bin_filename cue) in
      match bin_filename with
      | [] => (-2, s)
      | _ =>
        let dir := dir_of cue_path in
        match dir with
        | [] => ISO_Open (take 511 bin_filename) s
        | _ =>
          if 512 <=? zlen dir + zlen bin_filename then (-3, s)
          else ISO_Open (dir ++ bin_filename) s
        end
      end
  end.

(** ** What an opened image delivers *)

Lemma zlen_file_read f off n : 0 <= off ->
  zlen (file_read f off n) = Z.min (Z.of_nat n) (Z.max 0 (zlen f - off)).
Proof. intros Hoff. unfold file_read, zlen. rewrite length_take, length_drop. lia. Qed.

(** The three formats an opened image can have. *)
Definition format_of (f : list Z) : Z * Z :=
  if (zlen f mod 2352 =? 0) && bytes_eqb (take 12 f) cd_sync
  then (2352, if aget f 15 =? 2 then 24 else 16) else (2048, 0).

Lemma aget_file_read f n : 0 <= n -> aget (file_read f n 1) 0 = aget f n.
Proof.
  intros Hn. unfold aget, anth, file_read. rewrite !nth_lookup.
  rewrite lookup_take_lt by (vm_compute; lia). rewrite lookup_drop.
  change (Z.to_nat 0) with O. rewrite Nat.add_0_r. reflexivity.
Qed.

(** Opening an image: a nonempty file is mounted, in raw format
    exactly when its size is a multiple of 2352 and it starts with the sync
    pattern, else with 2048-byte sectors; and then a sector read succeeds
    exactly for the sectors that are whole in the file, with the 2048 bytes at
    their place. *)
Theorem ISO_Open_reads path f s lba :
  host path = Some f -> 0 < zlen f < 8796093022208 -> is_u32 lba ->
  let '(rc, s') := ISO_Open path s in
  let '(size, off) := format_of f in
  rc = 0 /\ ISO_IsLoaded s' = true /\ ISO_GetSectorCount s' = zlen f / size /\
  ISO_ReadSector lba s' =
    (if (lba + 1) * size <=? zlen f then Some (take 2048 (drop (Z.to_nat (lba * size + off)) f)) else None).
Proof.
  intros Hh Hlen Hlba. unfold is_u32 in Hlba. unfold ISO_Open. rewrite Hh.
  rewrite (proj2 (Z.leb_gt (zlen f) 0)) by lia.
  assert (Hs : (if zlen f mod RAW_SECTOR_SIZE =? 0
                then if bytes_eqb (file_read f 0 12) cd_sync
                     then set_format RAW_SECTOR_SIZE (if aget (file_read f 15 1) 0 =? 2 then RAW_DATA_OFFSET else RAW_MODE1_OFFSET) f
                            (iso_empty <| iso_fd := Some f |>)
                     else set_format ISO_SECTOR_SIZE 0 f (iso_empty <| iso_fd := Some f |>)
                else set_format ISO_SECTOR_SIZE 0 f (iso_empty <| iso_fd := Some f |>))
               = set_format (fst (format_of f)) (snd (format_of f)) f (iso_empty <| iso_fd := Some f |>)).
  { rewrite aget_file_read by lia. unfold format_of. change (file_read f 0 12) with (take 12 f).
    unfold RAW_SECTOR_SIZE. destruct (zlen f mod 2352 =? 0), (bytes_eqb (take 12 f) cd_sync);
      cbn [andb fst snd]; reflexivity. }
  rewrite Hs. clear Hs.
  assert (Hf : let '(size, off) := format_of f in
    (size = 2048 \/ size = 2352) /\ 0 <= off /\ off + 2048 <= size)
    by (unfold format_of; destruct (_ && _); [destruct (_ =? 2)|]; lia).
  destruct (format_of f) as [size off]. destruct Hf as (Hsz & Hoff & Hfit). cbn [fst snd].
  split; [reflexivity|]. split; [reflexivity|].
  assert (Hq : 0 <= zlen f / size < 4294967296)
    by (split; [apply Z.div_pos; lia | apply Z.div_lt_upper_bound; lia]).
  split; [cbn; apply u32_small, Hq|].
  unfold ISO_ReadSector. cbn [iso_fd iso_loaded total_sectors sector_size data_offset negb set_format upd setter].
  rewrite (u32_small (zlen f / size)) by exact Hq.
  assert (Hmul : size * (zlen f / size) <= zlen f) by (apply Z.mul_div_le; lia).
  assert (Hlt : zlen f < size * (zlen f / size) + size)
    by (pose proof (Z.div_mod (zlen f) size); pose proof (Z.mod_pos_bound (zlen f) size); lia).
  rewrite zlen_file_read by nia. unfold ISO_SECTOR_SIZE.
  destruct (Z.leb_spec (zlen f / size) lba), (Z.leb_spec ((lba + 1) * size) (zlen f)); try (exfalso; nia).
  - reflexivity.
  - rewrite (proj2 (Z.eqb_eq _ _)) by nia. reflexivity.
Qed.

End Host.

(** A file of two sectors of sevens. *)
Definition two_sectors : list Z := repeat 7 (Z.to_nat 4096).
Definition example_host (path : list Z) : option (list Z) :=
  if bool_decide (path = [97]) then Some two_sectors else None.

Lemma ISO_Open_reads_witness :
  ISO_ReadSector 1 (snd (ISO_Open example_host [97] iso_empty)) = Some (repeat 7 (Z.to_nat 2048)).
Proof.
  pose proof (ISO_Open_reads example_host [97] two_sectors iso_empty 1 eq_refl) as H.
  assert (L : 0 < zlen two_sectors < 8796093022208) by (vm_compute; split; reflexivity).
  specialize (H L ltac:(unfold is_u32; lia)).
  destruct (ISO_Open example_host [97] iso_empty) as [rc s'] eqn:E.
  destruct (format_of two_sectors) as [size off] eqn:F. vm_compute in F. injection F as <- <-.
  destruct H as (_ & _ & _ & H). cbn [snd]. rewrite H. vm_compute. reflexivity.
Defined.
