(* ===== verification/IsoFs.v ===== *)
(** * The ISO 9660 file system ([src/iso_fs.c])

    The volume descriptor, the search of the root directory, whole-file
    reads and the BOOT line of SYSTEM.CNF.  A directory record's name is read
    from the sector buffer at the record's own length byte; a read beyond the
    2048 bytes is the outcome [FindOverrun]. *)

From S2P Require Import Prelude IsoImage.

Record IsoFsState := mkIsoFs { root_dir_lba : Z; root_dir_size : Z; fs_initialized : bool }.
#[export] Instance eta_IsoFs : Eta IsoFsState := fun s =>
  mkIsoFs (root_dir_lba s) (root_dir_size s) (fs_initialized s).

Definition isofs_zero : IsoFsState := mkIsoFs 0 0 false.

(** [read_le32] of a buffer at [p]. *)
Definition read_le32 (b : list Z) (p : Z) : Z :=
  Z.lor (aget b p) (Z.lor (Z.shiftl (aget b (p + 1)) 8)
    (Z.lor (Z.shiftl (aget b (p + 2)) 16) (Z.shiftl (aget b (p + 3)) 24))).

(** A trailing [";1"] and, for the name on the disc, a trailing dot. *)
Definition strip_version (name : list Z) : list Z :=
  let n := length name in
  if (2 <=? Z.of_nat n) && (aget name (zlen name - 1) =? 49) && (aget name (zlen name - 2) =? 59)
  then take (n - 2) name else name.

Definition strip_dot (name : list Z) : list Z :=
  if (0 <? zlen name) && (aget name (zlen name - 1) =? 46) then take (length name - 1) name else name.

Definition iso_name_match (iso_name target : list Z) : bool :=
  let a := strip_dot (strip_version iso_name) in
  let b := strip_version target in
  (zlen a =? zlen b) && bytes_eqb (map to_upper a) (map to_upper b).

(** [sector[pos .. pos + n)], when it lies within the buffer. *)
Definition slice (b : list Z) (pos n : Z) : list Z := take (Z.to_nat n) (drop (Z.to_nat pos) b).

Inductive find_result :=
| Found (lba size : Z)
| FindNone
| FindOverrun.

(** The records of one directory sector, from [pos]; each is at least 33
    bytes long, so 63 records are enough. *)
Fixpoint scan_records (fuel : nat) (sector : list Z) (pos : Z) (name : list Z) : find_result :=
  match fuel with
  | O => FindNone
  | S fuel =>
    if ISO_SECTOR_SIZE <=? pos then FindNone
    else
      let record_len := aget sector pos in
      if record_len =? 0 then FindNone
      else if (record_len <? 33) || (ISO_SECTOR_SIZE <? pos + record_len) then FindNone
      else
        let name_len := aget sector (pos + 32) in
        let file_flags := aget sector (pos + 25) in
        if tst file_flags 0x02 then scan_records fuel sector (pos + record_len) name
        else if ISO_SECTOR_SIZE <? pos + 33 + name_len then FindOverrun
        else if iso_name_match (slice sector (pos + 33) name_len) name then
          Found (read_le32 sector (pos + 2)) (read_le32 sector (pos + 10))
        else scan_records fuel sector (pos + record_len) name
  end.

Definition scan_sector (sector name : list Z) : find_result := scan_records 63 sector 0 name.

Section Image.
Context (iso : IsoState).

Definition ISOFS_Init : Z * IsoFsState :=
  if negb (ISO_IsLoaded iso) then (-1, isofs_zero)
  else
    match ISO_ReadSector 16 iso with
    | None => (-2, isofs_zero)
    | Some sector =>
      if negb (aget sector 0 =? 0x01) then (-3, isofs_zero)
      else if negb (bytes_eqb (slice sector 1 5) [67; 68; 48; 48; 49]) then (-3, isofs_zero)
      else (0, mkIsoFs (read_le32 sector (156 + 2)) (read_le32 sector (156 + 10)) true)
    end.

(** The loop over the directory's sectors; [None] is the code -1. *)
Fixpoint find_in_dir (sectors : nat) (lba : Z) (name : list Z) : find_result :=
  match sectors with
  | O => FindNone
  | S n =>
    match ISO_ReadSector lba iso with
    | None => FindNone
    | Some sector =>
      match scan_sector sector name with
      | FindNone => find_in_dir n (u32 (lba + 1)) name
      | r => r
      end
    end
  end.

Definition sector_count (bytes : Z) : Z := u32 (bytes + ISO_SECTOR_SIZE - 1) / ISO_SECTOR_SIZE.

Definition ISOFS_FindFile (name : list Z) (fs : IsoFsState) : find_result :=
  if negb (fs_initialized fs) then FindNone
  else find_in_dir (Z.to_nat (sector_count (root_dir_size fs))) (root_dir_lba fs) name.

(** Bytes copied to the caller's buffer so far; [None] for -1. *)
Fixpoint read_sectors (sectors : nat) (lba want : Z) (acc : list Z) : option (list Z) :=
  match sectors with
  | O => Some acc
  | S n =>
    match ISO_ReadSector lba iso with
    | None => if 0 <? zlen acc then Some acc else None
    | Some sector =>
      let chunk := Z.min (want - zlen acc) ISO_SECTOR_SIZE in
      read_sectors n (u32 (lba + 1)) want (acc ++ take (Z.to_nat chunk) sector)
    end
  end.

Definition ISOFS_ReadFile (file_lba file_size buf_size : Z) (fs : IsoFsState) : option (list Z) :=
  if negb (fs_initialized fs) then None
  else
    let bytes_to_read := Z.min file_size buf_size in
    read_sectors (Z.to_nat (sector_count bytes_to_read)) file_lba bytes_to_read [].

(** ** SYSTEM.CNF *)

Definition is_white (c : Z) : bool := (c =? 32) || (c =? 9) || (c =? 13) || (c =? 10).

(** The [cdrom:] prefix of a path, as the source skips it. *)
Definition skip_one (f : Z -> bool) (p : list Z) : list Z :=
  match p with c :: r => if f c then r else p | [] => [] end.

Definition skip_device (p : list Z) : list Z :=
  if prefix_ci [99; 100; 114; 111; 109] p then
    let p := drop 5 p in
    let p := skip_one (fun c => (48 <=? c) && (c <=? 57)) p in
    let p := skip_one (Z.eqb 58) p in
    skip_one (fun c => (c =? 92) || (c =? 47)) p
  else p.

(** Drops trailing blanks. *)
Definition trim_blanks (l : list Z) : list Z := rev (skip is_blank (rev l)).

(** The value of a BOOT line, after the keyword. *)
Definition boot_value (max_len : Z) (p : list Z) : list Z :=
  let p := skip is_blank p in
  let p := skip_one (Z.eqb 61) p in
  let p := skip is_blank p in
  let p := skip_device p in
  let line := fst (span (fun c => negb ((c =? 13) || (c =? 10))) p) in
  trim_blanks (map (fun c => if c =? 92 then 47 else c) (take (Z.to_nat (max_len - 1)) line)).

(** One iteration per line; each consumes at least a character of a
    non-empty text. *)
Fixpoint cnf_loop (fuel : nat) (max_len : Z) (p : list Z) : option (list Z) :=
  match fuel, p with
  | S fuel, _ :: _ =>
    let p := skip is_white p in
    if prefix_ci [98; 111; 111; 116] p then Some (boot_value max_len (drop 4 p))
    else cnf_loop fuel max_len (skip (fun c => negb (c =? 10)) p)
  | _, _ => None
  end.

Definition parse_cnf (max_len : Z) (cnf : list Z) : option (list Z) :=
  cnf_loop (S (length cnf)) max_len cnf.

(** The status code and the path. *)
Definition ISOFS_ReadBootPath (max_len : Z) (fs : IsoFsState) : Z * list Z :=
  match ISOFS_FindFile [83; 89; 83; 84; 69; 77; 46; 67; 78; 70] fs with
  | Found cnf_lba cnf_size =>
    let cnf_size := if 2048 <? cnf_size then 2048 else cnf_size in
    match ISOFS_ReadFile cnf_lba cnf_size 2048 fs with
    | None => (-2, [])
    | Some bytes =>
      match parse_cnf max_len (c_string (take (Z.to_nat 2047) bytes)) with
      | Some path => (0, path)
      | None => (-3, [])
      end
    end
  | _ => (-1, [])
  end.

End Image.

(** ** Directories written by a mastering tool *)

(** A directory record as its bytes, with the fields they carry. *)
Record DirEntry := mkEntry { e_lba : Z; e_size : Z; e_flags : Z; e_name : list Z; e_bytes : list Z }.

Record wf_entry (e : DirEntry) : Prop := {
  we_len : aget (e_bytes e) 0 = zlen (e_bytes e);
  we_fits : 33 + zlen (e_name e) <= zlen (e_bytes e);
  we_lba : read_le32 (e_bytes e) 2 = e_lba e;
  we_size : read_le32 (e_bytes e) 10 = e_size e;
  we_flags : aget (e_bytes e) 25 = e_flags e;
  we_name_len : aget (e_bytes e) 32 = zlen (e_name e);
  we_name : slice (e_bytes e) 33 (zlen (e_name e)) = e_name e
}.

(** The entry the directory promises for a name. *)
Fixpoint dir_lookup (entries : list DirEntry) (name : list Z) : find_result :=
  match entries with
  | [] => FindNone
  | e :: entries =>
    if negb (tst (e_flags e) 0x02) && iso_name_match (e_name e) name then Found (e_lba e) (e_size e)
    else dir_lookup entries name
  end.

Lemma zlen_nonneg {A} (l : list A) : 0 <= zlen l.
Proof. unfold zlen. lia. Qed.

Lemma aget_mid pre r post k : 0 <= k < zlen r -> aget (pre ++ r ++ post) (zlen pre + k) = aget r k.
Proof.
  unfold aget, anth, zlen. intros Hk. rewrite app_nth2 by lia. rewrite app_nth1 by lia. f_equal. lia.
Qed.

Lemma slice_mid pre r post k n : 0 <= k -> 0 <= n -> k + n <= zlen r ->
  slice (pre ++ r ++ post) (zlen pre + k) n = slice r k n.
Proof.
  unfold slice, zlen. intros Hk Hn Hle. rewrite drop_app_ge by lia.
  rewrite drop_app_le by lia. rewrite take_app_le by (rewrite length_drop; lia). f_equal. f_equal. lia.
Qed.

Lemma read_le32_mid pre r post k : 0 <= k -> k + 4 <= zlen r ->
  read_le32 (pre ++ r ++ post) (zlen pre + k) = read_le32 r k.
Proof. intros Hk Hle. unfold read_le32. rewrite <- !Z.add_assoc, !aget_mid by lia. reflexivity. Qed.

(** After the last record: the end of the sector, or a zero length. *)
Definition ends_records (tail : list Z) : Prop := tail = [] \/ aget tail 0 = 0.

Lemma scan_entries name tail entries : forall fuel pre,
  Forall wf_entry entries -> ends_records tail -> (length entries < fuel)%nat ->
  zlen (pre ++ concat (map e_bytes entries) ++ tail) = 2048 ->
  scan_records fuel (pre ++ concat (map e_bytes entries) ++ tail) (zlen pre) name = dir_lookup entries name.
Proof.
  induction entries as [|e entries IH]; intros fuel pre Hwf Htail Hfuel Hlen;
    destruct fuel as [|fuel]; try (cbn in Hfuel; lia); cbn [scan_records map concat dir_lookup]; unfold ISO_SECTOR_SIZE.
  - cbn [map concat] in Hlen. rewrite !zlen_app in Hlen. change (zlen (@nil Z)) with 0 in Hlen. rewrite app_nil_l.
    destruct (Z.leb_spec 2048 (zlen pre)); [reflexivity|].
    destruct Htail as [-> | Ht]; [change (zlen (@nil Z)) with 0 in Hlen; lia|].
    pose proof (aget_mid pre tail [] 0 ltac:(lia)) as E. rewrite Z.add_0_r, app_nil_r in E. rewrite E, Ht. reflexivity.
  - inversion Hwf as [|? ? [H1 H2 H3 H4 H5 H6 H7] Hwf']; subst. set (r := e_bytes e) in *.
    cbn [map concat] in Hlen. fold r in Hlen. rewrite <- app_assoc in Hlen |- *.
    set (post := concat (map e_bytes entries) ++ tail) in *.
    pose proof (zlen_nonneg (e_name e)) as Hnn. pose proof (zlen_nonneg post) as Hpn.
    pose proof Hlen as Hl. rewrite !zlen_app in Hl.
    rewrite (proj2 (Z.leb_gt 2048 (zlen pre))) by lia.
    pose proof (aget_mid pre r post 0 ltac:(lia)) as E0. rewrite Z.add_0_r, H1 in E0. rewrite E0.
    rewrite (proj2 (Z.eqb_neq (zlen r) 0)), (proj2 (Z.ltb_ge (zlen r) 33)),
      (proj2 (Z.ltb_ge 2048 (zlen pre + zlen r))) by lia. cbn [orb].
    rewrite !aget_mid, H5, H6 by lia.
    rewrite slice_mid, H7, !read_le32_mid, H3, H4 by lia.
    rewrite (proj2 (Z.ltb_ge 2048 (zlen pre + 33 + zlen (e_name e)))) by lia.
    assert (Hrest : scan_records fuel (pre ++ r ++ post) (zlen pre + zlen r) name = dir_lookup entries name).
    { rewrite app_assoc, <- zlen_app. apply IH; [exact Hwf' | exact Htail | cbn in Hfuel; lia |].
      rewrite <- app_assoc. exact Hlen. }
    rewrite Hrest. destruct (tst (e_flags e) 2), (iso_name_match (e_name e) name); reflexivity.
Qed.

Lemma entries_bound entries : Forall wf_entry entries ->
  33 * Z.of_nat (length entries) <= zlen (concat (map e_bytes entries)).
Proof.
  induction 1 as [|e entries [H1 H2 _ _ _ _ _] _ IH]; [reflexivity|].
  cbn [map concat length]. rewrite zlen_app, Nat2Z.inj_succ. pose proof (zlen_nonneg (e_name e)). lia.
Qed.

(** The search of a directory sector built from well-formed records,
    followed by a zero byte or the end of the sector, finds the location and
    size of the first entry that is a file and whose name matches up to case,
    version suffix and trailing dot, and nothing when there is none; it never
    reads outside the sector. *)
Theorem scan_sector_lookup entries tail name :
  Forall wf_entry entries -> ends_records tail ->
  zlen (concat (map e_bytes entries) ++ tail) = 2048 ->
  scan_sector (concat (map e_bytes entries) ++ tail) name = dir_lookup entries name.
Proof.
  intros Hwf Htail Hlen. apply (scan_entries name tail entries 63 []); try assumption.
  pose proof (entries_bound entries Hwf). pose proof (zlen_nonneg tail).
  rewrite zlen_app in Hlen. lia.
Qed.

(** A record with no system use area, padded to an even length. *)
Definition make_entry (lba size flags : Z) (name : list Z) : DirEntry :=
  let le32 v := [Z.land v 255; Z.land (Z.shiftr v 8) 255; Z.land (Z.shiftr v 16) 255; Z.land (Z.shiftr v 24) 255] in
  let body := [0] ++ le32 lba ++ [0; 0; 0; 0] ++ le32 size ++ repeat 0 11 ++ [flags] ++ repeat 0 6 ++ [zlen name] ++ name in
  let body := if Z.even (zlen name) then body ++ [0] else body in
  mkEntry lba size flags name ((1 + zlen body) :: body).

Definition example_dir : list DirEntry :=
  [make_entry 22 2048 2 [0]; make_entry 23 68 0 [83; 89; 83; 84; 69; 77; 46; 67; 78; 70; 59; 49]].

Definition example_dir_bytes : list Z := concat (map e_bytes example_dir).

Lemma scan_sector_lookup_witness :
  scan_sector (example_dir_bytes ++ repeat 0 (Z.to_nat (2048 - zlen example_dir_bytes)))
    [83; 89; 83; 84; 69; 77; 46; 67; 78; 70] = Found 23 68.
Proof.
  unfold example_dir_bytes. rewrite scan_sector_lookup.
  - vm_compute. reflexivity.
  - repeat constructor; vm_compute; try reflexivity; discriminate.
  - right. vm_compute. reflexivity.
  - vm_compute. reflexivity.
Defined.

(** The sanity check on a record covers its length but not that of its
    name: a file record near the end of the sector whose name length byte
    reaches past the sector makes the search read beyond its buffer. *)
Theorem scan_overruns fuel sector pos name :
  0 <= pos -> 33 <= aget sector pos -> pos + aget sector pos <= ISO_SECTOR_SIZE ->
  tst (aget sector (pos + 25)) 0x02 = false ->
  ISO_SECTOR_SIZE < pos + 33 + aget sector (pos + 32) ->
  scan_records (S fuel) sector pos name = FindOverrun.
Proof.
  unfold ISO_SECTOR_SIZE. intros Hp H33 Hfit Hfile Hname. cbn [scan_records]. unfold ISO_SECTOR_SIZE.
  rewrite (proj2 (Z.leb_gt 2048 pos)), (proj2 (Z.eqb_neq (aget sector pos) 0)),
    (proj2 (Z.ltb_ge (aget sector pos) 33)), (proj2 (Z.ltb_ge 2048 (pos + aget sector pos))) by lia.
  cbn [orb]. rewrite Hfile, (proj2 (Z.ltb_lt _ _) Hname). reflexivity.
Qed.

(** One record filling the sector from byte 2008, with a name of 200. *)
Lemma scan_overruns_witness :
  scan_records 1 (repeat 0 2008 ++ [40] ++ repeat 0 31 ++ [200] ++ repeat 0 7) 2008 [65] = FindOverrun.
Proof. apply (scan_overruns 0); vm_compute; try reflexivity; discriminate. Defined.

(** ** The BOOT line *)

Lemma skip_app f l r : Forall (fun c => f c = true) l ->
  (match r with [] => True | c :: _ => f c = false end) -> skip f (l ++ r) = r.
Proof.
  unfold skip. induction 1 as [|c l Hc _ IH]; intros Hr.
  - destruct r as [|c r]; [reflexivity|]. cbn. rewrite Hr. reflexivity.
  - cbn. rewrite Hc. specialize (IH Hr). destruct (span f (l ++ r)). exact IH.
Qed.

Lemma span_app f l c r : Forall (fun c => f c = true) l -> f c = false ->
  fst (span f (l ++ c :: r)) = l.
Proof.
  induction 1 as [|x l Hx _ IH]; intros Hc; cbn; [rewrite Hc; reflexivity|].
  rewrite Hx. specialize (IH Hc). destruct (span f (l ++ c :: r)). cbn in *. congruence.
Qed.

Lemma prefix_ci_app kw p r : length p = length kw -> map to_lower p = map to_lower kw ->
  prefix_ci kw (p ++ r) = true.
Proof.
  intros Hl Hm. unfold prefix_ci. rewrite take_app_le, take_ge by lia. rewrite Hm. apply bool_decide_eq_true_2. reflexivity.
Qed.

Definition slashes (l : list Z) : list Z := map (fun c => if c =? 92 then 47 else c) l.

Lemma trim_blanks_id l : (forall c l', rev l = c :: l' -> is_blank c = false) -> trim_blanks l = l.
Proof.
  intros H. unfold trim_blanks, skip. destruct (rev l) as [|c l'] eqn:E.
  - cbn. rewrite <- (rev_involutive l), E. reflexivity.
  - cbn [span]. rewrite (H c l' eq_refl). cbn [snd]. rewrite <- E. apply rev_involutive.
Qed.

(** The BOOT line round trip: whatever white space precedes it and
    surrounds the equals sign, in any case, with or without a drive digit, the
    line [BOOT = cdrom:\name] yields the name with its backslashes turned into
    slashes, for a name without line ends that does not end in a blank and
    fits the buffer. *)
Theorem boot_line_roundtrip white kw b1 b2 dev digit name eol rest max_len :
  Forall (fun c => is_white c = true) white ->
  length kw = 4%nat -> map to_lower kw = [98; 111; 111; 116] ->
  Forall (fun c => is_blank c = true) b1 -> Forall (fun c => is_blank c = true) b2 ->
  length dev = 5%nat -> map to_lower dev = [99; 100; 114; 111; 109] ->
  digit = [] \/ (exists d, digit = [d] /\ 48 <= d <= 57) ->
  Forall (fun c => negb ((c =? 13) || (c =? 10)) = true) name ->
  (forall c l', rev name = c :: l' -> is_blank c = false) ->
  eol = 13 \/ eol = 10 -> zlen name < max_len ->
  parse_cnf max_len (white ++ kw ++ b1 ++ [61] ++ b2 ++ dev ++ digit ++ [58; 92] ++ name ++ eol :: rest)
  = Some (slashes name).
Proof.
  intros Hw Hk1 Hk2 Hb1 Hb2 Hd1 Hd2 Hdig Hn Hlast Heol Hmax.
  assert (Hkc : exists k0 kw', kw = k0 :: kw' /\ is_white k0 = false /\ is_blank k0 = false).
  { destruct kw as [|k0 kw']; [discriminate|]. exists k0, kw'. split; [reflexivity|].
    cbn in Hk2. injection Hk2 as Hk2 _. unfold to_lower in Hk2. unfold is_white, is_blank.
    destruct (Z.leb_spec 65 k0), (Z.leb_spec k0 90); cbn in Hk2; split; lia. }
  assert (Hdc : exists d0 dev', dev = d0 :: dev' /\ is_blank d0 = false).
  { destruct dev as [|d0 dev']; [discriminate|]. exists d0, dev'. split; [reflexivity|].
    cbn in Hd2. injection Hd2 as Hd2 _. unfold to_lower in Hd2. unfold is_blank.
    destruct (Z.leb_spec 65 d0), (Z.leb_spec d0 90); cbn in Hd2; lia. }
  set (tl := name ++ eol :: rest).
  assert (Hskip : skip is_white (white ++ kw ++ b1 ++ [61] ++ b2 ++ dev ++ digit ++ [58; 92] ++ tl)
                  = kw ++ b1 ++ [61] ++ b2 ++ dev ++ digit ++ [58; 92] ++ tl).
  { apply skip_app; [exact Hw|]. destruct Hkc as (k0 & kw' & -> & H & _). exact H. }
  unfold parse_cnf. cbn [cnf_loop]. rewrite Hskip.
  rewrite prefix_ci_app by assumption.
  rewrite drop_app_le, drop_ge, app_nil_l by lia.
  assert (Hval : boot_value max_len (b1 ++ [61] ++ b2 ++ dev ++ digit ++ [58; 92] ++ tl) = slashes name).
  { unfold boot_value. rewrite skip_app by (assumption || reflexivity).
    change (skip_one (Z.eqb 61) ([61] ++ ?x)) with x. cbn [app skip_one Z.eqb Pos.eqb].
    rewrite skip_app by (try assumption; destruct Hdc as (d0 & dev' & -> & H); exact H).
    unfold skip_device. rewrite prefix_ci_app by assumption. rewrite drop_app_le, drop_ge, app_nil_l by lia.
    assert (Hdg : skip_one (fun c => (48 <=? c) && (c <=? 57)) (digit ++ 58 :: 92 :: tl) = 58 :: 92 :: tl).
    { destruct Hdig as [-> | (d & -> & Hd)]; [reflexivity|]. cbn.
      rewrite (proj2 (Z.leb_le 48 d)), (proj2 (Z.leb_le d 57)) by lia. reflexivity. }
    rewrite Hdg. cbn [skip_one Z.eqb Pos.eqb orb]. unfold tl. rewrite span_app;
      [| exact Hn | destruct Heol as [-> | ->]; reflexivity].
    rewrite take_ge by (unfold zlen in Hmax; lia). apply trim_blanks_id.
    intros c l' E. unfold slashes in E. rewrite <- map_rev in E. destruct (rev name) as [|c0 l0] eqn:Er; [discriminate|].
    cbn in E. injection E as <- _. specialize (Hlast c0 l0 eq_refl).
    destruct (c0 =? 92); [reflexivity | exact Hlast]. }
  destruct (white ++ _) as [|c0 t0] eqn:Et.
  - destruct white; [|discriminate]. destruct Hkc as (k0 & kw' & -> & _). discriminate.
  - f_equal. exact Hval.
Qed.

(** "BOOT = cdrom:\SLUS_1.2;1". *)
Lemma boot_line_roundtrip_witness :
  parse_cnf 256 ([66; 79; 79; 84; 32; 61; 32; 99; 100; 114; 111; 109; 58; 92; 83; 92; 49; 59; 49; 13; 10])
  = Some [83; 47; 49; 59; 49].
Proof.
  apply (boot_line_roundtrip [] [66; 79; 79; 84] [32] [32] [99; 100; 114; 111; 109] [] [83; 92; 49; 59; 49] 13 [10] 256);
    try reflexivity; repeat constructor.
  intros c l' E. injection E as <- _. reflexivity.
Defined.
