(* ===== verification/Cdrom.v ===== *)
(** * The CD-ROM controller ([src/cdrom.c])

    Four registers behind an index, the parameter, response and data FIFOs,
    the command set, and the responses that arrive later: the acknowledge
    (INT3) by [CDROM_DeferredCallback], the second response (INT2 or INT5) by
    [CDROM_PendingCallback] once the first is acknowledged, the sectors (INT1)
    by [CDROM_EventCallback]. *)

From Stdlib Require Import Relation_Operators.
From S2P Require Import Prelude Scheduler System IsoImage.

Definition PARAM_FIFO_SIZE : Z := 16.
Definition RESPONSE_FIFO_SIZE : Z := 16.
Definition DISC_MAX_LBA : Z := 335250.
Definition LEADOUT_LBA : Z := 333000.
Definition PREGAP_LBA : Z := 150.
Definition PENDING_DELAY_INIT : Z := 3800000.
Definition PENDING_DELAY_PAUSE : Z := 8000000.
Definition PENDING_DELAY_STOP : Z := 6000000.
Definition PENDING_DELAY_MOTORON : Z := 3000000.
Definition PENDING_DELAY_GETID : Z := 800000.
Definition PENDING_DELAY_SEEKL : Z := 1000000.
Definition PENDING_DELAY_READTOC : Z := 16000000.
Definition CDROM_READ_CYCLES_1X : Z := 451584.
Definition CDROM_READ_CYCLES_2X : Z := 225792.

(** ** BCD *)

Definition dec_to_bcd (v : Z) : Z := u8 (Z.lor (Z.shiftl (v / 10) 4) (v mod 10)).
Definition bcd_to_dec (v : Z) : Z :=
  let hi := Z.shiftr v 4 in
  let lo := Z.land v 0x0F in
  if (9 <? hi) || (9 <? lo) then 0 else hi * 10 + lo.

Definition msf_to_lba (mm ss ff : Z) : Z :=
  u32 ((bcd_to_dec mm * 60 + bcd_to_dec ss) * 75 + bcd_to_dec ff).

(** Minute, second, frame. *)
Definition lba_to_bcd (lba : Z) : Z * Z * Z :=
  let ff := dec_to_bcd (lba mod 75) in
  let lba := lba / 75 in
  let ss := dec_to_bcd (lba mod 60) in
  let lba := lba / 60 in
  (dec_to_bcd lba, ss, ff).

(** ** State

    The legacy counters [read_delay], [pending_delay], [deferred_delay] and
    [irq_signal_delay], which no code reads, are left out. *)

Record Cdrom := mkCdrom {
  index : Z;
  param_fifo : list Z; param_count : Z;
  response_fifo : list Z; response_count : Z; response_read_pos : Z;
  data_fifo : list Z; data_pos : Z; data_len : Z;
  int_enable : Z; int_flag : Z; stat : Z;
  pending_response : list Z; pending_count : Z; pending_int : Z; has_pending : bool;
  last_cmd : Z; busy : bool;
  setloc_lba : Z; cur_lba : Z; has_loc_header : bool; seek_error : bool; reading : bool;
  cd_mode : Z; disc_present : bool; pending_deadline : Z; seek_pending : bool; location_changed : bool;
  deferred_response : list Z; deferred_count : Z; deferred_int : Z; has_deferred : bool
}.
#[export] Instance eta_Cdrom : Eta Cdrom := fun c =>
  mkCdrom (index c) (param_fifo c) (param_count c)
    (response_fifo c) (response_count c) (response_read_pos c)
    (data_fifo c) (data_pos c) (data_len c)
    (int_enable c) (int_flag c) (stat c)
    (pending_response c) (pending_count c) (pending_int c) (has_pending c)
    (last_cmd c) (busy c)
    (setloc_lba c) (cur_lba c) (has_loc_header c) (seek_error c) (reading c)
    (cd_mode c) (disc_present c) (pending_deadline c) (seek_pending c) (location_changed c)
    (deferred_response c) (deferred_count c) (deferred_int c) (has_deferred c).

Definition CDROM_Init : Cdrom :=
  mkCdrom 0 (repeat 0 16) 0 (repeat 0 16) 0 0 (repeat 0 (Z.to_nat 2352)) 0 0 0 0 0x10
    (repeat 0 16) 0 0 false 0 false 0 0 false false false 0 false 0 false false
    (repeat 0 16) 0 0 false.

Definition CdSys : Type := Cdrom * Sys.

Definition upd_cd (f : Cdrom -> Cdrom) (x : CdSys) : CdSys := (f (fst x), snd x).

(** [memcpy] of [bs] over the start of an array. *)
Definition copy_over (old bs : list Z) : list Z := bs ++ drop (length bs) old.

Definition cdrom_read_delay (c : Cdrom) : Z :=
  if tst (cd_mode c) 0x80 then CDROM_READ_CYCLES_2X else CDROM_READ_CYCLES_1X.

(** [Sched_Add] [delay] cycles from now. *)
Definition cd_schedule (ev delay : Z) (cb : callback) (x : CdSys) : CdSys :=
  let '(c, y) := x in (c, upd_sched (Sched_Add ev (u64 (global_cycles y + delay)) cb) y).

Definition cdrom_set_stat (new_stat : Z) (c : Cdrom) : Cdrom :=
  c <| stat := if negb (disc_present c) then Z.lor new_stat 0x10 else new_stat |>.

(** ** Disc changes *)

Definition CDROM_InsertDisc (c : Cdrom) : Cdrom := c <| disc_present := true |> <| stat := 0x02 |>.

Definition shell_close_stage2 (ticks_late : Z) (x : CdSys) : CdSys :=
  cd_schedule SCHED_EVENT_CDROM_PENDING 2000000 cdrom_shell_close_stage3 (upd_cd (fun c => c <| stat := 0x10 |>) x).

Definition shell_close_stage3 (ticks_late : Z) (x : CdSys) : CdSys :=
  upd_cd (fun c => c <| disc_present := true |> <| stat := 0x00 |>) x.

Definition irq_off (x : CdSys) : CdSys := (fst x, (snd x) <| cdrom_irq_active := false |>).

(** Arms the assertion of I_STAT, 800 cycles later. *)
Definition arm_irq (x : CdSys) : CdSys :=
  cd_schedule SCHED_EVENT_CDROM_IRQ 800 CDROM_DeferredIRQActivate (irq_off x).

Definition CDROM_EjectDisc (x : CdSys) : CdSys :=
  let x := upd_cd (fun c => c <| disc_present := false |> <| reading := false |> <| stat := 0x01 |>) x in
  arm_irq (upd_cd (fun c => c
    <| response_fifo := copy_over (response_fifo c) [stat c; 0x08] |>
    <| response_count := 2 |> <| response_read_pos := 0 |> <| int_flag := 5 |>) x).

Definition CDROM_CloseShell (x : CdSys) : CdSys :=
  cd_schedule SCHED_EVENT_CDROM_PENDING 2000000 cdrom_shell_close_stage2 (upd_cd (fun c => c <| stat := 0x12 |>) x).

(** ** FIFOs and queues *)

(** The bytes copied to the destination. *)
Definition cdrom_read_data_fifo (count : Z) (c : Cdrom) : list Z * Cdrom :=
  let avail := u32 (data_len c - data_pos c) in
  let count := if avail <? count then avail else count in
  if 0 <? count then
    (take (Z.to_nat count) (drop (Z.to_nat (data_pos c)) (data_fifo c)),
     c <| data_pos := u32 (data_pos c + count) |>)
  else ([], c).

Definition cdrom_queue_response (bs : list Z) (irq_type : Z) (x : CdSys) : CdSys :=
  let bs := take 16 bs in
  cd_schedule SCHED_EVENT_CDROM_DEFERRED 4000 CDROM_DeferredCallback
    (upd_cd (fun c => c
      <| deferred_response := copy_over (deferred_response c) bs |> <| deferred_count := zlen bs |>
      <| deferred_int := irq_type |> <| has_deferred := true |> <| busy := true |>) x).

Definition cdrom_queue_pending (bs : list Z) (irq_type delay_cycles : Z) (x : CdSys) : CdSys :=
  let bs := take 16 bs in
  let delay := if cdrom_fast (psx_config (snd x)) then 200 else delay_cycles in
  upd_cd (fun c => c
    <| pending_response := copy_over (pending_response c) bs |> <| pending_count := zlen bs |>
    <| pending_int := irq_type |> <| has_pending := true |>
    <| pending_deadline := u64 (global_cycles (snd x) + delay) |>) x.

(** ** Commands *)

Definition param (i : Z) (c : Cdrom) : Z := if i <? param_count c then aget (param_fifo c) i else 0.

(** The status byte as an INT3. *)
Definition ack_stat (x : CdSys) : CdSys := cdrom_queue_response [stat (fst x)] 3 x.

(** The status byte as an INT3, and again as an INT2 after [delay]. *)
Definition ack_then_complete (delay : Z) (x : CdSys) : CdSys :=
  let x := ack_stat x in cdrom_queue_pending [stat (fst x)] 2 delay x.

Definition cmd_setloc (x : CdSys) : CdSys :=
  ack_stat (upd_cd (fun c => c <| setloc_lba := msf_to_lba (param 0 c) (param 1 c) (param 2 c) |>
                              <| location_changed := true |>) x).

Definition cmd_play (x : CdSys) : CdSys :=
  ack_stat (upd_cd (fun c => cdrom_set_stat 0x82 (c <| cur_lba := setloc_lba c |>)) x).

(** ReadN and ReadS. *)
Definition cmd_read (x : CdSys) : CdSys :=
  let x := upd_cd (fun c => cdrom_set_stat 0x42
    (c <| cur_lba := setloc_lba c |> <| reading := true |> <| has_loc_header := true |> <| seek_error := false |>)
    <| seek_pending := true |>) x in
  cd_schedule SCHED_EVENT_CDROM 10000000 CDROM_EventCallback (ack_stat x).

Definition cmd_motor_on (x : CdSys) : CdSys :=
  ack_then_complete PENDING_DELAY_MOTORON (upd_cd (cdrom_set_stat 0x02) x).
Definition cmd_stop (x : CdSys) : CdSys :=
  ack_then_complete PENDING_DELAY_STOP (upd_cd (fun c => cdrom_set_stat 0x00 (c <| reading := false |>)) x).
Definition cmd_pause (x : CdSys) : CdSys :=
  ack_then_complete PENDING_DELAY_PAUSE (upd_cd (fun c => cdrom_set_stat 0x02 (c <| reading := false |>)) x).

Definition cmd_init (x : CdSys) : CdSys :=
  let had_header := has_loc_header (fst x) in
  let x := upd_cd (fun c => cdrom_set_stat 0x02 (c <| reading := false |> <| seek_error := false |>)) x in
  let x := if had_header then upd_cd (fun c => c <| cur_lba := PREGAP_LBA |> <| has_loc_header := true |>) x else x in
  ack_then_complete PENDING_DELAY_INIT x.

Definition cmd_setmode (x : CdSys) : CdSys := ack_stat (upd_cd (fun c => c <| cd_mode := param 0 c |>) x).
Definition cmd_getparam (x : CdSys) : CdSys :=
  cdrom_queue_response [stat (fst x); cd_mode (fst x); 0; 0; 0; 0] 3 x.

Definition cmd_getlocl (x : CdSys) : CdSys :=
  let c := fst x in
  if negb (has_loc_header c) || seek_error c then cdrom_queue_response [stat c; 0x80] 5 x
  else
    let '(mm, ss, ff) := lba_to_bcd (cur_lba c) in
    cdrom_queue_response [mm; ss; ff; 0x02; 0; 0; 0; 0] 3 x.

Definition cmd_getlocp (x : CdSys) : CdSys :=
  let c := fst x in
  if seek_error c then cdrom_queue_response [stat c; 0x80] 5 x
  else
    let '(amm, ass, aff) := lba_to_bcd (cur_lba c) in
    let track := if LEADOUT_LBA <=? cur_lba c then 0xAA else 0x01 in
    let idx := if cur_lba c <? PREGAP_LBA then 0x00 else 0x01 in
    let '(rmm, rss, rff) :=
      if PREGAP_LBA <=? cur_lba c then lba_to_bcd (cur_lba c - PREGAP_LBA)
      else lba_to_bcd (PREGAP_LBA - cur_lba c) in
    cdrom_queue_response [track; idx; rmm; rss; rff; amm; ass; aff] 3 x.

Definition cmd_gettn (x : CdSys) : CdSys := cdrom_queue_response [stat (fst x); 0x01; 0x01] 3 x.

Definition cmd_gettd (x : CdSys) : CdSys :=
  let c := fst x in
  let track := param 0 c in
  if track =? 0 then
    let '(mm, ss, ff) := lba_to_bcd (LEADOUT_LBA + PREGAP_LBA) in
    cdrom_queue_response [stat c; mm; ss] 3 x
  else if track =? 1 then cdrom_queue_response [stat c; 0x00; 0x02] 3 x
  else cdrom_queue_response [Z.lor (stat c) 0x01; 0x10] 5 x.

(** SeekL and SeekP. *)
Definition cmd_seek (x : CdSys) : CdSys :=
  if DISC_MAX_LBA <=? setloc_lba (fst x) then
    let x := ack_stat (upd_cd (fun c => cdrom_set_stat 0x04 (c <| seek_error := true |>)) x) in
    cdrom_queue_pending [stat (fst x); 0x04] 5 PENDING_DELAY_SEEKL x
  else
    ack_then_complete PENDING_DELAY_SEEKL (upd_cd (fun c => cdrom_set_stat 0x02
      (c <| cur_lba := setloc_lba c |> <| has_loc_header := true |> <| seek_error := false |>)) x).

Definition cmd_test (x : CdSys) : CdSys :=
  match param 0 (fst x) with
  | 0x20 => cdrom_queue_response [0x94; 0x09; 0x19; 0xC0] 3 x
  | 0x04 | 0x05 => cdrom_queue_response [0; 0] 3 x
  | _ => ack_stat x
  end.

Definition cmd_getid (x : CdSys) : CdSys :=
  let c := fst x in
  if disc_present c then
    cdrom_queue_pending [stat c; 0x00; 0x20; 0x00; 83; 67; 69; 65] 2 PENDING_DELAY_GETID (ack_stat x)
  else
    cdrom_queue_pending [0x08; 0x40; 0; 0; 0; 0; 0; 0] 5 PENDING_DELAY_GETID
      (cdrom_queue_response [stat c; 0x00] 3 x).

Definition cmd_unknown (x : CdSys) : CdSys :=
  cdrom_queue_response [Z.lor (stat (fst x)) 0x01; 0x40] 5 x.

Definition cdrom_execute_command (cmd : Z) (x : CdSys) : CdSys :=
  let x := upd_cd (fun c => c <| last_cmd := cmd |>) x in
  let x :=
    match cmd with
    | 0x01 => ack_stat x
    | 0x02 => cmd_setloc x
    | 0x03 => cmd_play x
    | 0x06 => cmd_read x
    | 0x07 => cmd_motor_on x
    | 0x08 => cmd_stop x
    | 0x09 => cmd_pause x
    | 0x0A => cmd_init x
    | 0x0B | 0x0C | 0x0D => ack_stat x
    | 0x0E => cmd_setmode x
    | 0x0F => cmd_getparam x
    | 0x10 => cmd_getlocl x
    | 0x11 => cmd_getlocp x
    | 0x13 => cmd_gettn x
    | 0x14 => cmd_gettd x
    | 0x15 | 0x16 => cmd_seek x
    | 0x19 => cmd_test x
    | 0x1A => cmd_getid x
    | 0x1B => cmd_read x
    | 0x1E => ack_then_complete PENDING_DELAY_READTOC x
    | _ => cmd_unknown x
    end in
  upd_cd (fun c => c <| param_count := 0 |>) x.

(** ** Deliveries *)

Definition cdrom_deliver_pending (x : CdSys) : CdSys :=
  let c := fst x in
  if negb (has_pending c) then x
  else if negb (int_flag c =? 0) then x
  else arm_irq (upd_cd (fun c => c
    <| response_fifo := copy_over (response_fifo c) (take (Z.to_nat (pending_count c)) (pending_response c)) |>
    <| response_count := pending_count c |> <| response_read_pos := 0 |>
    <| int_flag := pending_int c |> <| has_pending := false |>) x).

Definition cdrom_deliver_deferred (x : CdSys) : CdSys :=
  if negb (has_deferred (fst x)) then x
  else arm_irq (upd_cd (fun c => c
    <| response_fifo := copy_over (response_fifo c) (take (Z.to_nat (deferred_count c)) (deferred_response c)) |>
    <| response_count := deferred_count c |> <| response_read_pos := 0 |>
    <| int_flag := deferred_int c |> <| has_deferred := false |> <| busy := false |>) x).

(** The sector the controller reads next: zeros when it cannot. *)
Definition next_sector (iso : IsoState) (c : Cdrom) : list Z :=
  let file_lba := if PREGAP_LBA <=? cur_lba c then cur_lba c - PREGAP_LBA else 0 in
  let zeros := repeat 0 (Z.to_nat ISO_SECTOR_SIZE) in
  if ISO_IsLoaded iso then default zeros (ISO_ReadSector file_lba iso) else zeros.

Definition deliver_sector (iso : IsoState) (x : CdSys) : CdSys :=
  let x := upd_cd (fun c => c <| data_fifo := copy_over (data_fifo c) (next_sector iso c) |>
                              <| data_pos := 0 |> <| data_len := ISO_SECTOR_SIZE |>) x in
  let x := cdrom_queue_response [stat (fst x)] 1 x in
  let x := upd_cd (fun c => c <| cur_lba ::= fun l => u32 (l + 1) |>) x in
  let delay := cdrom_read_delay (fst x) in
  let delay := if location_changed (fst x) then u32 (delay * 30) else delay in
  cd_schedule SCHED_EVENT_CDROM delay CDROM_EventCallback (upd_cd (fun c => c <| location_changed := false |>) x).

Definition CDROM_Event (iso : IsoState) (ticks_late : Z) (x : CdSys) : CdSys :=
  let c := fst x in
  if negb (reading c) then x
  else if seek_pending c then
    let x := upd_cd (fun c => cdrom_set_stat 0x22 (c <| seek_pending := false |>)) x in
    cd_schedule SCHED_EVENT_CDROM (cdrom_read_delay (fst x)) CDROM_EventCallback x
  else if negb (int_flag c =? 0) || has_pending c then
    cd_schedule SCHED_EVENT_CDROM (cdrom_read_delay c / 2) CDROM_EventCallback x
  else deliver_sector iso x.

Definition CDROM_Pending (ticks_late : Z) (x : CdSys) : CdSys :=
  if has_pending (fst x) && (int_flag (fst x) =? 0) then cdrom_deliver_pending x else x.

Definition CDROM_ScheduleEvent (x : CdSys) : CdSys :=
  if reading (fst x) then cd_schedule SCHED_EVENT_CDROM (cdrom_read_delay (fst x)) CDROM_EventCallback x else x.

Definition CDROM_Deferred (ticks_late : Z) (x : CdSys) : CdSys :=
  if has_deferred (fst x) then cdrom_deliver_deferred x else x.

Definition cdrom_irq_should_signal (c : Cdrom) : bool :=
  negb (int_flag c =? 0) && tst (int_enable c) (Z.shiftl 1 (int_flag c - 1)).

Definition signal_cd (x : CdSys) : CdSys := (fst x, SignalInterrupt 2 (snd x)).

Definition CDROM_IRQActivate (ticks_late : Z) (x : CdSys) : CdSys :=
  let x := (fst x, (snd x) <| cdrom_irq_active := true |>) in
  if cdrom_irq_should_signal (fst x) then signal_cd x else x.

(** ** Registers *)

Definition status_register (c : Cdrom) : Z :=
  let s := Z.land (index c) 3 in
  let s := if param_count c =? 0 then Z.lor s 0x08 else s in
  let s := if param_count c <? PARAM_FIFO_SIZE then Z.lor s 0x10 else s in
  let s := if response_read_pos c <? response_count c then Z.lor s 0x20 else s in
  let s := if data_pos c <? data_len c then Z.lor s 0x40 else s in
  if busy c then Z.lor s 0x80 else s.

Definition CDROM_Read (addr : Z) (c : Cdrom) : Z * Cdrom :=
  match Z.land addr 3 with
  | 0 => (status_register c, c)
  | 1 =>
    if response_read_pos c <? response_count c
    then (aget (response_fifo c) (response_read_pos c), c <| response_read_pos ::= Z.add 1 |>) else (0, c)
  | 2 =>
    if data_pos c <? data_len c
    then (aget (data_fifo c) (data_pos c), c <| data_pos ::= Z.add 1 |>) else (0, c)
  | _ => (if tst (index c) 1 then Z.lor (int_flag c) 0xE0 else int_enable c, c)
  end.

(** Writing the interrupt flag register acknowledges. *)
Definition write_int_flag (val : Z) (x : CdSys) : CdSys :=
  let x := upd_cd (fun c => c <| int_flag ::= fun f => Z.land f (not32 (Z.land val 0x07)) |>) x in
  let x := if int_flag (fst x) =? 0
           then (fst x, upd_sched (Sched_Remove SCHED_EVENT_CDROM_IRQ) ((snd x) <| cdrom_irq_active := false |>))
           else x in
  let x := if tst val 0x40 then upd_cd (fun c => c <| param_count := 0 |>) x else x in
  let '(c, y) := x in
  if has_pending c && (int_flag c =? 0) then
    let deliver_at := if pending_deadline c <=? global_cycles y then u64 (global_cycles y + 200) else pending_deadline c in
    (c, upd_sched (Sched_Add SCHED_EVENT_CDROM_PENDING deliver_at CDROM_PendingCallback) y)
  else x.

Definition write_int_enable (val : Z) (x : CdSys) : CdSys :=
  let x := upd_cd (fun c => c <| int_enable := Z.land val 0x1F |>) x in
  if cdrom_irq_should_signal (fst x) && negb (cdrom_irq_active (snd x)) then
    signal_cd (fst x, (snd x) <| cdrom_irq_active := true |>)
  else x.

Definition CDROM_Write (addr d : Z) (x : CdSys) : CdSys :=
  let val := Z.land d 0xFF in
  let idx := index (fst x) in
  match Z.land addr 3 with
  | 0 => upd_cd (fun c => c <| index := Z.land val 3 |>) x
  | 1 =>
    if idx =? 0 then cdrom_execute_command val (upd_cd (fun c => c <| busy := true |>) x) else x
  | 2 =>
    match idx with
    | 0 => upd_cd (fun c =>
             if param_count c <? PARAM_FIFO_SIZE
             then c <| param_fifo ::= fun l => aset l (param_count c) val |> <| param_count ::= Z.add 1 |> else c) x
    | 1 => write_int_enable val x
    | _ => x
    end
  | _ =>
    match idx with
    | 0 => if tst val 0x80 then x else upd_cd (fun c => c <| data_pos := 0 |> <| data_len := 0 |>) x
    | 1 => write_int_flag val x
    | _ => x
    end
  end.

(** ** Minutes, seconds, frames *)

Lemma bcd_roundtrip v : 0 <= v < 100 -> bcd_to_dec (dec_to_bcd v) = v.
Proof.
  intros Hv. assert (H : (if v <? 100 then bcd_to_dec (dec_to_bcd v) =? v else true) = true)
    by (apply (zforall_true 7 (fun v => if v <? 100 then bcd_to_dec (dec_to_bcd v) =? v else true) 0);
        [vm_compute; reflexivity | cbn; lia]).
  rewrite (proj2 (Z.ltb_lt v 100)) in H by lia. apply Z.eqb_eq, H.
Qed.

(** Disc positions survive the conversion to BCD minutes, seconds and
    frames and back, for every position below 100 minutes. *)
Theorem msf_roundtrip lba : 0 <= lba < 450000 ->
  let '(mm, ss, ff) := lba_to_bcd lba in msf_to_lba mm ss ff = lba.
Proof.
  intros Hl. unfold lba_to_bcd, msf_to_lba.
  rewrite !bcd_roundtrip by zify_div. rewrite u32_small; unfold is_u32; zify_div.
Qed.

Lemma msf_roundtrip_witness : msf_to_lba 0x74 0x02 0x00 = 333150.
Proof. apply (msf_roundtrip 333150). lia. Defined.

(** ** FIFO invariant *)

Record cd_ok (c : Cdrom) : Prop := {
  ok_param : zlen (param_fifo c) = 16 /\ 0 <= param_count c <= 16;
  ok_resp : zlen (response_fifo c) = 16 /\ 0 <= response_read_pos c <= response_count c /\ response_count c <= 16;
  ok_data : zlen (data_fifo c) = 2352 /\ 0 <= data_pos c <= data_len c /\ data_len c <= 2048;
  ok_pend : zlen (pending_response c) = 16 /\ 0 <= pending_count c <= 16;
  ok_def : zlen (deferred_response c) = 16 /\ 0 <= deferred_count c <= 16;
  ok_index : 0 <= index c <= 3
}.

Lemma zlen_copy_over old bs : zlen bs <= zlen old -> zlen (copy_over old bs) = zlen old.
Proof. unfold copy_over, zlen. rewrite length_app, length_drop. lia. Qed.

Lemma zlen_take16 (bs : list Z) : 0 <= zlen (take 16 bs) <= 16.
Proof. unfold zlen. rewrite length_take. lia. Qed.

Lemma zlen_take_le (bs : list Z) n : 0 <= n -> zlen (take (Z.to_nat n) bs) <= n.
Proof. unfold zlen. rewrite length_take. lia. Qed.

Ltac ok_frame H := destruct H; split; cbn -[zlen copy_over]; try assumption; try lia.

Lemma schedule_fst ev d cb x : fst (cd_schedule ev d cb x) = fst x.
Proof. destruct x. reflexivity. Qed.

Lemma queue_response_ok bs k x : cd_ok (fst x) -> cd_ok (fst (cdrom_queue_response bs k x)).
Proof.
  intros H. unfold cdrom_queue_response. rewrite schedule_fst. pose proof (zlen_take16 bs).
  ok_frame H. rewrite zlen_copy_over; lia.
Qed.

Lemma queue_pending_ok bs k d x : cd_ok (fst x) -> cd_ok (fst (cdrom_queue_pending bs k d x)).
Proof.
  intros H. unfold cdrom_queue_pending. pose proof (zlen_take16 bs).
  ok_frame H. rewrite zlen_copy_over; lia.
Qed.

Lemma ack_stat_ok x : cd_ok (fst x) -> cd_ok (fst (ack_stat x)).
Proof. intros H. unfold ack_stat. apply queue_response_ok, H. Qed.

Lemma ack_then_complete_ok d x : cd_ok (fst x) -> cd_ok (fst (ack_then_complete d x)).
Proof. intros H. unfold ack_then_complete. cbv zeta. apply queue_pending_ok, ack_stat_ok, H. Qed.

Lemma param_reset_ok x : cd_ok (fst x) -> cd_ok (fst (upd_cd (fun c => c <| param_count := 0 |>) x)).
Proof. intros H. ok_frame H. Qed.

Lemma advance_ok x : cd_ok (fst x) -> cd_ok (fst (upd_cd (fun c => c <| cur_lba ::= fun l => u32 (l + 1) |>) x)).
Proof. intros H. ok_frame H. Qed.

Lemma location_ok x : cd_ok (fst x) -> cd_ok (fst (upd_cd (fun c => c <| location_changed := false |>) x)).
Proof. intros H. ok_frame H. Qed.

Lemma execute_command_ok cmd x : cd_ok (fst x) -> cd_ok (fst (cdrom_execute_command cmd x)).
Proof.
  intros H. unfold cdrom_execute_command. set (x1 := upd_cd _ x).
  assert (H1 : cd_ok (fst x1)) by (subst x1; ok_frame H). clearbody x1.
  apply param_reset_ok.
  repeat case_match; subst;
    unfold cmd_setloc, cmd_play, cmd_read, cmd_motor_on, cmd_stop, cmd_pause, cmd_init, cmd_setmode, cmd_getparam,
      cmd_getlocl, cmd_getlocp, cmd_gettn, cmd_gettd, cmd_seek, cmd_test, cmd_getid, cmd_unknown;
    rewrite ?schedule_fst; repeat case_match;
    repeat match goal with
      | |- cd_ok (fst (cdrom_queue_response _ _ _)) => apply queue_response_ok
      | |- cd_ok (fst (cdrom_queue_pending _ _ _ _)) => apply queue_pending_ok
      | |- cd_ok (fst (ack_stat _)) => apply ack_stat_ok
      | |- cd_ok (fst (ack_then_complete _ _)) => apply ack_then_complete_ok
      end;
    ok_frame H1.
Qed.

Lemma arm_irq_ok x : cd_ok (fst x) -> cd_ok (fst (arm_irq x)).
Proof. intros H. unfold arm_irq. rewrite schedule_fst. exact H. Qed.

Lemma deliver_ok x : cd_ok (fst x) -> cd_ok (fst (cdrom_deliver_pending x)) /\ cd_ok (fst (cdrom_deliver_deferred x)).
Proof.
  intros H. pose proof H as H0. destruct H0 as [_ [Hr _] _ [_ Hp] [_ Hd] _]. split.
  - unfold cdrom_deliver_pending. destruct (negb _); [exact H|]. destruct (negb _); [exact H|].
    apply arm_irq_ok. pose proof (zlen_take_le (pending_response (fst x)) (pending_count (fst x)) ltac:(lia)).
    ok_frame H. rewrite zlen_copy_over; lia.
  - unfold cdrom_deliver_deferred. destruct (negb _); [exact H|].
    apply arm_irq_ok. pose proof (zlen_take_le (deferred_response (fst x)) (deferred_count (fst x)) ltac:(lia)).
    ok_frame H. rewrite zlen_copy_over; lia.
Qed.

Lemma zlen_next_sector iso c : zlen (next_sector iso c) = 2048.
Proof.
  unfold next_sector. destruct (ISO_IsLoaded iso); [|reflexivity].
  unfold ISO_ReadSector. destruct (iso_fd iso); [|reflexivity]. destruct (negb _); [reflexivity|].
  destruct (total_sectors iso <=? _); [reflexivity|]. set (b := file_read _ _ _).
  destruct (Z.eqb_spec (zlen b) ISO_SECTOR_SIZE) as [E|]; [exact E | reflexivity].
Qed.

Lemma event_ok iso late x : cd_ok (fst x) -> cd_ok (fst (CDROM_Event iso late x)).
Proof.
  intros H. unfold CDROM_Event. destruct (negb (reading _)); [exact H|].
  destruct (seek_pending _); [rewrite schedule_fst; ok_frame H|].
  destruct (_ || _); [rewrite schedule_fst; exact H|].
  unfold deliver_sector. rewrite schedule_fst. pose proof (zlen_next_sector iso (fst x)) as Hs.
  apply location_ok, advance_ok, queue_response_ok.
  destruct H as [H1 H2 H3 H4 H5 H6]. split; cbn -[zlen next_sector]; try assumption.
  unfold ISO_SECTOR_SIZE. rewrite zlen_copy_over by lia. lia.
Qed.

(** Every access of the program, every scheduled callback and every disc
    change. *)
Inductive cd_step (iso : IsoState) : CdSys -> CdSys -> Prop :=
| cd_write addr d x : cd_step iso x (CDROM_Write addr d x)
| cd_read addr c y : cd_step iso (c, y) (snd (CDROM_Read addr c), y)
| cd_dma n c y : 0 <= n -> cd_step iso (c, y) (snd (cdrom_read_data_fifo n c), y)
| cd_event late x : cd_step iso x (CDROM_Event iso late x)
| cd_pending late x : cd_step iso x (CDROM_Pending late x)
| cd_deferred late x : cd_step iso x (CDROM_Deferred late x)
| cd_irq late x : cd_step iso x (CDROM_IRQActivate late x)
| cd_eject x : cd_step iso x (CDROM_EjectDisc x)
| cd_close x : cd_step iso x (CDROM_CloseShell x)
| cd_stage2 late x : cd_step iso x (shell_close_stage2 late x)
| cd_stage3 late x : cd_step iso x (shell_close_stage3 late x)
| cd_insert c y : cd_step iso (c, y) (CDROM_InsertDisc c, y)
| cd_elapse c y y' : cd_step iso (c, y) (c, y').

Lemma write_int_enable_ok v x : cd_ok (fst x) -> cd_ok (fst (write_int_enable v x)).
Proof. intros H. unfold write_int_enable. case_match; ok_frame H. Qed.

Lemma write_int_flag_ok v x : cd_ok (fst x) -> cd_ok (fst (write_int_flag v x)).
Proof.
  intros H. unfold write_int_flag.
  set (x1 := upd_cd _ x). assert (H1 : cd_ok (fst x1)) by (subst x1; ok_frame H). clearbody x1.
  destruct (int_flag (fst x1) =? 0), (tst v 0x40); destruct x1 as [c y];
    unfold upd_cd; cbn [fst snd] in *; case_match; ok_frame H1.
Qed.

Lemma param_push_ok v x : cd_ok (fst x) -> cd_ok (fst (upd_cd (fun c =>
  if param_count c <? PARAM_FIFO_SIZE
  then c <| param_fifo ::= fun l => aset l (param_count c) v |> <| param_count ::= Z.add 1 |> else c) x)).
Proof.
  intros H. unfold PARAM_FIFO_SIZE. cbn. destruct (Z.ltb_spec (param_count (fst x)) 16); [|exact H].
  ok_frame H. rewrite zlen_aset. lia.
Qed.

Lemma write_ok addr d x : cd_ok (fst x) -> cd_ok (fst (CDROM_Write addr d x)).
Proof.
  intros H. unfold CDROM_Write. set (val := Z.land d 0xFF). clearbody val.
  pose proof (land_bound_r val 3 ltac:(lia)) as Hi. pose proof (land_bound_r addr 3 ltac:(lia)) as Ha.
  pose proof (ok_index _ H) as Hidx.
  assert (Z.land addr 3 = 0 \/ Z.land addr 3 = 1 \/ Z.land addr 3 = 2 \/ Z.land addr 3 = 3) as E by lia.
  assert (index (fst x) = 0 \/ index (fst x) = 1 \/ index (fst x) = 2 \/ index (fst x) = 3) as Ex by lia.
  destruct E as [-> | [-> | [-> | -> ] ] ].
  - ok_frame H.
  - destruct (_ =? 0); [|exact H]. apply execute_command_ok. ok_frame H.
  - destruct Ex as [-> | [-> | [-> | -> ] ] ]; try exact H.
    + apply param_push_ok, H.
    + apply write_int_enable_ok, H.
  - destruct Ex as [-> | [-> | [-> | -> ] ] ]; try exact H.
    + destruct (tst val 0x80); [exact H | ok_frame H].
    + apply write_int_flag_ok, H.
Qed.

Lemma cd_read_ok addr c : cd_ok c -> cd_ok (snd (CDROM_Read addr c)).
Proof.
  intros H. unfold CDROM_Read. pose proof (land_bound_r addr 3 ltac:(lia)) as Ha.
  assert (Z.land addr 3 = 0 \/ Z.land addr 3 = 1 \/ Z.land addr 3 = 2 \/ Z.land addr 3 = 3) as E by lia.
  destruct E as [-> | [-> | [-> | -> ] ] ]; try exact H.
  - destruct (Z.ltb_spec (response_read_pos c) (response_count c)); [ok_frame H | exact H].
  - destruct (Z.ltb_spec (data_pos c) (data_len c)); [ok_frame H | exact H].
Qed.

Lemma dma_ok n c : 0 <= n -> cd_ok c -> cd_ok (snd (cdrom_read_data_fifo n c)).
Proof.
  intros Hn H. unfold cdrom_read_data_fifo. pose proof (ok_data _ H) as (_ & Hd & Hl).
  rewrite (u32_small (data_len c - data_pos c)) by (unfold is_u32; lia). cbv zeta.
  set (k := if _ <? n then _ else n).
  assert (Hk : 0 <= k <= data_len c - data_pos c) by (subst k; destruct (Z.ltb_spec (data_len c - data_pos c) n); lia).
  clearbody k. destruct (Z.ltb_spec 0 k); [|exact H]. ok_frame H. rewrite u32_small by (unfold is_u32; lia). lia.
Qed.

Lemma eject_ok x : cd_ok (fst x) -> cd_ok (fst (CDROM_EjectDisc x)).
Proof.
  intros H. unfold CDROM_EjectDisc. apply arm_irq_ok. ok_frame H.
  rewrite zlen_copy_over; [lia|]. change (2 <= zlen (response_fifo (fst x))). lia.
Qed.

(** Every step of the controller (register accesses, DMA reads,
    callbacks, disc changes) keeps the FIFOs within their arrays: counts at
    most 16, read positions at most the count, the data window within the
    sector, so no access leaves its array. *)
Theorem cd_fifo_bounds iso x x' : cd_ok (fst x) -> clos_refl_trans_1n _ (cd_step iso) x x' -> cd_ok (fst x').
Proof.
  intros Hok Hs. revert Hok. induction Hs as [x|x x1 x2 Hstep _ IH]; [tauto|]. intros Hok. apply IH. clear IH.
  destruct Hstep as [addr d x|addr c y|n c y Hn|late x|late x|late x|late x|x|x|late x|late x|c y|c y y'].
  - apply write_ok, Hok.
  - apply cd_read_ok, Hok.
  - apply dma_ok; assumption.
  - apply event_ok, Hok.
  - unfold CDROM_Pending. case_match; [apply deliver_ok|]; exact Hok.
  - unfold CDROM_Deferred. case_match; [apply deliver_ok|]; exact Hok.
  - unfold CDROM_IRQActivate. case_match; exact Hok.
  - apply eject_ok, Hok.
  - unfold CDROM_CloseShell. rewrite schedule_fst. ok_frame Hok.
  - unfold shell_close_stage2. rewrite schedule_fst. ok_frame Hok.
  - ok_frame Hok.
  - ok_frame Hok.
  - exact Hok.
Qed.

Lemma CDROM_Init_ok : cd_ok CDROM_Init.
Proof. split; cbn; try split; try reflexivity; lia. Qed.

Lemma cd_fifo_bounds_witness : cd_ok (fst (CDROM_Write 0x1F801801 0x1A (CDROM_Init, sys0))).
Proof.
  apply (cd_fifo_bounds iso_empty (CDROM_Init, sys0)); [exact CDROM_Init_ok|].
  eapply rt1n_trans; [apply (cd_write iso_empty 0x1F801801 0x1A) | apply rt1n_refl].
Defined.

(** ** Reading a FIFO register repeatedly *)

Fixpoint read_register (addr : Z) (n : nat) (c : Cdrom) : list Z * Cdrom :=
  match n with
  | O => ([], c)
  | S n =>
    let '(v, c) := CDROM_Read addr c in
    let '(vs, c) := read_register addr n c in (v :: vs, c)
  end.

Lemma drop_aget (l : list Z) p : 0 <= p < zlen l ->
  drop (Z.to_nat p) l = aget l p :: drop (Z.to_nat (1 + p)) l.
Proof.
  intros Hp. unfold aget, anth, zlen in *. replace (Z.to_nat (1 + p)) with (S (Z.to_nat p)) by lia.
  apply drop_S. rewrite nth_lookup. destruct (lookup_lt_is_Some_2 l (Z.to_nat p) ltac:(lia)) as [z Hz].
  rewrite Hz. reflexivity.
Qed.

Lemma read_responses n : forall c, 0 <= response_read_pos c ->
  response_read_pos c + Z.of_nat n <= response_count c -> response_count c <= zlen (response_fifo c) ->
  fst (read_register 0x1F801801 n c) = take n (drop (Z.to_nat (response_read_pos c)) (response_fifo c)).
Proof.
  induction n as [|n IH]; intros c H0 Hn Hl; [reflexivity|].
  cbn [read_register]. unfold CDROM_Read. change (Z.land 0x1F801801 3) with 1. cbv iota.
  rewrite (proj2 (Z.ltb_lt (response_read_pos c) (response_count c))) by lia.
  specialize (IH (c <| response_read_pos ::= Z.add 1 |>)). cbn -[zlen Z.to_nat] in IH. rewrite drop_aget by lia.
  specialize (IH ltac:(lia) ltac:(lia) Hl). destruct (read_register _ n _) as [vs c']. cbn [fst] in *.
  rewrite IH. reflexivity.
Qed.

Lemma read_data n : forall c, 0 <= data_pos c ->
  data_pos c + Z.of_nat n <= data_len c -> data_len c <= zlen (data_fifo c) ->
  fst (read_register 0x1F801802 n c) = take n (drop (Z.to_nat (data_pos c)) (data_fifo c)).
Proof.
  induction n as [|n IH]; intros c H0 Hn Hl; [reflexivity|].
  cbn [read_register]. unfold CDROM_Read. change (Z.land 0x1F801802 3) with 2. cbv iota.
  rewrite (proj2 (Z.ltb_lt (data_pos c) (data_len c))) by lia.
  specialize (IH (c <| data_pos ::= Z.add 1 |>)). cbn -[zlen Z.to_nat] in IH. rewrite drop_aget by lia.
  specialize (IH ltac:(lia) ltac:(lia) Hl). destruct (read_register _ n _) as [vs c']. cbn [fst] in *.
  rewrite IH. reflexivity.
Qed.

(** ** Every command is answered *)

(** A first response is on its way, due 4000 cycles after [now]. *)
Record answered (now : Z) (x : CdSys) : Prop := {
  an_deferred : has_deferred (fst x) = true /\ busy (fst x) = true;
  an_int : deferred_int (fst x) = 3 \/ deferred_int (fst x) = 5;
  an_count : 1 <= deferred_count (fst x) <= 8;
  an_active : active_at (sched (snd x)) SCHED_EVENT_CDROM_DEFERRED = true;
  an_deadline : deadline_at (sched (snd x)) SCHED_EVENT_CDROM_DEFERRED = u64 (now + 4000);
  an_callback : callback_at (sched (snd x)) SCHED_EVENT_CDROM_DEFERRED = Some CDROM_DeferredCallback;
  an_wf : wf_sched (sched (snd x));
  an_now : global_cycles (snd x) = now
}.

Lemma queue_answers bs k x : wf_sched (sched (snd x)) -> 1 <= zlen bs <= 8 -> k = 3 \/ k = 5 ->
  answered (global_cycles (snd x)) (cdrom_queue_response bs k x).
Proof.
  intros Hwf Hbs Hk. unfold cdrom_queue_response, cd_schedule, upd_cd. cbv zeta.
  destruct (Sched_Add_at (sched (snd x)) SCHED_EVENT_CDROM_DEFERRED (u64 (global_cycles (snd x) + 4000))
    CDROM_DeferredCallback SCHED_EVENT_CDROM_DEFERRED Hwf) as (H1 & H2 & H3);
    try (unfold SCHED_EVENT_CDROM_DEFERRED; lia).
  rewrite Z.eqb_refl in H1, H2, H3.
  split; cbn -[zlen Sched_Add take]; try assumption; try reflexivity.
  - split; reflexivity.
  - unfold zlen in *. rewrite length_take. lia.
  - apply Sched_Add_wf; [exact Hwf | apply u64_range].
Qed.

Lemma pending_answers now bs k d x : answered now x -> answered now (cdrom_queue_pending bs k d x).
Proof. intros []. split; assumption. Qed.

Lemma upd_answers now f x : answered now x ->
  (forall c, has_deferred (f c) = has_deferred c /\ busy (f c) = busy c /\
             deferred_int (f c) = deferred_int c /\ deferred_count (f c) = deferred_count c) ->
  answered now (upd_cd f x).
Proof.
  intros [ [H1 H2] H3 H4 H5 H6 H7 H8 H9] Hf. destruct (Hf (fst x)) as (E1 & E2 & E3 & E4).
  split; cbn [fst snd upd_cd]; rewrite ?E1, ?E2, ?E3, ?E4; auto.
Qed.

Lemma schedule_answers now ev d cb x : answered now x -> 0 <= ev < 10 -> ev <> SCHED_EVENT_CDROM_DEFERRED ->
  answered now (cd_schedule ev d cb x).
Proof.
  intros [H1 H3 H4 H5 H6 H7 H8 H9] Hev Hne. destruct x as [c y]. cbn [fst snd] in *.
  destruct (Sched_Add_at (sched y) ev (u64 (global_cycles y + d)) cb SCHED_EVENT_CDROM_DEFERRED H8 Hev) as (E1 & E2 & E3);
    [unfold SCHED_EVENT_CDROM_DEFERRED; lia|].
  rewrite (proj2 (Z.eqb_neq _ _) Hne) in E1, E2, E3.
  split; cbn -[Sched_Add]; rewrite ?E1, ?E2, ?E3; try assumption.
  apply Sched_Add_wf; [exact H8 | apply u64_range].
Qed.

Lemma ack_then_complete_answers d x : wf_sched (sched (snd x)) ->
  answered (global_cycles (snd x)) (ack_then_complete d x).
Proof. intros Hwf. unfold ack_then_complete, ack_stat. apply pending_answers, queue_answers; [exact Hwf | split; vm_compute; discriminate | auto]. Qed.

Lemma queue_answers_at now bs k x : wf_sched (sched (snd x)) -> global_cycles (snd x) = now ->
  1 <= zlen bs <= 8 -> k = 3 \/ k = 5 -> answered now (cdrom_queue_response bs k x).
Proof. intros Hwf <-. apply queue_answers, Hwf. Qed.

Lemma ack_answers_at now d x : wf_sched (sched (snd x)) -> global_cycles (snd x) = now ->
  answered now (ack_then_complete d x).
Proof. intros Hwf <-. apply ack_then_complete_answers, Hwf. Qed.

Ltac cd_bytes := first [ now left | now right | split; vm_compute; discriminate ].

Ltac answer_command Hwf :=
  lazymatch goal with
  | |- answered _ (cd_schedule _ _ _ _) =>
    apply schedule_answers; [answer_command Hwf | split; [discriminate | reflexivity] | discriminate]
  | |- answered _ (cdrom_queue_pending _ _ _ _) => apply pending_answers; answer_command Hwf
  | |- answered _ (ack_then_complete _ _) => apply ack_answers_at; [exact Hwf | reflexivity]
  | |- answered _ (cdrom_queue_response _ _ _) =>
    apply queue_answers_at; [exact Hwf | reflexivity | cd_bytes | cd_bytes]
  end.

Lemma command_answers cmd x : wf_sched (sched (snd x)) ->
  answered (global_cycles (snd x)) (cdrom_execute_command cmd x).
Proof.
  intros Hwf. unfold cdrom_execute_command. set (x1 := upd_cd _ x).
  change (global_cycles (snd x)) with (global_cycles (snd x1)).
  assert (Hwf1 : wf_sched (sched (snd x1))) by exact Hwf. clearbody x1.
  apply upd_answers; [|intros c; repeat split].
  repeat case_match; subst;
    unfold cmd_setloc, cmd_play, cmd_read, cmd_motor_on, cmd_stop, cmd_pause, cmd_init, cmd_setmode, cmd_getparam,
      cmd_getlocl, cmd_getlocp, cmd_gettn, cmd_gettd, cmd_seek, cmd_test, cmd_getid, cmd_unknown, ack_stat;
    repeat case_match; answer_command Hwf1.
Qed.

Lemma status_response c : response_read_pos c < response_count c -> tst (status_register c) 0x20 = true.
Proof.
  intros H. unfold status_register. rewrite (proj2 (Z.ltb_lt _ _) H). change 0x20 with (2 ^ 5).
  rewrite tst_pow2 by lia.
  repeat match goal with |- context [if ?b then _ else _] => destruct b end;
    rewrite ?Z.lor_spec; change (Z.testbit (2 ^ 5) 5) with true; rewrite ?orb_true_r; reflexivity.
Qed.

(** [C37] A command that nothing overtakes is answered.  Writing any byte to
    the command register leaves the controller busy with a first response due
    4000 cycles later; when [CDROM_DeferredCallback] then runs on the
    controller as the write left it (no sector, no second command and no other
    register access in between), whatever the state of the rest of the
    machine, the controller is no longer busy, the interrupt flag is 3 or 5,
    the status register shows the response, the response register reads the
    queued 1 to 8 bytes in order, the parameter FIFO is empty, and the
    assertion of I_STAT is armed 800 cycles later. *)
Theorem command_answered cmd late x y' : cd_ok (fst x) -> wf_sched (sched (snd x)) -> wf_sched (sched y') ->
  index (fst x) = 0 ->
  let x1 := CDROM_Write 0x1F801801 cmd x in
  let x2 := CDROM_Deferred late (fst x1, y') in
  answered (global_cycles (snd x)) x1 /\
  busy (fst x2) = false /\ (int_flag (fst x2) = 3 \/ int_flag (fst x2) = 5) /\
  param_count (fst x2) = 0 /\ tst (status_register (fst x2)) 0x20 = true /\
  (exists n, (1 <= n <= 8)%nat /\ Z.of_nat n = deferred_count (fst x1) /\
   fst (read_register 0x1F801801 n (fst x2)) = take n (deferred_response (fst x1))) /\
  active_at (sched (snd x2)) SCHED_EVENT_CDROM_IRQ = true /\
  deadline_at (sched (snd x2)) SCHED_EVENT_CDROM_IRQ = u64 (global_cycles y' + 800).
Proof.
  intros Hok Hwf Hwf' Hi x1 x2.
  assert (E1 : x1 = cdrom_execute_command (Z.land cmd 0xFF) (upd_cd (fun c => c <| busy := true |>) x)).
  { subst x1. unfold CDROM_Write. change (Z.land 0x1F801801 3) with 1. cbv iota zeta. rewrite Hi. reflexivity. }
  assert (Ha : answered (global_cycles (snd x)) x1)
    by (rewrite E1; apply (command_answers _ (upd_cd (fun c => c <| busy := true |>) x)), Hwf).
  assert (Hok1 : cd_ok (fst x1)) by (apply write_ok, Hok).
  assert (Hp : param_count (fst x1) = 0) by (rewrite E1; reflexivity).
  split; [exact Ha|]. clear E1. clearbody x1. destruct Ha as [ [Hd _] Hk Hn _ _ _ _ _].
  pose proof (ok_resp _ Hok1) as [Hlr _]. pose proof (ok_def _ Hok1) as [Hld _].
  assert (E2 : x2 = cdrom_deliver_deferred (fst x1, y')) by (subst x2; unfold CDROM_Deferred; cbn [fst]; rewrite Hd; reflexivity).
  clearbody x2. unfold cdrom_deliver_deferred in E2. cbn [fst] in E2. rewrite Hd in E2. cbn [negb] in E2.
  set (c2 := fst x2). assert (Ec : c2 = (fst x1)
    <| response_fifo := copy_over (response_fifo (fst x1)) (take (Z.to_nat (deferred_count (fst x1))) (deferred_response (fst x1))) |>
    <| response_count := deferred_count (fst x1) |> <| response_read_pos := 0 |>
    <| int_flag := deferred_int (fst x1) |> <| has_deferred := false |> <| busy := false |>)
    by (subst c2 x2; unfold arm_irq; rewrite schedule_fst; reflexivity).
  clearbody c2. split; [subst c2; reflexivity|]. split; [subst c2; exact Hk|]. split; [subst c2; exact Hp|].
  split; [|split].
  - apply status_response. subst c2. cbn. lia.
  - exists (Z.to_nat (deferred_count (fst x1))). split; [lia|]. split; [lia|].
    rewrite read_responses; [| subst c2; cbn; lia ..|].
    + subst c2. cbn -[copy_over take drop Z.to_nat]. change (Z.to_nat 0) with 0%nat. rewrite drop_0.
      unfold copy_over. rewrite take_app_le by (rewrite length_take; unfold zlen in *; lia).
      rewrite take_take, Nat.min_id. reflexivity.
    + subst c2. cbn -[zlen copy_over take Z.to_nat]. rewrite zlen_copy_over; [lia|].
      pose proof (zlen_take_le (deferred_response (fst x1)) (deferred_count (fst x1)) ltac:(lia)). lia.
  - subst x2. unfold arm_irq, cd_schedule, irq_off, upd_cd. cbn -[Sched_Add].
    destruct (Sched_Add_at (sched y') SCHED_EVENT_CDROM_IRQ (u64 (global_cycles y' + 800))
      CDROM_DeferredIRQActivate SCHED_EVENT_CDROM_IRQ Hwf') as (H1 & H2 & _);
      try (unfold SCHED_EVENT_CDROM_IRQ; lia).
    rewrite Z.eqb_refl in H1, H2. split; assumption.
Qed.

Lemma command_answered_witness :
  let x2 := CDROM_Deferred 0 (fst (CDROM_Write 0x1F801801 0x13 (CDROM_Init, sys0)), sys0) in
  busy (fst x2) = false /\ fst (read_register 0x1F801801 3 (fst x2)) = [0x10; 1; 1].
Proof.
  pose proof (command_answered 0x13 0 (CDROM_Init, sys0) sys0 CDROM_Init_ok Sched_Init_wf Sched_Init_wf eq_refl) as H.
  cbv zeta in H. destruct H as (_ & Hb & _ & _ & _ & (n & _ & Hn & Hr) & _).
  split; [exact Hb|]. replace (deferred_count _) with 3 in Hn by (vm_compute; reflexivity).
  assert (n = 3%nat) as -> by lia. rewrite Hr. vm_compute. reflexivity.
Defined.

(** ** The second response *)

(** The second response.  Acknowledging every bit of the interrupt flag
    while a second response waits arms [CDROM_PendingCallback] at the later of
    its own deadline and 200 cycles from now, and cancels a signal still on its
    way; when the callback runs with the flag clear, the response register
    reads the queued bytes, the flag is the queued type, and the response is
    delivered once. *)
Theorem second_response val late x y' : cd_ok (fst x) -> wf_sched (sched (snd x)) ->
  index (fst x) = 1 -> has_pending (fst x) = true -> 0 <= int_flag (fst x) <= 5 -> Z.land val 7 = 7 ->
  let x1 := CDROM_Write 0x1F801803 val x in
  let x2 := CDROM_Pending late (fst x1, y') in
  int_flag (fst x1) = 0 /\
  active_at (sched (snd x1)) SCHED_EVENT_CDROM_IRQ = false /\
  active_at (sched (snd x1)) SCHED_EVENT_CDROM_PENDING = true /\
  deadline_at (sched (snd x1)) SCHED_EVENT_CDROM_PENDING =
    (if pending_deadline (fst x) <=? global_cycles (snd x)
     then u64 (global_cycles (snd x) + 200) else pending_deadline (fst x)) /\
  callback_at (sched (snd x1)) SCHED_EVENT_CDROM_PENDING = Some CDROM_PendingCallback /\
  int_flag (fst x2) = pending_int (fst x) /\ has_pending (fst x2) = false /\
  fst (read_register 0x1F801801 (Z.to_nat (pending_count (fst x))) (fst x2))
    = take (Z.to_nat (pending_count (fst x))) (pending_response (fst x)).
Proof.
  intros Hok Hwf Hi Hp Hf Hv x1 x2.
  assert (Hf0 : Z.land (int_flag (fst x)) (not32 (Z.land (Z.land val 255) 7)) = 0).
  { rewrite <- Z.land_assoc. change (Z.land 255 7) with 7. rewrite Hv.
    assert (int_flag (fst x) = 0 \/ int_flag (fst x) = 1 \/ int_flag (fst x) = 2 \/ int_flag (fst x) = 3 \/
            int_flag (fst x) = 4 \/ int_flag (fst x) = 5) as E by lia.
    destruct E as [-> | [-> | [-> | [-> | [-> | -> ] ] ] ] ]; reflexivity. }
  pose proof (ok_resp _ Hok) as [Hlr _]. pose proof (ok_pend _ Hok) as [Hlp Hpc].
  assert (E1 : exists c, fst x1 = c /\ int_flag c = 0 /\ has_pending c = true /\
    pending_response c = pending_response (fst x) /\ pending_count c = pending_count (fst x) /\
    pending_int c = pending_int (fst x) /\ response_fifo c = response_fifo (fst x) /\
    sched (snd x1) = Sched_Add SCHED_EVENT_CDROM_PENDING
      (if pending_deadline (fst x) <=? global_cycles (snd x) then u64 (global_cycles (snd x) + 200) else pending_deadline (fst x))
      CDROM_PendingCallback (Sched_Remove SCHED_EVENT_CDROM_IRQ (sched (snd x)))).
  { eexists. split; [reflexivity|]. subst x1. unfold CDROM_Write. rewrite Hi.
    change (Z.land 0x1F801803 3) with 3. cbv iota zeta. unfold write_int_flag, upd_cd. cbn -[Z.land not32 tst Sched_Add Sched_Remove].
    rewrite Hf0. destruct (tst _ 64); cbn -[Sched_Add Sched_Remove Z.land not32]; rewrite Hf0, Hp;
      cbn -[Sched_Add Sched_Remove Z.land not32]; repeat split; first [exact Hf0 | exact Hp | reflexivity]. }
  destruct E1 as (c & Ec & H1 & H2 & H3 & H4 & H5 & H6 & Es). rewrite Es, Ec.
  assert (Hwf' := Sched_Remove_wf _ SCHED_EVENT_CDROM_IRQ Hwf).
  set (d := if _ <=? _ then _ else _). clearbody d.
  destruct (Sched_Add_at (Sched_Remove SCHED_EVENT_CDROM_IRQ (sched (snd x))) SCHED_EVENT_CDROM_PENDING d
    CDROM_PendingCallback SCHED_EVENT_CDROM_PENDING Hwf') as (A1 & A2 & A3);
    [unfold SCHED_EVENT_CDROM_PENDING; lia ..|].
  destruct (Sched_Add_at (Sched_Remove SCHED_EVENT_CDROM_IRQ (sched (snd x))) SCHED_EVENT_CDROM_PENDING d
    CDROM_PendingCallback SCHED_EVENT_CDROM_IRQ Hwf') as (B1 & _);
    [unfold SCHED_EVENT_CDROM_PENDING, SCHED_EVENT_CDROM_IRQ; lia ..|].
  rewrite Z.eqb_refl in A1, A2, A3. change (SCHED_EVENT_CDROM_PENDING =? SCHED_EVENT_CDROM_IRQ) with false in B1.
  assert (E2 : fst x2 = c <| response_fifo := copy_over (response_fifo c) (take (Z.to_nat (pending_count c)) (pending_response c)) |>
    <| response_count := pending_count c |> <| response_read_pos := 0 |>
    <| int_flag := pending_int c |> <| has_pending := false |>).
  { subst x2. rewrite Ec. unfold CDROM_Pending, cdrom_deliver_pending. cbn [fst]. rewrite H1, H2.
    cbn [andb negb Z.eqb]. unfold arm_irq. rewrite schedule_fst. reflexivity. }
  split; [exact H1|]. split; [rewrite B1; apply (Sched_Remove_at _ SCHED_EVENT_CDROM_IRQ SCHED_EVENT_CDROM_IRQ Hwf);
    unfold SCHED_EVENT_CDROM_IRQ; lia|].
  do 3 (split; [assumption|]). rewrite E2. do 2 (split; [cbn; congruence|]).
  rewrite read_responses; cbn -[zlen copy_over take Z.to_nat]; rewrite ?H3, ?H4, ?H6; try lia.
  - change (Z.to_nat 0) with 0%nat. rewrite drop_0. unfold copy_over.
    rewrite take_app_le by (rewrite length_take; unfold zlen in *; lia). rewrite take_take, Nat.min_id. reflexivity.
  - rewrite zlen_copy_over; [lia|]. pose proof (zlen_take_le (pending_response (fst x)) (pending_count (fst x)) ltac:(lia)). lia.
Qed.

(** GetID with a disc, with the first response already acknowledged. *)
Definition getid_pending : CdSys :=
  let x := CDROM_Write 0x1F801801 0x1A (CDROM_InsertDisc CDROM_Init, sys0) in
  CDROM_Write 0x1F801800 1 (CDROM_Deferred 0 x).

Lemma second_response_witness :
  fst (read_register 0x1F801801 8 (fst (CDROM_Pending 0 (fst (CDROM_Write 0x1F801803 7 getid_pending), sys0))))
  = [0x02; 0x00; 0x20; 0x00; 83; 67; 69; 65].
Proof.
  assert (Hok : cd_ok (fst getid_pending)) by (split; vm_compute; repeat split; discriminate).
  assert (Hs : sched (snd getid_pending) = Sched_Add SCHED_EVENT_CDROM_IRQ 800 CDROM_DeferredIRQActivate
    (Sched_Add SCHED_EVENT_CDROM_DEFERRED 4000 CDROM_DeferredCallback Sched_Init)) by (vm_compute; reflexivity).
  assert (Hwf : wf_sched (sched (snd getid_pending)))
    by (rewrite Hs; apply Sched_Add_wf; [apply Sched_Add_wf; [apply Sched_Init_wf|] |]; unfold is_u64; lia).
  assert (Hi : index (fst getid_pending) = 1) by (vm_compute; reflexivity).
  assert (Hp : has_pending (fst getid_pending) = true) by (vm_compute; reflexivity).
  assert (Hf : 0 <= int_flag (fst getid_pending) <= 5) by (vm_compute; split; discriminate).
  assert (Hn : pending_count (fst getid_pending) = 8) by (vm_compute; reflexivity).
  pose proof (second_response 7 0 getid_pending sys0 Hok Hwf Hi Hp Hf eq_refl) as H.
  cbv zeta in H. destruct H as (_ & _ & _ & _ & _ & _ & _ & H).
  rewrite Hn in H. change (Z.to_nat 8) with 8%nat in H. rewrite H. vm_compute. reflexivity.
Defined.

(** ** Sectors *)

(** What a program does per sector: wait for INT1, take the 2048 bytes by
    DMA, acknowledge. *)
Definition sector_round (iso : IsoState) (x : CdSys) : list Z * CdSys :=
  let '(c, y) := CDROM_Deferred 0 (CDROM_Event iso 0 x) in
  let '(bs, c) := cdrom_read_data_fifo ISO_SECTOR_SIZE c in
  (bs, CDROM_Write 0x1F801803 7 (c, y)).

Fixpoint sector_stream (iso : IsoState) (n : nat) (x : CdSys) : list (list Z) * CdSys :=
  match n with
  | O => ([], x)
  | S n =>
    let '(bs, x) := sector_round iso x in
    let '(l, x) := sector_stream iso n x in (bs :: l, x)
  end.

(** Reading, past the seek, nothing outstanding, the flag register selected. *)
Record ready (lba : Z) (c : Cdrom) : Prop := {
  rd_reading : reading c = true; rd_seek : seek_pending c = false;
  rd_flag : int_flag c = 0; rd_pending : has_pending c = false;
  rd_index : index c = 1; rd_lba : cur_lba c = lba; rd_data : zlen (data_fifo c) = 2352
}.

Lemma upd_fst f x : fst (upd_cd f x) = f (fst x).
Proof. reflexivity. Qed.

Lemma queue_response_fst bs k x : fst (cdrom_queue_response bs k x) = (fst x)
  <| deferred_response := copy_over (deferred_response (fst x)) (take 16 bs) |> <| deferred_count := zlen (take 16 bs) |>
  <| deferred_int := k |> <| has_deferred := true |> <| busy := true |>.
Proof. unfold cdrom_queue_response. rewrite schedule_fst. reflexivity. Qed.

Lemma deliver_deferred_fst late x : has_deferred (fst x) = true -> fst (CDROM_Deferred late x) = (fst x)
  <| response_fifo := copy_over (response_fifo (fst x))
       (take (Z.to_nat (deferred_count (fst x))) (deferred_response (fst x))) |>
  <| response_count := deferred_count (fst x) |> <| response_read_pos := 0 |>
  <| int_flag := deferred_int (fst x) |> <| has_deferred := false |> <| busy := false |>.
Proof.
  intros H. unfold CDROM_Deferred. rewrite H. unfold cdrom_deliver_deferred. rewrite H. cbn [negb].
  unfold arm_irq. rewrite schedule_fst. reflexivity.
Qed.

Lemma ack_fst x : index (fst x) = 1 ->
  fst (CDROM_Write 0x1F801803 7 x) = (fst x) <| int_flag ::= fun f => Z.land f (not32 7) |>.
Proof.
  intros Hi. unfold CDROM_Write. rewrite Hi. change (Z.land 0x1F801803 3) with 3.
  change (Z.land 7 255) with 7. cbv iota zeta. unfold write_int_flag.
  change (tst 7 64) with false. change (Z.land 7 7) with 7. cbv iota zeta.
  set (x1 := upd_cd _ x). assert (E : (fst x) <| int_flag ::= fun f => Z.land f (not32 7) |> = fst x1) by reflexivity. rewrite E. clearbody x1. clear E.
  destruct (_ =? 0); destruct x1 as [c y]; cbn [fst snd]; destruct (_ && _); reflexivity.
Qed.

Lemma sector_round_spec iso x lba : ready lba (fst x) ->
  fst (sector_round iso x) = next_sector iso (fst x) /\ ready (u32 (lba + 1)) (fst (snd (sector_round iso x))).
Proof.
  intros [H1 H2 H3 H4 H5 H6 H7]. destruct x as [c y]. cbn [fst] in *.
  pose proof (zlen_next_sector iso c) as Hn. assert (Hl : length (next_sector iso c) = Z.to_nat 2048) by (unfold zlen in Hn; lia).
  set (sec := next_sector iso c) in *.
  set (cE := fst (CDROM_Event iso 0 (c, y))).
  assert (HE : cE = c <| data_fifo := copy_over (data_fifo c) sec |> <| data_pos := 0 |> <| data_len := ISO_SECTOR_SIZE |>
    <| deferred_response := copy_over (deferred_response c) [stat c] |> <| deferred_count := 1 |>
    <| deferred_int := 1 |> <| has_deferred := true |> <| busy := true |>
    <| cur_lba ::= fun l => u32 (l + 1) |> <| location_changed := false |>).
  { subst cE. unfold CDROM_Event. cbn [fst]. rewrite H1, H2, H3, H4. cbn [negb orb Z.eqb].
    unfold deliver_sector. cbv zeta. rewrite schedule_fst, !upd_fst, queue_response_fst. reflexivity. }
  assert (HD : fst (CDROM_Deferred 0 (CDROM_Event iso 0 (c, y))) = cE
    <| response_fifo := copy_over (response_fifo cE) (take (Z.to_nat (deferred_count cE)) (deferred_response cE)) |>
    <| response_count := deferred_count cE |> <| response_read_pos := 0 |>
    <| int_flag := deferred_int cE |> <| has_deferred := false |> <| busy := false |>)
    by (apply deliver_deferred_fst; fold cE; rewrite HE; reflexivity).
  unfold sector_round. destruct (CDROM_Deferred 0 _) as [cD yD]. cbn [fst] in HD. clearbody cE. subst cD cE.
  unfold cdrom_read_data_fifo, ISO_SECTOR_SIZE. cbn -[zlen copy_over take drop Z.to_nat CDROM_Write u32].
  change (u32 (2048 - 0)) with 2048. cbn -[zlen copy_over take drop Z.to_nat CDROM_Write u32]. split.
  - change (Z.to_nat 0) with 0%nat. rewrite drop_0. unfold copy_over. rewrite <- Hl. apply take_app_length.
  - rewrite ack_fst by exact H5. split; cbn -[zlen copy_over u32]; try assumption; try reflexivity; [congruence|].
    rewrite zlen_copy_over; lia.
Qed.

(** [C11] Reading delivers the disc.  From a state that is past its seek with
    nothing outstanding at position [lba], [n] rounds of INT1, DMA and
    acknowledge hand over exactly the sectors [lba-150], [lba-149], ... of the
    mounted image, 2048 bytes each and in order, and leave the drive ready at
    [lba+n]. *)
Theorem sector_delivery iso n : forall lba x, ready lba (fst x) -> PREGAP_LBA <= lba -> lba + Z.of_nat n < 4294967296 ->
  let '(secs, x') := sector_stream iso n x in
  secs = map (fun k => if ISO_IsLoaded iso
                       then default (repeat 0 (Z.to_nat 2048)) (ISO_ReadSector (lba - 150 + k) iso)
                       else repeat 0 (Z.to_nat 2048)) (zseq n) /\
  ready (lba + Z.of_nat n) (fst x').
Proof.
  induction n as [|n IH]; intros lba x Hr Hl Hb; [split; [reflexivity | replace (lba + _) with lba by lia; exact Hr]|].
  cbn [sector_stream]. pose proof (sector_round_spec iso x lba Hr) as [Hs Hr'].
  destruct (sector_round iso x) as [bs x1]. cbn [fst snd] in Hs, Hr'.
  rewrite u32_small in Hr' by (unfold is_u32, PREGAP_LBA in *; lia).
  specialize (IH (lba + 1) x1 Hr' ltac:(lia) ltac:(lia)). destruct (sector_stream iso n x1) as [secs x'].
  destruct IH as [-> IH]. replace (lba + Z.of_nat (S n)) with (lba + 1 + Z.of_nat n) by lia. split; [|exact IH].
  change (zseq (S n)) with (0 :: map Z.of_nat (seq 1 n)). rewrite <- seq_shift, map_map. cbn [map]. f_equal.
  - rewrite Hs. unfold next_sector. rewrite (rd_lba _ _ Hr), (proj2 (Z.leb_le _ _) Hl).
    rewrite Z.add_0_r. reflexivity.
  - unfold zseq. rewrite !map_map. apply map_ext. intros k.
    replace (lba + 1 - 150 + Z.of_nat k) with (lba - 150 + Z.of_nat (S k)) by lia. reflexivity.
Qed.

(** Reading at 00:02:00, nothing outstanding. *)
Definition cd_reading : Cdrom :=
  CDROM_Init <| reading := true |> <| index := 1 |> <| cur_lba := 150 |> <| stat := 0x22 |> <| disc_present := true |>.

Lemma cd_reading_ready : ready 150 cd_reading.
Proof. split; vm_compute; reflexivity. Qed.

Lemma sector_delivery_witness :
  fst (sector_stream (snd (ISO_Open example_host [97] iso_empty)) 2 (cd_reading, sys0))
  = [repeat 7 (Z.to_nat 2048); repeat 7 (Z.to_nat 2048)].
Proof.
  pose proof (sector_delivery (snd (ISO_Open example_host [97] iso_empty)) 2 150 (cd_reading, sys0)
    cd_reading_ready ltac:(unfold PREGAP_LBA; lia) ltac:(lia)) as H.
  destruct (sector_stream _ _ _) as [secs x']. destruct H as [H _]. cbn [fst]. rewrite H. vm_compute. reflexivity.
Defined.

(** The sector callback looks at the interrupt flag and at the second
    response, not at a first response still on its way: if a command was
    issued within the last 4000 cycles, its INT3 is overwritten by the INT1,
    and after the delivery nothing is left of it.  A command's response can
    be lost for good. *)
Theorem sector_event_drops_response iso late late' x lba y' : ready lba (fst x) ->
  has_deferred (fst x) = true -> deferred_int (fst x) = 3 ->
  let x1 := CDROM_Event iso late x in
  let x2 := CDROM_Deferred late' (fst x1, y') in
  deferred_int (fst x1) = 1 /\ deferred_count (fst x1) = 1 /\
  int_flag (fst x2) = 1 /\ response_count (fst x2) = 1 /\ has_deferred (fst x2) = false /\ has_pending (fst x2) = false /\
  busy (fst x2) = false.
Proof.
  intros [H1 H2 H3 H4 H5 H6 H7] Hd Hk x1 x2. destruct x as [c y]. cbn [fst] in *.
  assert (E1 : fst x1 = fst (deliver_sector iso (c, y)))
    by (subst x1; unfold CDROM_Event; cbn [fst]; rewrite H1, H2, H3, H4; reflexivity).
  unfold deliver_sector in E1. cbv zeta in E1. rewrite schedule_fst, !upd_fst, queue_response_fst in E1.
  assert (E2 : has_deferred (fst (fst x1, y')) = true) by (cbn [fst]; rewrite E1; reflexivity).
  subst x2. rewrite (deliver_deferred_fst late' (fst x1, y') E2). cbn [fst] in *. rewrite E1.
  repeat split; try reflexivity. exact H4.
Qed.

Lemma sector_event_drops_response_witness :
  let x := (fst (cmd_getparam (cd_reading, sys0)), sys0) in
  has_deferred (fst x) = true /\ deferred_count (fst x) = 6 /\
  response_count (fst (CDROM_Deferred 0 (fst (CDROM_Event iso_empty 0 x), sys0))) = 1.
Proof.
  intros x. assert (Hr : ready 150 (fst x)) by (split; vm_compute; reflexivity).
  assert (Hd : has_deferred (fst x) = true) by (vm_compute; reflexivity).
  assert (Hk : deferred_int (fst x) = 3) by (vm_compute; reflexivity).
  split; [exact Hd|]. split; [vm_compute; reflexivity|].
  apply (sector_event_drops_response iso_empty 0 0 x 150 sys0 Hr Hd Hk).
Defined.

(** The pace of the sectors: each INT1 is followed by the next event one
    read delay later, a second over 75 or over 150; after a SetLoc the extra
    factor 30 comes after the first sector and not before it. *)
Theorem sector_pace iso late x lba : ready lba (fst x) -> wf_sched (sched (snd x)) ->
  let x' := CDROM_Event iso late x in
  deferred_int (fst x') = 1 /\ location_changed (fst x') = false /\
  active_at (sched (snd x')) SCHED_EVENT_CDROM = true /\
  callback_at (sched (snd x')) SCHED_EVENT_CDROM = Some CDROM_EventCallback /\
  deadline_at (sched (snd x')) SCHED_EVENT_CDROM =
    u64 (global_cycles (snd x) + (if location_changed (fst x) then 30 else 1) *
      (33868800 / (if tst (cd_mode (fst x)) 0x80 then 150 else 75))).
Proof.
  intros [H1 H2 H3 H4 H5 H6 H7] Hwf x'. destruct x as [c y]. cbn [fst snd] in *.
  assert (E1 : x' = deliver_sector iso (c, y))
    by (subst x'; unfold CDROM_Event; cbn [fst]; rewrite H1, H2, H3, H4; reflexivity).
  clearbody x'. subst x'. unfold deliver_sector, cdrom_queue_response, cd_schedule, upd_cd.
  cbn -[Sched_Add copy_over take next_sector u32 cdrom_read_delay Z.mul].
  do 2 (split; [reflexivity|]).
  match goal with |- context [Sched_Add SCHED_EVENT_CDROM ?d ?cb ?s] =>
    destruct (Sched_Add_at s SCHED_EVENT_CDROM d cb SCHED_EVENT_CDROM) as (A1 & A2 & A3);
      [apply Sched_Add_wf; [exact Hwf | apply u64_range] | unfold SCHED_EVENT_CDROM; lia ..|] end.
  rewrite Z.eqb_refl in A1, A2, A3. rewrite A1, A2, A3. do 2 (split; [reflexivity|]).
  unfold cdrom_read_delay. cbn -[Z.mul tst]. destruct (location_changed c), (tst (cd_mode c) 128); reflexivity.
Qed.

Lemma sector_pace_witness :
  deadline_at (sched (snd (CDROM_Event iso_empty 0 (cd_reading <| location_changed := true |>, sys0)))) SCHED_EVENT_CDROM
  = 30 * 451584.
Proof.
  assert (Hr : ready 150 (cd_reading <| location_changed := true |>)) by (split; vm_compute; reflexivity).
  pose proof (sector_pace iso_empty 0 (cd_reading <| location_changed := true |>, sys0) 150 Hr Sched_Init_wf) as H.
  cbv zeta in H. destruct H as (_ & _ & _ & _ & H). rewrite H. vm_compute. reflexivity.
Defined.
