(* ===== verification/Gte.v ===== *)
(** * The geometry engine ([src/gte.c])

    The 32 data and 32 control registers of coprocessor 2, its 22 commands and
    the FLAG register.  This is the exact path, the one compiled without [_EE]
    and [PLATFORM_PSP] (on the consoles: [gte_use_vu0] and [gte_use_vfpu]
    zero); the VU0 and VFPU paths are inline assembly in floating point.
    Commands are actions of a state monad over the registers and the static
    [gte_flag]. *)

From S2P Require Import Prelude Scheduler System.

(** ** Registers *)

Record Gte := mkGte { gdata : list Z; gctrl : list Z; gte_flag : Z }.
#[export] Instance eta_Gte : Eta Gte := fun g => mkGte (gdata g) (gctrl g) (gte_flag g).

(** The macros [D(n)] and [C(n)]. *)
Definition D (n : Z) (g : Gte) : Z := aget (gdata g) n.
Definition C (n : Z) (g : Gte) : Z := aget (gctrl g) n.

Definition d_VXY0 : Z := 0.
Definition d_VZ0 : Z := 1.
Definition d_VXY1 : Z := 2.
Definition d_VZ1 : Z := 3.
Definition d_VXY2 : Z := 4.
Definition d_VZ2 : Z := 5.
Definition d_RGBC : Z := 6.
Definition d_OTZ : Z := 7.
Definition d_IR0 : Z := 8.
Definition d_IR1 : Z := 9.
Definition d_IR2 : Z := 10.
Definition d_IR3 : Z := 11.
Definition d_SXY0 : Z := 12.
Definition d_SXY1 : Z := 13.
Definition d_SXY2 : Z := 14.
Definition d_SZ0 : Z := 16.
Definition d_SZ1 : Z := 17.
Definition d_SZ2 : Z := 18.
Definition d_SZ3 : Z := 19.
Definition d_RGB0 : Z := 20.
Definition d_RGB1 : Z := 21.
Definition d_RGB2 : Z := 22.
Definition d_MAC0 : Z := 24.
Definition d_MAC1 : Z := 25.
Definition d_MAC2 : Z := 26.
Definition d_MAC3 : Z := 27.

Definition c_RT11RT12 : Z := 0.
Definition c_RT13RT21 : Z := 1.
Definition c_RT22RT23 : Z := 2.
Definition c_RT31RT32 : Z := 3.
Definition c_RT33 : Z := 4.
Definition c_TRX : Z := 5.
Definition c_TRY : Z := 6.
Definition c_TRZ : Z := 7.
Definition c_RBK : Z := 13.
Definition c_RFC : Z := 21.
Definition c_GFC : Z := 22.
Definition c_BFC : Z := 23.
Definition c_OFX : Z := 24.
Definition c_OFY : Z := 25.
Definition c_H : Z := 26.
Definition c_DQA : Z := 27.
Definition c_DQB : Z := 28.
Definition c_ZSF3 : Z := 29.
Definition c_ZSF4 : Z := 30.
Definition c_FLAG : Z := 31.

(** ** The monad *)

Definition M (A : Type) : Type := Gte -> A * Gte.
Definition ret {A} (x : A) : M A := fun g => (x, g).
Definition bind {A B} (m : M A) (k : A -> M B) : M B := fun g => let '(x, g) := m g in k x g.
Definition gets {A} (f : Gte -> A) : M A := fun g => (f g, g).

Declare Scope gte_scope.
Delimit Scope gte_scope with gte.
Notation "'let*' x ':=' m 'in' k" := (bind m (fun x => k))
  (at level 10, x pattern, m at level 99, k at level 200) : gte_scope.
Notation "m1 ;; m2" := (bind m1 (fun _ => m2))
  (at level 100, m2 at level 200, right associativity) : gte_scope.
#[local] Open Scope gte_scope.

Definition setD (n v : Z) : M unit := fun g => (tt, g <| gdata ::= fun l => aset l n v |>).
Definition setC (n v : Z) : M unit := fun g => (tt, g <| gctrl ::= fun l => aset l n v |>).
Definition when (b : bool) (m : M unit) : M unit := if b then m else ret tt.

(** ** FLAG *)

Definition flag_reset : M unit := fun g => (tt, g <| gte_flag := 0 |>).
Definition flag_set (bit : Z) : M unit :=
  fun g => (tt, g <| gte_flag ::= fun f => Z.lor f (Z.shiftl 1 bit) |>).
Definition flag_update_bit31 : M unit :=
  fun g => (tt, g <| gte_flag ::= fun f => if tst f 0x7F87E000 then Z.lor f 0x80000000 else f |>).

(** ** Saturation *)

(** The cast to [int64_t]. *)
Definition s64 (x : Z) : Z :=
  let y := u64 x in if y <? 9223372036854775808 then y else y - 18446744073709551616.

Definition check_mac_overflow (val n : Z) : M unit :=
  when (0x7FFFFFFFFFF <? val) (flag_set (30 + 1 - n)) ;;
  when (val <? - 0x80000000000) (flag_set (27 + 1 - n)).

Definition wrap44 (val : Z) : Z := Z.shiftr (s64 (Z.shiftl val 20)) 20.
Definition trunc44 (val : Z) : Z := Z.shiftr (s64 (Z.shiftl val 20)) 20.

Definition check_mac0_overflow (val : Z) : M unit :=
  when (0x7FFFFFFF <? val) (flag_set 16) ;;
  when (val <? - 0x80000000) (flag_set 15).

Definition clamp (lo hi val : Z) : Z := if val <? lo then lo else if hi <? val then hi else val.
Definition outside (lo hi val : Z) : bool := (val <? lo) || (hi <? val).

Definition ir_low (lm : bool) : Z := if lm then 0 else - 0x8000.

Definition saturate_ir (val n : Z) (lm : bool) : M Z :=
  when (outside (ir_low lm) 0x7FFF val) (flag_set (24 + 1 - n)) ;;
  ret (clamp (ir_low lm) 0x7FFF val).

(** [saturate_ir0], [saturate_sx], [saturate_sy], [saturate_sz] and
    [saturate_color] set a flag and clamp. *)
Definition saturate (bit lo hi val : Z) : M Z :=
  when (outside lo hi val) (flag_set bit) ;; ret (clamp lo hi val).

Definition saturate_ir0 : Z -> M Z := saturate 12 0 0x1000.
Definition saturate_sx : Z -> M Z := saturate 14 (- 0x400) 0x3FF.
Definition saturate_sy : Z -> M Z := saturate 13 (- 0x400) 0x3FF.
Definition saturate_sz : Z -> M Z := saturate 18 0 0xFFFF.
Definition saturate_color (ch val : Z) : M Z := saturate (21 - ch) 0 0xFF val.

(** ** Accessors *)

Definition lo16 (v : Z) : Z := s16 (Z.land v 0xFFFF).
Definition hi16 (v : Z) : Z := s16 (Z.shiftr v 16).

Definition get_matrix (g : Gte) (mx row col : Z) : Z :=
  let packed base :=
    let i := row * 3 + col in
    let reg := base + i / 2 in
    if tst i 1 then hi16 (C reg g) else lo16 (C reg g) in
  match mx with
  | 0 => packed 0
  | 1 => packed 8
  | 2 => packed 16
  | _ =>
    let r := s16 (Z.land (D d_RGBC g) 0xFF) in
    match row * 3 + col with
    | 0 => s16 (- Z.shiftl r 4)
    | 1 => s16 (Z.shiftl r 4)
    | 2 => s16 (D d_IR0 g)
    | 3 | 4 | 5 => lo16 (C c_RT13RT21 g)
    | 6 | 7 | 8 => lo16 (C c_RT22RT23 g)
    | _ => 0
    end
  end.

Definition get_vector (g : Gte) (v comp : Z) : Z :=
  let pick xy z := if comp =? 0 then lo16 (D xy g) else if comp =? 1 then hi16 (D xy g) else s16 (D z g) in
  match v with
  | 0 => pick d_VXY0 d_VZ0
  | 1 => pick d_VXY1 d_VZ1
  | 2 => pick d_VXY2 d_VZ2
  | 3 => if comp =? 0 then s16 (D d_IR1 g) else if comp =? 1 then s16 (D d_IR2 g) else s16 (D d_IR3 g)
  | _ => 0
  end.

Definition get_translation (g : Gte) (cv comp : Z) : Z :=
  match cv with
  | 0 => s32 (C (c_TRX + comp) g)
  | 1 => s32 (C (c_RBK + comp) g)
  | 2 => s32 (C (c_RFC + comp) g)
  | _ => 0
  end.

(** ** Building blocks *)

Definition mac_shift (val : Z) (sf : bool) : Z := if sf then Z.shiftr val 12 else val.
Definition mul16 (a b : Z) : Z := a * b.

(** The table as the source writes it. *)
Definition gte_unr_table : list Z := [
  0xFF; 0xFD; 0xFB; 0xF9; 0xF7; 0xF5; 0xF3; 0xF1; 0xEF; 0xEE; 0xEC; 0xEA; 0xE8; 0xE6; 0xE4; 0xE3;
  0xE1; 0xDF; 0xDD; 0xDC; 0xDA; 0xD8; 0xD6; 0xD5; 0xD3; 0xD1; 0xD0; 0xCE; 0xCD; 0xCB; 0xC9; 0xC8;
  0xC6; 0xC5; 0xC3; 0xC1; 0xC0; 0xBE; 0xBD; 0xBB; 0xBA; 0xB8; 0xB7; 0xB5; 0xB4; 0xB2; 0xB1; 0xB0;
  0xAE; 0xAD; 0xAB; 0xAA; 0xA9; 0xA7; 0xA6; 0xA4; 0xA3; 0xA2; 0xA0; 0x9F; 0x9E; 0x9C; 0x9B; 0x9A;
  0x99; 0x97; 0x96; 0x95; 0x94; 0x92; 0x91; 0x90; 0x8F; 0x8D; 0x8C; 0x8B; 0x8A; 0x89; 0x87; 0x86;
  0x85; 0x84; 0x83; 0x82; 0x81; 0x7F; 0x7E; 0x7D; 0x7C; 0x7B; 0x7A; 0x79; 0x78; 0x77; 0x75; 0x74;
  0x73; 0x72; 0x71; 0x70; 0x6F; 0x6E; 0x6D; 0x6C; 0x6B; 0x6A; 0x69; 0x68; 0x67; 0x66; 0x65; 0x64;
  0x63; 0x62; 0x61; 0x60; 0x5F; 0x5E; 0x5D; 0x5D; 0x5C; 0x5B; 0x5A; 0x59; 0x58; 0x57; 0x56; 0x55;
  0x54; 0x53; 0x53; 0x52; 0x51; 0x50; 0x4F; 0x4E; 0x4D; 0x4D; 0x4C; 0x4B; 0x4A; 0x49; 0x48; 0x48;
  0x47; 0x46; 0x45; 0x44; 0x43; 0x43; 0x42; 0x41; 0x40; 0x3F; 0x3F; 0x3E; 0x3D; 0x3C; 0x3C; 0x3B;
  0x3A; 0x39; 0x39; 0x38; 0x37; 0x36; 0x36; 0x35; 0x34; 0x33; 0x33; 0x32; 0x31; 0x31; 0x30; 0x2F;
  0x2E; 0x2E; 0x2D; 0x2C; 0x2C; 0x2B; 0x2A; 0x2A; 0x29; 0x28; 0x28; 0x27; 0x26; 0x26; 0x25; 0x24;
  0x24; 0x23; 0x22; 0x22; 0x21; 0x20; 0x20; 0x1F; 0x1E; 0x1E; 0x1D; 0x1D; 0x1C; 0x1B; 0x1B; 0x1A;
  0x19; 0x19; 0x18; 0x18; 0x17; 0x16; 0x16; 0x15; 0x15; 0x14; 0x14; 0x13; 0x12; 0x12; 0x11; 0x11;
  0x10; 0x0F; 0x0F; 0x0E; 0x0E; 0x0D; 0x0D; 0x0C; 0x0C; 0x0B; 0x0A; 0x0A; 0x09; 0x09; 0x08; 0x08;
  0x07; 0x07; 0x06; 0x06; 0x05; 0x05; 0x04; 0x04; 0x03; 0x03; 0x02; 0x02; 0x01; 0x01; 0x00; 0x00;
  0x00].

(** The normalisation loop: at most 16 steps. *)
Fixpoint normalize (fuel : nat) (z d : Z) : Z * Z :=
  match fuel with
  | O => (z, d)
  | S fuel => if tst d 0x8000 then (z, d) else normalize fuel (z + 1) (u16 (Z.shiftl d 1))
  end.

(** The reciprocal of a normalised divisor. *)
Definition unr_reciprocal (d : Z) : Z :=
  let u_val := aget gte_unr_table (Z.shiftr (u32 (d - 0x7FC0)) 7) + 0x101 in
  let du := Z.shiftr (u32 (0x2000080 - u32 (d * u_val))) 8 in
  Z.shiftr (u32 (0x0000080 + u32 (du * u_val))) 8.

Definition unr_divide (h sz3 : Z) : Z :=
  let '(z, d) := normalize 16 0 sz3 in
  let n := Z.shiftl h z in
  let n := Z.shiftr (n * unr_reciprocal d + 0x8000) 16 in
  if 0x1FFFF <? n then 0x1FFFF else n.

Definition gte_divide (h sz3 : Z) : M Z :=
  if h <? sz3 * 2 then ret (unr_divide h sz3)
  else flag_set 17 ;; ret 0x1FFFF.

Definition push_sxy (sx sy : Z) : M unit :=
  let* sxy1 := gets (D d_SXY1) in setD d_SXY0 sxy1 ;;
  let* sxy2 := gets (D d_SXY2) in setD d_SXY1 sxy2 ;;
  let* sx := saturate_sx sx in
  let* sy := saturate_sy sy in
  setD d_SXY2 (Z.lor (u16 sx) (Z.shiftl (u16 sy) 16)).

Definition push_sz (val : Z) : M unit :=
  let* sz1 := gets (D d_SZ1) in setD d_SZ0 sz1 ;;
  let* sz2 := gets (D d_SZ2) in setD d_SZ1 sz2 ;;
  let* sz3 := gets (D d_SZ3) in setD d_SZ2 sz3 ;;
  let* sz := saturate_sz val in setD d_SZ3 sz.

Definition push_color : M unit :=
  let* rgb1 := gets (D d_RGB1) in setD d_RGB0 rgb1 ;;
  let* rgb2 := gets (D d_RGB2) in setD d_RGB1 rgb2 ;;
  let* mac1 := gets (D d_MAC1) in
  let* r := saturate_color 0 (Z.shiftr (s32 mac1) 4) in
  let* mac2 := gets (D d_MAC2) in
  let* g := saturate_color 1 (Z.shiftr (s32 mac2) 4) in
  let* mac3 := gets (D d_MAC3) in
  let* b := saturate_color 2 (Z.shiftr (s32 mac3) 4) in
  let* rgbc := gets (D d_RGBC) in
  let code := Z.land (Z.shiftr rgbc 24) 0xFF in
  setD d_RGB2 (u32 (Z.lor (Z.lor (Z.lor r (Z.shiftl g 8)) (Z.shiftl b 16)) (Z.shiftl code 24))).

(** MAC1..MAC3 from the accumulators. *)
Definition store_mac (m1 m2 m3 : Z) (sf : bool) : M unit :=
  setD d_MAC1 (u32 (mac_shift m1 sf)) ;;
  setD d_MAC2 (u32 (mac_shift m2 sf)) ;;
  setD d_MAC3 (u32 (mac_shift m3 sf)).

(** [IR<n>] from [MAC<n>]. *)
Definition ir_from_mac (n : Z) (lm : bool) : M unit :=
  let* mac := gets (D (d_MAC0 + n)) in
  let* ir := saturate_ir (s32 mac) n lm in
  setD (d_IR0 + n) (u32 ir).

Definition store_ir (lm : bool) : M unit := ir_from_mac 1 lm ;; ir_from_mac 2 lm ;; ir_from_mac 3 lm.

Definition check_macs (m1 m2 m3 : Z) : M unit :=
  check_mac_overflow m1 1 ;; check_mac_overflow m2 2 ;; check_mac_overflow m3 3.

Definition store_mac_ir (m1 m2 m3 : Z) (sf lm : bool) : M unit :=
  check_macs m1 m2 m3 ;; store_mac m1 m2 m3 sf ;; store_ir lm.

(** [MVMVA_STEP] and [RTPS_STEP]: the exact sum beside the 44-bit one. *)
Definition mac_step (ch prod : Z) (acc : Z * Z) : M (Z * Z) :=
  let unwrapped := snd acc + prod in
  check_mac_overflow unwrapped ch ;; ret (fst acc + prod, wrap44 unwrapped).

Definition mac_sum (ch t p1 p2 p3 : Z) : M Z :=
  check_mac_overflow t ch ;;
  let* acc := mac_step ch p1 (t, wrap44 t) in
  let* acc := mac_step ch p2 acc in
  let* acc := mac_step ch p3 acc in
  ret (fst acc).

(** ** Commands *)

(** The branch of [gte_mvmva] for the far colour, with the hardware's bug. *)
Definition mvmva_far_color (sf lm : bool) (mx v : Z) : M unit := fun g =>
  let vx := get_vector g v 0 in
  let vy := get_vector g v 1 in
  let vz := get_vector g v 2 in
  let m row col := get_matrix g mx row col in
  let fc k := Z.shiftl (s32 (C k g)) 12 in
  let last row := m row 1 * vy + m row 2 * vz in
  let first k row := fc k + m row 0 * vx in
  let b1 := first c_RFC 0 in
  let b2 := first c_GFC 1 in
  let b3 := first c_BFC 2 in
  (check_macs (last 0) (last 1) (last 2) ;;
   store_mac (last 0) (last 1) (last 2) sf ;;
   check_macs b1 b2 b3 ;;
   let* _ := saturate_ir (s32 (mac_shift b1 sf)) 1 false in
   let* _ := saturate_ir (s32 (mac_shift b2 sf)) 2 false in
   let* _ := saturate_ir (s32 (mac_shift b3 sf)) 3 false in
   store_ir lm) g.

Definition gte_mvmva (sf lm : bool) (mx v cv : Z) : M unit := fun g =>
  if cv =? 2 then mvmva_far_color sf lm mx v g
  else
    let vx := get_vector g v 0 in
    let vy := get_vector g v 1 in
    let vz := get_vector g v 2 in
    let tx i := if cv =? 3 then 0 else Z.shiftl (get_translation g cv i) 12 in
    let m row col := get_matrix g mx row col in
    (let* m1 := mac_sum 1 (tx 0) (m 0 0 * vx) (m 0 1 * vy) (m 0 2 * vz) in
     let* m2 := mac_sum 2 (tx 1) (m 1 0 * vx) (m 1 1 * vy) (m 1 2 * vz) in
     let* m3 := mac_sum 3 (tx 2) (m 2 0 * vx) (m 2 1 * vy) (m 2 2 * vz) in
     store_mac_ir m1 m2 m3 sf lm) g.

(** The end of [gte_rtps_core]: division, projection, depth cueing. *)
Definition rtps_screen (check last : bool) : M unit :=
  let* div_result := fun g => gte_divide (u16 (C c_H g)) (u16 (D d_SZ3 g)) g in
  let* sx_mac := gets (fun g => s32 div_result * s16 (D d_IR1 g) + s32 (C c_OFX g)) in
  let* sy_mac := gets (fun g => s32 div_result * s16 (D d_IR2 g) + s32 (C c_OFY g)) in
  when check (check_mac0_overflow sx_mac ;; check_mac0_overflow sy_mac) ;;
  push_sxy (s32 (Z.shiftr sx_mac 16)) (s32 (Z.shiftr sy_mac 16)) ;;
  when last (
    let* dq_mac := gets (fun g => s16 (C c_DQA g) * s32 div_result + s32 (C c_DQB g)) in
    when check (check_mac0_overflow dq_mac) ;;
    setD d_MAC0 (u32 dq_mac) ;;
    let* ir0 := saturate_ir0 (Z.shiftr dq_mac 12) in setD d_IR0 (u32 ir0)).

(** IR3 of a perspective transformation: flagged on the sum shifted by 12,
    clamped from the one shifted by [sf]. *)
Definition rtps_ir3 (m3 : Z) (sf lm : bool) : M unit :=
  when (outside (- 0x8000) 0x7FFF (Z.shiftr m3 12)) (flag_set 22) ;;
  setD d_IR3 (u32 (clamp (ir_low lm) 0x7FFF (s32 (mac_shift m3 sf)))).

Definition gte_rtps_core (v : Z) (sf lm last : bool) : M unit := fun g =>
  let vx := get_vector g v 0 in
  let vy := get_vector g v 1 in
  let vz := get_vector g v 2 in
  let t k := Z.shiftl (s32 (C k g)) 12 in
  (let* m1 := mac_sum 1 (t c_TRX) (mul16 (lo16 (C c_RT11RT12 g)) vx)
                (mul16 (hi16 (C c_RT11RT12 g)) vy) (mul16 (lo16 (C c_RT13RT21 g)) vz) in
   let* m2 := mac_sum 2 (t c_TRY) (mul16 (hi16 (C c_RT13RT21 g)) vx)
                (mul16 (lo16 (C c_RT22RT23 g)) vy) (mul16 (hi16 (C c_RT22RT23 g)) vz) in
   let* m3 := mac_sum 3 (t c_TRZ) (mul16 (lo16 (C c_RT31RT32 g)) vx)
                (mul16 (hi16 (C c_RT31RT32 g)) vy) (mul16 (lo16 (C c_RT33 g)) vz) in
   store_mac m1 m2 m3 sf ;;
   ir_from_mac 1 lm ;; ir_from_mac 2 lm ;;
   rtps_ir3 m3 sf lm ;;
   push_sz (Z.shiftr (trunc44 m3) 12) ;;
   rtps_screen true last) g.

Definition gte_cmd_rtps (sf lm : bool) : M unit := gte_rtps_core 0 sf lm true.
Definition gte_cmd_rtpt (sf lm : bool) : M unit :=
  gte_rtps_core 0 sf lm false ;; gte_rtps_core 1 sf lm false ;; gte_rtps_core 2 sf lm true.

Definition gte_cmd_nclip : M unit := fun g =>
  let sx0 := lo16 (D d_SXY0 g) in let sy0 := hi16 (D d_SXY0 g) in
  let sx1 := lo16 (D d_SXY1 g) in let sy1 := hi16 (D d_SXY1 g) in
  let sx2 := lo16 (D d_SXY2 g) in let sy2 := hi16 (D d_SXY2 g) in
  let val := sx0 * (sy1 - sy2) + sx1 * (sy2 - sy0) + sx2 * (sy0 - sy1) in
  (check_mac0_overflow val ;; setD d_MAC0 (u32 val)) g.

Definition average_z (val : Z) : M unit :=
  check_mac0_overflow val ;; setD d_MAC0 (u32 val) ;;
  let* otz := saturate_sz (Z.shiftr val 12) in setD d_OTZ otz.

Definition gte_cmd_avsz3 : M unit := fun g =>
  average_z (s16 (C c_ZSF3 g) * (D d_SZ1 g + D d_SZ2 g + D d_SZ3 g)) g.
Definition gte_cmd_avsz4 : M unit := fun g =>
  average_z (s16 (C c_ZSF4 g) * (D d_SZ0 g + D d_SZ1 g + D d_SZ2 g + D d_SZ3 g)) g.

Definition gte_cmd_op (sf lm : bool) : M unit := fun g =>
  let d1 := lo16 (C c_RT11RT12 g) in
  let d2 := lo16 (C c_RT22RT23 g) in
  let d3 := lo16 (C c_RT33 g) in
  let ir1 := s16 (D d_IR1 g) in
  let ir2 := s16 (D d_IR2 g) in
  let ir3 := s16 (D d_IR3 g) in
  store_mac_ir (ir3 * d2 - ir2 * d3) (ir1 * d3 - ir3 * d1) (ir2 * d1 - ir1 * d2) sf lm g.

Definition gte_cmd_mvmva (sf lm : bool) (mx v cv : Z) : M unit := gte_mvmva sf lm mx v cv.

Definition gte_cmd_sqr (sf lm : bool) : M unit := fun g =>
  let ir1 := s16 (D d_IR1 g) in
  let ir2 := s16 (D d_IR2 g) in
  let ir3 := s16 (D d_IR3 g) in
  store_mac_ir (ir1 * ir1) (ir2 * ir2) (ir3 * ir3) sf lm g.

(** [acc + (FC - acc) * IR0]. *)
Definition interpolate_color_acc (acc1 acc2 acc3 : Z) (sf lm : bool) : M unit := fun g =>
  let d1 := Z.shiftl (s32 (C c_RFC g)) 12 - acc1 in
  let d2 := Z.shiftl (s32 (C c_GFC g)) 12 - acc2 in
  let d3 := Z.shiftl (s32 (C c_BFC g)) 12 - acc3 in
  let ir0 := s16 (D d_IR0 g) in
  (check_macs d1 d2 d3 ;;
   let* tmp_ir1 := saturate_ir (s32 (mac_shift d1 sf)) 1 false in
   let* tmp_ir2 := saturate_ir (s32 (mac_shift d2 sf)) 2 false in
   let* tmp_ir3 := saturate_ir (s32 (mac_shift d3 sf)) 3 false in
   store_mac_ir (tmp_ir1 * ir0 + acc1) (tmp_ir2 * ir0 + acc2) (tmp_ir3 * ir0 + acc3) sf lm) g.

(** The colour components of RGBC or of RGB0. *)
Definition red (rgb : Z) : Z := Z.land rgb 0xFF.
Definition green (rgb : Z) : Z := Z.land (Z.shiftr rgb 8) 0xFF.
Definition blue (rgb : Z) : Z := Z.land (Z.shiftr rgb 16) 0xFF.

(** [RGBC * IR << 4], the accumulators of the colour commands. *)
Definition color_acc (k : Z -> Z -> Z -> M unit) : M unit := fun g =>
  let rgbc := D d_RGBC g in
  k (Z.shiftl (red rgbc * s16 (D d_IR1 g)) 4) (Z.shiftl (green rgbc * s16 (D d_IR2 g)) 4)
    (Z.shiftl (blue rgbc * s16 (D d_IR3 g)) 4) g.

Definition gte_ncs_core (v : Z) (sf lm : bool) : M unit :=
  gte_mvmva sf lm 1 v 3 ;; gte_mvmva sf lm 2 3 1 ;; push_color.
Definition gte_cmd_ncs (sf lm : bool) : M unit := gte_ncs_core 0 sf lm.
Definition gte_cmd_nct (sf lm : bool) : M unit :=
  gte_ncs_core 0 sf lm ;; gte_ncs_core 1 sf lm ;; gte_ncs_core 2 sf lm.

Definition gte_nccs_core (v : Z) (sf lm : bool) : M unit :=
  gte_mvmva sf lm 1 v 3 ;; gte_mvmva sf lm 2 3 1 ;;
  color_acc (fun m1 m2 m3 => store_mac_ir m1 m2 m3 sf lm) ;; push_color.
Definition gte_cmd_nccs (sf lm : bool) : M unit := gte_nccs_core 0 sf lm.
Definition gte_cmd_ncct (sf lm : bool) : M unit :=
  gte_nccs_core 0 sf lm ;; gte_nccs_core 1 sf lm ;; gte_nccs_core 2 sf lm.

Definition gte_ncds_core (v : Z) (sf lm : bool) : M unit :=
  gte_mvmva sf lm 1 v 3 ;; gte_mvmva sf lm 2 3 1 ;;
  color_acc (fun m1 m2 m3 => interpolate_color_acc m1 m2 m3 sf lm) ;; push_color.
Definition gte_cmd_ncds (sf lm : bool) : M unit := gte_ncds_core 0 sf lm.
Definition gte_cmd_ncdt (sf lm : bool) : M unit :=
  gte_ncds_core 0 sf lm ;; gte_ncds_core 1 sf lm ;; gte_ncds_core 2 sf lm.

Definition gte_cmd_cc (sf lm : bool) : M unit :=
  gte_mvmva sf lm 2 3 1 ;;
  color_acc (fun m1 m2 m3 => store_mac_ir m1 m2 m3 sf lm) ;; push_color.
Definition gte_cmd_cdp (sf lm : bool) : M unit :=
  gte_mvmva sf lm 2 3 1 ;;
  color_acc (fun m1 m2 m3 => interpolate_color_acc m1 m2 m3 sf lm) ;; push_color.
Definition gte_cmd_dcpl (sf lm : bool) : M unit :=
  color_acc (fun m1 m2 m3 => interpolate_color_acc m1 m2 m3 sf lm) ;; push_color.

(** One depth cueing step from the colour in register [src]. *)
Definition depth_cue (src : Z) (sf lm : bool) : M unit := fun g =>
  let m1 := Z.shiftl (red (D src g)) 16 in
  let m2 := Z.shiftl (green (D src g)) 16 in
  let m3 := Z.shiftl (blue (D src g)) 16 in
  (check_macs m1 m2 m3 ;; interpolate_color_acc m1 m2 m3 sf lm ;; push_color) g.

Definition gte_cmd_dpcs (sf lm : bool) : M unit := depth_cue d_RGBC sf lm.
Definition gte_cmd_dpct (sf lm : bool) : M unit :=
  depth_cue d_RGB0 sf lm ;; depth_cue d_RGB0 sf lm ;; depth_cue d_RGB0 sf lm.

Definition gte_cmd_intpl (sf lm : bool) : M unit := fun g =>
  (interpolate_color_acc (Z.shiftl (s16 (D d_IR1 g)) 12) (Z.shiftl (s16 (D d_IR2 g)) 12)
     (Z.shiftl (s16 (D d_IR3 g)) 12) sf lm ;; push_color) g.

Definition gte_cmd_gpf (sf lm : bool) : M unit := fun g =>
  let ir0 := s16 (D d_IR0 g) in
  (store_mac_ir (s16 (D d_IR1 g) * ir0) (s16 (D d_IR2 g) * ir0) (s16 (D d_IR3 g) * ir0) sf lm ;; push_color) g.

Definition gte_cmd_gpl (sf lm : bool) : M unit := fun g =>
  let ir0 := s16 (D d_IR0 g) in
  let mac k := let m := s32 (D k g) in if sf then Z.shiftl m 12 else m in
  (store_mac_ir (s16 (D d_IR1 g) * ir0 + mac d_MAC1) (s16 (D d_IR2 g) * ir0 + mac d_MAC2)
     (s16 (D d_IR3 g) * ir0 + mac d_MAC3) sf lm ;; push_color) g.

(** ** Register access

    [GTE_ReadCtrl] also counts the reads of FLAG in a variable nothing reads. *)

(** The shift loop of [gte_count_leading]: at most 31 steps. *)
Fixpoint leading_zeros (fuel : nat) (target count : Z) : Z :=
  match fuel with
  | O => count
  | S fuel => if tst target 0x80000000 then count else leading_zeros fuel (u32 (Z.shiftl target 1)) (count + 1)
  end.

Definition gte_count_leading (val : Z) : Z :=
  if val =? 0 then 32
  else if s32 val <? 0 then
    let target := not32 val in
    if target =? 0 then 32 else leading_zeros 32 target 0
  else leading_zeros 32 val 0.

Definition GTE_ReadData (reg : Z) (g : Gte) : Z :=
  match reg with
  | 15 => D 14 g
  | 28 | 29 =>
    let part k := clamp 0 0x1F (Z.shiftr (s32 (D k g)) 7) in
    Z.lor (Z.lor (part 9) (Z.shiftl (part 10) 5)) (Z.shiftl (part 11) 10)
  | _ => D (Z.land reg 0x1F) g
  end.

Definition sign_extend16 (val : Z) : Z := u32 (s16 (Z.land val 0xFFFF)).

Definition GTE_WriteData (reg val : Z) : M unit :=
  match reg with
  | 1 | 3 | 5 | 8 | 9 | 10 | 11 => setD reg (sign_extend16 val)
  | 7 | 16 | 17 | 18 | 19 => setD reg (Z.land val 0xFFFF)
  | 15 =>
    let* sxy1 := gets (D 13) in setD 12 sxy1 ;;
    let* sxy2 := gets (D 14) in setD 13 sxy2 ;;
    setD 14 val ;; setD 15 val
  | 28 =>
    let part k := u32 (s16 (Z.shiftl (Z.land (Z.shiftr val k) 0x1F) 7)) in
    setD 9 (part 0) ;; setD 10 (part 5) ;; setD 11 (part 10)
  | 29 => ret tt
  | 30 => setD 30 val ;; setD 31 (gte_count_leading val)
  | 31 => ret tt
  | _ => setD (Z.land reg 0x1F) val
  end.

Definition GTE_ReadCtrl (reg : Z) (g : Gte) : Z := C (Z.land reg 0x1F) g.

Definition GTE_WriteCtrl (reg val : Z) : M unit :=
  match reg with
  | 4 | 12 | 20 | 26 | 27 | 29 | 30 => setC reg (sign_extend16 val)
  | 31 =>
    let flag := Z.land val 0x7FFFF000 in
    setC 31 (if tst flag 0x7F87E000 then Z.lor flag 0x80000000 else flag)
  | _ => setC (Z.land reg 0x1F) val
  end.

(** ** Dispatch *)

Definition gte_command (func : Z) (sf lm : bool) (mx v cv : Z) : M unit :=
  match func with
  | 0x01 => gte_cmd_rtps sf lm
  | 0x06 => gte_cmd_nclip
  | 0x0C => gte_cmd_op sf lm
  | 0x10 => gte_cmd_dpcs sf lm
  | 0x11 => gte_cmd_intpl sf lm
  | 0x12 => gte_cmd_mvmva sf lm mx v cv
  | 0x13 => gte_cmd_ncds sf lm
  | 0x14 => gte_cmd_cdp sf lm
  | 0x16 => gte_cmd_ncdt sf lm
  | 0x1B => gte_cmd_nccs sf lm
  | 0x1C => gte_cmd_cc sf lm
  | 0x1E => gte_cmd_ncs sf lm
  | 0x20 => gte_cmd_nct sf lm
  | 0x28 => gte_cmd_sqr sf lm
  | 0x29 => gte_cmd_dcpl sf lm
  | 0x2A => gte_cmd_dpct sf lm
  | 0x2D => gte_cmd_avsz3
  | 0x2E => gte_cmd_avsz4
  | 0x30 => gte_cmd_rtpt sf lm
  | 0x3D => gte_cmd_gpf sf lm
  | 0x3E => gte_cmd_gpl sf lm
  | 0x3F => gte_cmd_ncct sf lm
  | _ => ret tt
  end.

(** [flag_reset], a command, [flag_update_bit31], the store to FLAG. *)
Definition flagged (command : M unit) : M unit :=
  flag_reset ;; command ;; flag_update_bit31 ;;
  let* flag := gets gte_flag in setC c_FLAG flag.

Definition GTE_Execute (opcode : Z) : M unit :=
  let func := Z.land opcode 0x3F in
  let sf := tst (Z.shiftr opcode 19) 1 in
  let lm := tst (Z.shiftr opcode 10) 1 in
  let mx := Z.land (Z.shiftr opcode 17) 3 in
  let v := Z.land (Z.shiftr opcode 15) 3 in
  let cv := Z.land (Z.shiftr opcode 13) 3 in
  flagged (gte_command func sf lm mx v cv).

(** ** The entry points of translated code *)

Definition GTE_Inline_RTPS (sf lm : bool) : M unit := flagged (gte_cmd_rtps sf lm).
Definition GTE_Inline_NCLIP : M unit := flagged gte_cmd_nclip.
Definition GTE_Inline_OP (sf lm : bool) : M unit := flagged (gte_cmd_op sf lm).
Definition GTE_Inline_DPCS (sf lm : bool) : M unit := flagged (gte_cmd_dpcs sf lm).
Definition GTE_Inline_INTPL (sf lm : bool) : M unit := flagged (gte_cmd_intpl sf lm).
Definition GTE_Inline_NCDS (sf lm : bool) : M unit := flagged (gte_cmd_ncds sf lm).
Definition GTE_Inline_CDP (sf lm : bool) : M unit := flagged (gte_cmd_cdp sf lm).
Definition GTE_Inline_NCDT (sf lm : bool) : M unit := flagged (gte_cmd_ncdt sf lm).
Definition GTE_Inline_NCCS (sf lm : bool) : M unit := flagged (gte_cmd_nccs sf lm).
Definition GTE_Inline_CC (sf lm : bool) : M unit := flagged (gte_cmd_cc sf lm).
Definition GTE_Inline_NCS (sf lm : bool) : M unit := flagged (gte_cmd_ncs sf lm).
Definition GTE_Inline_NCT (sf lm : bool) : M unit := flagged (gte_cmd_nct sf lm).
Definition GTE_Inline_SQR (sf lm : bool) : M unit := flagged (gte_cmd_sqr sf lm).
Definition GTE_Inline_DCPL (sf lm : bool) : M unit := flagged (gte_cmd_dcpl sf lm).
Definition GTE_Inline_DPCT (sf lm : bool) : M unit := flagged (gte_cmd_dpct sf lm).
Definition GTE_Inline_AVSZ3 : M unit := flagged gte_cmd_avsz3.
Definition GTE_Inline_AVSZ4 : M unit := flagged gte_cmd_avsz4.
Definition GTE_Inline_RTPT (sf lm : bool) : M unit := flagged (gte_cmd_rtpt sf lm).
Definition GTE_Inline_GPF (sf lm : bool) : M unit := flagged (gte_cmd_gpf sf lm).
Definition GTE_Inline_GPL (sf lm : bool) : M unit := flagged (gte_cmd_gpl sf lm).
Definition GTE_Inline_NCCT (sf lm : bool) : M unit := flagged (gte_cmd_ncct sf lm).

Definition GTE_Inline_MVMVA (packed : Z) : M unit :=
  let sf := tst packed 1 in
  let lm := tst (Z.shiftr packed 1) 1 in
  let mx := Z.land (Z.shiftr packed 2) 3 in
  let v := Z.land (Z.shiftr packed 4) 3 in
  let cv := Z.land (Z.shiftr packed 6) 3 in
  flagged (gte_cmd_mvmva sf lm mx v cv).

Definition GTE_RTPS_Project (last : bool) : M unit := rtps_screen false last.

(** All of them; the operands are what the translator packed. *)
Definition gte_entries (sf lm : bool) (packed : Z) : list (M unit) :=
  map (fun f : bool -> bool -> M unit => f sf lm)
    [GTE_Inline_RTPS; GTE_Inline_OP; GTE_Inline_DPCS; GTE_Inline_INTPL; GTE_Inline_NCDS; GTE_Inline_CDP;
     GTE_Inline_NCDT; GTE_Inline_NCCS; GTE_Inline_CC; GTE_Inline_NCS; GTE_Inline_NCT; GTE_Inline_SQR;
     GTE_Inline_DCPL; GTE_Inline_DPCT; GTE_Inline_RTPT; GTE_Inline_GPF; GTE_Inline_GPL; GTE_Inline_NCCT]
  ++ [GTE_Inline_NCLIP; GTE_Inline_AVSZ3; GTE_Inline_AVSZ4; GTE_Inline_MVMVA packed].

(** The coprocessor inside the CPU record. *)
Definition on_gte {A} (m : M A) (c : R3000CPU) : A * R3000CPU :=
  let '(x, g) := m (mkGte (cp2_data c) (cp2_ctrl c) 0) in
  (x, c <| cp2_data := gdata g |> <| cp2_ctrl := gctrl g |>).

(** ** Running actions

    Every action is a sequence of three elementary ones: raising a flag,
    storing a data register, storing a control register. *)

Definition raise (b : bool) (bit : Z) (g : Gte) : Gte :=
  g <| gte_flag ::= fun f => if b then Z.lor f (Z.shiftl 1 bit) else f |>.
Definition set_data (n v : Z) (g : Gte) : Gte := g <| gdata ::= fun l => aset l n v |>.
Definition set_ctrl (n v : Z) (g : Gte) : Gte := g <| gctrl ::= fun l => aset l n v |>.

Create Rewrite HintDb gte_run.
Create Rewrite HintDb gte_read.

Lemma bind_run {A B} (m : M A) (k : A -> M B) g : bind m k g = k (fst (m g)) (snd (m g)).
Proof. unfold bind. destruct (m g). reflexivity. Qed.
Lemma ret_run {A} (x : A) g : ret x g = (x, g).
Proof. reflexivity. Qed.
Lemma gets_run {A} (f : Gte -> A) g : gets f g = (f g, g).
Proof. reflexivity. Qed.
Lemma setD_run n v g : setD n v g = (tt, set_data n v g).
Proof. reflexivity. Qed.
Lemma setC_run n v g : setC n v g = (tt, set_ctrl n v g).
Proof. reflexivity. Qed.
Lemma when_flag_run b k g : when b (flag_set k) g = (tt, raise b k g).
Proof. destruct b, g; reflexivity. Qed.
#[export] Hint Rewrite @bind_run @ret_run @gets_run setD_run setC_run when_flag_run : gte_run.

Ltac gte_run := repeat (autorewrite with gte_run; cbn beta iota delta [fst snd]).

Definition mac_overflow_flags (val n : Z) (g : Gte) : Gte :=
  raise (val <? - 0x80000000000) (27 + 1 - n) (raise (0x7FFFFFFFFFF <? val) (30 + 1 - n) g).
Lemma check_mac_overflow_run val n g : check_mac_overflow val n g = (tt, mac_overflow_flags val n g).
Proof. unfold check_mac_overflow. gte_run. reflexivity. Qed.

Definition mac0_overflow_flags (val : Z) (g : Gte) : Gte :=
  raise (val <? - 0x80000000) 15 (raise (0x7FFFFFFF <? val) 16 g).
Lemma check_mac0_overflow_run val g : check_mac0_overflow val g = (tt, mac0_overflow_flags val g).
Proof. unfold check_mac0_overflow. gte_run. reflexivity. Qed.

Lemma saturate_ir_run val n lm g : saturate_ir val n lm g =
  (clamp (ir_low lm) 0x7FFF val, raise (outside (ir_low lm) 0x7FFF val) (24 + 1 - n) g).
Proof. unfold saturate_ir. gte_run. reflexivity. Qed.
Lemma saturate_run bit lo hi val g : saturate bit lo hi val g =
  (clamp lo hi val, raise (outside lo hi val) bit g).
Proof. unfold saturate. gte_run. reflexivity. Qed.
#[export] Hint Rewrite check_mac_overflow_run check_mac0_overflow_run saturate_ir_run saturate_run : gte_run.

(** The flags a sum raises, term by term on the 44-bit accumulator. *)
Definition mac_sum_flags (ch t p1 p2 p3 : Z) (g : Gte) : Gte :=
  let hw1 := wrap44 t + p1 in
  let hw2 := wrap44 hw1 + p2 in
  let hw3 := wrap44 hw2 + p3 in
  mac_overflow_flags hw3 ch (mac_overflow_flags hw2 ch (mac_overflow_flags hw1 ch (mac_overflow_flags t ch g))).

Lemma mac_sum_run ch t p1 p2 p3 g :
  mac_sum ch t p1 p2 p3 g = (t + p1 + p2 + p3, mac_sum_flags ch t p1 p2 p3 g).
Proof. unfold mac_sum, mac_step. gte_run. reflexivity. Qed.
#[export] Hint Rewrite mac_sum_run : gte_run.

(** *** Reading back *)

Lemma D_raise n b k g : D n (raise b k g) = D n g.
Proof. reflexivity. Qed.
Lemma C_raise n b k g : C n (raise b k g) = C n g.
Proof. reflexivity. Qed.
Lemma C_set_data n i v g : C n (set_data i v g) = C n g.
Proof. reflexivity. Qed.
Lemma D_set_ctrl n i v g : D n (set_ctrl i v g) = D n g.
Proof. reflexivity. Qed.
Lemma D_mac_overflow n val k g : D n (mac_overflow_flags val k g) = D n g.
Proof. reflexivity. Qed.
Lemma C_mac_overflow n val k g : C n (mac_overflow_flags val k g) = C n g.
Proof. reflexivity. Qed.
Lemma D_mac0_overflow n val g : D n (mac0_overflow_flags val g) = D n g.
Proof. reflexivity. Qed.
Lemma C_mac0_overflow n val g : C n (mac0_overflow_flags val g) = C n g.
Proof. reflexivity. Qed.
Lemma D_mac_sum n ch t p1 p2 p3 g : D n (mac_sum_flags ch t p1 p2 p3 g) = D n g.
Proof. reflexivity. Qed.
Lemma C_mac_sum n ch t p1 p2 p3 g : C n (mac_sum_flags ch t p1 p2 p3 g) = C n g.
Proof. reflexivity. Qed.
#[export] Hint Rewrite D_raise C_raise C_set_data D_set_ctrl D_mac_overflow C_mac_overflow
  D_mac0_overflow C_mac0_overflow D_mac_sum C_mac_sum : gte_read.

Definition sized (g : Gte) : Prop := zlen (gdata g) = 32 /\ zlen (gctrl g) = 32.

Lemma sized_set_data n v g : sized g -> sized (set_data n v g).
Proof. intros [H1 H2]. split; cbn; [rewrite zlen_aset|]; assumption. Qed.

Lemma D_set_data n i v g : sized g -> 0 <= i < 32 -> 0 <= n ->
  D n (set_data i v g) = if i =? n then v else D n g.
Proof. intros [H _] Hi Hn. apply anth_aset; [rewrite H|]; assumption. Qed.

Lemma raise_bit b k g i : 0 <= k -> 0 <= i ->
  Z.testbit (gte_flag (raise b k g)) i = (b && (i =? k)) || Z.testbit (gte_flag g) i.
Proof.
  intros Hk Hi. cbn. destruct b; cbn [andb orb]; [|reflexivity].
  rewrite Z.lor_spec, Z.shiftl_1_l, Z.pow2_bits_eqb, orb_comm, Z.eqb_sym by lia. reflexivity.
Qed.

(** Sizedness of a state built from a sized one, and reads of data registers
    given by literals. *)
Ltac gte_sized := repeat first [ assumption | apply sized_set_data
  | match goal with |- sized (raise ?b ?k ?g) => change (sized g)
    | |- sized (mac_overflow_flags ?v ?n ?g) => change (sized g)
    | |- sized (mac0_overflow_flags ?v ?g) => change (sized g)
    | |- sized (mac_sum_flags _ _ _ _ _ ?g) => change (sized g) end ].

Ltac gte_read := repeat (autorewrite with gte_read;
  repeat (rewrite D_set_data;
    [ match goal with |- context [if ?a =? ?b then _ else _] =>
        let v := eval vm_compute in (a =? b) in change (a =? b) with v; cbv iota end
    | gte_sized | cbv; intuition discriminate | cbv; discriminate])).

(** ** Types of the registers *)

(** A 16-bit value sign-extended to the register. *)
Definition is_sx16 (x : Z) : Prop := 0 <= x < 32768 \/ 4294934528 <= x < 4294967296.

Definition data_type (n x : Z) : Prop :=
  match n with
  | 1 | 3 | 5 | 8 | 9 | 10 | 11 => is_sx16 x
  | 7 | 16 | 17 | 18 | 19 => is_u16 x
  | _ => is_u32 x
  end.

(** FLAG: bits 11-0 are zero, bit 31 sums up the error bits. *)
Definition flag_ok (f : Z) : Prop :=
  is_u32 f /\ Z.land f 0xFFF = 0 /\ Z.testbit f 31 = tst f 0x7F87E000.

Definition ctrl_type (n x : Z) : Prop :=
  match n with
  | 4 | 12 | 20 | 26 | 27 | 29 | 30 => is_sx16 x
  | 31 => flag_ok x
  | _ => is_u32 x
  end.

Record typed (g : Gte) : Prop := {
  ty_sized : sized g;
  ty_data : forall n, 0 <= n < 32 -> data_type n (D n g);
  ty_ctrl : forall n, 0 <= n < 32 -> ctrl_type n (C n g)
}.

(** FLAG while a command runs: bits 30-12 only. *)
Definition raw_flag (f : Z) : Prop := 0 <= f < 2147483648 /\ Z.land f 0xFFF = 0.

Definition running (g : Gte) : Prop := typed g /\ raw_flag (gte_flag g).

(** An action that keeps the types and whose result satisfies [Q]. *)
Definition keeps {A} (m : M A) (Q : A -> Prop) : Prop :=
  forall g, running g -> running (snd (m g)) /\ Q (fst (m g)).

Create HintDb gte discriminated.
#[export] Hint Resolve u32_range : gte.

Lemma keeps_ret {A} (x : A) (Q : A -> Prop) : Q x -> keeps (ret x) Q.
Proof. intros Hx g Hg. split; assumption. Qed.

Lemma keeps_bind {A B} (m : M A) (k : A -> M B) P Q :
  keeps m P -> (forall x, P x -> keeps (k x) Q) -> keeps (bind m k) Q.
Proof. intros Hm Hk g Hg. rewrite bind_run. destruct (Hm g Hg) as [H1 H2]. apply Hk; assumption. Qed.

Lemma keeps_seq {B} (m : M unit) (k : M B) Q :
  keeps m (fun _ => True) -> keeps k Q -> keeps (m ;; k) Q.
Proof. intros Hm Hk. eapply keeps_bind; [exact Hm | intros _ _; exact Hk]. Qed.

Lemma keeps_read {B} (f : Gte -> M B) Q :
  (forall g, typed g -> keeps (f g) Q) -> keeps (fun g => f g g) Q.
Proof. intros H g Hg. apply (H g (proj1 Hg) g Hg). Qed.

Lemma keeps_gets {A} (f : Gte -> A) (Q : A -> Prop) : (forall g, typed g -> Q (f g)) -> keeps (gets f) Q.
Proof. intros H g Hg. split; [exact Hg | apply H, Hg]. Qed.

Lemma keeps_weaken {A} (m : M A) (P Q : A -> Prop) : keeps m P -> (forall x, P x -> Q x) -> keeps m Q.
Proof. intros Hm HPQ g Hg. destruct (Hm g Hg). split; auto. Qed.

Lemma raw_flag_raise (b : bool) k f : 12 <= k < 31 -> raw_flag f -> raw_flag (if b then Z.lor f (Z.shiftl 1 k) else f).
Proof.
  intros Hk [Hr Hl]. destruct b; [|split; assumption]. split.
  - apply (lor_bound 31); [lia | exact Hr |]. rewrite Z.shiftl_1_l.
    split; [apply Z.pow_nonneg; lia | apply Z.pow_lt_mono_r; lia].
  - rewrite Z.land_lor_distr_l, Hl, Z.lor_0_l. apply Z.bits_inj'. intros i Hi.
    rewrite Z.land_spec, Z.shiftl_1_l, Z.pow2_bits_eqb, Z.bits_0 by lia.
    destruct (Z.eqb_spec k i) as [<-|]; [|reflexivity]. cbn [andb].
    apply (bits_above 12); lia.
Qed.

Lemma keeps_flag b k : 12 <= k < 31 -> keeps (when b (flag_set k)) (fun _ => True).
Proof.
  intros Hk g [ [Hs Hd Hc] Hf]. rewrite when_flag_run. split; [|exact I]. split; [split; assumption|].
  apply raw_flag_raise; assumption.
Qed.

Lemma keeps_setD n v : 0 <= n < 32 -> data_type n v -> keeps (setD n v) (fun _ => True).
Proof.
  intros Hn Hv g [ [Hs Hd Hc] Hf]. rewrite setD_run. split; [|exact I]. split; [|exact Hf]. split.
  - apply sized_set_data, Hs.
  - intros i Hi. cbn [snd]. rewrite D_set_data by (auto; lia).
    destruct (Z.eqb_spec n i) as [<-|]; [exact Hv | apply Hd, Hi].
  - exact Hc.
Qed.

Lemma sx16_u32 x : is_sx16 x -> is_u32 x.
Proof. unfold is_sx16, is_u32. lia. Qed.

Lemma s16_range x : - 32768 <= s16 x < 32768.
Proof. unfold s16, u16. destruct (Z.ltb_spec (x mod 65536) 32768); zify_div. Qed.

Lemma sx16_of_range x : - 32768 <= x < 32768 -> is_sx16 (u32 x).
Proof. intros Hx. unfold is_sx16, u32. zify_div. Qed.

Lemma sx16_sign_extend v : is_sx16 (sign_extend16 v).
Proof. apply sx16_of_range, s16_range. Qed.

Lemma clamp_range lo hi x : lo <= hi -> lo <= clamp lo hi x <= hi.
Proof. unfold clamp. intros H. destruct (Z.ltb_spec x lo), (Z.ltb_spec hi x); lia. Qed.

Lemma ir_low_range lm : - 32768 <= ir_low lm <= 0.
Proof. destruct lm; cbn; lia. Qed.

Lemma sx16_clamp lm x : is_sx16 (u32 (clamp (ir_low lm) 0x7FFF x)).
Proof.
  pose proof (ir_low_range lm). pose proof (clamp_range (ir_low lm) 0x7FFF x ltac:(lia)).
  apply sx16_of_range. lia.
Qed.

Lemma keeps_mac_overflow val n : 1 <= n <= 3 -> keeps (check_mac_overflow val n) (fun _ => True).
Proof. intros Hn. unfold check_mac_overflow. apply keeps_seq; apply keeps_flag; lia. Qed.

Lemma keeps_mac0_overflow val : keeps (check_mac0_overflow val) (fun _ => True).
Proof. unfold check_mac0_overflow. apply keeps_seq; apply keeps_flag; lia. Qed.

Lemma keeps_saturate_ir val n lm : 1 <= n <= 3 -> keeps (saturate_ir val n lm) (fun x => is_sx16 (u32 x)).
Proof.
  intros Hn. unfold saturate_ir. apply keeps_seq; [apply keeps_flag; lia|].
  apply keeps_ret, sx16_clamp.
Qed.

Lemma keeps_saturate bit lo hi val : 12 <= bit < 31 -> lo <= hi ->
  keeps (saturate bit lo hi val) (fun x => lo <= x <= hi).
Proof.
  intros Hb Hlh. unfold saturate. apply keeps_seq; [apply keeps_flag, Hb|].
  apply keeps_ret, clamp_range, Hlh.
Qed.

Lemma keeps_mac_step ch prod acc : 1 <= ch <= 3 -> keeps (mac_step ch prod acc) (fun _ => True).
Proof. intros H. unfold mac_step. apply keeps_seq; [apply keeps_mac_overflow, H | apply keeps_ret, I]. Qed.

Lemma keeps_mac_sum ch t p1 p2 p3 : 1 <= ch <= 3 -> keeps (mac_sum ch t p1 p2 p3) (fun _ => True).
Proof.
  intros H. unfold mac_sum. apply keeps_seq; [apply keeps_mac_overflow, H|].
  do 3 (eapply keeps_bind; [apply keeps_mac_step, H | intros ? _]). apply keeps_ret, I.
Qed.

(** The types, for a literal register. *)
Lemma typed_u32 g n : typed g -> 0 <= n < 32 -> is_u32 (D n g).
Proof.
  intros Hg Hn. pose proof (ty_data g Hg n Hn) as H. unfold data_type in H.
  repeat case_match; try exact H; try (apply sx16_u32, H); unfold is_u16, is_u32 in *; lia.
Qed.

Lemma typed_ctrl_u32 g n : typed g -> 0 <= n < 32 -> is_u32 (C n g).
Proof.
  intros Hg Hn. pose proof (ty_ctrl g Hg n Hn) as H. unfold ctrl_type in H.
  repeat case_match; try exact H; try (apply sx16_u32, H). apply H.
Qed.

Lemma keeps_ir_from_mac n lm : 1 <= n <= 3 -> keeps (ir_from_mac n lm) (fun _ => True).
Proof.
  intros Hn. unfold ir_from_mac. eapply keeps_bind; [apply keeps_gets with (Q := fun _ => True); auto | intros mac _].
  eapply keeps_bind; [apply keeps_saturate_ir, Hn | intros ir Hir].
  apply keeps_setD; [unfold d_IR0; lia|].
  assert (n = 1 \/ n = 2 \/ n = 3) as [-> | [-> | -> ] ] by lia; exact Hir.
Qed.

Lemma keeps_when b m : keeps m (fun _ => True) -> keeps (when b m) (fun _ => True).
Proof. intros Hm. destruct b; [exact Hm | apply keeps_ret, I]. Qed.

Lemma keeps_getD {B} n (k : Z -> M B) Q : 0 <= n < 32 ->
  (forall x, data_type n x -> keeps (k x) Q) -> keeps (let* x := gets (D n) in k x) Q.
Proof.
  intros Hn Hk. eapply keeps_bind; [apply keeps_gets with (Q := data_type n) | exact Hk].
  intros g Hg. apply ty_data; assumption.
Qed.

Lemma keeps_gets_any {A B} (f : Gte -> A) (k : A -> M B) Q :
  (forall x, keeps (k x) Q) -> keeps (let* x := gets f in k x) Q.
Proof. intros Hk. eapply keeps_bind; [apply keeps_gets with (Q := fun _ => True); auto | intros x _; apply Hk]. Qed.

(** Goes through the binds of an action; side conditions on literals are
    computed. *)
Ltac literal := solve [ cbv; intuition discriminate | lia ].
Ltac keeps_step :=
  lazymatch goal with
  | |- keeps (bind (gets (D _)) _) _ => apply keeps_getD; [literal | intros ? ?]
  | |- keeps (bind (gets _) _) _ => apply keeps_gets_any; intros ?
  | |- keeps (bind (bind _ _) _) _ => eapply keeps_bind; [|intros ? ?]
  | |- keeps (bind _ (fun _ => ?k)) _ => first [apply keeps_seq | eapply keeps_bind; [|intros _ _] ]
  | |- keeps (bind _ _) _ => eapply keeps_bind; [|intros ? ?]
  | |- keeps (when _ (flag_set _)) _ => apply keeps_flag; literal
  | |- keeps (flag_set ?k) _ => apply (keeps_flag true k); literal
  | |- keeps (when _ _) _ => apply keeps_when
  | |- keeps (setD _ _) _ => apply keeps_setD; [literal|]
  | |- keeps (ret _) _ => apply keeps_ret; cbv beta
  | |- keeps (check_mac_overflow _ _) _ => apply keeps_mac_overflow; literal
  | |- keeps (check_mac0_overflow _) _ => apply keeps_mac0_overflow
  | |- keeps (ir_from_mac _ _) _ => apply keeps_ir_from_mac; literal
  | |- keeps (saturate_ir _ _ _) _ => apply keeps_saturate_ir; literal
  | |- keeps (saturate _ _ _ _) _ => apply keeps_saturate; literal
  | |- keeps (mac_sum _ _ _ _ _) _ => apply keeps_mac_sum; literal
  | |- keeps _ _ => solve [auto with gte nocore]
  end.
Ltac typed_value :=
  lazymatch goal with
  | |- data_type _ ?x =>
    first [ assumption | change (is_u32 x); solve [auto with gte] | change (is_u16 x); solve [auto with gte]
          | change (is_sx16 x); solve [auto with gte] ]
  | |- _ => auto with gte
  end.
Ltac keeps_go := repeat keeps_step; try typed_value.

Lemma keeps_store_ir lm : keeps (store_ir lm) (fun _ => True).
Proof. unfold store_ir. keeps_go. Qed.

Lemma keeps_check_macs m1 m2 m3 : keeps (check_macs m1 m2 m3) (fun _ => True).
Proof. unfold check_macs. keeps_go. Qed.

Lemma keeps_store_mac m1 m2 m3 sf : keeps (store_mac m1 m2 m3 sf) (fun _ => True).
Proof. unfold store_mac. keeps_go. Qed.

Lemma keeps_store_mac_ir m1 m2 m3 sf lm : keeps (store_mac_ir m1 m2 m3 sf lm) (fun _ => True).
Proof.
  unfold store_mac_ir. apply keeps_seq; [apply keeps_check_macs|].
  apply keeps_seq; [apply keeps_store_mac | apply keeps_store_ir].
Qed.

#[export] Hint Resolve keeps_mac0_overflow keeps_mac_sum keeps_store_ir keeps_check_macs keeps_store_mac
  keeps_store_mac_ir keeps_ir_from_mac : gte.

Lemma u16_pair x y : is_u32 (Z.lor (u16 x) (Z.shiftl (u16 y) 16)).
Proof.
  apply lor_u32; [pose proof (u16_range x) as H; unfold is_u16, is_u32 in *; lia|].
  rewrite Z.shiftl_mul_pow2 by lia. pose proof (u16_range y) as H. unfold is_u16, is_u32 in *. lia.
Qed.

Lemma u16_clamped x : 0 <= x <= 0xFFFF -> is_u16 x.
Proof. unfold is_u16. lia. Qed.

#[export] Hint Resolve u16_pair u16_clamped : gte.

Lemma keeps_push_sxy sx sy : keeps (push_sxy sx sy) (fun _ => True).
Proof. unfold push_sxy, saturate_sx, saturate_sy. keeps_go. Qed.

Lemma keeps_push_sz val : keeps (push_sz val) (fun _ => True).
Proof. unfold push_sz, saturate_sz. keeps_go. Qed.

Lemma keeps_push_color : keeps push_color (fun _ => True).
Proof. unfold push_color, saturate_color. keeps_go. Qed.

#[export] Hint Resolve keeps_push_sxy keeps_push_sz keeps_push_color : gte.

Lemma keeps_mvmva sf lm mx v cv : keeps (gte_mvmva sf lm mx v cv) (fun _ => True).
Proof.
  unfold gte_mvmva. destruct (cv =? 2).
  - unfold mvmva_far_color.
    apply (keeps_read (fun g0 => _)). intros g Hg. cbv zeta. keeps_go.
  - apply (keeps_read (fun g0 => _)). intros g Hg. cbv zeta. keeps_go.
Qed.

#[export] Hint Resolve keeps_mvmva : gte.

Lemma keeps_divide h sz : keeps (gte_divide h sz) (fun _ => True).
Proof. unfold gte_divide. destruct (_ <? _); keeps_go. Qed.

Lemma sx16_small x : 0 <= x <= 0x1000 -> is_sx16 (u32 x).
Proof. intros Hx. apply sx16_of_range. lia. Qed.
#[export] Hint Resolve keeps_divide sx16_small sx16_clamp : gte.

Lemma keeps_rtps_screen check last : keeps (rtps_screen check last) (fun _ => True).
Proof.
  unfold rtps_screen, saturate_ir0. eapply keeps_bind.
  { apply (keeps_read (fun g0 => gte_divide _ _)). intros g _. apply keeps_divide. }
  intros q _. keeps_go.
Qed.

Lemma keeps_rtps_core v sf lm last : keeps (gte_rtps_core v sf lm last) (fun _ => True).
Proof.
  unfold gte_rtps_core. apply (keeps_read (fun g0 => _)). intros g Hg. cbv zeta. keeps_go.
  - unfold rtps_ir3. keeps_go.
  - apply keeps_rtps_screen.
Qed.

Lemma keeps_interpolate a1 a2 a3 sf lm : keeps (interpolate_color_acc a1 a2 a3 sf lm) (fun _ => True).
Proof. unfold interpolate_color_acc. apply (keeps_read (fun g0 => _)). intros g Hg. cbv zeta. keeps_go. Qed.
#[export] Hint Resolve keeps_rtps_screen keeps_rtps_core keeps_interpolate : gte.

Lemma keeps_color_acc k : (forall a b c, keeps (k a b c) (fun _ => True)) -> keeps (color_acc k) (fun _ => True).
Proof. intros Hk. unfold color_acc. apply (keeps_read (fun g0 => _)). intros g Hg. apply Hk. Qed.

Lemma keeps_depth_cue src sf lm : keeps (depth_cue src sf lm) (fun _ => True).
Proof. unfold depth_cue. apply (keeps_read (fun g0 => _)). intros g Hg. cbv zeta. keeps_go. Qed.

Lemma keeps_ncs_core v sf lm : keeps (gte_ncs_core v sf lm) (fun _ => True).
Proof. unfold gte_ncs_core. keeps_go. Qed.
Lemma keeps_nccs_core v sf lm : keeps (gte_nccs_core v sf lm) (fun _ => True).
Proof. unfold gte_nccs_core. keeps_go. apply keeps_color_acc. intros. keeps_go. Qed.
Lemma keeps_ncds_core v sf lm : keeps (gte_ncds_core v sf lm) (fun _ => True).
Proof. unfold gte_ncds_core. keeps_go. apply keeps_color_acc. intros. keeps_go. Qed.

Lemma keeps_average_z val : keeps (average_z val) (fun _ => True).
Proof. unfold average_z, saturate_sz. keeps_go. Qed.
#[export] Hint Resolve keeps_color_acc keeps_depth_cue keeps_ncs_core keeps_nccs_core keeps_ncds_core
  keeps_average_z : gte.

Lemma keeps_command func sf lm mx v cv : keeps (gte_command func sf lm mx v cv) (fun _ => True).
Proof.
  unfold gte_command. repeat case_match; subst;
    unfold gte_cmd_rtps, gte_cmd_op, gte_cmd_dpcs, gte_cmd_intpl, gte_cmd_mvmva, gte_cmd_ncds, gte_cmd_cdp,
      gte_cmd_ncdt, gte_cmd_nccs, gte_cmd_cc, gte_cmd_ncs, gte_cmd_nct, gte_cmd_sqr, gte_cmd_dcpl, gte_cmd_dpct,
      gte_cmd_rtpt, gte_cmd_gpf, gte_cmd_gpl, gte_cmd_ncct, gte_cmd_nclip, gte_cmd_avsz3, gte_cmd_avsz4;
    try (apply (keeps_read (fun g0 => _)); intros g Hg; cbv zeta); keeps_go;
    apply keeps_color_acc; intros; keeps_go.
Qed.

Lemma typed_set_data g n v : typed g -> 0 <= n < 32 -> data_type n v -> typed (set_data n v g).
Proof.
  intros [Hs Hd Hc] Hn Hv. split.
  - apply sized_set_data, Hs.
  - intros i Hi. rewrite D_set_data by (auto; lia). destruct (Z.eqb_spec n i) as [<-|]; auto.
  - exact Hc.
Qed.

Lemma typed_set_ctrl g n v : typed g -> 0 <= n < 32 -> ctrl_type n v -> typed (set_ctrl n v g).
Proof.
  intros [ [Hs1 Hs2] Hd Hc] Hn Hv. split.
  - split; cbn; rewrite ?zlen_aset; assumption.
  - exact Hd.
  - intros i Hi. unfold C, set_ctrl. cbn. unfold aget. rewrite anth_aset by (rewrite ?Hs2; lia).
    destruct (Z.eqb_spec n i) as [<-|]; [exact Hv | apply Hc, Hi].
Qed.

Lemma flag_ok_summary f : raw_flag f -> flag_ok (if tst f 0x7F87E000 then Z.lor f 0x80000000 else f).
Proof.
  intros [Hr Hl].
  assert (H31 : Z.testbit f 31 = false) by (apply (bits_above 31); lia).
  assert (Hm : forall g, Z.land (Z.lor f g) 0x7F87E000 = Z.lor (Z.land f 0x7F87E000) (Z.land g 0x7F87E000))
    by (intros; apply Z.land_lor_distr_l).
  destruct (tst f 0x7F87E000) eqn:E.
  - split; [apply lor_u32; unfold is_u32; lia|]. split.
    + rewrite Z.land_lor_distr_l, Hl. reflexivity.
    + rewrite Z.lor_spec, H31. unfold tst in *. rewrite Hm. change (Z.land 0x80000000 0x7F87E000) with 0.
      rewrite Z.lor_0_r, E. reflexivity.
  - split; [unfold is_u32; lia|]. split; [exact Hl|]. rewrite H31, E. reflexivity.
Qed.

Lemma typed_flagged m g : keeps m (fun _ => True) -> typed g -> typed (snd (flagged m g)).
Proof.
  intros Hm Hg. unfold flagged. rewrite !bind_run. cbn [fst snd].
  set (g0 := snd (flag_reset g)). assert (H0 : running g0).
  { split; [destruct Hg; split; assumption|]. split; [cbn; lia | reflexivity]. }
  destruct (Hm g0 H0) as [ [H1 Hf] _]. set (g1 := snd (m g0)) in *.
  change (typed (set_ctrl c_FLAG (gte_flag (snd (flag_update_bit31 g1))) (snd (flag_update_bit31 g1)))).
  apply typed_set_ctrl; [destruct H1; split; assumption | cbv; intuition discriminate |].
  apply flag_ok_summary, Hf.
Qed.

(** *** Leading bits *)

Lemma leading_zeros_spec fuel : forall t c, is_u32 t -> 0 < t -> 2 ^ 32 <= t * 2 ^ Z.of_nat fuel ->
  exists k, leading_zeros fuel t c = c + k /\ 0 <= k < 32 /\ 2 ^ (31 - k) <= t < 2 ^ (32 - k).
Proof.
  induction fuel as [|fuel IH]; intros t c Ht H0 Hf; [unfold is_u32 in Ht; cbn in Hf; lia|].
  cbn [leading_zeros]. change 0x80000000 with (2 ^ 31). rewrite tst_pow2 by lia.
  destruct (Z.testbit t 31) eqn:E.
  - exists 0. split; [lia|]. split; [lia|]. split; [|exact (proj2 Ht)].
    change (31 - 0) with 31. destruct (Z.lt_ge_cases t (2 ^ 31)) as [Hlt|]; [|assumption].
    rewrite (bits_above 31) in E by lia. discriminate.
  - assert (Hlt : t < 2 ^ 31).
    { destruct (Z.lt_ge_cases t (2 ^ 31)) as [|Hge]; [assumption|]. exfalso.
      assert (Z.testbit t 31 = true); [|congruence].
      apply Z.testbit_true; [lia|]. unfold is_u32 in Ht. zify_div. }
    rewrite Z.shiftl_mul_pow2 by lia. rewrite u32_small by (unfold is_u32; lia).
    destruct (IH (t * 2 ^ 1) (c + 1)) as (k & Hk & Hr & Hb).
    + unfold is_u32. lia.
    + lia.
    + rewrite Nat2Z.inj_succ, Z.pow_succ_r in Hf by lia. lia.
    + exists (k + 1). split; [lia|]. change (2 ^ 1) with 2 in Hb.
      assert (k < 31). { destruct (Z.eq_dec k 31) as [->|]; [|lia]. cbn in Hb. lia. }
      replace (31 - k) with (Z.succ (31 - (k + 1))) in Hb by lia.
      replace (32 - k) with (Z.succ (32 - (k + 1))) in Hb by lia.
      rewrite !Z.pow_succ_r in Hb by lia. split; lia.
Qed.

Lemma count_leading_range val : is_u32 val -> 1 <= gte_count_leading val <= 32.
Proof.
  intros Hv. unfold gte_count_leading. unfold is_u32 in Hv.
  destruct (Z.eqb_spec val 0); [lia|]. unfold s32. rewrite u32_small by exact Hv.
  destruct (Z.ltb_spec val 2147483648).
  - rewrite (proj2 (Z.ltb_ge val 0)) by lia.
    destruct (leading_zeros_spec 32 val 0 Hv ltac:(lia)) as (k & -> & Hk & Hb); [cbn; lia|].
    destruct (Z.eq_dec k 0) as [->|]; [cbn in Hb; lia | lia].
  - rewrite (proj2 (Z.ltb_lt _ 0)) by lia.
    assert (En : not32 val = 4294967295 - val) by (unfold not32, u32, Z.lnot; zify_div).
    rewrite En. destruct (Z.eqb_spec (4294967295 - val) 0); [lia|].
    destruct (leading_zeros_spec 32 (4294967295 - val) 0 ltac:(unfold is_u32; lia) ltac:(lia)) as (k & -> & Hk & Hb);
      [cbn; lia|].
    destruct (Z.eq_dec k 0) as [->|]; [cbn in Hb; lia | lia].
Qed.

(** ** The claims *)

Definition gte_reset : Gte := mkGte (repeat 0 32) (repeat 0 32) 0.

(** What a program can do to the coprocessor, through the interpreter or the
    translated code. *)
Inductive gte_reach : Gte -> Prop :=
| gr_reset : gte_reach gte_reset
| gr_write_data g reg val : gte_reach g -> 0 <= reg < 32 -> is_u32 val ->
    gte_reach (snd (GTE_WriteData reg val g))
| gr_write_ctrl g reg val : gte_reach g -> 0 <= reg < 32 -> is_u32 val ->
    gte_reach (snd (GTE_WriteCtrl reg val g))
| gr_execute g opcode : gte_reach g -> gte_reach (snd (GTE_Execute opcode g))
| gr_inline g sf lm packed f : gte_reach g -> In f (gte_entries sf lm packed) -> gte_reach (snd (f g)).

Lemma gte_reset_typed : typed gte_reset.
Proof.
  split; [split; reflexivity | |]; intros n Hn; unfold D, C, gte_reset; cbn [gdata gctrl].
  - unfold data_type, aget, anth. rewrite nth_repeat. repeat case_match; cbv; intuition discriminate.
  - unfold ctrl_type, aget, anth. rewrite nth_repeat.
    repeat case_match; cbv; intuition discriminate.
Qed.

Lemma typed_write_data reg val g : typed g -> 0 <= reg < 32 -> is_u32 val -> typed (snd (GTE_WriteData reg val g)).
Proof.
  intros Hg Hr Hv.
  assert (Hl : is_u16 (Z.land val 0xFFFF)) by (pose proof (land_bound_r val 0xFFFF); unfold is_u16; lia).
  assert (Hc : is_u32 (gte_count_leading val)) by (pose proof (count_leading_range val Hv); unfold is_u32; lia).
  enum reg Hr; unfold GTE_WriteData; gte_run;
    repeat (apply typed_set_data; [|literal|]); try exact Hg;
    first [ exact Hv | exact Hl | exact Hc | apply sx16_sign_extend | apply sx16_of_range, s16_range
          | apply typed_u32; [repeat (apply typed_set_data; [|literal|]); try exact Hg; apply typed_u32 | literal];
            [exact Hg | literal] | apply typed_u32; [exact Hg | literal] ].
Qed.

Lemma typed_write_ctrl reg val g : typed g -> 0 <= reg < 32 -> is_u32 val -> typed (snd (GTE_WriteCtrl reg val g)).
Proof.
  intros Hg Hr Hv.
  assert (Hf : raw_flag (Z.land val 0x7FFFF000)).
  { split; [pose proof (land_bound_r val 0x7FFFF000); lia|]. rewrite <- Z.land_assoc. apply Z.land_0_r. }
  enum reg Hr; unfold GTE_WriteCtrl; gte_run; (apply typed_set_ctrl; [exact Hg | literal |]);
    first [ exact Hv | apply sx16_sign_extend | apply flag_ok_summary, Hf ].
Qed.

(** Every entry point is one of the commands. *)
Ltac entry func :=
  match goal with sf : bool, lm : bool |- _ => exists func, sf, lm, 0, 0, 0; reflexivity end.

Lemma gte_entry_command sf lm packed f : In f (gte_entries sf lm packed) ->
  exists func a b mx v cv, f = flagged (gte_command func a b mx v cv).
Proof.
  unfold gte_entries. cbn [In map app]. intros H.
  repeat destruct H as [<-|H]; [..|contradiction].
  19: entry 0x06.
  19: entry 0x2D.
  19: entry 0x2E.
  19: exists 0x12; do 5 eexists; reflexivity.
  all: first
   [ entry 0x01 | entry 0x0C | entry 0x10 | entry 0x11 | entry 0x13 | entry 0x14 | entry 0x16 | entry 0x1B | entry 0x1C
   | entry 0x1E | entry 0x20 | entry 0x28 | entry 0x29 | entry 0x2A | entry 0x30 | entry 0x3D | entry 0x3E | entry 0x3F ].
Qed.

Lemma reach_typed g : gte_reach g -> typed g.
Proof.
  induction 1 as [|g reg val _ IH Hr Hv|g reg val _ IH Hr Hv|g opcode _ IH|g sf lm packed f _ IH Hf].
  - exact gte_reset_typed.
  - apply typed_write_data; assumption.
  - apply typed_write_ctrl; assumption.
  - apply typed_flagged; [apply keeps_command | exact IH].
  - destruct (gte_entry_command _ _ _ _ Hf) as (func & a & b & mx & v & cv & ->).
    apply typed_flagged; [apply keeps_command | exact IH].
Qed.

Lemma read_data_u32 reg g : typed g -> 0 <= reg < 32 -> is_u32 (GTE_ReadData reg g).
Proof.
  intros Hg Hr.
  assert (Hp : forall k, is_u32 (clamp 0 31 (Z.shiftr (s32 (D k g)) 7)) /\
    0 <= clamp 0 31 (Z.shiftr (s32 (D k g)) 7) < 32)
    by (intros k; pose proof (clamp_range 0 31 (Z.shiftr (s32 (D k g)) 7) ltac:(lia)); unfold is_u32; lia).
  assert (Hs : forall k n, 0 <= n <= 10 -> is_u32 (Z.shiftl (clamp 0 31 (Z.shiftr (s32 (D k g)) 7)) n)).
  { intros k n Hn. rewrite Z.shiftl_mul_pow2 by lia. destruct (Hp k) as [_ Hk].
    assert (2 ^ n <= 2 ^ 10) by (apply Z.pow_le_mono_r; lia). pose proof (Z.pow_pos_nonneg 2 n).
    unfold is_u32. nia. }
  enum reg Hr; unfold GTE_ReadData; try (apply typed_u32; [exact Hg | literal]);
    (apply lor_u32; [apply lor_u32; [apply Hp | apply Hs; lia] | apply Hs; lia]).
Qed.

(** [C33] The registers of the coprocessor keep their types.  In every state
    reached from reset by register writes and commands - dispatched by their
    word or called at the entry points of translated code - each of the 64
    registers holds a value of its width: vectors and intermediate results
    sign-extended 16-bit, depths unsigned 16-bit, the rest 32-bit; FLAG has
    bits 11-0 clear and bit 31 the summary of its error bits; a read of any
    register is a 32-bit word. *)
Theorem gte_registers_typed g : gte_reach g ->
  (forall n, 0 <= n < 32 -> data_type n (D n g) /\ ctrl_type n (C n g)) /\
  flag_ok (GTE_ReadCtrl 31 g) /\
  (forall reg, 0 <= reg < 32 -> is_u32 (GTE_ReadData reg g) /\ is_u32 (GTE_ReadCtrl reg g)).
Proof.
  intros Hr. pose proof (reach_typed g Hr) as Hg. split; [|split].
  - intros n Hn. split; [apply ty_data | apply ty_ctrl]; assumption.
  - apply (ty_ctrl g Hg 31). lia.
  - intros reg Hreg. split; [apply read_data_u32; assumption|].
    unfold GTE_ReadCtrl. pose proof (land_bound_r reg 0x1F). apply typed_ctrl_u32; [exact Hg | lia].
Qed.

Lemma gte_registers_typed_witness :
  flag_ok (GTE_ReadCtrl 31 (snd (GTE_Execute 0x180001 (snd (GTE_WriteCtrl 26 0xFFFFFFFF gte_reset))))).
Proof.
  assert (Hr : gte_reach (snd (GTE_Execute 0x180001 (snd (GTE_WriteCtrl 26 0xFFFFFFFF gte_reset)))))
    by (apply gr_execute, gr_write_ctrl; [constructor | lia | unfold is_u32; lia]).
  pose proof (gte_registers_typed _ Hr) as (_ & H & _). exact H.
Defined.

