(* ===== verification/GteMath.v ===== *)
(** * What the geometry engine computes ([src/gte.c])

    The perspective quotient, the matrix products and the projection of
    vertices against their exact integer definitions. *)

From S2P Require Import Prelude Scheduler System Gte.

(** ** Division *)

Lemma normalize_spec fuel : forall z d, 0 < d < 65536 -> 2 ^ 15 <= d * 2 ^ Z.of_nat fuel ->
  exists k, normalize fuel z d = (z + k, d * 2 ^ k) /\ 0 <= k /\ 32768 <= d * 2 ^ k < 65536.
Proof.
  induction fuel as [|fuel IH]; intros z d Hd Hf.
  - exists 0. cbn in *. rewrite Z.add_0_r, Z.mul_1_r in *. split; [reflexivity | lia].
  - cbn [normalize]. change 0x8000 with (2 ^ 15). rewrite tst_pow2 by lia.
    destruct (Z.testbit d 15) eqn:E.
    + exists 0. rewrite Z.add_0_r, Z.mul_1_r. split; [reflexivity|]. split; [lia|]. split; [|lia].
      destruct (Z.lt_ge_cases d 32768) as [Hlt|]; [|assumption].
      rewrite (bits_above 15) in E by lia. discriminate.
    + assert (Hlt : d < 32768).
      { destruct (Z.lt_ge_cases d 32768) as [|Hge]; [assumption|]. exfalso.
        assert (Z.testbit d 15 = true); [|congruence]. apply Z.testbit_true; [lia|].
        change (2 ^ 15) with 32768. zify_div. }
      rewrite Z.shiftl_mul_pow2 by lia. change (2 ^ 1) with 2. rewrite u16_small by (unfold is_u16; lia).
      destruct (IH (z + 1) (d * 2)) as (k & -> & Hk & Hb); [lia| |].
      * rewrite Nat2Z.inj_succ, Z.pow_succ_r in Hf by lia. lia.
      * exists (k + 1). rewrite Z.pow_add_r by lia. change (2 ^ 1) with 2.
        replace (d * (2 ^ k * 2)) with (d * 2 * 2 ^ k) by lia. split; [f_equal; lia | lia].
Qed.

(** Every reciprocal, computed: no intermediate result wraps, and the product
    with the divisor misses [2^32] by less than 85526. *)
Definition reciprocal_ok (k : Z) : bool :=
  let d := 32768 + k in
  let i := Z.shiftr (d - 0x7FC0) 7 in
  let u_val := aget gte_unr_table i + 0x101 in
  let p := 0x2000080 - d * u_val in
  let q := 0x0000080 + Z.shiftr p 8 * u_val in
  let r := Z.shiftr q 8 in
  (i <? 257) && (0 <=? d * u_val) && (d * u_val <? 4294967296) && (0 <=? p) && (p <? 4294967296) &&
  (0 <=? q - 0x80) && (q <? 4294967296) && (0 <=? r) && (- 85526 <? r * d - 4294967296) && (r * d - 4294967296 <? 85526).

Lemma reciprocals_ok : zforall 15 reciprocal_ok 0 = true.
Proof. vm_compute. reflexivity. Qed.

Lemma reciprocal_spec d : 32768 <= d < 65536 ->
  0 <= unr_reciprocal d /\ - 85526 < unr_reciprocal d * d - 4294967296 < 85526.
Proof.
  intros Hd. pose proof (zforall_true 15 reciprocal_ok 0 reciprocals_ok (d - 32768)) as H.
  specialize (H ltac:(cbn; lia)). unfold reciprocal_ok in H. replace (32768 + (d - 32768)) with d in H by lia.
  cbv zeta in H. unfold unr_reciprocal. rewrite (u32_small (d - 0x7FC0)) by (unfold is_u32; lia).
  set (u := aget _ _ + 0x101) in *. clearbody u.
  rewrite !andb_true_iff, !Z.ltb_lt, !Z.leb_le in H. destruct H as (((((((((_ & H1) & H2) & H3) & H4) & H5) & H6) & H7) & H8) & H9).
  rewrite (u32_small (d * u)) by (unfold is_u32; lia). rewrite (u32_small (0x2000080 - d * u)) by (unfold is_u32; lia).
  cbv zeta. set (du := Z.shiftr (0x2000080 - d * u) 8) in *. clearbody du.
  rewrite (u32_small (du * u)) by (unfold is_u32; lia). rewrite (u32_small (0x80 + du * u)) by (unfold is_u32; lia).
  lia.
Qed.

Lemma unr_divide_spec h sz : 0 <= h -> 0 < sz < 65536 -> h < sz * 2 ->
  0 <= unr_divide h sz <= 0x1FFFF /\ Z.abs (unr_divide h sz * sz - h * 65536) < 4 * sz.
Proof.
  intros Hh Hs Hlt. unfold unr_divide.
  destruct (normalize_spec 16 0 sz Hs) as (k & -> & Hk & Hd); [change (Z.of_nat 16) with 16; lia|].
  rewrite Z.shiftl_mul_pow2, Z.shiftr_div_pow2 by lia. change (2 ^ 16) with 65536. rewrite Z.add_0_l.
  destruct (reciprocal_spec (sz * 2 ^ k) Hd) as [Hr He]. set (r := unr_reciprocal (sz * 2 ^ k)) in *. clearbody r.
  set (p := 2 ^ k) in *. assert (Hp : 0 < p) by (apply Z.pow_pos_nonneg; lia). clearbody p.
  set (q := (h * p * r + 0x8000) / 65536).
  assert (Hq : 65536 * q <= h * p * r + 0x8000 < 65536 * q + 65536)
    by (subst q; generalize (h * p * r + 0x8000); intros t; zify_div).
  clearbody q.
  assert (Hbound : - 171052 * sz < (h * p * r) * sz - h * 4294967296 < 171052 * sz).
  { replace (h * p * r * sz - h * 4294967296) with (h * (r * (sz * p) - 4294967296)) by ring.
    set (e := r * (sz * p) - 4294967296) in *. clearbody e. clear Hq Hr Hd. nia. }
  assert (Hq0 : 0 <= q) by (assert (0 <= h * p * r) by (apply Z.mul_nonneg_nonneg; [apply Z.mul_nonneg_nonneg|]; lia); lia).
  set (t := h * p * r) in *. clearbody t. clear He Hd Hr.
  assert (Hqs : - 4 * sz < q * sz - h * 65536 < 4 * sz) by nia.
  destruct (Z.ltb_spec 0x1FFFF q) as [Hc|Hc].
  - split; [lia|]. nia.
  - split; [lia|]. lia.
Qed.

(** [C38] The perspective quotient.  For every projection distance [h] and depth
    [sz], if [h < 2 sz] the table division yields a value of 17 bits within
    four units of [h * 65536 / sz], raises no flag, and indexes the table inside
    its 257 entries; otherwise it yields 1FFFFh and raises
    the division flag, bit 17. *)
Theorem gte_divide_accurate h sz g : is_u16 h -> is_u16 sz ->
  let '(q, g') := gte_divide h sz g in
  if h <? 2 * sz then 0 <= q <= 0x1FFFF /\ Z.abs (q * sz - h * 65536) < 4 * sz /\ g' = g /\
    0 <= Z.shiftr (u32 (snd (normalize 16 0 sz) - 0x7FC0)) 7 < zlen gte_unr_table
  else q = 0x1FFFF /\ forall i, 0 <= i -> Z.testbit (gte_flag g') i = (i =? 17) || Z.testbit (gte_flag g) i.
Proof.
  unfold is_u16. intros Hh Hs. unfold gte_divide. rewrite (Z.mul_comm sz 2).
  destruct (Z.ltb_spec h (2 * sz)).
  - destruct (unr_divide_spec h sz) as [H1 H2]; [lia..|]. split; [exact H1|]. split; [exact H2|].
    split; [reflexivity|]. change (zlen gte_unr_table) with 257.
    destruct (normalize_spec 16 0 sz ltac:(lia)) as (k & -> & Hk & Hd); [change (Z.of_nat 16) with 16; lia|].
    cbn [snd]. rewrite u32_small by (unfold is_u32; lia). rewrite Z.shiftr_div_pow2 by lia. change (2 ^ 7) with 128.
    generalize dependent (sz * 2 ^ k). intros d Hd. zify_div.
  - split; [reflexivity|]. intros i Hi. apply (raise_bit true 17 g i); lia.
Qed.

Lemma gte_divide_accurate_witness : Z.abs (fst (gte_divide 1000 3000 gte_reset) * 3000 - 1000 * 65536) < 12000.
Proof.
  pose proof (gte_divide_accurate 1000 3000 gte_reset ltac:(unfold is_u16; lia) ltac:(unfold is_u16; lia)) as H.
  destruct (gte_divide 1000 3000 gte_reset) as [q g']. change (1000 <? 2 * 3000) with true in H. cbv iota in H.
  cbn [fst]. lia.
Defined.

(** The table is its formula, with a maximum where the source's comment says
    minimum. *)
Lemma unr_table_formula :
  gte_unr_table = map (fun i => Z.max 0 ((0x40000 / (i + 0x100) + 1) / 2 - 0x101)) (zseq 257).
Proof. vm_compute. reflexivity. Qed.

(** ** Matrix products *)

Lemma wrap44_small x : - 0x80000000000 <= x <= 0x7FFFFFFFFFF -> wrap44 x = x.
Proof.
  intros Hx. unfold wrap44, s64, u64. rewrite Z.shiftl_mul_pow2, Z.shiftr_div_pow2 by lia.
  change (2 ^ 20) with 1048576.
  destruct (Z.ltb_spec ((x * 1048576) mod 18446744073709551616) 9223372036854775808); zify_div.
Qed.

Lemma mac_overflow_bit val n g i : 1 <= n <= 3 -> 0 <= i ->
  Z.testbit (gte_flag (mac_overflow_flags val n g)) i =
  ((val <? - 0x80000000000) && (i =? 28 - n)) || ((0x7FFFFFFFFFF <? val) && (i =? 31 - n)) || Z.testbit (gte_flag g) i.
Proof.
  intros Hn Hi. unfold mac_overflow_flags. rewrite !raise_bit by lia.
  replace (27 + 1 - n) with (28 - n) by lia. replace (30 + 1 - n) with (31 - n) by lia. rewrite orb_assoc. reflexivity.
Qed.

(** Beyond the 44-bit range, on either side. *)
Definition too_high (x : Z) : bool := 0x7FFFFFFFFFF <? x.
Definition too_low (x : Z) : bool := x <? - 0x80000000000.

(** The sums of a channel, each added to the previous one cut to 44 bits. *)
Definition partial_sums (t p1 p2 p3 : Z) : list Z :=
  [t; wrap44 t + p1; wrap44 (wrap44 t + p1) + p2; wrap44 (wrap44 (wrap44 t + p1) + p2) + p3].

(** The two flags of a channel: positive and negative overflow. *)
Definition mac_high (g : Gte) (ch : Z) : bool := Z.testbit (gte_flag g) (31 - ch).
Definition mac_low (g : Gte) (ch : Z) : bool := Z.testbit (gte_flag g) (28 - ch).

Lemma mac_overflow_pair val n m g : 1 <= n <= 3 -> 1 <= m <= 3 ->
  mac_high (mac_overflow_flags val n g) m = (n =? m) && too_high val || mac_high g m /\
  mac_low (mac_overflow_flags val n g) m = (n =? m) && too_low val || mac_low g m.
Proof.
  intros Hn Hm. unfold mac_high, mac_low. rewrite !mac_overflow_bit by lia.
  replace (28 - m =? 28 - n) with (n =? m) by (destruct (Z.eqb_spec n m); lia).
  replace (31 - m =? 31 - n) with (n =? m) by (destruct (Z.eqb_spec n m); lia).
  replace (28 - m =? 31 - n) with false by lia. replace (31 - m =? 28 - n) with false by lia.
  rewrite !andb_false_r, orb_false_l, orb_false_r, !(andb_comm _ (n =? m)). split; reflexivity.
Qed.

Lemma mac_overflow_other val n g i : 1 <= n <= 3 -> 0 <= i -> i < 25 ->
  Z.testbit (gte_flag (mac_overflow_flags val n g)) i = Z.testbit (gte_flag g) i.
Proof.
  intros Hn Hi Hlt. rewrite mac_overflow_bit by lia.
  rewrite (proj2 (Z.eqb_neq i (28 - n))), (proj2 (Z.eqb_neq i (31 - n))) by lia. rewrite !andb_false_r. reflexivity.
Qed.

(** A channel raises each of its flags exactly when some sum leaves the range
    on that side. *)
Lemma mac_sum_pair ch t p1 p2 p3 m g : 1 <= ch <= 3 -> 1 <= m <= 3 ->
  mac_high (mac_sum_flags ch t p1 p2 p3 g) m = (ch =? m) && existsb too_high (partial_sums t p1 p2 p3) || mac_high g m /\
  mac_low (mac_sum_flags ch t p1 p2 p3 g) m = (ch =? m) && existsb too_low (partial_sums t p1 p2 p3) || mac_low g m.
Proof.
  intros Hc Hm. unfold mac_sum_flags. cbv zeta. cbn [existsb partial_sums].
  repeat (rewrite (proj1 (mac_overflow_pair _ ch m _ Hc Hm)) || rewrite (proj2 (mac_overflow_pair _ ch m _ Hc Hm))).
  destruct (ch =? m); cbn [andb orb]; [|split; reflexivity]. rewrite !orb_false_r.
  split; repeat match goal with |- context [too_high ?x] => destruct (too_high x) | |- context [too_low ?x] => destruct (too_low x) end; reflexivity.
Qed.

Lemma mac_sum_other ch t p1 p2 p3 g i : 1 <= ch <= 3 -> 0 <= i -> i < 25 ->
  Z.testbit (gte_flag (mac_sum_flags ch t p1 p2 p3 g)) i = Z.testbit (gte_flag g) i.
Proof. intros Hc Hi Hlt. unfold mac_sum_flags. cbv zeta. rewrite !mac_overflow_other by assumption. reflexivity. Qed.

(** *** Running the building blocks *)

Lemma ir_from_mac_run n lm g : ir_from_mac n lm g =
  (tt, set_data (d_IR0 + n) (u32 (clamp (ir_low lm) 0x7FFF (s32 (D (d_MAC0 + n) g))))
         (raise (outside (ir_low lm) 0x7FFF (s32 (D (d_MAC0 + n) g))) (24 + 1 - n) g)).
Proof. unfold ir_from_mac. gte_run. reflexivity. Qed.

Lemma check_macs_run m1 m2 m3 g : check_macs m1 m2 m3 g =
  (tt, mac_overflow_flags m3 3 (mac_overflow_flags m2 2 (mac_overflow_flags m1 1 g))).
Proof. unfold check_macs. gte_run. reflexivity. Qed.

Lemma store_mac_run m1 m2 m3 sf g : store_mac m1 m2 m3 sf g =
  (tt, set_data d_MAC3 (u32 (mac_shift m3 sf)) (set_data d_MAC2 (u32 (mac_shift m2 sf))
         (set_data d_MAC1 (u32 (mac_shift m1 sf)) g))).
Proof. unfold store_mac. gte_run. reflexivity. Qed.

#[export] Hint Rewrite ir_from_mac_run check_macs_run store_mac_run : gte_run.

(** An accumulator as MAC and as IR. *)
Definition mac_value (m : Z) (sf : bool) : Z := u32 (mac_shift m sf).
Definition ir_value (m : Z) (sf lm : bool) : Z := clamp (ir_low lm) 0x7FFF (s32 (mac_value m sf)).

(** The row of the product [matrix * vector + translation], exact. *)
Definition row_terms (g : Gte) (mx v cv i : Z) : Z * Z * Z * Z :=
  (if cv =? 3 then 0 else Z.shiftl (get_translation g cv i) 12,
   get_matrix g mx i 0 * get_vector g v 0, get_matrix g mx i 1 * get_vector g v 1,
   get_matrix g mx i 2 * get_vector g v 2).
Definition row_sum (g : Gte) (mx v cv i : Z) : Z :=
  let '(t, p1, p2, p3) := row_terms g mx v cv i in t + p1 + p2 + p3.
(** Its sums as the accumulator of 44 bits sees them. *)
Definition row_acc (g : Gte) (mx v cv i : Z) : list Z :=
  let '(t, p1, p2, p3) := row_terms g mx v cv i in partial_sums t p1 p2 p3.

(** The state after the sums of the three rows. *)
Definition mvmva_flags (g : Gte) (mx v cv : Z) : Gte :=
  let f ch i g' := let '(t, p1, p2, p3) := row_terms g mx v cv i in mac_sum_flags ch t p1 p2 p3 g' in
  f 3 2 (f 2 1 (f 1 0 g)).

Lemma mvmva_run sf lm mx v cv g : cv <> 2 ->
  gte_mvmva sf lm mx v cv g =
  store_mac_ir (row_sum g mx v cv 0) (row_sum g mx v cv 1) (row_sum g mx v cv 2) sf lm (mvmva_flags g mx v cv).
Proof.
  intros Hcv. unfold gte_mvmva. rewrite (proj2 (Z.eqb_neq cv 2) Hcv). cbv zeta.
  rewrite bind_run, mac_sum_run. cbn [fst snd]. rewrite bind_run, mac_sum_run. cbn [fst snd].
  rewrite bind_run, mac_sum_run. reflexivity.
Qed.

Lemma store_mac_ir_read m1 m2 m3 sf lm g : sized g ->
  let g' := snd (store_mac_ir m1 m2 m3 sf lm g) in
  sized g' /\ gctrl g' = gctrl g /\
  (D d_MAC1 g' = mac_value m1 sf /\ D d_MAC2 g' = mac_value m2 sf /\ D d_MAC3 g' = mac_value m3 sf) /\
  (D d_IR1 g' = u32 (ir_value m1 sf lm) /\ D d_IR2 g' = u32 (ir_value m2 sf lm) /\ D d_IR3 g' = u32 (ir_value m3 sf lm)) /\
  (forall n, 0 <= n -> ~ (9 <= n <= 11 \/ 25 <= n <= 27) -> D n g' = D n g).
Proof.
  intros Hs. cbv zeta. unfold store_mac_ir, store_ir. gte_run. split; [gte_sized|]. split; [reflexivity|].
  unfold ir_value, mac_value. split; [repeat split; gte_read; reflexivity|].
  split; [repeat split; gte_read; reflexivity|].
  intros n H0 Hn. repeat (autorewrite with gte_read; rewrite ?D_set_data by (gte_sized || (cbv; intuition discriminate) || lia);
    repeat match goal with |- context [if ?a =? n then _ else _] =>
      rewrite (proj2 (Z.eqb_neq a n)) by (unfold d_IR0, d_MAC1, d_MAC2, d_MAC3; lia) end). reflexivity.
Qed.

Lemma flag_set_data n v g : gte_flag (set_data n v g) = gte_flag g.
Proof. reflexivity. Qed.

Lemma outside_clamp lo hi x : lo <= hi -> outside lo hi x = negb (clamp lo hi x =? x).
Proof.
  intros H. unfold outside, clamp. destruct (Z.ltb_spec x lo), (Z.ltb_spec hi x); cbn [orb negb];
    symmetry; rewrite ?negb_true_iff, ?negb_false_iff, ?Z.eqb_eq, ?Z.eqb_neq; lia.
Qed.

(** Did the IR of the accumulator saturate? *)
Definition ir_saturated (m : Z) (sf lm : bool) : bool := negb (ir_value m sf lm =? s32 (mac_value m sf)).

Lemma ir_outside m sf lm : outside (ir_low lm) 0x7FFF (s32 (mac_value m sf)) = ir_saturated m sf lm.
Proof. apply outside_clamp. pose proof (ir_low_range lm). lia. Qed.

Lemma store_mac_ir_flag m1 m2 m3 sf lm g i : sized g -> 0 <= i ->
  Z.testbit (gte_flag (snd (store_mac_ir m1 m2 m3 sf lm g))) i =
  ir_saturated m3 sf lm && (i =? 22) || (ir_saturated m2 sf lm && (i =? 23) || (ir_saturated m1 sf lm && (i =? 24) ||
    Z.testbit (gte_flag (mac_overflow_flags m3 3 (mac_overflow_flags m2 2 (mac_overflow_flags m1 1 g)))) i)).
Proof.
  intros Hs Hi. unfold store_mac_ir, store_ir. gte_run. gte_read. unfold mac_value.
  repeat (rewrite ?flag_set_data; rewrite ?raise_bit by lia). rewrite <- !ir_outside. unfold mac_value. reflexivity.
Qed.

(** The flag of an IR. *)
Definition ir_flagged (g : Gte) (n : Z) : bool := Z.testbit (gte_flag g) (25 - n).

Lemma store_mac_ir_pair m1 m2 m3 sf lm g n : sized g -> 1 <= n <= 3 ->
  let m := if n =? 1 then m1 else if n =? 2 then m2 else m3 in
  let g' := snd (store_mac_ir m1 m2 m3 sf lm g) in
  mac_high g' n = too_high m || mac_high g n /\ mac_low g' n = too_low m || mac_low g n /\
  ir_flagged g' n = ir_saturated m sf lm || ir_flagged g n.
Proof.
  intros Hs Hn. cbv zeta. unfold mac_high at 1, mac_low at 1, ir_flagged at 1. rewrite !store_mac_ir_flag by (assumption || lia).
  set (g3 := mac_overflow_flags m3 3 _).
  assert (Hp : mac_high g3 n = too_high (if n =? 1 then m1 else if n =? 2 then m2 else m3) || mac_high g n /\
    mac_low g3 n = too_low (if n =? 1 then m1 else if n =? 2 then m2 else m3) || mac_low g n).
  { subst g3. assert (H1 : 1 <= 1 <= 3) by lia. assert (H2 : 1 <= 2 <= 3) by lia. assert (H3 : 1 <= 3 <= 3) by lia.
    rewrite (proj1 (mac_overflow_pair m3 3 n _ H3 Hn)), (proj1 (mac_overflow_pair m2 2 n _ H2 Hn)), (proj1 (mac_overflow_pair m1 1 n _ H1 Hn)).
    rewrite (proj2 (mac_overflow_pair m3 3 n _ H3 Hn)), (proj2 (mac_overflow_pair m2 2 n _ H2 Hn)), (proj2 (mac_overflow_pair m1 1 n _ H1 Hn)).
    assert (n = 1 \/ n = 2 \/ n = 3) as [-> | [-> | -> ] ] by lia; split; reflexivity. }
  assert (Hi : ir_flagged g3 n = ir_flagged g n) by (subst g3; unfold ir_flagged; rewrite !mac_overflow_other by lia; reflexivity).
  destruct Hp as [Hh Hl]. unfold mac_high at 1 in Hh. unfold mac_low at 1 in Hl. unfold ir_flagged at 1 in Hi. clearbody g3.
  assert (n = 1 \/ n = 2 \/ n = 3) as [-> | [-> | -> ] ] by lia; cbn [Z.eqb Pos.eqb Z.sub Z.opp Z.add Z.pos_sub Pos.sub Pos.pred_double Pos.sub_mask] in *;
    rewrite ?andb_false_r, ?andb_true_r; cbn [orb]; (split; [exact Hh | split; [exact Hl | rewrite Hi; reflexivity] ]).
Qed.

(** *** Sizes *)

Lemma row_terms_bound g mx v cv i : typed g -> 0 <= i <= 2 -> 0 <= cv <= 3 ->
  let '(t, p1, p2, p3) := row_terms g mx v cv i in
  - 8796093022208 <= t <= 8796093018112 /\ Z.abs p1 <= 1073741824 /\ Z.abs p2 <= 1073741824 /\ Z.abs p3 <= 1073741824.
Proof.
  intros Hg Hi Hcv. unfold row_terms.
  assert (Hm : forall c, - 32768 <= get_matrix g mx i c < 32768).
  { intros c. unfold get_matrix, lo16, hi16. repeat case_match; try apply s16_range; lia. }
  assert (Hv : forall c, - 32768 <= get_vector g v c < 32768).
  { intros c. unfold get_vector, lo16, hi16. repeat case_match; try apply s16_range; lia. }
  assert (Hp : forall a b, - 32768 <= a < 32768 -> - 32768 <= b < 32768 -> Z.abs (a * b) <= 1073741824) by (intros; nia).
  assert (Ht : - 2147483648 <= get_translation g cv i < 2147483648).
  { unfold get_translation. repeat case_match; try apply s32_range; lia. }
  split; [|auto]. destruct (cv =? 3); [lia|]. rewrite Z.shiftl_mul_pow2 by lia. lia.
Qed.

(** A sum that leaves 44 bits was already seen leaving them, on the same
    side, by the accumulator. *)
Lemma sum_seen t p1 p2 p3 : - 8796093022208 <= t <= 8796093018112 -> Z.abs p1 <= 1073741824 -> Z.abs p2 <= 1073741824 -> Z.abs p3 <= 1073741824 ->
  (too_high (t + p1 + p2 + p3) = true -> existsb too_high (partial_sums t p1 p2 p3) = true) /\
  (too_low (t + p1 + p2 + p3) = true -> existsb too_low (partial_sums t p1 p2 p3) = true).
Proof.
  intros Ht H1 H2 H3. unfold partial_sums, too_high, too_low. cbn [existsb]. rewrite (wrap44_small t) by lia.
  assert (Hw : forall x, - 0x80000000000 <= x <= 0x7FFFFFFFFFF \/ (0x7FFFFFFFFFF <? x) = true \/ (x <? - 0x80000000000) = true)
    by (intros x; rewrite !Z.ltb_lt; lia).
  split; intros Hs.
  - apply Z.ltb_lt in Hs. destruct (Hw (t + p1)) as [W1 | [-> | W1] ]; [| rewrite ?orb_true_r; reflexivity | apply Z.ltb_lt in W1; lia].
    rewrite (wrap44_small (t + p1)) by exact W1. destruct (Hw (t + p1 + p2)) as [W2 | [-> | W2] ]; [| rewrite ?orb_true_r; reflexivity | apply Z.ltb_lt in W2; lia].
    rewrite (wrap44_small (t + p1 + p2)) by exact W2. rewrite (proj2 (Z.ltb_lt _ _) Hs), ?orb_true_r. reflexivity.
  - apply Z.ltb_lt in Hs. destruct (Hw (t + p1)) as [W1 | [W1 | ->] ]; [| apply Z.ltb_lt in W1; lia | rewrite ?orb_true_r; reflexivity].
    rewrite (wrap44_small (t + p1)) by exact W1. destruct (Hw (t + p1 + p2)) as [W2 | [W2 | ->] ]; [| apply Z.ltb_lt in W2; lia | rewrite ?orb_true_r; reflexivity].
    rewrite (wrap44_small (t + p1 + p2)) by exact W2. rewrite (proj2 (Z.ltb_lt _ _) Hs), ?orb_true_r. reflexivity.
Qed.

(** [C19] A matrix product is exact.  [MVMVA] (every matrix, vector and
    translation but the far colour, and so each product inside the colour
    commands): each row's sum stays below 2^44 in size, so 64-bit arithmetic
    loses nothing; MAC holds the sum, shifted by 12 when asked and cut to 32
    bits, IR its saturation; the row's positive overflow flag rises exactly
    when one of the four sums of the 44-bit accumulator exceeds 2^43 - 1, its
    negative one exactly when one is below -2^43, and the IR flag exactly when
    IR differs from MAC; every other register stays. *)
Theorem mvmva_exact sf lm mx v cv g : typed g -> 0 <= cv <= 3 -> cv <> 2 ->
  let g' := snd (gte_mvmva sf lm mx v cv g) in
  (forall i, 0 <= i <= 2 ->
     let m := row_sum g mx v cv i in
     Z.abs m < 2 ^ 44 /\
     D (d_MAC1 + i) g' = mac_value m sf /\ D (d_IR1 + i) g' = u32 (ir_value m sf lm) /\
     mac_high g' (1 + i) = existsb too_high (row_acc g mx v cv i) || mac_high g (1 + i) /\
     mac_low g' (1 + i) = existsb too_low (row_acc g mx v cv i) || mac_low g (1 + i) /\
     ir_flagged g' (1 + i) = ir_saturated m sf lm || ir_flagged g (1 + i)) /\
  (forall n, 0 <= n -> ~ (9 <= n <= 11 \/ 25 <= n <= 27) -> D n g' = D n g) /\ gctrl g' = gctrl g.
Proof.
  intros Hg Hcv Hne g'. subst g'. rewrite mvmva_run by exact Hne.
  set (g1 := mvmva_flags g mx v cv).
  assert (H1 : sized g1 /\ gctrl g1 = gctrl g /\ (forall n, D n g1 = D n g))
    by (split; [apply (ty_sized g Hg) | split; [reflexivity | intros n; reflexivity] ]).
  assert (Hf : forall i, 0 <= i <= 2 -> mac_high g1 (1 + i) = existsb too_high (row_acc g mx v cv i) || mac_high g (1 + i) /\
    mac_low g1 (1 + i) = existsb too_low (row_acc g mx v cv i) || mac_low g (1 + i) /\ ir_flagged g1 (1 + i) = ir_flagged g (1 + i)).
  { intros i Hi. subst g1. unfold mvmva_flags, row_acc, row_terms. cbv zeta.
    assert (H1' : 1 <= 1 <= 3) by lia. assert (H2 : 1 <= 2 <= 3) by lia. assert (H3 : 1 <= 3 <= 3) by lia. assert (Hi1 : 1 <= 1 + i <= 3) by lia.
    split; [|split].
    - rewrite (proj1 (mac_sum_pair 3 _ _ _ _ (1 + i) _ H3 Hi1)), (proj1 (mac_sum_pair 2 _ _ _ _ (1 + i) _ H2 Hi1)), (proj1 (mac_sum_pair 1 _ _ _ _ (1 + i) _ H1' Hi1)).
      assert (i = 0 \/ i = 1 \/ i = 2) as [-> | [-> | -> ] ] by lia; reflexivity.
    - rewrite (proj2 (mac_sum_pair 3 _ _ _ _ (1 + i) _ H3 Hi1)), (proj2 (mac_sum_pair 2 _ _ _ _ (1 + i) _ H2 Hi1)), (proj2 (mac_sum_pair 1 _ _ _ _ (1 + i) _ H1' Hi1)).
      assert (i = 0 \/ i = 1 \/ i = 2) as [-> | [-> | -> ] ] by lia; reflexivity.
    - unfold ir_flagged. rewrite !mac_sum_other by lia. reflexivity. }
  destruct H1 as (Hs & Hc & Hd). clearbody g1.
  destruct (store_mac_ir_read (row_sum g mx v cv 0) (row_sum g mx v cv 1) (row_sum g mx v cv 2) sf lm g1 Hs)
    as (_ & Hctrl & (M1 & M2 & M3) & (I1 & I2 & I3) & Hother).
  split; [|split; [intros n H0 Hn; rewrite Hother by assumption; apply Hd | rewrite Hctrl; exact Hc] ].
  intros i Hi m. pose proof (row_terms_bound g mx v cv i Hg Hi Hcv) as Hb.
  destruct (store_mac_ir_pair (row_sum g mx v cv 0) (row_sum g mx v cv 1) (row_sum g mx v cv 2) sf lm g1 (1 + i) Hs ltac:(lia)) as (P1 & P2 & P3).
  destruct (Hf i Hi) as (F1 & F2 & F3). rewrite F1 in P1. rewrite F2 in P2. rewrite F3 in P3.
  assert (Hm : (if 1 + i =? 1 then row_sum g mx v cv 0 else if 1 + i =? 2 then row_sum g mx v cv 1 else row_sum g mx v cv 2) = m)
    by (assert (i = 0 \/ i = 1 \/ i = 2) as [-> | [-> | -> ] ] by lia; reflexivity).
  rewrite Hm in P1, P2, P3.
  assert (Hseen : Z.abs m < 2 ^ 44 /\ (too_high m = true -> existsb too_high (row_acc g mx v cv i) = true) /\ (too_low m = true -> existsb too_low (row_acc g mx v cv i) = true)).
  { subst m. unfold row_sum, row_acc. destruct (row_terms g mx v cv i) as [ [ [t p1] p2] p3]. change (2 ^ 44) with 17592186044416.
    destruct Hb as (B0 & B1 & B2 & B3). split; [lia | apply sum_seen; assumption]. }
  destruct Hseen as (Ha & Sh & Sl). split; [exact Ha|].
  assert (Eh : mac_high (snd (store_mac_ir (row_sum g mx v cv 0) (row_sum g mx v cv 1) (row_sum g mx v cv 2) sf lm g1)) (1 + i) = existsb too_high (row_acc g mx v cv i) || mac_high g (1 + i)).
  { rewrite P1. destruct (too_high m); [rewrite (Sh eq_refl)|]; reflexivity. }
  assert (El : mac_low (snd (store_mac_ir (row_sum g mx v cv 0) (row_sum g mx v cv 1) (row_sum g mx v cv 2) sf lm g1)) (1 + i) = existsb too_low (row_acc g mx v cv i) || mac_low g (1 + i)).
  { rewrite P2. destruct (too_low m); [rewrite (Sl eq_refl)|]; reflexivity. }
  subst m. assert (i = 0 \/ i = 1 \/ i = 2) as [-> | [-> | -> ] ] by lia; auto 6.
Qed.

(** A rotation by the identity, a translation by (10, 20, 1000), the vertex
    (1, 2, 3) three times, projection distance 500. *)
Definition gte_writes (l : list (bool * Z * Z)) (g : Gte) : Gte :=
  fold_left (fun g '(ctrl, reg, val) => snd ((if ctrl : bool then GTE_WriteCtrl else GTE_WriteData) reg val g)) l g.

Lemma gte_writes_typed l : Forall (fun '(_, reg, val) => 0 <= reg < 32 /\ is_u32 val) l -> forall g, typed g -> typed (gte_writes l g).
Proof.
  induction 1 as [|[ [ctrl reg] val] l [Hr Hv] _ IH]; intros g Hg; [exact Hg|].
  cbn [gte_writes fold_left]. apply IH.
  destruct ctrl; [apply typed_write_ctrl | apply typed_write_data]; assumption.
Qed.

Definition scene : Gte := gte_writes
  [(true, 0, 0x1000); (true, 2, 0x1000); (true, 4, 0x1000); (true, 5, 10); (true, 6, 20); (true, 7, 1000);
   (true, 26, 500); (false, 0, 0x00020001); (false, 1, 3); (false, 2, 0x00020001); (false, 3, 3);
   (false, 4, 0x00020001); (false, 5, 3)] gte_reset.

Lemma scene_typed : typed scene.
Proof.
  apply gte_writes_typed; [|apply gte_reset_typed].
  repeat (apply List.Forall_cons; [unfold is_u32; lia|]). apply List.Forall_nil.
Qed.

Lemma mvmva_exact_witness : D d_IR3 (snd (gte_mvmva true false 0 0 0 scene)) = 1003.
Proof.
  pose proof (mvmva_exact true false 0 0 0 scene scene_typed ltac:(lia) ltac:(lia)) as H.
  cbv zeta in H. destruct H as [H _]. destruct (H 2 ltac:(lia)) as (_ & _ & E & _).
  change (d_IR1 + 2) with d_IR3 in E. rewrite E. vm_compute. reflexivity.
Defined.

(** ** Projection *)

Definition quotient (h sz : Z) : Z := if h <? sz * 2 then unr_divide h sz else 0x1FFFF.

(** A vertex in camera space and on the screen, from the state before the
    command. *)
Definition cam (g : Gte) (v i : Z) : Z := row_sum g 0 v 0 i.
Definition screen_z (g : Gte) (v : Z) : Z := clamp 0 0xFFFF (Z.shiftr (trunc44 (cam g v 2)) 12).
Definition scale (g : Gte) (v : Z) : Z := quotient (u16 (C c_H g)) (screen_z g v).
Definition screen_x (g : Gte) (v : Z) (sf lm : bool) : Z :=
  clamp (- 0x400) 0x3FF ((scale g v * ir_value (cam g v 0) sf lm + s32 (C c_OFX g)) / 65536).
Definition screen_y (g : Gte) (v : Z) (sf lm : bool) : Z :=
  clamp (- 0x400) 0x3FF ((scale g v * ir_value (cam g v 1) sf lm + s32 (C c_OFY g)) / 65536).
Definition screen_xy (g : Gte) (v : Z) (sf lm : bool) : Z :=
  Z.lor (u16 (screen_x g v sf lm)) (Z.shiftl (u16 (screen_y g v sf lm)) 16).
Definition depth_cueing (g : Gte) (v : Z) : Z := s16 (C c_DQA g) * scale g v + s32 (C c_DQB g).

Lemma quotient_range h sz : 0 <= h -> 0 <= sz < 65536 -> 0 <= quotient h sz <= 0x1FFFF.
Proof.
  intros Hh Hs. unfold quotient. destruct (Z.ltb_spec h (sz * 2)); [|lia].
  apply unr_divide_spec; lia.
Qed.

Definition divide_flags (h sz : Z) (g : Gte) : Gte := raise (negb (h <? sz * 2)) 17 g.
Lemma gte_divide_run h sz g : gte_divide h sz g = (quotient h sz, divide_flags h sz g).
Proof. unfold gte_divide, quotient, divide_flags. destruct (h <? sz * 2); [destruct g; reflexivity|]. reflexivity. Qed.

Lemma s16_u32 x : - 32768 <= x < 32768 -> s16 (u32 x) = x.
Proof.
  intros Hx. unfold s16, u16, u32.
  destruct (Z.ltb_spec (x mod 4294967296 mod 65536) 32768); zify_div.
Qed.

Lemma s32_small x : - 2147483648 <= x < 2147483648 -> s32 x = x.
Proof.
  intros Hx. unfold s32, u32. destruct (Z.ltb_spec (x mod 4294967296) 2147483648); zify_div.
Qed.

Lemma ir_value_range m sf lm : - 32768 <= ir_value m sf lm <= 32767.
Proof. pose proof (ir_low_range lm). pose proof (clamp_range (ir_low lm) 0x7FFF (s32 (mac_value m sf)) ltac:(lia)). unfold ir_value. lia. Qed.

(** Registers the projection reads, unchanged by it. *)
Definition same_scene (g g' : Gte) : Prop := gctrl g' = gctrl g /\ (forall n, 0 <= n <= 6 -> D n g' = D n g).

Lemma same_scene_cam g g' v i : same_scene g g' -> 0 <= v <= 2 -> cam g' v i = cam g v i.
Proof.
  intros [Hc Hd] Hv. unfold cam, row_sum, row_terms, get_matrix, get_vector, get_translation, C. rewrite Hc.
  assert (v = 0 \/ v = 1 \/ v = 2) as [-> | [-> | -> ] ] by lia;
    unfold d_VXY0, d_VZ0, d_VXY1, d_VZ1, d_VXY2, d_VZ2; rewrite !Hd by lia; reflexivity.
Qed.

Lemma same_scene_screen g g' v sf lm : same_scene g g' -> 0 <= v <= 2 ->
  screen_z g' v = screen_z g v /\ screen_xy g' v sf lm = screen_xy g v sf lm /\ depth_cueing g' v = depth_cueing g v.
Proof.
  intros H Hv. unfold screen_xy, screen_x, screen_y, depth_cueing, scale, screen_z.
  rewrite !(same_scene_cam g g' v _ H Hv). destruct H as [Hc _]. unfold C. rewrite Hc. auto.
Qed.

(** The quotient times IR, moved to the screen, fits 32 bits after the shift. *)
Lemma screen_s32 q ir o : 0 <= q <= 0x1FFFF -> - 32768 <= ir <= 32767 ->
  s32 (Z.shiftr (q * ir + s32 o) 16) = (q * ir + s32 o) / 65536.
Proof.
  intros Hq Hir. pose proof (s32_range o) as Ho. rewrite Z.shiftr_div_pow2 by lia. change (2 ^ 16) with 65536.
  assert (- 4294967296 <= q * ir <= 4294967296) by nia. apply s32_small. zify_div.
Qed.

Lemma scale_range g v : 0 <= scale g v <= 0x1FFFF.
Proof.
  unfold scale. apply quotient_range; [pose proof (u16_range (C c_H g)) as H; unfold is_u16 in H; lia|].
  unfold screen_z. pose proof (clamp_range 0 0xFFFF (Z.shiftr (trunc44 (cam g v 2)) 12) ltac:(lia)). lia.
Qed.

Lemma screen_z_u16 g v : u16 (screen_z g v) = screen_z g v.
Proof. apply u16_small. unfold is_u16, screen_z. pose proof (clamp_range 0 0xFFFF (Z.shiftr (trunc44 (cam g v 2)) 12) ltac:(lia)). lia. Qed.

(** What an action leaves alone: the control registers and the data registers
    outside a list. *)
Definition touches (regs : list Z) (g g' : Gte) : Prop :=
  sized g' /\ gctrl g' = gctrl g /\ forall n, 0 <= n -> forallb (fun r => negb (r =? n)) regs = true -> D n g' = D n g.

Lemma touches_trans l1 l2 g1 g2 g3 : touches l1 g1 g2 -> touches l2 g2 g3 -> touches (l1 ++ l2) g1 g3.
Proof.
  intros (_ & C1 & D1) (S2 & C2 & D2). split; [exact S2|]. split; [congruence|].
  intros n Hn H. rewrite forallb_app in H. apply andb_prop in H as [H1 H2]. rewrite D2, D1 by assumption. reflexivity.
Qed.

Lemma touches_C l g g' n : touches l g g' -> C n g' = C n g.
Proof. intros (_ & H & _). unfold C. rewrite H. reflexivity. Qed.

Lemma touches_weaken l l' g g' :
  forallb (fun r => existsb (Z.eqb r) l') l = true -> touches l g g' -> touches l' g g'.
Proof.
  intros Hl (A & B & H). split; [exact A|]. split; [exact B|]. intros n Hn Hf. apply H; [exact Hn|].
  rewrite forallb_forall in *. intros r Hr. pose proof (Hl r Hr) as E. apply existsb_exists in E as (r' & Hr' & E).
  apply Z.eqb_eq in E as ->. apply Hf, Hr'.
Qed.

Lemma touches_set_data l n v g g' : 0 <= n < 32 -> touches l g g' -> touches (n :: l) g (set_data n v g').
Proof.
  intros Hn (A & B & H). split; [apply sized_set_data, A|]. split; [exact B|]. intros k Hk Hf.
  cbn [forallb] in Hf. apply andb_prop in Hf as [H1 H2]. apply negb_true_iff in H1.
  rewrite D_set_data, H1 by assumption. apply H; assumption.
Qed.

(** A state that differs in the flags only. *)
Definition same_registers (g g' : Gte) : Prop := gdata g' = gdata g /\ gctrl g' = gctrl g.

Lemma touches_flags l g g1 g2 : same_registers g1 g2 -> touches l g g1 -> touches l g g2.
Proof.
  intros [Ed Ec] ((S1 & S2) & B & H). split; [split; congruence|]. split; [congruence|].
  intros n Hn Hf. rewrite <- H by assumption. unfold D. rewrite Ed. reflexivity.
Qed.

Lemma same_D g g' n : same_registers g g' -> D n g' = D n g.
Proof. intros [H _]. unfold D. rewrite H. reflexivity. Qed.
Lemma same_C g g' n : same_registers g g' -> C n g' = C n g.
Proof. intros [_ H]. unfold C. rewrite H. reflexivity. Qed.

Lemma touches_nil g : sized g -> touches [] g g.
Proof. intros H. split; [exact H|]. split; [reflexivity | auto]. Qed.

Ltac touching := eapply touches_weaken;
  [|repeat first [apply touches_set_data; [literal|] |
     match goal with |- touches _ _ (raise ?b ?k ?g) => apply (touches_flags _ _ g); [split; reflexivity|]
       | |- touches _ _ (mac_overflow_flags ?v ?n ?g) => apply (touches_flags _ _ g); [split; reflexivity|]
       | |- touches _ _ (mac0_overflow_flags ?v ?g) => apply (touches_flags _ _ g); [split; reflexivity|] end];
     first [eassumption | apply touches_nil; gte_sized] ]; vm_compute; reflexivity.

Lemma push_sz_read val g : sized g -> let g' := snd (push_sz val g) in
  touches [d_SZ0; d_SZ1; d_SZ2; d_SZ3] g g' /\
  D d_SZ0 g' = D d_SZ1 g /\ D d_SZ1 g' = D d_SZ2 g /\ D d_SZ2 g' = D d_SZ3 g /\ D d_SZ3 g' = clamp 0 0xFFFF val.
Proof.
  intros Hs. cbv zeta. unfold push_sz, saturate_sz. gte_run.
  split; [touching | repeat split; gte_read; reflexivity].
Qed.

Lemma push_sxy_read sx sy g : sized g -> let g' := snd (push_sxy sx sy g) in
  touches [d_SXY0; d_SXY1; d_SXY2] g g' /\
  D d_SXY0 g' = D d_SXY1 g /\ D d_SXY1 g' = D d_SXY2 g /\
  D d_SXY2 g' = Z.lor (u16 (clamp (- 0x400) 0x3FF sx)) (Z.shiftl (u16 (clamp (- 0x400) 0x3FF sy)) 16).
Proof.
  intros Hs. cbv zeta. unfold push_sxy, saturate_sx, saturate_sy. gte_run.
  split; [touching | repeat split; gte_read; reflexivity].
Qed.

(** MAC1..3 and IR1..3 of a vertex. *)
Definition rtps_vertex (m1 m2 m3 : Z) (sf lm : bool) : M unit :=
  (store_mac m1 m2 m3 sf ;; ir_from_mac 1 lm ;; ir_from_mac 2 lm ;; rtps_ir3 m3 sf lm)%gte.

Lemma rtps_vertex_read m1 m2 m3 sf lm g : sized g -> let g' := snd (rtps_vertex m1 m2 m3 sf lm g) in
  touches [9; 10; 11; 25; 26; 27] g g' /\
  D d_IR1 g' = u32 (ir_value m1 sf lm) /\ D d_IR2 g' = u32 (ir_value m2 sf lm).
Proof.
  intros Hs. cbv zeta. unfold rtps_vertex, rtps_ir3. gte_run. unfold ir_value, mac_value.
  split; [touching | split; gte_read; reflexivity].
Qed.

(** The screen coordinate of [IR] for the quotient [q]. *)
Definition screen_coord (q ir o : Z) : Z := clamp (- 0x400) 0x3FF ((q * ir + s32 o) / 65536).

Lemma rtps_screen_read check last g : sized g ->
  - 32768 <= s16 (D d_IR1 g) <= 32767 -> - 32768 <= s16 (D d_IR2 g) <= 32767 ->
  let q := quotient (u16 (C c_H g)) (u16 (D d_SZ3 g)) in
  let dq := s16 (C c_DQA g) * q + s32 (C c_DQB g) in
  let g' := snd (rtps_screen check last g) in
  touches [d_SXY0; d_SXY1; d_SXY2; d_MAC0; d_IR0] g g' /\
  (D d_SXY0 g' = D d_SXY1 g /\ D d_SXY1 g' = D d_SXY2 g /\
   D d_SXY2 g' = Z.lor (u16 (screen_coord q (s16 (D d_IR1 g)) (C c_OFX g)))
                       (Z.shiftl (u16 (screen_coord q (s16 (D d_IR2 g)) (C c_OFY g))) 16)) /\
  (last = true -> D d_MAC0 g' = u32 dq /\ D d_IR0 g' = u32 (clamp 0 0x1000 (Z.shiftr dq 12))).
Proof.
  intros Hs H1 H2. cbv zeta. set (q := quotient _ _).
  assert (Hq : 0 <= q <= 0x1FFFF).
  { apply quotient_range; [pose proof (u16_range (C c_H g)) as H | pose proof (u16_range (D d_SZ3 g)) as H];
      unfold is_u16 in H; lia. }
  unfold rtps_screen. rewrite bind_run, gte_divide_run. cbn [fst snd]. fold q.
  set (g1 := divide_flags _ _ g). assert (S1 : sized g1) by exact Hs.
  assert (R1 : same_registers g g1) by (split; reflexivity). clearbody g1.
  rewrite bind_run, gets_run, bind_run, gets_run, bind_run. cbn [fst snd]. rewrite !(same_D g g1), !(same_C g g1) by exact R1.
  rewrite (s32_small q) by lia. rewrite !screen_s32 by assumption.
  set (a := s16 (D d_IR1 g)) in *. set (b := s16 (D d_IR2 g)) in *.
  set (g2 := snd (when check _ g1)).
  assert (R2 : same_registers g g2) by (subst g2; destruct check; cbn [when]; gte_run; exact R1).
  assert (T2 : touches [] g g2) by (apply (touches_flags _ _ g); [exact R2 | apply touches_nil, Hs]).
  clearbody g2. rewrite bind_run. cbn [fst snd].
  pose proof (push_sxy_read ((q * a + s32 (C c_OFX g)) / 65536) ((q * b + s32 (C c_OFY g)) / 65536) g2 (proj1 T2)) as P.
  cbv zeta in P. destruct P as (T3 & P0 & P1 & P2).
  set (g3 := snd (push_sxy _ _ g2)) in *. clearbody g3. apply (touches_trans _ _ _ _ _ T2) in T3.
  rewrite !(same_D g g2) in * by exact R2. pose proof (touches_C _ _ _ c_DQA T3) as KA. pose proof (touches_C _ _ _ c_DQB T3) as KB.
  destruct last; cbn [when].
  - unfold saturate_ir0. rewrite bind_run, gets_run, bind_run. cbn [fst snd]. rewrite KA, KB.
    set (dq := _ + _). set (g4 := snd (when check _ g3)).
    assert (R4 : same_registers g3 g4) by (subst g4; destruct check; cbn [when]; gte_run; split; reflexivity).
    clearbody g4. apply (touches_flags _ _ _ _ R4) in T3. pose proof (proj1 T3) as S4. gte_run.
    split; [touching|]. split; [repeat split; gte_read; rewrite (same_D g3 g4) by exact R4; assumption|].
    intros _. split; gte_read; reflexivity.
  - rewrite ret_run. cbn [fst snd]. split; [touching | split; [auto | discriminate] ].
Qed.

(** One vertex of a perspective transformation; the registers it writes are
    IR0 to IR3, SXY0 to SXY2, SZ0 to SZ3 and MAC0 to MAC3. *)
Definition rtps_regs : list Z := [8; 9; 10; 11; 12; 13; 14; 16; 17; 18; 19; 24; 25; 26; 27].

Lemma rtps_core_spec v sf lm last g : sized g ->
  let g' := snd (gte_rtps_core v sf lm last g) in
  touches rtps_regs g g' /\
  (D d_SZ0 g' = D d_SZ1 g /\ D d_SZ1 g' = D d_SZ2 g /\ D d_SZ2 g' = D d_SZ3 g /\ D d_SZ3 g' = screen_z g v) /\
  (D d_SXY0 g' = D d_SXY1 g /\ D d_SXY1 g' = D d_SXY2 g /\ D d_SXY2 g' = screen_xy g v sf lm) /\
  (last = true -> D d_MAC0 g' = u32 (depth_cueing g v) /\
    D d_IR0 g' = u32 (clamp 0 0x1000 (Z.shiftr (depth_cueing g v) 12))).
Proof.
  intros Hs. cbv zeta. unfold gte_rtps_core. do 3 (rewrite bind_run, mac_sum_run; cbn [fst snd]).
  set (g1 := mac_sum_flags 3 _ _ _ _ _). assert (R1 : same_registers g g1) by (split; reflexivity). clearbody g1.
  change (Z.shiftl (s32 (C c_TRX g)) 12 + _ + _ + _) with (cam g v 0).
  change (Z.shiftl (s32 (C c_TRY g)) 12 + _ + _ + _) with (cam g v 1).
  change (Z.shiftl (s32 (C c_TRZ g)) 12 + _ + _ + _) with (cam g v 2).
  assert (T1 : touches [] g g1) by (apply (touches_flags _ _ g); [exact R1 | apply touches_nil, Hs]).
  set (tail := snd _).
  assert (Et : tail = snd (rtps_screen true last (snd (push_sz (Z.shiftr (trunc44 (cam g v 2)) 12)
                       (snd (rtps_vertex (cam g v 0) (cam g v 1) (cam g v 2) sf lm g1))))))
    by (subst tail; unfold rtps_vertex; rewrite !bind_run; reflexivity).
  clearbody tail. subst tail.
  pose proof (rtps_vertex_read (cam g v 0) (cam g v 1) (cam g v 2) sf lm g1 (proj1 T1)) as P.
  cbv zeta in P. destruct P as (T2 & I1 & I2). set (g2 := snd (rtps_vertex _ _ _ _ _ g1)) in *. clearbody g2.
  apply (touches_trans _ _ _ _ _ T1) in T2.
  pose proof (push_sz_read (Z.shiftr (trunc44 (cam g v 2)) 12) g2 (proj1 T2)) as P.
  cbv zeta in P. destruct P as (T3 & Z0 & Z1 & Z2 & Z3). set (g3 := snd (push_sz _ g2)) in *. clearbody g3.
  fold (screen_z g v) in Z3. pose proof T3 as T3'. apply (touches_trans _ _ _ _ _ T2) in T3.
  assert (J1 : s16 (D d_IR1 g3) = ir_value (cam g v 0) sf lm).
  { rewrite (proj2 (proj2 T3')), I1 by (literal || reflexivity). pose proof (ir_value_range (cam g v 0) sf lm). apply s16_u32. lia. }
  assert (J2 : s16 (D d_IR2 g3) = ir_value (cam g v 1) sf lm).
  { rewrite (proj2 (proj2 T3')), I2 by (literal || reflexivity). pose proof (ir_value_range (cam g v 1) sf lm). apply s16_u32. lia. }
  pose proof (rtps_screen_read true last g3 (proj1 T3)) as P. rewrite J1, J2 in P.
  specialize (P (ir_value_range _ _ _) (ir_value_range _ _ _)). cbv zeta in P.
  rewrite Z3, screen_z_u16, !(touches_C _ _ _ _ T3) in P. destruct P as (T4 & (S0 & S1 & S2) & L).
  set (g4 := snd (rtps_screen _ _ _)) in *. clearbody g4. pose proof T4 as T4'. apply (touches_trans _ _ _ _ _ T3) in T4.
  assert (F3 : forall n, 0 <= n -> forallb (fun r => negb (r =? n)) [9; 10; 11; 25; 26; 27; 16; 17; 18; 19] = true -> D n g3 = D n g)
    by (intros n Hn Hf; apply T3; assumption).
  assert (F4 : forall n, 0 <= n -> forallb (fun r => negb (r =? n)) [12; 13; 14; 24; 8] = true -> D n g4 = D n g3)
    by (intros n Hn Hf; apply T4'; assumption).
  assert (F2 : forall n, 0 <= n -> forallb (fun r => negb (r =? n)) [9; 10; 11; 25; 26; 27] = true -> D n g2 = D n g)
    by (intros n Hn Hf; apply T2; assumption).
  split; [eapply touches_weaken; [|exact T4]; reflexivity|].
  split; [rewrite !F4, Z0, Z1, Z2, Z3, !F2 by (literal || reflexivity); auto|].
  split; [rewrite S0, S1, S2, !F3 by (literal || reflexivity); auto|].
  exact L.
Qed.

Lemma touches_scene l g g' : touches l g g' ->
  forallb (fun r => 6 <? r) l = true -> same_scene g g'.
Proof.
  intros (_ & Hc & H) Hl. split; [exact Hc|]. intros n Hn. apply H; [lia|]. rewrite forallb_forall in *.
  intros r Hr. pose proof (Hl r Hr) as E. apply Z.ltb_lt in E. apply negb_true_iff, Z.eqb_neq. lia.
Qed.

(** What a command leaves, up to the FLAG register. *)
Lemma flagged_read m g : exists g0, same_registers g g0 /\
  (forall n, D n (snd (flagged m g)) = D n (snd (m g0))) /\
  (forall n, 0 <= n < 31 -> C n (snd (flagged m g)) = C n (snd (m g0))).
Proof.
  exists (snd (flag_reset g)). split; [split; reflexivity|]. unfold flagged. rewrite !bind_run, gets_run.
  set (g1 := snd (m _)). split; [reflexivity|]. intros n Hn. cbn [fst snd]. rewrite setC_run.
  unfold C, set_ctrl. cbn. apply anth_aset_ne; unfold c_FLAG; lia.
Qed.

(** [C20] A triangle is projected.  After [RTPT], from any registers and for
    every [sf] and [lm]: the depths of the three vertices are in SZ1, SZ2 and
    SZ3 (the old SZ3 in SZ0), their screen positions in SXY0, SXY1 and SXY2,
    in order; MAC0 and IR0 hold the depth cueing of the last one.  The
    position of a vertex is the screen offset plus the division result times
    its rotated and translated coordinate, over 65536 and clamped to
    -1024..1023.  No register changes but these, MAC1 to MAC3, IR1 to IR3 and
    the flag. *)
Theorem rtpt_projects sf lm g : sized g ->
  let g' := snd (GTE_Inline_RTPT sf lm g) in
  (D d_SZ0 g' = D d_SZ3 g /\ D d_SZ1 g' = screen_z g 0 /\ D d_SZ2 g' = screen_z g 1 /\ D d_SZ3 g' = screen_z g 2) /\
  (D d_SXY0 g' = screen_xy g 0 sf lm /\ D d_SXY1 g' = screen_xy g 1 sf lm /\ D d_SXY2 g' = screen_xy g 2 sf lm) /\
  (D d_MAC0 g' = u32 (depth_cueing g 2) /\ D d_IR0 g' = u32 (clamp 0 0x1000 (Z.shiftr (depth_cueing g 2) 12))) /\
  (forall n, 0 <= n -> ~ In n rtps_regs -> D n g' = D n g) /\ (forall n, 0 <= n < 31 -> C n g' = C n g).
Proof.
  intros Hs. cbv zeta.
  destruct (flagged_read (gte_cmd_rtpt sf lm) g) as (g0 & R0 & ED & EC).
  change (GTE_Inline_RTPT sf lm) with (flagged (gte_cmd_rtpt sf lm)). unfold gte_cmd_rtpt in ED, EC.
  rewrite !bind_run in ED, EC.
  assert (T0 : touches [] g g0) by (apply (touches_flags _ _ g); [exact R0 | apply touches_nil, Hs]).
  assert (N0 : same_scene g g0) by (apply (touches_scene _ _ _ T0); reflexivity).
  pose proof (rtps_core_spec 0 sf lm false g0 (proj1 T0)) as P. cbv zeta in P. destruct P as (T1 & Z1 & S1 & _).
  set (g1 := snd (gte_rtps_core 0 sf lm false g0)) in *. clearbody g1. apply (touches_trans _ _ _ _ _ T0) in T1.
  assert (N1 : same_scene g g1) by (apply (touches_scene _ _ _ T1); reflexivity).
  pose proof (rtps_core_spec 1 sf lm false g1 (proj1 T1)) as P. cbv zeta in P. destruct P as (T2 & Z2 & S2 & _).
  set (g2 := snd (gte_rtps_core 1 sf lm false g1)) in *. clearbody g2. apply (touches_trans _ _ _ _ _ T1) in T2.
  assert (N2 : same_scene g g2) by (apply (touches_scene _ _ _ T2); reflexivity).
  pose proof (rtps_core_spec 2 sf lm true g2 (proj1 T2)) as P. cbv zeta in P. destruct P as (T3 & Z3 & S3 & L).
  set (g3 := snd (gte_rtps_core 2 sf lm true g2)) in *. clearbody g3. apply (touches_trans _ _ _ _ _ T2) in T3.
  destruct (L eq_refl) as [L1 L2].
  destruct (same_scene_screen g g0 0 sf lm N0 ltac:(lia)) as (A0 & B0 & _).
  destruct (same_scene_screen g g1 1 sf lm N1 ltac:(lia)) as (A1 & B1 & _).
  destruct (same_scene_screen g g2 2 sf lm N2 ltac:(lia)) as (A2 & B2 & K2).
  rewrite !ED. destruct Z1 as (? & ? & ? & ?), Z2 as (? & ? & ? & ?), Z3 as (? & ? & ? & ?).
  destruct S1 as (? & ? & ?), S2 as (? & ? & ?), S3 as (? & ? & ?).
  assert (D d_SZ3 g0 = D d_SZ3 g) by (apply same_D, R0).
  split; [repeat split; congruence|]. split; [repeat split; congruence|]. split; [split; congruence|].
  split; [intros n Hn0 Hn | intros n Hn].
  { rewrite ED. assert (T4 : touches rtps_regs g g3) by (eapply touches_weaken; [|exact T3]; reflexivity). apply (proj2 (proj2 T4)); [exact Hn0|].
    apply forallb_forall. intros r Hr. apply negb_true_iff, Z.eqb_neq. intros ->. exact (Hn Hr). }
  rewrite EC by exact Hn. apply (touches_C _ _ _ n T3).
Qed.

Lemma rtpt_projects_witness :
  D d_SZ3 (snd (GTE_Inline_RTPT true false scene)) = 1003 /\
  D d_SXY2 (snd (GTE_Inline_RTPT true false scene)) = screen_xy scene 2 true false /\ screen_xy scene 2 true false <> 0.
Proof.
  pose proof (rtpt_projects true false scene (ty_sized _ scene_typed)) as H. cbv zeta in H.
  destruct H as ((_ & _ & _ & Z3) & (_ & _ & S2) & _). rewrite Z3, S2.
  split; [vm_compute; reflexivity|]. split; [reflexivity | vm_compute; discriminate].
Defined.
