(* ===== verification/Spu.v ===== *)
(** * The sound processor ([src/spu.c])

    24 ADPCM voices with their envelopes, the register file, the transfer
    port and DMA channel 4, the mixer that generates samples on demand and the
    hand-over to the audio backend.  The static variables of [spu.c] are the
    record [Spu]; the functions thread it next to [Sys].  Arithmetic on [int]
    is written without a wrap where the invariant [spu_ok] excludes overflow
    and with [s32] elsewhere. *)

From S2P Require Import Prelude Scheduler System.

Definition SPU_RAM_SIZE : Z := 0x80000.
Definition SPU_NUM_VOICES : Z := 24.
Definition SAMPLES_PER_FRAME : Z := 735.
Definition SPU_MIX_BUF_SIZE : Z := 736.
Definition CYCLES_PER_SAMPLE : Z := 768.
Definition SPU_PSX_RAM_SIZE : Z := 0x200000.

Inductive AdsrPhase := ADSR_ATTACK | ADSR_DECAY | ADSR_SUSTAIN | ADSR_RELEASE | ADSR_OFF.
#[export] Instance AdsrPhase_eq_dec : EqDecision AdsrPhase.
Proof. solve_decision. Defined.

Record SPU_Voice := mkVoice {
  vol_l : Z; vol_r : Z; pitch : Z; start_addr : Z; adsr_lo : Z; adsr_hi : Z;
  adsr_level : Z; repeat_addr : Z;
  active : bool; current_addr : Z; sample_pos : Z; prev0 : Z; prev1 : Z;
  decoded : list Z; block_decoded : bool; loop_pending : bool; ignore_loop : bool;
  adsr_vol : Z; adsr_phase : AdsrPhase; adsr_counter : Z;
  adsr_ci : Z; adsr_step : Z; adsr_exp : bool; adsr_inc : bool; adsr_sl : Z
}.
#[export] Instance eta_Voice : Eta SPU_Voice := fun v =>
  mkVoice (vol_l v) (vol_r v) (pitch v) (start_addr v) (adsr_lo v) (adsr_hi v)
    (adsr_level v) (repeat_addr v) (active v) (current_addr v) (sample_pos v) (prev0 v) (prev1 v)
    (decoded v) (block_decoded v) (loop_pending v) (ignore_loop v)
    (adsr_vol v) (adsr_phase v) (adsr_counter v)
    (adsr_ci v) (adsr_step v) (adsr_exp v) (adsr_inc v) (adsr_sl v).

(** [memset(voices, 0)]. *)
Definition voice0 : SPU_Voice :=
  mkVoice 0 0 0 0 0 0 0 0 false 0 0 0 0 (repeat 0 28) false false false 0 ADSR_ATTACK 0 0 0 false false 0.

(** The statics of [spu.c].  [audio_out] lists the buffers handed to
    [Audio_Backend_Play], as interleaved samples; [prof_disable_spu] is the
    profiler's switch. *)
Record Spu := mkSpu {
  spu_ram : gmap Z Z; voices : list SPU_Voice;
  main_vol_l : Z; main_vol_r : Z; key_on_lo : Z; key_on_hi : Z; endx : Z;
  spu_cnt : Z; spu_stat : Z; transfer_addr : Z; transfer_ptr : Z; spu_data_fifo : Z;
  pending_kon : Z; spu_reg_store : list Z;
  spu_irq_addr : Z; spu_irq_enabled : bool; spu_irq_fired : bool;
  mix_buf_l : list Z; mix_buf_r : list Z;
  spu_initialized : bool; spu_samples_generated : Z; spu_frame_start_cycle : Z;
  prof_disable_spu : bool; audio_out : list (list Z)
}.
#[export] Instance eta_Spu : Eta Spu := fun x =>
  mkSpu (spu_ram x) (voices x) (main_vol_l x) (main_vol_r x) (key_on_lo x) (key_on_hi x) (endx x)
    (spu_cnt x) (spu_stat x) (transfer_addr x) (transfer_ptr x) (spu_data_fifo x)
    (pending_kon x) (spu_reg_store x) (spu_irq_addr x) (spu_irq_enabled x) (spu_irq_fired x)
    (mix_buf_l x) (mix_buf_r x) (spu_initialized x) (spu_samples_generated x)
    (spu_frame_start_cycle x) (prof_disable_spu x) (audio_out x).

Definition SpuSys : Type := Spu * Sys.
Definition upd_spu (f : Spu -> Spu) (x : SpuSys) : SpuSys := (f (fst x), snd x).
Definition get_voice (i : Z) (x : Spu) : SPU_Voice := anth voice0 (voices x) i.
Definition set_voice (i : Z) (v : SPU_Voice) (x : Spu) : Spu := x <| voices ::= fun l => aset l i v |>.

(** ** The envelope *)

(** The register fields of a phase: shift, step index, exponential,
    decreasing; [None] when the envelope is off. *)
Definition adsr_fields (p : AdsrPhase) (lo hi : Z) : option (Z * Z * bool * bool) :=
  match p with
  | ADSR_ATTACK => Some (Z.land (Z.shiftr lo 10) 0x1F, Z.land (Z.shiftr lo 8) 0x03, tst (Z.shiftr lo 15) 1, false)
  | ADSR_DECAY => Some (Z.land (Z.shiftr lo 4) 0x0F, 0, true, true)
  | ADSR_SUSTAIN =>
    Some (Z.land (Z.shiftr hi 8) 0x1F, Z.land (Z.shiftr hi 6) 0x03, tst (Z.shiftr hi 15) 1, tst (Z.shiftr hi 14) 1)
  | ADSR_RELEASE => Some (Z.land hi 0x1F, 0, tst (Z.shiftr hi 5) 1, true)
  | ADSR_OFF => None
  end.

(** [CounterIncrement], the signed step, exponential, increasing. *)
Definition adsr_params (p : AdsrPhase) (lo hi : Z) : Z * Z * bool * bool :=
  match adsr_fields p lo hi with
  | None => (0, 0, false, false)
  | Some (shift, step_idx, is_exp, is_dec) =>
    let ci_shift := shift - 11 in
    let su := 11 - shift in
    let raw_step := if is_dec then 8 - step_idx else 7 - step_idx in
    let base := if 0 <? su then Z.shiftl raw_step su else raw_step in
    (if 0 <? ci_shift then Z.shiftr 0x8000 ci_shift else 0x8000,
     if is_dec then - base else base, is_exp, negb is_dec)
  end.

(** The five cached parameters at once. *)
Definition set_params (ci step : Z) (is_exp is_inc : bool) (sl : Z) (v : SPU_Voice) : SPU_Voice :=
  mkVoice (vol_l v) (vol_r v) (pitch v) (start_addr v) (adsr_lo v) (adsr_hi v)
    (adsr_level v) (repeat_addr v) (active v) (current_addr v) (sample_pos v) (prev0 v) (prev1 v)
    (decoded v) (block_decoded v) (loop_pending v) (ignore_loop v)
    (adsr_vol v) (adsr_phase v) (adsr_counter v) ci step is_exp is_inc sl.

Definition adsr_reload_params (v : SPU_Voice) : SPU_Voice :=
  let '(ci, step, is_exp, is_inc) := adsr_params (adsr_phase v) (adsr_lo v) (adsr_hi v) in
  set_params ci step is_exp is_inc (Z.shiftl (Z.land (adsr_lo v) 0x0F + 1) 11) v.

(** The counter increment, slowed in the upper part of an exponential rise. *)
Definition adsr_rate (v : SPU_Voice) : Z :=
  if adsr_exp v && adsr_inc v && (0x6000 <? adsr_vol v) then Z.shiftr (adsr_ci v) 2 else adsr_ci v.

(** The volume after the step of an overflow, before clamping. *)
Definition adsr_next_vol (v : SPU_Voice) : Z :=
  let vol := adsr_vol v in
  let step := adsr_step v in
  vol + (if adsr_exp v && negb (adsr_inc v) then Z.shiftr (step * vol) 15 else step).

(** Clamping and phase changes; the volume is returned next to the voice. *)
Definition adsr_transition (vol : Z) (v : SPU_Voice) : Z * SPU_Voice :=
  match adsr_phase v with
  | ADSR_ATTACK =>
    if (0x7FFF <=? vol) || (vol <? 0)
    then (0x7FFF, adsr_reload_params (v <| adsr_phase := ADSR_DECAY |> <| adsr_counter := 0 |>))
    else (vol, v)
  | ADSR_DECAY =>
    let vol := if vol <? 0 then 0 else vol in
    if vol <=? adsr_sl v
    then (adsr_sl v, adsr_reload_params (v <| adsr_phase := ADSR_SUSTAIN |> <| adsr_counter := 0 |>))
    else (vol, v)
  | ADSR_SUSTAIN =>
    if adsr_inc v then (if 0x7FFF <? vol then 0x7FFF else vol, v)
    else (if vol <? 0 then 0 else vol, v)
  | ADSR_RELEASE =>
    let vol := if vol <? 0 then 0 else vol in
    if vol =? 0 then (vol, v <| adsr_phase := ADSR_OFF |> <| active := false |>) else (vol, v)
  | ADSR_OFF => (vol, v)
  end.

Definition adsr_tick (v : SPU_Voice) : SPU_Voice :=
  let v := v <| adsr_counter ::= fun k => k + adsr_rate v |> in
  if adsr_counter v <? 0x8000 then v
  else
    let v := v <| adsr_counter ::= fun k => Z.land k 0x7FFF |> in
    let '(vol, v) := adsr_transition (adsr_next_vol v) v in
    v <| adsr_vol := vol |> <| adsr_level := u16 (Z.land (u32 vol) 0x7FFF) |>.

(** The argument is an [int16_t]; both branches double its low 15 bits. *)
Definition get_effective_volume (raw : Z) : Z :=
  let v := Z.shiftl (Z.land raw 0x7FFF) 1 in
  if tst raw (-32768) then (if 0x7FFF <? v then 0x7FFF else v)
  else
    let v := if 0x7FFF <? v then 0x7FFF else v in
    if v <? 0 then 0 else v.

(** ** ADPCM *)

Definition adpcm_filter : list (Z * Z) := [(0, 0); (60, 0); (115, -52); (98, -55); (122, -60)].

(** Both nibbles of a data byte, sign-extended and shifted. *)
Definition nibble_lo (b : Z) : Z := Z.shiftr (s8 (Z.shiftl (Z.land b 0x0F) 4)) 4.
Definition nibble_hi (b : Z) : Z := Z.shiftr (s8 (Z.land b 0xF0)) 4.
Definition shift_nibble (shift n : Z) : Z := s16 (Z.shiftr (Z.shiftl n 12) shift).

(** [shifted[28]]: pass 1. *)
Definition adpcm_shifted (m : gmap Z Z) (block shift : Z) : list Z :=
  flat_map (fun i =>
    let byte := rd8 m (block + 2 + i) in
    [shift_nibble shift (nibble_lo byte); shift_nibble shift (nibble_hi byte)]) (zseq 14).

Definition clamp16 (x : Z) : Z :=
  let x := if 32767 <? x then 32767 else x in
  if x <? -32768 then -32768 else x.

(** Pass 2: the samples and the final history [(s_1, s_2)]. *)
Fixpoint adpcm_iir (f0 f1 : Z) (shifted : list Z) (s_1 s_2 : Z) : list Z * (Z * Z) :=
  match shifted with
  | [] => ([], (s_1, s_2))
  | x :: shifted =>
    let sample := clamp16 (x + Z.shiftr (s_1 * f0 + s_2 * f1 + 32) 6) in
    let '(out, h) := adpcm_iir f0 f1 shifted sample s_1 in (sample :: out, h)
  end.

(** The samples of a block and the new history; filter 0 takes the fast
    path. *)
Definition adpcm_samples (filter : Z) (shifted : list Z) (s_1 s_2 : Z) : list Z * (Z * Z) :=
  if filter =? 0 then (shifted, (aget shifted 27, aget shifted 26))
  else let '(f0, f1) := anth (0, 0) adpcm_filter filter in adpcm_iir f0 f1 shifted s_1 s_2.

(** The loop flags of a decoded block, and ENDX. *)
Definition adpcm_flags (i addr flags : Z) (v : SPU_Voice) (x : Spu) : SPU_Voice * Spu :=
  let v := if tst flags 0x04 && negb (ignore_loop v) then v <| repeat_addr := u16 (Z.shiftr addr 3) |> else v in
  if tst flags 0x01 then
    let x := x <| endx ::= fun e => Z.lor e (Z.shiftl 1 i) |> in
    if tst flags 0x02 then (v <| loop_pending := true |>, x)
    else (v <| loop_pending := false |> <| active := false |>, x)
  else (v, x).

Definition decode_adpcm_block (i : Z) (v : SPU_Voice) (addr : Z) (x : Spu) : SPU_Voice * Spu :=
  let block := Z.land addr (SPU_RAM_SIZE - 1) in
  let shift_filter := rd8 (spu_ram x) block in
  let flags := rd8 (spu_ram x) (block + 1) in
  let shift := Z.land shift_filter 0x0F in
  let filter := Z.land (Z.shiftr shift_filter 4) 0x07 in
  let filter := if 4 <? filter then 4 else filter in
  let shifted := adpcm_shifted (spu_ram x) block shift in
  let '(out, (s_1, s_2)) := adpcm_samples filter shifted (prev0 v) (prev1 v) in
  adpcm_flags i addr flags
    (v <| decoded := out |> <| prev0 := s_1 |> <| prev1 := s_2 |> <| block_decoded := true |>) x.

(** ** Key on, key off *)

(** [__builtin_ctz] of a non-zero word. *)
Fixpoint pos_ctz (p : positive) : Z :=
  match p with xO p => 1 + pos_ctz p | _ => 0 end.
Definition ctz (k : Z) : Z := match k with Zpos p => pos_ctz p | _ => 0 end.

(** The bit-scan loop; 32 rounds clear every bit of a word. *)
Fixpoint scan_bits {X : Type} (fuel : nat) (f : Z -> X -> X) (k : Z) (x : X) : X :=
  match fuel with
  | O => x
  | S fuel =>
    if k =? 0 then x
    else
      let i := ctz k in
      if SPU_NUM_VOICES <=? i then x
      else scan_bits fuel f (Z.land k (k - 1)) (f i x)
  end.

(** The assignments of key on, in one record. *)
Definition key_on_reset (v : SPU_Voice) : SPU_Voice :=
  mkVoice (vol_l v) (vol_r v) (pitch v) (start_addr v) (adsr_lo v) (adsr_hi v)
    0 (repeat_addr v) true (Z.shiftl (Z.land (start_addr v) (Z.lnot 1)) 3) 0 0 0
    (decoded v) false false false 0 ADSR_ATTACK 0
    (adsr_ci v) (adsr_step v) (adsr_exp v) (adsr_inc v) (adsr_sl v).

Definition key_on_voice (i : Z) (x : Spu) : Spu :=
  (set_voice i (adsr_reload_params (key_on_reset (get_voice i x))) x)
    <| endx ::= fun e => Z.land e (not32 (Z.shiftl 1 i)) |>.

Definition process_key_on (kon : Z) (x : Spu) : Spu := scan_bits 32 key_on_voice kon x.

Definition flush_pending_kon (x : Spu) : Spu :=
  if pending_kon x =? 0 then x else (process_key_on (pending_kon x) x) <| pending_kon := 0 |>.

Definition key_off_voice (i : Z) (x : Spu) : Spu :=
  let v := get_voice i x in
  if active v
  then set_voice i (adsr_reload_params (v <| adsr_phase := ADSR_RELEASE |> <| adsr_counter := 0 |>)) x
  else x.

Definition process_key_off (koff : Z) (x : Spu) : Spu := scan_bits 32 key_off_voice koff x.

(** ** The IRQ9 address match *)

Definition irq9_check (addr : Z) (x : SpuSys) : SpuSys :=
  let p := fst x in
  if spu_irq_enabled p && negb (spu_irq_fired p) && (addr =? spu_irq_addr p)
  then (p <| spu_stat ::= fun s => Z.lor s 0x0040 |> <| spu_irq_fired := true |>, SignalInterrupt 9 (snd x))
  else x.

(** ** Mixing *)

(** The locals of the mixing loop of one voice. *)
Record Mix := mkMix {
  mv : SPU_Voice;       (* *v *)
  ms : Z;               (* s *)
  m_last : Z;           (* last_adsr_vol *)
  m_comb_l : Z; m_comb_r : Z;
  m_env : SpuSys
}.
#[export] Instance eta_Mix : Eta Mix := fun t =>
  mkMix (mv t) (ms t) (m_last t) (m_comb_l t) (m_comb_r t) (m_env t).

Definition SPU_BLOCK : Z := 28 * 4096.

(** The advance to the next block, and the loop around it; the position in
    blocks bounds its rounds. *)
Definition next_block (v : SPU_Voice) : SPU_Voice :=
  let v := v <| sample_pos ::= fun p => u32 (p - SPU_BLOCK) |> in
  if loop_pending v
  then v <| current_addr := Z.shiftl (repeat_addr v) 3 |> <| loop_pending := false |>
  else v <| current_addr ::= fun a => Z.land (u32 (a + 16)) (SPU_RAM_SIZE - 1) |>.

Fixpoint next_blocks (fuel : nat) (v : SPU_Voice) : SPU_Voice :=
  match fuel with
  | O => v
  | S fuel =>
    let v := next_block v in
    if 28 <=? Z.shiftr (sample_pos v) 12 then next_blocks fuel v else v
  end.

Definition block_boundary (v : SPU_Voice) : SPU_Voice :=
  if 28 <=? Z.shiftr (sample_pos v) 12
  then (next_blocks (Z.to_nat (sample_pos v / SPU_BLOCK)) v) <| block_decoded := false |>
  else v.

(** Decoding the current block if it is not; whether the loop breaks. *)
Definition mix_fetch (i : Z) (t : Mix) : bool * Mix :=
  if block_decoded (mv t) then (false, t)
  else
    let x := irq9_check (current_addr (mv t)) (m_env t) in
    let '(v, p) := decode_adpcm_block i (mv t) (current_addr (mv t)) (fst x) in
    (negb (active v), t <| mv := v |> <| m_env := (p, snd x) |>).

(** One sample into both buffers at [offset + s]. *)
Definition mix_sample (offset : Z) (t : Mix) : Mix :=
  let v := mv t in
  let pcm := aget (decoded v) (Z.shiftr (sample_pos v) 12) in
  let k := offset + ms t in
  t <| m_env ::= upd_spu (fun p => p
         <| mix_buf_l ::= fun l => aset l k (s32 (aget l k + Z.shiftr (pcm * m_comb_l t) 15)) |>
         <| mix_buf_r ::= fun l => aset l k (s32 (aget l k + Z.shiftr (pcm * m_comb_r t) 15)) |>) |>
    <| mv := v <| sample_pos ::= fun p => u32 (p + pitch v) |> |>
    <| ms ::= Z.add 1 |>.

Fixpoint batch_loop (n : nat) (offset : Z) (t : Mix) : Mix :=
  match n with
  | O => t
  | S n => batch_loop n offset (mix_sample offset t)
  end.

Definition batch_ci (v : SPU_Voice) : Z := let ci := adsr_rate v in if ci <=? 0 then 1 else ci.

(** The number of samples before the counter overflows, the block ends or
    the chunk is complete. *)
Definition batch_length (num_samples : Z) (t : Mix) : Z :=
  let v := mv t in
  let batch := if adsr_counter v <? 0x8000 then (0x7FFF - adsr_counter v) / batch_ci v else 0 in
  let batch :=
    if 0 <? pitch v then
      let blk_lim := Z.quot (28 * 4096 - s32 (sample_pos v) - 1) (pitch v) + 1 in
      if (0 <? blk_lim) && (blk_lim <? batch) then blk_lim else batch
    else batch in
  Z.min batch (num_samples - ms t).

(** The combined volumes follow the envelope. *)
Definition refresh_volumes (v_vol_l v_vol_r : Z) (t : Mix) : Mix :=
  if adsr_vol (mv t) =? m_last t then t
  else t <| m_last := adsr_vol (mv t) |>
         <| m_comb_l := Z.shiftr (v_vol_l * adsr_vol (mv t)) 15 |>
         <| m_comb_r := Z.shiftr (v_vol_r * adsr_vol (mv t)) 15 |>.

(** The first half of a round: the constant-volume batch. *)
Definition mix_batch (offset num_samples : Z) (t : Mix) : Mix :=
  let ci := batch_ci (mv t) in
  let batch := batch_length num_samples t in
  let t := batch_loop (Z.to_nat batch) offset t in
  t <| mv ::= fun v => block_boundary (v <| adsr_counter ::= fun k => k + ci * batch |>) |>.

(** The second half: one sample with a full envelope tick; whether the loop
    goes on. *)
Definition mix_tick (offset v_vol_l v_vol_r : Z) (t : Mix) : bool * Mix :=
  let t := t <| mv ::= adsr_tick |> in
  if bool_decide (adsr_phase (mv t) = ADSR_OFF) then (false, t <| mv ::= fun v => v <| active := false |> |>)
  else
    let t := refresh_volumes v_vol_l v_vol_r t in
    (true, (mix_sample offset t) <| mv ::= block_boundary |>).

Definition mix_round (i offset num_samples v_vol_l v_vol_r : Z) (t : Mix) : bool * Mix :=
  let '(stop, t) := mix_fetch i t in
  if stop then (false, t)
  else
    let t := mix_batch offset num_samples t in
    if num_samples <=? ms t then (false, t)
    else
      let '(stop, t) := mix_fetch i t in
      if stop then (false, t) else mix_tick offset v_vol_l v_vol_r t.

(** [while (s < num_samples && v->active)]; [None] when the fuel ends. *)
Fixpoint mix_loop (fuel : nat) (i offset num_samples v_vol_l v_vol_r : Z) (t : Mix) : option Mix :=
  if (ms t <? num_samples) && active (mv t) then
    match fuel with
    | O => None
    | S fuel =>
      let '(go, t) := mix_round i offset num_samples v_vol_l v_vol_r t in
      if go then mix_loop fuel i offset num_samples v_vol_l v_vol_r t else Some t
    end
  else Some t.

Definition mix_voice (offset num_samples i : Z) (x : SpuSys) : SpuSys :=
  let v := get_voice i (fst x) in
  if negb (active v) then x
  else
    let v_vol_l := get_effective_volume (vol_l v) in
    let v_vol_r := get_effective_volume (vol_r v) in
    if (v_vol_l =? 0) && (v_vol_r =? 0) then x
    else
      let t := mkMix v 0 (adsr_vol v) (Z.shiftr (v_vol_l * adsr_vol v) 15) (Z.shiftr (v_vol_r * adsr_vol v) 15) x in
      match mix_loop (Z.to_nat num_samples) i offset num_samples v_vol_l v_vol_r t with
      | Some t => upd_spu (set_voice i (mv t)) (m_env t)
      | None => x
      end.

(** [memset(&buf[offset], 0, n)]. *)
Definition clear_region (offset n : Z) (l : list Z) : list Z :=
  fold_left (fun l k => aset l (offset + k) 0) (zseq (Z.to_nat n)) l.

(** The loop over the voices. *)
Definition mix_voices (offset num_samples : Z) (x : SpuSys) : SpuSys :=
  fold_left (fun x i => mix_voice offset num_samples i x) (zseq 24) x.

Definition SPU_GenerateChunk (num_samples : Z) (x : SpuSys) : SpuSys :=
  if negb (spu_initialized (fst x)) || (num_samples <=? 0) then x
  else
    let offset := spu_samples_generated (fst x) in
    let num_samples :=
      if SAMPLES_PER_FRAME <? offset + num_samples then SAMPLES_PER_FRAME - offset else num_samples in
    if num_samples <=? 0 then x
    else
      let x := upd_spu (fun p => p <| mix_buf_l ::= clear_region offset num_samples |>
                                   <| mix_buf_r ::= clear_region offset num_samples |>) x in
      let x := mix_voices offset num_samples x in
      upd_spu (fun p => p <| spu_samples_generated ::= fun n => n + num_samples |>) x.

(** One channel of [SPU_Mix_And_Clamp]; the product is a 32-bit [int]. *)
Definition mix_clamp (sum vol : Z) : Z := clamp16 (Z.shiftr (s32 (sum * vol)) 15).

Definition SPU_Mix_And_Clamp (ml mr : list Z) (num_samples vol_l vol_r : Z) : list Z :=
  flat_map (fun i => [mix_clamp (aget ml i) vol_l; mix_clamp (aget mr i) vol_r]) (zseq (Z.to_nat num_samples)).

Definition SPU_FlushAudio (p : Spu) : Spu :=
  if negb (spu_initialized p) then p
  else
    let total := spu_samples_generated p in
    if total <=? 0 then p <| spu_samples_generated := 0 |>
    else
      let eff_vol_l := get_effective_volume (main_vol_l p) in
      let eff_vol_r := get_effective_volume (main_vol_r p) in
      let out := SPU_Mix_And_Clamp (mix_buf_l p) (mix_buf_r p) total eff_vol_l eff_vol_r in
      p <| audio_out ::= fun l => l ++ [out] |> <| spu_samples_generated := 0 |>.

(** Samples due since the start of the frame. *)
Definition spu_target (now start : Z) : Z := s32 (u64 (now - start) / CYCLES_PER_SAMPLE).

Definition SPU_CatchUp (x : SpuSys) : SpuSys :=
  if prof_disable_spu (fst x) || negb (spu_initialized (fst x)) then x
  else
    let now := u64 (global_cycles (snd x) + partial_block_cycles (snd x)) in
    if now <=? spu_frame_start_cycle (fst x) then x
    else
      let target := spu_target now (spu_frame_start_cycle (fst x)) in
      let '(target, x) :=
        if (SAMPLES_PER_FRAME <? target) && (SAMPLES_PER_FRAME <=? spu_samples_generated (fst x)) then
          let x := upd_spu (fun p => (SPU_FlushAudio p)
                     <| spu_frame_start_cycle ::= fun c => u64 (c + SAMPLES_PER_FRAME * CYCLES_PER_SAMPLE) |>) x in
          (spu_target now (spu_frame_start_cycle (fst x)), x)
        else (target, x) in
      let target := if SAMPLES_PER_FRAME <? target then SAMPLES_PER_FRAME else target in
      let pending := target - spu_samples_generated (fst x) in
      if 0 <? pending then SPU_GenerateChunk pending (upd_spu flush_pending_kon x) else x.

Definition SPU_FrameStart (x : SpuSys) : SpuSys :=
  upd_spu (fun p => p <| spu_frame_start_cycle := global_cycles (snd x) |>) x.

Definition SPU_GenerateSamples (x : SpuSys) : SpuSys :=
  if prof_disable_spu (fst x) then upd_spu (fun p => p <| spu_samples_generated := 0 |>) x
  else
    let x := upd_spu flush_pending_kon x in
    let remaining := SAMPLES_PER_FRAME - spu_samples_generated (fst x) in
    let x := if 0 <? remaining then SPU_GenerateChunk remaining x else x in
    upd_spu SPU_FlushAudio x.

(** ** Initialisation; the backend's answers are arguments *)

Definition SPU_Init (audio_ret configure_ret : Z) (p : Spu) : Spu :=
  let p := p <| spu_ram := ∅ |> <| voices := repeat voice0 24 |> <| spu_reg_store := repeat 0 256 |>
             <| main_vol_l := 0 |> <| main_vol_r := 0 |> <| key_on_lo := 0 |> <| key_on_hi := 0 |>
             <| pending_kon := 0 |> <| endx := 0 |> <| spu_cnt := 0 |> <| spu_stat := 0 |>
             <| transfer_addr := 0 |> <| transfer_ptr := 0 |> <| spu_irq_addr := 0 |>
             <| spu_irq_enabled := false |> <| spu_irq_fired := false |> in
  if audio_ret <? 0 then p
  else if negb (configure_ret =? 0) then p
  else p <| spu_initialized := true |>.

Definition SPU_IsInitialized (p : Spu) : Z := b2z (spu_initialized p).
Definition SPU_Shutdown (p : Spu) : Spu := if spu_initialized p then p <| spu_initialized := false |> else p.

(** ** Registers *)

Definition write_voice_reg (reg value : Z) (v : SPU_Voice) : SPU_Voice :=
  let reload v := if active v then adsr_reload_params v else v in
  match reg with
  | 0 => v <| vol_l := s16 value |>
  | 1 => v <| vol_r := s16 value |>
  | 2 => v <| pitch := value |>
  | 3 => v <| start_addr := value |>
  | 4 => reload (v <| adsr_lo := value |>)
  | 5 => reload (v <| adsr_hi := value |>)
  | 6 => v <| adsr_level := value |>
  | 7 => v <| repeat_addr := value |> <| ignore_loop := true |>
  | _ => v
  end.

(** KON of one half: [bits] are its channels in the 24-bit mask. *)
Definition write_kon (bits : Z) (x : SpuSys) : SpuSys :=
  upd_spu (fun p => p <| pending_kon ::= fun k => Z.lor k bits |>) (SPU_CatchUp x).

(** KOFF of one half. *)
Definition write_koff (bits : Z) (x : SpuSys) : SpuSys :=
  upd_spu (fun p =>
    let koff := Z.land bits (not32 (pending_kon p)) in
    let p := p <| pending_kon ::= fun k => Z.land k (not32 bits) |> in
    if koff =? 0 then p else process_key_off koff p) (SPU_CatchUp x).

(** A halfword into or out of sound RAM: the address match and the advance
    of the pointer. *)
Definition transfer_advance (x : SpuSys) : SpuSys :=
  upd_spu (fun p => p <| transfer_ptr ::= fun a => Z.land (a + 2) (SPU_RAM_SIZE - 1) |>)
    (irq9_check (Z.land (transfer_ptr (fst x)) (not32 0xF)) x).

Definition write_fifo (value : Z) (x : SpuSys) : SpuSys :=
  let x := upd_spu (fun p => p <| spu_data_fifo := value |>) x in
  if transfer_ptr (fst x) <? SPU_RAM_SIZE - 1 then
    transfer_advance (upd_spu (fun p => p <| spu_ram ::= fun m =>
      wr8 (wr8 m (transfer_ptr p) (Z.land value 0xFF)) (transfer_ptr p + 1) (Z.shiftr value 8) |>) x)
  else x.

Definition write_spucnt (value : Z) (p : Spu) : Spu :=
  let p := p <| spu_cnt := value |>
             <| spu_stat ::= fun s => Z.lor (Z.land s 0x0040) (Z.land value 0x3F) |>
             <| spu_irq_enabled := tst (Z.shiftr value 6) 1 |> in
  if spu_irq_enabled p then p
  else p <| spu_stat ::= fun s => Z.land s (not32 0x0040) |> <| spu_irq_fired := false |>.

Definition SPU_WriteReg (offset value : Z) (x : SpuSys) : SpuSys :=
  if offset <? 0xC0 then
    let voice := Z.shiftr offset 3 in
    let reg := Z.land offset 0x07 in
    if voice <? SPU_NUM_VOICES
    then upd_spu (fun p => set_voice voice (write_voice_reg reg value (get_voice voice p)) p) x
    else x
  else
    match offset with
    | 0xC0 => upd_spu (fun p => p <| main_vol_l := s16 value |>) x
    | 0xC1 => upd_spu (fun p => p <| main_vol_r := s16 value |>) x
    | 0xC4 =>
      let x := upd_spu (fun p => p <| key_on_lo := value |>) x in
      if value =? 0 then x else write_kon (Z.land value 0xFFFF) x
    | 0xC5 =>
      let x := upd_spu (fun p => p <| key_on_hi := value |>) x in
      if value =? 0 then x else write_kon (Z.shiftl (Z.land value 0xFF) 16) x
    | 0xC6 => if value =? 0 then x else write_koff value x
    | 0xC7 => if value =? 0 then x else write_koff (Z.shiftl value 16) x
    | 0xCE | 0xCF => upd_spu (fun p => p <| endx := 0 |>) (SPU_CatchUp x)
    | 0xD2 => upd_spu (fun p => p <| spu_reg_store ::= fun l => aset l 0xD2 value |>
                                  <| spu_irq_addr := Z.shiftl value 3 |>) x
    | 0xD3 => upd_spu (fun p => p <| transfer_addr := value |> <| transfer_ptr := Z.shiftl value 3 |>) x
    | 0xD4 => write_fifo value x
    | 0xD5 => upd_spu (write_spucnt value) x
    | 0xD7 => x
    | _ => if offset <? 256 then upd_spu (fun p => p <| spu_reg_store ::= fun l => aset l offset value |>) x else x
    end.

Definition read_voice_reg (voice reg : Z) (x : SpuSys) : Z * SpuSys :=
  let v := get_voice voice (fst x) in
  match reg with
  | 0 => (u16 (vol_l v), x)
  | 1 => (u16 (vol_r v), x)
  | 2 => (pitch v, x)
  | 3 => (start_addr v, x)
  | 4 => (adsr_lo v, x)
  | 5 => (adsr_hi v, x)
  | 6 => let x := SPU_CatchUp x in (adsr_level (get_voice voice (fst x)), x)
  | 7 => (repeat_addr v, x)
  | _ => (0, x)
  end.

Definition SPU_ReadReg (offset : Z) (x : SpuSys) : Z * SpuSys :=
  if offset <? 0xC0 then
    let voice := Z.shiftr offset 3 in
    let reg := Z.land offset 0x07 in
    if voice <? SPU_NUM_VOICES then read_voice_reg voice reg x else (0, x)
  else
    match offset with
    | 0xC0 => (u16 (main_vol_l (fst x)), x)
    | 0xC1 => (u16 (main_vol_r (fst x)), x)
    | 0xC4 => (key_on_lo (fst x), x)
    | 0xC5 => (key_on_hi (fst x), x)
    | 0xCE => let x := SPU_CatchUp x in (Z.land (endx (fst x)) 0xFFFF, x)
    | 0xCF => let x := SPU_CatchUp x in (Z.land (Z.shiftr (endx (fst x)) 16) 0xFFFF, x)
    | 0xD3 => (transfer_addr (fst x), x)
    | 0xD5 => (spu_cnt (fst x), x)
    | 0xD7 => (spu_stat (fst x), x)
    | _ => if offset <? 256 then (aget (spu_reg_store (fst x)) offset, x) else (0, x)
    end.

(** ** DMA channel 4 *)

Definition dma4_in_range (src_addr i : Z) (x : SpuSys) : bool :=
  (u32 (src_addr + i + 1) <? SPU_PSX_RAM_SIZE) && (transfer_ptr (fst x) <? SPU_RAM_SIZE - 1).

(** The two loop bodies, at byte offset [i]. *)
Definition dma4_write_step (src_addr : Z) (x : SpuSys) (i : Z) : SpuSys :=
  if dma4_in_range src_addr i x then
    let ram := psx_ram (snd x) in
    transfer_advance (upd_spu (fun p => p <| spu_ram ::= fun m =>
      wr8 (wr8 m (transfer_ptr p) (rd8 ram (u32 (src_addr + i))))
          (transfer_ptr p + 1) (rd8 ram (u32 (src_addr + i + 1))) |>) x)
  else x.

Definition dma4_read_step (src_addr : Z) (x : SpuSys) (i : Z) : SpuSys :=
  if dma4_in_range src_addr i x then
    let p := fst x in
    transfer_advance (p, (snd x) <| psx_ram ::= fun m =>
      wr8 (wr8 m (u32 (src_addr + i)) (rd8 (spu_ram p) (transfer_ptr p)))
          (u32 (src_addr + i + 1)) (rd8 (spu_ram p) (transfer_ptr p + 1)) |>)
  else x.

Definition dma4_bytes (bcr : Z) : Z :=
  let block_size := Z.land bcr 0xFFFF in
  let block_count := Z.land (Z.shiftr bcr 16) 0xFFFF in
  let block_count := if block_count =? 0 then 1 else block_count in
  let block_size := if block_size =? 0 then 1 else block_size in
  u32 (u32 (block_size * block_count) * 4).

(** The offsets [0, 2, ...] below [n]. *)
Definition halfwords (n : Z) : list Z := map (Z.mul 2) (zseq (Z.to_nat (n / 2))).

Definition SPU_DMA4 (madr bcr chcr : Z) (x : SpuSys) : SpuSys :=
  let x := SPU_CatchUp x in
  let src_addr := Z.land madr 0x1FFFFC in
  let step := if tst chcr 1 then dma4_write_step else dma4_read_step in
  fold_left (step src_addr) (halfwords (dma4_bytes bcr)) x.
