(* ===== verification/SpuSafe.v ===== *)
(** * Invariant of the sound processor

    [spu_ok] types the registers, bounds the sample index, the block address
    and the transfer pointer, keeps the envelope inside its range and the cached envelope parameters
    equal to what the registers say; every operation keeps it. *)

From S2P Require Import Prelude Scheduler System Spu.

(** ** Voices *)

Definition is_s16 (x : Z) : Prop := -32768 <= x < 32768.

(** The cached envelope parameters are those of the registers. *)
Definition params_cached (v : SPU_Voice) : Prop :=
  adsr_params (adsr_phase v) (adsr_lo v) (adsr_hi v) = (adsr_ci v, adsr_step v, adsr_exp v, adsr_inc v) /\
  adsr_sl v = Z.shiftl (Z.land (adsr_lo v) 0x0F + 1) 11.

Record voice_ok (v : SPU_Voice) : Prop := {
  vo_pitch : is_u16 (pitch v);
  vo_start : is_u16 (start_addr v);
  vo_repeat : is_u16 (repeat_addr v);
  vo_addr : 0 <= current_addr v < SPU_RAM_SIZE /\ (8 | current_addr v);
  vo_pos : 0 <= sample_pos v < SPU_BLOCK;
  vo_prev : is_s16 (prev0 v) /\ is_s16 (prev1 v);
  vo_decoded : zlen (decoded v) = 28 /\ Forall is_s16 (decoded v);
  vo_vol : 0 <= adsr_vol v <= 0x8000;
  vo_counter : 0 <= adsr_counter v < 0x8000;
  vo_params : active v = true -> params_cached v /\ adsr_phase v <> ADSR_OFF
}.

Lemma is_s16_s16 x : is_s16 (s16 x).
Proof. unfold is_s16, s16. pose proof (u16_range x). unfold is_u16 in *. destruct (Z.ltb_spec (u16 x) 32768); lia. Qed.

Lemma is_s16_clamp16 x : is_s16 (clamp16 x).
Proof.
  unfold is_s16, clamp16. destruct (Z.ltb_spec 32767 x); cbv zeta; [cbv; intuition discriminate|].
  destruct (Z.ltb_spec x (-32768)); lia.
Qed.

Lemma voice0_ok : voice_ok voice0.
Proof.
  split; cbn; try (cbv; intuition discriminate).
  - split; [cbv; intuition discriminate | exists 0; reflexivity].
  - split; [reflexivity | apply (Forall_repeat is_s16 0 28); cbv; intuition discriminate].
Qed.

(** ** The envelope parameters *)

Lemma adsr_fields_range p lo hi shift idx e d : adsr_fields p lo hi = Some (shift, idx, e, d) ->
  0 <= shift <= 31 /\ 0 <= idx <= 3.
Proof.
  destruct p; cbn; intros E; inversion E; subst; clear E;
    repeat match goal with |- context [Z.land ?x ?m] => pose proof (land_bound_r x m ltac:(lia)); generalize dependent (Z.land x m) end;
    intros; lia.
Qed.

Record params_range (v : SPU_Voice) : Prop := {
  pr_ci : 0 <= adsr_ci v <= 0x8000;
  pr_step : - 0x4000 <= adsr_step v <= 0x4000;
  pr_sl : 0 < adsr_sl v <= 0x8000;
  pr_dec : adsr_inc v = false -> adsr_step v <= 0;
  pr_inc : adsr_inc v = true -> 0 <= adsr_step v;
  pr_down : (adsr_phase v = ADSR_DECAY \/ adsr_phase v = ADSR_RELEASE) -> adsr_inc v = false
}.

Lemma base_range raw su : 4 <= raw <= 8 -> su <= 11 ->
  0 < (if 0 <? su then Z.shiftl raw su else raw) <= 0x4000.
Proof.
  intros Hr Hs. destruct (Z.ltb_spec 0 su); [|lia].
  rewrite Z.shiftl_mul_pow2 by lia.
  pose proof (Z.pow_le_mono_r 2 su 11). pose proof (Z.pow_pos_nonneg 2 su). change (2 ^ 11) with 2048 in *. nia.
Qed.

Lemma ci_range k : 0 <= (if 0 <? k then Z.shiftr 0x8000 k else 0x8000) <= 0x8000.
Proof.
  destruct (Z.ltb_spec 0 k); [|lia]. rewrite Z.shiftr_div_pow2 by lia.
  pose proof (Z.pow_pos_nonneg 2 k). split; [apply Z.div_pos; lia | apply Z.div_le_upper_bound; nia].
Qed.

Lemma adsr_params_range p lo hi ci step e i : adsr_params p lo hi = (ci, step, e, i) ->
  0 <= ci <= 0x8000 /\ - 0x4000 <= step <= 0x4000 /\ (i = false -> step <= 0) /\ (i = true -> 0 <= step) /\
  (p = ADSR_DECAY \/ p = ADSR_RELEASE -> i = false).
Proof.
  unfold adsr_params. destruct (adsr_fields p lo hi) as [ [ [ [shift idx] e'] d] |] eqn:E.
  - pose proof (adsr_fields_range _ _ _ _ _ _ _ E) as [Hs Hi].
    pose proof (ci_range (shift - 11)) as Hc.
    pose proof (base_range (if d then 8 - idx else 7 - idx) (11 - shift) ltac:(destruct d; lia) ltac:(lia)) as Hb.
    cbv zeta. set (b := if 0 <? 11 - shift then _ else _) in *. set (c := if 0 <? shift - 11 then _ else _) in *.
    intros [= <- <- <- <-]. split; [exact Hc|]. split; [destruct d; lia|]. split; [destruct d; [lia | discriminate]|].
    split; [destruct d; [discriminate | lia]|]. intros [-> | ->]; cbn in E; inversion E; reflexivity.
  - intros [= <- <- <- <-]. repeat split; lia.
Qed.

Lemma cached_range v : params_cached v -> params_range v.
Proof.
  intros [Hp Hsl]. apply adsr_params_range in Hp as (H1 & H2 & H3 & H4 & H5).
  split; try assumption.
  rewrite Hsl. pose proof (land_bound_r (adsr_lo v) 0x0F ltac:(lia)).
  rewrite Z.shiftl_mul_pow2 by lia. change (2 ^ 11) with 2048. lia.
Qed.

Lemma reload_cached v : params_cached (adsr_reload_params v).
Proof.
  unfold adsr_reload_params. destruct (adsr_params _ _ _) as [ [ [ci step] e] i] eqn:E.
  split; [exact E | reflexivity].
Qed.

Ltac voice_reload := 
  unfold adsr_reload_params; destruct (adsr_params _ _ _) as [ [ [? ?] ?] ?].

Lemma reload_ok v : voice_ok (v <| active := false |>) -> (active v = true -> adsr_phase v <> ADSR_OFF) ->
  voice_ok (adsr_reload_params v).
Proof.
  intros [H1 H2 H3 H4 H5 H6 H7 H8 H9 _] Hp. pose proof (reload_cached v) as Hc.
  split; try (voice_reload; assumption).
  intros Ha. split; [exact Hc|]. revert Ha. voice_reload. exact Hp.
Qed.

(** ** The envelope *)

(** The parts of a voice the envelope and the mixer do not touch. *)
Lemma voice_ok_upd v vol lvl cnt : voice_ok v -> 0 <= vol <= 0x8000 -> 0 <= cnt < 0x8000 ->
  voice_ok (v <| adsr_counter := cnt |> <| adsr_vol := vol |> <| adsr_level := lvl |>).
Proof. intros [H1 H2 H3 H4 H5 H6 H7 H8 H9 H10] Hv Hc. split; assumption. Qed.

Lemma next_vol_range v : params_range v -> 0 <= adsr_vol v <= 0x8000 ->
  - 0x4000 <= adsr_next_vol v <= 0xC000 /\ (adsr_inc v = false -> adsr_next_vol v <= adsr_vol v) /\
  (adsr_inc v = true -> 0 <= adsr_next_vol v).
Proof.
  intros [_ Hs _ Hd Hi _] Hv. unfold adsr_next_vol.
  destruct (adsr_exp v && negb (adsr_inc v)) eqn:E.
  2: { split; [lia|]. split; [intros Hx; specialize (Hd Hx) | intros Hx; specialize (Hi Hx)]; lia. }
  apply andb_prop in E as [_ E]. apply negb_true_iff in E. specialize (Hd E).
  rewrite Z.shiftr_div_pow2 by lia. change (2 ^ 15) with 32768.
  assert (- 0x4000 <= adsr_step v * adsr_vol v / 32768 <= 0) by (split; [apply Z.div_le_lower_bound | apply Z.div_le_upper_bound]; nia).
  split; [lia|]. split; [lia | rewrite E; discriminate].
Qed.

Lemma tick_ok v : voice_ok v -> active v = true -> voice_ok (adsr_tick v).
Proof.
  intros Hok Ha. pose proof (vo_params _ Hok Ha) as [Hc Hp]. pose proof (cached_range _ Hc) as Hr.
  pose proof (vo_vol _ Hok) as Hv. pose proof (vo_counter _ Hok) as Hn.
  assert (Hci : 0 <= adsr_rate v <= 0x8000).
  { unfold adsr_rate. pose proof (pr_ci _ Hr). destruct (_ && _); [|lia].
    rewrite Z.shiftr_div_pow2 by lia. change (2 ^ 2) with 4. zify_div. }
  unfold adsr_tick. cbv zeta. set (v1 := v <| adsr_counter ::= _ |>).
  assert (Hok1 : forall k, 0 <= k < 0x8000 -> voice_ok (v1 <| adsr_counter := k |>))
    by (intros k Hk; destruct Hok; split; assumption).
  destruct (Z.ltb_spec (adsr_counter v1) 0x8000) as [Hlt | Hge].
  { apply (Hok1 (adsr_counter v1)). cbn in Hlt |- *. lia. }
  set (v2 := v1 <| adsr_counter ::= _ |>).
  assert (Hok2 : voice_ok v2).
  { apply Hok1. pose proof (land_bound_r (adsr_counter v1) 0x7FFF ltac:(lia)). lia. }
  destruct (next_vol_range v Hr Hv) as (Hnv & Hdec & Hinc).
  change (adsr_next_vol v2) with (adsr_next_vol v). generalize dependent (adsr_next_vol v). intros w Hw Hdec Hinc.
  assert (Hcl : forall vol v', 0 <= vol <= 0x8000 -> voice_ok v' -> voice_ok (v' <| adsr_vol := vol |> <| adsr_level := u16 (Z.land (u32 vol) 0x7FFF) |>)).
  { intros vol v' Hvol Hv'. destruct Hv'; split; assumption. }
  assert (Hre : forall p, p <> ADSR_OFF -> voice_ok (adsr_reload_params (v2 <| adsr_phase := p |> <| adsr_counter := 0 |>))).
  { intros p Hpo. apply reload_ok; [|intros _; exact Hpo]. destruct Hok2; split; try assumption; [cbn; lia | discriminate]. }
  unfold adsr_transition. change (adsr_phase v2) with (adsr_phase v). change (adsr_inc v2) with (adsr_inc v).
  change (adsr_sl v2) with (adsr_sl v).
  pose proof (pr_sl _ Hr) as Hsl. pose proof (pr_down _ Hr) as Hdown.
  destruct (adsr_phase v).
  - destruct (Z.leb_spec 0x7FFF w), (Z.ltb_spec w 0); cbn [orb]; apply Hcl; try lia; first [apply Hre; discriminate | exact Hok2].
  - specialize (Hdec (Hdown (or_introl eq_refl))).
    destruct (Z.ltb_spec w 0); cbv zeta; [destruct (Z.leb_spec 0 (adsr_sl v)); [|lia]; apply Hcl; [lia | apply Hre; discriminate]|].
    destruct (Z.leb_spec w (adsr_sl v)); apply Hcl; try lia; first [apply Hre; discriminate | exact Hok2].
  - destruct (adsr_inc v).
    + specialize (Hinc eq_refl). destruct (Z.ltb_spec 0x7FFF w); apply Hcl; try lia; exact Hok2.
    + specialize (Hdec eq_refl). destruct (Z.ltb_spec w 0); apply Hcl; try lia; exact Hok2.
  - specialize (Hdec (Hdown (or_intror eq_refl))).
    destruct (Z.ltb_spec w 0); cbv zeta.
    + change (0 =? 0) with true. cbv iota. apply Hcl; [lia|]. destruct Hok2; split; try assumption. discriminate.
    + destruct (Z.eqb_spec w 0); apply Hcl; try lia; [|exact Hok2]. destruct Hok2; split; try assumption. discriminate.
  - contradiction.
Qed.

(** ** ADPCM *)

Lemma adpcm_shifted_length m b s : zlen (adpcm_shifted m b s) = 28.
Proof. reflexivity. Qed.

Lemma adpcm_shifted_s16 m b s : Forall is_s16 (adpcm_shifted m b s).
Proof.
  unfold adpcm_shifted. rewrite List.Forall_forall. intros x Hx. apply in_flat_map in Hx as (i & _ & Hx).
  cbv zeta in Hx. destruct Hx as [<- | [<- | [] ] ]; apply is_s16_s16.
Qed.

Lemma adpcm_iir_ok f0 f1 l : forall s1 s2, is_s16 s1 -> is_s16 s2 ->
  let '(out, (a, b)) := adpcm_iir f0 f1 l s1 s2 in
  zlen out = zlen l /\ Forall is_s16 out /\ is_s16 a /\ is_s16 b.
Proof.
  induction l as [|x l IH]; intros s1 s2 H1 H2; cbn [adpcm_iir]; [split; [reflexivity|]; split; [constructor|]; split; assumption|].
  cbv zeta. set (sm := clamp16 _). assert (Hs : is_s16 sm) by apply is_s16_clamp16.
  specialize (IH sm s1 Hs H1). destruct (adpcm_iir f0 f1 l sm s1) as [out [a b] ].
  destruct IH as (Hl & Hf & Ha & Hb). split; [unfold zlen in *; cbn [length]; lia|].
  split; [constructor; assumption | split; assumption].
Qed.

Lemma adpcm_samples_ok filter l s1 s2 : zlen l = 28 -> Forall is_s16 l -> is_s16 s1 -> is_s16 s2 ->
  let '(out, (a, b)) := adpcm_samples filter l s1 s2 in
  zlen out = 28 /\ Forall is_s16 out /\ is_s16 a /\ is_s16 b.
Proof.
  intros Hl Hf H1 H2. unfold adpcm_samples.
  assert (H0 : is_s16 0) by (unfold is_s16; lia).
  destruct (filter =? 0).
  - split; [exact Hl|]. split; [exact Hf|]. split; apply (Forall_aget is_s16); assumption.
  - destruct (anth _ _ _) as [f0 f1]. pose proof (adpcm_iir_ok f0 f1 l s1 s2 H1 H2) as H.
    destruct (adpcm_iir f0 f1 l s1 s2) as [out [a b] ]. rewrite Hl in H. exact H.
Qed.

(** ** The whole processor *)

Record spu_ok (p : Spu) : Prop := {
  so_voices : zlen (voices p) = 24 /\ Forall voice_ok (voices p);
  so_ram : mem_ok (spu_ram p);
  so_store : zlen (spu_reg_store p) = 256;
  so_mix : zlen (mix_buf_l p) = SPU_MIX_BUF_SIZE /\ zlen (mix_buf_r p) = SPU_MIX_BUF_SIZE;
  so_ptr : 0 <= transfer_ptr p < SPU_RAM_SIZE /\ (2 | transfer_ptr p);
  so_generated : 0 <= spu_samples_generated p <= SAMPLES_PER_FRAME;
  so_kon : is_u32 (pending_kon p)
}.

Lemma voice_of i p : spu_ok p -> voice_ok (get_voice i p).
Proof. intros Hp. apply (Forall_anth voice_ok); [apply voice0_ok | apply so_voices, Hp]. Qed.

Lemma set_voice_ok i v p : spu_ok p -> voice_ok v -> spu_ok (set_voice i v p).
Proof.
  intros [ [H1 H1'] H2 H3 H4 H5 H6 H7] Hv. split; try assumption.
  split; cbn; [rewrite zlen_aset; exact H1 | apply Forall_aset; assumption].
Qed.

Lemma irq9_ok a x : spu_ok (fst x) -> spu_ok (fst (irq9_check a x)).
Proof. intros H. unfold irq9_check. destruct (_ && _); [|exact H]. destruct H; split; assumption. Qed.

Lemma decode_ok i v addr p : voice_ok v -> spu_ok p ->
  let '(v', p') := decode_adpcm_block i v addr p in
  voice_ok v' /\ spu_ok p' /\ block_decoded v' = true.
Proof.
  intros Hv Hp. unfold decode_adpcm_block. cbv zeta.
  set (flt := if 4 <? _ then 4 else _). set (sh := adpcm_shifted _ _ _).
  pose proof (adpcm_samples_ok flt sh (prev0 v) (prev1 v) (adpcm_shifted_length _ _ _) (adpcm_shifted_s16 _ _ _)
    (proj1 (vo_prev _ Hv)) (proj2 (vo_prev _ Hv))) as H.
  destruct (adpcm_samples flt sh (prev0 v) (prev1 v)) as [out [a b] ]. destruct H as (Hl & Hf & Ha & Hb).
  set (v1 := v <| decoded := out |> <| prev0 := a |> <| prev1 := b |> <| block_decoded := true |>).
  assert (Hv1 : voice_ok v1) by (destruct Hv; split; try assumption; split; assumption).
  assert (Hb1 : block_decoded v1 = true) by reflexivity. clearbody v1. clear - Hv1 Hp Hb1.
  unfold adpcm_flags. cbv zeta.
  set (v2 := if _ && _ then _ else v1).
  assert (Hv2 : voice_ok v2 /\ block_decoded v2 = true).
  { subst v2. destruct (_ && _); [|split; assumption]. split; [|exact Hb1].
    destruct Hv1; split; try assumption. apply u16_range. }
  destruct Hv2 as [Hv2 Hb2]. clearbody v2.
  assert (Hp2 : spu_ok (p <| endx ::= fun e => Z.lor e (Z.shiftl 1 i) |>)) by (destruct Hp; split; assumption).
  destruct (tst _ 1); [|split; [exact Hv2 | split; assumption] ].
  destruct (tst _ 2); (split; [|split; assumption]); destruct Hv2; split; try assumption. discriminate.
Qed.

(** ** The mixer *)

Lemma addr_wrap a : 0 <= a -> (8 | a) ->
  0 <= Z.land a (SPU_RAM_SIZE - 1) < SPU_RAM_SIZE /\ (8 | Z.land a (SPU_RAM_SIZE - 1)).
Proof.
  intros Ha [k ->]. change (SPU_RAM_SIZE - 1) with (Z.ones 19). rewrite Z.land_ones by lia.
  change (2 ^ 19) with 524288. unfold SPU_RAM_SIZE. split; [zify_div|].
  exists (k mod 65536). zify_div.
Qed.

Lemma next_block_ok v : voice_ok (v <| sample_pos := 0 |>) -> SPU_BLOCK <= sample_pos v < 2 * SPU_BLOCK ->
  voice_ok (next_block v).
Proof.
  intros Hv Hp. assert (Hpos : u32 (sample_pos v - SPU_BLOCK) = sample_pos v - SPU_BLOCK)
    by (apply u32_small; unfold is_u32, SPU_BLOCK in *; lia).
  unfold next_block. cbv zeta. destruct Hv as [H1 H2 H3 [H4 H4'] H5 H6 H7 H8 H9 H10].
  cbn [loop_pending upd]. destruct (loop_pending _); split; try assumption.
  - cbn. unfold is_u16 in H3. cbn in H3. rewrite Z.shiftl_mul_pow2 by lia. change (2 ^ 3) with 8.
    unfold SPU_RAM_SIZE. split; [lia | exists (repeat_addr v); reflexivity].
  - cbn. rewrite Hpos. lia.
  - cbn. cbn in H4, H4'. unfold SPU_RAM_SIZE in H4. rewrite u32_small by (unfold is_u32; lia).
    apply addr_wrap; [lia|]. apply Z.divide_add_r; [exact H4' | exists 2; reflexivity].
  - cbn. rewrite Hpos. lia.
Qed.

(** A voice less than two blocks ahead crosses at most one boundary. *)
Lemma boundary_eq v : 0 <= sample_pos v < 2 * SPU_BLOCK ->
  block_boundary v = if sample_pos v <? SPU_BLOCK then v else (next_block v) <| block_decoded := false |>.
Proof.
  intros Hp. unfold block_boundary. rewrite Z.shiftr_div_pow2 by lia. change (2 ^ 12) with 4096.
  unfold SPU_BLOCK in *. change (28 * 4096) with 114688 in *.
  destruct (Z.ltb_spec (sample_pos v) 114688); (destruct (Z.leb_spec 28 (sample_pos v / 4096)); [|]); try (exfalso; zify_div); [reflexivity|].
  replace (sample_pos v / 114688) with 1 by zify_div. change (Z.to_nat 1) with 1%nat. cbn [next_blocks].
  destruct (28 <=? _); reflexivity.
Qed.

Lemma boundary_ok v : voice_ok (v <| sample_pos := 0 |>) -> 0 <= sample_pos v < 2 * SPU_BLOCK ->
  voice_ok (block_boundary v).
Proof.
  intros Hv Hp. rewrite (boundary_eq v Hp). destruct (Z.ltb_spec (sample_pos v) SPU_BLOCK).
  - destruct Hv; split; try assumption. lia.
  - generalize (next_block_ok v Hv ltac:(lia)). generalize (next_block v). intros w [ ]. split; assumption.
Qed.

(** [n] samples of a batch: the position moves by [n] pitches, the sample
    count by [n], and only the buffers change besides. *)
Lemma batch_loop_spec n offset : forall t, is_u16 (pitch (mv t)) -> 0 <= sample_pos (mv t) ->
  sample_pos (mv t) + Z.of_nat n * pitch (mv t) < 4294967296 ->
  let t' := batch_loop n offset t in
  mv t' = (mv t) <| sample_pos := sample_pos (mv t) + Z.of_nat n * pitch (mv t) |> /\
  ms t' = ms t + Z.of_nat n /\ m_last t' = m_last t /\ m_comb_l t' = m_comb_l t /\ m_comb_r t' = m_comb_r t /\
  exists bl br, m_env t' = upd_spu (fun p => p <| mix_buf_l := bl |> <| mix_buf_r := br |>) (m_env t) /\
    zlen bl = zlen (mix_buf_l (fst (m_env t))) /\ zlen br = zlen (mix_buf_r (fst (m_env t))).
Proof.
  induction n as [|n IH]; intros t Hp Hs Hb; cbn [batch_loop].
  - cbv zeta. rewrite Z.mul_0_l, !Z.add_0_r. destruct t as [v s la cl cr [p y] ]. destruct v, p.
    repeat split. eexists _, _. split; [reflexivity | split; reflexivity].
  - set (t1 := mix_sample offset t).
    assert (E1 : mv t1 = (mv t) <| sample_pos := sample_pos (mv t) + pitch (mv t) |>).
    { subst t1. unfold mix_sample. cbn [mv upd]. unfold is_u16 in Hp.
      unfold upd at 1. rewrite u32_small by (unfold is_u32; lia). reflexivity. }
    specialize (IH t1). rewrite E1 in IH. cbn [pitch sample_pos upd] in IH. cbv zeta in IH |- *.
    unfold is_u16 in Hp. destruct IH as (-> & -> & -> & -> & -> & bl & br & E & Hl & Hr); [exact Hp | lia | lia |].
    split; [replace (_ + Z.of_nat (S n) * _) with (sample_pos (mv t) + pitch (mv t) + Z.of_nat n * pitch (mv t)) by lia; reflexivity|].
    split; [cbn [ms t1 mix_sample upd]; unfold t1, mix_sample; cbn; lia|].
    repeat (split; [reflexivity|]). exists bl, br. split; [exact E|].
    rewrite Hl, Hr. unfold t1, mix_sample. cbn. rewrite !zlen_aset. split; reflexivity.
Qed.

(** What mixing leaves alone. *)
Definition steady (x : SpuSys) :=
  let p := fst x in
  (spu_ram p, (main_vol_l p, main_vol_r p), spu_cnt p, transfer_ptr p, pending_kon p, spu_irq_addr p,
   spu_irq_enabled p, spu_initialized p, spu_samples_generated p, spu_frame_start_cycle p,
   prof_disable_spu p, audio_out p, (psx_ram (snd x), global_cycles (snd x), partial_block_cycles (snd x))).

Lemma signal_steady n y : let y' := SignalInterrupt n y in
  psx_ram y' = psx_ram y /\ global_cycles y' = global_cycles y /\ partial_block_cycles y' = partial_block_cycles y.
Proof.
  unfold SignalInterrupt, raise_if_pending, cap_cycles_for_irq, cap_cycles.
  repeat (case_match; try (split; [|split]; reflexivity)).
Qed.

Lemma irq9_steady a x : steady (irq9_check a x) = steady x.
Proof.
  unfold irq9_check. destruct (_ && _); [|reflexivity]. unfold steady. cbn [fst snd].
  destruct (signal_steady 9 (snd x)) as (-> & -> & ->). reflexivity.
Qed.

Lemma decode_steady i v a p y : steady (snd (decode_adpcm_block i v a p), y) = steady (p, y).
Proof.
  unfold decode_adpcm_block. cbv zeta. destruct (adpcm_samples _ _ _ _) as [out [s1 s2] ].
  unfold adpcm_flags. cbv zeta. destruct (tst _ 1); [|reflexivity]. destruct (tst _ 2); reflexivity.
Qed.

Record mix_ok (x0 : SpuSys) (num : Z) (t : Mix) : Prop := {
  mo_voice : voice_ok (mv t);
  mo_ms : 0 <= ms t <= num;
  mo_env : spu_ok (fst (m_env t));
  mo_steady : steady (m_env t) = steady x0
}.

Lemma fetch_ok x0 i num t : mix_ok x0 num t ->
  let '(stop, t') := mix_fetch i t in
  mix_ok x0 num t' /\ ms t' = ms t /\ block_decoded (mv t') = true /\
  (stop = false -> active (mv t) = true -> active (mv t') = true).
Proof.
  intros [Hv Hm He Hf]. unfold mix_fetch. destruct (block_decoded (mv t)) eqn:Hb.
  { split; [split; assumption|]. split; [reflexivity|]. split; [exact Hb | auto]. }
  cbv zeta. pose proof (irq9_ok (current_addr (mv t)) _ He) as Hq.
  set (x := irq9_check _ _) in *.
  pose proof (decode_ok i (mv t) (current_addr (mv t)) (fst x) Hv Hq) as H.
  pose proof (decode_steady i (mv t) (current_addr (mv t)) (fst x) (snd x)) as Hd.
  rewrite <- surjective_pairing in Hd. subst x. rewrite irq9_steady, Hf in Hd. set (x := irq9_check _ _) in *.
  destruct (decode_adpcm_block _ _ _ _) as [v' p']. destruct H as (H1 & H2 & H3).
  split; [split; assumption|]. split; [reflexivity|]. split; [exact H3|].
  intros Hs _. apply negb_false_iff in Hs. exact Hs.
Qed.

Lemma rate_range v : voice_ok v -> active v = true -> 0 <= adsr_rate v <= 0x8000.
Proof.
  intros Hv Ha. pose proof (cached_range _ (proj1 (vo_params _ Hv Ha))) as [Hc _ _ _ _ _].
  unfold adsr_rate. destruct (_ && _); [|lia]. rewrite Z.shiftr_div_pow2 by lia. change (2 ^ 2) with 4. zify_div.
Qed.

Lemma batch_ci_range v : voice_ok v -> active v = true -> 1 <= batch_ci v <= 0x8000.
Proof.
  intros Hv Ha. pose proof (rate_range v Hv Ha). unfold batch_ci. cbv zeta.
  destruct (Z.leb_spec (adsr_rate v) 0); lia.
Qed.

(** A batch stops before the counter overflows, no later than the first
    sample that leaves the block, and within the chunk. *)
Lemma batch_length_spec x0 num t : mix_ok x0 num t -> active (mv t) = true ->
  let n := batch_length num t in
  0 <= n <= num - ms t /\ adsr_counter (mv t) + batch_ci (mv t) * n <= 0x7FFF /\
  (forall k, 0 <= k < n -> sample_pos (mv t) + k * pitch (mv t) < SPU_BLOCK).
Proof.
  intros [Hv Hm _ _] Ha n. subst n. unfold batch_length. cbv zeta.
  pose proof (batch_ci_range _ Hv Ha) as Hci. pose proof (vo_counter _ Hv) as Hc.
  pose proof (vo_pos _ Hv) as Hp. pose proof (vo_pitch _ Hv) as Hpi. unfold is_u16, SPU_BLOCK in *.
  set (ci := batch_ci (mv t)) in *. set (c := adsr_counter (mv t)) in *.
  set (pos := sample_pos (mv t)) in *. set (pt := pitch (mv t)) in *.
  rewrite (proj2 (Z.ltb_lt c 0x8000)) by lia.
  set (b0 := (0x7FFF - c) / ci).
  assert (Hb0 : 0 <= b0 /\ ci * b0 <= 0x7FFF - c) by (split; [apply Z.div_pos; lia | apply Z.mul_div_le; lia]).
  clearbody b0.
  assert (Hpos : s32 pos = pos).
  { unfold s32. rewrite u32_small by (unfold is_u32; lia). destruct (Z.ltb_spec pos 2147483648); lia. }
  rewrite Hpos. change (28 * 4096) with 114688 in *.
  assert (Hb1 : let b1 := if 0 <? pt then
        if (0 <? (114688 - pos - 1) ÷ pt + 1) && ((114688 - pos - 1) ÷ pt + 1 <? b0) then (114688 - pos - 1) ÷ pt + 1 else b0
      else b0 in 0 <= b1 <= b0 /\ (forall k, 0 <= k < b1 -> pos + k * pt < 114688)).
  { destruct (Z.ltb_spec 0 pt) as [Hpt | Hpt]; cbv zeta; [|split; [lia | intros k Hk; nia] ].
    rewrite Z.quot_div_nonneg by lia. set (q := (114688 - pos - 1) / pt).
    assert (Hq : 0 <= q /\ pt * q <= 114688 - pos - 1) by (split; [apply Z.div_pos; lia | apply Z.mul_div_le; lia]).
    rewrite (proj2 (Z.ltb_lt 0 (q + 1))) by lia. cbn [andb].
    destruct (Z.ltb_spec (q + 1) b0); (split; [lia | intros k Hk; nia]). }
  cbv zeta in Hb1. set (b1 := if 0 <? pt then _ else b0) in *. clearbody b1.
  split; [lia|]. split; [nia|]. intros k Hk. apply Hb1. lia.
Qed.

Lemma batch_ok x0 offset num t : mix_ok x0 num t -> active (mv t) = true ->
  mix_ok x0 num (mix_batch offset num t) /\ ms t <= ms (mix_batch offset num t) /\
  active (mv (mix_batch offset num t)) = true.
Proof.
  intros Hok Ha. destruct (batch_length_spec x0 num t Hok Ha) as (Hn & Hc & Hp).
  unfold mix_batch. cbv zeta. set (n := batch_length num t) in *.
  destruct Hok as [Hv Hm He Hf]. pose proof (vo_pitch _ Hv) as Hpi. pose proof (vo_pos _ Hv) as Hpos.
  assert (Hend : 0 <= sample_pos (mv t) + n * pitch (mv t) < 2 * SPU_BLOCK).
  { unfold is_u16, SPU_BLOCK in *. destruct (Z.eq_dec n 0) as [-> | ]; [lia|]. specialize (Hp (n - 1) ltac:(lia)). nia. }
  destruct (batch_loop_spec (Z.to_nat n) offset t Hpi ltac:(lia)) as (Ev & Es & _ & _ & _ & bl & br & Ee & Hl & Hr).
  { rewrite Z2Nat.id by lia. unfold SPU_BLOCK in *. lia. }
  rewrite Z2Nat.id in Ev, Es by lia.
  set (t1 := batch_loop _ offset t) in *.
  assert (Hcn : 0 <= adsr_counter (mv t) + batch_ci (mv t) * n < 0x8000).
  { pose proof (batch_ci_range _ Hv Ha). pose proof (vo_counter _ Hv). nia. }
  assert (Hv' : voice_ok (block_boundary ((mv t1) <| adsr_counter ::= fun k => k + batch_ci (mv t) * n |>)) /\
    active (block_boundary ((mv t1) <| adsr_counter ::= fun k => k + batch_ci (mv t) * n |>)) = true).
  { rewrite Ev. split.
    - apply boundary_ok; [|exact Hend]. destruct Hv; split; try assumption. cbv; intuition discriminate.
    - rewrite boundary_eq by exact Hend. unfold next_block. repeat (case_match; try exact Ha). }
  destruct Hv' as [Hv' Ha'].
  split; [|split; [change (ms t <= ms t1); lia | exact Ha'] ].
  split; [exact Hv' | change (0 <= ms t1 <= num); lia| | change (steady (m_env t1) = steady x0); rewrite Ee; exact Hf].
  change (spu_ok (fst (m_env t1))). rewrite Ee. destruct He as [? ? ? [? ?] ? ? ?].
  split; try assumption. split; cbn; congruence.
Qed.

(** One sample, then the block boundary. *)
Lemma sample_boundary_ok x0 offset num t : mix_ok x0 num t -> ms t < num ->
  mix_ok x0 num ((mix_sample offset t) <| mv ::= block_boundary |>) /\
  ms ((mix_sample offset t) <| mv ::= block_boundary |>) = ms t + 1.
Proof.
  intros [Hv Hm He Hf] Hlt. pose proof (vo_pitch _ Hv) as Hpi. pose proof (vo_pos _ Hv) as Hpos.
  assert (Hend : 0 <= sample_pos (mv t) + 1 * pitch (mv t) < 2 * SPU_BLOCK)
    by (unfold is_u16, SPU_BLOCK in *; lia).
  destruct (batch_loop_spec 1 offset t Hpi ltac:(lia)) as (Ev & Es & _ & _ & _ & bl & br & Ee & Hl & Hr).
  { change (Z.of_nat 1) with 1. unfold SPU_BLOCK in *. lia. }
  change (batch_loop 1 offset t) with (mix_sample offset t) in *. change (Z.of_nat 1) with 1 in *.
  set (t1 := mix_sample offset t) in *.
  split; [|change (ms t1 = ms t + 1); exact Es].
  split; [| change (0 <= ms t1 <= num); lia | | change (steady (m_env t1) = steady x0); rewrite Ee; exact Hf].
  - change (voice_ok (block_boundary (mv t1))). rewrite Ev. apply boundary_ok; [|exact Hend].
    destruct Hv; split; try assumption. cbv; intuition discriminate.
  - change (spu_ok (fst (m_env t1))). rewrite Ee. destruct He as [? ? ? [? ?] ? ? ?].
    split; try assumption. split; cbn; congruence.
Qed.

Lemma mix_tick_ok x0 offset vl vr num t : mix_ok x0 num t -> ms t < num -> active (mv t) = true ->
  let '(go, t') := mix_tick offset vl vr t in
  mix_ok x0 num t' /\ (go = true -> ms t' = ms t + 1).
Proof.
  intros [Hv Hm He Hf] Hlt Ha. unfold mix_tick. cbv zeta. set (t1 := t <| mv ::= adsr_tick |>).
  assert (H1 : mix_ok x0 num t1) by (split; [exact (tick_ok _ Hv Ha) | exact Hm | exact He | exact Hf]).
  destruct (bool_decide _).
  - split; [|discriminate]. destruct H1 as [Hv1 Hm1 He1 Hf1]. split; [|exact Hm1 | exact He1 | exact Hf1].
    change (voice_ok ((mv t1) <| active := false |>)). destruct Hv1; split; try assumption. discriminate.
  - assert (H2 : mix_ok x0 num (refresh_volumes vl vr t1) /\ ms (refresh_volumes vl vr t1) = ms t).
    { unfold refresh_volumes. destruct (_ =? _); (split; [|reflexivity]); destruct H1; split; assumption. }
    destruct H2 as [H2 Hs]. destruct (sample_boundary_ok x0 offset num (refresh_volumes vl vr t1) H2 ltac:(lia)) as [H3 H4].
    split; [exact H3 | intros _; rewrite H4, Hs; reflexivity].
Qed.

Lemma round_ok x0 i offset num vl vr t : mix_ok x0 num t -> ms t < num -> active (mv t) = true ->
  let '(go, t') := mix_round i offset num vl vr t in
  mix_ok x0 num t' /\ (go = true -> ms t < ms t').
Proof.
  intros H Hlt Ha. unfold mix_round. pose proof (fetch_ok x0 i num t H) as Hf.
  destruct (mix_fetch i t) as [stop t1]. destruct Hf as (H1 & E1 & _ & A1).
  destruct stop; [split; [exact H1 | discriminate]|]. specialize (A1 eq_refl Ha).
  cbv zeta. destruct (batch_ok x0 offset num t1 H1 A1) as (H2 & L2 & A2). set (t2 := mix_batch offset num t1) in *.
  destruct (Z.leb_spec num (ms t2)); [split; [exact H2 | discriminate]|].
  pose proof (fetch_ok x0 i num t2 H2) as Hf. destruct (mix_fetch i t2) as [stop t3].
  destruct Hf as (H3 & E3 & _ & A3). destruct stop; [split; [exact H3 | discriminate]|].
  specialize (A3 eq_refl A2). pose proof (mix_tick_ok x0 offset vl vr num t3 H3 ltac:(lia) A3) as Ht.
  destruct (mix_tick _ _ _ t3) as [go t4]. destruct Ht as [H4 E4]. split; [exact H4 | intros Hg; rewrite (E4 Hg); lia].
Qed.

(** The fuel of [mix_voice] is enough: every round but the last mixes a
    sample. *)
Lemma mix_loop_total x0 i offset num vl vr fuel : forall t, mix_ok x0 num t -> num - ms t <= Z.of_nat fuel ->
  exists t', mix_loop fuel i offset num vl vr t = Some t' /\ mix_ok x0 num t'.
Proof.
  induction fuel as [|fuel IH]; intros t H Hf; cbn [mix_loop].
  - rewrite (proj2 (Z.ltb_ge (ms t) num)) by lia. exists t. split; [reflexivity | exact H].
  - destruct (Z.ltb_spec (ms t) num), (active (mv t)) eqn:Ha; cbn [andb]; try (exists t; split; [reflexivity | exact H]).
    pose proof (round_ok x0 i offset num vl vr t H ltac:(lia) Ha) as Hr.
    destruct (mix_round _ _ _ _ _ t) as [go t1]. destruct Hr as [H1 Hg].
    destruct go; [|exists t1; split; [reflexivity | exact H1] ].
    apply IH; [exact H1 | specialize (Hg eq_refl); lia].
Qed.

Lemma mix_voice_ok offset num i x : spu_ok (fst x) -> 0 <= num ->
  spu_ok (fst (mix_voice offset num i x)) /\ steady (mix_voice offset num i x) = steady x.
Proof.
  intros Hx Hn. unfold mix_voice. cbv zeta. destruct (negb _); [split; [exact Hx | reflexivity]|].
  destruct (_ && _); [split; [exact Hx | reflexivity]|].
  set (t := mkMix _ _ _ _ _ _).
  assert (Ht : mix_ok x num t) by (split; [apply voice_of, Hx | cbn; lia | exact Hx | reflexivity]).
  destruct (mix_loop_total x i offset num (get_effective_volume (vol_l (get_voice i (fst x))))
    (get_effective_volume (vol_r (get_voice i (fst x)))) (Z.to_nat num) t Ht) as (t' & -> & [Hv Hm He Hf]);
    [cbn [ms t]; lia|].
  split; [apply (set_voice_ok i (mv t') (fst (m_env t'))); assumption | exact Hf].
Qed.

Lemma clear_region_length offset n l : zlen (clear_region offset n l) = zlen l.
Proof.
  unfold clear_region. generalize (zseq (Z.to_nat n)). intros ks. revert l.
  induction ks as [|k ks IH]; intros l; cbn [fold_left]; [reflexivity | rewrite IH; apply zlen_aset].
Qed.

Lemma fold_left_inv {A B} (P : A -> Prop) (f : A -> B -> A) l : (forall a b, In b l -> P a -> P (f a b)) ->
  forall a, P a -> P (fold_left f l a).
Proof.
  induction l as [|b l IH]; intros Hf a Ha; [exact Ha|]. cbn. apply IH; [intros; apply Hf; [right|]; assumption|].
  apply Hf; [left; reflexivity | exact Ha].
Qed.

(** ** Generating samples *)

Lemma mix_voices_ok offset num x : spu_ok (fst x) -> 0 <= num ->
  spu_ok (fst (mix_voices offset num x)) /\ steady (mix_voices offset num x) = steady x.
Proof.
  intros Hx Hn. unfold mix_voices. generalize (zseq 24). intros l.
  apply (fold_left_inv (fun y => spu_ok (fst y) /\ steady y = steady x)); [|split; [exact Hx | reflexivity] ].
  intros a i _ [Ha Es]. destruct (mix_voice_ok offset num i a Ha Hn) as [H1 H2]. split; [exact H1 | congruence].
Qed.

#[local] Opaque mix_voices.

Lemma clear_steady off n x :
  steady (upd_spu (fun p => p <| mix_buf_l ::= clear_region off n |> <| mix_buf_r ::= clear_region off n |>) x) = steady x.
Proof. destruct x as [p y]. destruct p. reflexivity. Qed.

Lemma generated_steady n x2 x : steady x2 = steady x ->
  steady (upd_spu (fun p => p <| spu_samples_generated := 0 |>)
           (upd_spu (fun p => p <| spu_samples_generated ::= fun k => k + n |>) x2))
  = steady (upd_spu (fun p => p <| spu_samples_generated := 0 |>) x).
Proof.
  destruct x2 as [p2 y2], x as [p y]. unfold steady. cbn [fst snd upd_spu].
  destruct p2, p. cbn. congruence.
Qed.

Lemma steady_generated x y : steady x = steady y -> spu_samples_generated (fst x) = spu_samples_generated (fst y).
Proof. intros E. exact (f_equal (fun '(_, g, _, _, _, _) => g) E). Qed.

(** The parts [SPU_GenerateChunk] leaves alone besides the sample count. *)
Lemma generate_spec num x : spu_ok (fst x) ->
  spu_ok (fst (SPU_GenerateChunk num x)) /\
  steady (upd_spu (fun p => p <| spu_samples_generated := 0 |>) (SPU_GenerateChunk num x))
    = steady (upd_spu (fun p => p <| spu_samples_generated := 0 |>) x) /\
  (spu_initialized (fst x) = true -> 0 < num ->
   spu_samples_generated (fst (SPU_GenerateChunk num x))
     = Z.min SAMPLES_PER_FRAME (spu_samples_generated (fst x) + num)).
Proof.
  intros Hx. unfold SPU_GenerateChunk. pose proof (so_generated _ Hx) as Hg.
  destruct (spu_initialized (fst x)) eqn:Hi; cbn [negb orb]; [|split; [exact Hx | split; [reflexivity | discriminate] ] ].
  destruct (Z.leb_spec num 0); [split; [exact Hx | split; [reflexivity | lia] ]|].
  assert (Hn : forall n, (if SAMPLES_PER_FRAME <? spu_samples_generated (fst x) + num
      then SAMPLES_PER_FRAME - spu_samples_generated (fst x) else num) = n ->
    spu_samples_generated (fst x) + n = Z.min SAMPLES_PER_FRAME (spu_samples_generated (fst x) + num))
    by (intros n <-; destruct (Z.ltb_spec SAMPLES_PER_FRAME (spu_samples_generated (fst x) + num)); lia).
  cbv zeta. revert Hn. generalize (if SAMPLES_PER_FRAME <? spu_samples_generated (fst x) + num then SAMPLES_PER_FRAME - spu_samples_generated (fst x) else num).
  intros n Hn. specialize (Hn n eq_refl).
  destruct (Z.leb_spec n 0); [split; [exact Hx | split; [reflexivity | intros; lia] ]|].
  pose proof (clear_steady (spu_samples_generated (fst x)) n x) as E1. set (x1 := upd_spu _ x) in *.
  assert (Hx1 : spu_ok (fst x1)).
  { destruct Hx as [? ? ? [? ?] ? ? ?]. split; try assumption. split; cbn; rewrite clear_region_length; assumption. }
  clearbody x1. destruct (mix_voices_ok (spu_samples_generated (fst x)) n x1 Hx1 ltac:(lia)) as [H2 Es].
  rewrite E1 in Es. revert H2 Es. generalize (mix_voices (spu_samples_generated (fst x)) n x1).
  intros x2 H2 Es. pose proof (steady_generated _ _ Es) as Eg.
  assert (Eu : spu_samples_generated (fst (upd_spu (fun p => p <| spu_samples_generated ::= fun k => k + n |>) x2))
               = spu_samples_generated (fst x) + n) by (rewrite <- Eg; reflexivity).
  split; [|split; [exact (generated_steady n x2 x Es) | intros _ _; rewrite Eu; exact Hn] ].
  destruct H2; split; try assumption. rewrite Eu. unfold SAMPLES_PER_FRAME in *. lia.
Qed.

(** ** Key on and key off *)

Lemma ctz_nonneg k : 0 <= ctz k.
Proof. destruct k as [|p|p]; cbn; try lia. induction p; cbn; lia. Qed.

Lemma scan_bits_inv {X} (P : X -> Prop) f fuel : (forall i x, 0 <= i < 24 -> P x -> P (f i x)) ->
  forall k x, P x -> P (scan_bits fuel f k x).
Proof.
  intros Hf. induction fuel as [|fuel IH]; intros k x Hx; cbn [scan_bits]; [exact Hx|].
  destruct (k =? 0); [exact Hx|]. cbv zeta. destruct (Z.leb_spec SPU_NUM_VOICES (ctz k)); [exact Hx|].
  apply IH, Hf; [|exact Hx]. pose proof (ctz_nonneg k). unfold SPU_NUM_VOICES in *. lia.
Qed.

Lemma range_zero m : 0 < m -> 0 <= 0 < m.
Proof. lia. Qed.

Lemma key_on_reset_ok v : voice_ok v -> voice_ok (adsr_reload_params (key_on_reset v)).
Proof.
  intros Hv. apply reload_ok; [|intros _; discriminate]. pose proof (vo_start _ Hv) as Hst.
  destruct Hv. split; try assumption; try discriminate; try (apply range_zero; reflexivity);
    try (split; [discriminate | reflexivity]); try (cbn; unfold is_s16; lia).
  change (current_addr _) with (Z.shiftl (Z.land (start_addr v) (Z.lnot 1)) 3).
  unfold is_u16 in Hst. pose proof (land_bound_l (start_addr v) (Z.lnot 1) ltac:(lia)).
  rewrite Z.shiftl_mul_pow2 by lia. change (2 ^ 3) with 8. unfold SPU_RAM_SIZE.
  split; [lia | eexists; reflexivity].
Qed.

Lemma key_on_ok i p : spu_ok p -> spu_ok (key_on_voice i p).
Proof.
  intros Hp. unfold key_on_voice.
  pose proof (set_voice_ok i _ p Hp (key_on_reset_ok _ (voice_of i p Hp))) as H. revert H.
  generalize (set_voice i (adsr_reload_params (key_on_reset (get_voice i p))) p).
  intros q [ ]. split; assumption.
Qed.

Lemma key_off_ok i p : spu_ok p -> spu_ok (key_off_voice i p).
Proof.
  intros Hp. unfold key_off_voice. cbv zeta. destruct (active _); [|exact Hp].
  apply set_voice_ok; [exact Hp|]. apply reload_ok; [|intros _; discriminate].
  pose proof (voice_of i p Hp) as [ ]. split; try assumption; try (cbv; intuition discriminate).
Qed.

Lemma flush_kon_ok p : spu_ok p -> spu_ok (flush_pending_kon p).
Proof.
  intros Hp. unfold flush_pending_kon. destruct (_ =? 0); [exact Hp|].
  assert (H : spu_ok (process_key_on (pending_kon p) p))
    by (apply (scan_bits_inv spu_ok); [intros; apply key_on_ok; assumption | exact Hp]).
  revert H. generalize (process_key_on (pending_kon p) p). intros q [ ]. split; try assumption.
  cbv; intuition discriminate.
Qed.

Lemma flush_audio_ok p : spu_ok p -> spu_ok (SPU_FlushAudio p).
Proof.
  intros Hp. unfold SPU_FlushAudio. destruct (negb _); [exact Hp|]. cbv zeta.
  destruct (_ <=? 0); destruct Hp; split; try assumption; cbv; intuition discriminate.
Qed.

Lemma catch_up_ok x : spu_ok (fst x) -> spu_ok (fst (SPU_CatchUp x)).
Proof.
  intros Hx. unfold SPU_CatchUp. destruct (_ || _); [exact Hx|]. cbv zeta.
  destruct (_ <=? _); [exact Hx|].
  set (tx := if _ && _ then _ else _).
  assert (Ht : spu_ok (fst (snd tx))).
  { subst tx. destruct (_ && _); [|exact Hx]. cbn [snd fst upd_spu]. pose proof (flush_audio_ok _ Hx) as H.
    revert H. generalize (SPU_FlushAudio (fst x)). intros q [ ]. split; assumption. }
  destruct tx as [tg x1]. cbn [snd] in Ht. destruct (0 <? _); [|exact Ht].
  apply generate_spec. apply flush_kon_ok, Ht.
Qed.
(** ** Registers and transfers *)

Lemma write_voice_reg_ok reg value v : is_u16 value -> voice_ok v -> voice_ok (write_voice_reg reg value v).
Proof.
  intros Hval Hv. unfold write_voice_reg. cbv zeta.
  assert (Hre : forall w, voice_ok (w <| active := false |>) -> active w = active v -> adsr_phase w = adsr_phase v ->
    (active w = false -> voice_ok w) -> voice_ok (if active w then adsr_reload_params w else w)).
  { intros w H1 Ha Hp H2. destruct (active w) eqn:E; [|exact (H2 eq_refl)].
    apply reload_ok; [exact H1|]. intros _. rewrite Hp. apply (vo_params _ Hv). congruence. }
  repeat match goal with |- context [match ?r with _ => _ end] => is_var r; destruct r end; try exact Hv;
  first
    [ apply Hre; [destruct Hv; split; try assumption; discriminate | reflexivity | reflexivity |];
      intros Hf; destruct Hv; split; try assumption; intros Ht; exfalso; cbn in Hf, Ht; congruence
    | destruct Hv; split; assumption ].
Qed.

Lemma transfer_ok x : spu_ok (fst x) -> spu_ok (fst (transfer_advance x)).
Proof.
  intros Hx. unfold transfer_advance. pose proof (irq9_ok (Z.land (transfer_ptr (fst x)) (not32 0xF)) x Hx) as H.
  revert H. generalize (irq9_check (Z.land (transfer_ptr (fst x)) (not32 0xF)) x). intros y [ ]. split; try assumption.
  change (0 <= Z.land (transfer_ptr (fst y) + 2) (SPU_RAM_SIZE - 1) < SPU_RAM_SIZE /\
    (2 | Z.land (transfer_ptr (fst y) + 2) (SPU_RAM_SIZE - 1))).
  destruct so_ptr0 as [Hr [k Hk] ]. rewrite Hk. change (SPU_RAM_SIZE - 1) with (Z.ones 19). rewrite Z.land_ones by lia.
  change (2 ^ 19) with 524288. unfold SPU_RAM_SIZE. split; [zify_div|].
  exists ((k + 1) mod 262144). zify_div.
Qed.

Lemma spu_ram_ok f x : (forall m, mem_ok m -> mem_ok (f m)) -> spu_ok x -> spu_ok (x <| spu_ram ::= f |>).
Proof. intros Hf [ ]. split; try assumption. apply Hf. assumption. Qed.

Lemma not32_u32 x : is_u32 (not32 x).
Proof. apply u32_range. Qed.

Lemma write_koff_ok bits x : spu_ok (fst x) -> spu_ok (fst (write_koff bits x)).
Proof.
  intros Hx. unfold write_koff. pose proof (catch_up_ok x Hx) as H. revert H. generalize (SPU_CatchUp x).
  intros [p y] Hp. cbn [fst upd_spu] in *. cbv zeta.
  assert (H : spu_ok (p <| pending_kon ::= fun k => Z.land k (not32 bits) |>)).
  { destruct Hp; split; try assumption. apply land_u32_l. assumption. }
  destruct (_ =? 0); [exact H|]. apply (scan_bits_inv spu_ok); [intros; apply key_off_ok; assumption | exact H].
Qed.

Lemma write_kon_ok bits x : is_u32 bits -> spu_ok (fst x) -> spu_ok (fst (write_kon bits x)).
Proof.
  intros Hb Hx. unfold write_kon. pose proof (catch_up_ok x Hx) as H. revert H. generalize (SPU_CatchUp x).
  intros [p y] [ ]. split; try assumption. apply lor_u32; assumption.
Qed.

Lemma write_fifo_ok value x : spu_ok (fst x) -> spu_ok (fst (write_fifo value x)).
Proof.
  intros Hx. unfold write_fifo. cbv zeta.
  assert (H1 : spu_ok (fst (upd_spu (fun p => p <| spu_data_fifo := value |>) x))) by (destruct Hx; split; assumption).
  destruct (_ <? _); [|exact H1]. apply transfer_ok, spu_ram_ok; [|exact H1].
  intros m Hm. apply mem_ok_wr8, mem_ok_wr8, Hm.
Qed.

Lemma write_spucnt_ok value p : spu_ok p -> spu_ok (write_spucnt value p).
Proof. intros Hp. unfold write_spucnt. cbv zeta. destruct (spu_irq_enabled _); destruct Hp; split; assumption. Qed.

Lemma kon_bits value : is_u16 value -> is_u32 (Z.land value 0xFFFF) /\ is_u32 (Z.shiftl (Z.land value 0xFF) 16).
Proof.
  intros Hv. unfold is_u16, is_u32 in *. pose proof (land_bound_r value 0xFFFF ltac:(lia)).
  pose proof (land_bound_r value 0xFF ltac:(lia)). rewrite Z.shiftl_mul_pow2 by lia. change (2 ^ 16) with 65536. lia.
Qed.

Lemma write_reg_ok offset value x : is_u16 value -> spu_ok (fst x) -> spu_ok (fst (SPU_WriteReg offset value x)).
Proof.
  intros Hval Hx. unfold SPU_WriteReg. cbv zeta. destruct (kon_bits value Hval) as [Hk1 Hk2].
  destruct (offset <? 0xC0).
  { destruct (_ <? _); [|exact Hx]. apply set_voice_ok; [exact Hx|]. apply write_voice_reg_ok, voice_of; assumption. }
  assert (Hset : forall f, (forall p, spu_ok p -> spu_ok (f p)) -> spu_ok (fst (upd_spu f x))) by (intros f Hf; apply Hf, Hx).
  assert (Hdef : spu_ok (fst (if offset <? 256 then upd_spu (fun p => p <| spu_reg_store ::= fun l => aset l offset value |>) x else x))).
  { destruct (_ <? _); [|exact Hx]. apply Hset. intros p [ ]. split; try assumption. cbn. rewrite zlen_aset. assumption. }
  repeat match goal with |- context [match ?r with _ => _ end] => is_var r; destruct r end; try exact Hdef; try exact Hx;
  lazymatch goal with
  | |- spu_ok (fst (write_fifo _ _)) => apply write_fifo_ok, Hx
  | |- spu_ok (fst (upd_spu (write_spucnt _) _)) => apply write_spucnt_ok, Hx
  | |- spu_ok (fst (if _ then _ else write_koff _ _)) => destruct (value =? 0); [exact Hx | apply write_koff_ok, Hx]
  | |- spu_ok (fst (if _ then _ else write_kon _ _)) =>
    destruct (value =? 0); [|apply write_kon_ok; [assumption|] ]; destruct Hx; split; assumption
  | |- spu_ok (fst (upd_spu _ (SPU_CatchUp x))) =>
    generalize (catch_up_ok x Hx); generalize (SPU_CatchUp x); intros y [ ]; split; assumption
  | |- _ => apply Hset; intros p [ ]; split; try assumption
  end.
  2: { cbn. rewrite zlen_aset. assumption. }
  - change (0 <= Z.shiftl value 3 < SPU_RAM_SIZE /\ (2 | Z.shiftl value 3)).
    unfold is_u16 in Hval. rewrite Z.shiftl_mul_pow2 by lia. change (2 ^ 3) with 8. unfold SPU_RAM_SIZE.
    split; [lia | exists (value * 4); lia].
Qed.

Lemma read_reg_ok offset x : spu_ok (fst x) -> spu_ok (fst (snd (SPU_ReadReg offset x))).
Proof.
  intros Hx. pose proof (catch_up_ok x Hx) as Hc. unfold SPU_ReadReg, read_voice_reg. cbv zeta.
  destruct (offset <? 0xC0).
  - destruct (_ <? _); [|exact Hx]. generalize (Z.land offset 0x07). intros r.
    repeat match goal with |- context [match ?r with _ => _ end] => is_var r; destruct r end; first [exact Hx | exact Hc].
  - assert (Hdef : spu_ok (fst (snd (if offset <? 256 then (aget (spu_reg_store (fst x)) offset, x) else (0, x)))))
      by (destruct (_ <? _); exact Hx).
    repeat match goal with |- context [match ?r with _ => _ end] => is_var r; destruct r end;
      first [exact Hdef | exact Hx | exact Hc].
Qed.

Lemma dma4_ok madr bcr chcr x : spu_ok (fst x) -> spu_ok (fst (SPU_DMA4 madr bcr chcr x)).
Proof.
  intros Hx. unfold SPU_DMA4. cbv zeta.
  apply (fold_left_inv (fun x => spu_ok (fst x))); [|apply catch_up_ok, Hx].
  intros a i _ Ha. destruct (tst chcr 1); [unfold dma4_write_step | unfold dma4_read_step];
    (destruct (dma4_in_range _ _ _); [|exact Ha]); cbv zeta; apply transfer_ok; [|exact Ha].
  apply spu_ram_ok; [|exact Ha]. intros m Hm. apply mem_ok_wr8, mem_ok_wr8, Hm.
Qed.

Lemma init_ok a c p : spu_ok p -> spu_ok (SPU_Init a c p).
Proof.
  intros [_ _ _ Hm _ Hg _]. unfold SPU_Init. cbv zeta.
  assert (Hv : Forall voice_ok (repeat voice0 24)) by apply Forall_repeat, voice0_ok.
  repeat (case_match); (split;
    [ split; [reflexivity | exact Hv] | apply map_Forall_empty | reflexivity | exact Hm
    | split; [split; [discriminate | reflexivity] | exists 0; reflexivity] | exact Hg | split; [discriminate | reflexivity] ]).
Qed.

(** ** The reachable states *)

(** The zero-initialised statics. *)
Definition spu_static : Spu :=
  mkSpu ∅ (repeat voice0 24) 0 0 0 0 0 0 0 0 0 0 0 (repeat 0 256) 0 false false
    (repeat 0 736) (repeat 0 736) false 0 0 false [].

(** What the program does to the processor: its functions in any order, on
    any machine around it. *)
Inductive spu_reach : SpuSys -> Prop :=
| sr_static y : spu_reach (spu_static, y)
| sr_machine p y y' : spu_reach (p, y) -> spu_reach (p, y')
| sr_init a c x : spu_reach x -> spu_reach (upd_spu (SPU_Init a c) x)
| sr_shutdown x : spu_reach x -> spu_reach (upd_spu SPU_Shutdown x)
| sr_write offset value x : spu_reach x -> is_u16 value -> spu_reach (SPU_WriteReg offset value x)
| sr_read offset x : spu_reach x -> spu_reach (snd (SPU_ReadReg offset x))
| sr_dma madr bcr chcr x : spu_reach x -> spu_reach (SPU_DMA4 madr bcr chcr x)
| sr_frame x : spu_reach x -> spu_reach (SPU_FrameStart x)
| sr_catch_up x : spu_reach x -> spu_reach (SPU_CatchUp x)
| sr_generate x : spu_reach x -> spu_reach (SPU_GenerateSamples x).

Lemma static_ok : spu_ok spu_static.
Proof.
  assert (Hv : Forall voice_ok (repeat voice0 24)) by apply Forall_repeat, voice0_ok.
  split; [split; [reflexivity | exact Hv] | apply map_Forall_empty | reflexivity | split; reflexivity
    | split; [split; [discriminate | reflexivity] | exists 0; reflexivity] | split; discriminate | split; [discriminate | reflexivity] ].
Qed.

Lemma generate_samples_ok x : spu_ok (fst x) -> spu_ok (fst (SPU_GenerateSamples x)).
Proof.
  intros Hx. unfold SPU_GenerateSamples. destruct (prof_disable_spu _).
  - destruct Hx; split; try assumption. split; discriminate.
  - cbv zeta. apply flush_audio_ok. assert (Hf : spu_ok (fst (upd_spu flush_pending_kon x))) by apply flush_kon_ok, Hx.
    destruct (0 <? _); [apply generate_spec|]; exact Hf.
Qed.

(** [C22] The state of the sound processor stays well typed: whatever
    sequence of register reads and writes, DMA transfers, frames and samples
    the program drives, there are 24 voices with 16-bit registers, a current
    block address in sound memory and a multiple of 8, a sample index below
    28, 16-bit decoded samples and filter memory, an envelope in [0, 8000h]
    (one more than the 7FFFh of the field's comment) with its counter below
    8000h, and, while the voice plays, cached parameters that are those of its
    registers; the transfer pointer is even and inside sound memory, and no
    more samples are generated than a frame holds.  (The bytes read at a block
    address are not covered: a block at 7FFF8h is read past the end.) *)
Theorem spu_invariant x : spu_reach x -> spu_ok (fst x).
Proof.
  induction 1 as [y | p y y' _ IH | a c x _ IH | x _ IH | o v x _ IH Hv | o x _ IH | m b c x _ IH | x _ IH | x _ IH | x _ IH].
  - exact static_ok.
  - exact IH.
  - apply init_ok, IH.
  - cbn. unfold SPU_Shutdown. destruct (spu_initialized _); [destruct IH; split; assumption | exact IH].
  - apply write_reg_ok; assumption.
  - apply read_reg_ok, IH.
  - apply dma4_ok, IH.
  - destruct IH; split; assumption.
  - apply catch_up_ok, IH.
  - apply generate_samples_ok, IH.
Qed.

Lemma spu_invariant_witness :
  spu_ok (fst (SPU_WriteReg 0xC4 1 (upd_spu (SPU_Init 0 0) (spu_static, sys0)))).
Proof.
  apply spu_invariant. apply sr_write; [apply sr_init, sr_static | split; [discriminate | reflexivity] ].
Defined.
