(* ===== verification/SpuMix.v ===== *)
(** * What the sound processor computes

    The mixer against a sample-by-sample reference, the life of an envelope,
    the ADPCM fast path, transfers through sound RAM, the catch-up clock, and
    the behaviours of [spu.c] that differ from its comments. *)

From S2P Require Import Prelude Scheduler System Spu SpuSafe.

(** ** The sample-by-sample reference

    Every sample decodes its block if need be, ticks the envelope, mixes and
    advances: the second half of the program's round, repeated. *)

Definition ref_sample (i offset vl vr : Z) (t : Mix) : bool * Mix :=
  let '(stop, t) := mix_fetch i t in if stop then (false, t) else mix_tick offset vl vr t.

Fixpoint ref_loop (n : nat) (i offset vl vr : Z) (t : Mix) : Mix :=
  match n with
  | O => t
  | S n =>
    if active (mv t) then
      let '(go, t) := ref_sample i offset vl vr t in
      if go then ref_loop n i offset vl vr t else t
    else t
  end.

Definition ref_voice (offset num_samples i : Z) (x : SpuSys) : SpuSys :=
  let v := get_voice i (fst x) in
  if negb (active v) then x
  else
    let vl := get_effective_volume (vol_l v) in
    let vr := get_effective_volume (vol_r v) in
    if (vl =? 0) && (vr =? 0) then x
    else
      let t := ref_loop (Z.to_nat num_samples) i offset vl vr
                 (mkMix v 0 (adsr_vol v) (Z.shiftr (vl * adsr_vol v) 15) (Z.shiftr (vr * adsr_vol v) 15) x) in
      upd_spu (set_voice i (mv t)) (m_env t).

(** Envelope rates the counter can represent: below the shifts at which its
    increment (a quarter of it on an exponential rise) is zero. *)
Definition rates_ok (v : SPU_Voice) : Prop :=
  Z.land (Z.shiftr (adsr_lo v) 10) 0x1F <= 24 /\ Z.land (Z.shiftr (adsr_hi v) 8) 0x1F <= 24 /\
  Z.land (adsr_hi v) 0x1F <= 26.

Lemma ci_at_least shift k : 0 <= shift <= 11 + k -> 0 <= k <= 15 ->
  2 ^ (15 - k) <= (if 0 <? shift - 11 then Z.shiftr 0x8000 (shift - 11) else 0x8000).
Proof.
  intros Hs Hk. destruct (Z.ltb_spec 0 (shift - 11)).
  - change 0x8000 with (2 ^ 15). rewrite Z.shiftr_div_pow2, <- Z.pow_sub_r by lia. apply Z.pow_le_mono_r; lia.
  - change 0x8000 with (2 ^ 15). apply Z.pow_le_mono_r; lia.
Qed.

Lemma rate_positive v : params_cached v -> adsr_phase v <> ADSR_OFF -> rates_ok v -> 1 <= adsr_rate v.
Proof.
  intros [Hc _] Hp (Ha & Hs & Hr). unfold adsr_params, adsr_fields in Hc.
  pose proof (land_bound_r (Z.shiftr (adsr_lo v) 10) 0x1F ltac:(lia)).
  pose proof (land_bound_r (Z.shiftr (adsr_hi v) 8) 0x1F ltac:(lia)).
  pose proof (land_bound_r (Z.shiftr (adsr_lo v) 4) 0x0F ltac:(lia)).
  pose proof (land_bound_r (adsr_hi v) 0x1F ltac:(lia)).
  assert (Hq : forall c, 4 <= c -> 1 <= Z.shiftr c 2) by (intros c Hc'; rewrite Z.shiftr_div_pow2 by lia; change (2 ^ 2) with 4; zify_div).
  unfold adsr_rate. destruct (adsr_phase v); cbv zeta in Hc; try contradiction;
    apply (f_equal (fun '(c, _, e, i) => (c, e, i))) in Hc; injection Hc as <- <- <-.
  - pose proof (ci_at_least (Z.land (Z.shiftr (adsr_lo v) 10) 0x1F) 13 ltac:(lia) ltac:(lia)) as Hi.
    change (2 ^ (15 - 13)) with 4 in Hi. destruct (_ && _ && _); [apply Hq, Hi | lia].
  - pose proof (ci_at_least (Z.land (Z.shiftr (adsr_lo v) 4) 0x0F) 13 ltac:(lia) ltac:(lia)) as Hi.
    change (2 ^ (15 - 13)) with 4 in Hi. destruct (_ && _ && _); [apply Hq, Hi | lia].
  - pose proof (ci_at_least (Z.land (Z.shiftr (adsr_hi v) 8) 0x1F) 13 ltac:(lia) ltac:(lia)) as Hi.
    change (2 ^ (15 - 13)) with 4 in Hi. destruct (_ && _ && _); [apply Hq, Hi | lia].
  - pose proof (ci_at_least (Z.land (adsr_hi v) 0x1F) 15 ltac:(lia) ltac:(lia)) as Hi.
    change (2 ^ (15 - 15)) with 1 in Hi. rewrite andb_false_r. exact Hi.
Qed.

(** ** A batch is a run of reference samples *)

Definition add_counter (k : Z) (v : SPU_Voice) : SPU_Voice := v <| adsr_counter ::= fun c => c + k |>.
Definition on_mv (f : SPU_Voice -> SPU_Voice) (t : Mix) : Mix := t <| mv ::= f |>.

Lemma sample_counter offset k t : mix_sample offset (on_mv (add_counter k) t) = on_mv (add_counter k) (mix_sample offset t).
Proof. destruct t as [v ? ? ? ? [p y] ]. destruct v. reflexivity. Qed.

Lemma batch_counter n offset k : forall t,
  batch_loop n offset (on_mv (add_counter k) t) = on_mv (add_counter k) (batch_loop n offset t).
Proof.
  induction n as [|n IH]; intros t; cbn [batch_loop]; [reflexivity|]. rewrite sample_counter. apply IH.
Qed.

Lemma add_counter_add j k t : on_mv (add_counter j) (on_mv (add_counter k) t) = on_mv (add_counter (k + j)) t.
Proof.
  destruct t as [v ? ? ? ? ?]. destruct v. unfold on_mv, add_counter, upd. cbn. rewrite Z.add_assoc. reflexivity.
Qed.

(** The state after [n] samples of a batch at rate [ci]. *)
Definition batch_state (n : nat) (offset ci : Z) (t : Mix) : Mix :=
  on_mv (fun v => block_boundary (add_counter (ci * Z.of_nat n) v)) (batch_loop n offset t).

(** What a run of [n] constant-volume samples needs. *)
Record batch_fits (n : Z) (ci : Z) (t : Mix) : Prop := {
  bf_active : active (mv t) = true;
  bf_decoded : block_decoded (mv t) = true;
  bf_phase : adsr_phase (mv t) <> ADSR_OFF;
  bf_last : m_last t = adsr_vol (mv t);
  bf_rate : adsr_rate (mv t) = ci;
  bf_counter : 0 <= adsr_counter (mv t) /\ adsr_counter (mv t) + ci * n <= 0x7FFF;
  bf_ci : 1 <= ci;
  bf_pitch : is_u16 (pitch (mv t));
  bf_pos : 0 <= sample_pos (mv t) < SPU_BLOCK /\ (forall k, 0 <= k < n -> sample_pos (mv t) + k * pitch (mv t) < SPU_BLOCK)
}.

Lemma tick_quiet v : adsr_counter v + adsr_rate v < 0x8000 -> adsr_tick v = add_counter (adsr_rate v) v.
Proof.
  intros H. unfold adsr_tick. cbv zeta. change (adsr_counter (v <| adsr_counter ::= _ |>)) with (adsr_counter v + adsr_rate v).
  rewrite (proj2 (Z.ltb_lt _ _) H). reflexivity.
Qed.

Lemma ref_sample_quiet i offset vl vr n ci t : batch_fits n ci t -> 1 <= n ->
  ref_sample i offset vl vr t = (true, on_mv block_boundary (mix_sample offset (on_mv (add_counter ci) t))).
Proof.
  intros [Ha Hd Hp Hl Hr [Hc0 Hc] Hci Hpi Hpos] Hn. unfold ref_sample, mix_fetch. rewrite Hd. unfold mix_tick. cbv zeta.
  assert (Et : t <| mv ::= adsr_tick |> = on_mv (add_counter ci) t).
  { unfold on_mv. destruct t as [v ? ? ? ? ?]. cbn [mv] in *. unfold upd. cbn.
    rewrite tick_quiet by nia. rewrite Hr. reflexivity. }
  rewrite Et. change (adsr_phase (mv (on_mv (add_counter ci) t))) with (adsr_phase (mv t)).
  rewrite bool_decide_eq_false_2 by exact Hp.
  unfold refresh_volumes. change (adsr_vol (mv (on_mv (add_counter ci) t))) with (adsr_vol (mv t)).
  change (m_last (on_mv (add_counter ci) t)) with (m_last t). rewrite Hl, Z.eqb_refl. reflexivity.
Qed.

Lemma boundary_inside v : 0 <= sample_pos v < SPU_BLOCK -> block_boundary v = v.
Proof.
  intros H. rewrite boundary_eq by (unfold SPU_BLOCK in *; lia).
  rewrite (proj2 (Z.ltb_lt _ _) (proj2 H)). reflexivity.
Qed.

Lemma sample_pos_next offset t : is_u16 (pitch (mv t)) -> 0 <= sample_pos (mv t) < SPU_BLOCK ->
  sample_pos (mv (mix_sample offset t)) = sample_pos (mv t) + pitch (mv t).
Proof.
  intros Hp Hs. change (sample_pos (mv (mix_sample offset t))) with (u32 (sample_pos (mv t) + pitch (mv t))).
  apply u32_small. unfold is_u16, SPU_BLOCK, is_u32 in *. lia.
Qed.

Lemma on_mv_id f t : f (mv t) = mv t -> on_mv f t = t.
Proof. intros H. destruct t. unfold on_mv, upd. cbn in *. rewrite H. reflexivity. Qed.

Lemma on_mv_comp f g t : on_mv f (on_mv g t) = on_mv (fun v => f (g v)) t.
Proof. reflexivity. Qed.

Lemma on_mv_ext f g t : (forall v, f v = g v) -> on_mv f t = on_mv g t.
Proof. intros H. destruct t. unfold on_mv, upd. cbn. rewrite H. reflexivity. Qed.

(** [n] reference samples where nothing happens but mixing are one batch. *)
Lemma ref_batch i offset vl vr m n ci : forall t, batch_fits (Z.of_nat n) ci t ->
  ref_loop (n + m) i offset vl vr t = ref_loop m i offset vl vr (batch_state n offset ci t).
Proof.
  induction n as [|n IH]; intros t Hf.
  - unfold batch_state. cbn [Nat.add batch_loop]. f_equal. symmetry. apply on_mv_id. cbv beta.
    assert (E : add_counter (ci * Z.of_nat 0) (mv t) = mv t).
    { change (Z.of_nat 0) with 0. rewrite Z.mul_0_r. destruct (mv t). unfold add_counter, upd. cbn. rewrite Z.add_0_r. reflexivity. }
    rewrite E. apply boundary_inside. apply (bf_pos _ _ _ Hf).
  - cbn [Nat.add ref_loop]. rewrite (bf_active _ _ _ Hf), (ref_sample_quiet i offset vl vr _ ci t Hf) by lia.
    destruct Hf as [Ha Hd Hp Hl Hr [Hc0 Hc] Hci Hpi [Hpos Hk] ].
    set (t1 := mix_sample offset (on_mv (add_counter ci) t)).
    assert (Hpos1 : sample_pos (mv t1) = sample_pos (mv t) + pitch (mv t))
      by (apply (sample_pos_next offset (on_mv (add_counter ci) t)); assumption).
    assert (Hpi1 : pitch (mv t1) = pitch (mv t)) by reflexivity.
    unfold is_u16, SPU_BLOCK in Hpi, Hpos.
    destruct n as [|n].
    + cbn [Nat.add]. f_equal. unfold batch_state. cbn [batch_loop].
      subst t1. rewrite sample_counter, on_mv_comp. apply on_mv_ext. intros v.
      replace (ci * Z.of_nat 1) with ci by lia. reflexivity.
    + rewrite (on_mv_id block_boundary t1).
      2: { apply boundary_inside. rewrite Hpos1. specialize (Hk 1 ltac:(lia)). lia. }
      assert (Hf1 : batch_fits (Z.of_nat (S n)) ci t1).
      { split; try assumption.
        - change (0 <= adsr_counter (mv t) + ci /\ adsr_counter (mv t) + ci + ci * Z.of_nat (S n) <= 0x7FFF). nia.
        - rewrite Hpos1, Hpi1. split; [specialize (Hk 1 ltac:(lia)); unfold SPU_BLOCK in *; lia|].
          intros k Hk'. specialize (Hk (k + 1) ltac:(lia)). lia. }
      rewrite (IH t1 Hf1). f_equal. unfold batch_state. subst t1.
      change (batch_loop (S (S n)) offset t) with (batch_loop (S n) offset (mix_sample offset t)).
      rewrite sample_counter, batch_counter, on_mv_comp. apply on_mv_ext. intros v. f_equal.
      destruct v. unfold add_counter, upd. cbn. f_equal. lia.
Qed.

(** ** What the mixer keeps of the envelope *)

Definition env_of (v : SPU_Voice) : Z * Z * Z := (adsr_vol v, adsr_lo v, adsr_hi v).
Definition coherent (t : Mix) : Prop := m_last t = adsr_vol (mv t) /\ rates_ok (mv t).

Lemma rates_env v w : (adsr_lo v, adsr_hi v) = (adsr_lo w, adsr_hi w) -> rates_ok v -> rates_ok w.
Proof. intros [= El Eh]. unfold rates_ok. rewrite El, Eh. auto. Qed.

Lemma coherent_env t t' : env_of (mv t') = env_of (mv t) -> m_last t' = m_last t -> coherent t -> coherent t'.
Proof.
  intros [= Ev El Eh] Em [H1 H2]. split; [congruence|]. apply (rates_env (mv t)); [congruence | exact H2].
Qed.

Lemma next_blocks_env n : forall v, env_of (next_blocks n v) = env_of v.
Proof.
  assert (H1 : forall v, env_of (next_block v) = env_of v)
    by (intros v; unfold next_block; cbv zeta; case_match; reflexivity).
  induction n as [|n IH]; intros v; cbn [next_blocks]; [reflexivity|]. cbv zeta.
  destruct (_ <=? _); [rewrite IH|]; apply H1.
Qed.

Lemma boundary_env v : env_of (block_boundary v) = env_of v.
Proof.
  unfold block_boundary. destruct (_ <=? _); [|reflexivity].
  transitivity (env_of (next_blocks (Z.to_nat (sample_pos v / SPU_BLOCK)) v)); [reflexivity | apply next_blocks_env].
Qed.

Lemma flags_env i a f v x : env_of (fst (adpcm_flags i a f v x)) = env_of v.
Proof.
  unfold adpcm_flags. cbv zeta. destruct (tst f 4 && _); (destruct (tst f 1); [destruct (tst f 2)|]); reflexivity.
Qed.

Lemma decode_env i v a x : env_of (fst (decode_adpcm_block i v a x)) = env_of v.
Proof.
  unfold decode_adpcm_block. cbv zeta. destruct (adpcm_samples _ _ _ _) as [out [s1 s2] ]. rewrite flags_env. reflexivity.
Qed.

Lemma fetch_env i t : env_of (mv (snd (mix_fetch i t))) = env_of (mv t) /\ m_last (snd (mix_fetch i t)) = m_last t.
Proof.
  unfold mix_fetch. destruct (block_decoded _); [split; reflexivity|]. cbv zeta.
  pose proof (decode_env i (mv t) (current_addr (mv t)) (fst (irq9_check (current_addr (mv t)) (m_env t)))) as H.
  destruct (decode_adpcm_block _ _ _ _) as [v p]. split; [exact H | reflexivity].
Qed.

Lemma batch_env n offset : forall t,
  env_of (mv (batch_loop n offset t)) = env_of (mv t) /\ m_last (batch_loop n offset t) = m_last t.
Proof. induction n as [|n IH]; intros t; [split; reflexivity|]. exact (IH (mix_sample offset t)). Qed.

Lemma reload_regs v : (adsr_lo (adsr_reload_params v), adsr_hi (adsr_reload_params v)) = (adsr_lo v, adsr_hi v).
Proof. voice_reload. reflexivity. Qed.

Lemma tick_regs v : (adsr_lo (adsr_tick v), adsr_hi (adsr_tick v)) = (adsr_lo v, adsr_hi v).
Proof.
  unfold adsr_tick. cbv zeta. destruct (_ <? _); [reflexivity|].
  set (v2 := (v <| adsr_counter ::= _ |>) <| adsr_counter ::= _ |>).
  change (adsr_lo v, adsr_hi v) with (adsr_lo v2, adsr_hi v2). generalize (adsr_next_vol v2). clearbody v2. clear v. intros w.
  assert (H : (adsr_lo (snd (adsr_transition w v2)), adsr_hi (snd (adsr_transition w v2))) = (adsr_lo v2, adsr_hi v2)).
  { unfold adsr_transition. cbv zeta. repeat (case_match; try reflexivity);
      cbn [snd]; rewrite reload_regs; reflexivity. }
  destruct (adsr_transition w v2) as [vol v3]. exact H.
Qed.

Lemma mix_tick_coherent offset vl vr t : rates_ok (mv t) ->
  fst (mix_tick offset vl vr t) = true -> coherent (snd (mix_tick offset vl vr t)).
Proof.
  intros Hr. unfold mix_tick. cbv zeta. set (t1 := t <| mv ::= adsr_tick |>).
  assert (Hr1 : rates_ok (mv t1)) by (apply (rates_env (mv t)); [symmetry; apply tick_regs | exact Hr]).
  clearbody t1. destruct (bool_decide _); [discriminate|]. intros _. cbn [snd].
  assert (H2 : coherent (refresh_volumes vl vr t1)).
  { unfold refresh_volumes. destruct (Z.eqb_spec (adsr_vol (mv t1)) (m_last t1)); split; try exact Hr1; [congruence | reflexivity]. }
  revert H2. generalize (refresh_volumes vl vr t1). intros t2. apply coherent_env; [|reflexivity].
  change (env_of (block_boundary (mv (mix_sample offset t2))) = env_of (mv t2)). rewrite boundary_env. reflexivity.
Qed.

Lemma batch_loop_ms n offset : forall t, ms (batch_loop n offset t) = ms t + Z.of_nat n.
Proof.
  induction n as [|n IH]; intros t; cbn [batch_loop]; [lia|]. rewrite IH.
  change (ms (mix_sample offset t)) with (1 + ms t). lia.
Qed.

(** The batch of a round, as the run of reference samples it is. *)
Lemma mix_batch_run x0 i offset vl vr num t :
  mix_ok x0 num t -> active (mv t) = true -> block_decoded (mv t) = true -> coherent t ->
  let t' := mix_batch offset num t in
  coherent t' /\ ms t <= ms t' <= num /\
  ref_loop (Z.to_nat (num - ms t)) i offset vl vr t = ref_loop (Z.to_nat (num - ms t')) i offset vl vr t'.
Proof.
  intros H1 A1 D1 C1. destruct (vo_params _ (mo_voice _ _ _ H1) A1) as [Hc1 Hp1].
  destruct (batch_length_spec x0 num t H1 A1) as (Hn & Hcnt & Hpos).
  pose proof (rate_positive _ Hc1 Hp1 (proj2 C1)) as Hrate.
  assert (Hci : batch_ci (mv t) = adsr_rate (mv t)) by (unfold batch_ci; cbv zeta; rewrite (proj2 (Z.leb_gt _ _)); lia).
  set (n := batch_length num t) in *.
  assert (Hb : mix_batch offset num t = batch_state (Z.to_nat n) offset (adsr_rate (mv t)) t).
  { unfold mix_batch, batch_state. cbv zeta. fold n. rewrite Hci, Z2Nat.id by lia. reflexivity. }
  assert (Hfit : batch_fits (Z.of_nat (Z.to_nat n)) (adsr_rate (mv t)) t).
  { rewrite Z2Nat.id by lia. rewrite Hci in Hcnt. pose proof (mo_voice _ _ _ H1) as Hv.
    split; [exact A1 | exact D1 | exact Hp1 | apply C1 | reflexivity | pose proof (vo_counter _ Hv); lia | lia
      | exact (vo_pitch _ Hv) | split; [exact (vo_pos _ Hv) | exact Hpos] ]. }
  cbv zeta. rewrite Hb. set (t' := batch_state _ _ _ _).
  assert (Hms : ms t' = ms t + n).
  { change (ms t') with (ms (batch_loop (Z.to_nat n) offset t)). rewrite batch_loop_ms. lia. }
  assert (Hco : coherent t').
  { destruct (batch_env (Z.to_nat n) offset t) as [Ee El]. apply (coherent_env t); [| exact El | exact C1].
    rewrite <- Ee. exact (boundary_env (add_counter (adsr_rate (mv t) * Z.of_nat (Z.to_nat n)) (mv (batch_loop (Z.to_nat n) offset t)))). }
  split; [exact Hco|]. split; [lia|].
  replace (Z.to_nat (num - ms t)) with (Z.to_nat n + Z.to_nat (num - ms t'))%nat by lia.
  apply ref_batch, Hfit.
Qed.

(** One step of the reference: the fetch, then the tick. *)
Lemma ref_fetch x0 i offset num vl vr r t : mix_ok x0 num t -> active (mv t) = true ->
  ref_loop (S r) i offset vl vr t
  = let '(stop, t') := mix_fetch i t in if stop then t' else ref_loop (S r) i offset vl vr t'.
Proof.
  intros Hok Ha. pose proof (fetch_ok x0 i num t Hok) as Hfe. cbn [ref_loop]. rewrite Ha. unfold ref_sample.
  destruct (mix_fetch i t) as [stop t1]. destruct Hfe as (_ & _ & D1 & A1).
  destruct stop; [reflexivity|]. rewrite (A1 eq_refl Ha). unfold mix_fetch. rewrite D1. reflexivity.
Qed.

Lemma ref_tick i offset vl vr r t : block_decoded (mv t) = true -> active (mv t) = true ->
  ref_loop (S r) i offset vl vr t
  = let '(go, t') := mix_tick offset vl vr t in if go then ref_loop r i offset vl vr t' else t'.
Proof. intros Hd Ha. cbn [ref_loop]. rewrite Ha. unfold ref_sample, mix_fetch. rewrite Hd. reflexivity. Qed.

(** The fuelled loop of the program is the reference loop. *)
Lemma mix_loop_ref x0 i offset num vl vr fuel : forall t, mix_ok x0 num t -> coherent t -> num - ms t <= Z.of_nat fuel ->
  mix_loop fuel i offset num vl vr t = Some (ref_loop (Z.to_nat (num - ms t)) i offset vl vr t).
Proof.
  induction fuel as [|fuel IH]; intros t Hok Hco Hf; cbn [mix_loop].
  { rewrite (proj2 (Z.ltb_ge (ms t) num)) by lia. replace (Z.to_nat (num - ms t)) with O by lia. reflexivity. }
  destruct (Z.ltb_spec (ms t) num) as [Hlt|]; cbn [andb].
  2: { replace (Z.to_nat (num - ms t)) with O by lia. reflexivity. }
  destruct (Z.to_nat (num - ms t)) as [|r] eqn:Er; [lia|].
  destruct (active (mv t)) eqn:Ha; [|cbn [ref_loop]; rewrite Ha; reflexivity].
  rewrite (ref_fetch x0 i offset num vl vr r t Hok Ha). unfold mix_round.
  pose proof (fetch_ok x0 i num t Hok) as Hfe. pose proof (fetch_env i t) as [Eenv Elast].
  destruct (mix_fetch i t) as [stop t1]. destruct Hfe as (H1 & E1 & D1 & A1). destruct stop; [reflexivity|].
  specialize (A1 eq_refl Ha). pose proof (coherent_env t t1 Eenv Elast Hco) as C1.
  destruct (mix_batch_run x0 i offset vl vr num t1 H1 A1 D1 C1) as (C2 & L2 & R2).
  destruct (batch_ok x0 offset num t1 H1 A1) as (H2 & _ & A2).
  cbv zeta. rewrite <- Er, <- E1, R2. set (t2 := mix_batch offset num t1) in *. clearbody t2.
  destruct (Z.leb_spec num (ms t2)); [replace (Z.to_nat (num - ms t2)) with O by lia; reflexivity|].
  destruct (Z.to_nat (num - ms t2)) as [|q] eqn:Eq; [lia|].
  rewrite (ref_fetch x0 i offset num vl vr q t2 H2 A2).
  pose proof (fetch_ok x0 i num t2 H2) as Hfe. pose proof (fetch_env i t2) as [Eenv2 Elast2].
  destruct (mix_fetch i t2) as [stop t3]. destruct Hfe as (H3 & E3 & D3 & A3). destruct stop; [reflexivity|].
  specialize (A3 eq_refl A2). pose proof (coherent_env t2 t3 Eenv2 Elast2 C2) as C3.
  rewrite (ref_tick i offset vl vr q t3 D3 A3).
  pose proof (mix_tick_ok x0 offset vl vr num t3 H3 ltac:(lia) A3) as Ht.
  pose proof (mix_tick_coherent offset vl vr t3 (proj2 C3)) as C4.
  destruct (mix_tick offset vl vr t3) as [go t4]. destruct Ht as [H4 E4]. destruct go; [|reflexivity].
  specialize (E4 eq_refl). rewrite IH; [|exact H4 | exact (C4 eq_refl) | lia].
  f_equal. f_equal. lia.
Qed.

(** [C17] The batched mixer computes what a sample-by-sample mixer does: for
    a voice whose attack and sustain shifts are 24 at most and whose release
    shift is 26 at most (with larger ones the increment of the envelope
    counter is zero, which the batches replace by one), mixing in runs of
    constant volume gives the samples, the voice state, the interrupts and the
    flags of decoding, ticking and mixing every sample on its own. *)
Theorem mixer_batches_exact offset num i x : spu_ok (fst x) -> 0 <= num -> rates_ok (get_voice i (fst x)) ->
  mix_voice offset num i x = ref_voice offset num i x.
Proof.
  intros Hx Hn Hr. unfold mix_voice, ref_voice. cbv zeta. destruct (negb _); [reflexivity|]. destruct (_ && _); [reflexivity|].
  set (t := mkMix _ _ _ _ _ _).
  assert (Hok : mix_ok x num t) by (split; [apply voice_of, Hx | cbn; lia | exact Hx | reflexivity]).
  rewrite (mix_loop_ref x i offset num _ _ (Z.to_nat num) t Hok); [| split; [reflexivity | exact Hr] | cbn [ms t]; lia].
  replace (num - ms t) with num by (cbn [ms t]; lia). reflexivity.
Qed.

(** ** The catch-up clock *)

(** What a transfer depends on; generating samples leaves it alone. *)
Definition transfer_view (x : SpuSys) := (spu_ram (fst x), transfer_ptr (fst x), psx_ram (snd x)).

Lemma flush_kon_keeps {A} (f : Spu -> A) p :
  (forall i q, f (key_on_voice i q) = f q) -> (forall k q, f (q <| pending_kon := k |>) = f q) ->
  f (flush_pending_kon p) = f p.
Proof.
  intros H1 H2. unfold flush_pending_kon. destruct (_ =? 0); [reflexivity|]. rewrite H2.
  apply (scan_bits_inv (fun q => f q = f p)); [|reflexivity]. intros i q _ <-. apply H1.
Qed.

Lemma flush_audio_keeps {A} (f : Spu -> A) p :
  (forall l q, f (q <| audio_out := l |> <| spu_samples_generated := 0 |>) = f q) ->
  (forall q, f (q <| spu_samples_generated := 0 |>) = f q) -> f (SPU_FlushAudio p) = f p.
Proof.
  intros H1 H2. unfold SPU_FlushAudio. destruct (negb _); [reflexivity|]. cbv zeta.
  destruct (_ <=? 0); [apply H2|]. apply (H1 (audio_out p ++ [_])).
Qed.

Lemma generate_view num x : spu_ok (fst x) -> transfer_view (SPU_GenerateChunk num x) = transfer_view x.
Proof.
  intros Hx. destruct (generate_spec num x Hx) as (_ & Hs & _). revert Hs. generalize (SPU_GenerateChunk num x).
  intros x' Hs. unfold steady, transfer_view in *. cbn in Hs. injection Hs. intros. congruence.
Qed.

Lemma catch_up_view x : spu_ok (fst x) -> transfer_view (SPU_CatchUp x) = transfer_view x.
Proof.
  intros Hx. unfold SPU_CatchUp. destruct (_ || _); [reflexivity|]. cbv zeta. destruct (_ <=? _); [reflexivity|].
  set (tx := if _ && _ then _ else _).
  assert (Ht : spu_ok (fst (snd tx)) /\ transfer_view (snd tx) = transfer_view x).
  { subst tx. destruct (_ && _); [|split; [exact Hx | reflexivity] ].
    pose proof (flush_audio_ok _ Hx) as Ho.
    pose proof (flush_audio_keeps (fun q => (spu_ram q, transfer_ptr q)) (fst x) ltac:(reflexivity) ltac:(reflexivity)) as Hv.
    cbn [snd fst upd_spu]. unfold transfer_view. cbn [snd fst upd_spu]. revert Ho Hv.
    generalize (SPU_FlushAudio (fst x)). intros q Ho Hv.
    split; [destruct Ho; split; assumption | cbn; congruence]. }
  destruct tx as [tg x1]. cbn [snd] in Ht. destruct Ht as [Ho Hv]. destruct (0 <? _); [|exact Hv].
  rewrite generate_view by (apply flush_kon_ok, Ho). rewrite <- Hv.
  pose proof (flush_kon_keeps (fun q => (spu_ram q, transfer_ptr q)) (fst x1) ltac:(reflexivity) ltac:(reflexivity)) as Hk.
  unfold transfer_view. cbn [fst snd upd_spu]. congruence.
Qed.

(** The part of [SPU_CatchUp] after the frame hand-over. *)
Definition catch_pending (target : Z) (x : SpuSys) : SpuSys :=
  let target := if SAMPLES_PER_FRAME <? target then SAMPLES_PER_FRAME else target in
  let pending := target - spu_samples_generated (fst x) in
  if 0 <? pending then SPU_GenerateChunk pending (upd_spu flush_pending_kon x) else x.

Lemma pending_spec target x : spu_ok (fst x) -> spu_initialized (fst x) = true ->
  let p' := fst (catch_pending target x) in
  spu_samples_generated p' = Z.max (spu_samples_generated (fst x)) (Z.min SAMPLES_PER_FRAME target) /\
  spu_frame_start_cycle p' = spu_frame_start_cycle (fst x) /\ audio_out p' = audio_out (fst x).
Proof.
  intros Hx Hi. unfold catch_pending. cbv zeta.
  assert (Et : (if SAMPLES_PER_FRAME <? target then SAMPLES_PER_FRAME else target) = Z.min SAMPLES_PER_FRAME target)
    by (destruct (Z.ltb_spec SAMPLES_PER_FRAME target); lia).
  rewrite Et. pose proof (so_generated _ Hx) as Hg. set (g := spu_samples_generated (fst x)) in *.
  destruct (Z.ltb_spec 0 (Z.min SAMPLES_PER_FRAME target - g)).
  2: { split; [fold g; lia | split; reflexivity]. }
  pose proof (flush_kon_ok _ Hx) as Ho.
  pose proof (flush_kon_keeps (fun q => (spu_samples_generated q, spu_initialized q, spu_frame_start_cycle q, audio_out q))
    (fst x) ltac:(reflexivity) ltac:(reflexivity)) as Hk.
  injection Hk as K1 K2 K3 K4. set (x1 := upd_spu flush_pending_kon x).
  destruct (generate_spec (Z.min SAMPLES_PER_FRAME target - g) x1 Ho) as (_ & Hs & Hn).
  assert (I1 : spu_initialized (fst x1) = true) by (change (spu_initialized (flush_pending_kon (fst x)) = true); congruence).
  assert (G1 : spu_samples_generated (fst x1) = g) by exact K1.
  rewrite (Hn I1) by lia. rewrite G1. split; [lia|].
  revert Hs. generalize (SPU_GenerateChunk (Z.min SAMPLES_PER_FRAME target - g) x1). intros x2 Hs.
  unfold steady in Hs. cbn in Hs. injection Hs. intros. split; congruence.
Qed.

Lemma spu_target_exact now start : 0 <= start < now -> now < 18446744073709551616 ->
  (now - start) / 768 < 2147483648 -> spu_target now start = (now - start) / 768.
Proof.
  intros H Hn Hb. unfold spu_target, CYCLES_PER_SAMPLE. rewrite u64_small by (unfold is_u64; lia).
  assert (0 <= (now - start) / 768) by (apply Z.div_pos; lia).
  unfold s32. rewrite u32_small by (unfold is_u32; lia). destruct (Z.ltb_spec ((now - start) / 768) 2147483648); lia.
Qed.

Lemma mixed_length ml mr n vl vr : zlen (SPU_Mix_And_Clamp ml mr n vl vr) = 2 * Z.max 0 n.
Proof.
  unfold SPU_Mix_And_Clamp. assert (H : forall l, zlen (flat_map (fun i => [mix_clamp (aget ml i) vl; mix_clamp (aget mr i) vr]) l) = 2 * zlen l).
  { intros l. unfold zlen. induction l as [|a l IH]; [reflexivity|]. cbn [flat_map length app]. lia. }
  rewrite H. unfold zlen, zseq. rewrite length_map, length_seq. lia.
Qed.

(** [C32] Samples keep pace with the clock.  Catching up at time [now], [t]
    sample periods of 768 cycles after the start of the frame, leaves
    min(t, 735) samples of the frame generated, never fewer than before; when
    the frame was already complete and time has gone on, it is first handed
    to the backend as one buffer of 735 stereo samples and the next frame
    starts 735 periods later. *)
Theorem catch_up_exact x : spu_ok (fst x) -> spu_initialized (fst x) = true -> prof_disable_spu (fst x) = false ->
  let now := u64 (global_cycles (snd x) + partial_block_cycles (snd x)) in
  let start := spu_frame_start_cycle (fst x) in
  let t := (now - start) / 768 in
  let g := spu_samples_generated (fst x) in
  let p' := fst (SPU_CatchUp x) in
  0 <= start < now -> t < 2147483648 ->
  if (735 <? t) && (g =? 735) then
    spu_samples_generated p' = Z.min 735 (t - 735) /\ spu_frame_start_cycle p' = start + 735 * 768 /\
    exists out, audio_out p' = audio_out (fst x) ++ [out] /\ zlen out = 2 * 735
  else spu_samples_generated p' = Z.max g (Z.min 735 t) /\ spu_frame_start_cycle p' = start /\
    audio_out p' = audio_out (fst x).
Proof.
  intros Hx Hi Hd now start t g p' Hs Ht.
  assert (Hnow : now < 18446744073709551616) by (pose proof (u64_range (global_cycles (snd x) + partial_block_cycles (snd x))) as H; apply H).
  subst p'. unfold SPU_CatchUp. rewrite Hi, Hd. cbn [negb orb]. cbv zeta. fold now start.
  rewrite (proj2 (Z.leb_gt now start)) by lia.
  rewrite (spu_target_exact now start Hs Hnow Ht). fold t.
  pose proof (so_generated _ Hx) as Hg. fold g in Hg |- *. change SAMPLES_PER_FRAME with 735 in *.
  assert (Eg : (735 <=? g) = (g =? 735)) by (destruct (Z.leb_spec 735 g), (Z.eqb_spec g 735); lia).
  rewrite Eg. destruct ((735 <? t) && (g =? 735)) eqn:E; [|exact (pending_spec t x Hx Hi)].
  apply andb_prop in E as [E1 E2]. apply Z.ltb_lt in E1. apply Z.eqb_eq in E2.
  assert (Hlate : start + 735 * 768 < now) by (subst t; zify_div).
  set (x1 := upd_spu _ x).
  assert (Ef : SPU_FlushAudio (fst x) = (fst x) <| audio_out ::= fun l => l ++ [SPU_Mix_And_Clamp (mix_buf_l (fst x)) (mix_buf_r (fst x)) g
      (get_effective_volume (main_vol_l (fst x))) (get_effective_volume (main_vol_r (fst x)))] |> <| spu_samples_generated := 0 |>).
  { unfold SPU_FlushAudio. rewrite Hi. cbn [negb]. cbv zeta. fold g. rewrite (proj2 (Z.leb_gt g 0)) by lia. reflexivity. }
  assert (H1 : spu_ok (fst x1)).
  { change (fst x1) with ((SPU_FlushAudio (fst x)) <| spu_frame_start_cycle ::= fun c => u64 (c + 735 * CYCLES_PER_SAMPLE) |>).
    generalize (flush_audio_ok _ Hx). generalize (SPU_FlushAudio (fst x)). intros q [ ]. split; assumption. }
  assert (S1 : spu_frame_start_cycle (fst x1) = start + 735 * 768).
  { change (fst x1) with ((SPU_FlushAudio (fst x)) <| spu_frame_start_cycle ::= fun c => u64 (c + 735 * CYCLES_PER_SAMPLE) |>).
    rewrite Ef. change (u64 (start + 735 * 768) = start + 735 * 768). apply u64_small. unfold is_u64. lia. }
  rewrite S1, (spu_target_exact now (start + 735 * 768)) by (try lia; subst t; zify_div).
  replace ((now - (start + 735 * 768)) / 768) with (t - 735) by (subst t; zify_div).
  assert (I1 : spu_initialized (fst x1) = true /\ spu_samples_generated (fst x1) = 0 /\ exists out,
      audio_out (fst x1) = audio_out (fst x) ++ [out] /\ zlen out = 2 * 735).
  { change (fst x1) with ((SPU_FlushAudio (fst x)) <| spu_frame_start_cycle ::= fun c => u64 (c + 735 * CYCLES_PER_SAMPLE) |>).
    rewrite Ef. split; [exact Hi|]. split; [reflexivity|]. eexists. split; [reflexivity|].
    rewrite mixed_length. lia. }
  destruct I1 as (I1 & G1 & out & O1 & O2). clearbody x1.
  destruct (pending_spec (t - 735) x1 H1 I1) as (P1 & P2 & P3). change SAMPLES_PER_FRAME with 735 in *.
  unfold catch_pending in P1, P2, P3. cbv zeta in P1, P2, P3. change SAMPLES_PER_FRAME with 735 in *.
  rewrite P1, P2, P3, G1, S1. split; [lia|]. split; [reflexivity|]. exists out. split; [exact O1 | exact O2].
Qed.

(** ** Transfers through sound RAM *)

Lemma fold_halfwords {A} (f : A -> Z -> A) n a :
  fold_left f (map (Z.mul 2) (zseq (S n))) a = f (fold_left f (map (Z.mul 2) (zseq n)) a) (2 * Z.of_nat n).
Proof.
  unfold zseq. rewrite seq_S, !map_app, fold_left_app. reflexivity.
Qed.

Lemma advance_view x : 0 <= transfer_ptr (fst x) ->
  transfer_view (transfer_advance x) = (spu_ram (fst x), (transfer_ptr (fst x) + 2) mod SPU_RAM_SIZE, psx_ram (snd x)).
Proof.
  intros Hp. pose proof (irq9_steady (Z.land (transfer_ptr (fst x)) (not32 0xF)) x) as H.
  unfold transfer_advance. revert H. generalize (irq9_check (Z.land (transfer_ptr (fst x)) (not32 0xF)) x). intros y Hs.
  unfold steady in Hs. cbv zeta in Hs. injection Hs. intros. unfold transfer_view. cbn [fst snd upd_spu].
  change (SPU_RAM_SIZE - 1) with (Z.ones 19).
  change (transfer_ptr (upd transfer_ptr _ (fst y))) with (Z.land (transfer_ptr (fst y) + 2) (Z.ones 19)).
  rewrite Z.land_ones by lia. change (spu_ram (upd transfer_ptr _ (fst y))) with (spu_ram (fst y)).
  change (2 ^ 19) with SPU_RAM_SIZE. congruence.
Qed.

(** Distance from [p] to [a] going up around sound RAM. *)
Definition spu_offset (p a : Z) : Z := (a - p) mod SPU_RAM_SIZE.

Definition even_ptr (p : Z) : Prop := 0 <= p < SPU_RAM_SIZE /\ (2 | p).

Lemma even_ptr_next p n : even_ptr p -> even_ptr ((p + 2 * n) mod SPU_RAM_SIZE).
Proof.
  intros [Hp [k Hk] ]. unfold even_ptr, SPU_RAM_SIZE in *. split; [zify_div|].
  exists ((k + n) mod 262144). subst p. zify_div.
Qed.

Lemma even_ptr_last p : even_ptr p -> p < SPU_RAM_SIZE - 1.
Proof. intros [Hp [k Hk] ]. unfold SPU_RAM_SIZE in *. lia. Qed.

Lemma in_range src n x : 0 <= src -> src + 2 * Z.of_nat n + 2 <= SPU_PSX_RAM_SIZE -> even_ptr (transfer_ptr (fst x)) ->
  dma4_in_range src (2 * Z.of_nat n) x = true /\ u32 (src + 2 * Z.of_nat n) = src + 2 * Z.of_nat n /\
  u32 (src + 2 * Z.of_nat n + 1) = src + 2 * Z.of_nat n + 1.
Proof.
  intros Hs Hn Hp. unfold dma4_in_range, SPU_PSX_RAM_SIZE in *.
  rewrite !u32_small by (unfold is_u32; lia). pose proof (even_ptr_last _ Hp).
  rewrite !(proj2 (Z.ltb_lt _ _)) by lia. repeat split.
Qed.

(** [n] halfwords from main RAM into sound RAM. *)
Lemma dma4_write_run src x n : mem_ok (psx_ram (snd x)) -> 0 <= src -> src + 2 * Z.of_nat n <= SPU_PSX_RAM_SIZE ->
  2 * Z.of_nat n <= SPU_RAM_SIZE -> even_ptr (transfer_ptr (fst x)) ->
  let p := transfer_ptr (fst x) in
  let x' := fold_left (dma4_write_step src) (map (Z.mul 2) (zseq n)) x in
  transfer_ptr (fst x') = (p + 2 * Z.of_nat n) mod SPU_RAM_SIZE /\ psx_ram (snd x') = psx_ram (snd x) /\
  forall a, 0 <= a < SPU_RAM_SIZE -> rd8 (spu_ram (fst x')) a
    = if spu_offset p a <? 2 * Z.of_nat n then rd8 (psx_ram (snd x)) (src + spu_offset p a) else rd8 (spu_ram (fst x)) a.
Proof.
  intros Hm Hs Hb Hl Hp p. induction n as [|n IH]; [intros x'; subst x'; cbn [fold_left zseq map seq]|].
  { split; [rewrite Z.mod_small by (destruct Hp; lia); lia|]. split; [reflexivity|].
    intros a Ha. rewrite (proj2 (Z.ltb_ge _ _)); [reflexivity|]. apply Z.mod_pos_bound. reflexivity. }
  intros x'. subst x'. rewrite fold_halfwords.
  destruct IH as (IP & IR & IA); [lia..|]. set (x1 := fold_left (dma4_write_step src) (map (Z.mul 2) (zseq n)) x) in *. clearbody x1.
  pose proof (even_ptr_next p (Z.of_nat n) Hp) as Hp1. rewrite <- IP in Hp1.
  destruct (in_range src n x1 Hs ltac:(lia) Hp1) as (E1 & E2 & E3).
  unfold dma4_write_step. rewrite E1. cbv zeta. rewrite E2, E3. set (x2 := upd_spu _ x1).
  pose proof (advance_view x2 (proj1 (proj1 Hp1))) as Hv.
  pose proof (f_equal (fun '(_, _, r) => r) Hv) as V1. pose proof (f_equal (fun '(_, q, _) => q) Hv) as V2.
  pose proof (f_equal (fun '(m, _, _) => m) Hv) as V3. cbn beta iota delta [transfer_view] in V1, V2, V3.
  rewrite V1, V2, V3. change (transfer_ptr (fst x2)) with (transfer_ptr (fst x1)). change (psx_ram (snd x2)) with (psx_ram (snd x1)).
  rewrite IP. split; [rewrite Zplus_mod_idemp_l; f_equal; lia|]. split; [exact IR|]. clear Hv V1 V2 V3.
  intros a Ha. change (spu_ram (fst x2)) with (wr8 (wr8 (spu_ram (fst x1)) (transfer_ptr (fst x1)) (rd8 (psx_ram (snd x1)) (src + 2 * Z.of_nat n)))
    (transfer_ptr (fst x1) + 1) (rd8 (psx_ram (snd x1)) (src + 2 * Z.of_nat n + 1))).
  rewrite !rd8_wr8, IR, IP, IA by exact Ha. clearbody x2.
  rewrite !u8_small by (apply rd8_range, Hm).
  assert (H0 : spu_offset p a = 2 * Z.of_nat n <-> (p + 2 * Z.of_nat n) mod SPU_RAM_SIZE = a)
    by (destruct Hp; unfold spu_offset, SPU_RAM_SIZE in *; zify_div).
  assert (H1 : spu_offset p a = 2 * Z.of_nat n + 1 <-> (p + 2 * Z.of_nat n) mod SPU_RAM_SIZE + 1 = a)
    by (pose proof (even_ptr_last _ Hp1); rewrite IP in *; destruct Hp as [Hp [k Hk] ];
        unfold spu_offset, SPU_RAM_SIZE in *; clear - H Hp Hk Ha Hl; zify_div).
  destruct (Z.eqb_spec ((p + 2 * Z.of_nat n) mod SPU_RAM_SIZE + 1) a) as [Ea|Ea].
  { apply H1 in Ea. rewrite Ea. rewrite (proj2 (Z.ltb_lt _ _)) by lia. f_equal. lia. }
  destruct (Z.eqb_spec ((p + 2 * Z.of_nat n) mod SPU_RAM_SIZE) a) as [Eb|Eb].
  { apply H0 in Eb. rewrite Eb. rewrite (proj2 (Z.ltb_lt _ _)) by lia. reflexivity. }
  destruct (Z.ltb_spec (spu_offset p a) (2 * Z.of_nat n)), (Z.ltb_spec (spu_offset p a) (2 * Z.of_nat (S n))); try reflexivity; lia.
Qed.

(** [n] halfwords from sound RAM into main RAM. *)
Lemma dma4_read_run dst x n : mem_ok (spu_ram (fst x)) -> 0 <= dst -> dst + 2 * Z.of_nat n <= SPU_PSX_RAM_SIZE ->
  even_ptr (transfer_ptr (fst x)) ->
  let p := transfer_ptr (fst x) in
  let x' := fold_left (dma4_read_step dst) (map (Z.mul 2) (zseq n)) x in
  transfer_ptr (fst x') = (p + 2 * Z.of_nat n) mod SPU_RAM_SIZE /\ spu_ram (fst x') = spu_ram (fst x) /\
  forall a, rd8 (psx_ram (snd x')) a
    = if (dst <=? a) && (a <? dst + 2 * Z.of_nat n) then rd8 (spu_ram (fst x)) ((p + (a - dst)) mod SPU_RAM_SIZE)
      else rd8 (psx_ram (snd x)) a.
Proof.
  intros Hm Hs Hb Hp p. induction n as [|n IH]; [intros x'; subst x'; cbn [fold_left zseq map seq]|].
  { split; [rewrite Z.mod_small by (destruct Hp; lia); lia|]. split; [reflexivity|].
    intros a. destruct (Z.leb_spec dst a), (Z.ltb_spec a (dst + 2 * Z.of_nat 0)); cbn [andb]; try reflexivity. lia. }
  intros x'. subst x'. rewrite fold_halfwords.
  destruct IH as (IP & IR & IA); [lia..|]. set (x1 := fold_left (dma4_read_step dst) (map (Z.mul 2) (zseq n)) x) in *. clearbody x1.
  pose proof (even_ptr_next p (Z.of_nat n) Hp) as Hp1. rewrite <- IP in Hp1.
  destruct (in_range dst n x1 Hs ltac:(lia) Hp1) as (E1 & E2 & E3).
  unfold dma4_read_step. rewrite E1. cbv zeta. rewrite E2, E3. set (x2 := (fst x1, _)).
  pose proof (advance_view x2 (proj1 (proj1 Hp1))) as Hv.
  pose proof (f_equal (fun '(_, _, r) => r) Hv) as V1. pose proof (f_equal (fun '(_, q, _) => q) Hv) as V2.
  pose proof (f_equal (fun '(m, _, _) => m) Hv) as V3. cbn beta iota delta [transfer_view] in V1, V2, V3.
  rewrite V1, V2, V3. change (transfer_ptr (fst x2)) with (transfer_ptr (fst x1)). change (spu_ram (fst x2)) with (spu_ram (fst x1)).
  rewrite IP. split; [rewrite Zplus_mod_idemp_l; f_equal; lia|]. split; [exact IR|]. clear Hv V1 V2 V3.
  intros a. change (psx_ram (snd x2)) with (wr8 (wr8 (psx_ram (snd x1)) (dst + 2 * Z.of_nat n) (rd8 (spu_ram (fst x1)) (transfer_ptr (fst x1))))
    (dst + 2 * Z.of_nat n + 1) (rd8 (spu_ram (fst x1)) (transfer_ptr (fst x1) + 1))).
  rewrite !rd8_wr8, IR, IP, IA. clearbody x2. rewrite !u8_small by (apply rd8_range, Hm).
  assert (Hnext : (p + 2 * Z.of_nat n) mod SPU_RAM_SIZE + 1 = (p + (2 * Z.of_nat n + 1)) mod SPU_RAM_SIZE)
    by (pose proof (even_ptr_last _ Hp1); rewrite IP in *; destruct Hp as [Hp [k Hk] ];
        unfold SPU_RAM_SIZE in *; clear - H Hp Hk; zify_div).
  destruct (Z.eqb_spec (dst + 2 * Z.of_nat n + 1) a) as [<- | ].
  { destruct (Z.leb_spec dst (dst + 2 * Z.of_nat n + 1)), (Z.ltb_spec (dst + 2 * Z.of_nat n + 1) (dst + 2 * Z.of_nat (S n))); cbn [andb]; try lia.
    rewrite Hnext. f_equal. f_equal. lia. }
  destruct (Z.eqb_spec (dst + 2 * Z.of_nat n) a) as [<- | ].
  { destruct (Z.leb_spec dst (dst + 2 * Z.of_nat n)), (Z.ltb_spec (dst + 2 * Z.of_nat n) (dst + 2 * Z.of_nat (S n))); cbn [andb]; try lia.
    f_equal. f_equal. lia. }
  destruct (Z.leb_spec dst a), (Z.ltb_spec a (dst + 2 * Z.of_nat n)), (Z.ltb_spec a (dst + 2 * Z.of_nat (S n))); cbn [andb]; try reflexivity; lia.
Qed.

Lemma dma4_bytes_even bcr : 0 <= dma4_bytes bcr /\ dma4_bytes bcr = 2 * Z.of_nat (Z.to_nat (dma4_bytes bcr / 2)).
Proof.
  unfold dma4_bytes. cbv zeta. generalize (u32 ((if Z.land bcr 65535 =? 0 then 1 else Z.land bcr 65535) *
    (if Z.land (Z.shiftr bcr 16) 65535 =? 0 then 1 else Z.land (Z.shiftr bcr 16) 65535))).
  intros w. unfold u32. zify_div.
Qed.

(** Setting the transfer address register. *)
Lemma set_transfer_addr value x : is_u16 value -> spu_ok (fst x) ->
  let x' := SPU_WriteReg 0xD3 value x in
  spu_ok (fst x') /\ transfer_view x' = (spu_ram (fst x), value * 8, psx_ram (snd x)) /\ even_ptr (value * 8).
Proof.
  intros Hv Hx x'. split; [apply write_reg_ok; assumption|]. unfold is_u16 in Hv.
  split; [|unfold even_ptr, SPU_RAM_SIZE; split; [lia | exists (value * 4); lia] ].
  unfold transfer_view. change (transfer_ptr (fst x')) with (Z.shiftl value 3). rewrite Z.shiftl_mul_pow2 by lia. reflexivity.
Qed.

(** A whole DMA, seen through the view. *)
Lemma dma4_unfold madr bcr chcr x x1 : x1 = SPU_CatchUp x -> Z.land madr 0x1FFFFC = madr ->
  SPU_DMA4 madr bcr chcr x
  = fold_left ((if tst chcr 1 then dma4_write_step else dma4_read_step) madr)
      (map (Z.mul 2) (zseq (Z.to_nat (dma4_bytes bcr / 2)))) x1.
Proof. intros -> Hm. unfold SPU_DMA4. cbv zeta. rewrite Hm. reflexivity. Qed.

Lemma land_word_nonneg x : Z.land x 0x1FFFFC = x -> 0 <= x.
Proof. intros <-. apply Z.land_nonneg. lia. Qed.

(** Uploading to, and downloading from, the sound address of a register
    value. *)
Lemma dma4_upload x src bcr value : spu_ok (fst x) -> mem_ok (psx_ram (snd x)) -> is_u16 value ->
  let len := dma4_bytes bcr in
  len <= SPU_RAM_SIZE -> Z.land src 0x1FFFFC = src -> src + len <= SPU_PSX_RAM_SIZE ->
  let x' := SPU_DMA4 src bcr 1 (SPU_WriteReg 0xD3 value x) in
  spu_ok (fst x') /\ psx_ram (snd x') = psx_ram (snd x) /\
  forall k, 0 <= k < len -> rd8 (spu_ram (fst x')) ((value * 8 + k) mod SPU_RAM_SIZE) = rd8 (psx_ram (snd x)) (src + k).
Proof.
  intros Hx Hm Hv len Hl Hsrc Hs x'. destruct (dma4_bytes_even bcr) as [_ En]. pose proof (land_word_nonneg _ Hsrc) as Hs0.
  destruct (set_transfer_addr value x Hv Hx) as (H1 & V1 & Hp).
  subst x'. revert H1 V1. generalize (SPU_WriteReg 0xD3 value x). intros x1 H1 V1.
  pose proof (catch_up_view x1 H1) as C1. rewrite V1 in C1. split; [apply dma4_ok, H1|].
  rewrite (dma4_unfold src bcr 1 x1 _ eq_refl Hsrc). change (tst 1 1) with true. cbv iota.
  revert C1. generalize (SPU_CatchUp x1). intros c1 C1.
  pose proof (f_equal (fun '(_, _, r) => r) C1) as R1. pose proof (f_equal (fun '(_, q, _) => q) C1) as P1.
  cbn beta iota delta [transfer_view] in R1, P1. subst len. set (n := Z.to_nat (dma4_bytes bcr / 2)) in *. rewrite En in Hs, Hl |- *.
  destruct (dma4_write_run src c1 n) as (_ & R2 & A2);
    [rewrite R1; exact Hm | lia | lia | lia | rewrite P1; exact Hp |].
  split; [rewrite R2; exact R1|]. intros k Hk. rewrite A2 by (apply Z.mod_pos_bound; reflexivity). rewrite P1, R1.
  assert (Eo : spu_offset (value * 8) ((value * 8 + k) mod SPU_RAM_SIZE) = k)
    by (unfold spu_offset; rewrite Zminus_mod_idemp_l; replace (value * 8 + k - value * 8) with k by lia; apply Z.mod_small; lia).
  rewrite Eo, (proj2 (Z.ltb_lt _ _)) by lia. reflexivity.
Qed.

Lemma dma4_download x dst bcr value : spu_ok (fst x) -> is_u16 value ->
  let len := dma4_bytes bcr in
  Z.land dst 0x1FFFFC = dst -> dst + len <= SPU_PSX_RAM_SIZE ->
  forall a, rd8 (psx_ram (snd (SPU_DMA4 dst bcr 0 (SPU_WriteReg 0xD3 value x)))) a
    = if (dst <=? a) && (a <? dst + len) then rd8 (spu_ram (fst x)) ((value * 8 + (a - dst)) mod SPU_RAM_SIZE)
      else rd8 (psx_ram (snd x)) a.
Proof.
  intros Hx Hv len Hdst Hd a. destruct (dma4_bytes_even bcr) as [_ En]. pose proof (land_word_nonneg _ Hdst) as Hd0.
  destruct (set_transfer_addr value x Hv Hx) as (H3 & V3 & Hp).
  revert H3 V3. generalize (SPU_WriteReg 0xD3 value x). intros x3 H3 V3.
  pose proof (catch_up_view x3 H3) as C3. rewrite V3 in C3. pose proof (catch_up_ok x3 H3) as K3.
  rewrite (dma4_unfold dst bcr 0 x3 _ eq_refl Hdst). change (tst 0 1) with false. cbv iota.
  revert C3 K3. generalize (SPU_CatchUp x3). intros c3 C3 K3.
  pose proof (f_equal (fun '(_, _, r) => r) C3) as R3. pose proof (f_equal (fun '(_, q, _) => q) C3) as P3.
  pose proof (f_equal (fun '(m, _, _) => m) C3) as M3. cbn beta iota delta [transfer_view] in R3, P3, M3.
  subst len. set (n := Z.to_nat (dma4_bytes bcr / 2)) in *. rewrite En in Hd |- *.
  destruct (dma4_read_run dst c3 n) as (_ & _ & A4);
    [apply so_ram, K3 | lia | lia | rewrite P3; exact Hp |].
  rewrite A4, P3, M3, R3. reflexivity.
Qed.

(** Sound RAM keeps what DMA puts there.  Uploading a region of main
    RAM to a sound address by channel 4, whatever is playing, and downloading
    it again from the same address to any place in main RAM, copies exactly
    those bytes and changes no other byte of main RAM, also when the transfer
    wraps around the end of sound RAM. *)
Theorem dma4_roundtrip x src dst bcr value :
  spu_ok (fst x) -> mem_ok (psx_ram (snd x)) -> is_u16 value ->
  let len := dma4_bytes bcr in
  len <= SPU_RAM_SIZE -> Z.land src 0x1FFFFC = src -> Z.land dst 0x1FFFFC = dst ->
  src + len <= SPU_PSX_RAM_SIZE -> dst + len <= SPU_PSX_RAM_SIZE ->
  let x2 := SPU_DMA4 src bcr 1 (SPU_WriteReg 0xD3 value x) in
  let x4 := SPU_DMA4 dst bcr 0 (SPU_WriteReg 0xD3 value x2) in
  forall a, rd8 (psx_ram (snd x4)) a
    = if (dst <=? a) && (a <? dst + len) then rd8 (psx_ram (snd x)) (src + (a - dst)) else rd8 (psx_ram (snd x)) a.
Proof.
  intros Hx Hm Hv len Hl Hsrc Hdst Hs Hd x2 x4 a.
  destruct (dma4_upload x src bcr value Hx Hm Hv Hl Hsrc Hs) as (H2 & R2 & A2). fold x2 in H2, R2, A2.
  subst x4. rewrite (dma4_download x2 dst bcr value H2 Hv Hdst Hd a), R2. fold len.
  destruct (Z.leb_spec dst a), (Z.ltb_spec a (dst + len)); cbn [andb]; try reflexivity. apply A2. lia.
Qed.

(** ** Where the code differs from its comments *)

(** A one-shot sample loses its end.  Fetching a block whose flags say
    end without repeat deactivates the voice at once and stops the mixing
    loop: ENDX is set, and not one of the 28 samples just decoded is mixed,
    although the comment stops the voice after the last sample of the
    block. *)
Theorem one_shot_block_dropped i offset num vl vr fuel t :
  let addr := current_addr (mv t) in
  let flags := rd8 (spu_ram (fst (m_env t))) (Z.land addr (SPU_RAM_SIZE - 1) + 1) in
  block_decoded (mv t) = false -> active (mv t) = true -> ms t < num -> 0 <= i ->
  tst flags 1 = true -> tst flags 2 = false ->
  exists t', mix_loop (S fuel) i offset num vl vr t = Some t' /\ ms t' = ms t /\ active (mv t') = false /\
    Z.testbit (endx (fst (m_env t'))) i = true /\
    mix_buf_l (fst (m_env t')) = mix_buf_l (fst (m_env t)) /\ mix_buf_r (fst (m_env t')) = mix_buf_r (fst (m_env t)).
Proof.
  intros addr flags Hd Ha Hn Hi H1 H2. cbn [mix_loop]. rewrite (proj2 (Z.ltb_lt _ _) Hn), Ha. cbn [andb].
  unfold mix_round, mix_fetch. rewrite Hd. cbv zeta. fold addr. unfold decode_adpcm_block. cbv zeta.
  set (x := irq9_check addr (m_env t)).
  assert (Ex : spu_ram (fst x) = spu_ram (fst (m_env t)) /\ mix_buf_l (fst x) = mix_buf_l (fst (m_env t)) /\
               mix_buf_r (fst x) = mix_buf_r (fst (m_env t)))
    by (subst x; unfold irq9_check; destruct (_ && _); repeat split).
  destruct Ex as (Em & El & Er). clearbody x. rewrite Em. fold flags.
  destruct (adpcm_samples _ _ _ _) as [out [s1 s2] ]. unfold adpcm_flags. cbv zeta. rewrite H1, H2.
  eexists. split; [reflexivity|]. split; [reflexivity|]. split; [reflexivity|].
  split; [|split; [exact El | exact Er] ].
  change (Z.testbit (Z.lor (endx (fst x)) (Z.shiftl 1 i)) i = true).
  rewrite Z.lor_spec, Z.shiftl_spec, Z.sub_diag by lia. apply orb_true_r.
Qed.

(** The loudest sustain level overflows the level register.  With the
    sustain field at its maximum the first step of the decay phase sets the
    envelope to 8000h, one above its documented range, and the register that
    mirrors it reads 0: a program polling it takes the voice for dead. *)
Theorem sustain_level_wraps v : voice_ok v -> active v = true -> adsr_phase v = ADSR_DECAY ->
  Z.land (adsr_lo v) 0x0F = 15 -> 0x8000 <= adsr_counter v + adsr_rate v ->
  adsr_vol (adsr_tick v) = 0x8000 /\ adsr_level (adsr_tick v) = 0 /\ adsr_phase (adsr_tick v) = ADSR_SUSTAIN.
Proof.
  intros Hv Ha Hp Hl Hc. destruct (vo_params _ Hv Ha) as [Hc1 _]. pose proof (cached_range _ Hc1) as Hr.
  pose proof (next_vol_range v Hr (vo_vol _ Hv)) as (Hw & Hdec & _).
  specialize (Hdec (pr_down _ Hr (or_introl Hp))). pose proof (vo_vol _ Hv) as Hvol.
  assert (Hsl : adsr_sl v = 0x8000) by (rewrite (proj2 Hc1), Hl; reflexivity).
  unfold adsr_tick. cbv zeta. change (adsr_counter (v <| adsr_counter ::= _ |>)) with (adsr_counter v + adsr_rate v).
  rewrite (proj2 (Z.ltb_ge _ _)) by lia.
  set (v2 := (v <| adsr_counter ::= _ |>) <| adsr_counter ::= _ |>).
  assert (Et : adsr_transition (adsr_next_vol v2) v2
    = (adsr_sl v, adsr_reload_params (v2 <| adsr_phase := ADSR_SUSTAIN |> <| adsr_counter := 0 |>))).
  { unfold adsr_transition. change (adsr_phase v2) with (adsr_phase v). rewrite Hp.
    change (adsr_next_vol v2) with (adsr_next_vol v). change (adsr_sl v2) with (adsr_sl v). rewrite Hsl.
    rewrite (proj2 (Z.leb_le _ _)); [reflexivity | destruct (_ <? 0); lia]. }
  rewrite Et, Hsl. split; [reflexivity|]. split; [reflexivity|].
  change (adsr_phase (adsr_reload_params (v2 <| adsr_phase := ADSR_SUSTAIN |> <| adsr_counter := 0 |>)) = ADSR_SUSTAIN).
  voice_reload. reflexivity.
Qed.

(** ** Witnesses *)

(** A processor playing voice 0 at half speed from sound address 0. *)
Definition spu_demo : SpuSys :=
  upd_spu (process_key_on 1)
    (SPU_WriteReg 2 0x800 (SPU_WriteReg 0 0x3FFF (upd_spu (SPU_Init 0 0) (spu_static, sys0)))).

Lemma spu_demo_ok : spu_ok (fst spu_demo).
Proof.
  unfold spu_demo. cbn [fst upd_spu].
  apply (scan_bits_inv spu_ok); [intros; apply key_on_ok; assumption|].
  apply write_reg_ok; [split; [discriminate | reflexivity]|].
  apply write_reg_ok; [split; [discriminate | reflexivity]|]. apply init_ok, static_ok.
Qed.

Lemma mixer_batches_exact_witness :
  active (get_voice 0 (fst spu_demo)) = true /\ mix_voice 0 100 0 spu_demo = ref_voice 0 100 0 spu_demo.
Proof.
  split; [reflexivity|]. apply mixer_batches_exact; [apply spu_demo_ok | lia|].
  split; [|split]; vm_compute; discriminate.
Defined.

(** The clock 10000 cycles into the frame. *)
Definition spu_late : SpuSys := (fst spu_demo, sys0 <| global_cycles := 10000 |>).

Lemma catch_up_exact_witness : spu_samples_generated (fst (SPU_CatchUp spu_late)) = 13.
Proof.
  exact (proj1 (catch_up_exact spu_late spu_demo_ok eq_refl eq_refl (conj (Z.le_refl 0) eq_refl) eq_refl)).
Defined.

Lemma dma4_roundtrip_witness :
  let y := sys0 <| psx_ram := wr8 (wr8 ∅ 0x1000 0xAB) 0x1003 0xCD |> in
  let x2 := SPU_DMA4 0x1000 0x10001 1 (SPU_WriteReg 0xD3 0xFFFF (fst spu_demo, y)) in
  rd8 (psx_ram (snd (SPU_DMA4 0x2000 0x10001 0 (SPU_WriteReg 0xD3 0xFFFF x2)))) 0x2003 = 0xCD.
Proof.
  intros y x2. subst x2.
  rewrite (dma4_roundtrip (fst spu_demo, y) 0x1000 0x2000 0x10001 0xFFFF); try reflexivity; try (vm_compute; discriminate).
  - exact spu_demo_ok.
  - subst y. cbn. apply mem_ok_wr8, mem_ok_wr8, map_Forall_empty.
  - split; [discriminate | reflexivity].
Defined.

(** Sound RAM holding one block that ends without repeat. *)
Definition one_shot_mix : Mix :=
  mkMix (key_on_reset voice0) 0 0 0 0 (spu_static <| spu_ram := wr8 ∅ 1 1 |>, sys0).

Lemma one_shot_block_dropped_witness :
  exists t', mix_loop 5 0 0 10 100 100 one_shot_mix = Some t' /\ ms t' = 0 /\ active (mv t') = false.
Proof.
  destruct (one_shot_block_dropped 0 0 10 100 100 4 one_shot_mix) as (t' & H1 & H2 & H3 & _); try reflexivity; try lia.
  exists t'. split; [exact H1 | split; [exact H2 | exact H3] ].
Defined.

(** A voice about to leave the decay phase. *)
Definition decaying : SPU_Voice :=
  adsr_reload_params (voice0 <| active := true |> <| adsr_lo := 0x00FF |> <| adsr_vol := 0x7FFF |>
    <| adsr_phase := ADSR_DECAY |> <| adsr_counter := 0x7FFF |>).

Lemma sustain_level_wraps_witness : adsr_vol (adsr_tick decaying) = 0x8000 /\ adsr_level (adsr_tick decaying) = 0.
Proof.
  destruct (sustain_level_wraps decaying) as (H1 & H2 & _); [|reflexivity|reflexivity|reflexivity| |split; assumption].
  - apply reload_ok; [|intros _; discriminate]. pose proof voice0_ok as [ ]. split; try assumption; try discriminate; cbn; lia.
  - vm_compute. discriminate.
Defined.
