(* ===== verification/Mdec.v ===== *)
(** * The motion decoder ([src/mdec.c])

    Run-length decoding, dequantisation, the two inverse transforms, colour
    conversion, the register FIFO with its command states, and DMA channels 0
    and 1.  The software path is modelled, as built without
    [ENABLE_MDEC_IPU].  [int] arithmetic wraps at 32 bits. *)

From S2P Require Import Prelude Scheduler System.

Definition DSIZE : Z := 8.
Definition DSIZE2 : Z := 64.
Definition MDEC_END_OF_DATA : Z := 0xFE00.
Definition MDEC0_STP : Z := 0x02000000.
Definition MDEC1_BUSY : Z := 0x20000000.
Definition MDEC1_STP : Z := 0x00800000.
Definition MDEC1_RESET : Z := 0x80000000.
Definition SIZE_OF_4B_BLOCK : Z := 32.
Definition SIZE_OF_8B_BLOCK : Z := 64.
Definition SIZE_OF_16B_BLOCK : Z := 512.
Definition SIZE_OF_24B_BLOCK : Z := 768.
Definition MDEC_IN_BUF_SIZE : Z := 8192.
Definition MDEC_FIFO_THRESHOLD : Z := 64.
Definition MDEC_RAM_SIZE : Z := 0x200000.

(** ** Arithmetic *)

Definition add32 (a b : Z) : Z := s32 (a + b).
Definition sub32 (a b : Z) : Z := s32 (a - b).
Definition mul32 (a b : Z) : Z := s32 (a * b).
Definition SCALER (x n : Z) : Z := Z.shiftr (add32 x (Z.shiftr (Z.shiftl 1 n) 1)) n.
Definition MULS (var c : Z) : Z := Z.shiftr (mul32 var c) 12.

Definition FIX_1_082392200 : Z := SCALER 18159528 12.
Definition FIX_1_414213562 : Z := SCALER 23726566 12.
Definition FIX_1_847759065 : Z := SCALER 31000253 12.
Definition FIX_2_613125930 : Z := SCALER 43840978 12.

Definition RLE_RUN (hw : Z) : Z := Z.shiftr hw 10.
Definition RLE_VAL (hw : Z) : Z := Z.shiftr (s32 (Z.shiftl hw 22)) 22.

Definition zscan : list Z :=
  [0; 1; 8; 16; 9; 2; 3; 10; 17; 24; 32; 25; 18; 11; 4; 5;
   12; 19; 26; 33; 40; 48; 41; 34; 27; 20; 13; 6; 7; 14; 21; 28;
   35; 42; 49; 56; 57; 50; 43; 36; 29; 22; 15; 23; 30; 37; 44; 51;
   58; 59; 52; 45; 38; 31; 39; 46; 53; 60; 61; 54; 47; 55; 62; 63].

Definition aanscales : list Z :=
  [1048576; 1454417; 1370031; 1232995; 1048576; 823861; 567485; 289301;
   1454417; 2017334; 1900287; 1710213; 1454417; 1142728; 787125; 401273;
   1370031; 1900287; 1790031; 1610986; 1370031; 1076426; 741455; 377991;
   1232995; 1710213; 1610986; 1449849; 1232995; 968758; 667292; 340183;
   1048576; 1454417; 1370031; 1232995; 1048576; 823861; 567485; 289301;
   823861; 1142728; 1076426; 968758; 823861; 647303; 445870; 227303;
   567485; 787125; 741455; 667292; 567485; 445870; 307121; 156569;
   289301; 401273; 377991; 340183; 289301; 227303; 156569; 79818].

(** ** Transforms *)

(** The straight-line code of both passes, on a column or a row. *)
Definition idct8 (p : list Z) : list Z :=
  let a i := aget p i in
  let z10 := add32 (a 0) (a 4) in
  let z11 := sub32 (a 0) (a 4) in
  let z13 := add32 (a 2) (a 6) in
  let z12 := sub32 (MULS (sub32 (a 2) (a 6)) FIX_1_414213562) z13 in
  let tmp0 := add32 z10 z13 in
  let tmp3 := sub32 z10 z13 in
  let tmp1 := add32 z11 z12 in
  let tmp2 := sub32 z11 z12 in
  let z13 := add32 (a 3) (a 5) in
  let z10 := sub32 (a 3) (a 5) in
  let z11 := add32 (a 1) (a 7) in
  let z12 := sub32 (a 1) (a 7) in
  let tmp7 := add32 z11 z13 in
  let z5 := mul32 (sub32 z12 z10) FIX_1_847759065 in
  let tmp6 := sub32 (Z.shiftr (add32 (mul32 z10 FIX_2_613125930) z5) 12) tmp7 in
  let tmp5 := sub32 (MULS (sub32 z11 z13) FIX_1_414213562) tmp6 in
  let tmp4 := add32 (Z.shiftr (sub32 (mul32 z12 FIX_1_082392200) z5) 12) tmp5 in
  [add32 tmp0 tmp7; add32 tmp1 tmp6; add32 tmp2 tmp5; sub32 tmp3 tmp4;
   add32 tmp3 tmp4; sub32 tmp2 tmp5; sub32 tmp1 tmp6; sub32 tmp0 tmp7].

(** Eight entries of a block from [base] with a stride. *)
Definition strided (base stride : Z) (blk : list Z) : list Z :=
  map (fun j => aget blk (base + stride * j)) (zseq 8).
Definition set_strided (base stride : Z) (vs : list Z) (blk : list Z) : list Z :=
  fold_left (fun b j => aset b (base + stride * j) (aget vs j)) (zseq 8) blk.

(** The column pass over one column; [used_col] gains the columns that only
    had their first entry. *)
Definition idct_column (st : list Z * Z) (i : Z) : list Z * Z :=
  let '(blk, used_col) := st in
  if tst used_col (Z.shiftl 1 i) then (set_strided i DSIZE (idct8 (strided i DSIZE blk)) blk, used_col)
  else if negb (aget blk i =? 0)
  then (set_strided i DSIZE (repeat (aget blk i) 8) blk, Z.lor used_col (Z.shiftl 1 i))
  else (blk, used_col).

Definition idct_row_fill (blk : list Z) (i : Z) : list Z :=
  set_strided (8 * i) 1 (repeat (aget blk (8 * i)) 8) blk.
Definition idct_row (blk : list Z) (i : Z) : list Z :=
  set_strided (8 * i) 1 (idct8 (strided (8 * i) 1 blk)) blk.

Definition idct (blk : list Z) (used_col : Z) : list Z :=
  if used_col =? -1 then repeat (aget blk 0) 64
  else
    let '(blk, used_col) := fold_left idct_column (zseq 8) (blk, used_col) in
    if used_col =? 1 then fold_left idct_row_fill (zseq 8) blk
    else fold_left idct_row (zseq 8) blk.

(** Entry [x + y * 8] of one pass of the matrix transform: [row] and [col]
    read the operands for summand [z]. *)
Definition matrix_sum (operand coeff : Z -> Z) : Z :=
  Z.shiftr (add32 (fold_left (fun sum z => add32 sum (mul32 (operand z) (Z.shiftr (coeff z) 3))) (zseq 8) 0) 0xFFF) 13.

Definition real_idct_core (scale_table blk : list Z) : list Z :=
  let tmp := map (fun n => let x := n mod 8 in let y := n / 8 in
    matrix_sum (fun z => aget blk (x + z * 8)) (fun z => aget scale_table (y + z * 8))) (zseq 64) in
  map (fun n => let x := n mod 8 in let y := n / 8 in
    matrix_sum (fun z => aget tmp (z + y * 8)) (fun z => aget scale_table (x + z * 8))) (zseq 64).

(** ** State *)

(** Where the run-length pointers point: nowhere, into the input buffer of
    register writes, or into main RAM. *)
Inductive RlSource := RL_NULL | RL_IN_BUF | RL_RAM.

Inductive MdecState := MDEC_STATE_IDLE | MDEC_STATE_RECV_QUANT | MDEC_STATE_RECV_SCALE | MDEC_STATE_RECV_DATA.
#[export] Instance MdecState_eq_dec : EqDecision MdecState.
Proof. solve_decision. Defined.

(** [rl] and [rl_end] count halfwords from the start of their array;
    [block_buffer_pos] counts bytes into the block buffer, 0 for [NULL].
    [mdec_overrun] is not a variable of the program: it records that the
    decoder ran off the end of the array it reads. *)
Record Mdec := mkMdec {
  reg0 : Z; reg1 : Z; rl_src : RlSource; rl : Z; rl_end : Z;
  block_buffer_pos : Z; block_buffer : list Z;
  pending_adr : Z; pending_bcr : Z; pending_chcr : Z;
  out_pos : Z; out_end : Z; remaining_words : Z;
  fifo_state : MdecState; fifo_remaining : Z;
  qt_buffer : list Z; qt_pos : Z; qt_has_uv : bool;
  scale_staging : list Z; scale_pos : Z;
  iq_y : list Z; iq_uv : list Z; aan_only : list Z; scale_table : list Z;
  mdec_in_buf : gmap Z Z; mdec_in_write_idx : Z; mdec_overrun : bool
}.
#[export] Instance eta_Mdec : Eta Mdec := fun m =>
  mkMdec (reg0 m) (reg1 m) (rl_src m) (rl m) (rl_end m) (block_buffer_pos m) (block_buffer m)
    (pending_adr m) (pending_bcr m) (pending_chcr m) (out_pos m) (out_end m) (remaining_words m)
    (fifo_state m) (fifo_remaining m) (qt_buffer m) (qt_pos m) (qt_has_uv m)
    (scale_staging m) (scale_pos m) (iq_y m) (iq_uv m) (aan_only m) (scale_table m)
    (mdec_in_buf m) (mdec_in_write_idx m) (mdec_overrun m).

Definition MdecSys : Type := Mdec * Sys.

(** The halfword at a run-length position, and the length of its array. *)
Definition rl_read (x : MdecSys) (p : Z) : Z :=
  match rl_src (fst x) with
  | RL_NULL => 0
  | RL_IN_BUF => default 0 (mdec_in_buf (fst x) !! p)
  | RL_RAM => rd16 (psx_ram (snd x)) (2 * p)
  end.
Definition rl_limit (x : MdecSys) : Z :=
  match rl_src (fst x) with RL_NULL => 0 | RL_IN_BUF => MDEC_IN_BUF_SIZE | RL_RAM => MDEC_RAM_SIZE / 2 end.

Definition iqtab_init (qt : Z -> Z) : list Z :=
  map (fun i => mul32 (qt i) (SCALER (aget aanscales (aget zscan i)) 4)) (zseq 64).
Definition aan_only_init : list Z := map (fun i => SCALER (aget aanscales i) 4) (zseq 64).

(** ** Run-length decoding *)

Section Rle.
Variable rd : Z -> Z.

(** [while ( *rl == MDEC_END_OF_DATA) rl++]; [None] when the padding runs to
    the end of the array. *)
Fixpoint skip_padding (fuel : nat) (p : Z) : option Z :=
  match fuel with
  | O => None
  | S fuel => if rd p =? MDEC_END_OF_DATA then skip_padding fuel (p + 1) else Some p
  end.

(** [while (k < 63)]: every round advances [k], so 63 rounds are enough. *)
Fixpoint ac_loop {A : Type} (fuel : nat) (store : Z -> Z -> A -> A) (p k : Z) (acc : A) : Z * Z * A :=
  match fuel with
  | O => (p, k, acc)
  | S fuel =>
    if k <? 63 then
      let hw := rd p in
      let k := k + (RLE_RUN hw + 1) in
      ac_loop fuel store (p + 1) k (if k <? DSIZE2 then store k hw acc else acc)
    else (p, k, acc)
  end.

Definition clamp_special (val : Z) : Z :=
  if val <? -0x400 then -0x400 else if 0x3FF <? val then 0x3FF else val.

(** A block with [q_scale = 0]: linear order, no quantisation. *)
Definition store_special (k hw : Z) (blk : list Z) : list Z := aset blk k (clamp_special (RLE_VAL hw * 2)).

Definition special_block (scale_table : list Z) (hw p : Z) : list Z * Z :=
  let blk := aset (repeat 0 64) 0 (clamp_special (RLE_VAL hw * 2)) in
  let '(p, _, blk) := ac_loop 63 store_special p 0 blk in
  (map (fun v => s32 (Z.shiftl v 10)) (real_idct_core scale_table blk), p).

(** A block in zigzag order, dequantised; the columns used below the first
    row. *)
Definition store_quant (iqtab : list Z) (q_scale k hw : Z) (acc : list Z * Z) : list Z * Z :=
  let '(blk, used_col) := acc in
  let z := aget zscan k in
  (aset blk z (SCALER (mul32 (mul32 (RLE_VAL hw) (aget iqtab k)) q_scale) 12),
   Z.lor used_col (if 7 <? z then Z.shiftl 1 (Z.land z 7) else 0)).

Definition quant_block (iqtab : list Z) (hw p : Z) : list Z * Z :=
  let q_scale := RLE_RUN hw in
  let blk := aset (repeat 0 64) 0 (SCALER (mul32 (RLE_VAL hw) (aget iqtab 0)) 9) in
  let '(p, k, (blk, used_col)) := ac_loop 63 (store_quant iqtab q_scale) p 0 (blk, 0) in
  (idct blk (if k =? 0 then -1 else used_col), p).

Definition decode_block (scale_table iqtab : list Z) (hw p : Z) : list Z * Z :=
  if RLE_RUN hw =? 0 then special_block scale_table hw p else quant_block iqtab hw p.

(** [None] when the padding or the block runs past the array. *)
Definition rl_block (scale_table iqtab : list Z) (limit p : Z) : option (list Z * Z) :=
  match skip_padding (Z.to_nat (limit - p)) p with
  | None => None
  | Some p =>
    let '(blk, p') := decode_block scale_table iqtab (rd p) (p + 1) in
    if limit <? p' then None else Some (blk, p')
  end.

(** Cr, Cb, Y1 to Y4 in one array of six blocks. *)
Fixpoint rl_blocks (scale_table : list Z) (iqtabs : list (list Z)) (limit p : Z) : option (list Z * Z) :=
  match iqtabs with
  | [] => Some ([], p)
  | iq :: iqtabs =>
    match rl_block scale_table iq limit p with
    | None => None
    | Some (blk, p) =>
      match rl_blocks scale_table iqtabs limit p with
      | None => None
      | Some (rest, p) => Some (blk ++ rest, p)
      end
    end
  end.
End Rle.

Definition rl2blk (x : MdecSys) : option (list Z * Z) :=
  let m := fst x in
  rl_blocks (rl_read x) (scale_table m) [iq_uv m; iq_uv m; iq_y m; iq_y m; iq_y m; iq_y m] (rl_limit x) (rl m).

Definition rl2blk_mono (x : MdecSys) : option (list Z * Z) :=
  let m := fst x in rl_block (rl_read x) (scale_table m) (iq_y m) (rl_limit x) (rl m).

(** ** Output *)

Definition clamp_to (lo hi v : Z) : Z := if v <? lo then lo else if hi <? v then hi else v.

Definition mono_value (signed_out : bool) (c : Z) : Z :=
  let v := SCALER c 10 in clamp_to 0 255 (if signed_out then v else v + 128).

Definition y_to_mono8 (blk : list Z) (signed_out : bool) : list Z :=
  map (fun i => mono_value signed_out (aget blk i)) (zseq 64).

Definition y_to_mono4 (blk : list Z) (signed_out : bool) : list Z :=
  map (fun i =>
    let v0 := mono_value signed_out (aget blk (2 * i)) in
    let v1 := mono_value signed_out (aget blk (2 * i + 1)) in
    Z.lor (Z.land (Z.shiftr v0 4) 0x0F) (Z.land v1 0xF0)) (zseq 32).

Definition MULR (a : Z) : Z := mul32 1434 a.
Definition MULB (a : Z) : Z := mul32 1807 a.
Definition MULG2 (a b : Z) : Z := sub32 (mul32 (-351) a) (mul32 728 b).
Definition MULY (a : Z) : Z := s32 (Z.shiftl a 10).
Definition clamp5 (v : Z) : Z := clamp_to 0 31 (v + 16).
Definition clamp8 (v : Z) : Z := clamp_to 0 255 (v + 128).
Definition CLAMP_SCALE5 (a : Z) : Z := clamp5 (SCALER a 23).
Definition CLAMP_SCALE8 (a : Z) : Z := clamp8 (SCALER a 20).

(** One pixel from its luma entry and the colour terms of its quad. *)
Definition pixel15 (stp y r g b : Z) : Z :=
  let Y := MULY y in
  Z.lor (Z.lor (Z.lor stp (Z.shiftl (CLAMP_SCALE5 (add32 Y b)) 10)) (Z.shiftl (CLAMP_SCALE5 (add32 Y g)) 5))
        (CLAMP_SCALE5 (add32 Y r)).
Definition pixel24 (y r g b : Z) : list Z :=
  let Y := MULY y in [CLAMP_SCALE8 (add32 Y r); CLAMP_SCALE8 (add32 Y g); CLAMP_SCALE8 (add32 Y b)].

(** The pointers of the conversion loops, as indices into the six blocks and
    pixels into the image, and the image. *)
Section Yuv.
Context {P : Type}.
Variable pixel : Z -> Z -> Z -> Z -> P.
Variable blk : list Z.

Record YuvState := mkYuv { Yblk : Z; Crblk : Z; Cbblk : Z; img : Z; image : list P }.

(** Four pixels sharing a chroma sample: the luma entries are at [yo] plus
    0, 1, 8, 9, the pixels at [po] plus 0, 1, 16, 17. *)
Definition yuv_quad (co yo po : Z) (t : YuvState) : list P :=
  let cr := aget blk (Crblk t + co) in
  let cb := aget blk (Cbblk t + co) in
  let R := MULR cr in
  let G := MULG2 cb cr in
  let B := MULB cb in
  let px k := pixel (aget blk (Yblk t + yo + k)) R G B in
  let im := aset (image t) (img t + po) (px 0) in
  let im := aset im (img t + po + 1) (px 1) in
  let im := aset im (img t + po + 16) (px 8) in
  aset im (img t + po + 17) (px 9).

(** One round of the inner loop: the left and the right half. *)
Definition yuv_step (t : YuvState) : YuvState :=
  let t := mkYuv (Yblk t) (Crblk t) (Cbblk t) (img t) (yuv_quad 0 0 0 t) in
  let im := yuv_quad 4 64 8 t in
  mkYuv (Yblk t + 2) (Crblk t + 1) (Cbblk t + 1) (img t + 2) im.

Definition yuv_rows (t : YuvState) (y : Z) : YuvState :=
  let t := mkYuv (if y =? 8 then Yblk t + DSIZE2 else Yblk t) (Crblk t) (Cbblk t) (img t) (image t) in
  let t := fold_left (fun t _ => yuv_step t) (zseq 4) t in
  mkYuv (Yblk t + 8) (Crblk t + 4) (Cbblk t + 4) (img t + 24) (image t).

Definition yuv_image (blank : P) : list P :=
  image (fold_left yuv_rows [0; 2; 4; 6; 8; 10; 12; 14] (mkYuv 128 0 64 0 (repeat blank 256))).
End Yuv.
Arguments YuvState P : clear implicits.

(** Pixels of 16 bits in memory order. *)
Definition halfword_bytes (l : list Z) : list Z := flat_map (fun v => [u8 v; u8 (Z.shiftr v 8)]) l.

Definition yuv2rgb15 (reg0 : Z) (blk : list Z) : list Z :=
  yuv_image (pixel15 (if tst reg0 MDEC0_STP then 0x8000 else 0)) blk 0.
Definition yuv2rgb24 (blk : list Z) : list Z := concat (yuv_image pixel24 blk [0; 0; 0]).

(** The four 8 x 8 quarters of a raster image. *)
Definition raster_to_block_15 (tmp : list Z) : list Z :=
  flat_map (fun base => flat_map (fun y => map (fun x => aget tmp (base + y * 16 + x)) (zseq 8)) (zseq 8))
    [0; 8; 128; 136].

(** ** Registers *)

Definition MDEC_Init (m : Mdec) : Mdec :=
  mkMdec 0 0 RL_NULL 0 0 0 (repeat 0 768) 0 0 0 0 0 0 MDEC_STATE_IDLE 0 (repeat 0 128) 0 false
    (repeat 0 64) 0 (repeat 0 64) (repeat 0 64) aan_only_init (scale_table m)
    (mdec_in_buf m) (mdec_in_write_idx m) (mdec_overrun m).

(** A word in each receiving state. *)
Definition recv_data (data : Z) (m : Mdec) : Mdec :=
  let m :=
    if mdec_in_write_idx m + 2 <=? MDEC_IN_BUF_SIZE then
      let w := mdec_in_write_idx m in
      m <| mdec_in_buf ::= fun b => <[w + 1 := Z.shiftr data 16]> (<[w := Z.land data 0xFFFF]> b) |>
        <| mdec_in_write_idx := w + 2 |> <| rl_end := w + 2 |>
    else m in
  if 0 <? remaining_words m then
    let m := m <| remaining_words ::= fun n => n - 1 |> in
    if remaining_words m =? 0 then m <| fifo_state := MDEC_STATE_IDLE |> else m
  else m.

Definition word_bytes (data : Z) : list Z := [u8 data; u8 (Z.shiftr data 8); u8 (Z.shiftr data 16); u8 (Z.shiftr data 24)].
Definition write_at (l : list Z) (k : Z) (vs : list Z) : list Z :=
  fold_left (fun l j => aset l (k + j) (aget vs j)) (zseq (length vs)) l.

Definition recv_quant (data : Z) (m : Mdec) : Mdec :=
  let m :=
    if qt_pos m + 4 <=? 128 then
      m <| qt_buffer ::= fun b => write_at b (qt_pos m) (word_bytes data) |> <| qt_pos ::= Z.add 4 |>
    else m in
  let m := m <| fifo_remaining ::= fun n => n - 1 |> in
  if fifo_remaining m <=? 0 then
    let qt := qt_buffer m in
    m <| iq_y := iqtab_init (aget qt) |>
      <| iq_uv := iqtab_init (fun i => aget qt (if qt_has_uv m then 64 + i else i)) |>
      <| fifo_state := MDEC_STATE_IDLE |>
  else m.

Definition recv_scale (data : Z) (m : Mdec) : Mdec :=
  let m :=
    if scale_pos m + 2 <=? 64 then
      m <| scale_staging ::= fun b => write_at b (scale_pos m) [Z.land data 0xFFFF; Z.shiftr data 16] |>
        <| scale_pos ::= Z.add 2 |>
    else m in
  let m := m <| fifo_remaining ::= fun n => n - 1 |> in
  if fifo_remaining m <=? 0 then
    m <| scale_table := map (fun i => s16 (aget (scale_staging m) i)) (zseq 64) |> <| fifo_state := MDEC_STATE_IDLE |>
  else m.

Definition new_command (data : Z) (m : Mdec) : Mdec :=
  let m := m <| reg0 := data |> in
  match Z.land (Z.shiftr data 29) 7 with
  | 1 =>
    let n := Z.land data 0xFFFF in
    m <| reg1 ::= fun r => Z.lor r MDEC1_BUSY |> <| remaining_words := if n =? 0 then 0x10000 else n |>
      <| out_pos := 0 |> <| out_end := 0 |> <| mdec_in_write_idx := 0 |>
      <| rl_src := RL_IN_BUF |> <| rl := 0 |> <| rl_end := 0 |> <| fifo_state := MDEC_STATE_RECV_DATA |>
  | 2 =>
    m <| fifo_state := MDEC_STATE_RECV_QUANT |> <| qt_has_uv := tst data 1 |>
      <| fifo_remaining := if tst data 1 then 32 else 16 |> <| qt_pos := 0 |>
  | 3 => m <| fifo_state := MDEC_STATE_RECV_SCALE |> <| fifo_remaining := 32 |> <| scale_pos := 0 |>
  | _ => m
  end.

Definition MDEC_WriteCommand (data : Z) (m : Mdec) : Mdec :=
  match fifo_state m with
  | MDEC_STATE_RECV_DATA => recv_data data m
  | MDEC_STATE_RECV_QUANT => recv_quant data m
  | MDEC_STATE_RECV_SCALE => recv_scale data m
  | MDEC_STATE_IDLE => new_command data m
  end.

Definition MDEC_WriteControl (data : Z) (m : Mdec) : Mdec :=
  if tst data MDEC1_RESET then
    m <| reg0 := 0 |> <| reg1 := 0 |> <| rl_src := RL_NULL |> <| rl := 0 |> <| rl_end := 0 |>
      <| pending_adr := 0 |> <| block_buffer_pos := 0 |> <| out_pos := 0 |> <| out_end := 0 |>
      <| remaining_words := 0 |> <| fifo_state := MDEC_STATE_IDLE |> <| mdec_in_write_idx := 0 |>
  else m.

(** [mdec.rl && mdec.rl < mdec.rl_end]. *)
Definition rl_pending (m : Mdec) : bool :=
  match rl_src m with RL_NULL => false | _ => rl m <? rl_end m end.

Definition mdec_depth (m : Mdec) : Z := Z.land (Z.shiftr (reg0 m) 27) 3.
Definition mdec_signed (m : Mdec) : bool := tst (Z.shiftr (reg0 m) 26) 1.

(** The macroblock at the run-length position in the output format, as bytes
    in raster order, and the position after it. *)
Definition decode_macroblock (x : MdecSys) : option (list Z * Z) :=
  let m := fst x in
  match mdec_depth m with
  | 0 => match rl2blk_mono x with None => None | Some (blk, p) => Some (y_to_mono4 blk (mdec_signed m), p) end
  | 1 => match rl2blk_mono x with None => None | Some (blk, p) => Some (y_to_mono8 blk (mdec_signed m), p) end
  | 2 => match rl2blk x with None => None | Some (blk, p) => Some (yuv2rgb24 blk, p) end
  | _ => match rl2blk x with None => None | Some (blk, p) => Some (halfword_bytes (yuv2rgb15 (reg0 m) blk), p) end
  end.

Definition block_bytes_of (depth : Z) : Z :=
  match depth with 0 => SIZE_OF_4B_BLOCK | 1 => SIZE_OF_8B_BLOCK | 2 => SIZE_OF_24B_BLOCK | _ => SIZE_OF_16B_BLOCK end.

Definition halfwords_of (bs : list Z) : list Z :=
  map (fun i => Z.lor (aget bs (2 * i)) (Z.shiftl (aget bs (2 * i + 1)) 8)) (zseq (length bs / 2)).

(** Bytes copied to the front of the block buffer. *)
Definition fill_buffer (bs buf : list Z) : list Z := bs ++ skipn (length bs) buf.

(** Decoding for reads by the program: 16-bit pixels come in block order. *)
Definition mdec_decode_out_block (x : MdecSys) : Mdec :=
  let m := fst x in
  if negb (rl_pending m) then m <| out_pos := 0 |> <| out_end := 0 |>
  else
    match decode_macroblock x with
    | None => m <| mdec_overrun := true |>
    | Some (bs, p) =>
      let bs := if mdec_depth m =? 3 then halfword_bytes (raster_to_block_15 (halfwords_of bs)) else bs in
      m <| rl := p |> <| block_buffer ::= fill_buffer bs |> <| out_end := block_bytes_of (mdec_depth m) |> <| out_pos := 0 |>
    end.

Definition word_at (bs : list Z) (k : Z) : Z :=
  Z.lor (Z.lor (aget bs k) (Z.shiftl (aget bs (k + 1)) 8))
        (Z.lor (Z.shiftl (aget bs (k + 2)) 16) (Z.shiftl (aget bs (k + 3)) 24)).

Definition MDEC_ReadData (x : MdecSys) : Z * Mdec :=
  let m := fst x in
  if (out_end m <=? out_pos m) && negb (rl_pending m) then (0, m)
  else
    let m := if out_end m <=? out_pos m then mdec_decode_out_block x else m in
    if out_end m <=? out_pos m then (0, m)
    else
      let val := word_at (block_buffer m) (out_pos m) in
      let m := m <| out_pos ::= Z.add 4 |> in
      (val, if (out_end m <=? out_pos m) && negb (rl_pending m)
            then m <| reg1 ::= fun r => Z.land r (not32 MDEC1_BUSY) |> else m).

Definition mdec_try_decode (x : MdecSys) : Mdec :=
  let m := fst x in
  if negb (bool_decide (fifo_state m = MDEC_STATE_RECV_DATA)) then m
  else if out_pos m <? out_end m then m
  else if negb (rl_pending m) then m
  else if (rl_end m - rl m <? MDEC_FIFO_THRESHOLD) && (0 <? remaining_words m) then m
  else mdec_decode_out_block x.

Definition mdec_status (m : Mdec) : Z :=
  let v := Z.land (reg1 m) (not32 0xFFFF) in
  let has_output := (out_pos m <? out_end m) || rl_pending m in
  let v := if has_output then Z.land v (not32 0x80000000) else Z.lor v 0x80000000 in
  let v := if out_pos m <? out_end m then Z.lor v 0x40000000 else Z.land v (not32 0x40000000) in
  let v := if tst v MDEC1_BUSY then Z.lor v 0x18000000 else Z.land v (not32 0x18000000) in
  let v := Z.lor (Z.lor (Z.lor (Z.land v (not32 0x07800000)) (Z.shiftl (mdec_depth m) 25))
                        (Z.shiftl (b2z (mdec_signed m)) 24)) (Z.shiftl (Z.land (Z.shiftr (reg0 m) 25) 1) 23) in
  if 0 <? remaining_words m then Z.lor v (Z.land (remaining_words m - 1) 0xFFFF) else Z.lor v 0xFFFF.

Definition MDEC_ReadStatus (x : MdecSys) : Z * Mdec :=
  let m := mdec_try_decode x in (mdec_status m, m).

(** ** DMA *)

Definition dma_words (bcr : Z) : Z :=
  let block_size := Z.land bcr 0xFFFF in
  let block_count := Z.land (Z.shiftr bcr 16) 0xFFFF in
  let block_count := if block_count =? 0 then 1 else block_count in
  let block_size := if block_size =? 0 then 1 else block_size in
  u32 (block_size * block_count).

Definition upd_mdec (f : Mdec -> Mdec) (x : MdecSys) : MdecSys := (f (fst x), snd x).
Definition store_ram (a : Z) (bs : list Z) (x : MdecSys) : MdecSys :=
  (fst x, (snd x) <| psx_ram ::= fun m => wr_bytes m a bs |>).

(** The rest of a block begun by an earlier transfer: its bytes, at most
    [size]. *)
Definition flush_partial (block_bytes image size : Z) (x : MdecSys) : Z * Z * MdecSys :=
  let m := fst x in
  if block_buffer_pos m =? 0 then (image, size, x)
  else
    let n := block_bytes - block_buffer_pos m in
    let n := if size <? u32 n then size else n in
    let bs := take (Z.to_nat n) (skipn (Z.to_nat (block_buffer_pos m)) (block_buffer m)) in
    (image + n, u32 (size - n), store_ram image bs (upd_mdec (fun m => m <| block_buffer_pos := 0 |>) x)).

(** [while (size >= block_bytes && mdec.rl < mdec.rl_end)]: every round takes
    [block_bytes] off [size]. *)
Fixpoint decode_loop (fuel : nat) (block_bytes image size : Z) (x : MdecSys) : option (Z * Z * MdecSys) :=
  match fuel with
  | O => Some (image, size, x)
  | S fuel =>
    if (block_bytes <=? size) && (rl (fst x) <? rl_end (fst x)) then
      match decode_macroblock x with
      | None => None
      | Some (bs, p) =>
        decode_loop fuel block_bytes (image + block_bytes) (size - block_bytes)
          (store_ram image bs (upd_mdec (fun m => m <| rl := p |>) x))
      end
    else Some (image, size, x)
  end.

(** The last block, of which only the first [size] bytes fit. *)
Definition decode_partial (image size : Z) (x : MdecSys) : option MdecSys :=
  if negb (size =? 0) && (rl (fst x) <? rl_end (fst x)) then
    match decode_macroblock x with
    | None => None
    | Some (bs, p) =>
      let x := upd_mdec (fun m => m <| rl := p |> <| block_buffer ::= fill_buffer bs |> <| block_buffer_pos := size |>) x in
      Some (store_ram image (take (Z.to_nat size) (block_buffer (fst x))) x)
    end
  else Some x.

(** The page loop hands page numbers to [jit_invalidate_page]. *)
Definition mdec_pages (adr total_words : Z) : list Z :=
  let start_page := Z.shiftr adr 12 in
  let end_page := Z.shiftr (u32 (adr + total_words * 4 - 1)) 12 in
  map (Z.add start_page) (zseq (Z.to_nat (Z.min (end_page + 1) (Z.shiftr MDEC_RAM_SIZE 12) - start_page))).

Definition mdec_invalidate (adr total_words : Z) (y : Sys) : Sys :=
  fold_left (fun y p => jit_invalidate_page p y) (mdec_pages adr total_words) y.

Definition MDEC_DMA1 (adr bcr chcr : Z) (x : MdecSys) : MdecSys :=
  let total_words := dma_words bcr in
  if negb (chcr =? 0x01000200) then x
  else if negb (tst (reg1 (fst x)) MDEC1_BUSY) || negb (rl_pending (fst x)) then
    upd_mdec (fun m => m <| pending_adr := adr |> <| pending_bcr := bcr |> <| pending_chcr := chcr |>) x
  else
    let adr := Z.land adr 0x1FFFFC in
    let size := u32 (total_words * 4) in
    if MDEC_RAM_SIZE <? u32 (adr + size) then x
    else
      let block_bytes := block_bytes_of (mdec_depth (fst x)) in
      let '(image, size, x) := flush_partial block_bytes adr size x in
      match decode_loop (Z.to_nat (size / block_bytes)) block_bytes image size x with
      | None => upd_mdec (fun m => m <| mdec_overrun := true |>) x
      | Some (image, size, x) =>
        match decode_partial image size x with
        | None => upd_mdec (fun m => m <| mdec_overrun := true |>) x
        | Some x =>
          let x := (fst x, mdec_invalidate adr total_words (snd x)) in
          if rl_pending (fst x) then x
          else upd_mdec (fun m => m <| reg1 ::= fun r => Z.land r (not32 MDEC1_BUSY) |>) x
        end
      end.

(** A byte and a halfword of the parameter block in main RAM. *)
Definition ram_table_uv (total_words adr i : Z) : Z := if 16 <? total_words then adr + 64 + i else adr + i.

Definition MDEC_DMA0 (adr bcr chcr : Z) (x : MdecSys) : MdecSys :=
  let cmd := reg0 (fst x) in
  let total_words := dma_words bcr in
  if negb (chcr =? 0x01000201) then x
  else
    let x := upd_mdec (fun m => m <| reg1 ::= fun r => Z.lor r MDEC1_STP |>) x in
    let adr := Z.land adr 0x1FFFFC in
    if MDEC_RAM_SIZE <? u32 (adr + total_words * 4) then x
    else
      let ram := psx_ram (snd x) in
      match Z.land (Z.shiftr cmd 29) 7 with
      | 1 =>
        let x := upd_mdec (fun m => m <| reg1 ::= fun r => Z.lor r MDEC1_BUSY |>
                   <| rl_src := RL_RAM |> <| rl := adr / 2 |> <| rl_end := adr / 2 + u32 (total_words * 2) |>
                   <| fifo_state := MDEC_STATE_IDLE |> <| out_pos := 0 |> <| out_end := 0 |>) x in
        if rl_end (fst x) <=? rl (fst x) then x
        else
          let m := fst x in
          let x := if pending_adr m =? 0 then x
                   else MDEC_DMA1 (pending_adr m) (pending_bcr m) (pending_chcr m) x in
          upd_mdec (fun m => m <| pending_adr := 0 |>) x
      | 2 =>
        upd_mdec (fun m => m <| iq_y := iqtab_init (fun i => rd8 ram (adr + i)) |>
          <| iq_uv := iqtab_init (fun i => rd8 ram (ram_table_uv total_words adr i)) |>) x
      | 3 =>
        upd_mdec (fun m => m <| scale_table := map (fun n =>
          let sy := n / 8 in let sx := n mod 8 in s16 (rd16 ram (adr + 2 * (sx * 8 + sy)))) (zseq 64) |>) x
      | _ => x
      end.
