(* ===== verification/MdecMath.v ===== *)
(** * What the motion decoder computes

    The optimised inverse transform against the plain one, the block decoder,
    the colour conversion pixel by pixel, the two upload paths of the tables,
    and the DMA behaviours that lose data or leave stale translations. *)

From S2P Require Import Prelude Scheduler System Mdec.

(** ** Colour conversion *)

(** The luma entry of pixel [(r, c)] of a macroblock in the array of six
    blocks, and its chroma entry within a chroma block. *)
Definition luma_index (r c : Z) : Z := 128 + 64 * (2 * (r / 8) + c / 8) + 8 * (r mod 8) + c mod 8.
Definition chroma_index (r c : Z) : Z := 8 * (r / 2) + c / 2.

Definition yuv_pixel {P} (pixel : Z -> Z -> Z -> Z -> P) (blk : list Z) (n : Z) : P :=
  let r := n / 16 in let c := n mod 16 in
  let cr := aget blk (chroma_index r c) in
  let cb := aget blk (64 + chroma_index r c) in
  pixel (aget blk (luma_index r c)) (MULR cr) (MULG2 cb cr) (MULB cb).

Lemma yuv_image_exact {P} (pixel : Z -> Z -> Z -> Z -> P) blk blank :
  yuv_image pixel blk blank = map (yuv_pixel pixel blk) (zseq 256).
Proof. cbv -[MULR MULG2 MULB aget]. reflexivity. Qed.

(** ** 32-bit integers *)

Definition is_s32 (x : Z) : Prop := -2147483648 <= x < 2147483648.

Lemma s32_id x : is_s32 x -> s32 x = x.
Proof.
  unfold is_s32, s32. intros Hx. unfold u32. destruct (Z.ltb_spec (x mod 4294967296) 2147483648); zify_div.
Qed.

Lemma is_s32_s32 x : is_s32 (s32 x).
Proof. apply s32_range. Qed.

Lemma add32_0_r v : is_s32 v -> add32 v 0 = v.
Proof. intros Hv. unfold add32. rewrite Z.add_0_r. apply s32_id, Hv. Qed.
Lemma sub32_0_r v : is_s32 v -> sub32 v 0 = v.
Proof. intros Hv. unfold sub32. rewrite Z.sub_0_r. apply s32_id, Hv. Qed.

(** A line that only has its first entry is flat after the transform. *)
Lemma idct8_dc v : is_s32 v -> idct8 (v :: repeat 0 7) = repeat v 8.
Proof.
  intros Hv. unfold idct8.
  change (aget (v :: repeat 0 7) 0) with v.
  change (aget (v :: repeat 0 7) 1) with 0. change (aget (v :: repeat 0 7) 2) with 0.
  change (aget (v :: repeat 0 7) 3) with 0. change (aget (v :: repeat 0 7) 4) with 0.
  change (aget (v :: repeat 0 7) 5) with 0. change (aget (v :: repeat 0 7) 6) with 0.
  change (aget (v :: repeat 0 7) 7) with 0.
  cbv zeta.
  repeat first
    [ progress change (add32 0 0) with 0 | progress change (sub32 0 0) with 0 | progress change (Z.shiftr 0 12) with 0
    | progress change (MULS 0 FIX_1_414213562) with 0 | progress change (mul32 0 FIX_1_847759065) with 0
    | progress change (mul32 0 FIX_2_613125930) with 0 | progress change (mul32 0 FIX_1_082392200) with 0
    | rewrite (add32_0_r v Hv) | rewrite (sub32_0_r v Hv) ].
  reflexivity.
Qed.

Lemma idct8_s32 p : length (idct8 p) = 8%nat /\ Forall is_s32 (idct8 p).
Proof. split; [reflexivity|]. unfold idct8. cbv zeta. repeat constructor; apply s32_range. Qed.

(** ** Lines of a block *)

Lemma strided_length b s l : length (strided b s l) = 8%nat.
Proof. reflexivity. Qed.

Lemma aget_strided b s l j : 0 <= j < 8 -> aget (strided b s l) j = aget l (b + s * j).
Proof. intros Hj. enum j Hj; reflexivity. Qed.

Lemma set_strided_length b s vs l : zlen (set_strided b s vs l) = zlen l.
Proof.
  unfold set_strided. generalize (zseq 8). intros js. revert l.
  induction js as [|j js IH]; intros l; cbn [fold_left]; [reflexivity | rewrite IH; apply zlen_aset].
Qed.

Lemma set_strided_forall (P : Z -> Prop) b s vs l : P 0 -> Forall P l -> Forall P vs -> Forall P (set_strided b s vs l).
Proof.
  intros H0 Hl Hv. unfold set_strided. generalize (zseq 8). intros js. revert l Hl.
  induction js as [|j js IH]; intros l Hl; cbn [fold_left]; [exact Hl|].
  apply IH, Forall_aset; [exact Hl | apply Forall_aget; assumption].
Qed.

(** Writing a line: its own entries, and all the others. *)
Lemma aget_set_strided_in b s vs l j : 0 <= b -> 0 < s -> b + 7 * s < zlen l -> 0 <= j < 8 ->
  aget (set_strided b s vs l) (b + s * j) = aget vs j.
Proof.
  intros Hb Hs Hl Hj. unfold set_strided. change (zseq 8) with [0; 1; 2; 3; 4; 5; 6; 7]. cbn [fold_left].
  unfold aget at 1. enum j Hj;
    repeat first [ rewrite anth_aset_eq by (rewrite ?zlen_aset; lia); reflexivity
                 | rewrite anth_aset_ne by lia ].
Qed.

Lemma aget_set_strided_out b s vs l n : 0 <= b -> 0 < s -> 0 <= n -> (forall j, 0 <= j < 8 -> n <> b + s * j) ->
  aget (set_strided b s vs l) n = aget l n.
Proof.
  intros Hb Hs Hn Ho. unfold set_strided. change (zseq 8) with [0; 1; 2; 3; 4; 5; 6; 7]. cbn [fold_left].
  unfold aget at 1. rewrite !anth_aset_ne; try lia; try reflexivity; apply not_eq_sym, Ho; lia.
Qed.

Lemma block_ext l1 l2 : zlen l1 = 64 -> zlen l2 = 64 -> (forall n, 0 <= n < 64 -> aget l1 n = aget l2 n) -> l1 = l2.
Proof.
  unfold zlen. intros H1 H2 H. apply (nth_ext l1 l2 0 0); [lia|]. intros n Hn.
  specialize (H (Z.of_nat n) ltac:(lia)). unfold aget, anth in H. rewrite Nat2Z.id in H. exact H.
Qed.

(** Writing back what a line already holds changes nothing. *)
Lemma set_strided_same b s vs l : zlen l = 64 -> 0 <= b -> 0 < s -> b + 7 * s < 64 ->
  (forall j, 0 <= j < 8 -> aget l (b + s * j) = aget vs j) -> set_strided b s vs l = l.
Proof.
  intros Hl Hb Hs Hr H. apply block_ext; [rewrite set_strided_length; exact Hl | exact Hl|]. intros n Hn.
  assert (D : (exists j, 0 <= j < 8 /\ n = b + s * j) \/ (forall j, 0 <= j < 8 -> n <> b + s * j)).
  { destruct (Z.eq_dec ((n - b) mod s) 0) as [E|E]; [destruct (Z_le_dec 0 ((n - b) / s)); [destruct (Z_lt_dec ((n - b) / s) 8)|]|].
    - left. exists ((n - b) / s). split; [lia|]. pose proof (Z.div_mod (n - b) s ltac:(lia)). lia.
    - right. intros j Hj ->. replace (b + s * j - b) with (j * s) in * by lia. rewrite Z.div_mul in * by lia. lia.
    - right. intros j Hj ->. replace (b + s * j - b) with (j * s) in * by lia. rewrite Z.div_mul in * by lia. lia.
    - right. intros j Hj ->. apply E. replace (b + s * j - b) with (j * s) by lia. apply Z.mod_mul. lia. }
  destruct D as [(j & Hj & ->) | D].
  - rewrite aget_set_strided_in by lia. symmetry. apply H, Hj.
  - apply aget_set_strided_out; try lia. exact D.
Qed.

Lemma list8_ext (l1 l2 : list Z) : length l1 = 8%nat -> length l2 = 8%nat ->
  (forall j, 0 <= j < 8 -> aget l1 j = aget l2 j) -> l1 = l2.
Proof.
  intros H1 H2 H. apply (nth_ext l1 l2 0 0); [lia|]. intros n Hn.
  specialize (H (Z.of_nat n) ltac:(lia)). unfold aget, anth in H. rewrite Nat2Z.id in H. exact H.
Qed.

(** ** The inverse transform *)

(** The transform without shortcuts: every column, then every row. *)
Definition idct_column_full (blk : list Z) (i : Z) : list Z := set_strided i 8 (idct8 (strided i 8 blk)) blk.
Definition idct_full (blk : list Z) : list Z :=
  fold_left idct_row (zseq 8) (fold_left idct_column_full (zseq 8) blk).

Definition block_ok (blk : list Z) : Prop := zlen blk = 64 /\ Forall is_s32 blk.

(** [used_col] marks every column with an entry below the first row. *)
Definition covers (used_col : Z) (blk : list Z) : Prop :=
  forall j k, 0 <= j < 8 -> 1 <= k < 8 -> Z.testbit used_col j = false -> aget blk (j + 8 * k) = 0.

(** In the middle of the column pass: columns before [i] that are not marked
    are zero. *)
Record columns_inv (i : Z) (blk : list Z) (used_col : Z) : Prop := {
  ci_ok : block_ok blk;
  ci_covers : covers used_col blk;
  ci_zero : forall j, 0 <= j < i -> Z.testbit used_col j = false -> aget blk j = 0
}.

Lemma is_s32_0 : is_s32 0.
Proof. split; [discriminate | reflexivity]. Qed.

Lemma block_ok_set b s vs l : block_ok l -> Forall is_s32 vs -> block_ok (set_strided b s vs l).
Proof.
  intros [H1 H2] Hv. split; [rewrite set_strided_length; exact H1|].
  apply set_strided_forall; [apply is_s32_0 | exact H2 | exact Hv].
Qed.

Lemma strided_dc b s blk : (forall k, 1 <= k < 8 -> aget blk (b + s * k) = 0) ->
  strided b s blk = aget blk b :: repeat 0 7.
Proof.
  intros H. apply list8_ext; [reflexivity | reflexivity|]. intros j Hj. rewrite aget_strided by exact Hj.
  destruct (Z.eq_dec j 0) as [->|]; [rewrite Z.mul_0_r, Z.add_0_r; reflexivity|].
  rewrite H by lia. enum j Hj; reflexivity || lia.
Qed.

(** The column the pass works on leaves the others alone. *)
Lemma other_column vs l i j k : 0 <= i < 8 -> 0 <= j < 8 -> 0 <= k < 8 -> i <> j ->
  aget (set_strided i 8 vs l) (j + 8 * k) = aget l (j + 8 * k).
Proof. intros. apply aget_set_strided_out; lia. Qed.

Lemma column_step i blk used_col : 0 <= i < 8 -> columns_inv i blk used_col ->
  exists used', idct_column (blk, used_col) i = (idct_column_full blk i, used') /\
    columns_inv (i + 1) (idct_column_full blk i) used'.
Proof.
  intros Hi [Hok Hc Hz]. unfold idct_column, idct_column_full. rewrite tst_shiftl by lia.
  pose proof (idct8_s32 (strided i 8 blk)) as [_ Hs].
  assert (Hset : block_ok (set_strided i 8 (idct8 (strided i 8 blk)) blk)) by (apply block_ok_set; assumption).
  destruct (Z.testbit used_col i) eqn:Hb.
  - exists used_col. split; [reflexivity|]. split; [exact Hset | |].
    + intros j k Hj Hk Hu. assert (i <> j) by congruence. rewrite other_column by lia. apply Hc; assumption.
    + intros j Hj Hu. assert (i <> j) by congruence.
      replace j with (j + 8 * 0) by lia. rewrite other_column by lia. rewrite Z.mul_0_r, Z.add_0_r. apply Hz; [lia | exact Hu].
  - assert (Hdc : strided i 8 blk = aget blk i :: repeat 0 7) by (apply strided_dc; intros k Hk; apply Hc; assumption).
    assert (Hv : is_s32 (aget blk i)) by (apply Forall_aget; [apply is_s32_0 | apply Hok]).
    rewrite Hdc, idct8_dc in * by exact Hv.
    destruct (Z.eqb_spec (aget blk i) 0) as [E|E]; cbn [negb].
    + assert (Hsame : set_strided i 8 (repeat (aget blk i) 8) blk = blk).
      { apply set_strided_same; try lia; [apply Hok|]. intros j Hj. rewrite E.
        destruct (Z.eq_dec j 0) as [->|]; [rewrite Z.mul_0_r, Z.add_0_r; exact E|].
        rewrite Hc by (lia || exact Hb). enum j Hj; reflexivity. }
      rewrite Hsame. exists used_col. split; [reflexivity|]. split; [exact Hok | exact Hc|].
      intros j Hj Hu. destruct (Z.eq_dec j i) as [->|]; [exact E | apply Hz; [lia | exact Hu] ].
    + exists (Z.lor used_col (Z.shiftl 1 i)). split; [reflexivity|].
      assert (Hbit : forall j, 0 <= j -> Z.testbit (Z.lor used_col (Z.shiftl 1 i)) j = false -> Z.testbit used_col j = false /\ i <> j).
      { intros j Hj Hu. rewrite Z.lor_spec in Hu. apply orb_false_iff in Hu as [Hu1 Hu2]. split; [exact Hu1|].
        intros <-. rewrite Z.shiftl_spec, Z.sub_diag in Hu2 by lia. discriminate. }
      split; [exact Hset | |].
      * intros j k Hj Hk Hu. destruct (Hbit j ltac:(lia) Hu). rewrite other_column by lia. apply Hc; assumption.
      * intros j Hj Hu. destruct (Hbit j ltac:(lia) Hu).
        replace j with (j + 8 * 0) by lia. rewrite other_column by lia. rewrite Z.mul_0_r, Z.add_0_r. apply Hz; [lia | assumption].
Qed.

Lemma zseq_from i n : map (Z.add i) (zseq (S n)) = i :: map (Z.add (i + 1)) (zseq n).
Proof.
  change (zseq (S n)) with (0 :: map Z.of_nat (seq 1 n)). rewrite <- seq_shift, map_map. cbn [map]. f_equal; [lia|].
  unfold zseq. rewrite !map_map. apply map_ext. intros k. lia.
Qed.

Lemma columns_run n : forall i blk used_col, 0 <= i -> i + Z.of_nat n <= 8 -> columns_inv i blk used_col ->
  let js := map (Z.add i) (zseq n) in
  exists used', fold_left idct_column js (blk, used_col) = (fold_left idct_column_full js blk, used') /\
    columns_inv (i + Z.of_nat n) (fold_left idct_column_full js blk) used'.
Proof.
  induction n as [|n IH]; intros i blk used Hi Hn H.
  - exists used. split; [reflexivity|]. cbn. rewrite Z.add_0_r. exact H.
  - cbv zeta. rewrite zseq_from. cbn [fold_left].
    destruct (column_step i blk used ltac:(lia) H) as (u1 & -> & H1).
    destruct (IH (i + 1) (idct_column_full blk i) u1 ltac:(lia) ltac:(lia) H1) as (u2 & E2 & H2).
    exists u2. split; [exact E2|]. replace (i + Z.of_nat (S n)) with (i + 1 + Z.of_nat n) by lia. exact H2.
Qed.

(** A row whose entries beyond the first are zero. *)
Lemma row_fill_exact blk i : block_ok blk -> 0 <= i < 8 -> (forall c, 1 <= c < 8 -> aget blk (8 * i + c) = 0) ->
  idct_row_fill blk i = idct_row blk i.
Proof.
  intros Hok Hi Hz. unfold idct_row_fill, idct_row. f_equal.
  rewrite (strided_dc (8 * i) 1) by (intros k Hk; rewrite Z.mul_1_l; apply Hz, Hk).
  symmetry. apply idct8_dc. apply Forall_aget; [apply is_s32_0 | apply Hok].
Qed.

Lemma rows_run n : forall i blk, 0 <= i -> i + Z.of_nat n <= 8 -> block_ok blk ->
  (forall r c, i <= r < 8 -> 1 <= c < 8 -> aget blk (8 * r + c) = 0) ->
  fold_left idct_row_fill (map (Z.add i) (zseq n)) blk = fold_left idct_row (map (Z.add i) (zseq n)) blk.
Proof.
  induction n as [|n IH]; intros i blk Hi Hn Hok Hz; [reflexivity|].
  rewrite zseq_from. cbn [fold_left]. rewrite row_fill_exact by (try assumption; try lia; intros c Hc; apply Hz; lia).
  apply IH; [lia | lia | apply block_ok_set; [exact Hok | apply idct8_s32]|].
  intros r c Hr Hc. unfold idct_row. rewrite aget_set_strided_out by lia. apply Hz; lia.
Qed.

(** The shortcuts of the inverse transform are exact.  On a block whose
    marks cover every column with entries below the first row, skipping empty
    columns, flattening columns that only have a first entry, and flattening
    the rows when only the first column is left give the same 64 values as
    transforming all columns and all rows. *)
Lemma idct_exact blk used_col : block_ok blk -> used_col <> -1 -> covers used_col blk ->
  idct blk used_col = idct_full blk.
Proof.
  intros Hok Hu Hc. unfold idct. rewrite (proj2 (Z.eqb_neq _ _) Hu).
  destruct (columns_run 8 0 blk used_col ltac:(lia) ltac:(lia)) as (u' & E & [Hok' Hc' Hz']).
  { split; [exact Hok | exact Hc | intros j Hj; lia]. }
  change (map (Z.add 0) (zseq 8)) with (zseq 8) in *. rewrite E. unfold idct_full.
  set (b := fold_left idct_column_full (zseq 8) blk) in *. clearbody b.
  destruct (Z.eqb_spec u' 1) as [->|]; [|reflexivity].
  apply (rows_run 8 0 b ltac:(lia) ltac:(lia) Hok'). intros r c Hr Hcc.
  assert (Hbit : Z.testbit 1 c = false) by (change 1 with (2 ^ 0); rewrite Z.pow2_bits_eqb by lia; apply Z.eqb_neq; lia).
  destruct (Z.eq_dec r 0) as [->|]; [rewrite Z.mul_0_r; apply Hz'; [lia | exact Hbit]|].
  rewrite Z.add_comm. apply Hc'; [lia | lia | exact Hbit].
Qed.

(** ** Run-length decoding *)

(** The reference: the coefficients of a list of codes, in zigzag order. *)
Fixpoint dequantise (iqtab : list Z) (q_scale k : Z) (codes blk : list Z) : list Z :=
  match codes with
  | [] => blk
  | hw :: codes =>
    let k := k + (RLE_RUN hw + 1) in
    dequantise iqtab q_scale k codes
      (if k <? 64 then aset blk (aget zscan k) (SCALER (mul32 (mul32 (RLE_VAL hw) (aget iqtab k)) q_scale) 12) else blk)
  end.

(** The last zigzag index the codes reach from [k]. *)
Definition reach (k : Z) (codes : list Z) : Z := fold_left (fun k hw => k + (RLE_RUN hw + 1)) codes k.

Definition codes_at (rd : Z -> Z) (p : Z) (n : nat) : list Z := map (fun i => rd (p + i)) (zseq n).

Lemma codes_at_S rd p n : codes_at rd p (S n) = rd p :: codes_at rd (p + 1) n.
Proof.
  unfold codes_at. change (zseq (S n)) with (0 :: map Z.of_nat (seq 1 n)). rewrite <- seq_shift, map_map. cbn [map].
  rewrite Z.add_0_r. f_equal. unfold zseq. rewrite !map_map. apply map_ext. intros k. f_equal. lia.
Qed.

Lemma zscan_range k : 0 <= k < 64 -> 0 <= aget zscan k < 64.
Proof.
  intros Hk. assert (H : zforall 6 (fun k => (0 <=? aget zscan k) && (aget zscan k <? 64)) 0 = true) by (vm_compute; reflexivity).
  pose proof (zforall_true 6 _ 0 H k ltac:(exact Hk)) as Hb. cbv beta in Hb. lia.
Qed.

Lemma SCALER_s32 x n : 0 <= n -> is_s32 (SCALER x n).
Proof.
  intros Hn. unfold SCALER. pose proof (s32_range (x + Z.shiftr (Z.shiftl 1 n) 1)) as H. fold (add32 x (Z.shiftr (Z.shiftl 1 n) 1)) in H.
  unfold is_s32. rewrite Z.shiftr_div_pow2 by lia. pose proof (Z.pow_pos_nonneg 2 n ltac:(lia) Hn).
  split; [apply Z.div_le_lower_bound; nia | apply Z.div_lt_upper_bound; nia].
Qed.

(** Storing a coefficient keeps the marks true. *)
Lemma store_quant_ok iqtab q k hw blk used : 0 <= k < 64 -> block_ok blk -> covers used blk ->
  let '(blk', used') := store_quant iqtab q k hw (blk, used) in
  block_ok blk' /\ covers used' blk' /\ (0 <= used -> 0 <= used').
Proof.
  intros Hk [Hl Hf] Hc. unfold store_quant. cbv zeta. pose proof (zscan_range k Hk) as Hz.
  set (z := aget zscan k) in *. set (v := SCALER _ _).
  assert (Hv : is_s32 v) by (apply SCALER_s32; lia). clearbody v.
  split; [split; [rewrite zlen_aset; exact Hl | apply Forall_aset; assumption]|].
  split.
  - intros j m Hj Hm Hu. rewrite Z.lor_spec in Hu. apply orb_false_iff in Hu as [Hu1 Hu2].
    unfold aget. rewrite anth_aset by lia.
    destruct (Z.eqb_spec z (j + 8 * m)) as [E|]; [|apply Hc; assumption].
    exfalso. rewrite (proj2 (Z.ltb_lt 7 z)) in Hu2 by lia.
    change 7 with (Z.ones 3) in Hu2. rewrite Z.land_ones in Hu2 by lia. change (2 ^ 3) with 8 in Hu2.
    replace (z mod 8) with j in Hu2 by (rewrite E; zify_div). rewrite Z.shiftl_spec, Z.sub_diag in Hu2 by lia. discriminate.
  - intros H0. apply Z.lor_nonneg. split; [exact H0|]. destruct (7 <? z); [|lia]. apply Z.shiftl_nonneg. lia.
Qed.

(** The coefficient loop reads the fewest codes that reach index 63. *)
Lemma ac_loop_codes rd iqtab q : (forall p, 0 <= rd p) -> forall fuel p k blk used,
  0 <= k -> 63 - k <= Z.of_nat fuel -> block_ok blk -> covers used blk -> 0 <= used ->
  exists n used', (n <= fuel)%nat /\
    ac_loop rd fuel (store_quant iqtab q) p k (blk, used)
      = (p + Z.of_nat n, reach k (codes_at rd p n), (dequantise iqtab q k (codes_at rd p n) blk, used')) /\
    63 <= reach k (codes_at rd p n) /\ (forall m, (m < n)%nat -> reach k (codes_at rd p m) < 63) /\
    block_ok (dequantise iqtab q k (codes_at rd p n) blk) /\
    covers used' (dequantise iqtab q k (codes_at rd p n) blk) /\ 0 <= used'.
Proof.
  intros Hrd. induction fuel as [|fuel IH]; intros p k blk used Hk Hf Hok Hc Hu; cbn [ac_loop].
  { exists O, used. cbn. rewrite Z.add_0_r. repeat (split; [first [reflexivity | assumption | lia]|]). exact Hu. }
  destruct (Z.ltb_spec k 63).
  2: { exists O, used. cbn. rewrite Z.add_0_r. split; [lia|]. repeat (split; [first [reflexivity | assumption | lia]|]). exact Hu. }
  cbv zeta. assert (Hr : 0 <= RLE_RUN (rd p)) by (unfold RLE_RUN; apply Z.shiftr_nonneg, Hrd).
  set (k1 := k + (RLE_RUN (rd p) + 1)) in *.
  set (acc := if k1 <? DSIZE2 then store_quant iqtab q k1 (rd p) (blk, used) else (blk, used)).
  assert (Hacc : fst acc = (if k1 <? 64 then aset blk (aget zscan k1) (SCALER (mul32 (mul32 (RLE_VAL (rd p)) (aget iqtab k1)) q) 12) else blk)
    /\ block_ok (fst acc) /\ covers (snd acc) (fst acc) /\ 0 <= snd acc).
  { subst acc. change DSIZE2 with 64. destruct (Z.ltb_spec k1 64); [|repeat (split; [first [reflexivity | assumption]|]); exact Hu].
    pose proof (store_quant_ok iqtab q k1 (rd p) blk used ltac:(lia) Hok Hc) as Hs. unfold store_quant in *. cbv zeta in *.
    cbn [fst snd]. destruct Hs as (S1 & S2 & S3). repeat (split; [first [reflexivity | assumption]|]). exact (S3 Hu). }
  destruct acc as [b u]. cbn [fst snd] in Hacc. destruct Hacc as (Eb & Hb1 & Hb2 & Hb3).
  destruct (IH (p + 1) k1 b u ltac:(lia) ltac:(lia) Hb1 Hb2 Hb3) as (n & used' & Hn & E & H1 & H2 & H3 & H4 & H5).
  exists (S n), used'. rewrite codes_at_S. cbn [dequantise]. cbv zeta. fold k1. rewrite <- Eb.
  change (reach k (rd p :: codes_at rd (p + 1) n)) with (reach k1 (codes_at rd (p + 1) n)).
  split; [lia|]. split; [rewrite E; f_equal; f_equal; lia|]. split; [exact H1|]. split; [|split; [exact H3 | split; assumption] ].
  intros [|m] Hm; [cbn; lia|]. rewrite codes_at_S. change (reach k1 (codes_at rd (p + 1) m) < 63). apply H2. lia.
Qed.

(** [C18] A quantised block decodes to the plain transform of its
    coefficients.  The decoder reads, after the header code, the fewest codes
    whose runs reach index 63 (at most 63 of them), stores each value
    dequantised at its zigzag place, drops a value past the end, and returns
    the inverse transform without shortcuts; its own shortcuts, the marks of
    used columns and the one for blocks with only a first entry, never
    change the result. *)
Theorem quant_block_exact rd iqtab hw p : (forall q, 0 <= rd q) ->
  exists n : nat, (n <= 63)%nat /\ 63 <= reach 0 (codes_at rd p n) /\
    (forall m, (m < n)%nat -> reach 0 (codes_at rd p m) < 63) /\
    quant_block rd iqtab hw p
    = (idct_full (dequantise iqtab (RLE_RUN hw) 0 (codes_at rd p n)
         (aset (repeat 0 64) 0 (SCALER (mul32 (RLE_VAL hw) (aget iqtab 0)) 9))), p + Z.of_nat n).
Proof.
  intros Hrd. unfold quant_block. cbv zeta. set (b0 := aset (repeat 0 64) 0 _).
  assert (H0 : block_ok b0).
  { split; [reflexivity|]. apply Forall_aset; [apply (Forall_repeat is_s32), is_s32_0 | apply SCALER_s32; lia]. }
  assert (Hc0 : covers 0 b0).
  { intros j k Hj Hk _. unfold b0, aget. rewrite anth_aset_ne by lia. unfold anth. apply nth_repeat. }
  destruct (ac_loop_codes rd iqtab (RLE_RUN hw) Hrd 63 p 0 b0 0 ltac:(lia) ltac:(lia) H0 Hc0 ltac:(lia))
    as (n & used' & Hn & E & H1 & H2 & H3 & H4 & H5).
  exists n. split; [exact Hn|]. split; [exact H1|]. split; [exact H2|]. rewrite E.
  rewrite (proj2 (Z.eqb_neq _ 0)) by lia. rewrite idct_exact by (assumption || lia). reflexivity.
Qed.

(** ** Colour conversion, pixel by pixel *)

Lemma clamp_to_range lo hi v : lo <= hi -> lo <= clamp_to lo hi v <= hi.
Proof. intros H. unfold clamp_to. destruct (Z.ltb_spec v lo), (Z.ltb_spec hi v); lia. Qed.

Lemma nth_concat_triples (f : Z -> list Z) n : (forall i, length (f i) = 3%nat) -> forall k j, 0 <= k < Z.of_nat n -> 0 <= j < 3 ->
  aget (concat (map f (zseq n))) (3 * k + j) = aget (f k) j.
Proof.
  intros Hf. assert (H : forall m s k j, (k < m)%nat -> (j < 3)%nat ->
    nth (3 * k + j) (concat (map f (map Z.of_nat (seq s m)))) 0 = nth j (f (Z.of_nat (s + k))) 0).
  { induction m as [|m IH]; intros s k j Hk Hj; [lia|]. cbn [seq map concat].
    destruct k as [|k].
    - rewrite app_nth1 by (rewrite Hf; lia). rewrite Nat.add_0_r. reflexivity.
    - rewrite app_nth2 by (rewrite Hf; lia). rewrite Hf.
      replace (3 * S k + j - 3)%nat with (3 * k + j)%nat by lia. rewrite IH by lia.
      replace (S s + k)%nat with (s + S k)%nat by lia. reflexivity. }
  intros k j Hk Hj. unfold aget, anth, zseq.
  replace (Z.to_nat (3 * k + j)) with (3 * Z.to_nat k + Z.to_nat j)%nat by lia.
  rewrite H by lia. replace (Z.of_nat (0 + Z.to_nat k)) with k by lia. reflexivity.
Qed.

(** The packing of a 16-bit pixel, checked on every combination. *)
Lemma pack15 stp r g b : (stp = 0 \/ stp = 0x8000) -> 0 <= r < 32 -> 0 <= g < 32 -> 0 <= b < 32 ->
  Z.lor (Z.lor (Z.lor stp (Z.shiftl b 10)) (Z.shiftl g 5)) r = r + 32 * g + 1024 * b + stp.
Proof.
  intros Hs Hr Hg Hb.
  assert (H : forall s, s = 0 \/ s = 0x8000 -> zforall 15 (fun n => let r := n mod 32 in let g := n / 32 mod 32 in let b := n / 1024 in
    Z.lor (Z.lor (Z.lor s (Z.shiftl b 10)) (Z.shiftl g 5)) r =? r + 32 * g + 1024 * b + s) 0 = true)
    by (intros s [-> | ->]; vm_compute; reflexivity).
  pose proof (zforall_true 15 _ 0 (H stp Hs) (r + 32 * g + 1024 * b) ltac:(change (2 ^ Z.of_nat 15) with 32768; lia)) as E.
  cbv beta zeta in E. apply Z.eqb_eq in E.
  replace ((r + 32 * g + 1024 * b) mod 32) with r in E by zify_div.
  replace ((r + 32 * g + 1024 * b) / 32 mod 32) with g in E by zify_div.
  replace ((r + 32 * g + 1024 * b) / 1024) with b in E by zify_div. exact E.
Qed.

(** Colour conversion pairs every pixel with its own samples.  In both
    formats pixel (r, c) of the 16 x 16 macroblock is computed from the luma
    entry (r mod 8, c mod 8) of the quarter it lies in and the chroma entry
    (r / 2, c / 2); 16-bit pixels have three 5-bit components and the mask
    bit, 24-bit ones three bytes in red, green, blue order. *)
Theorem colour_conversion_exact reg blk r c : 0 <= r < 16 -> 0 <= c < 16 ->
  let y := MULY (aget blk (128 + 64 * (2 * (r / 8) + c / 8) + 8 * (r mod 8) + c mod 8)) in
  let cr := aget blk (8 * (r / 2) + c / 2) in
  let cb := aget blk (64 + 8 * (r / 2) + c / 2) in
  let R := add32 y (MULR cr) in
  let G := add32 y (MULG2 cb cr) in
  let B := add32 y (MULB cb) in
  aget (yuv2rgb15 reg blk) (16 * r + c)
    = CLAMP_SCALE5 R + 32 * CLAMP_SCALE5 G + 1024 * CLAMP_SCALE5 B + (if tst reg MDEC0_STP then 0x8000 else 0) /\
  (0 <= CLAMP_SCALE5 R < 32 /\ 0 <= CLAMP_SCALE5 G < 32 /\ 0 <= CLAMP_SCALE5 B < 32) /\
  (forall k, 0 <= k < 3 -> aget (yuv2rgb24 blk) (3 * (16 * r + c) + k)
    = aget [CLAMP_SCALE8 R; CLAMP_SCALE8 G; CLAMP_SCALE8 B] k) /\
  is_u8 (CLAMP_SCALE8 R) /\ is_u8 (CLAMP_SCALE8 G) /\ is_u8 (CLAMP_SCALE8 B).
Proof.
  intros Hr Hc y cr cb R G B.
  assert (Erow : (16 * r + c) / 16 = r) by zify_div. assert (Ecol : (16 * r + c) mod 16 = c) by zify_div.
  assert (E5 : forall v, 0 <= CLAMP_SCALE5 v < 32) by (intros v; unfold CLAMP_SCALE5, clamp5; pose proof (clamp_to_range 0 31 (SCALER v 23 + 16)); lia).
  assert (E8 : forall v, is_u8 (CLAMP_SCALE8 v)) by (intros v; unfold CLAMP_SCALE8, clamp8, is_u8; pose proof (clamp_to_range 0 255 (SCALER v 20 + 128)); lia).
  split; [|split; [split; [apply E5 | split; apply E5] | split; [|split; [apply E8 | split; apply E8] ] ] ].
  - unfold yuv2rgb15. rewrite yuv_image_exact. unfold aget at 1. rewrite anth_map_zseq by lia.
    unfold yuv_pixel. rewrite Erow, Ecol. unfold chroma_index, luma_index. cbv zeta.
    rewrite Z.add_assoc. fold cr cb. unfold pixel15. fold y. cbv zeta. fold y R G B.
    apply pack15; [destruct (tst reg MDEC0_STP); [right | left]; reflexivity | apply E5..].
  - intros k Hk. unfold yuv2rgb24. rewrite yuv_image_exact, nth_concat_triples by (reflexivity || lia).
    unfold yuv_pixel. rewrite Erow, Ecol. unfold chroma_index, luma_index. cbv zeta.
    rewrite Z.add_assoc. reflexivity.
Qed.

(** ** Table uploads *)

(** Byte [i] of a list of words in memory order. *)
Definition byte_of (ws : list Z) (i : Z) : Z := u8 (Z.shiftr (aget ws (i / 4)) (8 * (i mod 4))).

Lemma write_word l k w i : 0 <= k -> k + 4 <= zlen l -> 0 <= i ->
  aget (write_at l k (word_bytes w)) i = if (k <=? i) && (i <? k + 4) then u8 (Z.shiftr w (8 * (i - k))) else aget l i.
Proof.
  intros Hk Hl Hi. unfold write_at. change (zseq (length (word_bytes w))) with [0; 1; 2; 3]. cbn [fold_left].
  unfold aget at 1. rewrite !anth_aset by (rewrite ?zlen_aset; lia).
  destruct (Z.leb_spec k i), (Z.ltb_spec i (k + 4)); cbn [andb]; split_addr; subst; try reflexivity; try lia.
  - replace (k + 3 - k) with 3 by lia. reflexivity.
  - replace (k + 2 - k) with 2 by lia. reflexivity.
  - replace (k + 1 - k) with 1 by lia. reflexivity.
  - replace (k + 0 - k) with 0 by lia. change (8 * 0) with 0. rewrite Z.shiftr_0_r. reflexivity.
Qed.

Lemma write_at_length l k vs : zlen (write_at l k vs) = zlen l.
Proof.
  unfold write_at. generalize (zseq (length vs)). intros js. revert l.
  induction js as [|j js IH]; intros l; cbn [fold_left]; [reflexivity | rewrite IH; apply zlen_aset].
Qed.

(** The table words received so far. *)
Record receiving (j r : Z) (uv : bool) (m : Mdec) : Prop := {
  rc_state : fifo_state m = MDEC_STATE_RECV_QUANT;
  rc_pos : qt_pos m = 4 * j;
  rc_left : fifo_remaining m = r;
  rc_uv : qt_has_uv m = uv;
  rc_len : zlen (qt_buffer m) = 128
}.

Lemma recv_quant_step j r uv w m : receiving j r uv m -> 0 <= j < 32 -> 1 < r ->
  receiving (j + 1) (r - 1) uv (MDEC_WriteCommand w m) /\
  (forall i, 0 <= i -> aget (qt_buffer (MDEC_WriteCommand w m)) i
     = if (4 * j <=? i) && (i <? 4 * j + 4) then u8 (Z.shiftr w (8 * (i - 4 * j))) else aget (qt_buffer m) i).
Proof.
  intros [Hs Hp Hr Hu Hl] Hj Hr1. unfold MDEC_WriteCommand. rewrite Hs. unfold recv_quant. rewrite Hp.
  rewrite (proj2 (Z.leb_le (4 * j + 4) 128)) by lia. cbv zeta.
  set (m1 := m <| qt_buffer ::= _ |> <| qt_pos ::= _ |>).
  change (fifo_remaining (m1 <| fifo_remaining ::= fun n => n - 1 |>)) with (fifo_remaining m - 1).
  rewrite (proj2 (Z.leb_gt (fifo_remaining m - 1) 0)) by lia. split.
  - split; try assumption.
    + change (4 + qt_pos m = 4 * (j + 1)). lia.
    + change (fifo_remaining m - 1 = r - 1). lia.
    + change (zlen (write_at (qt_buffer m) (4 * j) (word_bytes w)) = 128). rewrite write_at_length. exact Hl.
  - intros i Hi. change (qt_buffer (m1 <| fifo_remaining ::= fun n => n - 1 |>)) with (write_at (qt_buffer m) (4 * j) (word_bytes w)).
    apply write_word; lia.
Qed.

Lemma recv_quant_last j uv w m : receiving j 1 uv m -> 0 <= j < 32 ->
  exists buf, zlen buf = 128 /\
    (forall i, 0 <= i -> aget buf i
      = if (4 * j <=? i) && (i <? 4 * j + 4) then u8 (Z.shiftr w (8 * (i - 4 * j))) else aget (qt_buffer m) i) /\
    fifo_state (MDEC_WriteCommand w m) = MDEC_STATE_IDLE /\
    iq_y (MDEC_WriteCommand w m) = iqtab_init (aget buf) /\
    iq_uv (MDEC_WriteCommand w m) = iqtab_init (fun i => aget buf (if uv then 64 + i else i)).
Proof.
  intros [Hs Hp Hr Hu Hl] Hj. exists (write_at (qt_buffer m) (4 * j) (word_bytes w)).
  split; [rewrite write_at_length; exact Hl|]. split; [intros i Hi; apply write_word; lia|].
  unfold MDEC_WriteCommand. rewrite Hs. unfold recv_quant. rewrite Hp.
  rewrite (proj2 (Z.leb_le (4 * j + 4) 128)) by lia. cbv zeta.
  set (m1 := m <| qt_buffer ::= _ |> <| qt_pos ::= _ |>).
  change (fifo_remaining (m1 <| fifo_remaining ::= fun n => n - 1 |>)) with (fifo_remaining m - 1). rewrite Hr.
  change (1 - 1 <=? 0) with true. cbv iota. split; [reflexivity|]. split; [reflexivity|].
  change (qt_has_uv (m1 <| fifo_remaining ::= fun n => n - 1 |>)) with (qt_has_uv m). rewrite Hu. reflexivity.
Qed.

Lemma byte_of_cons w ws i : 4 <= i -> byte_of (w :: ws) i = byte_of ws (i - 4).
Proof.
  intros Hi. unfold byte_of. replace ((i - 4) mod 4) with (i mod 4) by zify_div. f_equal. f_equal.
  unfold aget, anth. replace (Z.to_nat (i / 4)) with (S (Z.to_nat ((i - 4) / 4))) by zify_div. reflexivity.
Qed.

Lemma recv_quant_run uv ws : forall j m, receiving j (Z.of_nat (length ws)) uv m -> ws <> [] ->
  0 <= j -> j + Z.of_nat (length ws) <= 32 ->
  let m' := fold_left (fun m w => MDEC_WriteCommand w m) ws m in
  exists buf, (forall i, 0 <= i -> aget buf i
      = if (4 * j <=? i) && (i <? 4 * (j + Z.of_nat (length ws))) then byte_of ws (i - 4 * j) else aget (qt_buffer m) i) /\
    fifo_state m' = MDEC_STATE_IDLE /\ iq_y m' = iqtab_init (aget buf) /\
    iq_uv m' = iqtab_init (fun i => aget buf (if uv then 64 + i else i)).
Proof.
  induction ws as [|w ws IH]; intros j m Hm Hne Hj Hb; [contradiction|]. cbn [length] in Hm, Hb |- *. cbv zeta. cbn [fold_left].
  assert (Hfirst : forall i, 4 * j <= i < 4 * j + 4 -> byte_of (w :: ws) (i - 4 * j) = u8 (Z.shiftr w (8 * (i - 4 * j)))).
  { intros i Hi. unfold byte_of. rewrite Z.div_small, Z.mod_small by lia. reflexivity. }
  destruct ws as [|w2 ws].
  - cbn [fold_left length]. destruct (recv_quant_last j uv w m Hm ltac:(lia)) as (buf & _ & Hbuf & H1 & H2 & H3).
    exists buf. split; [|split; [exact H1 | split; assumption] ]. intros i Hi. rewrite Hbuf by exact Hi.
    change (4 * (j + Z.of_nat 1)) with (4 * (j + 1)). replace (4 * (j + 1)) with (4 * j + 4) by lia.
    destruct (Z.leb_spec (4 * j) i), (Z.ltb_spec i (4 * j + 4)); cbn [andb]; try reflexivity. symmetry. apply Hfirst. lia.
  - destruct (recv_quant_step j _ uv w m Hm ltac:(lia) ltac:(cbn [length]; lia)) as [H1 H2].
    set (m1 := MDEC_WriteCommand w m) in *. clearbody m1.
    destruct (IH (j + 1) m1) as (buf & Hbuf & H3 & H4 & H5).
    { replace (Z.of_nat (length (w2 :: ws))) with (Z.of_nat (S (length (w2 :: ws))) - 1) by lia. exact H1. }
    { discriminate. } { lia. } { lia. }
    exists buf. split; [|split; [exact H3 | split; assumption] ]. intros i Hi. rewrite Hbuf by exact Hi.
    replace (4 * (j + 1 + Z.of_nat (length (w2 :: ws)))) with (4 * (j + Z.of_nat (S (length (w2 :: ws))))) by lia.
    destruct (Z.leb_spec (4 * j) i), (Z.leb_spec (4 * (j + 1)) i), (Z.ltb_spec i (4 * (j + Z.of_nat (S (length (w2 :: ws))))));
      cbn [andb]; try lia; try (rewrite H2 by exact Hi).
    + rewrite (byte_of_cons w (w2 :: ws)) by lia. f_equal. lia.
    + rewrite (proj2 (Z.leb_le _ _)), (proj2 (Z.ltb_ge _ _)) by lia. reflexivity.
    + rewrite (proj2 (Z.leb_le _ _)), (proj2 (Z.ltb_lt _ _)) by lia. cbn [andb]. symmetry. apply Hfirst. lia.
    + rewrite (proj2 (Z.leb_gt _ _)) by lia. reflexivity.
Qed.

Lemma iqtab_init_ext f g : (forall i, 0 <= i < 64 -> f i = g i) -> iqtab_init f = iqtab_init g.
Proof.
  intros H. unfold iqtab_init. apply map_ext_in. intros i Hi. apply in_zseq in Hi. rewrite H by lia. reflexivity.
Qed.

(** A DMA upload of the quantisation tables, as an equation. *)
Lemma dma0_quant adr bcr m y : Z.land (Z.shiftr (reg0 m) 29) 7 = 2 ->
  u32 (Z.land adr 0x1FFFFC + dma_words bcr * 4) <= MDEC_RAM_SIZE ->
  let m' := fst (MDEC_DMA0 adr bcr 0x01000201 (m, y)) in
  iq_y m' = iqtab_init (fun i => rd8 (psx_ram y) (Z.land adr 0x1FFFFC + i)) /\
  iq_uv m' = iqtab_init (fun i => rd8 (psx_ram y) (ram_table_uv (dma_words bcr) (Z.land adr 0x1FFFFC) i)).
Proof.
  intros Hc Hfit. cbv zeta. unfold MDEC_DMA0. cbn [fst snd upd_mdec]. cbv zeta.
  change (0x01000201 =? 0x01000201) with true. cbn [negb]. rewrite (proj2 (Z.ltb_ge _ _)) by exact Hfit.
  rewrite Hc. split; reflexivity.
Qed.

Lemma new_command_quant data m : fifo_state m = MDEC_STATE_IDLE -> zlen (qt_buffer m) = 128 ->
  Z.land (Z.shiftr data 29) 7 = 2 ->
  receiving 0 (if tst data 1 then 32 else 16) (tst data 1) (MDEC_WriteCommand data m) /\
  reg0 (MDEC_WriteCommand data m) = data.
Proof.
  intros Hs Hl Hc. unfold MDEC_WriteCommand. rewrite Hs. unfold new_command. rewrite Hc.
  split; [|reflexivity]. split; try reflexivity. exact Hl.
Qed.

(** The two ways a program can load the quantisation tables agree: the
    command written to the register of an idle decoder and the table written
    word by word ends idle with exactly the two tables that a DMA transfer of
    the same words from main RAM loads, with one table (16 words, used for
    luma and chroma) or two (32 words). *)
Theorem quant_upload_paths_agree data ws adr bcr m y :
  fifo_state m = MDEC_STATE_IDLE -> zlen (qt_buffer m) = 128 -> Z.land (Z.shiftr data 29) 7 = 2 ->
  Z.of_nat (length ws) = (if tst data 1 then 32 else 16) -> dma_words bcr = Z.of_nat (length ws) ->
  u32 (Z.land adr 0x1FFFFC + dma_words bcr * 4) <= MDEC_RAM_SIZE ->
  (forall i, 0 <= i < 4 * Z.of_nat (length ws) -> rd8 (psx_ram y) (Z.land adr 0x1FFFFC + i) = byte_of ws i) ->
  let start := MDEC_WriteCommand data m in
  let by_register := fold_left (fun m w => MDEC_WriteCommand w m) ws start in
  let by_dma := fst (MDEC_DMA0 adr bcr 0x01000201 (start, y)) in
  fifo_state by_register = MDEC_STATE_IDLE /\ iq_y by_register = iq_y by_dma /\ iq_uv by_register = iq_uv by_dma.
Proof.
  intros Hs Hl Hc Hn Hw Hfit Hram. cbv zeta.
  destruct (new_command_quant data m Hs Hl Hc) as [Hrec Hreg].
  destruct (dma0_quant adr bcr (MDEC_WriteCommand data m) y) as [Hy Huv]; [rewrite Hreg; exact Hc | exact Hfit |].
  rewrite <- Hn in Hrec. set (b := tst data 1) in *.
  assert (Hb : Z.of_nat (length ws) = 32 /\ b = true \/ Z.of_nat (length ws) = 16 /\ b = false) by (destruct b; auto).
  destruct (recv_quant_run b ws 0 _ Hrec) as (buf & Hbuf & H1 & H2 & H3);
    [intros ->; cbn in Hb; lia | lia | lia |].
  assert (Hget : forall i, 0 <= i < 4 * Z.of_nat (length ws) -> aget buf i = rd8 (psx_ram y) (Z.land adr 0x1FFFFC + i)).
  { intros i Hi. rewrite Hbuf, (proj2 (Z.leb_le _ _)), (proj2 (Z.ltb_lt _ _)) by lia. cbn [andb].
    rewrite Hram by exact Hi. f_equal. lia. }
  split; [exact H1|]. rewrite Hy, Huv, H2, H3. unfold ram_table_uv. rewrite Hw.
  split; apply iqtab_init_ext; intros i Hi; [apply Hget; lia|].
  destruct Hb as [ [Hlen ->] | [Hlen ->] ]; rewrite Hlen; rewrite Hget by lia; f_equal; cbn; lia.
Qed.

(** A table upload by DMA leaves the register interface as it is. *)
Lemma dma0_table_keeps adr bcr m y :
  Z.land (Z.shiftr (reg0 m) 29) 7 = 2 \/ Z.land (Z.shiftr (reg0 m) 29) 7 = 3 ->
  let m' := fst (MDEC_DMA0 adr bcr 0x01000201 (m, y)) in
  fifo_state m' = fifo_state m /\ fifo_remaining m' = fifo_remaining m /\ reg0 m' = reg0 m.
Proof.
  intros Hc. cbv zeta. unfold MDEC_DMA0. cbn [fst snd upd_mdec]. cbv zeta.
  change (0x01000201 =? 0x01000201) with true. cbn [negb].
  destruct (MDEC_RAM_SIZE <? _); [split; [|split]; reflexivity|].
  destruct Hc as [-> | ->]; (split; [|split]; reflexivity).
Qed.

(** A receiving register takes every word as data. *)
Lemma receiving_swallows next m : 1 < fifo_remaining m ->
  (fifo_state m = MDEC_STATE_RECV_QUANT \/ fifo_state m = MDEC_STATE_RECV_SCALE) ->
  reg0 (MDEC_WriteCommand next m) = reg0 m /\ fifo_state (MDEC_WriteCommand next m) = fifo_state m.
Proof.
  intros Hr Hs. unfold MDEC_WriteCommand. destruct Hs as [Hs | Hs]; rewrite Hs.
  - unfold recv_quant. set (m1 := if qt_pos m + 4 <=? 128 then _ else m). cbv zeta.
    assert (H1 : fifo_remaining m1 = fifo_remaining m /\ reg0 m1 = reg0 m /\ fifo_state m1 = fifo_state m)
      by (subst m1; destruct (_ <=? 128); (split; [|split]; reflexivity)).
    destruct H1 as (H1 & H2 & H3). clearbody m1.
    change (fifo_remaining (m1 <| fifo_remaining ::= fun n => n - 1 |>)) with (fifo_remaining m1 - 1).
    rewrite (proj2 (Z.leb_gt _ _)) by lia. rewrite <- Hs. split; [exact H2 | exact H3].
  - unfold recv_scale. set (m1 := if scale_pos m + 2 <=? 64 then _ else m). cbv zeta.
    assert (H1 : fifo_remaining m1 = fifo_remaining m /\ reg0 m1 = reg0 m /\ fifo_state m1 = fifo_state m)
      by (subst m1; destruct (_ <=? 64); (split; [|split]; reflexivity)).
    destruct H1 as (H1 & H2 & H3). clearbody m1.
    change (fifo_remaining (m1 <| fifo_remaining ::= fun n => n - 1 |>)) with (fifo_remaining m1 - 1).
    rewrite (proj2 (Z.leb_gt _ _)) by lia. rewrite <- Hs. split; [exact H2 | exact H3].
Qed.

(** A table loaded by DMA leaves the register interface waiting for the
    same table: the command word 2 or 3 put the register into the receiving
    state, the DMA transfer does not take it out, and so the next command
    written to the register is taken as a word of the table and does not reach
    [reg0]. *)
Theorem upload_swallows_command data next adr bcr m y :
  fifo_state m = MDEC_STATE_IDLE ->
  (Z.land (Z.shiftr data 29) 7 = 2 \/ Z.land (Z.shiftr data 29) 7 = 3) ->
  let after := fst (MDEC_DMA0 adr bcr 0x01000201 (MDEC_WriteCommand data m, y)) in
  fifo_state after <> MDEC_STATE_IDLE /\
  reg0 (MDEC_WriteCommand next after) = data /\
  fifo_state (MDEC_WriteCommand next after) = fifo_state after.
Proof.
  intros Hs Hc. cbv zeta.
  assert (Hstart : reg0 (MDEC_WriteCommand data m) = data /\ 1 < fifo_remaining (MDEC_WriteCommand data m) /\
    (fifo_state (MDEC_WriteCommand data m) = MDEC_STATE_RECV_QUANT \/ fifo_state (MDEC_WriteCommand data m) = MDEC_STATE_RECV_SCALE)).
  { unfold MDEC_WriteCommand, new_command. rewrite Hs. destruct Hc as [-> | ->].
    - split; [reflexivity|]. split; [|left; reflexivity]. cbn. destruct (tst data 1); lia.
    - split; [reflexivity|]. split; [cbn; lia | right; reflexivity]. }
  destruct Hstart as (Hreg & Hrem & Hst).
  destruct (dma0_table_keeps adr bcr (MDEC_WriteCommand data m) y) as (H1 & H2 & H3); [rewrite Hreg; exact Hc|].
  destruct (receiving_swallows next (fst (MDEC_DMA0 adr bcr 0x01000201 (MDEC_WriteCommand data m, y)))) as [H4 H5];
    [rewrite H2; exact Hrem | rewrite H1; exact Hst|].
  split; [|split; [rewrite H4, H3; exact Hreg | exact H5] ].
  rewrite H1. destruct Hst as [-> | ->]; discriminate.
Qed.

(** ** DMA of decoded blocks *)

(** What a step may do to the system: write main RAM. *)
Definition same_jit (y y' : Sys) : Prop :=
  jit_l1_ram y' = jit_l1_ram y /\ jit_page_gen y' = jit_page_gen y.

Lemma flush_same_jit bb image size x :
  same_jit (snd x) (snd (snd (flush_partial bb image size x))).
Proof.
  unfold flush_partial. cbv zeta. destruct (_ =? 0); [split; reflexivity|]. split; reflexivity.
Qed.

Lemma decode_loop_same_jit bb fuel : forall image size x i s x',
  decode_loop fuel bb image size x = Some (i, s, x') -> same_jit (snd x) (snd x').
Proof.
  induction fuel as [|fuel IH]; intros image size x i s x' H; cbn [decode_loop] in H.
  - injection H as <- <- <-. split; reflexivity.
  - destruct (_ && _); [|injection H as <- <- <-; split; reflexivity].
    destruct (decode_macroblock x) as [ [bs p] |]; [|discriminate].
    apply IH in H. exact H.
Qed.

Lemma decode_partial_same_jit image size x x' : decode_partial image size x = Some x' -> same_jit (snd x) (snd x').
Proof.
  unfold decode_partial. destruct (_ && _); [|intros H; injection H as <-; split; reflexivity].
  destruct (decode_macroblock x) as [ [bs p] |]; [|discriminate].
  cbv zeta. intros H. injection H as <-. split; reflexivity.
Qed.

Lemma mdec_pages_small adr n p : In p (mdec_pages adr n) -> 0 <= adr -> 0 <= p < 512.
Proof.
  unfold mdec_pages. intros Hin Hadr. apply in_map_iff in Hin as (k & <- & Hk). apply in_zseq in Hk.
  change (Z.shiftr MDEC_RAM_SIZE 12) with 512 in Hk.
  assert (0 <= Z.shiftr adr 12) by (apply Z.shiftr_nonneg; exact Hadr). lia.
Qed.

Lemma invalidate_low_pages ps : forall y k, Forall (fun p => 0 <= p < 512) ps -> 1 <= k ->
  aget (jit_page_gen (fold_left (fun y p => jit_invalidate_page p y) ps y)) k = aget (jit_page_gen y) k.
Proof.
  induction ps as [|p ps IH]; intros y k Hps Hk; cbn [fold_left]; [reflexivity|].
  inversion Hps as [|? ? Hp Hps']; subst. rewrite IH by assumption. unfold jit_invalidate_page.
  rewrite Z.shiftr_div_pow2 by lia. change (2 ^ 12) with 4096. rewrite Z.div_small by lia.
  destruct (_ && _); [|reflexivity].
  change (jit_page_gen (y <| jit_page_gen ::= _ |>)) with (aset (jit_page_gen y) 0 (u8 (aget (jit_page_gen y) 0 + 1))).
  rewrite aget_aset_ne by lia. reflexivity.
Qed.

(** A decoded picture written to main RAM leaves the translated code of
    every page but the first as it was: the page loop of [MDEC_DMA1] hands page
    numbers to [jit_invalidate_page], which takes an address, so that only the
    generation of page 0 can change, whatever was written. *)
Theorem dma1_invalidates_page_zero adr bcr chcr x page : 1 <= page ->
  aget (jit_page_gen (snd (MDEC_DMA1 adr bcr chcr x))) page = aget (jit_page_gen (snd x)) page.
Proof.
  intros Hp. unfold MDEC_DMA1. cbv zeta.
  destruct (negb (chcr =? 0x01000200)); [reflexivity|]. destruct (_ || _); [reflexivity|].
  destruct (_ <? _); [reflexivity|]. set (bb := block_bytes_of _). set (a := Z.land adr 0x1FFFFC).
  pose proof (flush_same_jit bb a (u32 (dma_words bcr * 4)) x) as H1.
  destruct (flush_partial bb a _ x) as [ [image size] x1]. cbn [snd] in H1.
  pose proof (decode_loop_same_jit bb (Z.to_nat (size / bb)) image size x1) as H2.
  destruct (decode_loop _ bb image size x1) as [ [ [image2 size2] x2] |]; [|cbn [snd upd_mdec]; f_equal; apply H1].
  specialize (H2 _ _ _ eq_refl).
  pose proof (decode_partial_same_jit image2 size2 x2) as H3.
  destruct (decode_partial image2 size2 x2) as [x3 |]; [|cbn [snd upd_mdec]; rewrite (proj2 H2), (proj2 H1); reflexivity].
  specialize (H3 _ eq_refl).
  transitivity (aget (jit_page_gen (mdec_invalidate a (dma_words bcr) (snd x3))) page).
  { cbn [fst]. destruct (rl_pending (fst x3)); reflexivity. }
  unfold mdec_invalidate. rewrite invalidate_low_pages.
  - rewrite (proj2 H3), (proj2 H2), (proj2 H1). reflexivity.
  - apply List.Forall_forall. intros p Hin. apply (mdec_pages_small a (dma_words bcr) p Hin).
    apply Z.land_nonneg. right. lia.
  - exact Hp.
Qed.

Lemma block_bytes_of_le d : block_bytes_of d <= 768.
Proof.
  destruct d as [|q|q]; [discriminate | | discriminate].
  destruct q as [q | q |]; [discriminate | | discriminate]. destruct q; discriminate.
Qed.

(** The rest of a block that does not fit one transfer is lost: when the
    next transfer is shorter than what the block buffer still holds, it
    receives its [size] bytes, nothing more is decoded, and the buffer position
    becomes 0, so that the bytes after them are never written. *)
Theorem partial_block_lost adr bcr x :
  let m := fst x in
  let size := u32 (dma_words bcr * 4) in
  let held := block_bytes_of (mdec_depth m) - block_buffer_pos m in
  tst (reg1 m) MDEC1_BUSY = true -> rl_pending m = true ->
  0 < block_buffer_pos m -> 0 < size < held ->
  u32 (Z.land adr 0x1FFFFC + size) <= MDEC_RAM_SIZE ->
  let x' := MDEC_DMA1 adr bcr 0x01000200 x in
  psx_ram (snd x') = wr_bytes (psx_ram (snd x)) (Z.land adr 0x1FFFFC)
    (take (Z.to_nat size) (skipn (Z.to_nat (block_buffer_pos m)) (block_buffer m))) /\
  rl (fst x') = rl m /\ block_buffer_pos (fst x') = 0.
Proof.
  cbv zeta. intros Hbusy Hpend Hpos Hsize Hfit. unfold MDEC_DMA1. cbv zeta.
  change (0x01000200 =? 0x01000200) with true. cbn [negb]. rewrite Hbusy, Hpend. cbn [negb orb].
  rewrite (proj2 (Z.ltb_ge _ _)) by exact Hfit. set (bb := block_bytes_of _) in *.
  set (size := u32 (dma_words bcr * 4)) in *. set (a := Z.land adr 0x1FFFFC).
  assert (Hbb : bb <= 768) by apply block_bytes_of_le.
  unfold flush_partial. rewrite (proj2 (Z.eqb_neq _ _)) by lia. cbv zeta.
  rewrite (u32_small (bb - block_buffer_pos (fst x))) by (unfold is_u32; lia).
  rewrite (proj2 (Z.ltb_lt size _)) by lia. rewrite Z.sub_diag. change (u32 0) with 0.
  change (Z.to_nat (0 / bb)) with 0%nat. cbn [decode_loop]. unfold decode_partial. change (0 =? 0) with true. cbn [negb andb].
  set (bs := take _ _).
  assert (Hp : rl_pending (fst (store_ram a bs (upd_mdec (fun m => m <| block_buffer_pos := 0 |>) x))) = true) by exact Hpend.
  cbn [fst snd]. rewrite Hp. split; [|split; reflexivity].
  cbn [snd]. unfold mdec_invalidate. generalize (mdec_pages a (dma_words bcr)). intros ps.
  transitivity (psx_ram (snd (store_ram a bs (upd_mdec (fun m => m <| block_buffer_pos := 0 |>) x)))); [|reflexivity].
  generalize (snd (store_ram a bs (upd_mdec (fun m => m <| block_buffer_pos := 0 |>) x))).
  induction ps as [|p ps IH]; intros y; cbn [fold_left]; [reflexivity|]. rewrite IH.
  unfold jit_invalidate_page. destruct (_ && _); reflexivity.
Qed.

(** ** Witnesses *)

Definition mdec0 : Mdec :=
  MDEC_Init (mkMdec 0 0 RL_NULL 0 0 0 [] 0 0 0 0 0 0 MDEC_STATE_IDLE 0 [] 0 false [] 0 [] [] [] (repeat 0 64) ∅ 0 false).

(** A block with one value, at index 3, and its end mark. *)
Definition sample_codes (p : Z) : Z := if p =? 0 then 0x0805 else 0xFE00.

Lemma quant_block_exact_witness :
  exists n : nat, (n <= 63)%nat /\ 63 <= reach 0 (codes_at sample_codes 0 n) /\
    (forall m, (m < n)%nat -> reach 0 (codes_at sample_codes 0 m) < 63) /\
    quant_block sample_codes (repeat 16 64) 0x0420 0
    = (idct_full (dequantise (repeat 16 64) (RLE_RUN 0x0420) 0 (codes_at sample_codes 0 n)
         (aset (repeat 0 64) 0 (SCALER (mul32 (RLE_VAL 0x0420) (aget (repeat 16 64) 0)) 9))), 0 + Z.of_nat n).
Proof.
  apply (quant_block_exact sample_codes (repeat 16 64) 0x0420 0).
  intros q. unfold sample_codes. destruct (q =? 0); lia.
Defined.

Definition sample_blocks : list Z := map (fun i => i - 128) (zseq 384).
Lemma colour_conversion_exact_witness :
  aget (yuv2rgb24 sample_blocks) (3 * (16 * 9 + 13) + 0) = CLAMP_SCALE8
    (add32 (MULY (aget sample_blocks (128 + 64 * (2 * (9 / 8) + 13 / 8) + 8 * (9 mod 8) + 13 mod 8)))
           (MULR (aget sample_blocks (8 * (9 / 2) + 13 / 2)))).
Proof.
  destruct (colour_conversion_exact MDEC0_STP sample_blocks 9 13 ltac:(lia) ltac:(lia)) as (_ & _ & H & _).
  exact (H 0 ltac:(lia)).
Defined.

Definition sample_table : list Z := map (fun i => 0x04030201 + 0x10101010 * i) (zseq 16).
Definition table_sys : Sys := sys0 <| psx_ram := wr_bytes ∅ 0x2000 (map (byte_of sample_table) (zseq 64)) |>.

Lemma quant_upload_paths_agree_witness :
  let start := MDEC_WriteCommand 0x40000000 mdec0 in
  let by_register := fold_left (fun m w => MDEC_WriteCommand w m) sample_table start in
  let by_dma := fst (MDEC_DMA0 0x2000 0x10010 0x01000201 (start, table_sys)) in
  fifo_state by_register = MDEC_STATE_IDLE /\ iq_y by_register = iq_y by_dma /\ iq_uv by_register = iq_uv by_dma.
Proof.
  apply (quant_upload_paths_agree 0x40000000 sample_table 0x2000 0x10010 mdec0 table_sys);
    [reflexivity | reflexivity | reflexivity | reflexivity | reflexivity | vm_compute; discriminate |].
  assert (H : forallb (fun i => rd8 (psx_ram table_sys) (0x2000 + i) =? byte_of sample_table i) (zseq 64) = true)
    by (vm_compute; reflexivity).
  rewrite forallb_forall in H. intros i Hi. apply Z.eqb_eq, (H i), in_zseq. exact Hi.
Defined.

Lemma upload_swallows_command_witness :
  let after := fst (MDEC_DMA0 0x2000 0x10010 0x01000201 (MDEC_WriteCommand 0x40000000 mdec0, table_sys)) in
  fifo_state after <> MDEC_STATE_IDLE /\
  reg0 (MDEC_WriteCommand 0x60000000 after) = 0x40000000 /\
  fifo_state (MDEC_WriteCommand 0x60000000 after) = fifo_state after.
Proof.
  apply (upload_swallows_command 0x40000000 0x60000000 0x2000 0x10010 mdec0 table_sys); [reflexivity | left; reflexivity].
Defined.

(** A decode command, its data at 0x2000, and a picture to 0x10000. *)
Definition decoding : MdecSys := MDEC_DMA0 0x2000 0x000C0020 0x01000201 (MDEC_WriteCommand 0x38000180 mdec0, table_sys).

Lemma dma1_invalidates_page_zero_witness :
  aget (jit_page_gen (snd (MDEC_DMA1 0x10000 0x10020 0x01000200 decoding))) 16 = aget (jit_page_gen (snd decoding)) 16.
Proof. apply (dma1_invalidates_page_zero 0x10000 0x10020 0x01000200 decoding 16). lia. Defined.

(** The first transfer takes 64 bytes of a 512-byte block, the second 32. *)
Definition half_block : MdecSys :=
  ((fst decoding) <| block_buffer_pos := 64 |>, snd decoding).

Lemma partial_block_lost_witness :
  let x' := MDEC_DMA1 0x10040 0x10008 0x01000200 half_block in
  rl (fst x') = rl (fst half_block) /\ block_buffer_pos (fst x') = 0.
Proof.
  apply (partial_block_lost 0x10040 0x10008 half_block);
    [vm_compute; reflexivity | vm_compute; reflexivity | vm_compute; reflexivity | vm_compute; split; reflexivity | vm_compute; discriminate].
Defined.
