(* ===== verification/Gpu.v ===== *)
(** * The graphics processor's command interface ([src/gpu_commands.c])

    The GP0 command buffer with its three modes (parameters of a command,
    data of a VRAM upload, vertices of a polyline), the drawing environment,
    the GP1 commands, reads and the status register
    ([platform/ps2/gpu_ps2_core.c]) and DMA channel 2
    ([platform/ps2/gpu_ps2_dma.c]), over the shadow copy of the video memory.
    The renderer that turns commands into packets for the console's graphics
    chip is the interface [GpuBackend]; the shadow copy is taken to be
    allocated.  Frame statistics, the overlay and the trace recorder are left
    out. *)

From S2P Require Import Prelude Scheduler System Memory.

(** ** State ([include/gpu_state.h]) *)

Record TexState := mkTexState {
  tex_page_x : Z; tex_page_y : Z; tex_page_format : Z; semi_trans_mode : Z;
  tex_flip_x : Z; tex_flip_y : Z; dither_enabled : Z;
  tex_win_mask_x : Z; tex_win_mask_y : Z; tex_win_off_x : Z; tex_win_off_y : Z
}.
#[export] Instance eta_TexState : Eta TexState := fun t =>
  mkTexState (tex_page_x t) (tex_page_y t) (tex_page_format t) (semi_trans_mode t)
    (tex_flip_x t) (tex_flip_y t) (dither_enabled t)
    (tex_win_mask_x t) (tex_win_mask_y t) (tex_win_off_x t) (tex_win_off_y t).

Record DrawEnv := mkDrawEnv {
  draw_clip_x1 : Z; draw_clip_y1 : Z; draw_clip_x2 : Z; draw_clip_y2 : Z;
  draw_offset_x : Z; draw_offset_y : Z;
  mask_set_bit : Z; mask_check_bit : Z; cached_base_test : Z;
  raw_tex_window : Z; raw_draw_area_tl : Z; raw_draw_area_br : Z; raw_draw_offset : Z
}.
#[export] Instance eta_DrawEnv : Eta DrawEnv := fun e =>
  mkDrawEnv (draw_clip_x1 e) (draw_clip_y1 e) (draw_clip_x2 e) (draw_clip_y2 e)
    (draw_offset_x e) (draw_offset_y e) (mask_set_bit e) (mask_check_bit e) (cached_base_test e)
    (raw_tex_window e) (raw_draw_area_tl e) (raw_draw_area_br e) (raw_draw_offset e).

(** The last argument of the commands that are skipped when repeated. *)
Record ParamCache := mkParamCache {
  cache_e1 : Z; cache_e3 : Z; cache_e4 : Z; cache_e5 : Z;
  cache_gp1_05 : Z; cache_gp1_06 : Z; cache_gp1_07 : Z; cache_gp1_08 : Z
}.
#[export] Instance eta_ParamCache : Eta ParamCache := fun c =>
  mkParamCache (cache_e1 c) (cache_e3 c) (cache_e4 c) (cache_e5 c)
    (cache_gp1_05 c) (cache_gp1_06 c) (cache_gp1_07 c) (cache_gp1_08 c).

Record VramTx := mkVramTx {
  gpu_transfer_words : Z; gpu_transfer_total : Z;
  vram_tx_x : Z; vram_tx_y : Z; vram_tx_w : Z; vram_tx_h : Z; vram_tx_pixel : Z
}.
#[export] Instance eta_VramTx : Eta VramTx := fun t =>
  mkVramTx (gpu_transfer_words t) (gpu_transfer_total t)
    (vram_tx_x t) (vram_tx_y t) (vram_tx_w t) (vram_tx_h t) (vram_tx_pixel t).

Record VramRd := mkVramRd {
  vram_read_x : Z; vram_read_y : Z; vram_read_w : Z; vram_read_h : Z;
  vram_read_remaining : Z; vram_read_pixel : Z
}.
#[export] Instance eta_VramRd : Eta VramRd := fun t =>
  mkVramRd (vram_read_x t) (vram_read_y t) (vram_read_w t) (vram_read_h t)
    (vram_read_remaining t) (vram_read_pixel t).

Record Polyline := mkPolyline {
  polyline_active : bool; polyline_shaded : bool; polyline_semi_trans : bool;
  polyline_prev_color : Z; polyline_next_color : Z;
  polyline_prev_x : Z; polyline_prev_y : Z; polyline_expect_color : bool
}.
#[export] Instance eta_Polyline : Eta Polyline := fun p =>
  mkPolyline (polyline_active p) (polyline_shaded p) (polyline_semi_trans p)
    (polyline_prev_color p) (polyline_next_color p)
    (polyline_prev_x p) (polyline_prev_y p) (polyline_expect_color p).

Record CmdBuf := mkCmdBuf { gpu_cmd_remaining : Z; gpu_cmd_buffer : list Z; gpu_cmd_ptr : Z }.
#[export] Instance eta_CmdBuf : Eta CmdBuf := fun c =>
  mkCmdBuf (gpu_cmd_remaining c) (gpu_cmd_buffer c) (gpu_cmd_ptr c).

Record DisplayRegs := mkDisplayRegs {
  display_start_x : Z; display_start_y : Z; disp_range_y1 : Z; disp_range_y2 : Z
}.
#[export] Instance eta_DisplayRegs : Eta DisplayRegs := fun d =>
  mkDisplayRegs (display_start_x d) (display_start_y d) (disp_range_y1 d) (disp_range_y2 d).

(** [vram] is [psx_vram_shadow], by pixel index. *)
Record Gpu := mkGpu {
  gpu_stat : Z; gpu_read : Z; gp1_allow_2mb : Z; gpu_pending_vblank_flush : bool;
  gpu_busy_until : Z; vram_gen_counter : Z;
  tex : TexState; env : DrawEnv; pcache : ParamCache;
  tx : VramTx; rdx : VramRd; poly : Polyline; cmdb : CmdBuf; disp : DisplayRegs;
  vram : gmap Z Z
}.
#[export] Instance eta_Gpu : Eta Gpu := fun g =>
  mkGpu (gpu_stat g) (gpu_read g) (gp1_allow_2mb g) (gpu_pending_vblank_flush g)
    (gpu_busy_until g) (vram_gen_counter g) (tex g) (env g) (pcache g) (tx g) (rdx g)
    (poly g) (cmdb g) (disp g) (vram g).

Definition clear_gpu_param_cache : ParamCache :=
  let f := 0xFFFFFFFF in mkParamCache f f f f f f f f.

(** The initial values of [gpu_ps2_core.c] and [gpu_commands.c]. *)
Definition gpu_init : Gpu :=
  mkGpu 0x14802000 0 0 false 0 0 (mkTexState 0 0 2 0 0 0 0 0 0 0 0)
    (mkDrawEnv 0 0 640 480 0 0 0 0 0 0 0 0 0) clear_gpu_param_cache
    (mkVramTx 0 0 0 0 0 0 0) (mkVramRd 0 0 0 0 0 0) (mkPolyline false false false 0 0 0 0 false)
    (mkCmdBuf 0 (repeat 0 16) 0) (mkDisplayRegs 0 0 0 0) ∅.

(** ** Command sizes *)

(** Drawing commands, 00h to 7Fh. *)
Definition gpu_cmd_size_draw : list Z :=
  [1; 1; 3] ++ repeat 1 29
  ++ repeat 4 4 ++ repeat 7 4 ++ repeat 5 4 ++ repeat 9 4
  ++ repeat 6 4 ++ repeat 9 4 ++ repeat 8 4 ++ repeat 12 4
  ++ repeat 3 8 ++ repeat 0 8 ++ repeat 4 8 ++ repeat 0 8
  ++ repeat 3 4 ++ repeat 4 4 ++ repeat 2 4 ++ repeat 3 4
  ++ repeat 2 4 ++ repeat 3 4 ++ repeat 2 4 ++ repeat 3 4.

(** Copies, uploads, read-backs and settings, 80h to FFh. *)
Definition gpu_cmd_size_move : list Z :=
  repeat 4 32 ++ repeat 0 16 ++ repeat 1 16 ++ repeat 0 16 ++ repeat 1 16
  ++ repeat 1 16 ++ repeat 1 16.

Definition gpu_cmd_size_table : list Z := gpu_cmd_size_draw ++ gpu_cmd_size_move.
Definition gpu_cmd_size (c : Z) : Z := aget gpu_cmd_size_table c.

Definition GPU_GetCommandSize (c : Z) : Z :=
  let s := gpu_cmd_size (Z.land c 0xFF) in if s =? 0 then 1 else s.

(** ** The renderer *)

(** The calls whose effect stays in the renderer. *)
Inductive GpuCall :=
| C_Flush | C_VRAMWrite (word : Z) | C_VRAMFlush
| C_StartVRAMTransfer (x y w h : Z) | C_UploadShadowVRAM (x y w h : Z)
| C_UploadRegionFast (x y w h : Z) (words : list Z)
| C_SetScissor (x1 y1 x2 y2 : Z) | C_SetDisplayFB (x y : Z) | C_SetResolution (interlace mode : Z)
| C_SetMaskBit (set check : Z) | C_ClearVRAM (x1 y1 x2 y2 : Z)
| C_UpdateDisplay | C_InvalidateState | C_InvalidateTexCache | C_DirtyRegion (x y w h : Z)
| C_LineSegment (x0 y0 color0 x1 y1 color1 : Z) (shaded semi_trans : bool)
| C_FlushBatch | C_ResetPixels.

Definition GpuSys (R : Type) : Type := Gpu * R * Sys.

(** The functions of the renderer that answer, and the rest of the machine:
    the timers' divider and the scheduler's callbacks.  The calls see the
    drawing settings, the shadow copy and its generation; the words of a command
    are read through a pointer. *)
Class GpuBackend (R : Type) := {
  backend : TexState -> DrawEnv -> gmap Z Z -> Z -> GpuCall -> R -> R;
  Translate_GP0_to_GS : (Z -> Z) -> GpuSys R -> Z * GpuSys R;
  GPU_TryFastEmit : (Z -> Z) -> GpuSys R -> Z * GpuSys R;
  GPU_TryBatchAdd : (Z -> Z) -> GpuSys R -> Z * GpuSys R;
  GPU_Backend_TryFastPoly : (Z -> Z) -> GpuSys R -> Z * GpuSys R;
  GS_ReadbackRegion : Z -> Z -> Z -> Z -> GpuSys R -> option (Z -> Z);
  gpu_estimated_pixels : R -> Z;
  Timer0_RefreshDividerCache : GpuSys R -> GpuSys R;
  Sched_Tick_all : Z -> GpuSys R -> GpuSys R
}.

Section Gpu.
Context {R : Type} `{GpuBackend R}.
Implicit Types x : GpuSys R.

Definition gp x : Gpu := fst (fst x).
Definition sys x : Sys := snd x.
Definition upd_gpu (f : Gpu -> Gpu) x : GpuSys R := (f (gp x), snd (fst x), snd x).
Definition upd_rest (f : Sys -> Sys) x : GpuSys R := (fst x, f (snd x)).
Definition call (c : GpuCall) x : GpuSys R := (gp x, backend (tex (gp x)) (env (gp x)) (vram (gp x)) (vram_gen_counter (gp x)) c (snd (fst x)), snd x).

Definition upd_tx (f : VramTx -> VramTx) : GpuSys R -> GpuSys R := upd_gpu (fun g => g <| tx ::= f |>).
Definition upd_rdx (f : VramRd -> VramRd) : GpuSys R -> GpuSys R := upd_gpu (fun g => g <| rdx ::= f |>).
Definition upd_poly (f : Polyline -> Polyline) : GpuSys R -> GpuSys R := upd_gpu (fun g => g <| poly ::= f |>).
Definition upd_cmdb (f : CmdBuf -> CmdBuf) : GpuSys R -> GpuSys R := upd_gpu (fun g => g <| cmdb ::= f |>).
Definition upd_tex (f : TexState -> TexState) : GpuSys R -> GpuSys R := upd_gpu (fun g => g <| tex ::= f |>).
Definition upd_env (f : DrawEnv -> DrawEnv) : GpuSys R -> GpuSys R := upd_gpu (fun g => g <| env ::= f |>).
Definition upd_pcache (f : ParamCache -> ParamCache) : GpuSys R -> GpuSys R := upd_gpu (fun g => g <| pcache ::= f |>).
Definition upd_disp (f : DisplayRegs -> DisplayRegs) : GpuSys R -> GpuSys R := upd_gpu (fun g => g <| disp ::= f |>).
Definition set_stat (f : Z -> Z) : GpuSys R -> GpuSys R := upd_gpu (fun g => g <| gpu_stat ::= f |>).

Definition px (v : gmap Z Z) (i : Z) : Z := default 0 (v !! i).

(** ** Upload data *)

(** One halfword of an upload at the running pixel. *)
Definition store_pixel (p : Z) (g : Gpu) : Gpu :=
  let t := tx g in
  let total_pixels := s32 (vram_tx_w t * vram_tx_h t) in
  let g :=
    if vram_tx_pixel t <? total_pixels then
      let qx := vram_tx_x t + vram_tx_pixel t mod vram_tx_w t in
      let qy := vram_tx_y t + vram_tx_pixel t / vram_tx_w t in
      if (qx <? 1024) && (qy <? 512) then
        if (mask_check_bit (env g) =? 0) || negb (tst (px (vram g) (qy * 1024 + qx)) 0x8000)
        then g <| vram ::= <[qy * 1024 + qx := p]> |> else g
      else g
    else g in
  g <| tx ::= fun t => t <| vram_tx_pixel ::= Z.succ |> |>.

Definition transfer_store (data : Z) x : GpuSys R :=
  if 0 <? vram_tx_w (tx (gp x)) then
    let m := if mask_set_bit (env (gp x)) =? 0 then 0 else 0x8000 in
    let p0 := Z.lor (Z.land data 0xFFFF) m in
    let p1 := Z.lor (Z.shiftr data 16) m in
    upd_gpu (fun g => store_pixel p1 (store_pixel p0 g)) x
  else x.

Definition transfer_count (data : Z) x : GpuSys R :=
  let x := call (C_VRAMWrite data) x in
  let x := upd_tx (fun t => t <| gpu_transfer_words ::= Z.pred |>) x in
  if gpu_transfer_words (tx (gp x)) =? 0 then
    let x := call C_Flush (call C_VRAMFlush x) in
    let t := tx (gp x) in
    if 1024 <? vram_tx_x t + vram_tx_w t
    then call (C_UploadShadowVRAM 0 (vram_tx_y t) (vram_tx_x t + vram_tx_w t - 1024) (vram_tx_h t)) x
    else x
  else x.

Definition transfer_word (data : Z) x : GpuSys R := transfer_count data (transfer_store data x).

(** ** Polylines *)

Definition polyline_word (data : Z) x : GpuSys R :=
  let p := poly (gp x) in
  if Z.land data 0xF000F000 =? 0x50005000 then upd_poly (fun p => p <| polyline_active := false |>) x
  else if polyline_shaded p && polyline_expect_color p then
    upd_poly (fun p => p <| polyline_next_color := Z.land data 0xFFFFFF |> <| polyline_expect_color := false |>) x
  else
    let vx := s16 (Z.land data 0xFFFF) in
    let vy := s16 (Z.shiftr data 16) in
    let new_color := if polyline_shaded p then polyline_next_color p else polyline_prev_color p in
    let x := call (C_LineSegment (polyline_prev_x p) (polyline_prev_y p) (polyline_prev_color p)
                     vx vy new_color (polyline_shaded p) (polyline_semi_trans p)) x in
    upd_poly (fun p => p <| polyline_prev_x := vx |> <| polyline_prev_y := vy |> <| polyline_prev_color := new_color |>
      <| polyline_expect_color ::= fun e => if polyline_shaded p then true else e |>) x.

(** ** Complete commands *)

Definition size_or (n dflt : Z) : Z := if n =? 0 then dflt else n.

Definition start_load_image (xy wh : Z) x : GpuSys R :=
  let w := size_or (Z.land wh 0xFFFF) 1024 in
  let h := size_or (Z.shiftr wh 16) 512 in
  let words := u32 (w * h + 1) / 2 in
  let x := upd_tx (fun _ => mkVramTx words words (Z.land xy 0xFFFF) (Z.shiftr xy 16) w h 0) x in
  let x := upd_gpu (fun g => g <| vram_gen_counter ::= fun n => u32 (n + 1) |>) x in
  let x := call (C_DirtyRegion (Z.land xy 0xFFFF) (Z.shiftr xy 16) w h) x in
  call (C_StartVRAMTransfer (Z.land xy 0xFFFF) (Z.shiftr xy 16) w h) x.

(** [GPU_Backend_VRAMReadback]: the index is written whatever it is.  (A flush
    of an empty buffer does nothing, so the test before it is left out.) *)
Definition wrap_once (v limit : Z) : Z := if limit <=? v then v - limit else v.
Definition readback_row (pixels : Z -> Z) (rx ry w w_aligned : Z) (v : gmap Z Z) (row : Z) : gmap Z Z :=
  fold_left (fun v col =>
    <[wrap_once (ry + row) 512 * 1024 + wrap_once (rx + col) 1024 := Z.land (pixels (row * w_aligned + col)) 0x7FFF]> v)
    (zseq (Z.to_nat w)) v.
Definition GPU_Backend_VRAMReadback (rx ry w h : Z) x : GpuSys R :=
  if (w <=? 0) || (h <=? 0) then x
  else
    let x := call C_Flush x in
    let w_aligned := Z.land (w + 7) (Z.lnot 7) in
    match GS_ReadbackRegion rx ry w_aligned h x with
    | Some pixels => upd_gpu (fun g => g <| vram ::= fun v => fold_left (readback_row pixels rx ry w w_aligned) (zseq (Z.to_nat h)) v |>) x
    | None => x
    end.

Definition start_store_image (xy wh : Z) x : GpuSys R :=
  let w := size_or (Z.land wh 0xFFFF) 1024 in
  let h := size_or (Z.shiftr wh 16) 512 in
  let x := upd_rdx (fun _ => mkVramRd (Z.land xy 0xFFFF) (Z.shiftr xy 16) w h (s32 (w * h + 1) ÷ 2) 0) x in
  let x := set_stat (fun v => Z.lor v 0x08000000) x in
  GPU_Backend_VRAMReadback (Z.land xy 0xFFFF) (Z.shiftr xy 16) w h x.

(** A row copied as a block: all of it is read, then written. *)
Definition copy_row (w dst src : Z) (v : gmap Z Z) : gmap Z Z :=
  let line := map (fun i => px v (src + i)) (zseq (Z.to_nat w)) in
  fold_left (fun v i => <[dst + i := aget line i]> v) (zseq (Z.to_nat w)) v.

Definition vram_copy (sx sy dx dy w h : Z) (v : gmap Z Z) : gmap Z Z :=
  let rows := zseq (Z.to_nat h) in
  let row_copy v row := copy_row w ((dy + row) * 1024 + dx) ((sy + row) * 1024 + sx) v in
  if (sx + w <=? 1024) && (dx + w <=? 1024) && (sy + h <=? 512) && (dy + h <=? 512) then
    if (sy =? dy) && negb ((dx + w <=? sx) || (sx + w <=? dx)) then fold_left row_copy rows v
    else if (sy <? dy) && (dy <? sy + h) then fold_left row_copy (rev rows) v
    else fold_left row_copy rows v
  else
    fold_left (fun v row => fold_left (fun v col =>
      <[Z.land (dy + row) 0x1FF * 1024 + Z.land (dx + col) 0x3FF
        := px v (Z.land (sy + row) 0x1FF * 1024 + Z.land (sx + col) 0x3FF)]> v) (zseq (Z.to_nat w)) v) rows v.

Definition copy_image (src_xy dst_xy wh : Z) x : GpuSys R :=
  let sx := Z.land src_xy 0x3FF in
  let sy := Z.land (Z.shiftr src_xy 16) 0x1FF in
  let dx := Z.land dst_xy 0x3FF in
  let dy := Z.land (Z.shiftr dst_xy 16) 0x1FF in
  let w := size_or (Z.land wh 0x3FF) 0x400 in
  let h := size_or (Z.land (Z.shiftr wh 16) 0x1FF) 0x200 in
  let x := upd_gpu (fun g => g <| vram_gen_counter ::= fun n => u32 (n + 1) |>) x in
  let x := call (C_DirtyRegion dx dy w h) x in
  let x := upd_gpu (fun g => g <| vram ::= vram_copy sx sy dx dy w h |>) x in
  call (C_UploadShadowVRAM dx dy w h) x.

Definition start_polyline (c : Z) (buf : list Z) : Polyline -> Polyline := fun p =>
  let shaded := tst c 0x10 in
  let xy1 := aget buf (if shaded then 3 else 2) in
  mkPolyline true shaded (tst c 0x02)
    (Z.land (aget buf (if shaded then 2 else 0)) 0xFFFFFF) (polyline_next_color p)
    (s16 (Z.land xy1 0xFFFF)) (s16 (Z.shiftr xy1 16)) shaded.

Definition is_polyline (c : Z) : bool := (Z.land c 0xE0 =? 0x40) && tst c 0x08.

Definition run_command x : GpuSys R :=
  let buf := gpu_cmd_buffer (cmdb (gp x)) in
  let c := Z.shiftr (aget buf 0) 24 in
  if c =? 0xA0 then start_load_image (aget buf 1) (aget buf 2) x
  else if c =? 0xC0 then start_store_image (aget buf 1) (aget buf 2) x
  else if Z.land c 0xE0 =? 0x80 then copy_image (aget buf 1) (aget buf 2) (aget buf 3) x
  else
    let '(fast, x) := GPU_Backend_TryFastPoly (aget buf) x in
    let x := if fast =? 0 then snd (Translate_GP0_to_GS (aget buf) x) else x in
    if is_polyline c then upd_poly (start_polyline c (gpu_cmd_buffer (cmdb (gp x)))) x else x.

Definition parameter_word (data : Z) x : GpuSys R :=
  let x := upd_cmdb (fun c => c <| gpu_cmd_buffer ::= fun b => aset b (gpu_cmd_ptr c) data |>
             <| gpu_cmd_ptr ::= Z.succ |> <| gpu_cmd_remaining ::= Z.pred |>) x in
  if gpu_cmd_remaining (cmdb (gp x)) =? 0 then run_command x else x.

(** ** The first word of a command *)

Definition begin_command (data remaining : Z) : GpuSys R -> GpuSys R :=
  upd_cmdb (fun c => mkCmdBuf remaining (aset (gpu_cmd_buffer c) 0 data) 1).

Definition draw_mode (data : Z) x : GpuSys R :=
  if data =? cache_e1 (pcache (gp x)) then x
  else
    let x := upd_pcache (fun c => c <| cache_e1 := data |>) x in
    let x := upd_tex (fun t =>
      mkTexState (Z.land data 0xF * 64) (Z.land (Z.shiftr data 4) 1 * 256) (Z.land (Z.shiftr data 7) 3)
        (Z.land (Z.shiftr data 5) 3) (Z.land (Z.shiftr data 12) 1) (Z.land (Z.shiftr data 13) 1)
        (Z.land (Z.shiftr data 9) 1)
        (tex_win_mask_x t) (tex_win_mask_y t) (tex_win_off_x t) (tex_win_off_y t)) x in
    let x := set_stat (fun v =>
      let v := Z.lor (Z.land v (not32 0x87FF)) (Z.land data 0x7FF) in
      if gp1_allow_2mb (gp x) =? 0 then v else Z.lor v (Z.shiftl (Z.land (Z.shiftr data 11) 1) 15)) x in
    call C_InvalidateState x.

Definition set_scissor x : GpuSys R :=
  let e := env (gp x) in
  call (C_SetScissor (draw_clip_x1 e) (draw_clip_y1 e) (draw_clip_x2 e) (draw_clip_y2 e)) x.

Definition draw_area_tl (data : Z) x : GpuSys R :=
  let x := upd_env (fun e => e <| raw_draw_area_tl := Z.land data 0xFFFFF |>) x in
  if data =? cache_e3 (pcache (gp x)) then x
  else
    let x := upd_pcache (fun c => c <| cache_e3 := data |>) x in
    set_scissor (upd_env (fun e => e <| draw_clip_x1 := Z.land data 0x3FF |>
      <| draw_clip_y1 := Z.land (Z.shiftr data 10) 0x3FF |>) x).

Definition draw_area_br (data : Z) x : GpuSys R :=
  let x := upd_env (fun e => e <| raw_draw_area_br := Z.land data 0xFFFFF |>) x in
  if data =? cache_e4 (pcache (gp x)) then x
  else
    let x := upd_pcache (fun c => c <| cache_e4 := data |>) x in
    set_scissor (upd_env (fun e => e <| draw_clip_x2 := Z.land data 0x3FF |>
      <| draw_clip_y2 := Z.land (Z.shiftr data 10) 0x3FF |>) x).

(** [if (v & 0x400) v |= 0xF800] on an [int]. *)
Definition offset_field (v : Z) : Z := if tst v 0x400 then Z.lor v 0xF800 else v.

Definition draw_offset (data : Z) x : GpuSys R :=
  let x := upd_env (fun e => e <| raw_draw_offset := Z.land data 0x3FFFFF |>) x in
  if data =? cache_e5 (pcache (gp x)) then x
  else
    let x := upd_pcache (fun c => c <| cache_e5 := data |>) x in
    upd_env (fun e => e <| draw_offset_x := offset_field (s16 (Z.land data 0x7FF)) |>
      <| draw_offset_y := offset_field (s16 (Z.land (Z.shiftr data 11) 0x7FF)) |>) x.

Definition texture_window (data : Z) x : GpuSys R :=
  let x := upd_env (fun e => e <| raw_tex_window := Z.land data 0xFFFFF |>) x in
  upd_tex (fun t => t <| tex_win_mask_x := Z.land data 0x1F |> <| tex_win_mask_y := Z.land (Z.shiftr data 5) 0x1F |>
    <| tex_win_off_x := Z.land (Z.shiftr data 10) 0x1F |> <| tex_win_off_y := Z.land (Z.shiftr data 15) 0x1F |>) x.

Definition mask_setting (data : Z) x : GpuSys R :=
  let set := Z.land data 1 in
  let check := Z.land (Z.shiftr data 1) 1 in
  let x := upd_env (fun e => e <| mask_set_bit := set |> <| mask_check_bit := check |>
             <| cached_base_test := if check =? 0 then 0 else Z.shiftl 1 14 |>) x in
  let x := set_stat (fun v => Z.lor (Z.lor (Z.land v (not32 0x1800)) (Z.shiftl set 11)) (Z.shiftl check 12)) x in
  call C_InvalidateState (call (C_SetMaskBit set check) x).

Definition irq_request x : GpuSys R :=
  if tst (gpu_stat (gp x)) 0x01000000 then x
  else upd_rest (SignalInterrupt 1) (set_stat (fun v => Z.lor v 0x01000000) x).

Definition other_command (data c : Z) x : GpuSys R :=
  let size := GPU_GetCommandSize c in
  if 1 <? size then begin_command data (size - 1) x
  else if (size =? 1) && ((Z.land c 0xE0 =? 0x20) || (c =? 0x02)) then
    snd (Translate_GP0_to_GS (fun i => if i =? 0 then data else 0) x)
  else if is_polyline c then begin_command data ((if tst c 0x10 then 4 else 3) - 1) x
  else x.

Definition first_word (data : Z) x : GpuSys R :=
  let c := Z.land (Z.shiftr data 24) 0xFF in
  if (c =? 0xA0) || (c =? 0xC0) || (Z.land c 0xE0 =? 0x80) then
    begin_command data (if c =? 0xA0 then 2 else if c =? 0xC0 then 2 else 3) x
  else if c =? 0xE1 then draw_mode data x
  else if c =? 0xE3 then draw_area_tl data x
  else if c =? 0xE4 then draw_area_br data x
  else if c =? 0xE5 then draw_offset data x
  else if c =? 0xE2 then texture_window data x
  else if c =? 0xE6 then mask_setting data x
  else if c =? 0x1F then irq_request x
  else if (c =? 0x00) || (c =? 0x01) then x
  else other_command data c x.

Definition GPU_WriteGP0 (data : Z) x : GpuSys R :=
  let x := if gpu_pending_vblank_flush (gp x) then upd_gpu (fun g => g <| gpu_pending_vblank_flush := false |>) x else x in
  if 0 <? gpu_transfer_words (tx (gp x)) then transfer_word data x
  else if polyline_active (poly (gp x)) then polyline_word data x
  else if 0 <? gpu_cmd_remaining (cmdb (gp x)) then parameter_word data x
  else first_word data x.

(** ** GP1 *)

Definition gp1_reset x : GpuSys R :=
  let x := upd_pcache (fun _ => clear_gpu_param_cache) x in
  let x := call C_InvalidateTexCache (call C_InvalidateState x) in
  let x := upd_gpu (fun g => g <| gpu_stat := 0x14802000 |> <| gpu_read := 0 |>) x in
  let x := upd_env (fun _ => mkDrawEnv 0 0 256 240 0 0 0 0 0 0 0 0 0) x in
  let x := upd_cmdb (fun c => c <| gpu_cmd_remaining := 0 |>) x in
  let x := upd_tx (fun t => t <| gpu_transfer_words := 0 |>) x in
  let x := upd_tex (fun _ => mkTexState 0 0 0 0 0 0 0 0 0 0 0) x in
  let x := call (C_ClearVRAM 0 0 256 240) (call (C_SetMaskBit 0 0) (call C_Flush x)) in
  upd_gpu (fun g => g <| vram := ∅ |>) x.

Definition gp1_reset_buffer x : GpuSys R :=
  upd_poly (fun p => p <| polyline_active := false |>)
    (upd_tx (fun t => t <| gpu_transfer_words := 0 |>)
      (upd_cmdb (fun c => c <| gpu_cmd_remaining := 0 |>) x)).

Definition gp1_display_start (data : Z) x : GpuSys R :=
  if data =? cache_gp1_05 (pcache (gp x)) then x
  else
    let x := upd_pcache (fun c => c <| cache_gp1_05 := data |>) x in
    let dx := Z.land data 0x3FF in
    let dy := Z.land (Z.shiftr data 10) 0x1FF in
    call (C_SetDisplayFB dx dy) (upd_disp (fun d => d <| display_start_x := dx |> <| display_start_y := dy |>) x).

Definition gp1_horizontal_range (data : Z) x : GpuSys R :=
  if data =? cache_gp1_06 (pcache (gp x)) then x
  else call C_UpdateDisplay (upd_pcache (fun c => c <| cache_gp1_06 := data |>) x).

Definition gp1_vertical_range (data : Z) x : GpuSys R :=
  if data =? cache_gp1_07 (pcache (gp x)) then x
  else
    let x := upd_pcache (fun c => c <| cache_gp1_07 := data |>) x in
    call C_UpdateDisplay (upd_disp (fun d => d <| disp_range_y1 := Z.land data 0x3FF |>
      <| disp_range_y2 := Z.land (Z.shiftr data 10) 0x3FF |>) x).

Definition mode_stat (data v : Z) : Z :=
  Z.lor (Z.lor (Z.land v (not32 0x007F4000)) (Z.shiftl (Z.land data 0x3F) 17)) (Z.shiftl (Z.land data 0x40) 10).

Definition gp1_display_mode (data : Z) x : GpuSys R :=
  let x := set_stat (mode_stat data) x in
  let mode_bits := Z.land data 0x7F in
  if mode_bits =? cache_gp1_08 (pcache (gp x)) then x
  else
    let x := set_stat (mode_stat data) x in
    let x := upd_pcache (fun c => c <| cache_gp1_08 := mode_bits |>) x in
    let pal := Z.land (Z.shiftr data 3) 1 in
    let interlace := Z.land (Z.shiftr data 5) 1 in
    let x := call (C_SetResolution interlace (if pal =? 0 then 2 else 3)) x in
    Timer0_RefreshDividerCache (call C_UpdateDisplay x).

(** The value a GP1(10h) query leaves to be read: 20 or 22 bits of a register
    under the upper bits of the last value read. *)
Definition gpu_info (g : Gpu) (info_type : Z) : Z :=
  match info_type with
  | 2 => Z.lor (Z.land (gpu_read g) 0xFFF00000) (Z.land (raw_tex_window (env g)) 0xFFFFF)
  | 3 => Z.lor (Z.land (gpu_read g) 0xFFF00000) (Z.land (raw_draw_area_tl (env g)) 0xFFFFF)
  | 4 => Z.lor (Z.land (gpu_read g) 0xFFF00000) (Z.land (raw_draw_area_br (env g)) 0xFFFFF)
  | 5 => Z.lor (Z.land (gpu_read g) 0xFFC00000) (Z.land (raw_draw_offset (env g)) 0x3FFFFF)
  | 7 => 2
  | _ => 0
  end.

Definition GPU_WriteGP1 (data : Z) x : GpuSys R :=
  let c := Z.land (Z.shiftr data 24) 0xFF in
  match c with
  | 0x00 => gp1_reset x
  | 0x01 => gp1_reset_buffer x
  | 0x02 => set_stat (fun v => Z.land v (not32 0x01000000)) x
  | 0x03 => set_stat (fun v => if tst data 1 then Z.lor v 0x00800000 else Z.land v (not32 0x00800000)) x
  | 0x04 => set_stat (fun v => Z.lor (Z.land v (not32 0x60000000)) (Z.shiftl (Z.land data 3) 29)) x
  | 0x05 => gp1_display_start data x
  | 0x06 => gp1_horizontal_range data x
  | 0x07 => gp1_vertical_range data x
  | 0x08 => gp1_display_mode data x
  | 0x09 => upd_gpu (fun g => g <| gp1_allow_2mb := Z.land data 1 |>) x
  | _ => if (0x10 <=? c) && (c <=? 0x1F)
         then upd_gpu (fun g => g <| gpu_read := gpu_info g (Z.land data 0x0F) |>) x
         else x
  end.

(** ** Reads ([platform/ps2/gpu_ps2_core.c]) *)

(** The pixel under the read position, which moves on. *)
Definition read_pixel (g : Gpu) : Z * Gpu :=
  let t := rdx g in
  let qx := vram_read_x t + vram_read_pixel t mod vram_read_w t in
  let qy := vram_read_y t + vram_read_pixel t / vram_read_w t in
  (if (qx <? 1024) && (qy <? 512) then px (vram g) (qy * 1024 + qx) else 0,
   g <| rdx ::= fun t => t <| vram_read_pixel ::= Z.succ |> |>).

Definition GPU_Read (g : Gpu) : Z * Gpu :=
  if 0 <? vram_read_remaining (rdx g) then
    let '(p0, p1, g) :=
      if 0 <? vram_read_w (rdx g) then
        let '(p0, g) := read_pixel g in
        let '(p1, g) := read_pixel g in (p0, p1, g)
      else (0, 0, g) in
    let g := g <| rdx ::= fun t => t <| vram_read_remaining ::= Z.pred |> |> in
    let g := if vram_read_remaining (rdx g) =? 0
             then g <| gpu_stat ::= fun v => Z.land v (not32 0x08000000) |> else g in
    let v := Z.lor p0 (Z.shiftl p1 16) in
    (v, g <| gpu_read := v |>)
  else (gpu_read g, g).

(** The bits of GPUSTAT that are forced or computed at a read. *)
Definition final_stat (stat : Z) : Z :=
  let s := Z.lor stat 0x14002000 in
  let dma_dir := Z.land (Z.shiftr s 29) 3 in
  if dma_dir =? 1 then Z.lor s 0x02000000
  else if dma_dir =? 2 then Z.lor s 0x02000000
  else if (dma_dir =? 3) && tst s 0x08000000 then Z.lor s 0x02000000
  else s.

(** [while (global_cycles >= sched_cached_earliest) Sched_Tick(global_cycles)];
    [None] when the fuel ends first. *)
Fixpoint run_due (fuel : nat) x : option (GpuSys R) :=
  if global_cycles (sys x) <? sched_cached_earliest (sched (sys x)) then Some x
  else match fuel with
       | O => None
       | S fuel => run_due fuel (Sched_Tick_all (global_cycles (sys x)) x)
       end.

Definition GPU_ReadStatus (fuel : nat) x : option (Z * GpuSys R) :=
  let busy := gpu_busy_until (gp x) in
  let idle x := upd_gpu (fun g => g <| gpu_busy_until := 0 |>) x in
  let waited :=
    if busy =? 0 then Some x
    else if global_cycles (sys x) <? busy
    then option_map idle (run_due fuel (upd_rest (fun y => y <| global_cycles := busy |>) x))
    else Some (idle x) in
  option_map (fun x => (final_stat (gpu_stat (gp x)), x)) waited.

Definition GPU_VBlank x : GpuSys R :=
  set_stat (fun v => Z.lxor v 0x80000000) (upd_gpu (fun g => g <| gpu_pending_vblank_flush := true |>) x).

(** ** Whole blocks of words *)

Definition write_words (data : Z -> Z) (i n : Z) x : GpuSys R :=
  fold_left (fun x k => GPU_WriteGP0 (data (i + k)) x) (zseq (Z.to_nat n)) x.

Definition busy_parsing x : bool :=
  (0 <? gpu_transfer_words (tx (gp x))) || (0 <? gpu_cmd_remaining (cmdb (gp x))) || polyline_active (poly (gp x)).

(** Words are fed until the command interface is idle again or they end. *)
Fixpoint feed_while_busy (fuel : nat) (data : Z -> Z) (i n : Z) x : Z * GpuSys R :=
  match fuel with
  | O => (i, x)
  | S fuel =>
    if (i <? n) && busy_parsing x then feed_while_busy fuel data (i + 1) n (GPU_WriteGP0 (data i) x) else (i, x)
  end.

(** The do-while form: at least one word. *)
Definition feed_command (data : Z -> Z) (i n : Z) x : Z * GpuSys R :=
  feed_while_busy (Z.to_nat (n - i)) data (i + 1) n (GPU_WriteGP0 (data i) x).

(** [GS_UploadRegionFast]: the whole rectangle at once. *)
Record FastPos := mkFastPos { f_px : Z; f_py : Z; f_vram : gmap Z Z }.
Definition fast_store (rx w p : Z) (t : FastPos) : FastPos :=
  let v := if (f_px t <? 1024) && (f_py t <? 512) then <[f_py t * 1024 + f_px t := p]> (f_vram t) else f_vram t in
  if rx + w <=? f_px t + 1 then mkFastPos rx (f_py t + 1) v else mkFastPos (f_px t + 1) (f_py t) v.
Definition fast_word (rx w word : Z) (t : FastPos) : FastPos :=
  fast_store rx w (Z.shiftr word 16) (fast_store rx w (Z.land word 0xFFFF) t).
Definition GS_UploadRegionFast (coords dims : Z) (data : Z -> Z) (word_count : Z) x : GpuSys R :=
  let rx := Z.land coords 0x3FF in
  let ry := Z.land (Z.shiftr coords 16) 0x1FF in
  let w := Z.land dims 0xFFFF in
  let h := Z.land (Z.shiftr dims 16) 0xFFFF in
  if (w <=? 0) || (h <=? 0) then x
  else
    let words := map data (zseq (Z.to_nat word_count)) in
    let x := upd_gpu (fun g => g <| vram_gen_counter ::= fun n => u32 (n + 1) |>) x in
    let x := call (C_DirtyRegion rx ry w h) x in
    let x := upd_gpu (fun g => g <| vram ::= fun v =>
               f_vram (fold_left (fun t word => fast_word rx w word t) words (mkFastPos rx ry v)) |>) x in
    call (C_UploadRegionFast rx ry w h words) x.

Definition shifted (data : Z -> Z) (i : Z) : Z -> Z := fun k => data (i + k).

(** One round of the dispatch loop at word [i < n]. *)
Definition block_round (data : Z -> Z) (n i : Z) x : Z * GpuSys R :=
  let cmd_ptr := shifted data i in
  let cmd_byte := Z.shiftr (cmd_ptr 0) 24 in
  let cmd_size := gpu_cmd_size cmd_byte in
  let image_words :=
    u32 (u32 (size_or (Z.land (cmd_ptr 2) 0xFFFF) 1024 * size_or (Z.shiftr (cmd_ptr 2) 16) 512) + 1) / 2 in
  if cmd_size =? 0 then
    if (cmd_byte =? 0xA0) && (i + 3 <=? n) && (i + 3 + image_words <=? n) then
      (i + 3 + image_words, GS_UploadRegionFast (cmd_ptr 1) (cmd_ptr 2) (shifted cmd_ptr 3) image_words x)
    else if negb (cmd_byte =? 0xA0) && (cmd_byte =? 0xC0) then
      let e := if i + 3 <=? n then i + 3 else n in
      (e, write_words data i (e - i) x)
    else feed_command data i n x
  else if cmd_byte <=? 0x7F then
    let '(size, x) := GPU_TryFastEmit cmd_ptr x in
    if size <=? 0 then
      if i + cmd_size <=? n then (i + cmd_size, snd (Translate_GP0_to_GS cmd_ptr x))
      else (n, write_words data i (n - i) x)
    else (i + size, x)
  else if Z.land cmd_byte 0xE0 =? 0x80 then
    if i + 4 <=? n then (i + 4, write_words data i 4 x) else (n, write_words data i (n - i) x)
  else (i + 1, GPU_WriteGP0 (cmd_ptr 0) x).

(** Every round takes at least one word. *)
Fixpoint block_loop (fuel : nat) (data : Z -> Z) (n i : Z) x : GpuSys R :=
  match fuel with
  | O => x
  | S fuel => if i <? n then let '(i, x) := block_round data n i x in block_loop fuel data n i x else x
  end.

Definition GPU_ProcessDmaBlock (data : Z -> Z) (word_count : Z) x : GpuSys R :=
  let n := Z.to_nat word_count in
  let '(i, x) := feed_while_busy n data 0 word_count x in
  block_loop n data word_count i x.

(** ** DMA channel 2 ([platform/ps2/gpu_ps2_dma.c]) *)

Definition DMA_CYCLES_PER_WORD : Z := 1.
Definition DMA_CYCLES_PER_PACKET : Z := 1.
Definition GPU_CYCLES_PER_PIXEL : Z := 2.
Definition max_packets : Z := 20000.

Definition ram_words (ram : gmap Z Z) (a : Z) : Z -> Z := fun k => rd32 ram (a + 4 * k).
Definition wrap_addr (a : Z) : Z := Z.land (u32 a) 0x1FFFFC.

(** One round of the inner loop at word [i < count] of a packet. *)
Definition ll_round (ram : gmap Z Z) (count i addr : Z) x : Z * Z * GpuSys R :=
  let cmd_ptr := ram_words ram addr in
  let cmd_byte := Z.shiftr (cmd_ptr 0) 24 in
  let cmd_size := gpu_cmd_size cmd_byte in
  if cmd_size =? 0 then
    let x := call C_FlushBatch x in
    let dims := cmd_ptr 2 in
    let image_words := u32 (Z.land dims 0xFFFF * Z.shiftr dims 16) / 2 in
    if (cmd_byte =? 0xA0) && (3 + image_words <=? count - i) then
      let x := GS_UploadRegionFast (cmd_ptr 1) dims (ram_words ram (Z.land (addr + 12) 0x1FFFFC)) image_words x in
      (i + (3 + image_words), wrap_addr (addr + (3 + image_words) * 4), x)
    else
      let '(j, x) := feed_command (fun k => rd32 ram (wrap_addr (addr + 4 * (k - i)))) i count x in
      (j, wrap_addr (addr + 4 * (j - i)), x)
  else if cmd_byte <=? 0x7F then
    let '(size, x) := GPU_TryBatchAdd cmd_ptr x in
    if 0 <? size then (i + size, wrap_addr (addr + size * 4), x)
    else
      let x := call C_FlushBatch x in
      let '(size, x) := GPU_TryFastEmit cmd_ptr x in
      let '(size, x) := if size <=? 0 then Translate_GP0_to_GS cmd_ptr x else (size, x) in
      (i + size, wrap_addr (addr + size * 4), x)
  else if Z.land cmd_byte 0xE0 =? 0x80 then
    let x := call C_FlushBatch x in
    if i + 4 <=? count then (i + 4, wrap_addr (addr + 16), write_words cmd_ptr 0 4 x)
    else (i + 1, wrap_addr (addr + 4), GPU_WriteGP0 (cmd_ptr 0) x)
  else (i + 1, wrap_addr (addr + 4), GPU_WriteGP0 (cmd_ptr 0) (call C_FlushBatch x)).

(** [None] when the rounds do not end: the renderer answers a size of zero. *)
Fixpoint ll_words (fuel : nat) (ram : gmap Z Z) (count i addr : Z) x : option (GpuSys R) :=
  if i <? count then
    match fuel with
    | O => None
    | S fuel => let '(i, addr, x) := ll_round ram count i addr x in ll_words fuel ram count i addr x
    end
  else Some x.

Definition ll_packet (ram : gmap Z Z) (count addr : Z) x : option (GpuSys R) :=
  if polyline_active (poly (gp x))
  then Some (write_words (fun k => rd32 ram (wrap_addr (addr + 4 * k))) 0 count (call C_FlushBatch x))
  else ll_words (Z.to_nat count) ram count 0 addr x.

Record LlEnd := mkLlEnd { ll_count : Z; ll_total : Z; ll_completed : bool }.

(** The walk of the list: packets processed, words moved, and whether the end
    marker was reached. *)
Fixpoint ll_walk (fuel : nat) (ram : gmap Z Z) (start_addr addr : Z) (e : LlEnd) x : option (LlEnd * GpuSys R) :=
  match fuel with
  | O => Some (e, x)
  | S fuel =>
    let header := rd32 ram addr in
    let count := Z.shiftr header 24 in
    let next := Z.land header 0xFFFFFF in
    let total := u32 (ll_total e + (count + 1)) in
    if 256 <? count then Some (mkLlEnd (ll_count e) total false, x)
    else
      match ll_packet ram count (Z.land (addr + 4) 0x1FFFFC) x with
      | None => None
      | Some x =>
        let e := mkLlEnd (ll_count e + 1) total false in
        if next =? 0xFFFFFF then Some (mkLlEnd (ll_count e) total true, x)
        else if (next =? addr) || (Z.land next 0x1FFFFC =? start_addr) then Some (e, x)
        else if tst next 0x3 then Some (e, x)
        else ll_walk fuel ram start_addr (Z.land next 0x1FFFFC) e x
      end
  end.

(** Bus and rendering time; [busy] tells whether rendering time counts. *)
Definition dma2_cost (dma_cost : Z) (busy : bool) x : GpuSys R :=
  let gpu_cost := u64 (gpu_estimated_pixels (snd (fst x)) * GPU_CYCLES_PER_PIXEL) in
  let x := if busy then call C_ResetPixels x else x in
  let x := upd_rest (fun y => y <| global_cycles ::= fun c => u64 (c + dma_cost) |>) x in
  if busy then upd_gpu (fun g => g <| gpu_busy_until := u64 (global_cycles (sys x) + gpu_cost) |>) x else x.

Definition tick_if_due x : GpuSys R :=
  if sched_cached_earliest (sched (sys x)) <=? global_cycles (sys x) then Sched_Tick_all (global_cycles (sys x)) x else x.

Definition dma2_words (sync_mode bcr : Z) : Z :=
  let block_size := Z.land bcr 0xFFFF in
  let block_count := Z.land (Z.shiftr bcr 16) 0xFFFF in
  if sync_mode =? 0 then size_or block_size 0x10000
  else u32 (size_or block_size 0x10000 * size_or block_count 0x10000).

Definition dma2_read_step (st : Z * GpuSys R) (_ : Z) : Z * GpuSys R :=
  let '(addr, x) := st in
  let '(word, g) := GPU_Read (gp x) in
  let x := upd_gpu (fun _ => g) x in
  (u32 (addr + 4), upd_rest (fun y => y <| psx_ram ::= fun m => wr32 m (Z.land addr 0x1FFFFC) word |>) x).

(** The boolean is the "stalled" answer. *)
Definition GPU_DMA2 (fuel : nat) (madr bcr chcr : Z) x : option (bool * GpuSys R) :=
  let addr := Z.land madr 0x1FFFFC in
  if negb (tst chcr 0x01000000) then Some (false, x)
  else
    let x := call C_Flush (call C_ResetPixels x) in
    let sync_mode := Z.land (Z.shiftr chcr 9) 3 in
    let total_words := dma2_words sync_mode bcr in
    let ram := psx_ram (sys x) in
    if (sync_mode =? 0) || (sync_mode =? 1) then
      if Z.land chcr 1 =? 1 then
        let x := GPU_ProcessDmaBlock (ram_words ram addr) total_words x in
        Some (false, tick_if_due (dma2_cost (total_words * DMA_CYCLES_PER_WORD) true x))
      else
        let '(_, x) := fold_left dma2_read_step (zseq (Z.to_nat total_words)) (addr, x) in
        Some (false, tick_if_due (dma2_cost (total_words * DMA_CYCLES_PER_WORD) false x))
    else if sync_mode =? 2 then
      match ll_walk (Z.to_nat max_packets) ram addr addr (mkLlEnd 0 0 false) x with
      | None => None
      | Some (e, x) =>
        let x := call C_Flush (call C_FlushBatch x) in
        let cost := ll_total e * DMA_CYCLES_PER_WORD + ll_count e * DMA_CYCLES_PER_PACKET in
        option_map (fun x => (negb (ll_completed e), x)) (run_due fuel (dma2_cost cost true x))
      end
    else Some (false, x).
End Gpu.

(** ** The display registers ([Update_GS_Display]) *)

Definition disp_hres368 (g : Gpu) : Z := Z.land (Z.shiftr (gpu_stat g) 16) 1.
Definition disp_hres (g : Gpu) : Z := Z.land (Z.shiftr (gpu_stat g) 17) 3.
Definition disp_vres (g : Gpu) : Z := Z.land (Z.shiftr (gpu_stat g) 19) 1.
Definition disp_pal (g : Gpu) : Z := Z.land (Z.shiftr (gpu_stat g) 20) 1.
Definition disp_interlace (g : Gpu) : Z := Z.land (Z.shiftr (gpu_stat g) 22) 1.

Definition psx_width (g : Gpu) : Z :=
  if negb (disp_hres368 g =? 0) then 368 else aget [256; 320; 512; 640] (Z.land (disp_hres g) 3).
Definition magh_of (psx_w : Z) : Z :=
  if psx_w =? 256 then 9 else if psx_w =? 320 then 7 else if psx_w =? 368 then 6
  else if psx_w =? 512 then 4 else 3.

(** The 64-bit value written to DISPLAY1 and DISPLAY2. *)
Definition Update_GS_Display (g : Gpu) : Z :=
  let psx_w := psx_width g in
  let y1 := disp_range_y1 (disp g) in
  let psx_h := (disp_range_y2 (disp g) - y1) * (disp_vres g + 1) in
  let magh := magh_of psx_w in
  let dw := psx_w * (magh + 1) - 1 in
  let doubled := negb (disp_interlace g =? 0) && (disp_vres g =? 0) in
  let dh := if doubled then psx_h * 2 - 1 else psx_h - 1 in
  let magv := if doubled then 1 else 0 in
  let dx0 := if negb (disp_pal g =? 0) then 680 else 650 in
  let dy :=
    if negb (disp_pal g =? 0) then if negb (disp_interlace g =? 0) then y1 * 2 else y1
    else if negb (disp_interlace g =? 0) then y1 * 2 + 18 else y1 + 1 in
  let dx := dx0 + (2560 - (dw + 1)) ÷ 2 in
  Z.lor (Z.lor (Z.lor (Z.lor (Z.lor (Z.land dx 0xFFF) (Z.shiftl (Z.land dy 0x7FF) 12))
    (Z.shiftl (Z.land magh 0xF) 23)) (Z.shiftl (Z.land magv 0x3) 27))
    (Z.shiftl (Z.land dw 0xFFF) 32)) (Z.shiftl (Z.land dh 0x7FF) 44).
