(* ===== verification/GpuVram.v ===== *)
(** * Video memory under the graphics processor

    Uploads through the command port and as a whole rectangle, downloads, and
    copies inside the memory, pixel by pixel against the rectangle they
    name. *)

From S2P Require Import Prelude Scheduler System Memory Gpu.

(** ** Rectangles *)

(** A pixel that mask checking [chk] protects. *)
Definition masked (chk : bool) (old : Z) : bool := chk && tst old 0x8000.

(** Pixel number [k] of a rectangle of width [w] at [(rx, ry)], if it lies in
    the memory and is not protected. *)
Definition pstore (chk : bool) (rx ry w p k : Z) (v : gmap Z Z) : gmap Z Z :=
  let qx := rx + k mod w in
  let qy := ry + k / w in
  if (qx <? 1024) && (qy <? 512) && negb (masked chk (px v (qy * 1024 + qx)))
  then <[qy * 1024 + qx := p]> v else v.

(** The first [n] pixels of a rectangle take the halfwords [hw]. *)
Definition fill (chk : bool) (rx ry w : Z) (hw : Z -> Z) (n : nat) (v : gmap Z Z) : gmap Z Z :=
  fold_left (fun v k => pstore chk rx ry w (hw k) k v) (zseq n) v.

Lemma fill_S chk rx ry w hw n v :
  fill chk rx ry w hw (S n) v = pstore chk rx ry w (hw (Z.of_nat n)) (Z.of_nat n) (fill chk rx ry w hw n v).
Proof. unfold fill. rewrite zseq_snoc, fold_left_app. reflexivity. Qed.

Lemma px_insert_eq v i p : px (<[i := p]> v) i = p.
Proof. unfold px. rewrite lookup_insert_eq. reflexivity. Qed.
Lemma px_insert_ne v i j p : i <> j -> px (<[i := p]> v) j = px v j.
Proof. intros Hne. unfold px. rewrite lookup_insert_ne by exact Hne. reflexivity. Qed.

(** Is [(qx, qy)] among the first [n] pixels of the rectangle? *)
Definition in_fill (rx ry w n qx qy : Z) : bool :=
  (rx <=? qx) && (qx <? rx + w) && (ry <=? qy) && ((qy - ry) * w + (qx - rx) <? n).

Lemma pixel_of_index rx ry w qx qy k : 0 < w -> rx <= qx < rx + w -> ry <= qy ->
  (qy - ry) * w + (qx - rx) = k <-> (qx = rx + k mod w /\ qy = ry + k / w /\ 0 <= k).
Proof.
  intros Hw Hx Hy. split.
  - intros <-. replace ((qy - ry) * w + (qx - rx)) with (qx - rx + (qy - ry) * w) by ring.
    rewrite Z.mod_add, Z.div_add, Z.mod_small, Z.div_small by lia. nia.
  - intros (-> & -> & Hk). pose proof (Z.div_mod k w ltac:(lia)). lia.
Qed.

Lemma in_fill_S rx ry w n qx qy : 0 < w ->
  in_fill rx ry w (Z.of_nat (S n)) qx qy
  = in_fill rx ry w (Z.of_nat n) qx qy
    || ((rx + Z.of_nat n mod w =? qx) && (ry + Z.of_nat n / w =? qy)).
Proof.
  intros Hw. set (k := Z.of_nat n). pose proof (Z.mod_pos_bound k w Hw) as Hm.
  assert (Hd : 0 <= k / w) by (apply Z.div_pos; lia). unfold in_fill.
  destruct (Z.leb_spec rx qx), (Z.ltb_spec qx (rx + w)), (Z.leb_spec ry qy); cbn [andb orb].
  1: { pose proof (pixel_of_index rx ry w qx qy k Hw ltac:(lia) ltac:(lia)) as Hp.
       destruct (Z.ltb_spec ((qy - ry) * w + (qx - rx)) (Z.of_nat (S n))),
                (Z.ltb_spec ((qy - ry) * w + (qx - rx)) k),
                (Z.eqb_spec (rx + k mod w) qx), (Z.eqb_spec (ry + k / w) qy); cbn [andb orb]; try reflexivity; lia. }
  all: symmetry; apply andb_false_iff; destruct (Z.eqb_spec (rx + k mod w) qx); [right; apply Z.eqb_neq; lia | left; reflexivity].
Qed.

(** A rectangle names every pixel once, so that what protects a pixel is what
    it held before the first of them was stored. *)
Lemma fill_px chk rx ry w hw n : forall v qx qy, 0 <= rx -> 0 <= ry -> 0 < w -> 0 <= qx < 1024 -> 0 <= qy < 512 ->
  px (fill chk rx ry w hw n v) (qy * 1024 + qx)
  = if in_fill rx ry w (Z.of_nat n) qx qy && negb (masked chk (px v (qy * 1024 + qx)))
    then hw ((qy - ry) * w + (qx - rx)) else px v (qy * 1024 + qx).
Proof.
  induction n as [|n IH]; intros v qx qy Hrx Hry Hw Hx Hy.
  - unfold in_fill. destruct (Z.leb_spec rx qx), (Z.ltb_spec qx (rx + w)), (Z.leb_spec ry qy); cbn [andb]; try reflexivity.
    rewrite (proj2 (Z.ltb_ge _ _)) by nia. reflexivity.
  - rewrite fill_S, in_fill_S by exact Hw. unfold pstore. set (k := Z.of_nat n).
    pose proof (Z.mod_pos_bound k w Hw) as Hm. assert (Hd : 0 <= k / w) by (apply Z.div_pos; lia).
    destruct (Z.eqb_spec (rx + k mod w) qx) as [Ex|Ex]; destruct (Z.eqb_spec (ry + k / w) qy) as [Ey|Ey];
      cbn [andb]; rewrite ?orb_false_r, ?orb_true_r.
    2-4: rewrite <- IH by assumption; set (u := fill _ _ _ _ _ _ _);
      destruct ((rx + k mod w <? 1024) && (ry + k / w <? 512) && negb (masked chk (px u ((ry + k / w) * 1024 + (rx + k mod w))))) eqn:E;
      [|reflexivity]; apply andb_true_iff in E as [E _]; apply andb_true_iff in E as [E1%Z.ltb_lt E2%Z.ltb_lt]; apply px_insert_ne; lia.
    assert (Hout : in_fill rx ry w k qx qy = false).
    { unfold in_fill. rewrite (proj2 (pixel_of_index rx ry w qx qy k Hw ltac:(lia) ltac:(lia))) by lia.
      rewrite Z.ltb_irrefl. apply andb_false_r. }
    assert (Hsame : px (fill chk rx ry w hw n v) (qy * 1024 + qx) = px v (qy * 1024 + qx)).
    { rewrite IH by assumption. fold k. rewrite Hout. reflexivity. }
    rewrite Ex, Ey, Hsame, (proj2 (Z.ltb_lt qx 1024)), (proj2 (Z.ltb_lt qy 512)) by lia. cbn [andb].
    destruct (masked chk (px v (qy * 1024 + qx))); cbn [negb]; [exact Hsame|].
    rewrite px_insert_eq. f_equal. symmetry. apply (pixel_of_index rx ry w qx qy k); lia.
Qed.

(** ** Words through the command port *)

Section Port.
Context {R : Type} `{GpuBackend R}.
Implicit Types x : GpuSys R.

Lemma write_words_S data i n x : 0 <= n ->
  write_words data i (n + 1) x = GPU_WriteGP0 (data (i + n)) (write_words data i n x).
Proof.
  intros Hn. unfold write_words. replace (Z.to_nat (n + 1)) with (S (Z.to_nat n)) by lia.
  rewrite zseq_snoc, fold_left_app. cbn [fold_left]. rewrite Z2Nat.id by lia. reflexivity.
Qed.

Lemma write_words_app data i n m x : 0 <= n -> 0 <= m ->
  write_words data i (n + m) x = write_words data (i + n) m (write_words data i n x).
Proof.
  intros Hn Hm. rewrite <- (Z2Nat.id m) by lia. induction (Z.to_nat m) as [|k IH].
  - rewrite Z.add_0_r. reflexivity.
  - rewrite Nat2Z.inj_succ, <- Z.add_1_r, Z.add_assoc, !write_words_S, IH by lia.
    rewrite Z.add_assoc. reflexivity.
Qed.

Lemma write_words_cons data i n x : 0 <= n ->
  write_words data (i + 1) n (GPU_WriteGP0 (data i) x) = write_words data i (1 + n) x.
Proof.
  intros Hn. rewrite write_words_app by lia. change (write_words data i 1 x) with (GPU_WriteGP0 (data (i + 0)) x).
  rewrite Z.add_0_r. reflexivity.
Qed.

(** Halfword [k] of a stream of words. *)
Definition half (data : Z -> Z) (k : Z) : Z :=
  if Z.even k then Z.land (data (k / 2)) 0xFFFF else Z.shiftr (data (k / 2)) 16.

Lemma half_even data k : half data (2 * k) = Z.land (data k) 0xFFFF.
Proof. unfold half. rewrite Z.even_mul, (Z.mul_comm 2 k), Z.div_mul by lia. reflexivity. Qed.
Lemma half_odd data k : half data (2 * k + 1) = Z.shiftr (data k) 16.
Proof.
  unfold half. rewrite Z.add_comm, Z.even_add_mul_2. change (Z.even 1) with false.
  rewrite (Z.mul_comm 2 k), Z.div_add, Z.div_small by lia. reflexivity.
Qed.

(** The halfwords that fall inside the rectangle's count. *)
Definition gfill (chk : bool) (rx ry w total : Z) (hw : Z -> Z) (n : nat) (v : gmap Z Z) : gmap Z Z :=
  fold_left (fun v k => if k <? total then pstore chk rx ry w (hw k) k v else v) (zseq n) v.

Lemma gfill_S chk rx ry w total hw n v :
  gfill chk rx ry w total hw (S n) v
  = let v := gfill chk rx ry w total hw n v in
    if Z.of_nat n <? total then pstore chk rx ry w (hw (Z.of_nat n)) (Z.of_nat n) v else v.
Proof. unfold gfill. rewrite zseq_snoc, fold_left_app. reflexivity. Qed.

Lemma gfill_fill chk rx ry w total hw n v : (Z.of_nat n = total \/ Z.of_nat n = total + 1) ->
  gfill chk rx ry w total hw n v = fill chk rx ry w hw (Z.to_nat total) v.
Proof.
  assert (Heq : forall m, Z.of_nat m <= total -> gfill chk rx ry w total hw m v = fill chk rx ry w hw m v).
  { induction m as [|m IH]; intros Hm; [reflexivity|]. rewrite gfill_S, fill_S. cbv zeta.
    rewrite IH, (proj2 (Z.ltb_lt _ _)) by lia. reflexivity. }
  intros [Hn | Hn].
  - rewrite Heq by lia. replace (Z.to_nat total) with n by lia. reflexivity.
  - destruct n as [|n]; [replace total with (-1) by lia; reflexivity|]. rewrite gfill_S. cbv zeta. rewrite (proj2 (Z.ltb_ge _ _)), Heq by lia.
    replace (Z.to_nat total) with n by lia. reflexivity.
Qed.

(** Mask checking, as the uploads test it. *)
Definition checking (g : Gpu) : bool := negb (mask_check_bit (env g) =? 0).

Lemma store_pixel_eq p g :
  store_pixel p g
  = g <| vram := (let t := tx g in if vram_tx_pixel t <? s32 (vram_tx_w t * vram_tx_h t)
                  then pstore (checking g) (vram_tx_x t) (vram_tx_y t) (vram_tx_w t) p (vram_tx_pixel t) (vram g) else vram g) |>
      <| tx ::= fun t => t <| vram_tx_pixel ::= Z.succ |> |>.
Proof.
  unfold store_pixel, pstore, masked, checking. cbv zeta.
  destruct g. destruct (_ <? s32 _); [|reflexivity].
  destruct (_ && _); [|reflexivity]. cbn [andb]. destruct (_ =? 0); [reflexivity|].
  cbn [andb orb negb]. destruct (tst _ 0x8000); reflexivity.
Qed.

(** The set-mask bit, as ORed into every uploaded pixel. *)
Definition mask_or (g : Gpu) : Z := if mask_set_bit (env g) =? 0 then 0 else 0x8000.

Lemma transfer_word_gp data x : 0 < vram_tx_w (tx (gp x)) ->
  gp (transfer_word data x)
  = (store_pixel (Z.lor (Z.shiftr data 16) (mask_or (gp x))) (store_pixel (Z.lor (Z.land data 0xFFFF) (mask_or (gp x))) (gp x)))
      <| tx ::= fun t => t <| gpu_transfer_words ::= Z.pred |> |>.
Proof.
  intros Hw. unfold transfer_word, transfer_store, transfer_count. rewrite (proj2 (Z.ltb_lt _ _) Hw). cbv zeta. fold (mask_or (gp x)).
  set (g1 := store_pixel _ _). set (x1 := call _ _).
  assert (E1 : gp x1 = g1) by reflexivity. clearbody x1.
  destruct (gpu_transfer_words _ =? 0); [|rewrite <- E1; reflexivity].
  destruct (1024 <? _); rewrite <- E1; reflexivity.
Qed.

(** The state after [m] of the [n] words of an upload. *)
Definition upload_state (g : Gpu) (hw : Z -> Z) (n m : Z) : Gpu :=
  let t := tx g in
  g <| tx := mkVramTx (n - m) (gpu_transfer_total t) (vram_tx_x t) (vram_tx_y t) (vram_tx_w t) (vram_tx_h t) (2 * m) |>
    <| vram := gfill (checking g) (vram_tx_x t) (vram_tx_y t) (vram_tx_w t) (s32 (vram_tx_w t * vram_tx_h t)) hw (Z.to_nat (2 * m)) (vram g) |>.

Lemma upload_step g hw n m p0 p1 : 0 <= m ->
  hw (2 * m) = p0 -> hw (2 * m + 1) = p1 ->
  (store_pixel p1 (store_pixel p0 (upload_state g hw n m))) <| tx ::= fun t => t <| gpu_transfer_words ::= Z.pred |> |>
  = upload_state g hw n (m + 1).
Proof.
  intros Hmn <- <-. rewrite (store_pixel_eq _ (upload_state g hw n m)), store_pixel_eq. destruct g as [? ? ? ? ? ? ? ? ? t ? ? ? ? v]. destruct t as [? ? X Y W HH ?].
  unfold upload_state. replace (Z.to_nat (2 * (m + 1))) with (S (S (Z.to_nat (2 * m)))) by lia.
  rewrite !gfill_S. cbv zeta.
  replace (Z.of_nat (S (Z.to_nat (2 * m)))) with (2 * m + 1) by lia.
  replace (Z.of_nat (Z.to_nat (2 * m))) with (2 * m) by lia.
  replace (n - (m + 1)) with (Z.pred (n - m)) by lia. replace (2 * (m + 1)) with (Z.succ (Z.succ (2 * m))) by lia.
  replace (2 * m + 1) with (Z.succ (2 * m)) by lia. reflexivity.
Qed.

Lemma upload_prefix data i x n m :
  gpu_pending_vblank_flush (gp x) = false ->
  gpu_transfer_words (tx (gp x)) = n -> vram_tx_pixel (tx (gp x)) = 0 -> 0 < vram_tx_w (tx (gp x)) ->
  0 <= m <= n ->
  gp (write_words data i m x)
  = upload_state (gp x) (fun k => Z.lor (half (fun j => data (i + j)) k) (mask_or (gp x))) n m.
Proof.
  intros Hf Hn Hp Hw Hm. rewrite <- (Z2Nat.id m) by lia. assert (Hle : Z.of_nat (Z.to_nat m) <= n) by lia.
  set (hw := fun k => _). induction (Z.to_nat m) as [|k IH].
  - unfold upload_state. change (Z.to_nat (2 * Z.of_nat 0)) with 0%nat. change (write_words data i (Z.of_nat 0) x) with x.
    change (2 * Z.of_nat 0) with 0. rewrite Z.sub_0_r. rewrite <- Hn, <- Hp. destruct (gp x) as [? ? ? ? ? ? ? ? ? t ? ? ? ? v].
    destruct t. reflexivity.
  - rewrite Nat2Z.inj_succ, <- Z.add_1_r, write_words_S by lia. specialize (IH ltac:(lia)).
    set (x1 := write_words data i (Z.of_nat k) x) in *. 
    assert (Hf1 : gpu_pending_vblank_flush (gp x1) = false) by (rewrite IH; exact Hf).
    assert (Hn1 : gpu_transfer_words (tx (gp x1)) = n - Z.of_nat k) by (rewrite IH; reflexivity).
    unfold GPU_WriteGP0. rewrite Hf1. cbv zeta. rewrite Hn1, (proj2 (Z.ltb_lt 0 (n - Z.of_nat k))) by lia.
    rewrite transfer_word_gp by (rewrite IH; exact Hw). rewrite IH.
    change (mask_or (upload_state (gp x) hw n (Z.of_nat k))) with (mask_or (gp x)).
    apply upload_step; [lia | unfold hw; rewrite half_even; reflexivity | unfold hw; rewrite half_odd; reflexivity].
Qed.

(** An idle command interface. *)
Record idle (g : Gpu) : Prop := {
  id_flush : gpu_pending_vblank_flush g = false;
  id_tx : gpu_transfer_words (tx g) <= 0;
  id_poly : polyline_active (poly g) = false;
  id_cmd : gpu_cmd_remaining (cmdb g) <= 0;
  id_len : zlen (gpu_cmd_buffer (cmdb g)) = 16
}.

Lemma idle_first data x : idle (gp x) -> GPU_WriteGP0 data x = first_word data x.
Proof.
  intros [Hf Ht Hp Hc _]. unfold GPU_WriteGP0. rewrite Hf. cbv zeta.
  rewrite (proj2 (Z.ltb_ge 0 _)) by exact Ht. rewrite Hp.
  rewrite (proj2 (Z.ltb_ge 0 _)) by exact Hc. reflexivity.
Qed.

(** Collecting: [n] words to come after the [k] in [b]. *)
Record collecting (n k : Z) (g : Gpu) : Prop := {
  co_flush : gpu_pending_vblank_flush g = false;
  co_tx : gpu_transfer_words (tx g) <= 0;
  co_poly : polyline_active (poly g) = false;
  co_cmd : gpu_cmd_remaining (cmdb g) = n;
  co_ptr : gpu_cmd_ptr (cmdb g) = k;
  co_len : zlen (gpu_cmd_buffer (cmdb g)) = 16
}.

Lemma collecting_word n k data x : collecting n k (gp x) -> 0 < n ->
  GPU_WriteGP0 data x = parameter_word data x.
Proof.
  intros [Hf Ht Hp Hc _ _] Hn. unfold GPU_WriteGP0. rewrite Hf. cbv zeta.
  rewrite (proj2 (Z.ltb_ge 0 _)) by exact Ht. rewrite Hp.
  rewrite (proj2 (Z.ltb_lt 0 _)) by lia. reflexivity.
Qed.

Definition store_cmd (data : Z) (c : CmdBuf) : CmdBuf :=
  mkCmdBuf (Z.pred (gpu_cmd_remaining c)) (aset (gpu_cmd_buffer c) (gpu_cmd_ptr c) data) (Z.succ (gpu_cmd_ptr c)).

Lemma parameter_word_eq data x :
  parameter_word data x
  = let x := upd_cmdb (store_cmd data) x in
    if gpu_cmd_remaining (cmdb (gp x)) =? 0 then run_command x else x.
Proof. reflexivity. Qed.

Lemma parameter_collect n k data x : collecting n k (gp x) -> 1 < n ->
  GPU_WriteGP0 data x = upd_cmdb (store_cmd data) x /\
  collecting (n - 1) (k + 1) (gp (upd_cmdb (store_cmd data) x)).
Proof.
  intros Hco Hn. rewrite (collecting_word n k) by (assumption || lia). rewrite parameter_word_eq. cbv zeta.
  destruct Hco as [Hf Ht Hp Hc Hk Hl].
  change (gpu_cmd_remaining (cmdb (gp (upd_cmdb (store_cmd data) x)))) with (Z.pred (gpu_cmd_remaining (cmdb (gp x)))).
  rewrite (proj2 (Z.eqb_neq (Z.pred _) 0)) by lia. split; [reflexivity|].
  split; try assumption.
  - change (Z.pred (gpu_cmd_remaining (cmdb (gp x))) = n - 1). lia.
  - change (Z.succ (gpu_cmd_ptr (cmdb (gp x))) = k + 1). lia.
  - change (zlen (aset (gpu_cmd_buffer (cmdb (gp x))) (gpu_cmd_ptr (cmdb (gp x))) data) = 16). rewrite zlen_aset. exact Hl.
Qed.

Lemma parameter_last k data x : collecting 1 k (gp x) ->
  GPU_WriteGP0 data x = run_command (upd_cmdb (store_cmd data) x).
Proof.
  intros Hco. rewrite (collecting_word 1 k) by (assumption || lia). rewrite parameter_word_eq. cbv zeta.
  change (gpu_cmd_remaining (cmdb (gp (upd_cmdb (store_cmd data) x)))) with (Z.pred (gpu_cmd_remaining (cmdb (gp x)))).
  rewrite (co_cmd _ _ _ Hco). reflexivity.
Qed.

Lemma begin_collecting data n x : idle (gp x) -> collecting n 1 (gp (begin_command data n x)).
Proof.
  intros [Hf Ht Hp Hc Hl]. split; try assumption; try reflexivity.
  change (zlen (aset (gpu_cmd_buffer (cmdb (gp x))) 0 data) = 16). rewrite zlen_aset. exact Hl.
Qed.

(** The three words of a command with two parameters. *)
Lemma three_words data x : idle (gp x) ->
  first_word (data 0) x = begin_command (data 0) 2 x ->
  exists b, aget b 0 = data 0 /\ aget b 1 = data 1 /\ aget b 2 = data 2 /\ zlen b = 16 /\
    write_words data 0 3 x = run_command (upd_cmdb (fun _ => mkCmdBuf 0 b 3) x).
Proof.
  intros Hid Hfirst. exists (aset (aset (aset (gpu_cmd_buffer (cmdb (gp x))) 0 (data 0)) 1 (data 1)) 2 (data 2)).
  pose proof (id_len _ Hid) as Hl. unfold aget. rewrite !anth_aset by (rewrite ?zlen_aset; lia).
  split; [reflexivity|]. split; [reflexivity|]. split; [reflexivity|]. split; [rewrite !zlen_aset; exact Hl|].
  change 3 with (0 + 1 + 1 + 1) at 1. rewrite !write_words_S by lia.
  change (write_words data 0 0 x) with x. change (0 + 0) with 0. change (0 + (0 + 1)) with 1. change (0 + (0 + 1 + 1)) with 2.
  rewrite (idle_first (data 0) x Hid), Hfirst. pose proof (begin_collecting (data 0) 2 x Hid) as Hco.
  destruct (parameter_collect 2 1 (data 1) _ Hco ltac:(lia)) as [-> Hco2].
  rewrite (parameter_last 2 (data 2) _ Hco2). reflexivity.
Qed.

Lemma s32_size w h : 0 <= w * h < 2147483648 -> s32 (w * h) = w * h.
Proof. intros Hs. unfold s32. rewrite u32_small by (unfold is_u32; lia). rewrite (proj2 (Z.ltb_lt _ _)) by lia. reflexivity. Qed.

Definition image_w (wh : Z) : Z := size_or (Z.land wh 0xFFFF) 1024.
Definition image_h (wh : Z) : Z := size_or (Z.shiftr wh 16) 512.

Lemma size_or_pos n d : 0 <= n -> 0 < d -> 0 < size_or n d.
Proof. intros Hn Hd. unfold size_or. destruct (Z.eqb_spec n 0); lia. Qed.

Lemma load_header data x : idle (gp x) -> Z.shiftr (data 0) 24 = 0xA0 -> is_u32 (data 0) ->
  let n := u32 (image_w (data 2) * image_h (data 2) + 1) / 2 in
  exists b, zlen b = 16 /\
  gp (write_words data 0 3 x)
  = (gp x) <| cmdb := mkCmdBuf 0 b 3 |>
         <| tx := mkVramTx n n (Z.land (data 1) 0xFFFF) (Z.shiftr (data 1) 16) (image_w (data 2)) (image_h (data 2)) 0 |>
         <| vram_gen_counter ::= fun n => u32 (n + 1) |>.
Proof.
  intros Hid Hcmd Hu. destruct (three_words data x Hid) as (b & E0 & E1 & E2 & Hl & ->).
  { unfold first_word. rewrite Hcmd. reflexivity. }
  exists b. split; [exact Hl|]. unfold run_command.
  change (gpu_cmd_buffer (cmdb (gp (upd_cmdb (fun _ => mkCmdBuf 0 b 3) x)))) with b. cbv zeta.
  rewrite E0, E1, E2, Hcmd. reflexivity.
Qed.

Lemma fill_ext chk rx ry w f g n v : (forall k, 0 <= k -> f k = g k) -> fill chk rx ry w f n v = fill chk rx ry w g n v.
Proof.
  intros Hfg. induction n as [|n IH]; [reflexivity|]. rewrite !fill_S, IH, Hfg by lia. reflexivity.
Qed.

(** The words of an image after its header, and the video memory they give. *)
Lemma load_image_vram data x : idle (gp x) ->
  Z.shiftr (data 0) 24 = 0xA0 -> is_u32 (data 0) -> is_u32 (data 2) ->
  let w := image_w (data 2) in let h := image_h (data 2) in
  w * h < 2147483648 ->
  let n := (w * h + 1) / 2 in
  let x' := write_words data 0 (3 + n) x in
  idle (gp x') /\
  vram (gp x') = fill (checking (gp x)) (Z.land (data 1) 0xFFFF) (Z.shiftr (data 1) 16) w
    (fun k => Z.lor (half (fun j => data (3 + j)) k) (mask_or (gp x))) (Z.to_nat (w * h)) (vram (gp x)).
Proof.
  intros Hid Hcmd Hu0 Hu2 w h Hsz n. cbv zeta.
  assert (Hw : 0 < w) by (apply size_or_pos; [apply Z.land_nonneg; lia | lia]).
  assert (Hh : 0 < h) by (apply size_or_pos; [apply Z.shiftr_nonneg; unfold is_u32 in Hu2; lia | lia]).
  assert (Hn : u32 (w * h + 1) / 2 = n) by (rewrite u32_small by (unfold is_u32; nia); reflexivity).
  assert (Hn0 : 0 < n) by (subst n; apply Z.div_str_pos; nia).
  rewrite write_words_app by lia. destruct (load_header data x Hid Hcmd Hu0) as (b & Hl & Hhdr).
  fold w h in Hhdr. rewrite Hn in Hhdr. set (x3 := write_words data 0 3 x) in *.
  change (0 + 3) with 3. clearbody x3.
  rewrite (upload_prefix data 3 x3 n n) by
    (rewrite ?Hhdr; first [apply (id_flush _ Hid) | reflexivity | exact Hw | lia]).
  rewrite Hhdr. unfold upload_state.
  change (mask_or _) with (mask_or (gp x)). change (checking _) with (checking (gp x)). rewrite Z.sub_diag. cbn [tx vram upd setter vram_tx_x vram_tx_y vram_tx_w vram_tx_h gpu_transfer_total].
  rewrite s32_size by nia. pose proof (Z.div_mod (w * h + 1) 2 ltac:(lia)) as Hdm.
  pose proof (Z.mod_pos_bound (w * h + 1) 2 ltac:(lia)). fold n in Hdm. split.
  - destruct Hid as [Hf Ht Hp Hcm Hlen]. split; [exact Hf | cbn; lia | exact Hp | cbn; lia | exact Hl].
  - apply gfill_fill. lia.
Qed.

Lemma in_fill_rect rx ry w h qx qy : 0 < w -> 0 <= h ->
  in_fill rx ry w (w * h) qx qy = (rx <=? qx) && (qx <? rx + w) && (ry <=? qy) && (qy <? ry + h).
Proof.
  intros Hw Hh. unfold in_fill. destruct (Z.leb_spec rx qx), (Z.ltb_spec qx (rx + w)), (Z.leb_spec ry qy); cbn [andb]; try reflexivity.
  destruct (Z.ltb_spec qy (ry + h)).
  - apply Z.ltb_lt. nia.
  - apply Z.ltb_ge. nia.
Qed.

(** [C23] An image written through the command port.  The three words of
    GP0(A0h) and the (w * h + 1) / 2 data words leave the command interface
    idle again, and of the w x h rectangle exactly the pixels that lie in the
    memory and, while mask checking is on, did not have bit 15 set before,
    hold the halfwords of the data in raster order, with bit 15 set when
    mask setting is on; every other pixel is unchanged.  A size of zero means
    1024 or 512; there is no wrap-around at the edges; sizes whose product does
    not fit 31 bits are left out. *)
Theorem load_image_exact data x : idle (gp x) ->
  Z.shiftr (data 0) 24 = 0xA0 -> (forall k, is_u32 (data k)) ->
  let w := image_w (data 2) in let h := image_h (data 2) in
  let rx := Z.land (data 1) 0xFFFF in let ry := Z.shiftr (data 1) 16 in
  w * h < 2147483648 ->
  let x' := write_words data 0 (3 + (w * h + 1) / 2) x in
  idle (gp x') /\
  forall qx qy, 0 <= qx < 1024 -> 0 <= qy < 512 ->
    let old := px (vram (gp x)) (qy * 1024 + qx) in
    let inside := (rx <=? qx) && (qx <? rx + w) && (ry <=? qy) && (qy <? ry + h) in
    let protected := negb (mask_check_bit (env (gp x)) =? 0) && Z.testbit old 15 in
    px (vram (gp x')) (qy * 1024 + qx)
    = if inside && negb protected
      then Z.lor (half (fun k => data (3 + k)) ((qy - ry) * w + (qx - rx)))
             (if mask_set_bit (env (gp x)) =? 0 then 0 else 0x8000)
      else old.
Proof.
  intros Hid Hcmd Hu w h rx ry Hsz. cbv zeta.
  destruct (load_image_vram data x Hid Hcmd (Hu 0) (Hu 2) Hsz) as [H1 H2]. split; [exact H1|].
  fold w h rx ry in H2. intros qx qy Hx Hy. rewrite H2. assert (Hw : 0 < w) by (apply size_or_pos; [apply Z.land_nonneg; lia | lia]).
  assert (Hh : 0 < h) by (apply size_or_pos; [apply Z.shiftr_nonneg, (Hu 2) | lia]).
  rewrite fill_px; [| apply Z.land_nonneg; lia | apply Z.shiftr_nonneg, (Hu 1) | exact Hw | exact Hx | exact Hy].
  rewrite Z2Nat.id by nia. rewrite in_fill_rect by lia. unfold masked, checking. change 0x8000 with (2 ^ 15). rewrite tst_pow2 by lia. reflexivity.
Qed.

(** *** The whole rectangle at once *)

Lemma fast_store_eq rx ry w p k v : 0 < w -> 0 <= k ->
  fast_store rx w p (mkFastPos (rx + k mod w) (ry + k / w) v)
  = mkFastPos (rx + (k + 1) mod w) (ry + (k + 1) / w) (pstore false rx ry w p k v).
Proof.
  intros Hw Hk. unfold fast_store, pstore, masked. cbn [andb negb]. rewrite andb_true_r. cbn [f_px f_py f_vram].
  pose proof (Z.div_mod k w ltac:(lia)) as Hdm. pose proof (Z.mod_pos_bound k w Hw) as Hb.
  destruct (Z.leb_spec (rx + w) (rx + k mod w + 1)) as [Hle | Hlt].
  - assert (E : k + 1 = (k / w + 1) * w) by lia.
    assert (E1 : (k + 1) mod w = 0) by (rewrite E; apply Z.mod_mul; lia).
    assert (E2 : (k + 1) / w = k / w + 1) by (rewrite E; apply Z.div_mul; lia).
    rewrite E1, E2, Z.add_0_r, (Z.add_assoc ry). reflexivity.
  - assert (E : k + 1 = (k mod w + 1) + (k / w) * w) by lia.
    assert (E1 : (k + 1) mod w = k mod w + 1) by (rewrite E, Z.mod_add, Z.mod_small by lia; reflexivity).
    assert (E2 : (k + 1) / w = k / w) by (rewrite E, Z.div_add, Z.div_small by lia; reflexivity).
    rewrite E1, E2, (Z.add_assoc rx _ 1). reflexivity.
Qed.

Lemma fast_words_fill rx ry w data n v : 0 < w ->
  f_vram (fold_left (fun t word => fast_word rx w word t) (map data (zseq n)) (mkFastPos rx ry v))
  = fill false rx ry w (half data) (2 * n) v.
Proof.
  intros Hw.
  assert (Heq : fold_left (fun t word => fast_word rx w word t) (map data (zseq n)) (mkFastPos rx ry v)
    = mkFastPos (rx + Z.of_nat (2 * n) mod w) (ry + Z.of_nat (2 * n) / w) (fill false rx ry w (half data) (2 * n) v)).
  { induction n as [|n IH].
    - cbn. rewrite Zmod_0_l, Zdiv_0_l, !Z.add_0_r. reflexivity.
    - rewrite zseq_snoc, map_app, fold_left_app, IH. cbn [map fold_left]. unfold fast_word.
      replace (2 * S n)%nat with (S (S (2 * n))) by lia. rewrite !fill_S, !Nat2Z.inj_succ, <- !Z.add_1_r.
      rewrite !fast_store_eq by lia. replace (Z.of_nat (2 * n)) with (2 * Z.of_nat n) by lia.
      rewrite half_even, half_odd. reflexivity. }
  rewrite Heq. reflexivity.
Qed.

Lemma upload_fast_vram coords dims data n x :
  let w := Z.land dims 0xFFFF in let h := Z.land (Z.shiftr dims 16) 0xFFFF in
  0 < w -> 0 < h -> 0 <= n ->
  vram (gp (GS_UploadRegionFast coords dims data n x))
  = fill false (Z.land coords 0x3FF) (Z.land (Z.shiftr coords 16) 0x1FF) w (half data) (Z.to_nat (2 * n)) (vram (gp x)).
Proof.
  intros w h Hw Hh Hn. unfold GS_UploadRegionFast. fold w h.
  rewrite (proj2 (Z.leb_gt w 0)), (proj2 (Z.leb_gt h 0)) by assumption. cbn [orb]. cbv zeta.
  replace (Z.to_nat (2 * n)) with (2 * Z.to_nat n)%nat by lia. rewrite <- fast_words_fill by exact Hw. reflexivity.
Qed.

(** The two ways an image reaches video memory agree: word by word
    through the command port, and as one rectangle when the whole image lies
    in a DMA block.  They agree for an even number of pixels at a place inside
    the memory, with the mask bits off; see the findings for the other
    cases. *)
Theorem upload_paths_agree data x : idle (gp x) ->
  mask_check_bit (env (gp x)) = 0 -> mask_set_bit (env (gp x)) = 0 ->
  Z.shiftr (data 0) 24 = 0xA0 -> (forall k, is_u32 (data k)) ->
  let w := Z.land (data 2) 0xFFFF in let h := Z.shiftr (data 2) 16 in
  0 < w -> 0 < h -> w * h < 2147483648 -> Z.Even (w * h) ->
  Z.land (data 1) 0xFFFF < 1024 -> Z.shiftr (data 1) 16 < 512 ->
  vram (gp (write_words data 0 (3 + w * h / 2) x))
  = vram (gp (GS_UploadRegionFast (data 1) (data 2) (fun k => data (3 + k)) (w * h / 2) x)).
Proof.
  intros Hid Hc Hset Hcmd Hu w h Hw Hh Hsz [m Hm] Hx Hy.
  assert (Ew : image_w (data 2) = w) by (unfold image_w, size_or; fold w; rewrite (proj2 (Z.eqb_neq w 0)) by lia; reflexivity).
  assert (Eh : image_h (data 2) = h) by (unfold image_h, size_or; fold h; rewrite (proj2 (Z.eqb_neq h 0)) by lia; reflexivity).
  assert (Eh2 : Z.land (Z.shiftr (data 2) 16) 0xFFFF = h).
  { fold h. change 0xFFFF with (Z.ones 16). rewrite Z.land_ones by lia. apply Z.mod_small. split; [lia|].
    unfold h. rewrite Z.shiftr_div_pow2 by lia. apply Z.div_lt_upper_bound; [lia|]. apply (Hu 2). }
  pose proof (load_image_vram data x Hid Hcmd (Hu 0) (Hu 2)) as HL. cbv zeta in HL. rewrite Ew, Eh in HL.
  destruct (HL Hsz) as [_ HV]. replace (w * h / 2) with ((w * h + 1) / 2) by (rewrite Hm; zify_div).
  rewrite HV, upload_fast_vram by (rewrite ?Eh2; first [exact Hw | exact Hh | zify_div]).
  replace ((w * h + 1) / 2) with m by (rewrite Hm; zify_div). rewrite <- Hm.
  assert (Ex : Z.land (data 1) 0x3FF = Z.land (data 1) 0xFFFF).
  { change 0x3FF with (Z.ones 10). change 0xFFFF with (Z.ones 16). rewrite !Z.land_ones in * by lia.
    change 0xFFFF with (Z.ones 16) in Hx. rewrite Z.land_ones in Hx by lia.
    rewrite <- (Z.mod_mod_divide (data 1) (2 ^ 16) (2 ^ 10)) by (exists 64; reflexivity).
    apply Z.mod_small. split; [apply Z.mod_pos_bound; lia | exact Hx]. }
  assert (Ey : Z.land (Z.shiftr (data 1) 16) 0x1FF = Z.shiftr (data 1) 16).
  { change 0x1FF with (Z.ones 9). rewrite Z.land_ones by lia. apply Z.mod_small. split; [apply Z.shiftr_nonneg, (Hu 1) | exact Hy]. }
  replace (checking (gp x)) with false by (unfold checking; rewrite Hc; reflexivity). rewrite Ex, Ey. apply fill_ext. intros k _. unfold mask_or. rewrite Hset. apply Z.lor_0_r.
Qed.

(** ** Copies inside the memory *)

Lemma fold_insert_px (base : Z) (f : Z -> Z) n : forall v i,
  px (fold_left (fun v c => <[base + c := f c]> v) (zseq n) v) i
  = if (base <=? i) && (i <? base + Z.of_nat n) then f (i - base) else px v i.
Proof.
  induction n as [|n IH]; intros v i.
  - cbn [zseq]. change (zseq 0) with (@nil Z). cbn [fold_left].
    destruct (Z.leb_spec base i), (Z.ltb_spec i (base + Z.of_nat 0)); cbn [andb]; try reflexivity. lia.
  - rewrite zseq_snoc, fold_left_app. cbn [fold_left].
    destruct (Z.eq_dec (base + Z.of_nat n) i) as [<- | Hne].
    + rewrite px_insert_eq, (proj2 (Z.leb_le _ _)), (proj2 (Z.ltb_lt _ _)) by lia. cbn [andb]. f_equal. lia.
    + rewrite px_insert_ne by exact Hne. rewrite IH.
      destruct (Z.leb_spec base i), (Z.ltb_spec i (base + Z.of_nat n)), (Z.ltb_spec i (base + Z.of_nat (S n)));
        cbn [andb]; try reflexivity; lia.
Qed.

Lemma copy_row_px w dst src v i : 0 <= w ->
  px (copy_row w dst src v) i = if (dst <=? i) && (i <? dst + w) then px v (src + (i - dst)) else px v i.
Proof.
  intros Hw. unfold copy_row. rewrite (fold_insert_px dst (fun k => aget (map (fun i => px v (src + i)) (zseq (Z.to_nat w))) k)).
  rewrite Z2Nat.id by exact Hw.
  destruct (Z.leb_spec dst i), (Z.ltb_spec i (dst + w)); cbn [andb]; try reflexivity.
  unfold aget, anth. rewrite nth_indep with (d' := px v (src + 0)) by (rewrite length_map; unfold zseq; rewrite length_map, length_seq; lia).
  rewrite (map_nth (fun i => px v (src + i))). f_equal. unfold zseq. rewrite (map_nth Z.of_nat _ 0%nat), seq_nth by lia. lia.
Qed.

Definition mem (z : Z) (l : list Z) : bool := existsb (Z.eqb z) l.
Lemma mem_spec z l : mem z l = true <-> In z l.
Proof.
  unfold mem. rewrite existsb_exists. split; [intros (y & Hy & E); apply Z.eqb_eq in E as ->; exact Hy | intros Hz; exists z; split; [exact Hz | apply Z.eqb_refl] ].
Qed.
Lemma mem_out z l : ~ In z l -> mem z l = false.
Proof. intros Hn. apply not_true_iff_false. rewrite mem_spec. exact Hn. Qed.

(** Rows copied one after another, no row read after it was written. *)
Lemma copy_rows_px sx sy dx dy w l : 0 <= sx -> sx + w <= 1024 -> 0 <= dx -> dx + w <= 1024 -> 0 <= w ->
  (forall l1 r l2 r', l = l1 ++ r :: l2 -> In r' l1 -> dy + r' <> sy + r) ->
  NoDup l ->
  forall v qx qy, 0 <= qx < 1024 ->
    px (fold_left (fun v row => copy_row w ((dy + row) * 1024 + dx) ((sy + row) * 1024 + sx) v) l v) (qy * 1024 + qx)
    = if (dx <=? qx) && (qx <? dx + w) && mem (qy - dy) l
      then px v ((sy + (qy - dy)) * 1024 + (sx + (qx - dx))) else px v (qy * 1024 + qx).
Proof.
  intros Hsx Hsw Hdx Hdw Hw. induction l as [|r l IH] using rev_ind; intros Hsep Hnd v qx qy Hx.
  - cbn [fold_left]. rewrite andb_false_r. reflexivity.
  - assert (Hsep' : forall l1 r0 l2 r', l = l1 ++ r0 :: l2 -> In r' l1 -> dy + r' <> sy + r0).
    { intros l1 r0 l2 r' E Hin. apply (Hsep l1 r0 (l2 ++ [r])); [rewrite E, <- app_assoc; reflexivity | exact Hin]. }
    apply NoDup_app in Hnd as (Hnd & Hdis & _). specialize (IH Hsep' Hnd).
    rewrite fold_left_app. cbn [fold_left]. rewrite copy_row_px by exact Hw.
    assert (Hnew : In (qy - dy) (l ++ [r]) <-> In (qy - dy) l \/ qy = dy + r).
    { rewrite in_app_iff. cbn [In]. split; (intros [?|?]; [left; assumption | right; lia]). }
    destruct (Z.leb_spec dx qx) as [H1|H1], (Z.ltb_spec qx (dx + w)) as [H2|H2];
      cbn [andb]; [| | |lia];
      [|rewrite (proj2 (andb_false_iff ((dy + r) * 1024 + dx <=? qy * 1024 + qx) _));
        [rewrite IH by exact Hx; rewrite ?(proj2 (Z.leb_le _ _) H1), ?(proj2 (Z.leb_gt _ _) H1), ?(proj2 (Z.ltb_ge _ _) H2); cbn [andb]; reflexivity|]..].
    2, 3: destruct (Z.lt_total qy (dy + r)) as [Hlt | [Heq | Hgt] ];
      [left; apply Z.leb_gt; lia | try (left; apply Z.leb_gt; lia); right; apply Z.ltb_ge; lia | right; apply Z.ltb_ge; lia].
    destruct (Z.eq_dec qy (dy + r)) as [-> | Hne].
    + rewrite (proj2 (Z.leb_le ((dy + r) * 1024 + dx) _)), (proj2 (Z.ltb_lt ((dy + r) * 1024 + qx) _)) by lia. cbn [andb].
      rewrite (proj2 (mem_spec _ _)) by (apply Hnew; right; reflexivity).
      replace ((sy + r) * 1024 + sx + ((dy + r) * 1024 + qx - ((dy + r) * 1024 + dx))) with ((sy + r) * 1024 + (sx + (qx - dx))) by lia.
      rewrite IH by lia. replace (sy + (dy + r - dy)) with (sy + r) by lia.
      rewrite (mem_out (sy + r - dy) l), andb_false_r; [reflexivity|].
      intros Hin. apply (Hsep l r [] (sy + r - dy)); [reflexivity | exact Hin | lia].
    + replace (((dy + r) * 1024 + dx <=? qy * 1024 + qx) && (qy * 1024 + qx <? (dy + r) * 1024 + dx + w)) with false.
      2: { symmetry. apply andb_false_iff. destruct (Z.lt_total qy (dy + r)) as [Hlt | [Heq | Hgt] ];
           [left; apply Z.leb_gt; lia | lia | right; apply Z.ltb_ge; lia]. }
      rewrite IH by exact Hx. rewrite (proj2 (Z.leb_le _ _) H1), (proj2 (Z.ltb_lt _ _) H2). cbn [andb].
      assert (Hb : mem (qy - dy) (l ++ [r]) = mem (qy - dy) l) by (apply eq_true_iff_eq; rewrite !mem_spec, Hnew; tauto).
      rewrite Hb. reflexivity.
Qed.

Lemma zseq_split n l1 r l2 : zseq n = l1 ++ r :: l2 -> forall r', In r' l1 -> r' < r.
Proof.
  intros E r' Hin. assert (Hs : forall i, (i < n)%nat -> nth i (zseq n) 0 = Z.of_nat i).
  { intros i Hi. unfold zseq. rewrite (map_nth Z.of_nat _ 0%nat), seq_nth by exact Hi. reflexivity. }
  assert (Hlen : length (zseq n) = n) by (unfold zseq; rewrite length_map, length_seq; reflexivity).
  rewrite E in Hlen. rewrite length_app in Hlen. cbn [length] in Hlen.
  apply (In_nth _ _ 0) in Hin as (i & Hi & <-).
  assert (E1 : nth i (zseq n) 0 = nth i l1 0) by (rewrite E; apply app_nth1, Hi).
  assert (E2 : nth (length l1) (zseq n) 0 = r) by (rewrite E, app_nth2, Nat.sub_diag by lia; reflexivity).
  rewrite Hs in E1, E2 by lia. lia.
Qed.

Lemma vram_copy_px sx sy dx dy w h v :
  0 <= sx -> 0 <= sy -> 0 <= dx -> 0 <= dy -> 0 <= w -> 0 <= h ->
  sx + w <= 1024 -> dx + w <= 1024 -> sy + h <= 512 -> dy + h <= 512 ->
  forall qx qy, 0 <= qx < 1024 ->
    px (vram_copy sx sy dx dy w h v) (qy * 1024 + qx)
    = if (dx <=? qx) && (qx <? dx + w) && ((dy <=? qy) && (qy <? dy + h))
      then px v ((sy + (qy - dy)) * 1024 + (sx + (qx - dx))) else px v (qy * 1024 + qx).
Proof.
  intros Hsx Hsy Hdx Hdy Hw Hh Hsw Hdw Hsh Hdh qx qy Hx. unfold vram_copy.
  rewrite (proj2 (Z.leb_le (sx + w) _) Hsw), (proj2 (Z.leb_le (dx + w) _) Hdw), (proj2 (Z.leb_le (sy + h) _) Hsh), (proj2 (Z.leb_le (dy + h) _) Hdh).
  cbn [andb]. cbv zeta.
  assert (Hin : forall l, (forall r, In r l <-> In r (zseq (Z.to_nat h))) -> mem (qy - dy) l = (dy <=? qy) && (qy <? dy + h)).
  { intros l Hl. destruct (Z.leb_spec dy qy), (Z.ltb_spec qy (dy + h)); cbn [andb];
      first [apply mem_spec, Hl, in_zseq; lia | apply mem_out; intros Hi; apply Hl, in_zseq in Hi; lia]. }
  assert (Hfwd : (forall r r', 0 <= r' < r -> r < h -> dy + r' <> sy + r) ->
    forall l1 r l2 r', zseq (Z.to_nat h) = l1 ++ r :: l2 -> In r' l1 -> dy + r' <> sy + r).
  { intros Hc l1 r l2 r' E Hi. assert (Hr : In r (zseq (Z.to_nat h))) by (rewrite E; apply in_app_iff; right; left; reflexivity).
    assert (Hr' : In r' (zseq (Z.to_nat h))) by (rewrite E; apply in_app_iff; left; exact Hi).
    apply in_zseq in Hr, Hr'. apply Hc; [split; [lia | apply (zseq_split _ l1 r l2 E), Hi] | lia]. }
  destruct (Z.eqb_spec sy dy) as [Es|Es]; cbn [andb].
  - match goal with |- px (if ?b then _ else _) _ = _ => destruct b end;
      [|rewrite (proj2 (Z.ltb_ge sy dy)) by lia; cbn [andb] ];
      (rewrite copy_rows_px; [rewrite (Hin (zseq (Z.to_nat h))) by reflexivity; reflexivity | try assumption ..]);
      try apply NoDup_zseq; apply Hfwd; lia.
  - destruct (Z.ltb_spec sy dy) as [Hlt|Hge]; cbn [andb].
    1: destruct (Z.ltb_spec dy (sy + h)) as [Ho|Ho].
    + rewrite copy_rows_px; [rewrite (Hin (rev (zseq (Z.to_nat h)))) by (intros r; symmetry; apply in_rev); reflexivity | try assumption ..].
      * intros l1 r l2 r' E Hi. assert (E' : zseq (Z.to_nat h) = rev l2 ++ r :: rev l1).
        { rewrite <- (rev_involutive (zseq _)), E, rev_app_distr. cbn [rev]. rewrite <- app_assoc. reflexivity. }
        intros Heq. apply in_split in Hi as (a & b & ->).
        rewrite rev_app_distr in E'. cbn [rev] in E'. rewrite <- !app_assoc in E'. cbn [app] in E'.
        assert (Hrr : r < r').
        { apply (zseq_split (Z.to_nat h) (rev l2 ++ r :: rev b) r' (rev a)); [rewrite E', <- app_assoc; reflexivity|].
          apply in_app_iff. right. left. reflexivity. }
        lia.
      * rewrite <- Permutation_rev. apply NoDup_zseq.
    + rewrite copy_rows_px; [rewrite (Hin (zseq (Z.to_nat h))) by reflexivity; reflexivity | try assumption ..];
        [apply Hfwd; lia | apply NoDup_zseq].
    + rewrite copy_rows_px; [rewrite (Hin (zseq (Z.to_nat h))) by reflexivity; reflexivity | try assumption ..];
        [apply Hfwd; lia | apply NoDup_zseq].
Qed.

(** The four words of a command with three parameters. *)
Lemma four_words data x : idle (gp x) ->
  first_word (data 0) x = begin_command (data 0) 3 x ->
  exists b, aget b 0 = data 0 /\ aget b 1 = data 1 /\ aget b 2 = data 2 /\ aget b 3 = data 3 /\ zlen b = 16 /\
    write_words data 0 4 x = run_command (upd_cmdb (fun _ => mkCmdBuf 0 b 4) x).
Proof.
  intros Hid Hfirst.
  exists (aset (aset (aset (aset (gpu_cmd_buffer (cmdb (gp x))) 0 (data 0)) 1 (data 1)) 2 (data 2)) 3 (data 3)).
  pose proof (id_len _ Hid) as Hl. unfold aget. rewrite !anth_aset by (rewrite ?zlen_aset; lia).
  split; [reflexivity|]. split; [reflexivity|]. split; [reflexivity|]. split; [reflexivity|].
  split; [rewrite !zlen_aset; exact Hl|].
  change 4 with (0 + 1 + 1 + 1 + 1) at 1. rewrite !write_words_S by lia.
  change (write_words data 0 0 x) with x. change (0 + 0) with 0. change (0 + (0 + 1)) with 1.
  change (0 + (0 + 1 + 1)) with 2. change (0 + (0 + 1 + 1 + 1)) with 3.
  rewrite (idle_first (data 0) x Hid), Hfirst. pose proof (begin_collecting (data 0) 3 x Hid) as Hco.
  destruct (parameter_collect 3 1 (data 1) _ Hco ltac:(lia)) as [-> Hco2].
  destruct (parameter_collect 2 2 (data 2) _ Hco2 ltac:(lia)) as [-> Hco3].
  rewrite (parameter_last 3 (data 3) _ Hco3). reflexivity.
Qed.

Lemma cmd_byte_small d : is_u32 d -> Z.land (Z.shiftr d 24) 0xFF = Z.shiftr d 24.
Proof.
  intros Hd. change 0xFF with (Z.ones 8). rewrite Z.land_ones by lia. apply Z.mod_small.
  rewrite Z.shiftr_div_pow2 by lia. unfold is_u32 in Hd. split; [apply Z.div_pos; lia | apply Z.div_lt_upper_bound; lia].
Qed.

Lemma copy_byte_not c k : Z.land c 0xE0 = 0x80 -> Z.land k 0xE0 <> 0x80 -> (c =? k) = false.
Proof. intros Hc Hk. apply Z.eqb_neq. intros ->. contradiction. Qed.

Lemma size_or_bound n d lim : 0 <= n -> n < lim -> 0 < d <= lim -> 0 < size_or n d <= lim.
Proof. intros H1 H2 H3. unfold size_or. destruct (Z.eqb_spec n 0); lia. Qed.


(** ** Downloads *)

(** Reading the data port [n] times. *)
Fixpoint read_words (n : nat) (g : Gpu) : list Z * Gpu :=
  match n with
  | O => ([], g)
  | S n => let '(v, g) := GPU_Read g in let '(vs, g) := read_words n g in (v :: vs, g)
  end.

(** Pixel [k] of a rectangle as the read port sees it. *)
Definition rect_px (v : gmap Z Z) (rx ry w k : Z) : Z :=
  let qx := rx + k mod w in let qy := ry + k / w in
  if (qx <? 1024) && (qy <? 512) then px v (qy * 1024 + qx) else 0.

Definition rect_word (v : gmap Z Z) (rx ry w j : Z) : Z :=
  Z.lor (rect_px v rx ry w (2 * j)) (Z.shiftl (rect_px v rx ry w (2 * j + 1)) 16).

Lemma GPU_Read_eq g : 0 < vram_read_remaining (rdx g) -> 0 < vram_read_w (rdx g) ->
  let t := rdx g in
  let v := Z.lor (rect_px (vram g) (vram_read_x t) (vram_read_y t) (vram_read_w t) (vram_read_pixel t))
                 (Z.shiftl (rect_px (vram g) (vram_read_x t) (vram_read_y t) (vram_read_w t) (Z.succ (vram_read_pixel t))) 16) in
  GPU_Read g
  = (v, g <| rdx := mkVramRd (vram_read_x t) (vram_read_y t) (vram_read_w t) (vram_read_h t)
                      (Z.pred (vram_read_remaining t)) (Z.succ (Z.succ (vram_read_pixel t))) |>
          <| gpu_stat ::= fun s => if Z.pred (vram_read_remaining t) =? 0 then Z.land s (not32 0x08000000) else s |>
          <| gpu_read := v |>).
Proof.
  intros Hr Hw. cbv zeta. unfold GPU_Read. rewrite (proj2 (Z.ltb_lt _ _) Hr), (proj2 (Z.ltb_lt _ _) Hw).
  unfold read_pixel, rect_px. cbv zeta. destruct g as [? ? ? ? ? ? ? ? ? ? t ? ? ? v]. destruct t as [X Y W HH rem p].
  cbn [rdx vram vram_read_x vram_read_y vram_read_w vram_read_h vram_read_pixel vram_read_remaining upd setter].
  destruct (Z.pred rem =? 0); reflexivity.
Qed.

Lemma read_words_rect n : forall g j, 0 <= j -> 0 < vram_read_w (rdx g) ->
  vram_read_remaining (rdx g) = Z.of_nat n -> vram_read_pixel (rdx g) = 2 * j ->
  fst (read_words n g)
    = map (fun i => rect_word (vram g) (vram_read_x (rdx g)) (vram_read_y (rdx g)) (vram_read_w (rdx g)) (j + i)) (zseq n) /\
  vram_read_remaining (rdx (snd (read_words n g))) = 0 /\
  (0 < n -> tst (gpu_stat (snd (read_words n g))) 0x08000000 = false)%nat.
Proof.
  induction n as [|n IH]; intros g j Hj Hw Hr Hp.
  - split; [reflexivity|]. split; [exact Hr | lia].
  - cbn [read_words]. rewrite GPU_Read_eq by lia. cbv zeta. set (g1 := _ <| gpu_read := _ |>).
    destruct (IH g1 (j + 1)) as (H1 & H2 & H3).
    { lia. } { exact Hw. } { change (Z.pred (vram_read_remaining (rdx g)) = Z.of_nat n). lia. }
    { change (Z.succ (Z.succ (vram_read_pixel (rdx g))) = 2 * (j + 1)). lia. }
    destruct (read_words n g1) as [vs g2] eqn:E2. cbn [fst snd] in *. split; [|split; [exact H2|]].
    + rewrite H1. change (zseq (S n)) with (0 :: map Z.of_nat (seq 1 n)). cbn [map]. f_equal.
      * unfold rect_word. rewrite Hp, Z.add_0_r, <- Z.add_1_r. reflexivity.
      * unfold zseq. rewrite <- seq_shift, !map_map. apply map_ext. intros i.
        rewrite Nat2Z.inj_succ, <- Z.add_1_l, Z.add_assoc. reflexivity.
    + intros _. destruct n as [|n]; [|apply H3; lia]. cbn [read_words] in E2. injection E2 as <- <-.
      change (gpu_stat g1) with (if Z.pred (vram_read_remaining (rdx g)) =? 0 then Z.land (gpu_stat g) (not32 0x08000000) else gpu_stat g).
      rewrite Hr. change (Z.pred (Z.of_nat 1) =? 0) with true. cbv iota. unfold tst.
      rewrite <- Z.land_assoc. change (Z.land (not32 0x08000000) 0x08000000) with 0. rewrite Z.land_0_r. reflexivity.
Qed.

Lemma fold_left_ext_in {A B} (f g : A -> B -> A) l : forall a,
  (forall a b, In b l -> f a b = g a b) -> fold_left f l a = fold_left g l a.
Proof.
  induction l as [|b l IH]; intros a Hfg; [reflexivity|]. cbn [fold_left].
  rewrite (Hfg a b) by (left; reflexivity). apply IH. intros a' b' Hb. apply Hfg. right. exact Hb.
Qed.

Lemma wrap_once_id v lim : v < lim -> wrap_once v lim = v.
Proof. intros Hv. unfold wrap_once. rewrite (proj2 (Z.leb_gt lim v)) by exact Hv. reflexivity. Qed.

Lemma readback_row_px pixels rx ry w w_al v row i : 0 <= w -> rx + w <= 1024 -> ry + row < 512 ->
  px (readback_row pixels rx ry w w_al v row) i
  = let base := (ry + row) * 1024 + rx in
    if (base <=? i) && (i <? base + w) then Z.land (pixels (row * w_al + (i - base))) 0x7FFF else px v i.
Proof.
  intros Hw Hrx Hry. cbv zeta. rewrite <- (Z2Nat.id w) at 2 by exact Hw.
  rewrite <- (fold_insert_px ((ry + row) * 1024 + rx) (fun c => Z.land (pixels (row * w_al + c)) 0x7FFF)).
  unfold readback_row. f_equal. apply fold_left_ext_in. intros a c Hc. apply in_zseq in Hc.
  rewrite !wrap_once_id by lia. rewrite Z.add_assoc. reflexivity.
Qed.

Lemma readback_px pixels rx ry w w_al n : forall v qx qy, 0 <= rx -> 0 <= w -> rx + w <= 1024 -> ry + Z.of_nat n <= 512 ->
  0 <= qx < 1024 ->
  px (fold_left (readback_row pixels rx ry w w_al) (zseq n) v) (qy * 1024 + qx)
  = if (rx <=? qx) && (qx <? rx + w) && ((ry <=? qy) && (qy <? ry + Z.of_nat n))
    then Z.land (pixels ((qy - ry) * w_al + (qx - rx))) 0x7FFF else px v (qy * 1024 + qx).
Proof.
  induction n as [|n IH]; intros v qx qy Hrx Hw Hxw Hyn Hx.
  - change (zseq 0) with (@nil Z). cbn [fold_left].
    destruct (Z.leb_spec ry qy), (Z.ltb_spec qy (ry + Z.of_nat 0)); cbn [andb]; rewrite ?andb_false_r; try reflexivity. lia.
  - rewrite zseq_snoc, fold_left_app. cbn [fold_left]. rewrite readback_row_px by lia. cbv zeta. rewrite IH by lia.
    destruct (Z.leb_spec rx qx) as [H1|H1], (Z.ltb_spec qx (rx + w)) as [H2|H2]; cbn [andb]; try lia;
      [destruct (Z.eq_dec qy (ry + Z.of_nat n)) as [-> | Hne]|..].
    + rewrite (proj2 (Z.leb_le ((ry + Z.of_nat n) * 1024 + rx) _)), (proj2 (Z.ltb_lt ((ry + Z.of_nat n) * 1024 + qx) _)),
        (proj2 (Z.leb_le ry _)), (proj2 (Z.ltb_lt _ (ry + Z.of_nat (S n)))) by lia. cbn [andb].
      replace (ry + Z.of_nat n - ry) with (Z.of_nat n) by lia.
      replace ((ry + Z.of_nat n) * 1024 + qx - ((ry + Z.of_nat n) * 1024 + rx)) with (qx - rx) by lia. reflexivity.
    + replace (((ry + Z.of_nat n) * 1024 + rx <=? qy * 1024 + qx) && (qy * 1024 + qx <? (ry + Z.of_nat n) * 1024 + rx + w)) with false.
      2: { symmetry. apply andb_false_iff. destruct (Z.lt_total qy (ry + Z.of_nat n)) as [? | [? | ?] ];
           [left; apply Z.leb_gt; lia | lia | right; apply Z.ltb_ge; lia]. }
      destruct (Z.leb_spec ry qy), (Z.ltb_spec qy (ry + Z.of_nat n)), (Z.ltb_spec qy (ry + Z.of_nat (S n))); cbn [andb]; try reflexivity; lia.
    + replace (((ry + Z.of_nat n) * 1024 + rx <=? qy * 1024 + qx) && (qy * 1024 + qx <? (ry + Z.of_nat n) * 1024 + rx + w)) with false; [reflexivity|].
      symmetry. apply andb_false_iff. destruct (Z.lt_total qy (ry + Z.of_nat n)) as [? | [? | ?] ];
        [left; apply Z.leb_gt; lia | right; apply Z.ltb_ge; lia | right; apply Z.ltb_ge; lia].
    + replace (((ry + Z.of_nat n) * 1024 + rx <=? qy * 1024 + qx) && (qy * 1024 + qx <? (ry + Z.of_nat n) * 1024 + rx + w)) with false; [reflexivity|].
      symmetry. apply andb_false_iff. destruct (Z.lt_total qy (ry + Z.of_nat n)) as [? | [? | ?] ];
        [left; apply Z.leb_gt; lia | left; apply Z.leb_gt; lia | right; apply Z.ltb_ge; lia].
Qed.

Definition w_aligned (w : Z) : Z := Z.land (w + 7) (Z.lnot 7).

(** The state after the three words of GP0(C0h), with the pixels the renderer
    hands back. *)
Definition store_state (g : Gpu) (b : list Z) (xy wh : Z) (pixels : option (Z -> Z)) : Gpu :=
  let w := image_w wh in let h := image_h wh in
  g <| cmdb := mkCmdBuf 0 b 3 |>
    <| rdx := mkVramRd (Z.land xy 0xFFFF) (Z.shiftr xy 16) w h (s32 (w * h + 1) ÷ 2) 0 |>
    <| gpu_stat ::= fun v => Z.lor v 0x08000000 |>
    <| vram ::= fun v => match pixels with
         | Some f => fold_left (readback_row f (Z.land xy 0xFFFF) (Z.shiftr xy 16) w (w_aligned w)) (zseq (Z.to_nat h)) v
         | None => v end |>.

Lemma store_header data x : idle (gp x) -> Z.shiftr (data 0) 24 = 0xC0 -> (forall k, is_u32 (data k)) ->
  exists b y, zlen b = 16 /\ vram (gp y) = vram (gp x) /\
  gp (write_words data 0 3 x)
  = store_state (gp x) b (data 1) (data 2)
      (GS_ReadbackRegion (Z.land (data 1) 0xFFFF) (Z.shiftr (data 1) 16) (w_aligned (image_w (data 2))) (image_h (data 2)) y).
Proof.
  intros Hid Hcmd Hu. destruct (three_words data x Hid) as (b & E0 & E1 & E2 & Hl & ->).
  { unfold first_word. rewrite Hcmd. reflexivity. }
  unfold run_command. change (gpu_cmd_buffer (cmdb (gp (upd_cmdb (fun _ => mkCmdBuf 0 b 3) x)))) with b. cbv zeta.
  rewrite E0, E1, E2, Hcmd. change (0xC0 =? 0xA0) with false. change (0xC0 =? 0xC0) with true. cbv iota.
  unfold start_store_image. cbv zeta. fold (image_w (data 2)) (image_h (data 2)).
  set (y := set_stat _ _). exists b, (call C_Flush y). split; [exact Hl|]. split; [reflexivity|].
  unfold GPU_Backend_VRAMReadback. fold (w_aligned (image_w (data 2))). cbv zeta.
  assert (Hw : 0 < image_w (data 2)) by (apply size_or_pos; [apply Z.land_nonneg; lia | lia]).
  assert (Hh : 0 < image_h (data 2)) by (apply size_or_pos; [apply Z.shiftr_nonneg, (Hu 2) | lia]).
  rewrite (proj2 (Z.leb_gt _ 0) Hw), (proj2 (Z.leb_gt _ 0) Hh). cbn [orb].
  destruct (GS_ReadbackRegion _ _ _ _ (call C_Flush y)); reflexivity.
Qed.

Lemma stat_bit27 s : tst (Z.lor s 0x08000000) 0x08000000 = true.
Proof.
  unfold tst. rewrite Z.land_lor_distr_l. change (Z.land 0x08000000 0x08000000) with 0x08000000.
  apply negb_true_iff, Z.eqb_neq. intros E. apply Z.lor_eq_0_iff in E as [_ E]. discriminate.
Qed.

Lemma inside_px (v : gmap Z Z) rx ry w h k : 0 < w -> rx + w <= 1024 -> ry + h <= 512 -> 0 <= k < w * h ->
  rect_px v rx ry w k = px v ((ry + k / w) * 1024 + (rx + k mod w)).
Proof.
  intros Hw Hx Hy Hk. pose proof (Z.mod_pos_bound k w Hw) as Hb.
  assert (Hq : k / w < h) by (apply Z.div_lt_upper_bound; lia).
  unfold rect_px. rewrite (proj2 (Z.ltb_lt (rx + k mod w) 1024)), (proj2 (Z.ltb_lt (ry + k / w) 512)) by lia. reflexivity.
Qed.

(** The pixel of a readback, as it is stored and read. *)
Lemma readback_rect_px f rx ry w h (v : gmap Z Z) k :
  0 <= rx -> 0 <= ry -> 0 < w -> 0 <= h -> rx + w <= 1024 -> ry + h <= 512 -> 0 <= k < w * h ->
  rect_px (fold_left (readback_row f rx ry w (w_aligned w)) (zseq (Z.to_nat h)) v) rx ry w k
  = Z.land (f (k / w * w_aligned w + k mod w)) 0x7FFF.
Proof.
  intros Hrx Hry Hw Hh Hx Hy Hk. pose proof (Z.mod_pos_bound k w Hw) as Hb.
  assert (Hq : 0 <= k / w < h) by (split; [apply Z.div_pos; lia | apply Z.div_lt_upper_bound; lia]).
  rewrite (inside_px _ _ _ _ h) by lia. rewrite readback_px by lia. rewrite Z2Nat.id by lia.
  rewrite (proj2 (Z.leb_le rx _)), (proj2 (Z.ltb_lt _ (rx + w))), (proj2 (Z.leb_le ry _)), (proj2 (Z.ltb_lt _ (ry + h))) by lia.
  cbn [andb]. replace (ry + k / w - ry) with (k / w) by lia. replace (rx + k mod w - rx) with (k mod w) by lia. reflexivity.
Qed.

(** [C29] A download is the rectangle.  An idle port that takes GP0(C0h) for a
    rectangle inside the memory asks the renderer, with the video memory as it
    is, for the rows rounded up to eight pixels, and announces the data in
    GPUSTAT bit 27; reading the data port then gives (w * h + 1) / 2 words,
    each of two pixels in raster order: what the renderer answered, without
    the mask bits, or what the shadow copy holds if it does not answer.  (Of
    the last word of an odd count only the low half is stated.)  After the
    last word bit 27 is clear. *)
Theorem image_download_exact data x : idle (gp x) -> Z.shiftr (data 0) 24 = 0xC0 -> (forall k, is_u32 (data k)) ->
  let w := image_w (data 2) in let h := image_h (data 2) in
  let rx := Z.land (data 1) 0xFFFF in let ry := Z.shiftr (data 1) 16 in
  rx + w <= 1024 -> ry + h <= 512 ->
  let n := (w * h + 1) / 2 in
  let asked := write_words data 0 3 x in
  tst (gpu_stat (gp asked)) 0x08000000 = true /\
  exists y, vram (gp y) = vram (gp x) /\
    let pixel k :=
      match GS_ReadbackRegion rx ry (w_aligned w) h y with
      | Some f => Z.land (f (k / w * w_aligned w + k mod w)) 0x7FFF
      | None => px (vram (gp x)) ((ry + k / w) * 1024 + (rx + k mod w))
      end in
    let '(words, g) := read_words (Z.to_nat n) (gp asked) in
    zlen words = n /\
    (forall j, 0 <= j < n -> exists upper, (2 * j + 1 < w * h -> upper = pixel (2 * j + 1)) /\
      aget words j = Z.lor (pixel (2 * j)) (Z.shiftl upper 16)) /\
    tst (gpu_stat g) 0x08000000 = false /\ vram_read_remaining (rdx g) = 0.
Proof.
  intros Hid Hcmd Hu w h rx ry Hx Hy n. cbv zeta.
  assert (Hw : 0 < w) by (apply size_or_pos; [apply Z.land_nonneg; lia | lia]).
  assert (Hh : 0 < h) by (apply size_or_pos; [apply Z.shiftr_nonneg, (Hu 2) | lia]).
  assert (Hrx : 0 <= rx) by (apply Z.land_nonneg; lia). assert (Hry : 0 <= ry) by (apply Z.shiftr_nonneg, (Hu 1)).
  destruct (store_header data x Hid Hcmd Hu) as (b & y & _ & Hvy & ->).
  fold w h rx ry. set (pixels := GS_ReadbackRegion rx ry (w_aligned w) h y).
  set (g := store_state (gp x) b (data 1) (data 2) pixels).
  assert (Hn : s32 (w * h + 1) ÷ 2 = n).
  { unfold s32. rewrite u32_small by (unfold is_u32; nia). rewrite (proj2 (Z.ltb_lt _ _)) by nia.
    apply Z.quot_div_nonneg; nia. }
  assert (Hn2 : 2 * n = w * h \/ 2 * n = w * h + 1) by (subst n; zify_div).
  split; [apply stat_bit27|]. exists y. split; [exact Hvy|].
  destruct (read_words_rect (Z.to_nat n) g 0 ltac:(lia) Hw) as (H1 & H2 & H3);
    [change (vram_read_remaining (rdx g)) with (s32 (w * h + 1) ÷ 2); rewrite Hn; lia | reflexivity |].
  destruct (read_words (Z.to_nat n) g) as [words g'] eqn:Er. cbn [fst snd] in H1, H2, H3.
  assert (Hpos : 0 < n) by nia. subst words.
  split; [rewrite zlen_map_zseq; lia|]. split; [|split; [apply H3; lia | exact H2] ].
  intros j Hj. unfold aget at 1. rewrite anth_map_zseq by lia.
  change (vram_read_x (rdx g)) with rx. change (vram_read_y (rdx g)) with ry. change (vram_read_w (rdx g)) with w.
  assert (Hpx : forall k, 0 <= k < w * h -> rect_px (vram g) rx ry w k
    = match pixels with Some f => Z.land (f (k / w * w_aligned w + k mod w)) 0x7FFF
      | None => px (vram (gp x)) ((ry + k / w) * 1024 + (rx + k mod w)) end).
  { intros k Hk. change (vram g) with (match pixels with
       | Some f => fold_left (readback_row f rx ry w (w_aligned w)) (zseq (Z.to_nat h)) (vram (gp x)) | None => vram (gp x) end).
    destruct pixels as [f|]; [apply readback_rect_px; lia | apply (inside_px _ _ _ _ h); lia]. }
  exists (rect_px (vram g) rx ry w (2 * j + 1)). split; [intros Hlt; apply Hpx; lia|].
  unfold rect_word. rewrite ?Z.add_0_l. rewrite (Hpx (2 * j)) by lia. reflexivity.
Qed.

(** GP0(C0h) with coordinates outside the memory writes outside the
    shadow copy: the coordinates are taken from 16-bit fields and wrapped at
    most once, so that a readback of a single pixel at column [rx] >= 2048
    stores it at an index past the end of the row, and in the last row past
    the end of the array of 1024 * 512 pixels. *)
Theorem readback_out_of_bounds data x f : idle (gp x) ->
  Z.shiftr (data 0) 24 = 0xC0 -> (forall k, is_u32 (data k)) ->
  image_w (data 2) = 1 -> image_h (data 2) = 1 -> 2048 <= Z.land (data 1) 0xFFFF -> Z.shiftr (data 1) 16 = 511 ->
  (forall rx ry w h y, GS_ReadbackRegion rx ry w h y = Some f) -> Z.land (f 0) 0x7FFF <> 0 ->
  exists i, 1024 * 512 <= i /\ px (vram (gp (write_words data 0 3 x))) i = Z.land (f 0) 0x7FFF.
Proof.
  intros Hid Hcmd Hu Ew Eh Hx Hy Hrb Hf. destruct (store_header data x Hid Hcmd Hu) as (b & y & _ & _ & ->).
  rewrite Hrb. unfold store_state. rewrite Ew, Eh, Hy. cbn [vram upd setter].
  exists (511 * 1024 + (Z.land (data 1) 0xFFFF - 1024)). split; [lia|].
  change (zseq (Z.to_nat 1)) with [0]. cbn [fold_left]. unfold readback_row. change (zseq (Z.to_nat 1)) with [0]. cbn [fold_left].
  change (wrap_once (511 + 0) 512) with 511. unfold wrap_once. rewrite Z.add_0_r, (proj2 (Z.leb_le _ _)) by lia.
  apply px_insert_eq.
Qed.
End Port.

(** ** A renderer that records its calls *)

Definition Log : Type := list GpuCall.

Definition log_readback (rx ry w h : Z) (x : GpuSys Log) : option (Z -> Z) :=
  Some (fun k => px (vram (gp x)) ((ry + k / w) * 1024 + (rx + k mod w))).

(** Commands are only counted, in words. *)
Definition log_translate (p : Z -> Z) (x : GpuSys Log) : Z * GpuSys Log :=
  (GPU_GetCommandSize (Z.shiftr (p 0) 24), (gp x, C_LineSegment 0 0 (p 0) 0 0 0 false false :: snd (fst x), snd x)).

#[export] Instance log_backend : GpuBackend Log := {
  backend := fun _ _ _ _ c l => c :: l;
  Translate_GP0_to_GS := log_translate;
  GPU_TryFastEmit := fun _ x => (0, x);
  GPU_TryBatchAdd := fun _ x => (0, x);
  GPU_Backend_TryFastPoly := fun _ x => (0, x);
  GS_ReadbackRegion := log_readback;
  gpu_estimated_pixels := fun l => Z.of_nat (length l);
  Timer0_RefreshDividerCache := fun x => x;
  Sched_Tick_all := fun _ x => x
}.

Definition gpu_start : GpuSys Log := (gpu_init, [], sys0).

Lemma gpu_start_idle : idle (gp gpu_start).
Proof. split; cbn; reflexivity || lia. Qed.

(** An upload of 5 x 2 pixels to (3, 7). *)
Definition up_words (k : Z) : Z := aget [0xA0000000; 0x00070003; 0x00020005; 0x11112222; 0x33334444; 0x55556666; 0x77778888; 0x9999AAAA] k.
Definition down_words (k : Z) : Z := aget [0xC0000000; 0x00070003; 0x00020005] k.

Lemma aget_u32 l : Forall is_u32 l -> forall k, is_u32 (aget l k).
Proof. intros Hl k. apply Forall_aget; [unfold is_u32; lia | exact Hl]. Qed.
Ltac words_u32 := apply aget_u32; repeat constructor; unfold is_u32; lia.

Lemma load_image_exact_witness :
  px (vram (gp (write_words up_words 0 (3 + (5 * 2 + 1) / 2) gpu_start))) (8 * 1024 + 4) = 0x8888.
Proof.
  destruct (load_image_exact up_words gpu_start gpu_start_idle eq_refl ltac:(words_u32) ltac:(vm_compute; reflexivity)) as [_ Hpx].
  etransitivity; [exact (Hpx 4 8 ltac:(lia) ltac:(lia)) | vm_compute; reflexivity].
Defined.

Lemma upload_paths_agree_witness :
  vram (gp (write_words up_words 0 (3 + 5 * 2 / 2) gpu_start))
  = vram (gp (GS_UploadRegionFast 0x00070003 0x00020005 (fun k => up_words (3 + k)) (5 * 2 / 2) gpu_start)).
Proof.
  apply (upload_paths_agree up_words gpu_start gpu_start_idle eq_refl eq_refl eq_refl);
    [words_u32 | reflexivity | reflexivity | reflexivity | exists 5; reflexivity | reflexivity | reflexivity].
Defined.

(** A copy of 4 x 3 pixels one row down and one column right, onto itself. *)
Definition copy_words (k : Z) : Z := aget [0x80000000; 0x00070003; 0x00080004; 0x00030004] k.

Definition copy_start : GpuSys Log := write_words up_words 0 8 gpu_start.
Lemma copy_start_idle : idle (gp copy_start).
Proof. split; vm_compute; (reflexivity || discriminate). Qed.


(** The 5 x 2 pixels uploaded, asked back of the renderer, which keeps no
    mask bits: of 8888h comes 0888h. *)
Lemma image_download_exact_witness :
  aget (fst (read_words 5 (gp (write_words down_words 0 3 copy_start)))) 3 = 0x77770888.
Proof.
  destruct (image_download_exact down_words copy_start copy_start_idle eq_refl
    ltac:(words_u32) ltac:(vm_compute; discriminate) ltac:(vm_compute; discriminate)) as (_ & y & Hy & Hrest).
  change (Z.to_nat ((image_w (down_words 2) * image_h (down_words 2) + 1) / 2)) with 5%nat in Hrest.
  cbv zeta in Hrest. destruct (read_words 5 _) as [words g]. cbn [fst]. destruct Hrest as (_ & Hw & _).
  destruct (Hw 3 ltac:(vm_compute; split; [discriminate | reflexivity])) as (upper & Hu & ->).
  rewrite (Hu eq_refl). change (GS_ReadbackRegion (GpuBackend := log_backend)) with log_readback.
  unfold log_readback. rewrite Hy. vm_compute. reflexivity.
Defined.

(** A renderer whose video memory is all white. *)
Definition white_backend : GpuBackend Log := {|
  backend := fun _ _ _ _ c l => c :: l;
  Translate_GP0_to_GS := log_translate;
  GPU_TryFastEmit := fun _ x => (0, x);
  GPU_TryBatchAdd := fun _ x => (0, x);
  GPU_Backend_TryFastPoly := fun _ x => (0, x);
  GS_ReadbackRegion := fun _ _ _ _ _ => Some (fun _ => 0x7FFF);
  gpu_estimated_pixels := fun l => Z.of_nat (length l);
  Timer0_RefreshDividerCache := fun x => x;
  Sched_Tick_all := fun _ x => x
|}.

Definition far_words (k : Z) : Z := aget [0xC0000000; 0x01FF0800; 0x00010001] k.

Lemma readback_out_of_bounds_witness :
  exists i, 1024 * 512 <= i /\ px (vram (gp (@write_words Log white_backend far_words 0 3 gpu_start))) i = 0x7FFF.
Proof.
  apply (@readback_out_of_bounds Log white_backend far_words gpu_start (fun _ => 0x7FFF) gpu_start_idle eq_refl ltac:(words_u32) eq_refl eq_refl);
    [vm_compute; discriminate | reflexivity | reflexivity | discriminate].
Defined.
