(* ===== verification/Gif.v ===== *)
(** * Packets for the graphics chip ([platform/ps2/gpu_ps2_gif.c], [gpu_ps2_vram.c], [gpu_ps2_backend.c])

    The double-buffered packet stream to the console's graphics chip, the
    packing of pixels into 128-bit words, and the four ways pixels are sent:
    word by word, as a rectangle of given words, from an array, and from the
    shadow copy of the video memory. *)

From S2P Require Import Prelude.

(** ** The chip's registers

    The register layouts and numbers come from the console's SDK. *)

Inductive GsReg :=
| BITBLTBUF | TRXPOS | TRXREG | TRXDIR | TEXFLUSH | SCISSOR_1 | FBA_1 | TEST_1 | PRIM | RGBAQ | XYZ2
| FRAME_1 | ZBUF_1 | PRMODECONT | XYOFFSET_1 | FOGCOL | PABE | ALPHA_1 | DTHE | DIMX | COLCLAMP
| TEX1_1 | CLAMP_1 | TEXA | TEX0 | TEX0_SMALL | TEXCLUT | ST.

Class GsSdk := {
  GS_SET : GsReg -> list Z -> Z;
  GS_REG : GsReg -> Z;
  GIF_REG_AD : Z; GIF_REG_RGBAQ : Z; GIF_REG_XYZ2 : Z; GIF_REG_UV : Z; GIF_REG_ST : Z;
  GS_PSM_16S : Z; GS_PSM_16 : Z; GS_PSM_8 : Z; GS_PSM_4 : Z
}.

Definition PSX_VRAM_WIDTH : Z := 1024.
Definition PSX_VRAM_HEIGHT : Z := 512.
Definition PSX_VRAM_FBW : Z := PSX_VRAM_WIDTH / 64.

(** ** The packet buffer *)

Definition Qword : Type := Z * Z.

(** Pixels on their way into 128-bit words: the words ready, and up to four
    pending pairs of pixels. *)
Record ImgBuf := mkImgBuf { img_q : list Qword; img_pend : list Z }.

(** The filled part of the current buffer, the buffers already handed to the
    DMA controller, the pixel buffer of the word-by-word upload, and the one
    the other uploads share. *)
Record Gif := mkGif {
  gif_packet_buf : list Qword; current_buffer : Z; gif_sent : list (list Qword);
  prof_disable_gpu_render : bool; vram_buf : ImgBuf; buf_image : list Qword
}.
#[export] Instance eta_Gif : Eta Gif := fun g =>
  mkGif (gif_packet_buf g) (current_buffer g) (gif_sent g) (prof_disable_gpu_render g) (vram_buf g) (buf_image g).

Definition GIF_BUFFER_SIZE : Z := 16384.
Definition gif_buffer_end_safe : Z := GIF_BUFFER_SIZE - 1024.

Definition Flush_GIF (g : Gif) : Gif :=
  let base := gif_packet_buf g in
  if 0 <? zlen base then
    let g := if prof_disable_gpu_render g then g else g <| gif_sent ::= fun l => l ++ [base] |> in
    g <| current_buffer ::= Z.lxor 1 |> <| gif_packet_buf := [] |>
  else g.

Definition GIF_TAG_LO (nloop eop pre prim flg nreg : Z) : Z :=
  Z.lor (Z.lor (Z.lor (Z.lor (Z.lor (Z.land nloop 0x7FFF) (Z.shiftl (Z.land eop 1) 15)) (Z.shiftl (Z.land pre 1) 46))
    (Z.shiftl (Z.land prim 0x7FF) 47)) (Z.shiftl (Z.land flg 3) 58)) (Z.shiftl (Z.land nreg 15) 60).

Definition Push_GIF_Data (d0 d1 : Z) (g : Gif) : Gif := g <| gif_packet_buf ::= fun l => l ++ [(d0, d1)] |>.

Definition Push_GIF_Tag (tag_lo tag_hi : Z) (g : Gif) : Gif :=
  let g := if gif_buffer_end_safe <=? zlen (gif_packet_buf g) then Flush_GIF g else g in
  Push_GIF_Data tag_lo tag_hi g.

Definition push_qwords (qs : list Qword) (g : Gif) : Gif := fold_left (fun g q => Push_GIF_Data (fst q) (snd q) g) qs g.

(** An IMAGE packet. *)
Definition push_image (eop : Z) (qs : list Qword) (g : Gif) : Gif :=
  push_qwords qs (Push_GIF_Tag (GIF_TAG_LO (zlen qs) eop 0 0 2 0) 0 g).

(** ** Pixels *)

(** [p |= (-(p != 0)) & 0x8000]: the chip's opaque bit of a visible pixel. *)
Definition stp (p : Z) : Z := if p =? 0 then p else Z.lor p 0x8000.
Definition stp_pair (p0 p1 : Z) : Z := Z.lor (stp p0) (Z.shiftl (stp p1) 16).

Definition qword_of (pend : list Z) : Qword :=
  (Z.lor (aget pend 0) (Z.shiftl (aget pend 1) 32), Z.lor (aget pend 2) (Z.shiftl (aget pend 3) 32)).

(** Add a pair of pixels; every fourth makes a 128-bit word; a packet leaves
    when 1000 of them are ready. *)
Definition img_push (p0 p1 : Z) (b : ImgBuf) (g : Gif) : ImgBuf * Gif :=
  let pend := img_pend b ++ [stp_pair p0 p1] in
  if 4 <=? zlen pend then
    let q := img_q b ++ [qword_of pend] in
    if 1000 <=? zlen q then (mkImgBuf [] [], push_image 0 q g) else (mkImgBuf q [], g)
  else (mkImgBuf (img_q b) pend, g).

Definition img_pad (b : ImgBuf) : ImgBuf :=
  if 0 <? zlen (img_pend b)
  then mkImgBuf (img_q b ++ [qword_of (img_pend b ++ repeat 0 (4 - length (img_pend b)))]) [] else b.

Definition img_end (b : ImgBuf) (g : Gif) : Gif :=
  if 0 <? zlen (img_q b) then push_image 1 (img_q b) g else g.

Definition img_word (word : Z) (bg : ImgBuf * Gif) : ImgBuf * Gif :=
  img_push (Z.land word 0xFFFF) (Z.shiftr word 16) (fst bg) (snd bg).

(** ** Word by word ([GPU_Backend_VRAMWrite]) *)

Definition GPU_Backend_VRAMWrite (word : Z) (g : Gif) : Gif :=
  let '(b, g) := img_word word (vram_buf g, g) in g <| vram_buf := b |>.

Section Packets.
Context {SDK : GsSdk}.

Definition push_reg (r : GsReg) (fields : list Z) (g : Gif) : Gif := Push_GIF_Data (GS_SET r fields) (GS_REG r) g.

(** A packet of [n] registers with their addresses. *)
Definition push_ad_tag (n : Z) (g : Gif) : Gif := Push_GIF_Tag (GIF_TAG_LO n 1 0 0 0 1) GIF_REG_AD g.

Definition GPU_Backend_VRAMFlush (g : Gif) : Gif :=
  let g := img_end (img_pad (vram_buf g)) g in
  let g := push_reg TEXFLUSH [0] (push_ad_tag 1 g) in
  (Flush_GIF g) <| vram_buf := mkImgBuf [] [] |>.

Definition Start_VRAM_Transfer (rx ry w h : Z) (g : Gif) : Gif :=
  let g := push_ad_tag 4 g in
  let g := push_reg BITBLTBUF [0; 0; 0; 0; PSX_VRAM_FBW; GS_PSM_16S] g in
  let g := push_reg TRXPOS [0; 0; rx; ry; 0] g in
  let g := push_reg TRXREG [w; h] g in
  push_reg TRXDIR [0] g.

(** ** From the shadow copy ([Upload_Shadow_VRAM_Region]) *)

Definition shadow_pair (v : gmap Z Z) (rx sy w col : Z) : Z * Z :=
  let sx := if 1024 <=? rx + col then rx + col - 1024 else rx + col in
  (default 0 (v !! (sy * 1024 + sx)),
   if col + 1 <? w then default 0 (v !! (sy * 1024 + Z.land (sx + 1) 0x3FF)) else 0).

(** [buf_image] outlives the row, the pending pixels do not; whatever an
    earlier upload left in it is sent first. *)
Definition shadow_row (v : gmap Z Z) (rx ry w : Z) (bg : ImgBuf * Gif) (row : Z) : ImgBuf * Gif :=
  let sy := if 512 <=? ry + row then ry + row - 512 else ry + row in
  let '(b, g) := fold_left (fun bg k => let '(p0, p1) := shadow_pair v rx sy w (2 * k) in img_push p0 p1 (fst bg) (snd bg))
                   (zseq (Z.to_nat ((w + 1) / 2))) (mkImgBuf (img_q (fst bg)) [], snd bg) in
  (img_pad b, g).

Definition Upload_Shadow_VRAM_Region (v : gmap Z Z) (rx ry w h : Z) (g : Gif) : Gif :=
  if (w <=? 0) || (h <=? 0) then g
  else
    let g := Start_VRAM_Transfer rx ry w h g in
    let '(b, g) := fold_left (shadow_row v rx ry w) (zseq (Z.to_nat h)) (mkImgBuf (buf_image g) [], g) in
    Flush_GIF ((img_end b g) <| buf_image := [] |>).

(** ** From an array, and from words ([GS_UploadRegion], [GS_UploadRegionFast]) *)

Definition GS_UploadRegion (rx ry w h : Z) (pixels : Z -> Z) (g : Gif) : Gif :=
  let g := Start_VRAM_Transfer rx ry w h g in
  let total := w * h in
  let '(b, g) := fold_left (fun bg k => img_push (pixels (2 * k)) (if 2 * k + 1 <? total then pixels (2 * k + 1) else 0) (fst bg) (snd bg))
                   (zseq (Z.to_nat ((total + 1) / 2))) (mkImgBuf [] [], g) in
  (img_end (img_pad b) g) <| buf_image := img_q (img_pad b) |>.

(** The half of [GS_UploadRegionFast] that talks to the chip. *)
Definition upload_words (rx ry w h : Z) (words : list Z) (g : Gif) : Gif :=
  let g := Start_VRAM_Transfer rx ry w h g in
  let '(b, g) := fold_left (fun bg word => img_word word bg) words (mkImgBuf [] [], g) in
  Flush_GIF ((img_end (img_pad b) g) <| buf_image := [] |>).

(** ** Settings *)

Definition GPU_Backend_SetScissor (x1 y1 x2 y2 : Z) (g : Gif) : Gif :=
  push_reg SCISSOR_1 [x1; if 0 <? x2 then x2 - 1 else 0; y1; if 0 <? y2 then y2 - 1 else 0] (push_ad_tag 1 g).

Definition Get_Base_TEST (mask_check_bit : Z) : Z := GS_SET TEST_1 [0; 0; 0; 0; mask_check_bit; 0; 0; 0].

Definition GPU_Backend_SetMaskBit (set check : Z) (g : Gif) : Gif :=
  Push_GIF_Data (Get_Base_TEST check) (GS_REG TEST_1) (push_reg FBA_1 [set] (push_ad_tag 2 g)).

Definition GS_PACK_PRIM_FROM_INT (v : Z) : Z :=
  GS_SET PRIM [Z.land v 7; Z.land (Z.shiftr v 3) 1; Z.land (Z.shiftr v 4) 1; Z.land (Z.shiftr v 5) 1; Z.land (Z.shiftr v 6) 1;
    Z.land (Z.shiftr v 7) 1; Z.land (Z.shiftr v 8) 1; Z.land (Z.shiftr v 9) 1; Z.land (Z.shiftr v 10) 1].

Definition GPU_Backend_ClearVRAM (clip_x1 clip_y1 clip_x2 clip_y2 : Z) (g : Gif) : Gif :=
  let g := push_ad_tag 5 g in
  let g := push_reg SCISSOR_1 [0; PSX_VRAM_WIDTH - 1; 0; PSX_VRAM_HEIGHT - 1] g in
  let g := Push_GIF_Data (GS_PACK_PRIM_FROM_INT 6) (GS_REG PRIM) g in
  let g := push_reg RGBAQ [0; 0; 0; 0; 0x3F800000] g in
  let g := push_reg XYZ2 [Z.shiftl (0 + 2048) 4; Z.shiftl (0 + 2048) 4; 0] g in
  let g := push_reg XYZ2 [Z.shiftl (PSX_VRAM_WIDTH + 2048) 4; Z.shiftl (PSX_VRAM_HEIGHT + 2048) 4; 0] g in
  Flush_GIF (GPU_Backend_SetScissor clip_x1 clip_y1 clip_x2 clip_y2 (Flush_GIF g)).

Definition Setup_GS_Environment (fb_address fb_psm : Z) (g : Gif) : Gif :=
  let g := push_ad_tag 16 (g <| gif_packet_buf := [] |>) in
  let g := push_reg FRAME_1 [Z.shiftr fb_address 11; PSX_VRAM_FBW; fb_psm; 0] g in
  let g := push_reg ZBUF_1 [0; 0; 1] g in
  let g := push_reg PRMODECONT [1] g in
  let g := push_reg XYOFFSET_1 [Z.shiftl 2048 4; Z.shiftl 2048 4] g in
  let g := push_reg SCISSOR_1 [0; PSX_VRAM_WIDTH - 1; 0; PSX_VRAM_HEIGHT - 1] g in
  let g := push_reg TEST_1 [1; 1; 0; 0; 0; 0; 1; 1] g in
  let g := push_reg FOGCOL [0; 0; 0] g in
  let g := push_reg PABE [1] g in
  let g := push_reg ALPHA_1 [0; 1; 2; 1; 0x58] g in
  let g := push_reg DTHE [0] g in
  let g := push_reg DIMX [4; 0; 5; 1; 2; 6; 3; 7; 5; 1; 4; 0; 3; 7; 2; 6] g in
  let g := push_reg COLCLAMP [1] g in
  let g := push_reg FBA_1 [0] g in
  let g := push_reg TEX1_1 [1; 0; 0; 0; 0; 0; 0] g in
  let g := push_reg CLAMP_1 [0; 0; 0; 0; 0; 0] g in
  let g := push_reg TEXA [0x40; 1; 0x80] g in
  Flush_GIF g.
End Packets.
