(* ===== verification/GifMath.v ===== *)
(** * The stream the graphics chip receives

    Every operation sends whole packets; the pixels of the image packets are
    the pixels given, in order; the packet buffer and the pixel buffer keep
    their bounds, or do not. *)

From S2P Require Import Prelude Gif.

(** ** The stream *)

(** All words pushed so far, whatever was already handed over. *)
Definition stream (g : Gif) : list Qword := concat (gif_sent g) ++ gif_packet_buf g.

(** Between two states [l] was pushed and nothing else changed but where the
    words wait. *)
Record emits (l : list Qword) (g g' : Gif) : Prop := {
  em_stream : stream g' = stream g ++ l;
  em_on : prof_disable_gpu_render g' = false
}.

(** *** Tags *)

Definition tag_nloop (lo : Z) : Z := Z.land lo 0x7FFF.
Definition tag_flg (lo : Z) : Z := Z.land (Z.shiftr lo 58) 3.
Definition tag_nreg (lo : Z) : Z := Z.land (Z.shiftr lo 60) 15.

(** The 128-bit words after a tag. *)
Definition tag_size (lo : Z) : Z :=
  let nreg := if tag_nreg lo =? 0 then 16 else tag_nreg lo in
  if tag_flg lo =? 0 then tag_nloop lo * nreg
  else if tag_flg lo =? 1 then (tag_nloop lo * nreg + 1) / 2
  else tag_nloop lo.

Definition qword_pixels (q : Qword) : list Z :=
  map (fun k => Z.land (Z.shiftr (fst q) (16 * k)) 0xFFFF) (zseq 4) ++
  map (fun k => Z.land (Z.shiftr (snd q) (16 * k)) 0xFFFF) (zseq 4).
Definition qwords_pixels (qs : list Qword) : list Z := concat (map qword_pixels qs).

(** A stream of whole packets, and the pixels of its image packets. *)
Inductive sends : list Qword -> list Z -> Prop :=
| sends_nil : sends [] []
| sends_packet lo hi data l p : zlen data = tag_size lo -> sends l p ->
    sends ((lo, hi) :: data ++ l) ((if tag_flg lo =? 2 then qwords_pixels data else []) ++ p).

Lemma sends_app l1 p1 l2 p2 : sends l1 p1 -> sends l2 p2 -> sends (l1 ++ l2) (p1 ++ p2).
Proof.
  intros H1 H2. induction H1 as [|lo hi data l p Hs _ IH]; [exact H2|].
  rewrite <- app_comm_cons, <- !app_assoc. apply sends_packet; assumption.
Qed.

Lemma nloop_small n : 0 <= n < 32768 -> Z.land n 0x7FFF = n /\ Z.shiftr n 58 = 0 /\ Z.shiftr n 60 = 0.
Proof.
  intros Hn. split; [change 0x7FFF with (Z.ones 15); rewrite Z.land_ones by lia; apply Z.mod_small; exact Hn|].
  rewrite !Z.shiftr_div_pow2 by lia. split; apply Z.div_small; lia.
Qed.

Lemma image_tag_fields n eop : 0 <= n < 32768 -> eop = 0 \/ eop = 1 ->
  tag_size (GIF_TAG_LO n eop 0 0 2 0) = n /\ tag_flg (GIF_TAG_LO n eop 0 0 2 0) = 2.
Proof.
  intros Hn He. destruct (nloop_small n Hn) as (Hm & H1 & H2).
  destruct He as [-> | ->]; unfold tag_size, tag_flg, tag_nreg, tag_nloop, GIF_TAG_LO; rewrite Hm;
    rewrite !Z.shiftr_lor, !Z.land_lor_distr_l, H1, H2, Hm; cbn; rewrite ?Z.lor_0_r; split; reflexivity.
Qed.

Lemma ad_tag_fields n : 0 <= n < 32768 ->
  tag_size (GIF_TAG_LO n 1 0 0 0 1) = n /\ tag_flg (GIF_TAG_LO n 1 0 0 0 1) = 0.
Proof.
  intros Hn. destruct (nloop_small n Hn) as (Hm & H1 & H2).
  unfold tag_size, tag_flg, tag_nreg, tag_nloop, GIF_TAG_LO; rewrite Hm;
    rewrite !Z.shiftr_lor, !Z.land_lor_distr_l, H1, H2, Hm; cbn; rewrite ?Z.lor_0_r, ?Z.mul_1_r; split; reflexivity.
Qed.

(** ** What each push adds *)

Lemma emits_trans l1 l2 g1 g2 g3 : emits l1 g1 g2 -> emits l2 g2 g3 -> emits (l1 ++ l2) g1 g3.
Proof.
  intros [H1 H2] [H4 H5]. split; [rewrite H4, H1, app_assoc; reflexivity | exact H5].
Qed.

Lemma emits_refl g : prof_disable_gpu_render g = false -> emits [] g g.
Proof. intros Hg. split; [rewrite app_nil_r; reflexivity | exact Hg]. Qed.

Lemma emits_flush g : prof_disable_gpu_render g = false -> emits [] g (Flush_GIF g).
Proof.
  intros Hg. unfold Flush_GIF. cbv zeta. destruct (0 <? zlen (gif_packet_buf g)); [|apply emits_refl, Hg]. rewrite Hg.
  split; [|exact Hg]. unfold stream. cbn. rewrite concat_app. cbn. rewrite !app_nil_r. reflexivity.
Qed.

Lemma emits_data d0 d1 g : prof_disable_gpu_render g = false -> emits [(d0, d1)] g (Push_GIF_Data d0 d1 g).
Proof. intros Hg. split; [|exact Hg]. unfold stream. cbn. rewrite app_assoc. reflexivity. Qed.

Lemma emits_tag lo hi g : prof_disable_gpu_render g = false -> emits [(lo, hi)] g (Push_GIF_Tag lo hi g).
Proof.
  intros Hg. unfold Push_GIF_Tag. cbv zeta. destruct (_ <=? _); [|apply emits_data, Hg].
  pose proof (emits_flush g Hg) as Hf. apply (emits_trans [] [(lo, hi)] g (Flush_GIF g)); [exact Hf|].
  apply emits_data, (em_on _ _ _ Hf).
Qed.

Lemma emits_qwords qs : forall g, prof_disable_gpu_render g = false -> emits qs g (push_qwords qs g).
Proof.
  induction qs as [|q qs IH]; intros g Hg; [apply emits_refl, Hg|]. destruct q as [d0 d1].
  apply (emits_trans [(d0, d1)] qs g (Push_GIF_Data d0 d1 g)); [apply emits_data, Hg | apply IH; exact Hg].
Qed.

(** From [g] to [g'] whole packets were sent, whose image pixels are [p]. *)
Definition delivers (p : list Z) (g g' : Gif) : Prop := exists l, emits l g g' /\ sends l p.

Lemma delivers_trans p1 p2 g1 g2 g3 : delivers p1 g1 g2 -> delivers p2 g2 g3 -> delivers (p1 ++ p2) g1 g3.
Proof.
  intros (l1 & E1 & S1) (l2 & E2 & S2). exists (l1 ++ l2). split; [eapply emits_trans; eassumption | apply sends_app; assumption].
Qed.

Lemma delivers_refl g : prof_disable_gpu_render g = false -> delivers [] g g.
Proof. intros Hg. exists []. split; [apply emits_refl, Hg | constructor]. Qed.

Lemma delivers_on p g g' : delivers p g g' -> prof_disable_gpu_render g' = false.
Proof. intros (l & [_ H] & _). exact H. Qed.

(** Fields outside the stream do not matter. *)
Lemma delivers_image q p g g' : delivers p g g' -> delivers p g (g' <| buf_image := q |>).
Proof. intros (l & [H1 H2] & Hs). exists l. split; [split; assumption | exact Hs]. Qed.
Lemma delivers_vram b p g g' : delivers p g g' -> delivers p g (g' <| vram_buf := b |>).
Proof. intros (l & [H1 H2] & Hs). exists l. split; [split; assumption | exact Hs]. Qed.

Lemma delivers_flush g : prof_disable_gpu_render g = false -> delivers [] g (Flush_GIF g).
Proof. intros Hg. exists []. split; [apply emits_flush, Hg | constructor]. Qed.

Lemma delivers_packet lo hi data g : prof_disable_gpu_render g = false -> zlen data = tag_size lo ->
  delivers (if tag_flg lo =? 2 then qwords_pixels data else []) g (push_qwords data (Push_GIF_Tag lo hi g)).
Proof.
  intros Hg Hs. exists ((lo, hi) :: data). pose proof (emits_tag lo hi g Hg) as Ht. split.
  - apply (emits_trans [(lo, hi)] data g (Push_GIF_Tag lo hi g)); [exact Ht | apply emits_qwords, (em_on _ _ _ Ht)].
  - pose proof (sends_packet lo hi data [] [] Hs sends_nil) as H. rewrite !app_nil_r in H. exact H.
Qed.

Lemma delivers_image_packet eop qs g : prof_disable_gpu_render g = false -> eop = 0 \/ eop = 1 -> zlen qs < 32768 ->
  delivers (qwords_pixels qs) g (push_image eop qs g).
Proof.
  intros Hg He Hn. unfold push_image. destruct (image_tag_fields (zlen qs) eop ltac:(unfold zlen in *; lia) He) as [Hs Hf].
  pose proof (delivers_packet (GIF_TAG_LO (zlen qs) eop 0 0 2 0) 0 qs g Hg ltac:(rewrite Hs; reflexivity)) as Hd.
  rewrite Hf in Hd. exact Hd.
Qed.

(** A packet of registers. *)
Lemma delivers_regs n data g : prof_disable_gpu_render g = false -> zlen data = n -> n < 32768 -> forall hi,
  delivers [] g (push_qwords data (Push_GIF_Tag (GIF_TAG_LO n 1 0 0 0 1) hi g)).
Proof.
  intros Hg Hl Hn hi. destruct (ad_tag_fields n ltac:(unfold zlen in *; lia)) as [Hs Hf].
  pose proof (delivers_packet (GIF_TAG_LO n 1 0 0 0 1) hi data g Hg ltac:(rewrite Hs; exact Hl)) as Hd.
  rewrite Hf in Hd. exact Hd.
Qed.

(** ** Packing *)

Definition pair_pixels (w : Z) : list Z := [Z.land w 0xFFFF; Z.shiftr w 16].
Definition pend_pixels (pend : list Z) : list Z := concat (map pair_pixels pend).
Definition img_pixels (b : ImgBuf) : list Z := qwords_pixels (img_q b) ++ pend_pixels (img_pend b).

Record img_ok (n : Z) (b : ImgBuf) : Prop := {
  io_q : zlen (img_q b) < n;
  io_pend : zlen (img_pend b) < 4;
  io_u32 : Forall is_u32 (img_pend b)
}.

Lemma stp_range p : is_u16 p -> is_u16 (stp p).
Proof. unfold stp. intros Hp. destruct (p =? 0); [exact Hp|]. apply (lor_bound 16); unfold is_u16 in *; lia. Qed.

(** Two fields side by side. *)
Lemma field_of n a b k : 0 <= n -> 0 <= a < 2 ^ n -> 0 <= k ->
  Z.land (Z.shiftr (a + b * 2 ^ n) (n + k)) 0xFFFF = Z.land (Z.shiftr b k) 0xFFFF.
Proof.
  intros Hn Ha Hk. rewrite <- Z.shiftr_shiftr, !(Z.shiftr_div_pow2 _ n) by lia.
  rewrite Z.div_add, Z.div_small by lia. reflexivity.
Qed.

Lemma stp_pair_pixels p0 p1 : is_u16 p0 -> is_u16 p1 -> pair_pixels (stp_pair p0 p1) = [stp p0; stp p1] /\ is_u32 (stp_pair p0 p1).
Proof.
  intros H0 H1. apply stp_range in H0, H1. unfold pair_pixels, stp_pair. unfold is_u16 in *. rewrite lor_concat by lia.
  split; [|unfold is_u32; change (2 ^ 16) with 65536; lia].
  change 0xFFFF with (Z.ones 16). rewrite Z.land_ones, Z.shiftr_div_pow2 by lia. change (2 ^ 16) with 65536.
  rewrite Z.mod_add, Z.div_add, Z.mod_small, Z.div_small by lia. reflexivity.
Qed.

Lemma pair_fields a b : is_u32 a -> is_u32 b ->
  map (fun k => Z.land (Z.shiftr (Z.lor a (Z.shiftl b 32)) (16 * k)) 0xFFFF) (zseq 4) = pair_pixels a ++ pair_pixels b.
Proof.
  intros Ha Hb. unfold is_u32 in *. rewrite lor_concat by lia. change (zseq 4) with [0; 1; 2; 3]. cbn [map].
  assert (Hlow : forall k, 0 <= k <= 16 -> Z.land (Z.shiftr (a + b * 2 ^ 32) k) 0xFFFF = Z.land (Z.shiftr a k) 0xFFFF).
  { intros k Hk. change 0xFFFF with (Z.ones 16). rewrite !Z.land_ones, !Z.shiftr_div_pow2 by lia.
    replace (b * 2 ^ 32) with (b * 2 ^ (32 - k) * 2 ^ k) by (rewrite <- Z.mul_assoc, <- Z.pow_add_r by lia; f_equal; f_equal; lia).
    rewrite Z.div_add by (apply Z.pow_nonzero; lia).
    replace (b * 2 ^ (32 - k)) with (b * 2 ^ (16 - k) * 2 ^ 16) by (rewrite <- Z.mul_assoc, <- Z.pow_add_r by lia; f_equal; f_equal; lia).
    apply Z.mod_add. lia. }
  assert (Htop : forall c, 0 <= c < 4294967296 -> Z.land (Z.shiftr c 16) 0xFFFF = Z.shiftr c 16).
  { intros c Hc. change 0xFFFF with (Z.ones 16). rewrite Z.land_ones, Z.shiftr_div_pow2 by lia. apply Z.mod_small.
    split; [apply Z.div_pos; lia | apply Z.div_lt_upper_bound; lia]. }
  change (16 * 0) with 0. change (16 * 1) with 16. change (16 * 2) with (32 + 0). change (16 * 3) with (32 + 16).
  rewrite (Hlow 0), (Hlow 16), (field_of 32 a b 0 ltac:(lia) Ha), (field_of 32 a b 16 ltac:(lia) Ha) by lia.
  unfold pair_pixels. rewrite !Z.shiftr_0_r, !Htop by assumption. reflexivity.
Qed.

Lemma qword_of_pixels a b c d : is_u32 a -> is_u32 b -> is_u32 c -> is_u32 d ->
  qword_pixels (qword_of [a; b; c; d]) = pend_pixels [a; b; c; d].
Proof.
  intros Ha Hb Hc Hd. unfold qword_pixels, qword_of, pend_pixels. cbn [fst snd].
  change (aget [a; b; c; d] 0) with a. change (aget [a; b; c; d] 1) with b. change (aget [a; b; c; d] 2) with c. change (aget [a; b; c; d] 3) with d.
  rewrite !pair_fields by assumption. cbn [map concat]. rewrite app_nil_r, !app_assoc. reflexivity.
Qed.

Lemma qwords_pixels_app l1 l2 : qwords_pixels (l1 ++ l2) = qwords_pixels l1 ++ qwords_pixels l2.
Proof. unfold qwords_pixels. rewrite map_app, concat_app. reflexivity. Qed.
Lemma pend_pixels_app l1 l2 : pend_pixels (l1 ++ l2) = pend_pixels l1 ++ pend_pixels l2.
Proof. unfold pend_pixels. rewrite map_app, concat_app. reflexivity. Qed.

Lemma full_pend pend : zlen pend = 4 -> Forall is_u32 pend -> qword_pixels (qword_of pend) = pend_pixels pend.
Proof.
  unfold zlen. intros Hl Hu. destruct pend as [|a [|b [|c [|d [|e l] ] ] ] ]; cbn [length] in Hl; try lia.
  rewrite !Forall_cons in Hu. destruct Hu as (Ha & Hb & Hc & Hd & _). apply qword_of_pixels; assumption.
Qed.

(** *** The pixels sent and the pixels waiting are those given *)

Lemma img_push_spec n p0 p1 b g : 1000 <= n <= 32000 -> prof_disable_gpu_render g = false -> img_ok n b -> is_u16 p0 -> is_u16 p1 ->
  let '(b', g') := img_push p0 p1 b g in
  img_ok n b' /\ exists p, delivers p g g' /\ p ++ img_pixels b' = img_pixels b ++ [stp p0; stp p1].
Proof.
  intros Hn Hg [Hq Hp Hu] H0 H1. destruct (stp_pair_pixels p0 p1 H0 H1) as [Hpx Hw]. unfold img_push. cbv zeta.
  set (pend := img_pend b ++ [stp_pair p0 p1]).
  assert (Hl : zlen pend = zlen (img_pend b) + 1) by (unfold pend, zlen; rewrite length_app; cbn; lia).
  assert (Hpu : Forall is_u32 pend) by (apply Forall_app; split; [exact Hu | constructor; [exact Hw | constructor] ]).
  assert (Epx : pend_pixels pend = pend_pixels (img_pend b) ++ [stp p0; stp p1]).
  { unfold pend. rewrite pend_pixels_app. f_equal. unfold pend_pixels. cbn [map concat]. rewrite Hpx. reflexivity. }
  destruct (Z.leb_spec 4 (zlen pend)) as [H4|H4].
  - assert (Eq : qwords_pixels (img_q b ++ [qword_of pend]) = img_pixels b ++ [stp p0; stp p1]).
    { rewrite qwords_pixels_app. unfold img_pixels. rewrite <- app_assoc. f_equal. unfold qwords_pixels. cbn [map concat].
      rewrite app_nil_r, full_pend by (assumption || lia). exact Epx. }
    assert (Hql : zlen (img_q b ++ [qword_of pend]) = zlen (img_q b) + 1) by (unfold zlen; rewrite length_app; cbn; lia).
    destruct (Z.leb_spec 1000 (zlen (img_q b ++ [qword_of pend]))) as [Hk|Hk].
    + split; [split; cbn [img_q img_pend]; [change (zlen (@nil Qword)) with 0; lia | reflexivity | constructor]|]. eexists. split; [apply delivers_image_packet; [exact Hg | left; reflexivity | lia]|].
      unfold img_pixels at 1. cbn [img_q img_pend]. rewrite Eq. rewrite app_nil_r. reflexivity.
    + split; [split; cbn [img_q img_pend]; [change (zlen (@nil Qword)) with 0; lia | reflexivity | constructor]|]. exists []. split; [apply delivers_refl, Hg|].
      unfold img_pixels at 1. cbn [img_q img_pend]. rewrite Eq. rewrite app_nil_r. reflexivity.
  - split; [split; cbn [img_q img_pend]; [exact Hq | lia | exact Hpu]|]. exists []. split; [apply delivers_refl, Hg|].
    unfold img_pixels. cbn [img_q img_pend]. rewrite Epx, <- app_assoc. reflexivity.
Qed.

(** Many pairs. *)
Definition stp_pairs (ps : list (Z * Z)) : list Z := concat (map (fun p => [stp (fst p); stp (snd p)]) ps).

Definition pairs_u16 (ps : list (Z * Z)) : Prop := Forall (fun p => is_u16 (fst p) /\ is_u16 (snd p)) ps.

Lemma img_fold_spec {A} n (f : A -> Z * Z) (l : list A) : 1000 <= n <= 32000 -> pairs_u16 (map f l) -> forall b g,
  prof_disable_gpu_render g = false -> img_ok n b ->
  let '(b', g') := fold_left (fun bg a => img_push (fst (f a)) (snd (f a)) (fst bg) (snd bg)) l (b, g) in
  img_ok n b' /\ exists p, delivers p g g' /\ p ++ img_pixels b' = img_pixels b ++ stp_pairs (map f l).
Proof.
  intros Hn. induction l as [|a l IH]; intros Hu b g Hg Hb.
  - split; [exact Hb|]. exists []. split; [apply delivers_refl, Hg|]. cbn. rewrite app_nil_r. reflexivity.
  - cbn [fold_left map]. apply Forall_cons in Hu as [ [H0 H1] Hu]. pose proof (img_push_spec n (fst (f a)) (snd (f a)) b g Hn Hg Hb H0 H1) as H.
    destruct (img_push (fst (f a)) (snd (f a)) b g) as [b1 g1] eqn:E. cbn [fst snd]. rewrite E. destruct H as (Hb1 & p1 & Hd1 & E1).
    specialize (IH Hu b1 g1 (delivers_on _ _ _ Hd1) Hb1). destruct (fold_left _ l (b1, g1)) as [b2 g2].
    destruct IH as (Hb2 & p2 & Hd2 & E2). split; [exact Hb2|]. exists (p1 ++ p2). split; [eapply delivers_trans; eassumption|].
    rewrite <- app_assoc, E2, app_assoc, E1, <- app_assoc. reflexivity.
Qed.

(** The zeros that complete the last 128-bit word. *)
Definition pad_pixels (n : Z) : list Z := repeat 0 (Z.to_nat ((- n) mod 8)).

Lemma pend_pixels_len pend : zlen (pend_pixels pend) = 2 * zlen pend.
Proof. unfold zlen, pend_pixels. induction pend; cbn [map concat length app pair_pixels]; lia. Qed.
Lemma qwords_pixels_len qs : zlen (qwords_pixels qs) = 8 * zlen qs.
Proof.
  unfold zlen, qwords_pixels. induction qs as [|q qs IH]; [reflexivity|]. cbn [map concat length]. rewrite length_app.
  change (length (qword_pixels q)) with 8%nat. lia.
Qed.
Lemma img_pad_spec n b : img_ok n b ->
  img_pend (img_pad b) = [] /\ zlen (img_q (img_pad b)) <= n /\
  qwords_pixels (img_q (img_pad b)) = img_pixels b ++ pad_pixels (zlen (img_pixels b)).
Proof.
  intros [Hq Hp Hu]. unfold img_pad.
  assert (Hlen : zlen (img_pixels b) = 8 * zlen (img_q b) + 2 * zlen (img_pend b))
    by (unfold img_pixels; rewrite zlen_app, qwords_pixels_len, pend_pixels_len; reflexivity).
  destruct (Z.ltb_spec 0 (zlen (img_pend b))) as [H0|H0].
  - cbn [img_q img_pend]. split; [reflexivity|]. split; [rewrite zlen_app; change (zlen [_]) with 1; lia|].
    rewrite qwords_pixels_app. unfold img_pixels at 1. rewrite <- app_assoc. f_equal.
    unfold qwords_pixels. cbn [map concat]. rewrite app_nil_r. rewrite full_pend.
    + rewrite pend_pixels_app. f_equal. unfold pad_pixels. rewrite Hlen.
      replace ((- (8 * zlen (img_q b) + 2 * zlen (img_pend b))) mod 8) with (2 * (4 - zlen (img_pend b))).
      2: { replace (- (8 * zlen (img_q b) + 2 * zlen (img_pend b))) with (2 * (4 - zlen (img_pend b)) + (- zlen (img_q b) - 1) * 8) by lia.
           rewrite Z.mod_add by lia. symmetry. apply Z.mod_small. lia. }
      unfold zlen in *. destruct (length (img_pend b)) as [|[|[|[|m] ] ] ]; [lia | reflexivity | reflexivity | reflexivity | lia].
    + unfold zlen in *. rewrite length_app, repeat_length. lia.
    + apply Forall_app. split; [exact Hu|]. apply Forall_repeat. unfold is_u32. lia.
  - assert (E : img_pend b = []) by (destruct (img_pend b); [reflexivity | unfold zlen in H0; cbn in H0; lia]).
    split; [exact E|]. split; [lia|]. unfold img_pixels, pad_pixels. rewrite E. unfold pend_pixels. cbn [map concat]. rewrite app_nil_r.
    rewrite qwords_pixels_len. replace ((- (8 * zlen (img_q b))) mod 8) with 0; [rewrite app_nil_r; reflexivity|].
    replace (- (8 * zlen (img_q b))) with (- zlen (img_q b) * 8) by lia. symmetry. apply Z.mod_mul. lia.
Qed.

Lemma img_end_spec b g : prof_disable_gpu_render g = false -> zlen (img_q b) < 32768 ->
  delivers (qwords_pixels (img_q b)) g (img_end b g).
Proof.
  intros Hg Hn. unfold img_end. destruct (Z.ltb_spec 0 (zlen (img_q b))) as [H0|H0].
  - apply delivers_image_packet; [exact Hg | right; reflexivity | exact Hn].
  - assert (E : img_q b = []) by (destruct (img_q b); [reflexivity | unfold zlen in H0; cbn in H0; lia]). rewrite E. apply delivers_refl, Hg.
Qed.

Lemma delivers_mult8 p g g' : delivers p g g' -> exists c, zlen p = 8 * c.
Proof.
  intros (ls & _ & Hs). induction Hs as [|lo hi data l p _ _ (c & Hc)]; [exists 0; reflexivity|].
  rewrite zlen_app, Hc. destruct (_ =? 2); [rewrite qwords_pixels_len; exists (zlen data + c); ring | exists c; reflexivity].
Qed.

Lemma pad_pixels_eq m n c : m = n + 8 * c -> pad_pixels m = pad_pixels n.
Proof. intros ->. unfold pad_pixels. f_equal. f_equal. replace (- (n + 8 * c)) with (- n + (- c) * 8) by lia. apply Z.mod_add. lia. Qed.

Lemma stp_pairs_len ps : zlen (stp_pairs ps) = 2 * zlen ps.
Proof. unfold zlen, stp_pairs. induction ps; cbn [map concat length app]; lia. Qed.

(** A whole image from an empty pixel buffer. *)
Lemma image_spec {A} (f : A -> Z * Z) (l : list A) g : pairs_u16 (map f l) -> prof_disable_gpu_render g = false ->
  let '(b, g') := fold_left (fun bg a => img_push (fst (f a)) (snd (f a)) (fst bg) (snd bg)) l (mkImgBuf [] [], g) in
  delivers (stp_pairs (map f l) ++ pad_pixels (2 * zlen l)) g (img_end (img_pad b) g').
Proof.
  intros Hu Hg. assert (H0 : img_ok 1000 (mkImgBuf [] [])) by (split; [reflexivity | reflexivity | constructor]).
  pose proof (img_fold_spec 1000 f l ltac:(lia) Hu (mkImgBuf [] []) g Hg H0) as H. destruct (fold_left _ l _) as [b g'].
  destruct H as (Hb & p & Hd & E). destruct (img_pad_spec _ b Hb) as (_ & Hn & Ep).
  pose proof (img_end_spec (img_pad b) g' (delivers_on _ _ _ Hd) ltac:(lia)) as He. rewrite Ep in He.
  pose proof (delivers_trans _ _ _ _ _ Hd He) as Ht. change (img_pixels (mkImgBuf [] [])) with (@nil Z) in E. cbn [app] in E.
  rewrite app_assoc, E in Ht. destruct (delivers_mult8 _ _ _ Hd) as (c & Hc). apply (f_equal zlen) in E.
  rewrite zlen_app, stp_pairs_len, Hc in E.
  assert (El : zlen (map f l) = zlen l) by (unfold zlen; rewrite length_map; reflexivity).
  rewrite (pad_pixels_eq (2 * zlen l) (zlen (img_pixels b)) c) by lia. exact Ht.
Qed.

(** ** Uploads of words *)

Section Uploads.
Context {SDK : GsSdk}.

Lemma delivers_start rx ry w h g : prof_disable_gpu_render g = false -> delivers [] g (Start_VRAM_Transfer rx ry w h g).
Proof.
  intros Hg. exact (delivers_regs 4
    [(GS_SET BITBLTBUF [0; 0; 0; 0; PSX_VRAM_FBW; GS_PSM_16S], GS_REG BITBLTBUF); (GS_SET TRXPOS [0; 0; rx; ry; 0], GS_REG TRXPOS);
     (GS_SET TRXREG [w; h], GS_REG TRXREG); (GS_SET TRXDIR [0], GS_REG TRXDIR)] g Hg eq_refl eq_refl GIF_REG_AD).
Qed.

Lemma delivers_texflush g : prof_disable_gpu_render g = false -> delivers [] g (push_reg TEXFLUSH [0] (push_ad_tag 1 g)).
Proof. intros Hg. exact (delivers_regs 1 [(GS_SET TEXFLUSH [0], GS_REG TEXFLUSH)] g Hg eq_refl eq_refl GIF_REG_AD). Qed.

Definition halves (word : Z) : Z * Z := (Z.land word 0xFFFF, Z.shiftr word 16).

Lemma halves_u16 words : Forall is_u32 words -> pairs_u16 (map halves words).
Proof.
  intros Hw. apply List.Forall_map. refine (Forall_impl _ _ _ Hw _). intros d Hd. unfold halves, is_u16, is_u32 in *. cbn [fst snd].
  change 0xFFFF with (Z.ones 16). rewrite Z.land_ones, Z.shiftr_div_pow2 by lia. change (2 ^ 16) with 65536.
  split; [apply Z.mod_pos_bound; lia|]. split; [apply Z.div_pos; lia | apply Z.div_lt_upper_bound; lia].
Qed.

(** What the chip is to receive for the words of an upload. *)
Definition words_pixels (words : list Z) : list Z := stp_pairs (map halves words) ++ pad_pixels (2 * zlen words).

Lemma upload_words_pixels rx ry w h words g : prof_disable_gpu_render g = false -> Forall is_u32 words ->
  delivers (words_pixels words) g (upload_words rx ry w h words g).
Proof.
  intros Hg Hw. unfold upload_words. pose proof (delivers_start rx ry w h g Hg) as Hs.
  pose proof (image_spec halves words (Start_VRAM_Transfer rx ry w h g) (halves_u16 words Hw) (delivers_on _ _ _ Hs)) as Hi.
  change (fold_left (fun bg word => img_word word bg) words) with
    (fold_left (fun bg a => img_push (fst (halves a)) (snd (halves a)) (fst bg) (snd bg)) words).
  destruct (fold_left _ words _) as [b g']. pose proof (delivers_trans _ _ _ _ _ Hs Hi) as Ht. cbn [app] in Ht.
  apply (delivers_image []) in Ht. pose proof (delivers_flush _ (delivers_on _ _ _ Ht)) as Hf.
  pose proof (delivers_trans _ _ _ _ _ Ht Hf) as Hd. rewrite app_nil_r in Hd. exact Hd.
Qed.

(** Word by word: the pixels wait in [vram_buf]. *)
Lemma vram_write_step g0 word p g : delivers p g0 g -> img_ok 1000 (vram_buf g) -> is_u32 word ->
  img_ok 1000 (vram_buf (GPU_Backend_VRAMWrite word g)) /\
  exists p', delivers p' g0 (GPU_Backend_VRAMWrite word g) /\
    p' ++ img_pixels (vram_buf (GPU_Backend_VRAMWrite word g)) = p ++ img_pixels (vram_buf g) ++ [stp (fst (halves word)); stp (snd (halves word))].
Proof.
  intros Hd Hb Hw. pose proof (halves_u16 [word] ltac:(repeat constructor; exact (proj1 Hw) || exact (proj2 Hw))) as Hh.
  apply Forall_cons in Hh as [ [H0 H1] _].
  pose proof (img_push_spec 1000 _ _ (vram_buf g) g ltac:(lia) (delivers_on _ _ _ Hd) Hb H0 H1) as Hp.
  unfold GPU_Backend_VRAMWrite, img_word. cbn [fst snd]. change (Z.land word 0xFFFF) with (fst (halves word)). change (Z.shiftr word 16) with (snd (halves word)).
  destruct (img_push _ _ (vram_buf g) g) as [b' g']. destruct Hp as (Hb' & p1 & Hd1 & E). split; [exact Hb'|].
  exists (p ++ p1). split; [apply delivers_vram; eapply delivers_trans; eassumption|].
  change (vram_buf (g' <| vram_buf := b' |>)) with b'. rewrite <- app_assoc, E. reflexivity.
Qed.

Lemma vram_writes words : Forall is_u32 words -> forall g0 p g, delivers p g0 g -> img_ok 1000 (vram_buf g) ->
  let g' := fold_left (fun g word => GPU_Backend_VRAMWrite word g) words g in
  img_ok 1000 (vram_buf g') /\ exists p', delivers p' g0 g' /\
    p' ++ img_pixels (vram_buf g') = p ++ img_pixels (vram_buf g) ++ stp_pairs (map halves words).
Proof.
  induction words as [|word words IH]; intros Hw g0 p g Hd Hb; cbn [fold_left].
  - split; [exact Hb|]. exists p. split; [exact Hd|]. cbn. rewrite app_nil_r. reflexivity.
  - apply Forall_cons in Hw as [H1 Hw]. destruct (vram_write_step g0 word p g Hd Hb H1) as (Hb1 & p1 & Hd1 & E1).
    destruct (IH Hw g0 p1 _ Hd1 Hb1) as (Hb2 & p2 & Hd2 & E2). split; [exact Hb2|]. exists p2. split; [exact Hd2|].
    rewrite E2, app_assoc, E1, <- !app_assoc. reflexivity.
Qed.

Lemma vram_flush_pixels p g0 g : delivers p g0 g -> img_ok 1000 (vram_buf g) ->
  delivers (p ++ img_pixels (vram_buf g) ++ pad_pixels (zlen (p ++ img_pixels (vram_buf g)))) g0 (GPU_Backend_VRAMFlush g).
Proof.
  intros Hd Hb. destruct (img_pad_spec _ _ Hb) as (_ & Hn & Ep).
  pose proof (img_end_spec (img_pad (vram_buf g)) g (delivers_on _ _ _ Hd) ltac:(lia)) as He. rewrite Ep in He.
  pose proof (delivers_trans _ _ _ _ _ Hd He) as H1. pose proof (delivers_texflush _ (delivers_on _ _ _ H1)) as Ht.
  pose proof (delivers_trans _ _ _ _ _ H1 Ht) as H2. pose proof (delivers_flush _ (delivers_on _ _ _ H2)) as Hf.
  pose proof (delivers_trans _ _ _ _ _ H2 Hf) as H3. rewrite !app_nil_r in H3. apply (delivers_vram (mkImgBuf [] [])) in H3.
  destruct (delivers_mult8 _ _ _ Hd) as (c & Hc).
  rewrite (pad_pixels_eq (zlen (p ++ img_pixels (vram_buf g))) (zlen (img_pixels (vram_buf g))) c) by (rewrite zlen_app, Hc; lia).
  exact H3.
Qed.

(** [C24] An image reaches the graphics chip.  A transfer that is started, fed
    word by word (in packets of 1000 words of 128 bits as they fill up) and
    flushed sends whole packets whose image pixels are exactly the halfwords
    of the words in order, every non-zero one with the opaque bit, completed
    with zeros to a multiple of eight; the path that takes all the words at
    once sends the same. *)
Theorem uploads_send_pixels rx ry w h words g : prof_disable_gpu_render g = false ->
  vram_buf g = mkImgBuf [] [] -> Forall is_u32 words ->
  let expected := stp_pairs (map halves words) ++ pad_pixels (2 * zlen words) in
  delivers expected g (GPU_Backend_VRAMFlush (fold_left (fun g word => GPU_Backend_VRAMWrite word g) words (Start_VRAM_Transfer rx ry w h g))) /\
  delivers expected g (upload_words rx ry w h words g).
Proof.
  intros Hg Hv Hw. cbv zeta. split; [|apply upload_words_pixels; assumption].
  pose proof (delivers_start rx ry w h g Hg) as Hs.
  assert (Hv1 : vram_buf (Start_VRAM_Transfer rx ry w h g) = mkImgBuf [] []).
  { rewrite <- Hv. unfold Start_VRAM_Transfer, push_reg, push_ad_tag, Push_GIF_Tag, Push_GIF_Data, Flush_GIF. cbv zeta.
    destruct (_ <=? _); [|reflexivity]. destruct (0 <? _); [|reflexivity]. rewrite Hg. reflexivity. }
  destruct (vram_writes words Hw g [] _ Hs) as (Hb & p & Hd & E); [rewrite Hv1; split; [reflexivity | reflexivity | constructor]|].
  rewrite Hv1 in E. change (img_pixels (mkImgBuf [] [])) with (@nil Z) in E. cbn [app] in E.
  pose proof (vram_flush_pixels p g _ Hd Hb) as Hf. rewrite app_assoc, E in Hf.
  rewrite stp_pairs_len in Hf. replace (zlen (map halves words)) with (zlen words) in Hf by (unfold zlen; rewrite length_map; reflexivity).
  exact Hf.
Qed.

(** ** Uploads from the shadow copy *)

Definition shadow_px (v : gmap Z Z) (qx qy : Z) : Z := default 0 (v !! (qy * 1024 + qx)).

(** A row of the rectangle as the chip gets it. *)
Definition row_pixels (v : gmap Z Z) (rx qy w : Z) : list Z :=
  map (fun c => stp (shadow_px v (rx + c) qy)) (zseq (Z.to_nat w)) ++ pad_pixels w.

(** The pairs of a row, the odd pixel completed with a zero. *)
Lemma pairs_of_row (f : Z -> Z) (n : nat) : forall w, Z.of_nat n = (w + 1) / 2 -> 0 <= w ->
  concat (map (fun k => [f (2 * k); if 2 * k + 1 <? w then f (2 * k + 1) else 0]) (zseq n))
  = map f (zseq (Z.to_nat w)) ++ (if Z.even w then [] else [0]).
Proof.
  assert (Hfull : forall m, concat (map (fun k => [f (2 * k); f (2 * k + 1)]) (zseq m)) = map f (zseq (2 * m))).
  { induction m as [|m IH]; [reflexivity|]. rewrite zseq_snoc, map_app, concat_app, IH.
    replace (2 * S m)%nat with (S (S (2 * m))) by lia. rewrite !zseq_snoc, !map_app, <- app_assoc. f_equal. cbn [map concat app].
    replace (Z.of_nat (S (2 * m))) with (2 * Z.of_nat m + 1) by lia. replace (Z.of_nat (2 * m)) with (2 * Z.of_nat m) by lia. reflexivity. }
  assert (Hpre : forall w m, 2 * Z.of_nat m <= w -> concat (map (fun k => [f (2 * k); if 2 * k + 1 <? w then f (2 * k + 1) else 0]) (zseq m))
                  = map f (zseq (2 * m))).
  { intros w m Hm. rewrite <- Hfull. f_equal. apply map_ext_in. intros k Hk. apply in_zseq in Hk. rewrite (proj2 (Z.ltb_lt _ w)) by lia. reflexivity. }
  intros w Hn Hw. destruct (Z.even w) eqn:Ev.
  - rewrite app_nil_r. apply Z.even_spec in Ev as [k ->]. replace (2 * k + 1) with (1 + k * 2) in Hn by lia. rewrite Z.div_add in Hn by lia.
    change (1 / 2) with 0 in Hn. rewrite Hpre by lia. f_equal. f_equal. lia.
  - assert (Hodd : Z.odd w = true) by (rewrite <- Z.negb_even, Ev; reflexivity). apply Z.odd_spec in Hodd as [k ->].
    replace (2 * k + 1 + 1) with ((k + 1) * 2) in Hn by lia. rewrite Z.div_mul in Hn by lia. destruct n as [|n]; [lia|].
    rewrite zseq_snoc, map_app, concat_app, Hpre by lia. replace (Z.to_nat (2 * k + 1)) with (S (2 * n)) by lia.
    rewrite zseq_snoc, map_app, <- app_assoc. f_equal. cbn [map concat app]. rewrite (proj2 (Z.ltb_ge _ _)) by lia.
    replace (Z.of_nat (2 * n)) with (2 * Z.of_nat n) by lia. reflexivity.
Qed.

Lemma odd_pad w : 0 <= w -> (if Z.even w then [] else [0]) ++ pad_pixels (2 * ((w + 1) / 2)) = pad_pixels w.
Proof.
  intros Hw. destruct (Z.even w) eqn:Ev.
  - apply Z.even_spec in Ev as [k ->]. replace (2 * k + 1) with (1 + k * 2) by lia. rewrite Z.div_add by lia. reflexivity.
  - assert (Hodd : Z.odd w = true) by (rewrite <- Z.negb_even, Ev; reflexivity). apply Z.odd_spec in Hodd as [k ->].
    replace (2 * k + 1 + 1) with ((k + 1) * 2) by lia. rewrite Z.div_mul by lia. unfold pad_pixels.
    pose proof (Z.mod_pos_bound (- (2 * (k + 1))) 8 ltac:(lia)). pose proof (Z.div_mod (- (2 * (k + 1))) 8 ltac:(lia)) as Hdm.
    set (q := - (2 * (k + 1)) / 8) in *. set (r := (- (2 * (k + 1))) mod 8) in *.
    assert (E : (- (2 * k + 1)) mod 8 = r + 1).
    { symmetry. apply (Z.mod_unique_pos _ _ q); [|lia]. assert (r mod 2 = 0) by (replace r with ((- (k + 1) - 4 * q) * 2) by lia; apply Z.mod_mul; lia).
      pose proof (Z.div_mod r 2 ltac:(lia)). lia. }
    rewrite E. replace (Z.to_nat (r + 1)) with (S (Z.to_nat r)) by lia. reflexivity.
Qed.

Definition vram_ok (v : gmap Z Z) : Prop := map_Forall (fun _ p => is_u16 p) v.

Lemma shadow_px_u16 v qx qy : vram_ok v -> is_u16 (shadow_px v qx qy).
Proof.
  intros Hv. unfold shadow_px. destruct (v !! _) as [p|] eqn:E; cbn; [exact (map_Forall_lookup_1 _ _ _ _ Hv E) | unfold is_u16; lia].
Qed.

Lemma shadow_pair_in v rx qy w k : 0 <= rx -> rx + w <= 1024 -> 0 <= k -> 2 * k < w ->
  shadow_pair v rx qy w (2 * k) = (shadow_px v (rx + 2 * k) qy, if 2 * k + 1 <? w then shadow_px v (rx + (2 * k + 1)) qy else 0).
Proof.
  intros Hx Hw Hk Hk2. unfold shadow_pair, shadow_px. rewrite (proj2 (Z.leb_gt 1024 (rx + 2 * k))) by lia. cbv zeta. f_equal.
  destruct (Z.ltb_spec (2 * k + 1) w); [|reflexivity].
  change 0x3FF with (Z.ones 10). rewrite Z.land_ones, Z.mod_small by (change (2 ^ 10) with 1024; lia). f_equal. f_equal. lia.
Qed.

Lemma shadow_row_spec v rx ry w n q g row : vram_ok v -> prof_disable_gpu_render g = false -> 1000 <= n <= 32000 ->
  0 <= rx -> 0 < w -> rx + w <= 1024 -> 0 <= ry + row < 512 -> zlen q < n ->
  let '(b, g') := shadow_row v rx ry w (mkImgBuf q [], g) row in
  img_pend b = [] /\ zlen (img_q b) <= n /\
  exists p, delivers p g g' /\ p ++ qwords_pixels (img_q b) = qwords_pixels q ++ row_pixels v rx (ry + row) w.
Proof.
  intros Hv Hg Hn Hx Hw Hxw Hy Hq. unfold shadow_row. rewrite (proj2 (Z.leb_gt 512 (ry + row))) by lia. cbv zeta. cbn [fst snd img_q].
  set (qy := ry + row). set (l := zseq (Z.to_nat ((w + 1) / 2))). set (f := fun k => shadow_pair v rx qy w (2 * k)).
  assert (Hh : 0 <= (w + 1) / 2) by (apply Z.div_pos; lia).
  assert (Hf : forall k, In k l -> f k = (shadow_px v (rx + 2 * k) qy, if 2 * k + 1 <? w then shadow_px v (rx + (2 * k + 1)) qy else 0)).
  { intros k Hk. apply in_zseq in Hk. rewrite Z2Nat.id in Hk by exact Hh. apply shadow_pair_in; try assumption; try lia.
    pose proof (Z.div_mod (w + 1) 2 ltac:(lia)). pose proof (Z.mod_pos_bound (w + 1) 2 ltac:(lia)). lia. }
  assert (Hu : pairs_u16 (map f l)).
  { apply List.Forall_forall. intros p Hp. apply in_map_iff in Hp as (k & <- & Hk). rewrite (Hf k Hk). cbn [fst snd].
    split; [apply shadow_px_u16, Hv|]. destruct (_ <? w); [apply shadow_px_u16, Hv | unfold is_u16; lia]. }
  assert (Epx : stp_pairs (map f l) = map (fun c => stp (shadow_px v (rx + c) qy)) (zseq (Z.to_nat w)) ++ (if Z.even w then [] else [0])).
  { rewrite <- (pairs_of_row (fun c => stp (shadow_px v (rx + c) qy)) (Z.to_nat ((w + 1) / 2)) w) by lia.
    unfold stp_pairs. rewrite map_map. f_equal. apply map_ext_in. intros k Hk. rewrite (Hf k Hk). cbn [fst snd].
    destruct (_ <? w); reflexivity. }
  assert (Hb0 : img_ok n (mkImgBuf q [])) by (split; [exact Hq | reflexivity | constructor]).
  pose proof (img_fold_spec n f l Hn Hu (mkImgBuf q []) g Hg Hb0) as H.
  change (fold_left (fun bg k => let '(p0, p1) := shadow_pair v rx qy w (2 * k) in img_push p0 p1 (fst bg) (snd bg)) l) with
    (fold_left (fun bg a => img_push (fst (f a)) (snd (f a)) (fst bg) (snd bg)) l).
  destruct (fold_left _ l _) as [b g']. destruct H as (Hb & p & Hd & E). destruct (img_pad_spec _ _ Hb) as (H1 & H2 & H3).
  split; [exact H1|]. split; [exact H2|]. exists p. split; [exact Hd|]. rewrite H3, app_assoc, E.
  unfold img_pixels at 1. cbn [img_q img_pend]. change (pend_pixels []) with (@nil Z). rewrite app_nil_r, <- app_assoc. f_equal.
  rewrite Epx, <- app_assoc. unfold row_pixels. f_equal. rewrite <- (odd_pad w) by lia. f_equal.
  destruct (delivers_mult8 _ _ _ Hd) as (c & Hc). apply (f_equal zlen) in E.
  rewrite zlen_app, Hc, zlen_app in E. unfold img_pixels in E at 2. cbn [img_q img_pend] in E. change (pend_pixels []) with (@nil Z) in E.
  rewrite app_nil_r, qwords_pixels_len, stp_pairs_len in E.
  assert (El : zlen (map f l) = (w + 1) / 2) by (unfold zlen, l; rewrite length_map; unfold zseq; rewrite length_map, length_seq; lia).
  apply (pad_pixels_eq _ _ (zlen q - c)). lia.
Qed.

Lemma shadow_rows_spec v rx ry w g0 : vram_ok v -> prof_disable_gpu_render g0 = false ->
  0 <= rx -> 0 < w -> rx + w <= 1024 -> 0 <= ry -> forall h, ry + Z.of_nat h <= 512 ->
  let '(b, g) := fold_left (shadow_row v rx ry w) (zseq h) (mkImgBuf [] [], g0) in
  img_pend b = [] /\ zlen (img_q b) < 1001 + Z.of_nat h /\
  exists p, delivers p g0 g /\ p ++ qwords_pixels (img_q b) = concat (map (fun r => row_pixels v rx (ry + r) w) (zseq h)).
Proof.
  intros Hv Hg Hx Hw Hxw Hy h. induction h as [|h IH]; intros Hh.
  - split; [reflexivity|]. split; [reflexivity|]. exists []. split; [apply delivers_refl, Hg | reflexivity].
  - rewrite zseq_snoc, fold_left_app. specialize (IH ltac:(lia)). destruct (fold_left _ (zseq h) _) as [b g]. destruct IH as (Hp & Hn & p & Hd & E).
    cbn [fold_left]. destruct b as [q pend]. cbn [img_pend img_q] in *. subst pend.
    pose proof (shadow_row_spec v rx ry w (1001 + Z.of_nat h) q g (Z.of_nat h) Hv (delivers_on _ _ _ Hd) ltac:(lia) Hx Hw Hxw ltac:(lia) Hn) as H.
    destruct (shadow_row _ _ _ _ _ _) as [b' g']. destruct H as (H1 & H2 & p2 & Hd2 & E2).
    split; [exact H1|]. split; [lia|]. exists (p ++ p2). split; [eapply delivers_trans; eassumption|].
    rewrite map_app, concat_app, <- E, <- !app_assoc. f_equal. cbn [map concat]. rewrite app_nil_r. exact E2.
Qed.

(** A rectangle of the shadow copy is sent row by row, each row completed with
    zeros to a multiple of eight pixels. *)
Lemma shadow_upload_rows v rx ry w h g : vram_ok v -> prof_disable_gpu_render g = false -> buf_image g = [] ->
  0 <= rx -> 0 < w -> rx + w <= 1024 -> 0 <= ry -> 0 < h -> ry + h <= 512 ->
  delivers (concat (map (fun r => map (fun c => stp (shadow_px v (rx + c) (ry + r))) (zseq (Z.to_nat w)) ++ pad_pixels w) (zseq (Z.to_nat h))))
    g (Upload_Shadow_VRAM_Region v rx ry w h g).
Proof.
  intros Hv Hg Hi Hx Hw Hxw Hy Hh Hyh. unfold Upload_Shadow_VRAM_Region.
  rewrite (proj2 (Z.leb_gt w 0)), (proj2 (Z.leb_gt h 0)) by lia. cbn [orb]. cbv zeta.
  pose proof (delivers_start rx ry w h g Hg) as Hs.
  assert (Hi1 : buf_image (Start_VRAM_Transfer rx ry w h g) = []).
  { rewrite <- Hi. unfold Start_VRAM_Transfer, push_reg, push_ad_tag, Push_GIF_Tag, Push_GIF_Data, Flush_GIF. cbv zeta.
    destruct (_ <=? _); [|reflexivity]. destruct (0 <? _); [|reflexivity]. rewrite Hg. reflexivity. }
  rewrite Hi1. set (g1 := Start_VRAM_Transfer rx ry w h g) in *. clearbody g1.
  pose proof (shadow_rows_spec v rx ry w g1 Hv (delivers_on _ _ _ Hs) Hx Hw Hxw Hy (Z.to_nat h) ltac:(lia)) as H.
  destruct (fold_left _ _ _) as [b g']. destruct H as (Hp & Hn & p & Hd & E).
  pose proof (delivers_trans _ _ _ _ _ Hs Hd) as H1. cbn [app] in H1.
  pose proof (img_end_spec b g' (delivers_on _ _ _ Hd) ltac:(lia)) as He.
  pose proof (delivers_trans _ _ _ _ _ H1 He) as H2. apply (delivers_image []) in H2.
  pose proof (delivers_flush _ (delivers_on _ _ _ H2)) as Hf. pose proof (delivers_trans _ _ _ _ _ H2 Hf) as H3.
  rewrite app_nil_r, E in H3. exact H3.
Qed.

(** The chip fills a transfer rectangle of width [w] with the pixels as they
    come: what it stores in column [i] of row [j]. *)
Definition chip_pixel (p : list Z) (w i j : Z) : Z := nth (Z.to_nat (j * w + i)) p 0.

Lemma nth_rows (row : Z -> list Z) (n : nat) : forall h i j, (forall r, length (row r) = n) -> (i < n)%nat -> (j < h)%nat ->
  nth (j * n + i) (concat (map row (zseq h))) 0 = nth i (row (Z.of_nat j)) 0.
Proof.
  induction h as [|h IH]; intros i j Hl Hi Hj; [lia|]. rewrite zseq_snoc, map_app, concat_app.
  assert (Hlen : length (concat (map row (zseq h))) = (h * n)%nat).
  { clear -Hl. induction h as [|h IH]; [reflexivity|]. rewrite zseq_snoc, map_app, concat_app, length_app, IH. cbn [map concat]. rewrite app_nil_r, Hl. lia. }
  destruct (Nat.eq_dec j h) as [->|Hne].
  - rewrite app_nth2, Hlen by lia. replace (h * n + i - h * n)%nat with i by lia. cbn [map concat]. rewrite app_nil_r. reflexivity.
  - rewrite app_nth1 by (rewrite Hlen; nia). apply IH; [exact Hl | exact Hi | lia].
Qed.

Lemma nth_map_zseq (f : Z -> Z) n i : (i < n)%nat -> nth i (map f (zseq n)) 0 = f (Z.of_nat i).
Proof.
  intros Hi. rewrite <- (Nat2Z.id i) at 1. apply (anth_map_zseq 0 f n). lia.
Qed.

(** Rectangles whose width is a multiple of eight arrive intact: the chip
    stores in every pixel of the rectangle the pixel of the shadow copy, with
    the opaque bit when it is not zero. *)
Theorem shadow_upload_exact v rx ry w h g : vram_ok v -> prof_disable_gpu_render g = false -> buf_image g = [] ->
  0 <= rx -> 0 < w -> rx + w <= 1024 -> 0 <= ry -> 0 < h -> ry + h <= 512 -> w mod 8 = 0 ->
  exists p, delivers p g (Upload_Shadow_VRAM_Region v rx ry w h g) /\
    forall i j, 0 <= i < w -> 0 <= j < h -> chip_pixel p w i j = stp (shadow_px v (rx + i) (ry + j)).
Proof.
  intros Hv Hg Hi Hx Hw Hxw Hy Hh Hyh H8. eexists. split; [apply shadow_upload_rows; assumption|]. intros i j Hci Hcj.
  assert (Hpad : pad_pixels w = []).
  { unfold pad_pixels. rewrite Z.mod_opp_l_z by (exact H8 || lia). reflexivity. }
  rewrite Hpad. unfold chip_pixel. replace (Z.to_nat (j * w + i)) with (Z.to_nat j * Z.to_nat w + Z.to_nat i)%nat by nia.
  rewrite (nth_rows (fun r => map (fun c => stp (shadow_px v (rx + c) (ry + r))) (zseq (Z.to_nat w)) ++ []) (Z.to_nat w) (Z.to_nat h));
    [| intros r; rewrite app_nil_r, length_map, length_zseq; reflexivity | lia | lia].
  rewrite app_nil_r, nth_map_zseq by lia. rewrite !Z2Nat.id by lia. reflexivity.
Qed.

(** Other widths shear the picture: the zeros that complete a row are
    part of the stream, so the chip's second row begins with a zero pixel
    instead of the shadow copy's, and every later row slides further. *)
Theorem shadow_upload_shears v rx ry w h g : vram_ok v -> prof_disable_gpu_render g = false -> buf_image g = [] ->
  0 <= rx -> 0 < w -> rx + w <= 1024 -> 0 <= ry -> 1 < h -> ry + h <= 512 -> w mod 8 <> 0 ->
  exists p, delivers p g (Upload_Shadow_VRAM_Region v rx ry w h g) /\ chip_pixel p w 0 1 = 0.
Proof.
  intros Hv Hg Hi Hx Hw Hxw Hy Hh Hyh H8. eexists. split; [apply shadow_upload_rows; try assumption; lia|].
  unfold chip_pixel. replace (1 * w + 0) with w by lia. assert (E : zseq (Z.to_nat h) = 0 :: map Z.of_nat (seq 1 (Z.to_nat h - 1))).
  { replace (Z.to_nat h) with (S (Z.to_nat h - 1)) at 1 by lia. reflexivity. }
  rewrite E. cbn [map concat]. rewrite <- app_assoc.
  rewrite app_nth2 by (rewrite length_map, length_zseq; lia). rewrite length_map, length_zseq, Nat.sub_diag.
  assert (Hpad : exists l, pad_pixels w = 0 :: l).
  { unfold pad_pixels. rewrite Z.mod_opp_l_nz by (exact H8 || lia). pose proof (Z.mod_pos_bound w 8 ltac:(lia)).
    destruct (Z.to_nat (8 - w mod 8)) as [|k] eqn:Ek; [lia|]. exists (repeat 0 k). reflexivity. }
  destruct Hpad as (l & ->). reflexivity.
Qed.

(** ** Bounds *)

(** [C31] A packet of up to 1024 words of 128 bits never overruns the packet
    buffer: the tag moves to the other buffer when fewer than 1025 places are
    left, whatever was waiting.  The reserve is exact; the uploads of narrow
    images of more rows, whose packets are longer, are left out
    ([narrow_upload_overruns]). *)
Theorem gif_packet_fits lo hi data g : zlen data <= 1024 ->
  zlen (gif_packet_buf (push_qwords data (Push_GIF_Tag lo hi g))) <= GIF_BUFFER_SIZE.
Proof.
  intros Hd.
  assert (Hq : forall qs g, zlen (gif_packet_buf (push_qwords qs g)) = zlen (gif_packet_buf g) + zlen qs).
  { induction qs as [|q qs IH]; intros g'; [change (zlen (@nil Qword)) with 0; symmetry; apply Z.add_0_r|].
    change (push_qwords (q :: qs) g') with (push_qwords qs (Push_GIF_Data (fst q) (snd q) g')). rewrite IH. unfold Push_GIF_Data. cbn [gif_packet_buf upd setter].
    rewrite zlen_app. unfold zlen. cbn [length]. lia. }
  rewrite Hq. unfold Push_GIF_Tag. cbv zeta. unfold gif_buffer_end_safe, GIF_BUFFER_SIZE in *.
  assert (Hpush : forall d0 d1 g, zlen (gif_packet_buf (Push_GIF_Data d0 d1 g)) = zlen (gif_packet_buf g) + 1)
    by (intros; unfold Push_GIF_Data; cbn [gif_packet_buf upd setter]; rewrite zlen_app; reflexivity).
  rewrite Hpush. destruct (Z.leb_spec (16384 - 1024) (zlen (gif_packet_buf g))) as [Hle|Hlt]; [|lia].
  assert (Hf : zlen (gif_packet_buf (Flush_GIF g)) = 0).
  { unfold Flush_GIF. cbv zeta. rewrite (proj2 (Z.ltb_lt 0 _)) by lia. reflexivity. }
  rewrite Hf. lia.
Qed.

Lemma img_push_short p0 p1 q pend g : zlen pend < 3 -> img_push p0 p1 (mkImgBuf q pend) g = (mkImgBuf q (pend ++ [stp_pair p0 p1]), g).
Proof. intros Hp. unfold img_push. cbv zeta. cbn [img_q img_pend]. rewrite zlen_app. change (zlen [_]) with 1. rewrite (proj2 (Z.leb_gt 4 _)) by lia. reflexivity. Qed.

Lemma narrow_row v rx ry w q g row : 1 <= w <= 6 ->
  let '(b, g') := shadow_row v rx ry w (mkImgBuf q [], g) row in img_pend b = [] /\ zlen (img_q b) = zlen q + 1 /\ g' = g.
Proof.
  intros Hw. unfold shadow_row. cbv zeta. cbn [fst snd img_q]. set (sy := if 512 <=? ry + row then _ else _).
  assert (Hn : (Z.to_nat ((w + 1) / 2) = 1 \/ Z.to_nat ((w + 1) / 2) = 2 \/ Z.to_nat ((w + 1) / 2) = 3)%nat).
  { assert (Hc : w = 1 \/ w = 2 \/ w = 3 \/ w = 4 \/ w = 5 \/ w = 6) by lia. repeat destruct Hc as [-> | Hc]; cbn; auto; subst w; cbn; auto. }
  assert (Hend : forall pend, 0 < zlen pend -> img_pend (img_pad (mkImgBuf q pend)) = [] /\ zlen (img_q (img_pad (mkImgBuf q pend))) = zlen q + 1 /\ g = g).
  { intros pend Hp. unfold img_pad. cbn [img_pend img_q]. rewrite (proj2 (Z.ltb_lt 0 _)) by exact Hp. cbn [img_pend img_q].
    split; [reflexivity|]. split; [rewrite zlen_app; reflexivity | reflexivity]. }
  unfold shadow_pair.
  destruct Hn as [-> | [-> | ->] ]; [change (zseq 1) with [0] | change (zseq 2) with [0; 1] | change (zseq 3) with [0; 1; 2] ]; cbn [fold_left fst snd];
    rewrite img_push_short by reflexivity; cbn [fst snd]; rewrite ?img_push_short by reflexivity; cbn [fst snd]; rewrite ?img_push_short by reflexivity;
    cbn [app]; apply Hend; reflexivity.
Qed.

(** Narrow rectangles are not sent in parts: up to six pixels of width, a
    row adds one word to the pixel buffer without the test of the full words,
    so after [h] rows it holds [h] words, and its 1024 places are overrun when
    there are more rows.  An upload past the right edge of the video memory
    sends the rectangle that overhangs with the upload's height, which is any
    16-bit number. *)
Theorem narrow_upload_overruns v rx ry w h g : 1 <= w <= 6 -> 0 <= h ->
  let '(b, _) := fold_left (shadow_row v rx ry w) (zseq (Z.to_nat h)) (mkImgBuf [] [], g) in zlen (img_q b) = h.
Proof.
  intros Hw Hh. assert (He : exists k, h = Z.of_nat k) by (exists (Z.to_nat h); lia). destruct He as [k ->].
  rewrite Nat2Z.id. clear Hh. induction k as [|k IH]; [reflexivity|].
  assert (Hp : img_pend (fst (fold_left (shadow_row v rx ry w) (zseq k) (mkImgBuf [] [], g))) = []).
  { clear IH. induction k as [|k IH]; [reflexivity|]. rewrite zseq_snoc, fold_left_app.
    destruct (fold_left _ (zseq k) _) as [ [q pend] g1]. cbn [fst img_pend] in IH. subst pend. cbn [fold_left].
    pose proof (narrow_row v rx ry w q g1 (Z.of_nat k) Hw) as Hr. destruct (shadow_row _ _ _ _ _ _) as [b' g']. exact (proj1 Hr). }
  rewrite zseq_snoc, fold_left_app. destruct (fold_left _ (zseq k) _) as [ [q pend] g1]. cbn [fst img_pend] in Hp. subst pend. cbn [fold_left].
  pose proof (narrow_row v rx ry w q g1 (Z.of_nat k) Hw) as Hr. destruct (shadow_row _ _ _ _ _ _) as [b' g']. destruct Hr as (_ & -> & _).
  cbn [img_q] in IH. lia.
Qed.

(** The settings send whole packets without pixels. *)
Lemma settings_send_no_pixels x1 y1 x2 y2 set check g : prof_disable_gpu_render g = false ->
  delivers [] g (GPU_Backend_SetScissor x1 y1 x2 y2 g) /\ delivers [] g (GPU_Backend_SetMaskBit set check g) /\
  delivers [] g (GPU_Backend_ClearVRAM x1 y1 x2 y2 g).
Proof.
  intros Hg.
  assert (Hsc : forall g, prof_disable_gpu_render g = false -> delivers [] g (GPU_Backend_SetScissor x1 y1 x2 y2 g)).
  { intros g' Hg'. exact (delivers_regs 1 [(GS_SET SCISSOR_1 [x1; if 0 <? x2 then x2 - 1 else 0; y1; if 0 <? y2 then y2 - 1 else 0], GS_REG SCISSOR_1)]
      g' Hg' eq_refl eq_refl GIF_REG_AD). }
  split; [apply Hsc, Hg|]. split.
  - exact (delivers_regs 2 [(GS_SET FBA_1 [set], GS_REG FBA_1); (Get_Base_TEST check, GS_REG TEST_1)] g Hg eq_refl eq_refl GIF_REG_AD).
  - unfold GPU_Backend_ClearVRAM. cbv zeta.
    pose proof (delivers_regs 5 [(GS_SET SCISSOR_1 [0; PSX_VRAM_WIDTH - 1; 0; PSX_VRAM_HEIGHT - 1], GS_REG SCISSOR_1);
      (GS_PACK_PRIM_FROM_INT 6, GS_REG PRIM); (GS_SET RGBAQ [0; 0; 0; 0; 0x3F800000], GS_REG RGBAQ);
      (GS_SET XYZ2 [Z.shiftl (0 + 2048) 4; Z.shiftl (0 + 2048) 4; 0], GS_REG XYZ2);
      (GS_SET XYZ2 [Z.shiftl (PSX_VRAM_WIDTH + 2048) 4; Z.shiftl (PSX_VRAM_HEIGHT + 2048) 4; 0], GS_REG XYZ2)] g Hg eq_refl eq_refl GIF_REG_AD) as H1.
    pose proof (delivers_trans _ _ _ _ _ H1 (delivers_flush _ (delivers_on _ _ _ H1))) as H2. cbn [app] in H2.
    pose proof (delivers_trans _ _ _ _ _ H2 (Hsc _ (delivers_on _ _ _ H2))) as H3. cbn [app] in H3.
    exact (delivers_trans _ _ _ _ _ H3 (delivers_flush _ (delivers_on _ _ _ H3))).
Qed.
End Uploads.

(** ** Examples *)

(** The chip's register layouts, any will do. *)
#[export] Instance plain_sdk : GsSdk := {
  GS_SET := fun _ fields => fold_left (fun v f => Z.lor (Z.shiftl v 4) f) fields 0;
  GS_REG := fun r => match r with BITBLTBUF => 0x50 | TRXPOS => 0x51 | TRXREG => 0x52 | TRXDIR => 0x53 | TEXFLUSH => 0x3F
    | PRIM => 0 | TEX0 => 6 | TEXCLUT => 0x1C | CLAMP_1 => 8 | TEST_1 => 0x47 | ALPHA_1 => 0x42 | DTHE => 0x45 | _ => 0x60 end;
  GIF_REG_AD := 0xE; GIF_REG_RGBAQ := 1; GIF_REG_XYZ2 := 5; GIF_REG_UV := 3; GIF_REG_ST := 2; GS_PSM_16S := 0xA; GS_PSM_16 := 2; GS_PSM_8 := 0x13; GS_PSM_4 := 0x14
}.

Definition gif_start : Gif := mkGif [] 0 [] false (mkImgBuf [] []) [].

Lemma uploads_send_pixels_witness :
  delivers [0x9234; 0xFFFF; 0; 0x8001; 0; 0; 0; 0] gif_start (upload_words 0 0 2 2 [0xFFFF1234; 0x00010000] gif_start).
Proof.
  assert (Hw : Forall is_u32 [0xFFFF1234; 0x00010000]) by (repeat constructor; unfold is_u32; lia).
  destruct (uploads_send_pixels 0 0 2 2 [0xFFFF1234; 0x00010000] gif_start eq_refl eq_refl Hw) as [_ H]. exact H.
Defined.

(** A shadow copy with one white pixel at (9, 1). *)
Definition dot_vram : gmap Z Z := <[1 * 1024 + 9 := 0x7FFF]> ∅.
Lemma dot_vram_ok : vram_ok dot_vram.
Proof. apply map_Forall_insert_2; [unfold is_u16; lia | apply map_Forall_empty]. Qed.

Lemma shadow_upload_exact_witness :
  exists p, delivers p gif_start (Upload_Shadow_VRAM_Region dot_vram 8 0 8 2 gif_start) /\ chip_pixel p 8 1 1 = 0xFFFF.
Proof.
  destruct (shadow_upload_exact dot_vram 8 0 8 2 gif_start dot_vram_ok eq_refl eq_refl) as (p & Hd & Hp); try lia; [reflexivity|].
  exists p. split; [exact Hd|]. rewrite Hp by lia. vm_compute. reflexivity.
Defined.

Lemma shadow_upload_shears_witness :
  exists p, delivers p gif_start (Upload_Shadow_VRAM_Region dot_vram 9 0 4 2 gif_start) /\ chip_pixel p 4 0 1 = 0 /\
    stp (shadow_px dot_vram (9 + 0) (0 + 1)) = 0xFFFF.
Proof.
  destruct (shadow_upload_shears dot_vram 9 0 4 2 gif_start dot_vram_ok eq_refl eq_refl) as (p & Hd & Hp); try lia; [discriminate|].
  exists p. split; [exact Hd|]. split; [exact Hp | vm_compute; reflexivity].
Defined.

Lemma gif_packet_fits_witness :
  zlen (gif_packet_buf (push_qwords (repeat (0, 0) 8) (Push_GIF_Tag 0 0 gif_start))) <= GIF_BUFFER_SIZE.
Proof. apply gif_packet_fits. vm_compute. discriminate. Defined.

Lemma narrow_upload_overruns_witness :
  let '(b, _) := fold_left (shadow_row dot_vram 0 0 1) (zseq (Z.to_nat 1100)) (mkImgBuf [] [], gif_start) in zlen (img_q b) = 1100.
Proof. apply (narrow_upload_overruns dot_vram 0 0 1 1100 gif_start); lia. Defined.
