(* ===== verification/Texture.v ===== *)
(** * Texture pages on the graphics chip ([platform/ps2/gpu_ps2_texture.c])

    Indexed textures are sent to fixed slots of the chip's memory, one per page
    and format, when a page is used whose pixels were written since.  Writes
    are tracked by a generation number per block of 64 x 16 halfwords; a cache
    of the renderer ([gpu_ps2_primitives.c]) skips the check for pages that
    were used last.  Statistics are left out. *)

From S2P Require Import Prelude Gif.

(** ** State *)

(** An entry of the renderer's page cache: [result] is what the decoding
    answered, 0 for direct colour and 3 for an indexed page. *)
Record PrimTexEntry := mkPrimTexEntry {
  e_valid : bool; e_tex_format : Z; e_tex_page_x : Z; e_tex_page_y : Z; e_clut_x : Z; e_clut_y : Z;
  e_vram_gen : Z; e_global_gen : Z; e_result : Z; e_hw_clut : bool; e_csm : Z; e_hw_tbp0 : Z; e_hw_cbp : Z
}.
#[export] Instance eta_PrimTexEntry : Eta PrimTexEntry := fun e =>
  mkPrimTexEntry (e_valid e) (e_tex_format e) (e_tex_page_x e) (e_tex_page_y e) (e_clut_x e) (e_clut_y e)
    (e_vram_gen e) (e_global_gen e) (e_result e) (e_hw_clut e) (e_csm e) (e_hw_tbp0 e) (e_hw_cbp e).

Record TexCache := mkTexCache {
  vram_page_gen : list Z; page_gen : list Z;
  prim_tex_cache : list PrimTexEntry; prim_tex_cache_last : Z
}.
#[export] Instance eta_TexCache : Eta TexCache := fun t =>
  mkTexCache (vram_page_gen t) (page_gen t) (prim_tex_cache t) (prim_tex_cache_last t).

Definition VRAM_DIRTY_COLS : Z := 16.
Definition VRAM_DIRTY_ROWS : Z := 32.
Definition VRAM_DIRTY_ROW_SHIFT : Z := 4.
Definition PAGE_LOCS : Z := 32.
Definition PAGE_SLOTS : Z := 64.
Definition PAGE8_TBP_BASE : Z := 4096.
Definition PAGE8_TBP_STRIDE : Z := 256.
Definition PAGE4_TBP_BASE : Z := 12288.
Definition PAGE4_TBP_STRIDE : Z := 128.
Definition PRIM_TEX_CACHE_SIZE : Z := 96.

Definition prim_entry0 : PrimTexEntry := mkPrimTexEntry false 0 0 0 0 0 0 0 0 false 0 0 0.
Definition Tex_Cache_Init : TexCache :=
  mkTexCache (repeat 0 (Z.to_nat (VRAM_DIRTY_COLS * VRAM_DIRTY_ROWS))) (repeat 0 (Z.to_nat PAGE_SLOTS))
    (repeat prim_entry0 (Z.to_nat PRIM_TEX_CACHE_SIZE)) (-1).

(** [for (i = a; i <= b; i++)]. *)
Definition zrange (a b : Z) : list Z := map (Z.add a) (zseq (Z.to_nat (b - a + 1))).

(** ** Generations *)

(** The blocks a region touches: first and last column and row. *)
Definition last_col (rx w : Z) : Z := Z.min (Z.shiftr (u32 (rx + w - 1)) 6) (VRAM_DIRTY_COLS - 1).
Definition last_row (ry h : Z) : Z := Z.min (Z.shiftr (u32 (ry + h - 1)) VRAM_DIRTY_ROW_SHIFT) (VRAM_DIRTY_ROWS - 1).

Definition Tex_Cache_DirtyRegion (rx ry w h gen : Z) (t : TexCache) : TexCache :=
  if (w <=? 0) || (h <=? 0) then t
  else
    let rows := zrange (Z.shiftr (u32 ry) VRAM_DIRTY_ROW_SHIFT) (last_row ry h) in
    let cols := zrange (Z.shiftr (u32 rx) 6) (last_col rx w) in
    t <| vram_page_gen ::= fun l =>
      fold_left (fun l r => fold_left (fun l c => aset l (r * VRAM_DIRTY_COLS + c) gen) cols l) rows l |>.

Definition get_region_gen (rx ry w h : Z) (t : TexCache) : Z :=
  let rows := zrange (Z.shiftr (u32 ry) VRAM_DIRTY_ROW_SHIFT) (last_row ry h) in
  let cols := zrange (Z.shiftr (u32 rx) 6) (last_col rx w) in
  fold_left (fun m r => fold_left (fun m c => let g := aget (vram_page_gen t) (r * VRAM_DIRTY_COLS + c) in if m <? g then g else m) cols m)
    rows 0.

Definition Tex_Cache_GetPageGen (tex_format tex_page_x tex_page_y : Z) (t : TexCache) : Z :=
  get_region_gen tex_page_x tex_page_y (if tex_format =? 0 then 64 else if tex_format =? 1 then 128 else 256) 256 t.

(** ** Slots *)

Definition compute_page_id (page_x page_y : Z) : Z := Z.shiftr page_x 6 + Z.shiftl (Z.shiftr page_y 8) 4.
Definition page_slot (page_id tex_format : Z) : Z := tex_format * PAGE_LOCS + page_id.
Definition page_tbp0 (page_id tex_format : Z) : Z :=
  if tex_format =? 0 then PAGE4_TBP_BASE + page_id * PAGE4_TBP_STRIDE else PAGE8_TBP_BASE + page_id * PAGE8_TBP_STRIDE.

(** The width of a page in halfwords. *)
Definition page_width (tex_format : Z) : Z := if tex_format =? 0 then 64 else 128.

(** ** Sending pages *)

(** 128 bits of the shadow copy from halfword [i]. *)
Definition mem_qword (v : gmap Z Z) (i : Z) : Qword :=
  let hw k := default 0 (v !! (i + k)) in
  (Z.lor (Z.lor (hw 0) (Z.shiftl (hw 1) 16)) (Z.lor (Z.shiftl (hw 2) 32) (Z.shiftl (hw 3) 48)),
   Z.lor (Z.lor (hw 4) (Z.shiftl (hw 5) 16)) (Z.lor (Z.shiftl (hw 6) 32) (Z.shiftl (hw 7) 48))).

Definition fast_copy_256 (v : gmap Z Z) (src : Z) (g : Gif) : Gif := push_qwords (map (fun k => mem_qword v (src + 8 * k)) (zseq 16)) g.
Definition fast_copy_128 (v : gmap Z Z) (src : Z) (g : Gif) : Gif := push_qwords (map (fun k => mem_qword v (src + 8 * k)) (zseq 8)) g.

Section Upload.
Context {SDK : GsSdk}.

Definition page_transfer (tbp0 psm start_row num_rows : Z) (g : Gif) : Gif :=
  let g := push_ad_tag 4 g in
  let g := push_reg BITBLTBUF [0; 0; 0; tbp0; 4; psm] g in
  let g := push_reg TRXPOS [0; 0; 0; start_row; 0] g in
  let g := push_reg TRXREG [256; num_rows] g in
  push_reg TRXDIR [0] g.

(** The rows of a page in packets of 1024 words of 128 bits, all of them. *)
Definition Upload_Indexed_8BPP (v : gmap Z Z) (tbp0 tex_page_x tex_page_y : Z) (g : Gif) : Gif :=
  fold_left (fun g chunk =>
    let g := Push_GIF_Tag (GIF_TAG_LO 1024 (b2z (chunk =? 3)) 0 0 2 0) 0 g in
    fold_left (fun g row => fast_copy_256 v ((tex_page_y + row) * 1024 + tex_page_x) g) (map (Z.add (chunk * 64)) (zseq 64)) g)
  (zseq 4) (page_transfer tbp0 GS_PSM_8 0 256 g).

Definition Upload_Indexed_4BPP (v : gmap Z Z) (tbp0 tex_page_x tex_page_y : Z) (g : Gif) : Gif :=
  fold_left (fun g chunk =>
    let g := Push_GIF_Tag (GIF_TAG_LO 1024 (b2z (chunk =? 1)) 0 0 2 0) 0 g in
    fold_left (fun g row => fast_copy_128 v ((tex_page_y + row) * 1024 + tex_page_x) g) (map (Z.add (chunk * 128)) (zseq 128)) g)
  (zseq 2) (page_transfer tbp0 GS_PSM_4 0 256 g).

(** [while (qws_sent < total_qws)]: every round sends at least a row. *)
Fixpoint send_rows (fuel : nat) (copy : Z -> Gif -> Gif) (qws_per_row total_qws qws_sent row : Z) (g : Gif) : Gif :=
  match fuel with
  | O => g
  | S fuel =>
    if qws_sent <? total_qws then
      let chunk_qws := Z.min (total_qws - qws_sent) 1024 in
      let chunk_rows := chunk_qws / qws_per_row in
      let g := Push_GIF_Tag (GIF_TAG_LO chunk_qws (b2z (total_qws <=? qws_sent + chunk_qws)) 0 0 2 0) 0 g in
      let g := fold_left (fun g r => copy (row + r) g) (zseq (Z.to_nat chunk_rows)) g in
      send_rows fuel copy qws_per_row total_qws (qws_sent + chunk_qws) (row + chunk_rows) g
    else g
  end.

Definition Upload_Indexed_8BPP_Partial (v : gmap Z Z) (tbp0 tex_page_x tex_page_y start_row num_rows : Z) (g : Gif) : Gif :=
  send_rows (Z.to_nat num_rows) (fun row => fast_copy_256 v ((tex_page_y + row) * 1024 + tex_page_x)) 16 (num_rows * 16) 0 start_row
    (page_transfer tbp0 GS_PSM_8 start_row num_rows g).

Definition Upload_Indexed_4BPP_Partial (v : gmap Z Z) (tbp0 tex_page_x tex_page_y start_row num_rows : Z) (g : Gif) : Gif :=
  send_rows (Z.to_nat num_rows) (fun row => fast_copy_128 v ((tex_page_y + row) * 1024 + tex_page_x)) 8 (num_rows * 8) 0 start_row
    (page_transfer tbp0 GS_PSM_4 start_row num_rows g).
End Upload.

(** ** What of a page must be sent *)

(** Bit [br]: block row [br] of the page was written after [old_gen]. *)
Definition row_dirty (tex_page_x tex_page_y tex_hw_w old_gen : Z) (t : TexCache) (br : Z) : bool :=
  let gr := Z.shiftr (u32 tex_page_y) VRAM_DIRTY_ROW_SHIFT + br in
  (gr <? VRAM_DIRTY_ROWS) &&
  existsb (fun c => old_gen <? aget (vram_page_gen t) (gr * VRAM_DIRTY_COLS + c))
    (zrange (Z.shiftr (u32 tex_page_x) 6) (last_col tex_page_x tex_hw_w)).

Definition dirty_mask (tex_page_x tex_page_y tex_hw_w old_gen : Z) (t : TexCache) : Z :=
  fold_left (fun m br => if row_dirty tex_page_x tex_page_y tex_hw_w old_gen t br then Z.lor m (Z.shiftl 1 br) else m) (zseq 16) 0.

(** [while (br < 16 && (dirty_mask & (1 << br))) br++]. *)
Fixpoint run_end (fuel : nat) (mask br : Z) : Z :=
  match fuel with
  | O => br
  | S fuel => if (br <? 16) && tst mask (Z.shiftl 1 br) then run_end fuel mask (br + 1) else br
  end.

(** The contiguous runs of dirty block rows: first row and number of rows. *)
Fixpoint dirty_runs (fuel : nat) (mask br : Z) : list (Z * Z) :=
  match fuel with
  | O => []
  | S fuel =>
    if br <? 16 then
      if negb (tst mask (Z.shiftl 1 br)) then dirty_runs fuel mask (br + 1)
      else let e := run_end 16 mask br in (br * 16, (e - br) * 16) :: dirty_runs fuel mask e
    else []
  end.

(** The rows to send for a page: none when it is current. *)
Definition page_plan (tex_format tex_page_x tex_page_y : Z) (t : TexCache) : list (Z * Z) :=
  let old_gen := aget (page_gen t) (page_slot (compute_page_id tex_page_x tex_page_y) tex_format) in
  let w := page_width tex_format in
  if old_gen =? get_region_gen tex_page_x tex_page_y w 256 t then []
  else
    let mask := dirty_mask tex_page_x tex_page_y w old_gen t in
    if negb (old_gen =? 0) && negb (mask =? 0xFFFF) then dirty_runs 17 mask 0 else [(0, 256)].

Definition prim_tex_cache_idx (tex_format tex_page_x tex_page_y : Z) : Z :=
  tex_format * 32 + Z.shiftr tex_page_y 8 * 16 + Z.shiftr tex_page_x 6.

Definition prim_entry (t : TexCache) (i : Z) : PrimTexEntry := anth prim_entry0 (prim_tex_cache t) i.

Definition Prim_InvalidateTexCache_Page (tex_page_x tex_page_y : Z) (t : TexCache) : TexCache :=
  fold_left (fun t fmt =>
    let i := prim_tex_cache_idx fmt tex_page_x tex_page_y in
    t <| prim_tex_cache ::= fun l => aset l i ((prim_entry t i) <| e_valid := false |>) |>) (zseq 3) t.

Definition Prim_InvalidateTexCache (t : TexCache) : TexCache :=
  t <| prim_tex_cache ::= map (fun e => e <| e_valid := false |>) |> <| prim_tex_cache_last := -1 |>.

Section Decode.
Context {SDK : GsSdk}.

(** Sending a run: the whole page by the full upload. *)
Definition send_run (v : gmap Z Z) (tex_format tbp0 tex_page_x tex_page_y : Z) (whole : bool) (g : Gif) (run : Z * Z) : Gif :=
  if whole then
    if tex_format =? 1 then Upload_Indexed_8BPP v tbp0 tex_page_x tex_page_y g else Upload_Indexed_4BPP v tbp0 tex_page_x tex_page_y g
  else if tex_format =? 1 then Upload_Indexed_8BPP_Partial v tbp0 tex_page_x tex_page_y (fst run) (snd run) g
  else Upload_Indexed_4BPP_Partial v tbp0 tex_page_x tex_page_y (fst run) (snd run) g.

(** The answer: the result, the slot's address. *)
Definition Decode_TexPage_Cached (v : gmap Z Z) (tex_format tex_page_x tex_page_y : Z) (t : TexCache) (g : Gif) : Z * Z * TexCache * Gif :=
  if 1 <? tex_format then (0, 0, t, g)
  else
    let page_id := compute_page_id tex_page_x tex_page_y in
    let slot := page_slot page_id tex_format in
    let tbp0 := page_tbp0 page_id tex_format in
    let current := get_region_gen tex_page_x tex_page_y (page_width tex_format) 256 t in
    let old_gen := aget (page_gen t) slot in
    if old_gen =? current then (3, tbp0, t, g)
    else
      let mask := dirty_mask tex_page_x tex_page_y (page_width tex_format) old_gen t in
      let whole := (old_gen =? 0) || (mask =? 0xFFFF) in
      let g := fold_left (send_run v tex_format tbp0 tex_page_x tex_page_y whole) (page_plan tex_format tex_page_x tex_page_y t) g in
      let t := t <| page_gen ::= fun l => aset l slot current |> in
      (3, tbp0, Prim_InvalidateTexCache_Page tex_page_x tex_page_y t, g).

(** ** The renderer's page cache ([gpu_ps2_primitives.c]) *)

Definition same_page (e : PrimTexEntry) (tex_format tex_page_x tex_page_y : Z) : bool :=
  e_valid e && (e_tex_format e =? tex_format) && (e_tex_page_x e =? tex_page_x) && (e_tex_page_y e =? tex_page_y).

(** Is entry [i] current?  Its snapshot is refreshed when its page is. *)
Definition entry_current (i tex_format tex_page_x tex_page_y gen : Z) (t : TexCache) : bool * TexCache :=
  if e_global_gen (prim_entry t i) =? gen then (true, t <| prim_tex_cache_last := i |>)
  else if e_vram_gen (prim_entry t i) =? Tex_Cache_GetPageGen tex_format tex_page_x tex_page_y t
  then (true, t <| prim_tex_cache ::= fun l => aset l i ((prim_entry t i) <| e_global_gen := gen |>) |> <| prim_tex_cache_last := i |>)
  else (false, t).

Definition prim_tex_cache_lookup (tex_format tex_page_x tex_page_y gen : Z) (t : TexCache) : bool * TexCache :=
  let last := prim_tex_cache_last t in
  if (0 <=? last) && same_page (prim_entry t last) tex_format tex_page_x tex_page_y
  then entry_current last tex_format tex_page_x tex_page_y gen t
  else
    let idx := prim_tex_cache_idx tex_format tex_page_x tex_page_y in
    if e_valid (prim_entry t idx) then entry_current idx tex_format tex_page_x tex_page_y gen t else (false, t).

Definition prim_tex_decode (v : gmap Z Z) (tex_format tex_page_x tex_page_y clut_x clut_y gen : Z) (t : TexCache) (g : Gif) : Z * TexCache * Gif :=
  let '(result, out_x, t, g) := Decode_TexPage_Cached v tex_format tex_page_x tex_page_y t g in
  let idx := prim_tex_cache_idx tex_format tex_page_x tex_page_y in
  let hw_clut := (result =? 2) || (result =? 3) in
  let e := mkPrimTexEntry true tex_format tex_page_x tex_page_y clut_x clut_y
             (Tex_Cache_GetPageGen tex_format tex_page_x tex_page_y t) gen result hw_clut (b2z (result =? 3))
             (if hw_clut then out_x else 0) 0 in
  (result, t <| prim_tex_cache ::= fun l => aset l idx e |> <| prim_tex_cache_last := idx |>, g).

(** A textured primitive looks its page up and decodes it when it must. *)
Definition use_page (v : gmap Z Z) (tex_format tex_page_x tex_page_y clut_x clut_y gen : Z) (t : TexCache) (g : Gif) : bool * TexCache * Gif :=
  let '(cache_hit, t) := prim_tex_cache_lookup tex_format tex_page_x tex_page_y gen t in
  if cache_hit then (true, t, g)
  else let '(_, t, g) := prim_tex_decode v tex_format tex_page_x tex_page_y clut_x clut_y gen t g in (false, t, g).
End Decode.
