(* ===== verification/Primitives.v ===== *)
(** * The renderer ([platform/ps2/gpu_ps2_primitives.c])

    Drawing commands are turned into packets for the graphics chip: polygons,
    rectangles, lines and fills, through the general translator, the two fast
    paths and the batch of triangles.  Registers of the chip are written only
    when the value tracked for them differs ("lazy state").  The texture page
    cache is in [Texture.v].  Statistics and debug output are left out. *)

From S2P Require Import Prelude Scheduler System Gpu Gif Texture.

(** ** State *)

(** The last value written to each tracked register of the chip; [last_cmd_key]
    and [last_cache_slot] describe the last polygon. *)
Record GsState := mkGsState {
  gs_tex0 : Z; gs_test : Z; gs_alpha : Z; gs_clamp : Z; gs_texclut : Z; gs_dthe : Z; gs_valid : bool;
  last_cmd_key : Z; last_cache_slot : Z
}.
#[export] Instance eta_GsState : Eta GsState := fun s =>
  mkGsState (gs_tex0 s) (gs_test s) (gs_alpha s) (gs_clamp s) (gs_texclut s) (gs_dthe s) (gs_valid s)
    (last_cmd_key s) (last_cache_slot s).

Record BatchSub := mkBatchSub { vert_start : Z; reg_start : Z; prim_packed : Z }.

(** The batch; its two counters of array entries are the lengths of the lists. *)
Record Batch := mkBatch {
  b_data : list Z; b_subs : list BatchSub; b_vert_count : Z; b_tri_count : Z;
  b_nreg : Z; b_regs_field : Z; b_pixels : Z; b_cmd_byte : Z; b_active : bool; b_fmt_key : Z;
  b_page_x : Z; b_page_y : Z; b_clut_x : Z; b_clut_y : Z; b_cache_slot : Z;
  b_clut_decoded : bool; b_off_u : Z; b_off_v : Z; b_ox : Z; b_oy : Z
}.
#[export] Instance eta_Batch : Eta Batch := fun b =>
  mkBatch (b_data b) (b_subs b) (b_vert_count b) (b_tri_count b) (b_nreg b) (b_regs_field b) (b_pixels b)
    (b_cmd_byte b) (b_active b) (b_fmt_key b) (b_page_x b) (b_page_y b) (b_clut_x b) (b_clut_y b) (b_cache_slot b)
    (b_clut_decoded b) (b_off_u b) (b_off_v b) (b_ox b) (b_oy b).

Record Prim := mkPrim { gs : GsState; texc : TexCache; gif : Gif; batch : Batch; estimated_pixels : Z }.
#[export] Instance eta_Prim : Eta Prim := fun p => mkPrim (gs p) (texc p) (gif p) (batch p) (estimated_pixels p).

Definition BATCH_MAX_TRIS : Z := 128.
Definition BATCH_MAX_SUBS : Z := 32.

(** The initial [gs_state] and the zeroed batch. *)
Definition gs_state_init : GsState := mkGsState 0 0 0 0 UINT64_MAX 0 false (-1) (-1).
Definition batch_init : Batch := mkBatch [] [] 0 0 0 0 0 0 false 0 0 0 0 0 0 false 0 0 0 0.

Definition Prim_InvalidateGSState (s : GsState) : GsState :=
  s <| gs_valid := false |> <| last_cmd_key := -1 |> <| last_cache_slot := -1 |>.

Definition Prim_InvalidateTexCache_Region (rx ry w h gen : Z) (t : TexCache) : TexCache :=
  Prim_InvalidateTexCache (Tex_Cache_DirtyRegion rx ry w h gen t).

(** ** Coordinates, colours, texture windows *)

(** [(int16_t)((int32_t)(v << 21) >> 21)]: an 11-bit signed field. *)
Definition sext11 (v : Z) : Z := s16 (Z.shiftr (s32 (Z.shiftl v 21)) 21).
Definition vert_x (xy : Z) : Z := sext11 (Z.land xy 0xFFFF).
Definition vert_y (xy : Z) : Z := sext11 (Z.shiftr xy 16).

Definition tri_area_abs (x0 y0 x1 y1 x2 y2 : Z) : Z :=
  let a := s32 (x0 * (y1 - y2) + x1 * (y2 - y0) + x2 * (y0 - y1)) in
  u32 (Z.shiftr (if a <? 0 then s32 (- a) else a) 1).

Definition Apply_Tex_Window_U (t : TexState) (u : Z) : Z :=
  if tex_win_mask_x t =? 0 then u
  else Z.lor (Z.land u (not32 (tex_win_mask_x t * 8))) (Z.land (tex_win_off_x t) (tex_win_mask_x t) * 8).
Definition Apply_Tex_Window_V (t : TexState) (v : Z) : Z :=
  if tex_win_mask_y t =? 0 then v
  else Z.lor (Z.land v (not32 (tex_win_mask_y t * 8))) (Z.land (tex_win_off_y t) (tex_win_mask_y t) * 8).

(** A drawing coordinate on the chip: 12.4 fixed point around 2048. *)
Definition gs_coord (v off : Z) : Z := s32 (Z.shiftl (v + off + 2048) 4).

(** ** Attributes of a command byte *)

Record Attrs := mkAttrs { a_shaded : bool; a_textured : bool; a_semi : bool; a_raw : bool; a_dither : bool }.

Definition poly_attrs (cmd dither_enabled : Z) : Attrs :=
  let is_shaded := tst cmd 0x10 in
  let is_textured := tst cmd 0x04 in
  let is_raw_tex := is_textured && tst cmd 0x01 in
  mkAttrs is_shaded is_textured (tst cmd 0x02) is_raw_tex
    (negb (dither_enabled =? 0) && (is_shaded || (is_textured && negb is_raw_tex))).

Definition cmd_key (a : Attrs) (mode : Z) : Z :=
  Z.lor (Z.lor (Z.lor (Z.lor (b2z (a_raw a)) (Z.shiftl (b2z (a_dither a)) 1)) (Z.shiftl (b2z (a_semi a)) 2))
    (Z.shiftl mode 3)) (Z.shiftl (b2z (a_textured a)) 5).

(** The PRIM register: type, shading, texturing with UV coordinates, blending. *)
Definition prim_bits (ty : Z) (a : Attrs) : Z :=
  let p := if a_shaded a then Z.lor ty (Z.shiftl 1 3) else ty in
  let p := if a_textured a then Z.lor (Z.lor p (Z.shiftl 1 4)) (Z.shiftl 1 8) else p in
  if a_semi a then Z.lor p (Z.shiftl 1 6) else p.

(** ** Vertices *)

Record PolyVertex := mkPolyVertex { v_x : Z; v_y : Z; v_color : Z; v_uv : Z }.

(** The vertices of a polygon from word [idx] on, and the next word. *)
Definition parse_vertex (shaded textured : bool) (psx_cmd : Z -> Z) (st : list PolyVertex * Z) (i : Z) : list PolyVertex * Z :=
  let '(verts, idx) := st in
  let color := Z.land (psx_cmd 0) 0xFFFFFF in
  let '(c, idx) := if i =? 0 then (color, idx)
                   else if shaded then (Z.land (psx_cmd idx) 0xFFFFFF, idx + 1) else (color, idx) in
  let xy := psx_cmd idx in
  let '(uv, idx) := if textured then (psx_cmd (idx + 1), idx + 2) else (0, idx + 1) in
  (verts ++ [mkPolyVertex (vert_x xy) (vert_y xy) c uv], idx).

Definition parse_vertices (shaded textured : bool) (psx_cmd : Z -> Z) (n : Z) : list PolyVertex * Z :=
  fold_left (parse_vertex shaded textured psx_cmd) (zseq (Z.to_nat n)) ([], 1).

Definition vertex0 : PolyVertex := mkPolyVertex 0 0 0 0.
Definition vert (verts : list PolyVertex) (i : Z) : PolyVertex := anth vertex0 verts i.

Definition poly_area (verts : list PolyVertex) (is_quad : bool) : Z :=
  let tri a b c := tri_area_abs (v_x (vert verts a)) (v_y (vert verts a)) (v_x (vert verts b)) (v_y (vert verts b))
                     (v_x (vert verts c)) (v_y (vert verts c)) in
  if is_quad then u32 (tri 0 1 2 + tri 1 3 2) else tri 0 1 2.

(** Register values go out two to a 128-bit word. *)
Fixpoint pair_up (l : list Z) : list Qword :=
  match l with
  | a :: b :: l => (a, b) :: pair_up l
  | [a] => [(a, 0)]
  | [] => []
  end.

Definition opt_regs {A} (b : bool) (l : list A) : list A := if b then l else [].

Section Renderer.
Context {SDK : GsSdk}.
Abbreviation PrimSys := (GpuSys Prim).
Implicit Types x : PrimSys.

Definition prm x : Prim := snd (fst x).
Definition upd_prim (f : Prim -> Prim) x : PrimSys := (gp x, f (prm x), sys x).
Definition upd_gif (f : Gif -> Gif) : PrimSys -> PrimSys := upd_prim (fun p => p <| gif ::= f |>).
Definition upd_gs (f : GsState -> GsState) : PrimSys -> PrimSys := upd_prim (fun p => p <| gs ::= f |>).
Definition upd_texc (f : TexCache -> TexCache) : PrimSys -> PrimSys := upd_prim (fun p => p <| texc ::= f |>).
Definition upd_batch (f : Batch -> Batch) : PrimSys -> PrimSys := upd_prim (fun p => p <| batch ::= f |>).
Definition add_pixels (n : Z) : PrimSys -> PrimSys := upd_prim (fun p => p <| estimated_pixels ::= fun e => u64 (e + n) |>).

Definition Get_Alpha_Reg (mode : Z) : Z :=
  match Z.land mode 3 with
  | 0 => GS_SET ALPHA_1 [0; 1; 2; 1; 0x58]
  | 1 => GS_SET ALPHA_1 [0; 2; 2; 1; 0x80]
  | 2 => GS_SET ALPHA_1 [1; 0; 2; 2; 0x80]
  | _ => GS_SET ALPHA_1 [0; 2; 2; 1; 0x20]
  end.

Definition Compute_TexWin_Clamp (t : TexState) : Z :=
  if (tex_win_mask_x t =? 0) && (tex_win_mask_y t =? 0) then GS_SET CLAMP_1 [0; 0; 0; 0; 0; 0]
  else
    GS_SET CLAMP_1 [3; 3; Z.land (not32 (tex_win_mask_x t * 8)) 0xFF; Z.land (tex_win_off_x t) (tex_win_mask_x t) * 8;
      Z.land (not32 (tex_win_mask_y t * 8)) 0xFF; Z.land (tex_win_off_y t) (tex_win_mask_y t) * 8].

Definition rgbaq (c q : Z) : Z :=
  GS_SET RGBAQ [Z.land c 0xFF; Z.land (Z.shiftr c 8) 0xFF; Z.land (Z.shiftr c 16) 0xFF; 0x80; q].
Definition F32_ONE : Z := 0x3F800000.
Definition xyz (vx vy : Z) : Z := GS_SET XYZ2 [vx; vy; 0].

(** ** What a primitive wants of the chip *)

(** The texture of a primitive: how the page was found, where the palette is. *)
Record TexUse := mkTexUse {
  u_hit : bool; u_result : Z; u_csm : bool; u_tbp0 : Z; u_cbp : Z; u_clut_x : Z; u_clut_y : Z; u_slot : Z
}.
Definition no_texture : TexUse := mkTexUse false 0 false 0 0 0 0 (-1).
Definition u_hw (u : TexUse) : bool := (u_result u =? 2) || (u_result u =? 3).
Definition u_decoded (u : TexUse) : bool := u_hw u || (u_result u =? 1).
(** What is added to the coordinates of a decoded texture. *)
Definition u_off_u (u : TexUse) : Z := if u_hw u then 0 else u_tbp0 u.
Definition u_off_v (u : TexUse) : Z := if u_hw u then 0 else u_cbp u.

Definition clut_x_of (uv : Z) : Z := Z.land (Z.shiftr uv 16) 0x3F * 16.
Definition clut_y_of (uv : Z) : Z := Z.land (Z.shiftr uv 22) 0x1FF.

Definition texture_of (hit : bool) (uv : Z) (t : TexCache) : TexUse :=
  let e := prim_entry t (prim_tex_cache_last t) in
  mkTexUse hit (e_result e) (negb (e_csm e =? 0)) (e_hw_tbp0 e) (e_hw_cbp e) (clut_x_of uv) (clut_y_of uv) (prim_tex_cache_last t).

(** Look the page up, decode it if it is not current. *)
Definition find_texture (fmt px py uv : Z) x : TexUse * PrimSys :=
  let '(hit, t, g) := use_page (vram (gp x)) fmt px py (clut_x_of uv) (clut_y_of uv) (vram_gen_counter (gp x)) (texc (prm x)) (gif (prm x)) in
  (texture_of hit uv t, upd_prim (fun p => p <| texc := t |> <| gif := g |>) x).

Definition texclut_of (u : TexUse) : Z := GS_SET TEXCLUT [PSX_VRAM_FBW; u_clut_x u / 16; u_clut_y u].

(** TEST with the alpha test that drops transparent texels. *)
Definition tex_test (check : Z) : Z := Z.lor (Z.lor 1 (Z.shiftl 6 1)) (Get_Base_TEST check).

Definition tex0_of (fmt : Z) (raw : bool) (u : TexUse) : Z :=
  let tfx := b2z raw in
  if u_hw u then
    let psm := if fmt =? 0 then GS_PSM_4 else GS_PSM_8 in
    if u_csm u then GS_SET TEX0 [u_tbp0 u; 4; psm; 8; 8; 1; tfx; 0; GS_PSM_16S; 1; 0; 1]
    else GS_SET TEX0 [u_tbp0 u; 4; psm; 8; 8; 1; tfx; u_cbp u; GS_PSM_16; 0; 0; 1]
  else if u_decoded u then GS_SET TEX0 [4096; PSX_VRAM_FBW; GS_PSM_16S; 10; 10; 1; tfx; 0; 0; 0; 0; 0]
  else GS_SET TEX0 [0; PSX_VRAM_FBW; GS_PSM_16S; 10; 9; 1; tfx; 0; 0; 0; 0; 0].

Record Wants := mkWants {
  w_dthe : Z; w_alpha : Z; w_test : Z; w_tex0 : Z; w_clamp : Z; w_texclut : Z; w_texflush : bool
}.

Definition poly_wants (a : Attrs) (u : TexUse) (t : TexState) (check : Z) : Wants :=
  mkWants (b2z (a_dither a)) (if a_semi a then Get_Alpha_Reg (semi_trans_mode t) else 0)
    (if a_textured a then tex_test check else 0)
    (if a_textured a then tex0_of (tex_page_format t) (a_raw a) u else 0)
    (if a_textured a && u_hw u then Compute_TexWin_Clamp t else 0)
    (if a_textured a && u_hw u && u_csm u then texclut_of u else 0)
    (a_textured a && u_decoded u && negb (u_hit u)).

(** ** Lazy state *)

(** The registers that have to be written. *)
Record Emits := mkEmits { em_dthe : bool; em_alpha : bool; em_tex0 : bool; em_test : bool; em_clamp : bool; em_texclut : bool }.

Definition lazy_emits (s : GsState) (w : Wants) (semi tex0_on test_on clamp_on texclut_on : bool) : Emits :=
  let stale tracked want := negb (gs_valid s) || negb (tracked =? want) in
  let emit_tex0 := tex0_on && (stale (gs_tex0 s) (w_tex0 w) || w_texflush w) in
  let emit_texclut := texclut_on && stale (gs_texclut s) (w_texclut w) in
  mkEmits (stale (gs_dthe s) (w_dthe w)) (semi && stale (gs_alpha s) (w_alpha w))
    (if emit_texclut && negb emit_tex0 then true else emit_tex0)
    (test_on && stale (gs_test s) (w_test w)) (clamp_on && stale (gs_clamp s) (w_clamp w)) emit_texclut.

Definition state_qws (e : Emits) (w : Wants) : Z :=
  b2z (em_dthe e) + b2z (em_alpha e) + b2z (em_tex0 e) + b2z (em_tex0 e && w_texflush w) + b2z (em_test e)
  + b2z (em_clamp e) + b2z (em_texclut e).

Definition state_regs (e : Emits) (w : Wants) : list Qword :=
  opt_regs (em_dthe e) [(w_dthe w, GS_REG DTHE)] ++ opt_regs (em_alpha e) [(w_alpha w, GS_REG ALPHA_1)]
  ++ opt_regs (em_clamp e) [(w_clamp w, GS_REG CLAMP_1)] ++ opt_regs (em_texclut e) [(w_texclut w, GS_REG TEXCLUT)]
  ++ opt_regs (em_tex0 e) ((w_tex0 w, GS_REG TEX0) :: opt_regs (w_texflush w) [(0, GS_REG TEXFLUSH)])
  ++ opt_regs (em_test e) [(w_test w, GS_REG TEST_1)].

(** The state packet, which ends with PRIM and goes on with the vertices. *)
Definition push_state (n : Z) (regs : list Qword) (prim : Z) (g : Gif) : Gif :=
  push_qwords (regs ++ [(GS_PACK_PRIM_FROM_INT prim, GS_REG PRIM)]) (Push_GIF_Tag (GIF_TAG_LO (n + 1) 0 0 0 0 1) GIF_REG_AD g).

(** What is tracked afterwards; a register of unknown content is tracked as
    all ones. *)
Definition poly_track (a : Attrs) (u : TexUse) (w : Wants) (s : GsState) : GsState :=
  let s := if gs_valid s then s
           else
             let s := if a_textured a then s
                      else s <| gs_tex0 := UINT64_MAX |> <| gs_test := UINT64_MAX |> <| gs_clamp := UINT64_MAX |> in
             if a_semi a then s else s <| gs_alpha := UINT64_MAX |> in
  let s := s <| gs_dthe := w_dthe w |> in
  let s := if a_semi a then s <| gs_alpha := w_alpha w |> else s in
  let s := if a_textured a then
             let s := s <| gs_tex0 := w_tex0 w |> <| gs_test := w_test w |> in
             if u_hw u then
               let s := s <| gs_clamp := w_clamp w |> in
               if u_csm u then s <| gs_texclut := w_texclut w |> else s
             else s
           else s in
  s <| gs_valid := true |>.

(** Nothing but PRIM has to be written. *)
Definition state_fast (a : Attrs) (u : TexUse) (key : Z) (s : GsState) : bool :=
  gs_valid s && (key =? last_cmd_key s) &&
  (negb (a_textured a) ||
   (u_hit u && (u_slot u =? last_cache_slot s) && (negb (u_csm u) || (gs_texclut s =? texclut_of u)))).

(** ** Polygons *)

(** A texture coordinate: of a decoded page, or of the video memory itself
    under the texture window. *)
Definition tex_coord (u : TexUse) (t : TexState) (px py uv : Z) : Z :=
  let cu := Z.land uv 0xFF in
  let cv := Z.land (Z.shiftr uv 8) 0xFF in
  if u_decoded u then xyz (u32 (Z.shiftl (cu + u_off_u u) 4)) (u32 (Z.shiftl (cv + u_off_v u) 4))
  else xyz (u32 (Z.shiftl (Apply_Tex_Window_U t cu + px) 4)) (u32 (Z.shiftl (Apply_Tex_Window_V t cv + py) 4)).

Definition vertex_regs (textured : bool) : Z :=
  if textured then Z.lor (Z.lor GIF_REG_UV (Z.shiftl GIF_REG_RGBAQ 4)) (Z.shiftl GIF_REG_XYZ2 8)
  else Z.lor GIF_REG_RGBAQ (Z.shiftl GIF_REG_XYZ2 4).

Definition vertex_data (a : Attrs) (flat coord : Z) (ox oy : Z) (v : PolyVertex) : list Z :=
  opt_regs (a_textured a) [coord]
  ++ [if a_shaded a then rgbaq (v_color v) F32_ONE else flat; xyz (gs_coord (v_x v) ox) (gs_coord (v_y v) oy)].

Definition poly_vdata (a : Attrs) (u : TexUse) (t : TexState) (e : DrawEnv) (px py : Z) (verts : list PolyVertex) : list Z :=
  let flat := rgbaq (v_color (vert verts 0)) F32_ONE in
  concat (map (fun v => vertex_data a flat (tex_coord u t px py (v_uv v)) (draw_offset_x e) (draw_offset_y e) v) verts).

Definition push_vertices (textured : bool) (n : Z) (vdata : list Z) (g : Gif) : Gif :=
  push_qwords (pair_up vdata) (Push_GIF_Tag (GIF_TAG_LO n 1 0 0 1 (if textured then 3 else 2)) (vertex_regs textured) g).

(** The state packet of a polygon whose texture [u] is found. *)
Definition poly_state (a : Attrs) (u : TexUse) (prim : Z) x : PrimSys :=
  let t := tex (gp x) in
  let key := cmd_key a (semi_trans_mode t) in
  let s := gs (prm x) in
  let x :=
    if state_fast a u key s then upd_gif (push_state 0 [] prim) x
    else
      let w := poly_wants a u t (mask_check_bit (env (gp x))) in
      let e := lazy_emits s w (a_semi a) (a_textured a) (a_textured a) (a_textured a && u_hw u) (a_textured a && u_hw u && u_csm u) in
      upd_gs (poly_track a u w) (upd_gif (push_state (state_qws e w) (state_regs e w) prim) x) in
  upd_gs (fun s => s <| last_cmd_key := key |>
             <| last_cache_slot ::= fun c => if a_textured a then u_slot u else c |>) x.

Definition emit_poly_state_and_verts (verts : list PolyVertex) (gs_prim_type cmd px py : Z) x : PrimSys :=
  let a := poly_attrs cmd (dither_enabled (tex (gp x))) in
  let '(u, x) := if a_textured a then find_texture (tex_page_format (tex (gp x))) px py (v_uv (vert verts 0)) x else (no_texture, x) in
  let x := poly_state a u (prim_bits gs_prim_type a) x in
  upd_gif (push_vertices (a_textured a) (zlen verts) (poly_vdata a u (tex (gp x)) (env (gp x)) px py verts)) x.

(** The texture page that comes with a textured polygon. *)
Definition set_tpage (tpage : Z) x : PrimSys :=
  let x := set_stat (fun v =>
    let v := Z.lor (Z.land v (not32 0x81FF)) (Z.land tpage 0x1FF) in
    let v := Z.land v (not32 0x8000) in
    if gp1_allow_2mb (gp x) =? 0 then v else Z.lor v (Z.shiftl (Z.land (Z.shiftr tpage 11) 1) 15)) x in
  upd_tex (fun t => t <| tex_page_x := Z.land tpage 0xF * 64 |> <| tex_page_y := Z.land (Z.shiftr tpage 4) 1 * 256 |>
    <| tex_page_format := Z.land (Z.shiftr tpage 7) 3 |> <| semi_trans_mode := Z.land (Z.shiftr tpage 5) 3 |>) x.

Definition cmd_byte (psx_cmd : Z -> Z) : Z := Z.land (Z.shiftr (psx_cmd 0) 24) 0xFF.

Definition translate_polygon (psx_cmd : Z -> Z) x : Z * PrimSys :=
  let cmd := cmd_byte psx_cmd in
  let is_quad := tst cmd 0x08 in
  let is_textured := tst cmd 0x04 in
  let n := if is_quad then 4 else 3 in
  let '(verts, idx) := parse_vertices (tst cmd 0x10) is_textured psx_cmd n in
  let x := if is_textured then set_tpage (Z.shiftr (v_uv (vert verts 1)) 16) x else x in
  let x := add_pixels (poly_area verts is_quad) x in
  let t := tex (gp x) in
  (idx, emit_poly_state_and_verts verts n cmd (tex_page_x t) (tex_page_y t) x).

(** ** The fast path for polygons *)

(** The page word of a textured polygon: in the coordinates of its second vertex. *)
Definition tpage_of (cmd : Z) (psx_cmd : Z -> Z) : Z := Z.shiftr (psx_cmd (if tst cmd 0x10 then 5 else 4)) 16.

(** The page must be current, in the slot of the last polygon, and the palette
    the one that is set. *)
Definition same_texture (fmt px py uv : Z) x : bool * TexUse * PrimSys :=
  let '(hit, t) := prim_tex_cache_lookup fmt px py (vram_gen_counter (gp x)) (texc (prm x)) in
  let x := upd_texc (fun _ => t) x in
  let u := texture_of hit uv t in
  (hit && (u_slot u =? last_cache_slot (gs (prm x))) && (negb (u_csm u) || (gs_texclut (gs (prm x)) =? texclut_of u)), u, x).

Definition fast_polygon (psx_cmd : Z -> Z) x : Z * PrimSys :=
  let cmd := cmd_byte psx_cmd in
  let is_quad := tst cmd 0x08 in
  let t := tex (gp x) in
  let a := poly_attrs cmd (dither_enabled t) in
  if negb (gs_valid (gs (prm x))) || negb (cmd_key a (semi_trans_mode t) =? last_cmd_key (gs (prm x))) then (0, x)
  else
    let tpage := tpage_of cmd psx_cmd in
    let px := if a_textured a then Z.land tpage 0xF * 64 else tex_page_x t in
    let py := if a_textured a then Z.land (Z.shiftr tpage 4) 1 * 256 else tex_page_y t in
    let '(same, u, x) := if a_textured a then same_texture (Z.land (Z.shiftr tpage 7) 3) px py (psx_cmd 2) x else (true, no_texture, x) in
    if negb same then (0, x)
    else
      let x := if a_textured a then set_tpage tpage x else x in
      let n := if is_quad then 4 else 3 in
      let '(verts, idx) := parse_vertices (a_shaded a) (a_textured a) psx_cmd n in
      let x := upd_gif (push_state 0 [] (prim_bits n a)) x in
      let x := upd_gif (push_vertices (a_textured a) n (poly_vdata a u (tex (gp x)) (env (gp x)) px py verts)) x in
      (idx, add_pixels (poly_area verts is_quad) x).

(** ** The batch of triangles *)

Definition batch_coord (b : Batch) (t : TexState) (uv : Z) : Z :=
  let cu := Z.land uv 0xFF in
  let cv := Z.land (Z.shiftr uv 8) 0xFF in
  if b_clut_decoded b then xyz (u32 (Z.shiftl (cu + b_off_u b) 4)) (u32 (Z.shiftl (cv + b_off_v b) 4))
  else xyz (u32 (Z.shiftl (Apply_Tex_Window_U t cu + b_page_x b) 4)) (u32 (Z.shiftl (Apply_Tex_Window_V t cv + b_page_y b) 4)).

Definition batch_add_tri (psx_cmd : Z -> Z) (cmd : Z) x : Z * PrimSys :=
  let shaded := tst cmd 0x10 in
  let textured := tst cmd 0x04 in
  let flat := rgbaq (Z.land (psx_cmd 0) 0xFFFFFF) F32_ONE in
  let b := batch (prm x) in
  let '(verts, idx) := parse_vertices shaded textured psx_cmd 3 in
  let regs := concat (map (fun v =>
    opt_regs textured [batch_coord b (tex (gp x)) (v_uv v)]
    ++ [if shaded then rgbaq (v_color v) F32_ONE else flat;
        xyz (s32 (Z.shiftl (v_x v + b_ox b) 4)) (s32 (Z.shiftl (v_y v + b_oy b) 4))]) verts) in
  (idx, upd_batch (fun b => b <| b_data ::= fun l => l ++ regs |> <| b_vert_count ::= Z.add 3 |> <| b_tri_count ::= Z.succ |>
          <| b_pixels ::= fun n => u32 (n + poly_area verts false) |>) x).

(** [for (s = 0; s < sub_count; s++)]: the packets of one part of the batch. *)
Definition flush_sub (b : Batch) (i : Z) (g : Gif) : Gif :=
  let sub_count := zlen (b_subs b) in
  let sub k := anth (mkBatchSub 0 0 0) (b_subs b) k in
  let v_count := (if i + 1 <? sub_count then vert_start (sub (i + 1)) else b_vert_count b) - vert_start (sub i) in
  if v_count <=? 0 then g
  else
    let r_start := reg_start (sub i) in
    let r_count := (if i + 1 <? sub_count then reg_start (sub (i + 1)) else zlen (b_data b)) - r_start in
    let total_need := 3 + (r_count + 1) / 2 in
    let g := if gif_buffer_end_safe <=? zlen (gif_packet_buf g) + total_need then Flush_GIF g else g in
    let g := Push_GIF_Data (prim_packed (sub i)) (GS_REG PRIM) (Push_GIF_Tag (GIF_TAG_LO 1 0 0 0 0 1) GIF_REG_AD g) in
    push_qwords (pair_up (take (Z.to_nat r_count) (drop (Z.to_nat r_start) (b_data b))))
      (Push_GIF_Tag (GIF_TAG_LO v_count 1 0 0 1 (b_nreg b)) (b_regs_field b) g).

Definition Prim_FlushBatch (p : Prim) : Prim :=
  let b := batch p in
  if negb (b_active b) || (b_tri_count b =? 0) then p
  else
    p <| gif ::= fun g => fold_left (fun g i => flush_sub b i g) (zseq (length (b_subs b))) g |>
      <| estimated_pixels ::= fun e => u64 (e + b_pixels b) |>
      <| batch := b <| b_active := false |> <| b_data := [] |> <| b_vert_count := 0 |> <| b_tri_count := 0 |> <| b_pixels := 0 |> |>.

(** The label [start_new]: [key] was computed when the function was entered. *)
Definition batch_start (psx_cmd : Z -> Z) (a : Attrs) (key : Z) x : Z * PrimSys :=
  let cmd := cmd_byte psx_cmd in
  if negb (gs_valid (gs (prm x))) || negb (key =? last_cmd_key (gs (prm x))) then (0, x)
  else
    let tpage := tpage_of cmd psx_cmd in
    let px := Z.land tpage 0xF * 64 in
    let py := Z.land (Z.shiftr tpage 4) 1 * 256 in
    let '(same, u, x) := if a_textured a then same_texture (Z.land (Z.shiftr tpage 7) 3) px py (psx_cmd 2) x else (true, no_texture, x) in
    if negb same then (0, x)
    else
      let x := if a_textured a
               then upd_batch (fun b => b <| b_page_x := px |> <| b_page_y := py |> <| b_clut_x := u_clut_x u |>
                      <| b_clut_y := u_clut_y u |> <| b_cache_slot := u_slot u |> <| b_clut_decoded := u_decoded u |>
                      <| b_off_u := u_off_u u |> <| b_off_v := u_off_v u |>) (set_tpage tpage x)
               else x in
      let e := env (gp x) in
      let x := upd_batch (fun b => b <| b_nreg := if a_textured a then 3 else 2 |> <| b_regs_field := vertex_regs (a_textured a) |>
                 <| b_cmd_byte := cmd |> <| b_fmt_key := Z.land key (Z.lnot 0x04) |> <| b_active := true |>
                 <| b_data := [] |> <| b_vert_count := 0 |> <| b_tri_count := 0 |> <| b_pixels := 0 |>
                 <| b_subs := [mkBatchSub 0 0 (GS_PACK_PRIM_FROM_INT (prim_bits 3 a))] |>
                 <| b_ox := draw_offset_x e + 2048 |> <| b_oy := draw_offset_y e + 2048 |>) x in
      batch_add_tri psx_cmd cmd x.

Definition other_texture (b : Batch) (psx_cmd : Z -> Z) (tpage : Z) : bool :=
  negb (Z.land tpage 0xF * 64 =? b_page_x b) || negb (Z.land (Z.shiftr tpage 4) 1 * 256 =? b_page_y b) ||
  negb (clut_x_of (psx_cmd 2) =? b_clut_x b) || negb (clut_y_of (psx_cmd 2) =? b_clut_y b).

Definition GPU_TryBatchAdd (psx_cmd : Z -> Z) x : Z * PrimSys :=
  let cmd := cmd_byte psx_cmd in
  if negb (Z.land cmd 0xE0 =? 0x20) || tst cmd 0x08 then (0, x)
  else
    let a := poly_attrs cmd (dither_enabled (tex (gp x))) in
    let key := cmd_key a (semi_trans_mode (tex (gp x))) in
    let b := batch (prm x) in
    let tpage := tpage_of cmd psx_cmd in
    let start_new x := batch_start psx_cmd a key x in
    if b_active b then
      if tst (Z.lxor cmd (b_cmd_byte b)) 0xFD || negb (Z.land key (Z.lnot 0x04) =? b_fmt_key b) || (BATCH_MAX_TRIS <=? b_tri_count b)
         || (a_textured a && other_texture b psx_cmd tpage)
      then start_new (upd_prim Prim_FlushBatch x)
      else
        let x := if a_textured a then set_tpage tpage x else x in
        if negb (Z.land cmd 0x02 =? Z.land (b_cmd_byte b) 0x02) then
          if BATCH_MAX_SUBS <=? zlen (b_subs b) then start_new (upd_prim Prim_FlushBatch x)
          else
            batch_add_tri psx_cmd cmd (upd_batch (fun b =>
              b <| b_subs ::= fun l => l ++ [mkBatchSub (b_vert_count b) (zlen (b_data b)) (GS_PACK_PRIM_FROM_INT (prim_bits 3 a))] |>
                <| b_cmd_byte := cmd |>) x)
        else batch_add_tri psx_cmd cmd x
    else start_new x.

(** ** Lines *)

Definition Emit_Line_Segment_AD (t : TexState) (e : DrawEnv) (x0 y0 color0 x1 y1 color1 : Z) (is_shaded is_semi_trans : bool) (g : Gif) : Gif :=
  let '(x0, y0, color0, x1, y1, color1) :=
    if (y1 <? y0) || ((y0 =? y1) && (x1 <? x0)) then (x1, y1, color1, x0, y0, color0) else (x0, y0, color0, x1, y1, color1) in
  let prim := if is_shaded then Z.lor 1 (Z.shiftl 1 3) else 1 in
  let prim := if is_semi_trans then Z.lor prim (Z.shiftl 1 6) else prim in
  let nregs := if is_semi_trans then 6 else 5 in
  let point vx vy c := [(rgbaq c F32_ONE, GS_REG RGBAQ); (xyz (gs_coord vx (draw_offset_x e)) (gs_coord vy (draw_offset_y e)), GS_REG XYZ2)] in
  push_qwords (opt_regs is_semi_trans [(Get_Alpha_Reg (semi_trans_mode t), GS_REG ALPHA_1)]
    ++ (GS_PACK_PRIM_FROM_INT prim, GS_REG PRIM) :: point x0 y0 color0 ++ point x1 y1 color1)
    (Push_GIF_Tag (GIF_TAG_LO nregs 1 0 0 0 1) GIF_REG_AD g).

(** A line command, the same in the translator and in the fast path. *)
Definition emit_line (psx_cmd : Z -> Z) x : Z * PrimSys :=
  let cmd := cmd_byte psx_cmd in
  let shaded := tst cmd 0x10 in
  let semi := tst cmd 0x02 in
  let color0 := Z.land (psx_cmd 0) 0xFFFFFF in
  let color1 := if shaded then Z.land (psx_cmd 2) 0xFFFFFF else color0 in
  let i1 := if shaded then 3 else 2 in
  let px k := s16 (Z.land (psx_cmd k) 0xFFFF) in
  let py k := s16 (Z.shiftr (psx_cmd k) 16) in
  let t := tex (gp x) in
  let x := upd_gif (Emit_Line_Segment_AD t (env (gp x)) (px 1) (py 1) color0 (px i1) (py i1) color1 shaded semi) x in
  (i1 + 1, if semi then upd_gs (fun s => s <| gs_alpha := Get_Alpha_Reg (semi_trans_mode t) |>) x else x).

(** ** Rectangles *)

Record Rect := mkRect { r_x : Z; r_y : Z; r_uv : Z; r_w : Z; r_h : Z; r_words : Z }.

Definition parse_rect (cmd : Z) (psx_cmd : Z -> Z) : Rect :=
  let textured := tst cmd 0x04 in
  let size_mode := Z.land (Z.shiftr cmd 3) 3 in
  let xy := psx_cmd 1 in
  let idx := if textured then 3 else 2 in
  let '(w, h, idx) :=
    if size_mode =? 0 then (Z.land (psx_cmd idx) 0x3FF, Z.land (Z.shiftr (psx_cmd idx) 16) 0x1FF, idx + 1)
    else if size_mode =? 1 then (1, 1, idx) else if size_mode =? 2 then (8, 8, idx) else (16, 16, idx) in
  mkRect (vert_x xy) (vert_y xy) (if textured then psx_cmd 2 else 0) w h idx.

(** The two corners: top left, bottom right. *)
Definition rect_x0 (r : Rect) (e : DrawEnv) : Z := gs_coord (r_x r) (draw_offset_x e).
Definition rect_y0 (r : Rect) (e : DrawEnv) : Z := gs_coord (r_y r) (draw_offset_y e).
Definition rect_x1 (r : Rect) (e : DrawEnv) : Z := gs_coord (r_x r + r_w r) (draw_offset_x e).
Definition rect_y1 (r : Rect) (e : DrawEnv) : Z := gs_coord (r_y r + r_h r) (draw_offset_y e).

(** The texture coordinates of the corners as unsigned integers: of the
    decoded page, or of the video memory. *)
Record RectUv := mkRectUv { u0_gs : Z; u1_gs : Z; v0_gs : Z; v1_gs : Z }.
Definition rect_uv (u : TexUse) (t : TexState) (r : Rect) : RectUv :=
  let u0_cmd := Z.land (r_uv r) 0xFF in
  let v0_cmd := Z.land (Z.shiftr (r_uv r) 8) 0xFF in
  if u_decoded u then
    mkRectUv (u32 (u_off_u u + u0_cmd)) (u32 (u_off_u u + u0_cmd + r_w r)) (u32 (u_off_v u + v0_cmd)) (u32 (u_off_v u + v0_cmd + r_h r))
  else
    let u0_raw := Apply_Tex_Window_U t u0_cmd in
    let v0_raw := Apply_Tex_Window_V t v0_cmd in
    mkRectUv (u32 (u0_raw + tex_page_x t)) (u32 (u0_raw + r_w r + tex_page_x t)) (u32 (v0_raw + tex_page_y t)) (u32 (v0_raw + r_h r + tex_page_y t)).

(** A textured SPRITE: two vertices. *)
Definition sprite_data (c : RectUv) (r : Rect) (e : DrawEnv) (color : Z) : list Z :=
  [xyz (u32 (Z.shiftl (u0_gs c) 4)) (u32 (Z.shiftl (v0_gs c) 4)); rgbaq color F32_ONE; xyz (rect_x0 r e) (rect_y0 r e);
   xyz (u32 (Z.shiftl (u1_gs c) 4)) (u32 (Z.shiftl (v1_gs c) 4)); rgbaq color F32_ONE; xyz (rect_x1 r e) (rect_y1 r e)].

Definition flat_sprite_data (r : Rect) (e : DrawEnv) (color : Z) : list Z :=
  [rgbaq color F32_ONE; xyz (rect_x0 r e) (rect_y0 r e); rgbaq color F32_ONE; xyz (rect_x1 r e) (rect_y1 r e)].

(** Attributes of a rectangle: never shaded nor dithered. *)
Definition rect_attrs (cmd : Z) : Attrs :=
  mkAttrs false (tst cmd 0x04) (tst cmd 0x02) (tst cmd 0x04 && tst cmd 0x01) false.

(** Textures that go through the page cache. *)
Definition need_perpixel (t : TexState) : bool :=
  negb (tex_win_mask_x t =? 0) || negb (tex_win_mask_y t =? 0) || (tex_page_format t =? 0) || (tex_page_format t =? 1).

(** The area is counted before the path is known to be taken. *)
Definition fast_rect (psx_cmd : Z -> Z) x : Z * PrimSys :=
  let cmd := cmd_byte psx_cmd in
  let a := rect_attrs cmd in
  let t := tex (gp x) in
  if negb (gs_valid (gs (prm x))) then (0, x)
  else if a_textured a && (negb (tex_flip_x t =? 0) || negb (tex_flip_y t =? 0)) then (0, x)
  else
    let r := parse_rect cmd psx_cmd in
    let color := Z.land (psx_cmd 0) 0xFFFFFF in
    let x := add_pixels (u32 (r_w r * r_h r)) x in
    let key := cmd_key a (semi_trans_mode t) in
    if a_textured a then
      if negb (need_perpixel t) then (0, x)
      else
        let '(hit, tc) := prim_tex_cache_lookup (tex_page_format t) (tex_page_x t) (tex_page_y t) (vram_gen_counter (gp x)) (texc (prm x)) in
        let x := upd_texc (fun _ => tc) x in
        let u := texture_of hit (r_uv r) tc in
        let s := gs (prm x) in
        if negb hit || negb (key =? last_cmd_key s) || negb (u_slot u =? last_cache_slot s)
           || (u_csm u && negb (gs_texclut s =? texclut_of u))
        then (0, x)
        else
          let x := upd_gif (push_state 0 [] (prim_bits 6 a)) x in
          (r_words r, upd_gif (push_vertices true 2 (sprite_data (rect_uv u t r) r (env (gp x)) color)) x)
    else if negb (key =? last_cmd_key (gs (prm x))) then (0, x)
    else
      let x := upd_gif (push_state 0 [] (prim_bits 6 a)) x in
      (r_words r, upd_gif (push_vertices false 2 (flat_sprite_data r (env (gp x)) color)) x).

(** *** The general path *)

(** [(float)n / 2^k] as the bits of a single: exact for [|n| < 2^24]. *)
Definition f32_ratio (n k : Z) : Z :=
  if n =? 0 then 0
  else
    let e := Z.log2 (Z.abs n) in
    Z.lor (if n <? 0 then Z.shiftl 1 31 else 0)
      (Z.lor (Z.shiftl (e - k + 127) 23) (Z.shiftl (Z.abs n) (23 - e) - Z.shiftl 1 23)).

(** Flipped textures of the video memory: a strip with normalised coordinates. *)
Definition flip_data (t : TexState) (r : Rect) (e : DrawEnv) (color : Z) : list Z :=
  let u0_raw := Apply_Tex_Window_U t (Z.land (r_uv r) 0xFF) in
  let v0_raw := Apply_Tex_Window_V t (Z.land (Z.shiftr (r_uv r) 8) 0xFF) in
  let u_left := s32 (u0_raw + tex_page_x t) in
  let u_right := if tex_flip_x t =? 0 then s32 (u0_raw + r_w r + tex_page_x t) else s32 (u0_raw - r_w r + tex_page_x t) in
  let v_top := s32 (v0_raw + tex_page_y t) in
  let v_bottom := if tex_flip_y t =? 0 then s32 (v0_raw + r_h r + tex_page_y t) else s32 (v0_raw - r_h r + tex_page_y t) in
  let st u v := GS_SET ST [f32_ratio u 10; f32_ratio v 9] in
  let c := rgbaq color F32_ONE in
  [st u_left v_top; c; xyz (rect_x0 r e) (rect_y0 r e); st u_right v_top; c; xyz (rect_x1 r e) (rect_y0 r e);
   st u_left v_bottom; c; xyz (rect_x0 r e) (rect_y1 r e); st u_right v_bottom; c; xyz (rect_x1 r e) (rect_y1 r e)].

Definition flip_regs : Z := Z.lor (Z.lor GIF_REG_ST (Z.shiftl GIF_REG_RGBAQ 4)) (Z.shiftl GIF_REG_XYZ2 8).

(** TEX0 of the raw video memory, packed by hand. *)
Definition flip_tex0 : Z :=
  Z.lor (Z.lor (Z.lor (Z.lor (Z.lor (Z.shiftl PSX_VRAM_FBW 14) (Z.shiftl GS_PSM_16S 20)) (Z.shiftl 10 26)) (Z.shiftl 9 30))
    (Z.shiftl 1 34)) (Z.shiftl 1 35).

Definition emit_flipped (r : Rect) (a : Attrs) (raw : bool) (color : Z) x : PrimSys :=
  let t := tex (gp x) in
  let s := gs (prm x) in
  let prim := if a_semi a then Z.lor (Z.lor 4 (Z.shiftl 1 4)) (Z.shiftl 1 6) else Z.lor 4 (Z.shiftl 1 4) in
  let need_reset_clamp := negb (gs_valid s) || negb (gs_clamp s =? 0) in
  let n := 3 + b2z (a_semi a) + b2z need_reset_clamp + (if raw then 2 else 0) in
  let test := tex_test (mask_check_bit (env (gp x))) in
  let alpha := Get_Alpha_Reg (semi_trans_mode t) in
  let regs := (GS_SET DTHE [0], GS_REG DTHE) :: opt_regs (a_semi a) [(alpha, GS_REG ALPHA_1)] ++ opt_regs need_reset_clamp [(0, GS_REG CLAMP_1)]
    ++ opt_regs raw [(GS_SET TEX0_SMALL [0; PSX_VRAM_FBW; GS_PSM_16S; 10; 9; 1; 1], GS_REG TEX0); (GS_SET TEXFLUSH [0], GS_REG TEXFLUSH)]
    ++ [(test, GS_REG TEST_1)] in
  let x := upd_gif (push_state (n - 1) regs prim) x in
  let x := upd_gif (fun g => push_qwords (pair_up (flip_data t r (env (gp x)) color)) (Push_GIF_Tag (GIF_TAG_LO 4 1 0 0 1 3) flip_regs g)) x in
  upd_gs (fun s =>
    let s := s <| gs_dthe := 0 |> <| gs_clamp := 0 |> in
    let s := if a_semi a then s <| gs_alpha := alpha |> else if gs_valid s then s else s <| gs_alpha := UINT64_MAX |> in
    let s := s <| gs_test := test |> in
    let s := if raw then s <| gs_tex0 := flip_tex0 |> else if gs_valid s then s else s <| gs_tex0 := UINT64_MAX |> in
    s <| gs_valid := true |> <| last_cmd_key := -1 |>) x.

Definition sprite_wants (a : Attrs) (raw : bool) (u : TexUse) (t : TexState) (check : Z) : Wants :=
  let on := u_decoded u || raw in
  mkWants 0 (if a_semi a then Get_Alpha_Reg (semi_trans_mode t) else 0) (tex_test check)
    (if on then tex0_of (tex_page_format t) raw u else 0) (if on && u_hw u then Compute_TexWin_Clamp t else 0)
    (if on && u_hw u && u_csm u then texclut_of u else 0) (on && negb (u_hit u)).

Definition sprite_track (a : Attrs) (raw : bool) (u : TexUse) (w : Wants) (s : GsState) : GsState :=
  let on := u_decoded u || raw in
  let s := if gs_valid s then s
           else
             let s := if a_semi a then s else s <| gs_alpha := UINT64_MAX |> in
             if on then s else s <| gs_tex0 := UINT64_MAX |> <| gs_clamp := UINT64_MAX |> in
  let s := s <| gs_dthe := w_dthe w |> in
  let s := if a_semi a then s <| gs_alpha := w_alpha w |> else s in
  let s := if on then s <| gs_tex0 := w_tex0 w |> else s in
  let s := if u_hw u then
             let s := s <| gs_clamp := w_clamp w |> in if u_csm u then s <| gs_texclut := w_texclut w |> else s
           else s in
  s <| gs_test := w_test w |> <| gs_valid := true |> <| last_cmd_key := -1 |>.

Definition swap_u (b : bool) (c : RectUv) : RectUv := if b then mkRectUv (u1_gs c) (u0_gs c) (v0_gs c) (v1_gs c) else c.
Definition swap_v (b : bool) (c : RectUv) : RectUv := if b then mkRectUv (u0_gs c) (u1_gs c) (v1_gs c) (v0_gs c) else c.

Definition emit_sprite (r : Rect) (a : Attrs) (raw : bool) (u : TexUse) (color : Z) x : PrimSys :=
  let t := tex (gp x) in
  let s := gs (prm x) in
  let on := u_decoded u || raw in
  let w := sprite_wants a raw u t (mask_check_bit (env (gp x))) in
  let e := lazy_emits s w (a_semi a) on true (u_hw u) (u_hw u && u_csm u) in
  let c := swap_u (negb (tex_flip_x t =? 0) && u_decoded u) (swap_v (negb (tex_flip_y t =? 0)) (rect_uv u t r)) in
  let x := upd_gif (push_state (state_qws e w) (state_regs e w) (prim_bits 6 a)) x in
  let x := upd_gs (sprite_track a raw u w) x in
  upd_gif (push_vertices true 2 (sprite_data c r (env (gp x)) color)) x.

Definition flat_track (semi : bool) (alpha : Z) (s : GsState) : GsState :=
  let v := gs_valid s in
  let s := s <| gs_dthe := 0 |> in
  let s := if semi then s <| gs_alpha := alpha |> else if v then s else s <| gs_alpha := UINT64_MAX |> in
  let s := if v then s else s <| gs_tex0 := UINT64_MAX |> <| gs_test := UINT64_MAX |> <| gs_clamp := UINT64_MAX |> in
  s <| gs_valid := true |> <| last_cmd_key := -1 |>.

Definition emit_flat_sprite (r : Rect) (a : Attrs) (color : Z) x : PrimSys :=
  let s := gs (prm x) in
  let w := mkWants 0 (if a_semi a then Get_Alpha_Reg (semi_trans_mode (tex (gp x))) else 0) 0 0 0 0 false in
  let e := lazy_emits s w (a_semi a) false false false false in
  let x := upd_gif (push_state (b2z (em_dthe e) + b2z (em_alpha e)) (state_regs e w) (prim_bits 6 a)) x in
  let x := upd_gs (flat_track (a_semi a) (w_alpha w)) x in
  upd_gif (push_vertices false 2 (flat_sprite_data r (env (gp x)) color)) x.

Definition translate_rect (psx_cmd : Z -> Z) x : Z * PrimSys :=
  let cmd := cmd_byte psx_cmd in
  let a := rect_attrs cmd in
  let raw := tst cmd 0x01 in
  let r := parse_rect cmd psx_cmd in
  let color := Z.land (psx_cmd 0) 0xFFFFFF in
  let x := add_pixels (u32 (r_w r * r_h r)) x in
  let t := tex (gp x) in
  if a_textured a then
    let '(u, x) := if need_perpixel t then find_texture (tex_page_format t) (tex_page_x t) (tex_page_y t) (r_uv r) x else (no_texture, x) in
    let flip := negb (tex_flip_x t =? 0) || negb (tex_flip_y t =? 0) in
    (r_words r, if flip && negb (u_decoded u) then emit_flipped r a raw color x else emit_sprite r a raw u color x)
  else (r_words r, emit_flat_sprite r a color x).

(** ** Fills *)

(** A 64-bit store: four pixels. *)
Definition store64 (v : gmap Z Z) (i q : Z) : gmap Z Z :=
  fold_left (fun v k => <[i + k := Z.land (Z.shiftr q (16 * k)) 0xFFFF]> v) (zseq 4) v.

Definition fill_row (psx_color fill_w : Z) (v : gmap Z Z) (row_ptr : Z) : gmap Z Z :=
  let fill32 := Z.lor psx_color (Z.shiftl psx_color 16) in
  let fill64 := Z.lor fill32 (Z.shiftl fill32 32) in
  let bulk := Z.land fill_w (Z.lnot 3) in
  let v := fold_left (fun v j => store64 v (row_ptr + 4 * j) fill64) (zseq (Z.to_nat (bulk / 4))) v in
  fold_left (fun v k => <[row_ptr + bulk + k := psx_color]> v) (zseq (Z.to_nat (fill_w - bulk))) v.

Definition psx_color_of (color : Z) : Z :=
  let c s := Z.land (Z.shiftr (Z.land (Z.shiftr color s) 0xFF) 3) 0x1F in
  Z.lor (Z.lor (c 0) (Z.shiftl (c 8) 5)) (Z.shiftl (c 16) 10).

Definition fill_shadow (rx ry w h color : Z) (v : gmap Z Z) : gmap Z Z :=
  let end_y := if ry + h <? 512 then ry + h else 512 in
  let end_x := if rx + w <? 1024 then rx + w else 1024 in
  fold_left (fun v k => fill_row (psx_color_of color) (end_x - rx) v ((ry + k) * 1024 + rx)) (zseq (Z.to_nat (end_y - ry))) v.

Definition fill_packet (rx ry w h color : Z) : list Qword :=
  let corner px py := xyz (Z.shiftl (px + 2048) 4) (Z.shiftl (py + 2048) 4) in
  [(GS_PACK_PRIM_FROM_INT 6, GS_REG PRIM); (rgbaq color F32_ONE, GS_REG RGBAQ);
   (corner rx ry, GS_REG XYZ2); (corner (rx + w) (ry + h), GS_REG XYZ2)].

Definition translate_fill (psx_cmd : Z -> Z) x : Z * PrimSys :=
  let color := Z.land (psx_cmd 0) 0xFFFFFF in
  let rx := Z.land (psx_cmd 1) 0x3F0 in
  let ry := Z.land (Z.shiftr (psx_cmd 1) 16) 0x1FF in
  let w := Z.land (Z.land (psx_cmd 2) 0x3FF + 0xF) (Z.lnot 0xF) in
  let h := Z.land (Z.shiftr (psx_cmd 2) 16) 0x1FF in
  if (w =? 0) || (h =? 0) then (3, x)
  else
    let x := add_pixels (u32 (w * h)) x in
    let e := env (gp x) in
    let clip_ok := (draw_clip_x1 e <=? rx) && (rx + w <=? draw_clip_x2 e) && (draw_clip_y1 e <=? ry) && (ry + h <=? draw_clip_y2 e) in
    let fill := fill_packet rx ry w h color in
    let x :=
      if clip_ok then upd_gif (fun g => push_qwords fill (push_ad_tag 4 g)) x
      else
        upd_gif (fun g =>
          let g := push_qwords ((GS_SET SCISSOR_1 [0; PSX_VRAM_WIDTH - 1; 0; PSX_VRAM_HEIGHT - 1], GS_REG SCISSOR_1) :: fill) (push_ad_tag 5 g) in
          GPU_Backend_SetScissor (draw_clip_x1 e) (draw_clip_y1 e) (draw_clip_x2 e) (draw_clip_y2 e) g) x in
    (3, upd_gpu (fun g => g <| vram ::= fill_shadow rx ry w h color |>) x).

(** ** The entry points *)

Definition Translate (psx_cmd : Z -> Z) x : Z * PrimSys :=
  let cmd := cmd_byte psx_cmd in
  if Z.land cmd 0xE0 =? 0x20 then translate_polygon psx_cmd x
  else if Z.land cmd 0xE0 =? 0x60 then translate_rect psx_cmd x
  else if cmd =? 0x02 then translate_fill psx_cmd x
  else if Z.land cmd 0xE0 =? 0x40 then emit_line psx_cmd x
  else (1, x).

Definition TryFastEmit (psx_cmd : Z -> Z) x : Z * PrimSys :=
  let cmd := cmd_byte psx_cmd in
  if Z.land cmd 0xE0 =? 0x20 then fast_polygon psx_cmd x
  else if Z.land cmd 0xE0 =? 0x60 then fast_rect psx_cmd x
  else if Z.land cmd 0xE0 =? 0x40 then if tst cmd 0x08 then (0, x) else emit_line psx_cmd x
  else (0, x).

(** [GPU_Backend_TryFastPoly]: flat untextured polygons that come one word at
    a time. *)
Definition TryFastPoly (cmd_buffer : Z -> Z) x : Z * PrimSys :=
  let c := Z.shiftr (cmd_buffer 0) 24 in
  let s := gs (prm x) in
  if (negb (c =? 0x20) && negb (c =? 0x28)) || negb (gs_valid s) || negb (gs_dthe s =? 0) then (0, x)
  else
    let is_quad := c =? 0x28 in
    let n := if is_quad then 4 else 3 in
    let flat := rgbaq (Z.land (cmd_buffer 0) 0xFFFFFF) F32_ONE in
    let e := env (gp x) in
    let verts := map (fun k => mkPolyVertex (vert_x (cmd_buffer (k + 1))) (vert_y (cmd_buffer (k + 1))) (Z.land (cmd_buffer 0) 0xFFFFFF) 0) (zseq (Z.to_nat n)) in
    let x := upd_gif (push_state 0 [] n) x in
    let x := upd_gif (fun g => push_qwords (map (fun v => (flat, xyz (gs_coord (v_x v) (draw_offset_x e)) (gs_coord (v_y v) (draw_offset_y e)))) verts)
                       (Push_GIF_Tag (GIF_TAG_LO n 1 0 0 1 2) (vertex_regs false) g)) x in
    (1, add_pixels (poly_area verts is_quad) x).

(** The calls of the command interface. *)
Definition prim_call (t : TexState) (e : DrawEnv) (v : gmap Z Z) (gen : Z) (c : GpuCall) (p : Prim) : Prim :=
  match c with
  | C_Flush => p <| gif ::= Flush_GIF |>
  | C_VRAMWrite word => p <| gif ::= GPU_Backend_VRAMWrite word |>
  | C_VRAMFlush => p <| gif ::= GPU_Backend_VRAMFlush |>
  | C_StartVRAMTransfer x y w h => p <| gif ::= Start_VRAM_Transfer x y w h |>
  | C_UploadShadowVRAM x y w h => p <| gif ::= Upload_Shadow_VRAM_Region v x y w h |>
  | C_UploadRegionFast x y w h words => p <| gif ::= upload_words x y w h words |>
  | C_SetScissor x1 y1 x2 y2 => p <| gif ::= GPU_Backend_SetScissor x1 y1 x2 y2 |>
  | C_SetMaskBit set check => p <| gif ::= GPU_Backend_SetMaskBit set check |>
  | C_ClearVRAM x1 y1 x2 y2 => p <| gif ::= GPU_Backend_ClearVRAM x1 y1 x2 y2 |>
  | C_InvalidateState => p <| gs ::= Prim_InvalidateGSState |>
  | C_InvalidateTexCache => p <| texc ::= Prim_InvalidateTexCache |>
  | C_DirtyRegion x y w h => p <| texc ::= Tex_Cache_DirtyRegion x y w h gen |>
  | C_LineSegment x0 y0 c0 x1 y1 c1 shaded semi => p <| gif ::= Emit_Line_Segment_AD t e x0 y0 c0 x1 y1 c1 shaded semi |>
  | C_FlushBatch => Prim_FlushBatch p
  | C_ResetPixels => p <| estimated_pixels := 0 |>
  | C_SetDisplayFB _ _ | C_SetResolution _ _ | C_UpdateDisplay => p
  end.
End Renderer.

(** What the renderer leaves to the hardware and the rest of the machine. *)
Class GpuHost (R : Type) := {
  host_readback : Z -> Z -> Z -> Z -> R -> option (Z -> Z);
  host_refresh_divider : GpuSys R -> GpuSys R;
  host_sched_tick : Z -> GpuSys R -> GpuSys R
}.

(** The renderer behind the command interface of [Gpu.v]. *)
#[export] Instance prim_backend `{GsSdk} `{GpuHost Prim} : GpuBackend Prim := {
  backend := prim_call;
  Translate_GP0_to_GS := Translate;
  Gpu.GPU_TryFastEmit := TryFastEmit;
  Gpu.GPU_TryBatchAdd := GPU_TryBatchAdd;
  Gpu.GPU_Backend_TryFastPoly := TryFastPoly;
  GS_ReadbackRegion := fun rx ry w h x => host_readback rx ry w h (prm x);
  gpu_estimated_pixels := estimated_pixels;
  Timer0_RefreshDividerCache := host_refresh_divider;
  Sched_Tick_all := host_sched_tick
}.
