(* ===== verification/GpuDma.v ===== *)
(** * Blocks of commands

    The two ways a block of words reaches the command interface: word by word
    through the port, and by the table-driven dispatch of the DMA block; what
    the dispatch needs of a renderer, and that the renderer of [Primitives.v]
    gives it. *)

From S2P Require Import Prelude Scheduler System Memory Gpu GpuVram Gif GifMath Texture Primitives.

(** ** What the command interface needs of the renderer

    Drawing leaves the parser alone and takes at least one word; for
    everything but polygons and rectangles it depends on the command's own
    words, not on the buffer they were collected in, and the fast paths do what
    the general translator does.  The renderer of [Primitives.v] keeps these
    laws ([prim_laws]). *)

Section Laws.
Context {R : Type} `{GpuBackend R}.
Implicit Types x z : GpuSys R.

Definition with_c (c : CmdBuf) x : GpuSys R := upd_cmdb (fun _ => c) x.
Definition cmd_of (p : Z -> Z) : Z := Z.shiftr (p 0) 24.

(** The words of the command that begins with [d]; of a polyline, its first
    segment. *)
Definition need (d : Z) : Z :=
  let c := Z.shiftr d 24 in
  if (c =? 0xA0) || (c =? 0xC0) then 3
  else if Z.land c 0xE0 =? 0x80 then 4
  else if is_polyline c then (if tst c 0x10 then 4 else 3)
  else GPU_GetCommandSize c.

(** The commands the renderer draws. *)
Definition draws (c : Z) : bool := (c =? 0x02) || ((0x20 <=? c) && (c <=? 0x7F)).

(** The parser's state. *)
Definition same_parser (g g' : Gpu) : Prop :=
  tx g' = tx g /\ poly g' = poly g /\ cmdb g' = cmdb g /\
  gpu_pending_vblank_flush g' = gpu_pending_vblank_flush g.
End Laws.

(** Everything but polygons and rectangles: for those the fast paths and the
    general translator differ in the state they leave (a blending mode that
    changed, an area counted twice). *)
Definition steady (c : Z) : bool := negb (Z.land c 0xE0 =? 0x20) && negb (Z.land c 0xE0 =? 0x60).
Definition steady_word (d : Z) : Prop := is_u32 d /\ steady (Z.shiftr d 24) = true.

Class RendererLaws (R : Type) `{GpuBackend R} : Prop := {
  rl_words : forall p q (x : GpuSys R), steady_word (p 0) -> (forall k, 0 <= k < need (p 0) -> p k = q k) ->
    Translate_GP0_to_GS p x = Translate_GP0_to_GS q x;
  rl_buffer : forall p c (x : GpuSys R), steady_word (p 0) ->
    Translate_GP0_to_GS p (with_c c x) = (fst (Translate_GP0_to_GS p x), with_c c (snd (Translate_GP0_to_GS p x)));
  rl_parser : forall p (x : GpuSys R), same_parser (gp x) (gp (snd (Translate_GP0_to_GS p x)));
  rl_answer : forall p (x : GpuSys R), 1 <= fst (Translate_GP0_to_GS p x);
  rl_nop : forall p (x : GpuSys R), 0 <= cmd_of p <= 0x7F -> draws (cmd_of p) = false -> Translate_GP0_to_GS p x = (1, x);
  rl_fast : forall p (x : GpuSys R), steady_word (p 0) -> let '(s, x') := GPU_TryFastEmit p x in
    (s <= 0 /\ x' = x) \/ (s = gpu_cmd_size (cmd_of p) /\ x' = snd (Translate_GP0_to_GS p x));
  rl_fast_parser : forall p (x : GpuSys R), same_parser (gp x) (gp (snd (GPU_TryFastEmit p x)));
  rl_poly : forall p (x : GpuSys R), steady_word (p 0) -> let '(s, x') := GPU_Backend_TryFastPoly p x in
    (s = 0 /\ x' = x) \/ (s <> 0 /\ x' = snd (Translate_GP0_to_GS p x));
  rl_poly_parser : forall p (x : GpuSys R), same_parser (gp x) (gp (snd (GPU_Backend_TryFastPoly p x)));
  rl_batch : forall p (x : GpuSys R), same_parser (gp x) (gp (snd (Gpu.GPU_TryBatchAdd p x)));
  rl_readback : forall rx ry w h c (x : GpuSys R), GS_ReadbackRegion rx ry w h (with_c c x) = GS_ReadbackRegion rx ry w h x
}.

Section Blocks.
Context {R : Type} `{RL : RendererLaws R}.
Implicit Types x z : GpuSys R.

(** ** What does not look at the command buffer *)

Definition blind (f : GpuSys R -> GpuSys R) : Prop := forall c z, f (with_c c z) = with_c c (f z).

Lemma store_pixel_with p g c : store_pixel p (g <| cmdb := c |>) = (store_pixel p g) <| cmdb := c |>.
Proof.
  unfold store_pixel. cbv zeta. destruct g as [g1 g2 g3 g4 g5 g6 g7 g8 g9 g10 g11 g12 g13 g14 g15]. cbn [tx env vram upd setter].
  destruct (_ <? s32 _); [|reflexivity]. destruct (_ && _); [|reflexivity]. destruct (_ || _); reflexivity.
Qed.

Lemma blind_comp f g : blind f -> blind g -> blind (fun z => f (g z)).
Proof. intros Hf Hg c z. rewrite Hg, Hf. reflexivity. Qed.
Lemma blind_id : blind (fun z => z).
Proof. intros c z. reflexivity. Qed.
Lemma call_blind k : blind (call k).
Proof. intros c z. reflexivity. Qed.
Lemma upd_rest_blind f : blind (upd_rest f).
Proof. intros c z. reflexivity. Qed.

Lemma transfer_store_blind d : blind (transfer_store d).
Proof.
  intros c z. unfold transfer_store.
  change (tx (gp (with_c c z))) with (tx (gp z)). change (env (gp (with_c c z))) with (env (gp z)).
  destruct (0 <? _); [|reflexivity]. cbv zeta.
  match goal with |- upd_gpu (fun g => store_pixel ?p1 (store_pixel ?p0 g)) _ = _ =>
    change (upd_gpu _ (with_c c z)) with (store_pixel p1 (store_pixel p0 ((gp z) <| cmdb := c |>)), snd (fst z), snd z) end.
  rewrite !store_pixel_with. reflexivity.
Qed.

Lemma transfer_count_blind d : blind (transfer_count d).
Proof.
  intros c z. unfold transfer_count. cbv zeta.
  set (y := upd_tx _ (call _ z)). change (upd_tx _ (call _ (with_c c z))) with (with_c c y).
  change (tx (gp (with_c c y))) with (tx (gp y)).
  change (tx (gp (call C_Flush (call C_VRAMFlush (with_c c y))))) with (tx (gp y)).
  change (tx (gp (call C_Flush (call C_VRAMFlush y)))) with (tx (gp y)).
  destruct (_ =? 0); [|reflexivity]. destruct (1024 <? _); reflexivity.
Qed.

Lemma transfer_word_blind d : blind (transfer_word d).
Proof. apply (blind_comp (transfer_count d) (transfer_store d)); [apply transfer_count_blind | apply transfer_store_blind]. Qed.

Lemma polyline_word_blind d : blind (polyline_word d).
Proof.
  intros c z. unfold polyline_word. change (poly (gp (with_c c z))) with (poly (gp z)). cbv zeta.
  destruct (_ =? _); [reflexivity|]. destruct (_ && _); reflexivity.
Qed.

Lemma draw_mode_blind d : blind (draw_mode d).
Proof. intros c z. unfold draw_mode. change (pcache (gp (with_c c z))) with (pcache (gp z)). destruct (_ =? _); reflexivity. Qed.
Lemma draw_area_tl_blind d : blind (draw_area_tl d).
Proof.
  intros c z. unfold draw_area_tl. cbv zeta.
  change (pcache (gp (upd_env (fun e => e <| raw_draw_area_tl := Z.land d 0xFFFFF |>) (with_c c z)))) with (pcache (gp z)).
  change (pcache (gp (upd_env (fun e => e <| raw_draw_area_tl := Z.land d 0xFFFFF |>) z))) with (pcache (gp z)).
  destruct (_ =? _); reflexivity.
Qed.
Lemma draw_area_br_blind d : blind (draw_area_br d).
Proof.
  intros c z. unfold draw_area_br. cbv zeta.
  change (pcache (gp (upd_env (fun e => e <| raw_draw_area_br := Z.land d 0xFFFFF |>) (with_c c z)))) with (pcache (gp z)).
  change (pcache (gp (upd_env (fun e => e <| raw_draw_area_br := Z.land d 0xFFFFF |>) z))) with (pcache (gp z)).
  destruct (_ =? _); reflexivity.
Qed.
Lemma draw_offset_blind d : blind (draw_offset d).
Proof.
  intros c z. unfold draw_offset. cbv zeta.
  change (pcache (gp (upd_env (fun e => e <| raw_draw_offset := Z.land d 0x3FFFFF |>) (with_c c z)))) with (pcache (gp z)).
  change (pcache (gp (upd_env (fun e => e <| raw_draw_offset := Z.land d 0x3FFFFF |>) z))) with (pcache (gp z)).
  destruct (_ =? _); reflexivity.
Qed.
Lemma texture_window_blind d : blind (texture_window d).
Proof. intros c z. reflexivity. Qed.
Lemma mask_setting_blind d : blind (mask_setting d).
Proof. intros c z. reflexivity. Qed.
Lemma irq_request_blind : blind irq_request.
Proof. intros c z. unfold irq_request. change (gpu_stat (gp (with_c c z))) with (gpu_stat (gp z)). destruct (tst _ _); reflexivity. Qed.
Lemma start_load_image_blind xy wh : blind (start_load_image xy wh).
Proof. intros c z. reflexivity. Qed.
Lemma copy_image_blind a b w : blind (copy_image a b w).
Proof. intros c z. reflexivity. Qed.
Lemma start_store_image_blind xy wh : blind (start_store_image xy wh).
Proof.
  intros c z. unfold start_store_image. cbv zeta. set (y := set_stat _ (upd_rdx _ z)).
  change (set_stat _ (upd_rdx _ (with_c c z))) with (with_c c y). unfold GPU_Backend_VRAMReadback.
  destruct (_ || _); [reflexivity|]. cbv zeta. change (call C_Flush (with_c c y)) with (with_c c (call C_Flush y)). rewrite rl_readback.
  destruct (GS_ReadbackRegion _ _ _ _ (call C_Flush y)); reflexivity.
Qed.
Lemma translate_blind p : steady_word (p 0) -> blind (fun z => snd (Translate_GP0_to_GS p z)).
Proof. intros Hs c z. cbn beta. rewrite rl_buffer by exact Hs. reflexivity. Qed.
Lemma clear_flush_blind : blind (fun z => if gpu_pending_vblank_flush (gp z) then upd_gpu (fun g => g <| gpu_pending_vblank_flush := false |>) z else z).
Proof. intros c z. change (gpu_pending_vblank_flush (gp (with_c c z))) with (gpu_pending_vblank_flush (gp z)). cbn beta. destruct (gpu_pending_vblank_flush _); reflexivity. Qed.

(** ** States that differ in stale words of the command buffer

    The buffer keeps the words of earlier commands; the fast paths do not
    write it.  Two states are related when they are equal but for buffer words
    that no command in progress will read. *)

Record crel (a b : CmdBuf) : Prop := {
  cr_len1 : zlen (gpu_cmd_buffer a) = 16;
  cr_len2 : zlen (gpu_cmd_buffer b) = 16;
  cr_rem : Z.max 0 (gpu_cmd_remaining a) = Z.max 0 (gpu_cmd_remaining b);
  cr_busy : 0 < gpu_cmd_remaining a ->
    gpu_cmd_ptr a = gpu_cmd_ptr b /\ 1 <= gpu_cmd_ptr a /\
    gpu_cmd_ptr a + gpu_cmd_remaining a = need (aget (gpu_cmd_buffer a) 0) /\ steady_word (aget (gpu_cmd_buffer a) 0) /\
    forall k, 0 <= k < gpu_cmd_ptr a -> aget (gpu_cmd_buffer a) k = aget (gpu_cmd_buffer b) k
}.

Definition rel x x' : Prop := exists c, x' = with_c c x /\ crel (cmdb (gp x)) c.

Lemma with_c_eta x : with_c (cmdb (gp x)) x = x.
Proof. destruct x as [ [g r] y]. destruct g. reflexivity. Qed.

Lemma blind_keeps f x : blind f -> cmdb (gp (f x)) = cmdb (gp x).
Proof. intros Hf. rewrite <- (with_c_eta x) at 1. rewrite Hf. reflexivity. Qed.

Lemma rel_blind f x x' : blind f -> rel x x' -> rel (f x) (f x').
Proof.
  intros Hf (c & -> & Hc). exists c. split; [apply Hf|]. rewrite blind_keeps by exact Hf. exact Hc.
Qed.

Lemma crel_idle a b : zlen (gpu_cmd_buffer a) = 16 -> zlen (gpu_cmd_buffer b) = 16 ->
  gpu_cmd_remaining a <= 0 -> gpu_cmd_remaining b <= 0 -> crel a b.
Proof. intros H1 H2 H3 H4. split; try assumption; lia. Qed.

(** Drawing through the fast polygon path is drawing. *)
Lemma fast_poly_draws p x : steady_word (p 0) ->
  (let '(fast, x1) := GPU_Backend_TryFastPoly p x in if fast =? 0 then snd (Translate_GP0_to_GS p x1) else x1)
  = snd (Translate_GP0_to_GS p x).
Proof.
  intros Hs0. pose proof (rl_poly p x Hs0) as Hp. destruct (GPU_Backend_TryFastPoly p x) as [s x1].
  destruct Hp as [ [-> ->] | [Hs ->] ]; [reflexivity|]. rewrite (proj2 (Z.eqb_neq s 0)) by exact Hs. reflexivity.
Qed.

(** [run_command] as a function of the collected words. *)
Definition run_words (b : Z -> Z) x : GpuSys R :=
  let c := Z.shiftr (b 0) 24 in
  if c =? 0xA0 then start_load_image (b 1) (b 2) x
  else if c =? 0xC0 then start_store_image (b 1) (b 2) x
  else if Z.land c 0xE0 =? 0x80 then copy_image (b 1) (b 2) (b 3) x
  else
    let x := snd (Translate_GP0_to_GS b x) in
    if is_polyline c then
      upd_poly (fun p => mkPolyline true (tst c 0x10) (tst c 0x02)
        (Z.land (b (if tst c 0x10 then 2 else 0)) 0xFFFFFF) (polyline_next_color p)
        (s16 (Z.land (b (if tst c 0x10 then 3 else 2)) 0xFFFF)) (s16 (Z.shiftr (b (if tst c 0x10 then 3 else 2)) 16)) (tst c 0x10)) x
    else x.

Lemma run_command_words x : steady_word (aget (gpu_cmd_buffer (cmdb (gp x))) 0) ->
  run_command x = run_words (aget (gpu_cmd_buffer (cmdb (gp x)))) x.
Proof.
  intros Hs0. unfold run_command, run_words. cbv zeta. destruct (_ =? 0xA0); [reflexivity|]. destruct (_ =? 0xC0); [reflexivity|].
  destruct (_ =? 0x80); [reflexivity|].
  pose proof (fast_poly_draws (aget (gpu_cmd_buffer (cmdb (gp x)))) x Hs0) as Hd.
  destruct (GPU_Backend_TryFastPoly _ x) as [fast x1]. rewrite Hd.
  destruct (is_polyline _); [|reflexivity]. unfold start_polyline.
  destruct (rl_parser (aget (gpu_cmd_buffer (cmdb (gp x)))) x) as (_ & _ & -> & _). reflexivity.
Qed.

Lemma run_words_blind b : steady_word (b 0) -> blind (run_words b).
Proof.
  intros Hs0 c z. unfold run_words. cbv zeta. destruct (_ =? 0xA0); [reflexivity|].
  destruct (_ =? 0xC0); [apply start_store_image_blind|]. destruct (_ =? 0x80); [reflexivity|].
  rewrite rl_buffer by exact Hs0. destruct (is_polyline _); reflexivity.
Qed.

(** *** Facts about the 256 command bytes *)

Lemma byte_forall (P : Z -> bool) : forallb P (zseq 256) = true -> forall c, 0 <= c < 256 -> P c = true.
Proof. rewrite forallb_forall. intros Hall c Hc. apply Hall, in_zseq. exact Hc. Qed.

Lemma size_not_polyline c : 0 <= c < 256 -> 1 < GPU_GetCommandSize c -> is_polyline c = false.
Proof.
  intros Hc Hs. pose proof (byte_forall (fun c => (GPU_GetCommandSize c <=? 1) || negb (is_polyline c)) eq_refl c Hc) as Hb.
  cbn beta in Hb. rewrite (proj2 (Z.leb_gt _ _) Hs) in Hb. apply negb_true_iff, Hb.
Qed.

Definition need_byte (c : Z) : Z := need (Z.shiftl c 24).

Lemma need_of_byte d : need d = need_byte (Z.shiftr d 24).
Proof. unfold need_byte, need. rewrite Z.shiftr_shiftl_l by lia. change (24 - 24) with 0. rewrite Z.shiftl_0_r. reflexivity. Qed.

Lemma byte_range d : is_u32 d -> 0 <= Z.shiftr d 24 < 256.
Proof.
  unfold is_u32. intros Hd. rewrite Z.shiftr_div_pow2 by lia. change (2 ^ 24) with 16777216.
  split; [apply Z.div_pos; lia | apply Z.div_lt_upper_bound; lia].
Qed.

Lemma need_range d : is_u32 d -> 1 <= need d <= 12.
Proof.
  intros Hd. rewrite need_of_byte.
  pose proof (byte_forall (fun c => (1 <=? need_byte c) && (need_byte c <=? 12)) eq_refl _ (byte_range d Hd)) as Hb.
  apply andb_true_iff in Hb as [H1 H2]. apply Z.leb_le in H1, H2. lia.
Qed.

Lemma need_polyline d : is_polyline (Z.shiftr d 24) = true -> need d = if tst (Z.shiftr d 24) 0x10 then 4 else 3.
Proof.
  intros Hp. unfold need. cbv zeta. rewrite Hp. set (c := Z.shiftr d 24) in *. unfold is_polyline in Hp.
  apply andb_true_iff in Hp as [Hp _]. apply Z.eqb_eq in Hp.
  rewrite (proj2 (Z.eqb_neq c 0xA0)) by (intros ->; discriminate). rewrite (proj2 (Z.eqb_neq c 0xC0)) by (intros ->; discriminate).
  rewrite Hp. reflexivity.
Qed.

Lemma run_words_ext b b' x : steady_word (b 0) -> (forall k, 0 <= k < need (b 0) -> b k = b' k) -> run_words b x = run_words b' x.
Proof.
  intros Hs0 Hb. pose proof (need_range (b 0) (proj1 Hs0)) as H1. assert (E0 : b 0 = b' 0) by (apply Hb; lia). unfold run_words. rewrite <- E0. cbv zeta.
  destruct (Z.eqb_spec (Z.shiftr (b 0) 24) 0xA0) as [Ea|Ea].
  { assert (Hn : need (b 0) = 3) by (unfold need; cbv zeta; rewrite Ea; reflexivity). rewrite !Hb by lia. reflexivity. }
  destruct (Z.eqb_spec (Z.shiftr (b 0) 24) 0xC0) as [Ec|Ec].
  { assert (Hn : need (b 0) = 3) by (unfold need; cbv zeta; rewrite Ec; reflexivity). rewrite !Hb by lia. reflexivity. }
  destruct (Z.eqb_spec (Z.land (Z.shiftr (b 0) 24) 0xE0) 0x80) as [E8|E8].
  { assert (Hn : need (b 0) = 4).
    { unfold need. cbv zeta. rewrite (proj2 (Z.eqb_neq _ 0xA0) Ea), (proj2 (Z.eqb_neq _ 0xC0) Ec), E8. reflexivity. }
    rewrite !Hb by lia. reflexivity. }
  rewrite (rl_words b b' x Hs0 Hb). destruct (is_polyline _) eqn:Ep; [|reflexivity].
  pose proof (need_polyline (b 0) Ep) as Hn. destruct (tst _ 0x10); rewrite !Hb by lia; reflexivity.
Qed.

(** *** Every word respects the relation *)

Lemma begin_rel d x x' : rel x x' -> steady_word d -> rel (begin_command d (need d - 1) x) (begin_command d (need d - 1) x').
Proof.
  intros (c & -> & [H1 H2 _ _]) Hs0. exists (mkCmdBuf (need d - 1) (aset (gpu_cmd_buffer c) 0 d) 1). split; [reflexivity|].
  change (cmdb (gp (begin_command d (need d - 1) x))) with (mkCmdBuf (need d - 1) (aset (gpu_cmd_buffer (cmdb (gp x))) 0 d) 1).
  split; cbn [gpu_cmd_buffer gpu_cmd_remaining gpu_cmd_ptr]; rewrite ?zlen_aset; try assumption; [reflexivity|].
  intros _. rewrite !aget_aset_eq by lia. split; [reflexivity|]. split; [lia|]. split; [lia|]. split; [exact Hs0|].
  intros k Hk. assert (k = 0) as -> by lia. rewrite !aget_aset_eq by lia. reflexivity.
Qed.

Lemma other_command_rel d x x' : steady_word d -> rel x x' ->
  ((Z.shiftr d 24 =? 0xA0) || (Z.shiftr d 24 =? 0xC0) || (Z.land (Z.shiftr d 24) 0xE0 =? 0x80)) = false ->
  rel (other_command d (Z.shiftr d 24) x) (other_command d (Z.shiftr d 24) x').
Proof.
  intros Hs0 Hr Hno. pose proof (byte_range d (proj1 Hs0)) as Hc.
  apply orb_false_iff in Hno as [Hno H8]. unfold other_command. cbv zeta.
  destruct (Z.ltb_spec 1 (GPU_GetCommandSize (Z.shiftr d 24))) as [Hs|Hs].
  - assert (E : GPU_GetCommandSize (Z.shiftr d 24) = need d).
    { unfold need. cbv zeta. rewrite Hno, H8. rewrite (size_not_polyline _ Hc Hs). reflexivity. }
    rewrite E. apply begin_rel; assumption.
  - destruct (_ && _); [apply (rel_blind (fun z => snd (Translate_GP0_to_GS _ z))); [apply translate_blind, Hs0 | exact Hr]|].
    destruct (is_polyline _) eqn:Ep; [|exact Hr].
    replace ((if tst (Z.shiftr d 24) 0x10 then 4 else 3) - 1) with (need d - 1) by (rewrite need_polyline by exact Ep; reflexivity).
    apply begin_rel; assumption.
Qed.

Lemma first_word_rel d x x' : steady_word d -> rel x x' -> rel (first_word d x) (first_word d x').
Proof.
  intros Hs0 Hr. unfold first_word. rewrite cmd_byte_small by exact (proj1 Hs0).
  destruct ((Z.shiftr d 24 =? 0xA0) || (Z.shiftr d 24 =? 0xC0) || (Z.land (Z.shiftr d 24) 0xE0 =? 0x80)) eqn:E.
  - replace (if Z.shiftr d 24 =? 0xA0 then 2 else if Z.shiftr d 24 =? 0xC0 then 2 else 3) with (need d - 1).
    + apply begin_rel; assumption.
    + unfold need. cbv zeta. destruct (_ =? 0xA0); [reflexivity|]. destruct (_ =? 0xC0); [reflexivity|].
      cbn [orb] in E |- *. rewrite E. reflexivity.
  - destruct (_ =? 0xE1); [apply rel_blind; [apply draw_mode_blind | exact Hr]|].
    destruct (_ =? 0xE3); [apply rel_blind; [apply draw_area_tl_blind | exact Hr]|].
    destruct (_ =? 0xE4); [apply rel_blind; [apply draw_area_br_blind | exact Hr]|].
    destruct (_ =? 0xE5); [apply rel_blind; [apply draw_offset_blind | exact Hr]|].
    destruct (_ =? 0xE2); [apply rel_blind; [apply texture_window_blind | exact Hr]|].
    destruct (_ =? 0xE6); [apply rel_blind; [apply mask_setting_blind | exact Hr]|].
    destruct (_ =? 0x1F); [apply rel_blind; [apply irq_request_blind | exact Hr]|].
    destruct ((Z.shiftr d 24 =? 0) || (Z.shiftr d 24 =? 1)); [exact Hr|]. apply other_command_rel; assumption.
Qed.

Lemma store_cmd_rel d x x' : rel x x' -> 0 < gpu_cmd_remaining (cmdb (gp x)) ->
  let s := upd_cmdb (store_cmd d) x in let s' := upd_cmdb (store_cmd d) x' in
  (exists c, s' = with_c c s /\ zlen (gpu_cmd_buffer (cmdb (gp s))) = 16 /\ zlen (gpu_cmd_buffer c) = 16 /\
   gpu_cmd_remaining c = gpu_cmd_remaining (cmdb (gp s)) /\ gpu_cmd_ptr c = gpu_cmd_ptr (cmdb (gp s)) /\
   1 <= gpu_cmd_ptr (cmdb (gp s)) /\
   gpu_cmd_ptr (cmdb (gp s)) + gpu_cmd_remaining (cmdb (gp s)) = need (aget (gpu_cmd_buffer (cmdb (gp s))) 0) /\
   steady_word (aget (gpu_cmd_buffer (cmdb (gp s))) 0) /\
   forall k, 0 <= k < gpu_cmd_ptr (cmdb (gp s)) -> aget (gpu_cmd_buffer (cmdb (gp s))) k = aget (gpu_cmd_buffer c) k).
Proof.
  intros (c & -> & [H1 H2 H3 H4]) Hrem. cbv zeta. destruct (H4 Hrem) as (P1 & P2 & P3 & P4 & P5).
  pose proof (need_range _ (proj1 P4)) as P6.
  exists (store_cmd d c). split; [reflexivity|].
  change (cmdb (gp (upd_cmdb (store_cmd d) x))) with (store_cmd d (cmdb (gp x))).
  set (a := cmdb (gp x)) in *. unfold store_cmd. cbn [gpu_cmd_buffer gpu_cmd_remaining gpu_cmd_ptr].
  rewrite !zlen_aset. split; [exact H1|]. split; [exact H2|]. split; [lia|]. split; [lia|]. split; [lia|].
  rewrite aget_aset_ne by lia. split; [lia|]. split; [exact P4|]. intros k Hk.
  destruct (Z.eq_dec k (gpu_cmd_ptr a)) as [-> | Hne].
  - rewrite aget_aset_eq by lia. rewrite P1. rewrite aget_aset_eq by lia. reflexivity.
  - rewrite !aget_aset_ne by lia. apply P5. lia.
Qed.

Lemma parameter_word_rel d x x' : rel x x' -> 0 < gpu_cmd_remaining (cmdb (gp x)) ->
  rel (parameter_word d x) (parameter_word d x').
Proof.
  intros Hr Hrem. rewrite !parameter_word_eq. cbv zeta.
  destruct (store_cmd_rel d x x' Hr Hrem) as (c & E & L1 & L2 & E1 & E2 & P1 & P2 & P3 & P4).
  set (s := upd_cmdb (store_cmd d) x) in *. rewrite E. clearbody s. clear E.
  change (cmdb (gp (with_c c s))) with c. rewrite E1.
  destruct (Z.eqb_spec (gpu_cmd_remaining (cmdb (gp s))) 0) as [Hz|Hz].
  - assert (E0 : aget (gpu_cmd_buffer c) 0 = aget (gpu_cmd_buffer (cmdb (gp s))) 0) by (symmetry; apply P4; lia).
    rewrite (run_command_words s P3), (run_command_words (with_c c s)) by (change (cmdb (gp (with_c c s))) with c; rewrite E0; exact P3).
    change (cmdb (gp (with_c c s))) with c.
    rewrite <- (run_words_ext (aget (gpu_cmd_buffer (cmdb (gp s)))) (aget (gpu_cmd_buffer c))) by (exact P3 || (intros k Hk; apply P4; lia)).
    exists c. split; [apply (run_words_blind _ P3)|]. rewrite (blind_keeps _ _ (run_words_blind _ P3)).
    apply crel_idle; (assumption || lia).
  - exists c. split; [reflexivity|]. split; try assumption; [lia|]. intros _.
    split; [lia|]. split; [exact P1|]. split; [exact P2|]. split; [exact P3|]. exact P4.
Qed.

Lemma rel_fields x x' : rel x x' -> tx (gp x') = tx (gp x) /\ poly (gp x') = poly (gp x) /\
  (0 <? gpu_cmd_remaining (cmdb (gp x'))) = (0 <? gpu_cmd_remaining (cmdb (gp x))) /\
  gpu_pending_vblank_flush (gp x') = gpu_pending_vblank_flush (gp x).
Proof. intros (c & -> & Hc). split; [reflexivity|]. split; [reflexivity|]. split; [|reflexivity].
  pose proof (cr_rem _ _ Hc) as Hm. change (cmdb (gp (with_c c x))) with c. destruct (Z.ltb_spec 0 (gpu_cmd_remaining c)), (Z.ltb_spec 0 (gpu_cmd_remaining (cmdb (gp x)))); (reflexivity || lia). Qed.

Lemma GPU_WriteGP0_rel d x x' : steady_word d -> rel x x' -> rel (GPU_WriteGP0 d x) (GPU_WriteGP0 d x').
Proof.
  intros Hd Hr. unfold GPU_WriteGP0.
  pose proof (rel_blind _ x x' clear_flush_blind Hr) as Hr1. cbn beta in Hr1. cbv zeta.
  set (y := if gpu_pending_vblank_flush (gp x) then _ else x) in *.
  set (y' := if gpu_pending_vblank_flush (gp x') then _ else x') in *. clearbody y y'.
  destruct (rel_fields y y' Hr1) as (-> & -> & -> & _).
  destruct (0 <? gpu_transfer_words _); [apply rel_blind; [apply transfer_word_blind | exact Hr1]|].
  destruct (polyline_active _); [apply rel_blind; [apply polyline_word_blind | exact Hr1]|].
  destruct (Z.ltb_spec 0 (gpu_cmd_remaining (cmdb (gp y)))) as [Hrem|Hrem].
  - apply parameter_word_rel; assumption.
  - apply first_word_rel; assumption.
Qed.

Lemma rel_refl x : crel (cmdb (gp x)) (cmdb (gp x)) -> rel x x.
Proof. intros Hc. exists (cmdb (gp x)). split; [symmetry; apply with_c_eta | exact Hc]. Qed.

Lemma write_words_rel data i n x x' : (forall k, i <= k < i + n -> steady_word (data k)) -> rel x x' ->
  rel (write_words data i n x) (write_words data i n x').
Proof.
  intros Hu Hr. destruct (Z.le_gt_cases 0 n) as [Hn|Hn].
  2: { unfold write_words. replace (Z.to_nat n) with 0%nat by lia. exact Hr. }
  assert (En : n = Z.of_nat (Z.to_nat n)) by lia. revert Hu. rewrite En. clear En Hn. generalize (Z.to_nat n). intros m.
  induction m as [|m IH]; intros Hu; [exact Hr|].
  rewrite Nat2Z.inj_succ, <- Z.add_1_r, !write_words_S by lia.
  apply GPU_WriteGP0_rel; [apply Hu; lia | apply IH; intros k Hk; apply Hu; lia].
Qed.

(** ** What keeps the interface idle *)

Definition keeps_flush (f : GpuSys R -> GpuSys R) : Prop :=
  forall x, gpu_pending_vblank_flush (gp (f x)) = gpu_pending_vblank_flush (gp x).
Definition quiet (f : GpuSys R -> GpuSys R) : Prop :=
  blind f /\ forall x, tx (gp (f x)) = tx (gp x) /\ poly (gp (f x)) = poly (gp x) /\
    gpu_pending_vblank_flush (gp (f x)) = gpu_pending_vblank_flush (gp x).

Lemma quiet_idle f x : quiet f -> idle (gp x) -> idle (gp (f x)).
Proof.
  intros [Hb Hq] [Hf Ht Hp Hc Hl]. destruct (Hq x) as (Q1 & Q2 & Q3). pose proof (blind_keeps f x Hb) as Q4.
  split; rewrite ?Q1, ?Q2, ?Q3, ?Q4; assumption.
Qed.

Lemma draw_mode_quiet d : quiet (draw_mode d).
Proof. split; [apply draw_mode_blind|]. intros x. unfold draw_mode. destruct (_ =? _); auto. Qed.
Lemma draw_area_tl_quiet d : quiet (draw_area_tl d).
Proof. split; [apply draw_area_tl_blind|]. intros x. unfold draw_area_tl. cbv zeta. destruct (_ =? _); auto. Qed.
Lemma draw_area_br_quiet d : quiet (draw_area_br d).
Proof. split; [apply draw_area_br_blind|]. intros x. unfold draw_area_br. cbv zeta. destruct (_ =? _); auto. Qed.
Lemma draw_offset_quiet d : quiet (draw_offset d).
Proof. split; [apply draw_offset_blind|]. intros x. unfold draw_offset. cbv zeta. destruct (_ =? _); auto. Qed.
Lemma texture_window_quiet d : quiet (texture_window d).
Proof. split; [apply texture_window_blind | auto]. Qed.
Lemma mask_setting_quiet d : quiet (mask_setting d).
Proof. split; [apply mask_setting_blind | auto]. Qed.
Lemma irq_request_quiet : quiet irq_request.
Proof. split; [apply irq_request_blind|]. intros x. unfold irq_request. destruct (tst _ _); auto. Qed.
Lemma copy_image_quiet a b w : quiet (copy_image a b w).
Proof. split; [apply copy_image_blind | auto]. Qed.
Lemma start_store_image_quiet xy wh : quiet (start_store_image xy wh).
Proof.
  split; [apply start_store_image_blind|]. intros x. unfold start_store_image. cbv zeta.
  unfold GPU_Backend_VRAMReadback. destruct (_ || _); [auto|]. cbv zeta. destruct (GS_ReadbackRegion _ _ _ _ _); auto.
Qed.
Lemma translate_flush p : keeps_flush (fun z => snd (Translate_GP0_to_GS p z)).
Proof. intros x. apply (rl_parser p x). Qed.
Lemma translate_quiet p : steady_word (p 0) -> quiet (fun z => snd (Translate_GP0_to_GS p z)).
Proof.
  intros Hs0. split; [apply translate_blind, Hs0|]. intros x. destruct (rl_parser p x) as (H1 & H2 & _ & H3). auto.
Qed.

Lemma transfer_word_flush d : keeps_flush (transfer_word d).
Proof.
  intros x. unfold transfer_word.
  assert (Hc : forall y, gpu_pending_vblank_flush (gp (transfer_count d y)) = gpu_pending_vblank_flush (gp y)).
  { intros y. unfold transfer_count. cbv zeta. destruct (_ =? 0); [|reflexivity]. destruct (1024 <? _); reflexivity. }
  rewrite Hc. unfold transfer_store. destruct (0 <? _); [|reflexivity]. cbv zeta.
  assert (Hs : forall p g, gpu_pending_vblank_flush (store_pixel p g) = gpu_pending_vblank_flush g).
  { intros p g. unfold store_pixel. cbv zeta. destruct (_ <? s32 _); [|reflexivity]. destruct (_ && _); [|reflexivity]. destruct (_ || _); reflexivity. }
  match goal with |- context [upd_gpu (fun g => store_pixel ?a (store_pixel ?b g)) x] =>
    change (gp (upd_gpu _ x)) with (store_pixel a (store_pixel b (gp x))) end.
  rewrite !Hs. reflexivity.
Qed.

Lemma polyline_word_flush d : keeps_flush (polyline_word d).
Proof. intros x. unfold polyline_word. cbv zeta. destruct (_ =? _); [reflexivity|]. destruct (_ && _); reflexivity. Qed.

Lemma run_command_flush : keeps_flush run_command.
Proof.
  intros x. unfold run_command. cbv zeta. destruct (_ =? 0xA0); [reflexivity|].
  destruct (_ =? 0xC0); [apply (proj2 (start_store_image_quiet _ _) x)|]. destruct (_ =? 0x80); [reflexivity|].
  set (b := aget (gpu_cmd_buffer (cmdb (gp x)))). destruct (rl_poly_parser b x) as (_ & _ & _ & Hf).
  destruct (GPU_Backend_TryFastPoly b x) as [fast x1]. cbn [snd] in Hf. rewrite <- Hf.
  destruct (fast =? 0), (is_polyline _); try reflexivity; apply (translate_flush b x1).
Qed.

Lemma parameter_word_flush d : keeps_flush (parameter_word d).
Proof.
  intros x. rewrite parameter_word_eq. cbv zeta. destruct (_ =? 0); [|reflexivity].
  etransitivity; [apply run_command_flush | reflexivity].
Qed.

Lemma other_command_flush d c : keeps_flush (other_command d c).
Proof.
  intros x. unfold other_command. cbv zeta. destruct (1 <? _); [reflexivity|].
  destruct (_ && _); [apply (translate_flush _ x)|]. destruct (is_polyline c); reflexivity.
Qed.

Lemma first_word_flush d : keeps_flush (first_word d).
Proof.
  intros x. unfold first_word. cbv zeta. destruct (_ || _); [reflexivity|].
  destruct (_ =? 0xE1); [apply draw_mode_quiet|]. destruct (_ =? 0xE3); [apply draw_area_tl_quiet|].
  destruct (_ =? 0xE4); [apply draw_area_br_quiet|]. destruct (_ =? 0xE5); [apply draw_offset_quiet|].
  destruct (_ =? 0xE2); [reflexivity|]. destruct (_ =? 0xE6); [reflexivity|].
  destruct (_ =? 0x1F); [apply irq_request_quiet|]. destruct (_ || _); [reflexivity | apply other_command_flush].
Qed.

Lemma GPU_WriteGP0_flush d x : gpu_pending_vblank_flush (gp (GPU_WriteGP0 d x)) = false.
Proof.
  unfold GPU_WriteGP0. cbv zeta. set (y := if gpu_pending_vblank_flush (gp x) then _ else x).
  assert (Hy : gpu_pending_vblank_flush (gp y) = false) by (subst y; destruct (gpu_pending_vblank_flush (gp x)) eqn:E; [reflexivity | exact E]).
  clearbody y. rewrite <- Hy. destruct (0 <? gpu_transfer_words _); [apply transfer_word_flush|].
  destruct (polyline_active _); [apply polyline_word_flush|].
  destruct (0 <? gpu_cmd_remaining _); [apply parameter_word_flush | apply first_word_flush].
Qed.

Lemma write_words_flush data i n x : gpu_pending_vblank_flush (gp x) = false ->
  gpu_pending_vblank_flush (gp (write_words data i n x)) = false.
Proof.
  unfold write_words. generalize (zseq (Z.to_nat n)). intros l. revert x. induction l as [|k l IH]; intros x Hx; [exact Hx|].
  cbn [fold_left]. apply IH, GPU_WriteGP0_flush.
Qed.

Lemma rel_idle x x' : rel x x' -> idle (gp x) -> idle (gp x').
Proof.
  intros Hr [Hf Ht Hp Hc Hl]. destruct (rel_fields x x' Hr) as (E1 & E2 & E3 & E4).
  destruct Hr as (c & -> & Hcr). split; rewrite ?E1, ?E2, ?E4; try assumption; [|apply (cr_len2 _ _ Hcr)].
  apply Z.ltb_ge. rewrite E3. apply Z.ltb_ge, Hc.
Qed.

Lemma not_busy_idle x : busy_parsing x = false -> gpu_pending_vblank_flush (gp x) = false ->
  zlen (gpu_cmd_buffer (cmdb (gp x))) = 16 -> idle (gp x).
Proof.
  unfold busy_parsing. intros Hb Hf Hl. apply orb_false_iff in Hb as [Hb Hp]. apply orb_false_iff in Hb as [Ht Hc].
  apply Z.ltb_ge in Ht, Hc. split; assumption.
Qed.

(** ** Collecting a whole command *)

Lemma collect_prefix data i m y : idle (gp y) -> let n := need (data i) in n <= 12 ->
  first_word (data i) y = begin_command (data i) (n - 1) y -> 1 <= m < n ->
  exists b, zlen b = 16 /\ (forall k, 0 <= k < m -> aget b k = data (i + k)) /\
    write_words data i m y = with_c (mkCmdBuf (n - m) b m) y.
Proof.
  intros Hid n Hn12 Hfirst Hm. replace m with (1 + Z.of_nat (Z.to_nat (m - 1))) by lia.
  assert (Hle : 1 + Z.of_nat (Z.to_nat (m - 1)) < n) by lia. clear Hm.
  induction (Z.to_nat (m - 1)) as [|j IH].
  - change (1 + Z.of_nat 0) with 1. exists (aset (gpu_cmd_buffer (cmdb (gp y))) 0 (data i)).
    split; [rewrite zlen_aset; apply (id_len _ Hid)|]. split.
    + intros k Hk. assert (k = 0) as -> by lia. rewrite aget_aset_eq by (rewrite (id_len _ Hid); lia). rewrite Z.add_0_r. reflexivity.
    + change 1 with (0 + 1) at 1. rewrite write_words_S by lia. change (write_words data i 0 y) with y.
      rewrite Z.add_0_r, idle_first by exact Hid. rewrite Hfirst. reflexivity.
  - destruct IH as (b & Hl & Hb & E); [lia|]. set (m' := 1 + Z.of_nat j) in *.
    replace (1 + Z.of_nat (S j)) with (m' + 1) by lia. rewrite write_words_S, E by lia.
    assert (Hco : collecting (n - m') m' (gp (with_c (mkCmdBuf (n - m') b m') y))).
    { destruct Hid as [Hf Ht Hp Hc Hlen]. split; try assumption; reflexivity. }
    destruct (parameter_collect (n - m') m' (data (i + m')) _ Hco ltac:(lia)) as [-> _].
    exists (aset b m' (data (i + m'))). split; [rewrite zlen_aset; exact Hl|]. split.
    + intros k Hk. destruct (Z.eq_dec k m') as [-> | Hne]; [apply aget_aset_eq; lia|].
      rewrite aget_aset_ne by lia. apply Hb. lia.
    + change (upd_cmdb (store_cmd (data (i + m'))) (with_c (mkCmdBuf (n - m') b m') y))
        with (with_c (mkCmdBuf (Z.pred (n - m')) (aset b m' (data (i + m'))) (Z.succ m')) y).
      unfold Z.pred, Z.succ. replace (n - m' + -1) with (n - (m' + 1)) by lia. reflexivity.
Qed.

Lemma collect_command data i y : idle (gp y) -> steady_word (data i) ->
  first_word (data i) y = begin_command (data i) (need (data i) - 1) y -> 2 <= need (data i) ->
  exists b, zlen b = 16 /\
    write_words data i (need (data i)) y
    = with_c (mkCmdBuf 0 b (need (data i))) (run_words (shifted data i) y).
Proof.
  intros Hid Hu Hfirst Hn. set (n := need (data i)) in *. pose proof (need_range (data i) (proj1 Hu)) as Hr. fold n in Hr.
  destruct (collect_prefix data i (n - 1) y Hid ltac:(fold n; lia) Hfirst ltac:(lia)) as (b & Hl & Hb & E). fold n in E.
  replace (n - (n - 1)) with 1 in E by lia.
  assert (En : write_words data i n y = GPU_WriteGP0 (data (i + (n - 1))) (write_words data i (n - 1) y)).
  { rewrite <- write_words_S by lia. replace (n - 1 + 1) with n by lia. reflexivity. }
  rewrite En, E.
  assert (Hco : collecting 1 (n - 1) (gp (with_c (mkCmdBuf 1 b (n - 1)) y))).
  { destruct Hid as [Hf Ht Hp Hc Hlen]. split; try assumption; reflexivity. }
  rewrite (parameter_last (n - 1) _ _ Hco). exists (aset b (n - 1) (data (i + (n - 1)))). split; [rewrite zlen_aset; exact Hl|].
  change (upd_cmdb (store_cmd (data (i + (n - 1)))) (with_c (mkCmdBuf 1 b (n - 1)) y))
    with (with_c (mkCmdBuf 0 (aset b (n - 1) (data (i + (n - 1)))) (Z.succ (n - 1))) y).
  replace (Z.succ (n - 1)) with n by lia. set (b' := aset b (n - 1) (data (i + (n - 1)))).
  assert (Hb' : forall k, 0 <= k < n -> shifted data i k = aget b' k).
  { intros k Hk. unfold b', shifted. destruct (Z.eq_dec k (n - 1)) as [-> | Hne]; [rewrite aget_aset_eq by lia; reflexivity|].
    rewrite aget_aset_ne by lia. rewrite Hb by lia. reflexivity. }
  assert (E0 : shifted data i 0 = data i) by (unfold shifted; rewrite Z.add_0_r; reflexivity).
  assert (Eb : steady_word (aget b' 0)) by (rewrite <- Hb' by lia; rewrite E0; exact Hu).
  rewrite run_command_words by exact Eb. change (gpu_cmd_buffer (cmdb (gp (with_c (mkCmdBuf 0 b' n) y)))) with b'.
  rewrite <- (run_words_ext (shifted data i) (aget b')) by (rewrite E0; fold n; (exact Hb' || exact Hu)).
  apply run_words_blind. rewrite E0. exact Hu.
Qed.

(** ** One round of the block dispatch *)

(** A word that does not begin an upload or an interrupt request. *)
Definition plain_word (d : Z) : Prop := steady_word d /\ Z.shiftr d 24 <> 0xA0 /\ Z.shiftr d 24 <> 0x1F.

(** The fast path is not taken for a command cut by the end of the block. *)
Definition no_overrun (data : Z -> Z) (n : Z) : Prop :=
  forall i x, 0 <= i < n -> n < i + gpu_cmd_size (Z.shiftr (data i) 24) -> fst (GPU_TryFastEmit (shifted data i) x) <= 0.

(** What one round has to do: take words [i .. j - 1] as the port would. *)
Definition takes (data : Z -> Z) (n i : Z) x' y (j : Z) : Prop :=
  i < j <= n /\ rel x' (write_words data i (j - i) y) /\ gpu_pending_vblank_flush (gp x') = false /\
  (j < n -> idle (gp x')).

Lemma feed_while_eq data fuel : forall i n x, Z.of_nat fuel >= n - i -> i <= n ->
  exists j, feed_while_busy fuel data i n x = (j, write_words data i (j - i) x) /\ i <= j <= n /\
    (j < n -> busy_parsing (write_words data i (j - i) x) = false).
Proof.
  induction fuel as [|fuel IH]; intros i n x Hf Hi; cbn [feed_while_busy].
  - exists i. rewrite Z.sub_diag. split; [reflexivity|]. split; [lia|]. lia.
  - destruct (Z.ltb_spec i n) as [Hlt|Hge]; cbn [andb].
    2: { exists i. rewrite Z.sub_diag. split; [reflexivity|]. split; [lia|]. lia. }
    destruct (busy_parsing x) eqn:Eb.
    2: { exists i. rewrite Z.sub_diag. split; [reflexivity|]. split; [lia|]. intros _. exact Eb. }
    destruct (IH (i + 1) n (GPU_WriteGP0 (data i) x) ltac:(lia) ltac:(lia)) as (j & -> & Hj & Hb).
    assert (E : write_words data (i + 1) (j - (i + 1)) (GPU_WriteGP0 (data i) x) = write_words data i (j - i) x)
      by (rewrite write_words_cons by lia; replace (1 + (j - (i + 1))) with (j - i) by lia; reflexivity).
    exists j. rewrite <- E. split; [reflexivity|]. split; [lia | exact Hb].
Qed.

Lemma feed_takes data n i x y : (forall k, 0 <= k < n -> steady_word (data k)) -> 0 <= i < n -> rel x y -> idle (gp x) ->
  takes data n i (snd (feed_command data i n x)) y (fst (feed_command data i n x)).
Proof.
  intros Hu Hi Hr Hid. unfold feed_command.
  destruct (feed_while_eq data (Z.to_nat (n - i)) (i + 1) n (GPU_WriteGP0 (data i) x) ltac:(lia) ltac:(lia)) as (j & E & Hj & Hb).
  rewrite E. cbn [fst snd].
  assert (E1 : write_words data (i + 1) (j - (i + 1)) (GPU_WriteGP0 (data i) x) = write_words data i (j - i) x)
    by (rewrite write_words_cons by lia; replace (1 + (j - (i + 1))) with (j - i) by lia; reflexivity).
  rewrite E1 in *. pose proof (write_words_rel data i (j - i) x y ltac:(intros k Hk; apply Hu; lia) Hr) as Hrel.
  pose proof (write_words_flush data i (j - i) x (id_flush _ Hid)) as Hfl.
  split; [lia|]. split; [exact Hrel|]. split; [exact Hfl|]. intros Hlt. apply not_busy_idle; [apply Hb, Hlt | exact Hfl|].
  destruct Hrel as (c & _ & Hcr). apply (cr_len1 _ _ Hcr).
Qed.

Lemma words_take data n i m x y : (forall k, 0 <= k < n -> steady_word (data k)) -> 0 <= i -> 0 < m -> i + m <= n -> rel x y -> idle (gp x) ->
  (i + m < n -> idle (gp (write_words data i m x))) ->
  takes data n i (write_words data i m x) y (i + m).
Proof.
  intros Hu Hi Hm Hn Hr Hid Hend. split; [lia|]. replace (i + m - i) with m by lia.
  split; [apply write_words_rel; [intros k Hk; apply Hu; lia | exact Hr]|]. split; [apply write_words_flush, (id_flush _ Hid) | exact Hend].
Qed.

Lemma run_words_idle b y c : idle (gp y) -> zlen (gpu_cmd_buffer c) = 16 -> gpu_cmd_remaining c = 0 -> steady_word (b 0) ->
  Z.shiftr (b 0) 24 <> 0xA0 -> is_polyline (Z.shiftr (b 0) 24) = false -> idle (gp (with_c c (run_words b y))).
Proof.
  intros Hid Hl Hr Hs0 Ha Hp.
  assert (Hq : idle (gp (run_words b y))).
  { unfold run_words. cbv zeta. rewrite (proj2 (Z.eqb_neq _ 0xA0) Ha).
    destruct (_ =? 0xC0); [apply quiet_idle; [apply start_store_image_quiet | exact Hid]|].
    destruct (_ =? 0x80); [apply quiet_idle; [apply copy_image_quiet | exact Hid]|].
    rewrite Hp. apply (quiet_idle (fun z => snd (Translate_GP0_to_GS b z))); [apply translate_quiet, Hs0 | exact Hid]. }
  destruct Hq as [Q1 Q2 Q3 Q4 Q5]. split; try assumption. cbn. lia.
Qed.

(** A header that begins a command with parameters. *)
Lemma first_begins d y : is_u32 d ->
  (Z.shiftr d 24 = 0xC0 \/ Z.land (Z.shiftr d 24) 0xE0 = 0x80 \/ (draws (Z.shiftr d 24) = true /\ is_polyline (Z.shiftr d 24) = false)) ->
  first_word d y = begin_command d (need d - 1) y /\ 2 <= need d.
Proof.
  intros Hu Hc. unfold first_word. rewrite cmd_byte_small by exact Hu. pose proof (byte_range d Hu) as Hr.
  destruct Hc as [Hc | [Hc | [Hd Hp] ] ].
  - rewrite Hc. unfold need. cbv zeta. rewrite Hc. split; [reflexivity | discriminate].
  - rewrite Hc, orb_true_r. unfold need. cbv zeta. rewrite !(copy_byte_not (Z.shiftr d 24)) by (exact Hc || discriminate).
    rewrite Hc. split; [reflexivity | discriminate].
  - set (c := Z.shiftr d 24) in *.
    pose proof (byte_forall (fun c => negb (draws c && negb (is_polyline c)) ||
      (negb ((c =? 0xA0) || (c =? 0xC0) || (Z.land c 0xE0 =? 0x80)) && negb (c =? 0xE1) && negb (c =? 0xE3) && negb (c =? 0xE4) && negb (c =? 0xE5)
       && negb (c =? 0xE2) && negb (c =? 0xE6) && negb (c =? 0x1F) && negb ((c =? 0) || (c =? 1)) && (1 <? GPU_GetCommandSize c))) eq_refl c Hr) as Hb.
    cbn beta in Hb. rewrite Hd, Hp in Hb. cbn [andb negb orb] in Hb.
    repeat (apply andb_true_iff in Hb as [Hb ?]). rewrite !negb_true_iff in *.
    repeat match goal with E : ?a = false |- _ => rewrite E; clear E end.
    unfold other_command. cbv zeta. assert (Hsz : (1 <? GPU_GetCommandSize c) = true) by assumption.
    rewrite Hsz. apply Z.ltb_lt in Hsz.
    assert (En : need d = GPU_GetCommandSize c).
    { unfold need. cbv zeta. fold c. rewrite Hp.
      pose proof (byte_forall (fun c => negb (draws c) || negb ((c =? 0xA0) || (c =? 0xC0) || (Z.land c 0xE0 =? 0x80))) eq_refl c Hr) as Hb2.
      cbn beta in Hb2. rewrite Hd in Hb2. cbn [negb orb] in Hb2. apply negb_true_iff, orb_false_iff in Hb2 as [Ha H8]. rewrite Ha, H8. reflexivity. }
    rewrite En. split; [reflexivity | lia].
Qed.

Lemma first_nop d y : is_u32 d -> Z.shiftr d 24 <= 0x7F -> gpu_cmd_size (Z.shiftr d 24) = 1 -> Z.shiftr d 24 <> 0x1F ->
  first_word d y = y.
Proof.
  intros Hu Hc Hs Hno. unfold first_word. rewrite cmd_byte_small by exact Hu.
  pose proof (byte_range d Hu) as Hr. set (c := Z.shiftr d 24) in *. clearbody c.
  assert (Hin : In c ([0; 1] ++ map (Z.add 3) (zseq 28))).
  { pose proof (byte_forall (fun c => negb ((c <=? 0x7F) && (gpu_cmd_size c =? 1) && negb (c =? 0x1F)) ||
      mem c ([0; 1] ++ map (Z.add 3) (zseq 28))) eq_refl c Hr) as Hb. cbn beta in Hb.
    rewrite (proj2 (Z.leb_le c 0x7F) Hc), Hs, (proj2 (Z.eqb_neq c 0x1F) Hno) in Hb. apply mem_spec, Hb. }
  clear -Hin. repeat (destruct Hin as [<- | Hin]; [reflexivity|]). destruct Hin.
Qed.

Lemma shifted_0 data i : shifted data i 0 = data i.
Proof. unfold shifted. rewrite Z.add_0_r. reflexivity. Qed.

Lemma draw_takes data n i x y : (forall k, 0 <= k < n -> steady_word (data k)) -> 0 <= i < n -> rel x y -> idle (gp x) ->
  let c := Z.shiftr (data i) 24 in
  0 <= c <= 0x7F -> c <> 0x1F -> gpu_cmd_size c <> 0 -> i + gpu_cmd_size c <= n ->
  takes data n i (snd (Translate_GP0_to_GS (shifted data i) x)) y (i + gpu_cmd_size c).
Proof.
  intros Hu Hi Hr Hid c Hc Hno Hsz Hn. pose proof (Hu i ltac:(lia)) as Hui. pose proof (byte_range _ (proj1 Hui)) as Hrng. assert (Hs0 : steady_word (shifted data i 0)) by (rewrite shifted_0; exact Hui). fold c in Hrng.
  assert (Ecmd : cmd_of (shifted data i) = c) by (unfold cmd_of, shifted; rewrite Z.add_0_r; reflexivity).
  pose proof (byte_forall (fun c => negb ((c <=? 0x7F) && negb (gpu_cmd_size c =? 0)) ||
    ((1 <=? gpu_cmd_size c) && negb (is_polyline c) &&
     (if draws c then (need_byte c =? gpu_cmd_size c) && (2 <=? gpu_cmd_size c) else gpu_cmd_size c =? 1))) eq_refl c Hrng) as Hb.
  cbn beta in Hb. rewrite (proj2 (Z.leb_le c 0x7F)), (proj2 (Z.eqb_neq (gpu_cmd_size c) 0)) in Hb by (exact Hsz || lia).
  cbn [andb negb orb] in Hb. apply andb_true_iff in Hb as [Hb Hd]. apply andb_true_iff in Hb as [H1 Hp].
  apply Z.leb_le in H1. apply negb_true_iff in Hp.
  pose proof (rel_idle x y Hr Hid) as Hidy.
  split; [lia|]. replace (i + gpu_cmd_size c - i) with (gpu_cmd_size c) by lia. destruct (draws c) eqn:Ed.
  - apply andb_true_iff in Hd as [En H2]. apply Z.eqb_eq in En. apply Z.leb_le in H2.
    assert (Hneed : need (data i) = gpu_cmd_size c) by (rewrite need_of_byte; exact En). rewrite <- Hneed.
    destruct (first_begins (data i) y (proj1 Hui)) as [Hfirst _]; [right; right; split; assumption|].
    destruct (collect_command data i y Hidy Hui Hfirst ltac:(lia)) as (b & Hl & ->).
    assert (Hrun : forall z, run_words (shifted data i) z = snd (Translate_GP0_to_GS (shifted data i) z)).
    { intros z. unfold run_words. cbv zeta. fold (cmd_of (shifted data i)). rewrite Ecmd.
      pose proof (byte_forall (fun c => negb (draws c) || negb ((c =? 0xA0) || (c =? 0xC0) || (Z.land c 0xE0 =? 0x80))) eq_refl c Hrng) as Hb2.
      cbn beta in Hb2. rewrite Ed in Hb2. cbn [negb orb] in Hb2. apply negb_true_iff, orb_false_iff in Hb2 as [Ha H8].
      apply orb_false_iff in Ha as [Ha Hcc]. rewrite Ha, Hcc, H8, Hp. reflexivity. }
    rewrite Hrun. split; [|split; [|intros _] ].
    + destruct (rel_blind _ x y (translate_blind (shifted data i) Hs0) Hr) as (c' & E' & Hc'). cbn beta in E', Hc'. rewrite E'.
      exists (mkCmdBuf 0 b (need (data i))). split; [reflexivity|].
      apply crel_idle; [apply (cr_len1 _ _ Hc') | exact Hl | |].
      * destruct (rl_parser (shifted data i) x) as (_ & _ & -> & _). apply (id_cmd _ Hid).
      * cbn. lia.
    + destruct (rl_parser (shifted data i) x) as (_ & _ & _ & ->). apply (id_flush _ Hid).
    + apply (quiet_idle (fun z => snd (Translate_GP0_to_GS (shifted data i) z))); [apply translate_quiet, Hs0 | exact Hid].
  - apply Z.eqb_eq in Hd. rewrite Hd. rewrite rl_nop by (rewrite ?Ecmd; assumption). cbn [snd].
    assert (Hw : write_words data i 1 y = y).
    { change 1 with (0 + 1). rewrite write_words_S by lia. change (write_words data i 0 y) with y. rewrite Z.add_0_r, idle_first by exact Hidy.
      apply first_nop; [apply (proj1 Hui) | lia | exact Hd | exact Hno]. }
    rewrite Hw. split; [exact Hr|]. split; [apply (id_flush _ Hid) | intros _; exact Hid].
Qed.

(** The header commands leave the interface idle when their words are in. *)
Lemma complete_idle data i x : idle (gp x) -> steady_word (data i) ->
  (Z.shiftr (data i) 24 = 0xC0 \/ Z.land (Z.shiftr (data i) 24) 0xE0 = 0x80) ->
  idle (gp (write_words data i (need (data i)) x)).
Proof.
  intros Hid Hu Hc.
  destruct (first_begins (data i) x (proj1 Hu)) as [Hf Hn]; [destruct Hc as [Hc | Hc]; [left | right; left]; exact Hc|].
  destruct (collect_command data i x Hid Hu Hf Hn) as (b & Hl & ->).
  apply run_words_idle; [exact Hid | exact Hl | reflexivity | | |]; rewrite shifted_0; [exact Hu | |].
  - destruct Hc as [-> | Hc]; [discriminate | intros E; rewrite E in Hc; discriminate].
  - unfold is_polyline. destruct Hc as [-> | ->]; reflexivity.
Qed.

Lemma single_idle d x : steady_word d -> idle (gp x) -> 0x7F < Z.shiftr d 24 -> gpu_cmd_size (Z.shiftr d 24) = 1 ->
  idle (gp (GPU_WriteGP0 d x)).
Proof.
  intros Hs0 Hid Hc Hs. rewrite idle_first by exact Hid. unfold first_word. rewrite cmd_byte_small by exact (proj1 Hs0).
  pose proof (byte_range d (proj1 Hs0)) as Hr. set (c := Z.shiftr d 24) in *.
  pose proof (byte_forall (fun c => negb ((0x7F <? c) && (gpu_cmd_size c =? 1)) ||
    negb ((c =? 0xA0) || (c =? 0xC0) || (Z.land c 0xE0 =? 0x80) || (1 <? GPU_GetCommandSize c) || is_polyline c)) eq_refl c Hr) as Hb.
  cbn beta in Hb. rewrite (proj2 (Z.ltb_lt _ c) Hc), Hs in Hb. cbn [Z.eqb Pos.eqb andb negb orb] in Hb.
  apply negb_true_iff, orb_false_iff in Hb as [Hb Hp]. apply orb_false_iff in Hb as [Hb Hg]. rewrite Hb.
  destruct (_ =? 0xE1); [apply quiet_idle; [apply draw_mode_quiet | exact Hid]|].
  destruct (_ =? 0xE3); [apply quiet_idle; [apply draw_area_tl_quiet | exact Hid]|].
  destruct (_ =? 0xE4); [apply quiet_idle; [apply draw_area_br_quiet | exact Hid]|].
  destruct (_ =? 0xE5); [apply quiet_idle; [apply draw_offset_quiet | exact Hid]|].
  destruct (_ =? 0xE2); [apply quiet_idle; [apply texture_window_quiet | exact Hid]|].
  destruct (_ =? 0xE6); [apply quiet_idle; [apply mask_setting_quiet | exact Hid]|].
  destruct (_ =? 0x1F); [apply quiet_idle; [apply irq_request_quiet | exact Hid]|].
  destruct ((c =? 0) || (c =? 1)); [exact Hid|]. unfold other_command. cbv zeta. rewrite Hg.
  destruct (_ && _); [apply (quiet_idle (fun z => snd (Translate_GP0_to_GS _ z))); [apply translate_quiet, Hs0 | exact Hid]|].
  rewrite Hp. exact Hid.
Qed.

Lemma need_copy d : Z.land (Z.shiftr d 24) 0xE0 = 0x80 -> need d = 4.
Proof. intros Hc. unfold need. cbv zeta. rewrite !(copy_byte_not (Z.shiftr d 24)) by (exact Hc || discriminate). rewrite Hc. reflexivity. Qed.

Lemma block_round_takes data n i x y : (forall k, 0 <= k < n -> steady_word (data k)) -> 0 <= i < n -> plain_word (data i) ->
  no_overrun data n -> rel x y -> idle (gp x) ->
  takes data n i (snd (block_round data n i x)) y (fst (block_round data n i x)).
Proof.
  intros Hu Hi (_ & Ha & H1f) Hov Hr Hid. unfold block_round. rewrite shifted_0. cbv zeta.
  pose proof (Hu i ltac:(lia)) as Hui. pose proof (byte_range _ (proj1 Hui)) as Hrng. assert (Hs0 : steady_word (shifted data i 0)) by (rewrite shifted_0; exact Hui). set (c := Z.shiftr (data i) 24) in *.
  destruct (Z.eqb_spec (gpu_cmd_size c) 0) as [Hz|Hz].
  - rewrite (proj2 (Z.eqb_neq c 0xA0) Ha). cbn [andb negb]. destruct (Z.eqb_spec c 0xC0) as [Ec|Ec].
    + cbn [fst snd]. set (e := if i + 3 <=? n then i + 3 else n).
      assert (He : i < e <= n) by (subst e; destruct (Z.leb_spec (i + 3) n); lia).
      pose proof (words_take data n i (e - i) x y Hu ltac:(lia) ltac:(lia) ltac:(lia) Hr Hid) as Hw.
      replace (i + (e - i)) with e in Hw by lia. apply Hw. intros Hlt.
      assert (E3 : e - i = need (data i)).
      { unfold need. cbv zeta. fold c. rewrite Ec. cbn. subst e. destruct (Z.leb_spec (i + 3) n); lia. }
      rewrite E3. apply complete_idle; [exact Hid | exact Hui | left; exact Ec].
    + apply feed_takes; assumption.
  - destruct (Z.leb_spec c 0x7F) as [H7|H7].
    + pose proof (rl_fast (shifted data i) x Hs0) as Hfast. pose proof (Hov i x Hi) as Ho.
      destruct (GPU_TryFastEmit (shifted data i) x) as [s x1]. cbn [fst] in Ho.
      unfold cmd_of in Hfast. rewrite shifted_0 in Hfast. fold c in Hfast, Ho.
      destruct Hfast as [ [Hs ->] | [-> ->] ].
      * rewrite (proj2 (Z.leb_le s 0) Hs). destruct (Z.leb_spec (i + gpu_cmd_size c) n) as [Hf|Hf].
        -- cbn [fst snd]. apply draw_takes; (assumption || lia).
        -- cbn [fst snd]. pose proof (words_take data n i (n - i) x y Hu ltac:(lia) ltac:(lia) ltac:(lia) Hr Hid) as Hw.
           replace (i + (n - i)) with n in Hw by lia. apply Hw. lia.
      * pose proof (byte_forall (fun c => (gpu_cmd_size c =? 0) || (0 <? gpu_cmd_size c)) eq_refl c Hrng) as Hb.
        cbn beta in Hb. rewrite (proj2 (Z.eqb_neq _ 0) Hz) in Hb. cbn [orb] in Hb. apply Z.ltb_lt in Hb.
        rewrite (proj2 (Z.leb_gt _ 0)) by exact Hb. cbn [fst snd].
        apply draw_takes; try assumption; [lia|].
        destruct (Z.le_gt_cases (i + gpu_cmd_size c) n) as [Hle|Hgt]; [exact Hle | specialize (Ho ltac:(lia)); lia].
    + destruct (Z.eqb_spec (Z.land c 0xE0) 0x80) as [E8|E8].
      * destruct (Z.leb_spec (i + 4) n) as [Hf|Hf]; cbn [fst snd].
        -- apply words_take; try assumption; try lia. intros _. rewrite <- (need_copy (data i) E8).
           apply complete_idle; [exact Hid | exact Hui | right; exact E8].
        -- pose proof (words_take data n i (n - i) x y Hu ltac:(lia) ltac:(lia) ltac:(lia) Hr Hid) as Hw.
           replace (i + (n - i)) with n in Hw by lia. apply Hw. lia.
      * cbn [fst snd].
        pose proof (byte_forall (fun c => negb ((0x7F <? c) && negb (gpu_cmd_size c =? 0) && negb (Z.land c 0xE0 =? 0x80)) || (gpu_cmd_size c =? 1)) eq_refl c Hrng) as Hb.
        cbn beta in Hb. rewrite (proj2 (Z.ltb_lt _ c) H7), (proj2 (Z.eqb_neq _ 0) Hz), (proj2 (Z.eqb_neq _ 0x80) E8) in Hb.
        cbn [andb negb orb] in Hb. apply Z.eqb_eq in Hb.
        assert (E1 : GPU_WriteGP0 (data i) x = write_words data i 1 x).
        { change 1 with (1 + 0). rewrite <- write_words_cons by lia. reflexivity. }
        rewrite E1. apply words_take; try assumption; try lia. intros _. rewrite <- E1. apply single_idle; (assumption || exact Hui).
Qed.

Lemma block_loop_rel data n : (forall k, 0 <= k < n -> plain_word (data k)) -> no_overrun data n ->
  forall fuel i x y, 0 <= i <= n -> n - i <= Z.of_nat fuel -> rel x y -> (i < n -> idle (gp x)) ->
  rel (block_loop fuel data n i x) (write_words data i (n - i) y).
Proof.
  intros Hp Hov. assert (Hu : forall k, 0 <= k < n -> steady_word (data k)) by (intros k Hk; apply (Hp k Hk)). induction fuel as [|fuel IH]; intros i x y Hi Hf Hr Hid; cbn [block_loop].
  - replace (n - i) with 0 by lia. exact Hr.
  - destruct (Z.ltb_spec i n) as [Hlt|Hge].
    2: { replace (n - i) with 0 by lia. exact Hr. }
    destruct (block_round_takes data n i x y Hu ltac:(lia) (Hp i ltac:(lia)) Hov Hr (Hid Hlt)) as (Hj & Hr' & _ & Hid').
    destruct (block_round data n i x) as [j x1]. cbn [fst snd] in *.
    replace (n - i) with ((j - i) + (n - j)) by lia. rewrite write_words_app by lia. replace (i + (j - i)) with j by lia.
    apply IH; [lia | lia | exact Hr' | exact Hid'].
Qed.

(** The state without the stale part of the command buffer. *)
Definition observable x : GpuSys R :=
  with_c (mkCmdBuf (Z.max 0 (gpu_cmd_remaining (cmdb (gp x)))) [] 0) x.

Lemma rel_observable x y : rel x y -> observable x = observable y.
Proof.
  intros (c & -> & Hc). unfold observable. rewrite (cr_rem _ _ Hc). reflexivity.
Qed.

(** [C12] The table-driven dispatch of a DMA block does what the command port
    does, for fills, lines, polylines, copies, downloads and settings, whole or
    (lines apart) cut by the end of the block: it leaves the same state of the
    graphics processor, of the renderer and of the machine as writing the words
    one by one, but for stale words of the command buffer.  Excluded are the
    words, parameters included, whose top byte is that of a polygon, a
    rectangle, an upload or an interrupt request, and a fast path taken for a
    command that the block cuts. *)
Theorem block_dispatch_exact data n x : (forall k, 0 <= k < n -> plain_word (data k)) -> no_overrun data n -> 0 <= n -> idle (gp x) ->
  observable (GPU_ProcessDmaBlock data n x) = observable (write_words data 0 n x).
Proof.
  intros Hp Hov Hn Hid. apply rel_observable. unfold GPU_ProcessDmaBlock.
  assert (Hnb : feed_while_busy (Z.to_nat n) data 0 n x = (0, x)).
  { destruct (Z.to_nat n) as [|k]; [reflexivity|]. cbn [feed_while_busy]. unfold busy_parsing.
    rewrite (proj2 (Z.ltb_ge 0 _) (id_tx _ Hid)), (proj2 (Z.ltb_ge 0 _) (id_cmd _ Hid)), (id_poly _ Hid), andb_false_r. reflexivity. }
  rewrite Hnb. replace n with (n - 0) at 3 by lia.
  apply block_loop_rel; try assumption; try lia; [|intros _; exact Hid].
  apply rel_refl, crel_idle; try apply (id_len _ Hid); apply (id_cmd _ Hid).
Qed.

(** An interrupt request inside a DMA block is lost: the command GP0(1Fh)
    through the port sets bit 24 of the status and raises the interrupt, while
    the dispatch of a block hands it to the renderer, for which it is no
    drawing command, and nothing changes. *)
Theorem block_loses_irq data x : is_u32 (data 0) -> Z.shiftr (data 0) 24 = 0x1F -> idle (gp x) ->
  tst (gpu_stat (gp x)) 0x01000000 = false ->
  GPU_ProcessDmaBlock data 1 x = x /\
  sys (GPU_WriteGP0 (data 0) x) = SignalInterrupt 1 (sys x) /\
  tst (gpu_stat (gp (GPU_WriteGP0 (data 0) x))) 0x01000000 = true.
Proof.
  intros Hu Hc Hid Hs. split.
  - unfold GPU_ProcessDmaBlock. change (Z.to_nat 1) with 1%nat. cbn [feed_while_busy]. unfold busy_parsing.
    rewrite (proj2 (Z.ltb_ge 0 _) (id_tx _ Hid)), (proj2 (Z.ltb_ge 0 _) (id_cmd _ Hid)), (id_poly _ Hid), andb_false_r.
    cbn [block_loop Z.ltb Z.compare]. unfold block_round. rewrite shifted_0. cbv zeta. rewrite Hc. change (gpu_cmd_size 0x1F) with 1.
    assert (Ecmd : cmd_of (shifted data 0) = 0x1F) by (unfold cmd_of; rewrite shifted_0; exact Hc).
    pose proof (rl_nop (shifted data 0) x) as Hnop. rewrite Ecmd in Hnop. specialize (Hnop ltac:(lia) eq_refl).
    assert (Hs0 : steady_word (shifted data 0 0)) by (rewrite shifted_0; split; [exact Hu | rewrite Hc; reflexivity]).
    pose proof (rl_fast (shifted data 0) x Hs0) as Hf. rewrite Ecmd, Hnop in Hf. change (gpu_cmd_size 0x1F) with 1 in Hf.
    cbn [Z.eqb Pos.eqb Z.leb Z.compare Pos.compare Pos.compare_cont].
    destruct (GPU_TryFastEmit (shifted data 0) x) as [s x1]. destruct Hf as [ [Hle ->] | [-> ->] ].
    + rewrite (proj2 (Z.leb_le s 0) Hle), Hnop. reflexivity.
    + reflexivity.
  - rewrite idle_first by exact Hid. unfold first_word. rewrite cmd_byte_small by exact Hu. rewrite Hc.
    unfold irq_request. rewrite Hs. split; [reflexivity|].
    change (tst (Z.lor (gpu_stat (gp x)) 0x01000000) 0x01000000 = true). unfold tst.
    rewrite Z.land_lor_distr_l. change (Z.land 0x01000000 0x01000000) with 0x01000000.
    apply negb_true_iff, Z.eqb_neq. intros E. apply Z.lor_eq_0_iff in E. destruct E as [_ E]. discriminate.
Qed.
End Blocks.


(** ** The renderer keeps to what the command interface needs

    For the renderer of [Primitives.v] the laws are theorems. *)

Section Renderer_laws.
Context `{GsSdk} `{GpuHost Prim}.
Implicit Types x : GpuSys Prim.

Lemma same_parser_refl g : same_parser g g.
Proof. repeat split. Qed.

Lemma same_parser_trans g g' g'' : same_parser g g' -> same_parser g' g'' -> same_parser g g''.
Proof. intros (A & B & C & D) (A' & B' & C' & D'). repeat split; congruence. Qed.

(** The parser's state is kept. *)
Definition keeps x (r : GpuSys Prim) : Prop := same_parser (gp x) (gp r).

Lemma keeps_set_tpage tpage x : keeps x (set_tpage tpage x).
Proof. repeat split. Qed.

Lemma keeps_find fmt px py uv x : gp (snd (find_texture fmt px py uv x)) = gp x.
Proof. unfold find_texture. destruct (use_page _ _ _ _ _ _ _ _ _) as [ [hit t] g]. reflexivity. Qed.

Lemma gp_poly_state a u prim x : gp (poly_state a u prim x) = gp x.
Proof. unfold poly_state. cbv zeta. destruct (state_fast _ _ _ _); reflexivity. Qed.

Lemma gp_emit_poly verts ty cmd px py x : gp (emit_poly_state_and_verts verts ty cmd px py x) = gp x.
Proof.
  unfold emit_poly_state_and_verts. cbv zeta. destruct (a_textured _).
  - pose proof (keeps_find (tex_page_format (tex (gp x))) px py (v_uv (vert verts 0)) x) as E.
    destruct (find_texture _ _ _ _ x) as [u y]. cbn [snd] in E. rewrite <- E. apply (gp_poly_state _ u _ y).
  - apply (gp_poly_state _ no_texture _ x).
Qed.

Lemma keeps_polygon p x : keeps x (snd (translate_polygon p x)).
Proof.
  unfold translate_polygon, keeps. cbv zeta. destruct (parse_vertices _ _ _ _) as [verts idx]. cbn [snd]. rewrite gp_emit_poly.
  destruct (tst (cmd_byte p) 0x04); repeat split.
Qed.

Lemma gp_emit_flipped r a raw color x : gp (emit_flipped r a raw color x) = gp x.
Proof. reflexivity. Qed.

Lemma keeps_rect p x : keeps x (snd (translate_rect p x)).
Proof.
  unfold translate_rect, keeps. cbv zeta. destruct (a_textured _); [|repeat split].
  destruct (need_perpixel _).
  - match goal with |- context [find_texture ?f ?a ?b ?c ?y] => pose proof (keeps_find f a b c y) as E; destruct (find_texture f a b c y) as [u z] end.
    cbn [snd] in *. destruct (_ && _); (etransitivity || idtac); unfold same_parser; change (gp (emit_flipped ?r ?a ?w ?c z)) with (gp z) || change (gp (emit_sprite ?r ?a ?w ?v ?c z)) with (gp z); rewrite E; repeat split.
  - cbn [snd]. destruct (_ && _); repeat split.
Qed.

Lemma keeps_fill p x : keeps x (snd (translate_fill p x)).
Proof. unfold translate_fill, keeps. cbv zeta. destruct (_ || _); [apply same_parser_refl|]. destruct (_ && _); repeat split. Qed.

Lemma keeps_line p x : keeps x (snd (emit_line p x)).
Proof. unfold emit_line, keeps. cbv zeta. destruct (tst (cmd_byte p) 0x02); repeat split. Qed.

Lemma keeps_translate p x : keeps x (snd (Translate p x)).
Proof.
  unfold Translate. cbv zeta. destruct (_ =? 0x20); [apply keeps_polygon|]. destruct (_ =? 0x60); [apply keeps_rect|].
  destruct (_ =? 0x02); [apply keeps_fill|]. destruct (_ =? 0x40); [apply keeps_line | apply same_parser_refl].
Qed.

Lemma keeps_same_texture fmt px py uv x : gp (snd (same_texture fmt px py uv x)) = gp x.
Proof. unfold same_texture. destruct (prim_tex_cache_lookup _ _ _ _ _) as [hit t]. reflexivity. Qed.

Lemma keeps_fast_polygon p x : keeps x (snd (fast_polygon p x)).
Proof.
  unfold fast_polygon, keeps. cbv zeta. destruct (_ || _); [apply same_parser_refl|].
  destruct (a_textured _) eqn:Ea.
  - match goal with |- context [same_texture ?f ?a ?b ?c x] => pose proof (keeps_same_texture f a b c x) as E; destruct (same_texture f a b c x) as [ [same u] z] end.
    cbn [snd] in E. destruct (negb same); [cbn [snd]; rewrite E; apply same_parser_refl|].
    destruct (parse_vertices _ _ _ _) as [verts idx]. cbn [snd]. unfold same_parser. rewrite <- E. repeat split.
  - cbn [negb]. destruct (parse_vertices _ _ _ _) as [verts idx]. apply same_parser_refl.
Qed.

Lemma keeps_fast_rect p x : keeps x (snd (fast_rect p x)).
Proof.
  unfold fast_rect, keeps. cbv zeta. destruct (negb _); [apply same_parser_refl|]. destruct (_ && _); [apply same_parser_refl|].
  destruct (a_textured _).
  - destruct (negb _); [apply same_parser_refl|]. destruct (prim_tex_cache_lookup _ _ _ _ _) as [hit tc].
    destruct (_ || _); apply same_parser_refl.
  - destruct (negb _); apply same_parser_refl.
Qed.

Lemma keeps_fast p x : keeps x (snd (TryFastEmit p x)).
Proof.
  unfold TryFastEmit. cbv zeta. destruct (_ =? 0x20); [apply keeps_fast_polygon|]. destruct (_ =? 0x60); [apply keeps_fast_rect|].
  destruct (_ =? 0x40); [|apply same_parser_refl]. destruct (tst _ 0x08); [apply same_parser_refl | apply keeps_line].
Qed.

Lemma keeps_fast_poly p x : keeps x (snd (TryFastPoly p x)).
Proof. unfold TryFastPoly. cbv zeta. destruct (_ || _); apply same_parser_refl. Qed.

Lemma keeps_add_tri p cmd x : gp (snd (batch_add_tri p cmd x)) = gp x.
Proof. unfold batch_add_tri. cbv zeta. destruct (parse_vertices _ _ _ _) as [verts idx]. reflexivity. Qed.

Lemma keeps_batch_start p a key x : keeps x (snd (batch_start p a key x)).
Proof.
  unfold batch_start, keeps. cbv zeta. destruct (_ || _); [apply same_parser_refl|]. destruct (a_textured a).
  - match goal with |- context [same_texture ?f ?b ?c ?d x] => pose proof (keeps_same_texture f b c d x) as E; destruct (same_texture f b c d x) as [ [same u] z] end.
    cbn [snd] in E. destruct (negb same); [cbn [snd]; rewrite E; apply same_parser_refl|]. rewrite keeps_add_tri.
    unfold same_parser. rewrite <- E. repeat split.
  - cbn [negb]. rewrite keeps_add_tri. apply same_parser_refl.
Qed.

Lemma keeps_batch p x : keeps x (snd (GPU_TryBatchAdd p x)).
Proof.
  unfold GPU_TryBatchAdd. cbv zeta. destruct (_ || _); [apply same_parser_refl|].
  destruct (b_active _); [|apply keeps_batch_start].
  destruct (_ || _); [apply (same_parser_trans _ (gp (upd_prim Prim_FlushBatch x)) _ (same_parser_refl _)), keeps_batch_start|].
  set (y := if a_textured _ then set_tpage _ x else x).
  assert (Hy : keeps x y) by (subst y; destruct (a_textured _); [apply keeps_set_tpage | apply same_parser_refl]).
  clearbody y. apply (same_parser_trans _ (gp y) _ Hy).
  destruct (negb _); [destruct (_ <=? _)|].
  - apply (same_parser_trans _ (gp (upd_prim Prim_FlushBatch y)) _ (same_parser_refl _)), keeps_batch_start.
  - rewrite keeps_add_tri. apply same_parser_refl.
  - rewrite keeps_add_tri. apply same_parser_refl.
Qed.

(** *** Fills and lines *)

Lemma cmd_byte_of p : is_u32 (p 0) -> cmd_byte p = cmd_of p.
Proof. intros Hp. unfold cmd_byte, cmd_of. exact (cmd_byte_small (p 0) Hp). Qed.

Lemma steady_translate p x : steady_word (p 0) ->
  Translate p x = if cmd_of p =? 0x02 then translate_fill p x else if Z.land (cmd_of p) 0xE0 =? 0x40 then emit_line p x else (1, x).
Proof.
  intros [Hu Hs]. unfold Translate. cbv zeta. rewrite cmd_byte_of by exact Hu. unfold steady in Hs. fold (cmd_of p) in Hs.
  apply andb_prop in Hs as [H2 H6]. apply negb_true_iff in H2, H6. rewrite H2, H6. reflexivity.
Qed.

Lemma line_words p q x : is_u32 (p 0) -> Z.land (cmd_of p) 0xE0 = 0x40 -> (forall k, 0 <= k < need (p 0) -> p k = q k) -> emit_line p x = emit_line q x.
Proof.
  intros Hu Hc Hk. pose proof (byte_range _ Hu) as Hr. pose proof (need_range _ Hu) as Hn.
  assert (E0 : p 0 = q 0) by (apply Hk; lia).
  assert (Hlen : need (p 0) = if tst (cmd_of p) 0x10 then 4 else 3).
  { rewrite need_of_byte. fold (cmd_of p) in *.
    pose proof (byte_forall (fun c => negb (Z.land c 0xE0 =? 0x40) || (need_byte c =? if tst c 0x10 then 4 else 3)) eq_refl (cmd_of p) Hr) as Hb.
    cbn beta in Hb. rewrite Hc in Hb. apply Z.eqb_eq, Hb. }
  unfold emit_line. cbv zeta. rewrite cmd_byte_of by exact Hu. rewrite (cmd_byte_of q) by (rewrite <- E0; exact Hu).
  unfold cmd_of in *. rewrite <- E0. destruct (tst (Z.shiftr (p 0) 24) 0x10); cbv beta iota; rewrite Hlen in Hk;
    pose proof (Hk 1 ltac:(lia)) as E1; pose proof (Hk 2 ltac:(lia)) as E2; [pose proof (Hk 3 ltac:(lia)) as E3; rewrite E3|]; rewrite E1, E2; reflexivity.
Qed.

Lemma fill_words p q x : (forall k, 0 <= k < 3 -> p k = q k) -> translate_fill p x = translate_fill q x.
Proof. intros Hk. unfold translate_fill. cbv zeta. rewrite (Hk 0), (Hk 1), (Hk 2) by lia. reflexivity. Qed.

Lemma fill_with p c x : translate_fill p (with_c c x) = (fst (translate_fill p x), with_c c (snd (translate_fill p x))).
Proof.
  unfold translate_fill. cbv zeta. destruct (_ || _); [reflexivity|].
  change (env (gp (add_pixels ?n (with_c c x)))) with (env (gp (add_pixels n x))). destruct (_ && _); reflexivity.
Qed.

Lemma line_with p c x : emit_line p (with_c c x) = (fst (emit_line p x), with_c c (snd (emit_line p x))).
Proof. unfold emit_line. cbv zeta. destruct (tst (cmd_byte p) 0x02); reflexivity. Qed.

Lemma line_size p x : is_u32 (p 0) -> Z.land (cmd_of p) 0xE0 = 0x40 -> tst (cmd_of p) 0x08 = false -> fst (emit_line p x) = gpu_cmd_size (cmd_of p).
Proof.
  intros Hu Hc H8. unfold emit_line. cbv zeta. cbn [fst]. rewrite cmd_byte_of by exact Hu. pose proof (byte_range _ Hu) as Hr. fold (cmd_of p) in Hr.
  pose proof (byte_forall (fun c => negb (Z.land c 0xE0 =? 0x40) || tst c 0x08 || ((if tst c 0x10 then 3 else 2) + 1 =? gpu_cmd_size c)) eq_refl (cmd_of p) Hr) as Hb.
  cbn beta in Hb. rewrite Hc, H8 in Hb. apply Z.eqb_eq, Hb.
Qed.

Lemma parse_idx shaded textured p n : 0 <= n -> 1 <= snd (parse_vertices shaded textured p n).
Proof.
  intros _. unfold parse_vertices. generalize (zseq (Z.to_nat n)). intros l.
  assert (Hl : forall st, 1 <= snd st -> 1 <= snd (fold_left (parse_vertex shaded textured p) l st)).
  { induction l as [|i l IH]; intros [verts idx] Hst; [exact Hst|]. cbn [fold_left]. apply IH. unfold parse_vertex. cbn [snd] in *.
    destruct (i =? 0), shaded, textured; cbn [snd]; lia. }
  apply Hl. cbn. lia.
Qed.

Lemma translate_answers p x : 1 <= fst (Translate p x).
Proof.
  unfold Translate. cbv zeta. destruct (_ =? 0x20).
  { unfold translate_polygon. cbv zeta. pose proof (parse_idx (tst (cmd_byte p) 0x10) (tst (cmd_byte p) 0x04) p (if tst (cmd_byte p) 0x08 then 4 else 3)) as Hi.
    destruct (parse_vertices _ _ _ _) as [verts idx]. cbn [fst snd] in *. apply Hi. destruct (tst _ _); lia. }
  destruct (_ =? 0x60).
  { assert (Hw : 1 <= r_words (parse_rect (cmd_byte p) p)).
    { unfold parse_rect. cbv zeta. destruct (_ =? 0); [|destruct (_ =? 1); [|destruct (_ =? 2)] ]; cbn [r_words]; destruct (tst _ 0x04); lia. }
    unfold translate_rect. cbv zeta. destruct (a_textured _); [|exact Hw]. destruct (if need_perpixel _ then _ else _) as [u z]. exact Hw. }
  destruct (_ =? 0x02); [unfold translate_fill; cbv zeta; destruct (_ || _); cbn; lia|].
  destruct (_ =? 0x40); [unfold emit_line; cbv zeta; cbn [fst]; destruct (tst _ 0x10); lia | cbn; lia].
Qed.

#[export] Instance prim_laws : RendererLaws Prim.
Proof.
  split; cbn [Translate_GP0_to_GS Gpu.GPU_TryFastEmit Gpu.GPU_TryBatchAdd GPU_Backend_TryFastPoly GS_ReadbackRegion prim_backend].
  - intros p q x Hs Hk. assert (E0 : p 0 = q 0) by (apply Hk; pose proof (need_range _ (proj1 Hs)); lia).
    rewrite (steady_translate p x Hs), (steady_translate q x) by (rewrite <- E0; exact Hs).
    assert (Ec : cmd_of q = cmd_of p) by (unfold cmd_of; rewrite E0; reflexivity). rewrite Ec.
    destruct (Z.eqb_spec (cmd_of p) 0x02) as [E2|E2].
    { apply fill_words. intros k Hk3. apply Hk. rewrite need_of_byte. fold (cmd_of p). rewrite E2. change (need_byte 0x02) with 3. exact Hk3. }
    destruct (Z.eqb_spec (Z.land (cmd_of p) 0xE0) 0x40) as [E4|E4]; [apply line_words; [apply Hs | exact E4 | exact Hk] | reflexivity].
  - intros p c x Hs. rewrite !(steady_translate p) by exact Hs. destruct (_ =? 0x02); [apply fill_with|]. destruct (_ =? 0x40); [apply line_with | reflexivity].
  - exact keeps_translate.
  - exact translate_answers.
  - intros p x Hc Hd. unfold draws in Hd. apply orb_false_iff in Hd as [H2 Hd]. rewrite (proj2 (Z.leb_le _ 0x7F)), andb_true_r in Hd by lia. apply Z.leb_gt in Hd.
    unfold Translate. cbv zeta. replace (cmd_byte p) with (cmd_of p).
    + rewrite H2. assert (Hl : 0 <= cmd_of p < 32) by lia.
      pose proof (byte_forall (fun c => negb (c <? 32) || (Z.land c 0xE0 =? 0)) eq_refl (cmd_of p) ltac:(lia)) as Hb.
      cbn beta in Hb. rewrite (proj2 (Z.ltb_lt _ 32)) in Hb by lia. apply Z.eqb_eq in Hb. rewrite Hb. reflexivity.
    + unfold cmd_byte. change 0xFF with (Z.ones 8). rewrite Z.land_ones by lia. symmetry. apply Z.mod_small. fold (cmd_of p). lia.
  - intros p x Hs. rewrite (steady_translate p x Hs). destruct Hs as [Hu Hs]. unfold TryFastEmit. cbv zeta. rewrite cmd_byte_of by exact Hu.
    unfold steady in Hs. fold (cmd_of p) in Hs. apply andb_prop in Hs as [H2 H6]. apply negb_true_iff in H2, H6. rewrite H2, H6.
    destruct (Z.eqb_spec (Z.land (cmd_of p) 0xE0) 0x40) as [E4|E4]; [|left; split; [lia | reflexivity] ].
    destruct (tst (cmd_of p) 0x08) eqn:E8; [left; split; [lia | reflexivity]|].
    pose proof (line_size p x Hu E4 E8) as Hl. destruct (emit_line p x) as [s z]. right. split; [exact Hl|].
    rewrite (proj2 (Z.eqb_neq (cmd_of p) 2)) by (intros E; rewrite E in E4; discriminate). reflexivity.
  - exact keeps_fast.
  - intros p x [Hu Hs]. unfold TryFastPoly. cbv zeta. fold (cmd_of p) in *.
    rewrite (proj2 (Z.eqb_neq (cmd_of p) 0x20)), (proj2 (Z.eqb_neq (cmd_of p) 0x28)) by (intros E; rewrite E in Hs; discriminate).
    left. split; reflexivity.
  - exact keeps_fast_poly.
  - exact keeps_batch.
  - reflexivity.
Qed.
End Renderer_laws.

(** *** A list for the renderer *)

#[export] Instance plain_host : GpuHost Prim := {
  host_readback := fun _ _ _ _ _ => None;
  host_refresh_divider := fun x => x;
  host_sched_tick := fun _ x => x
}.

Definition renderer_start : GpuSys Prim :=
  (gpu_init, mkPrim gs_state_init Tex_Cache_Init gif_start batch_init 0, sys0).
Lemma renderer_start_idle : idle (gp renderer_start).
Proof. split; cbn; reflexivity || lia. Qed.

(** A fill, a setting, a polyline of two segments, a copy and a line. *)
Definition block_list : list Z :=
  [0x02112233; 0x00100010; 0x00080008; 0xE1000508; 0x48FFFFFF; 0x00010001; 0x00020002; 0x00030004; 0x55555555;
   0x80000000; 0x00100010; 0x00400040; 0x00040004; 0x40FFFFFF; 0x00050005; 0x00060006].

Definition plain_wordb (d : Z) : bool :=
  (0 <=? d) && (d <? 2 ^ 32) && steady (Z.shiftr d 24) && negb (Z.shiftr d 24 =? 0xA0) && negb (Z.shiftr d 24 =? 0x1F).

Lemma block_list_plain k : plain_word (aget block_list k).
Proof.
  apply Forall_aget; [split; [split; [unfold is_u32; lia | reflexivity] | split; discriminate]|]. apply Forall_forall. intros d Hd.
  assert (Hb : forallb plain_wordb block_list = true) by reflexivity. rewrite forallb_forall in Hb.
  specialize (Hb d (proj1 (list_elem_of_In _ _) Hd)). unfold plain_wordb in Hb. repeat (apply andb_true_iff in Hb as [Hb ?]).
  split; [split; [unfold is_u32; lia | assumption]|]. split; lia.
Qed.

Lemma block_list_whole i : 0 <= i < 16 -> i + gpu_cmd_size (Z.shiftr (aget block_list i) 24) <= 16.
Proof.
  intros Hi. assert (Hb : forallb (fun i => i + gpu_cmd_size (Z.shiftr (aget block_list i) 24) <=? 16) (zseq 16) = true) by (vm_compute; reflexivity).
  rewrite forallb_forall in Hb. apply Z.leb_le, Hb, in_zseq. exact Hi.
Qed.

Lemma block_dispatch_exact_witness :
  observable (GPU_ProcessDmaBlock (aget block_list) 16 renderer_start) = observable (write_words (aget block_list) 0 16 renderer_start) /\
  zlen (gif_packet_buf (gif (prm (GPU_ProcessDmaBlock (aget block_list) 16 renderer_start)))) = 6.
Proof.
  split; [|vm_compute; reflexivity].
  apply (block_dispatch_exact (aget block_list) 16 renderer_start);
    [intros k _; apply block_list_plain | intros i x Hi Hc; pose proof (block_list_whole i Hi); lia | lia | apply renderer_start_idle].
Defined.

Lemma block_loses_irq_witness :
  GPU_ProcessDmaBlock (fun _ => 0x1F000000) 1 renderer_start = renderer_start /\
  i_stat (cpu (sys (GPU_WriteGP0 0x1F000000 renderer_start))) = 2.
Proof.
  destruct (block_loses_irq (fun _ => 0x1F000000) renderer_start ltac:(unfold is_u32; lia) eq_refl renderer_start_idle eq_refl) as (H1 & H2 & _).
  split; [exact H1 | rewrite H2; reflexivity].
Defined.
