(* ===== verification/GpuList.v ===== *)
(** * Display lists and queries

    The walk of a linked list by DMA channel 2: it always ends, it reports
    completion exactly for the lists that reach the end marker, and what it
    loses when an upload continues in the next packet.  The registers that are
    read back through a query, and the interrupt request. *)

From S2P Require Import Prelude Scheduler System Memory Gpu GpuVram Gif GifMath Texture Primitives GpuDma.

Section Lists.
Context {R : Type} `{RL : RendererLaws R}.
Implicit Types x z : GpuSys R.

(** ** Every round takes a word *)

Lemma feed_command_moves data i n x : i < n -> i < fst (feed_command data i n x) <= n.
Proof.
  intros Hi. unfold feed_command.
  destruct (feed_while_eq data (Z.to_nat (n - i)) (i + 1) n (GPU_WriteGP0 (data i) x) ltac:(lia) ltac:(lia)) as (j & -> & Hj & _).
  cbn [fst]. lia.
Qed.

(** Whatever path draws a command, it takes at least one word. *)
Lemma drawn_size p x : 1 <= fst (let '(s, y) := GPU_TryFastEmit p x in if s <=? 0 then Translate_GP0_to_GS p y else (s, y)).
Proof.
  destruct (GPU_TryFastEmit p x) as [s y]. destruct (Z.leb_spec s 0); [apply rl_answer | cbn [fst]; lia].
Qed.

Lemma ll_round_moves ram count i addr x : mem_ok ram -> i < count ->
  let '(j, _, _) := ll_round ram count i addr x in i < j.
Proof.
  intros Hm Hi. unfold ll_round. cbv zeta.
  pose proof (byte_range _ (rd32_range ram (addr + 4 * 0) Hm)) as Hr. change (rd32 ram (addr + 4 * 0)) with (ram_words ram addr 0) in Hr.
  set (c := Z.shiftr (ram_words ram addr 0) 24) in *.
  assert (Hw : 0 <= u32 (Z.land (ram_words ram addr 2) 0xFFFF * Z.shiftr (ram_words ram addr 2) 16) / 2)
    by (apply Z.div_pos; [apply Z.mod_pos_bound; lia | lia]).
  destruct (Z.eqb_spec (gpu_cmd_size c) 0) as [Hz|Hz].
  - destruct (_ && _); [lia|].
    match goal with |- context [feed_command ?d i count ?y] => pose proof (feed_command_moves d i count y Hi) as Hf;
      destruct (feed_command d i count y) as [j z] end. cbn [fst] in Hf. lia.
  - destruct (Z.leb_spec c 0x7F) as [H7|H7].
    + destruct (Gpu.GPU_TryBatchAdd (ram_words ram addr) x) as [s y].
      destruct (Z.ltb_spec 0 s); [lia|].
      pose proof (drawn_size (ram_words ram addr) (call C_FlushBatch y)) as Hd.
      destruct (GPU_TryFastEmit _ _) as [s1 y1].
      destruct (if s1 <=? 0 then Translate_GP0_to_GS (ram_words ram addr) y1 else (s1, y1)) as [s2 y2]. cbn [fst] in Hd. lia.
    + destruct (_ =? 0x80); [destruct (_ <=? count)|]; lia.
Qed.

Lemma ll_words_ends ram count : mem_ok ram -> forall fuel i addr x, count - i <= Z.of_nat fuel ->
  exists y, ll_words fuel ram count i addr x = Some y.
Proof.
  intros Hm. induction fuel as [|fuel IH]; intros i addr x Hf; cbn [ll_words].
  - rewrite (proj2 (Z.ltb_ge i count)) by lia. eexists. reflexivity.
  - destruct (Z.ltb_spec i count) as [Hi|Hi]; [|eexists; reflexivity].
    pose proof (ll_round_moves ram count i addr x Hm Hi) as Hmv. destruct (ll_round ram count i addr x) as [ [j a] y].
    apply IH. lia.
Qed.

Lemma ll_packet_ends ram count addr x : mem_ok ram -> 0 <= count -> exists y, ll_packet ram count addr x = Some y.
Proof.
  intros Hm Hc. unfold ll_packet. destruct (polyline_active _); [eexists; reflexivity|].
  apply ll_words_ends; [exact Hm | lia].
Qed.

(** ** The list as the memory holds it *)

Definition ll_next (ram : gmap Z Z) (a : Z) : Z := Z.land (rd32 ram a) 0xFFFFFF.
Definition ll_size (ram : gmap Z Z) (a : Z) : Z := Z.shiftr (rd32 ram a) 24.

(** The list from [a] reaches its end marker at packet number [n], without
    pointing to itself or to its first packet on the way. *)
Inductive marked_after (ram : gmap Z Z) (start : Z) : Z -> nat -> Prop :=
| marked_end a : ll_next ram a = 0xFFFFFF -> marked_after ram start a 1
| marked_next a n : ll_next ram a <> 0xFFFFFF -> ll_next ram a <> a -> Z.land (ll_next ram a) 0x1FFFFC <> start ->
    tst (ll_next ram a) 3 = false -> marked_after ram start (Z.land (ll_next ram a) 0x1FFFFC) n ->
    marked_after ram start a (S n).

(** The packets from [a] on: a list ends at its marker, at a packet that points
    to itself, back to the first one or to an unaligned address, or at the
    limit. *)
Definition ll_stops (ram : gmap Z Z) (start a : Z) : bool :=
  (ll_next ram a =? 0xFFFFFF) || ((ll_next ram a =? a) || (Z.land (ll_next ram a) 0x1FFFFC =? start)) || tst (ll_next ram a) 3.

Fixpoint ll_path (fuel : nat) (ram : gmap Z Z) (start a : Z) : list Z :=
  match fuel with
  | O => []
  | S fuel => a :: if ll_stops ram start a then [] else ll_path fuel ram start (Z.land (ll_next ram a) 0x1FFFFC)
  end.

(** Their words, given to the packet loop one packet after the other. *)
Fixpoint ll_packets (ram : gmap Z Z) (l : list Z) x : option (GpuSys R) :=
  match l with
  | [] => Some x
  | a :: l => match ll_packet ram (ll_size ram a) (Z.land (a + 4) 0x1FFFFC) x with None => None | Some y => ll_packets ram l y end
  end.

Definition ll_moved (ram : gmap Z Z) (l : list Z) : Z := fold_right (fun a n => ll_size ram a + 1 + n) 0 l.

Lemma ll_size_range ram a : mem_ok ram -> 0 <= ll_size ram a < 256.
Proof. intros Hm. apply (byte_range _ (rd32_range ram a Hm)). Qed.

Lemma ll_path_length fuel ram start : forall a, (length (ll_path fuel ram start a) <= fuel)%nat.
Proof. induction fuel as [|fuel IH]; intros a; cbn [ll_path length]; [lia|]. destruct (ll_stops ram start a); [cbn [length]; lia|]. specialize (IH (Z.land (ll_next ram a) 0x1FFFFC)). lia. Qed.

Lemma stops_marked ram start a n : ll_stops ram start a = true -> marked_after ram start a n -> ll_next ram a = 0xFFFFFF.
Proof.
  intros Hs Hmk. inversion Hmk as [a' Ha|a' n' H1 H2 H3 H4 H5]; subst; [assumption|]. exfalso. revert Hs. unfold ll_stops.
  rewrite (proj2 (Z.eqb_neq _ _) H1), (proj2 (Z.eqb_neq _ _) H2), (proj2 (Z.eqb_neq _ _) H3), H4. discriminate.
Qed.

Lemma goes_on ram start a fuel : ll_stops ram start a = false ->
  (exists n, (n <= fuel)%nat /\ marked_after ram start (Z.land (ll_next ram a) 0x1FFFFC) n) <->
  exists n, (n <= S fuel)%nat /\ marked_after ram start a n.
Proof.
  unfold ll_stops. intros Hs. apply orb_false_iff in Hs as [Hs H3]. apply orb_false_iff in Hs as [H0 Hs]. apply orb_false_iff in Hs as [H1 H2].
  apply Z.eqb_neq in H0, H1, H2. split.
  - intros (n & Hn & Hmk). exists (S n). split; [lia | apply marked_next; assumption].
  - intros (n & Hn & Hmk). inversion Hmk as [a' Ha|a' n' _ _ _ _ H5]; subst; [contradiction|]. exists n'. split; [lia | exact H5].
Qed.

Lemma end_eq a a' b b' d x : a = a' -> b = b' -> Some (mkLlEnd a b d, x) = Some (mkLlEnd a' b' d, x).
Proof. intros -> ->. reflexivity. Qed.

(** [C25] The walk of a display list gives the words of exactly the packets on
    its path to the packet loop, one packet after the other in the order of the
    links; it always ends, each packet being consumed in finitely many rounds,
    whatever the memory holds.  The packets are counted, the words are - a
    header and its data each - and completion is reported exactly for the
    lists that reach their end marker within the given number of packets: a
    list that points to itself, back to its first packet or to an unaligned
    address stops there, one with a longer cycle at the limit. *)
Theorem list_walk_exact ram start fuel : mem_ok ram -> forall addr e x,
  ll_completed e = false -> 0 <= ll_total e -> ll_total e + 256 * Z.of_nat fuel < 2 ^ 32 ->
  let l := ll_path fuel ram start addr in
  exists done y, ll_packets ram l x = Some y /\
    ll_walk fuel ram start addr e x = Some (mkLlEnd (ll_count e + zlen l) (ll_total e + ll_moved ram l) done, y) /\
    (done = true <-> exists n, (n <= fuel)%nat /\ marked_after ram start addr n).
Proof.
  intros Hm. induction fuel as [|fuel IH]; intros addr e x Hc Ht Hb; cbn [ll_walk ll_path].
  - exists false, x. split; [reflexivity|]. split; [destruct e; cbn in *; subst; apply end_eq; unfold zlen; cbn; lia|].
    split; [discriminate|]. intros (n & Hn & Hmk). inversion Hmk; lia.
  - fold (ll_size ram addr) (ll_next ram addr). pose proof (ll_size_range ram addr Hm) as Hr. set (c := ll_size ram addr) in *.
    rewrite (u32_small (ll_total e + (c + 1))) by (unfold is_u32; lia).
    rewrite (proj2 (Z.ltb_ge 256 c)) by lia. cbn [ll_packets]. fold c.
    destruct (ll_packet_ends ram c (Z.land (addr + 4) 0x1FFFFC) x Hm ltac:(lia)) as (y & ->). cbn zeta.
    destruct (ll_stops ram start addr) eqn:Es; pose proof Es as E; unfold ll_stops in E.
    { assert (Hstop : forall done, done = (ll_next ram addr =? 0xFFFFFF) ->
        exists done' z, ll_packets ram [] y = Some z /\
          Some (mkLlEnd (ll_count e + 1) (ll_total e + (c + 1)) done, y) = Some (mkLlEnd (ll_count e + zlen [addr]) (ll_total e + ll_moved ram [addr]) done', z) /\
          (done' = true <-> exists n, (n <= S fuel)%nat /\ marked_after ram start addr n)).
      { intros done ->. exists (ll_next ram addr =? 0xFFFFFF), y. split; [reflexivity|]. split; [apply end_eq; [unfold zlen | cbn [ll_moved fold_right]; fold c]; cbn; lia|].
        rewrite Z.eqb_eq. split; [intros En; exists 1%nat; split; [lia | apply marked_end, En] | intros (n & _ & Hmk); exact (stops_marked ram start addr n Es Hmk)]. }
      destruct (ll_next ram addr =? 0xFFFFFF); [apply Hstop; reflexivity|].
      destruct ((ll_next ram addr =? addr) || (Z.land (ll_next ram addr) 0x1FFFFC =? start)); [apply Hstop; reflexivity|].
      cbn [orb] in E. rewrite E. apply Hstop. reflexivity. }
    apply orb_false_iff in E as [E E2]. apply orb_false_iff in E as [E0 E1]. rewrite E0, E1, E2.
    destruct (IH (Z.land (ll_next ram addr) 0x1FFFFC) (mkLlEnd (ll_count e + 1) (ll_total e + (c + 1)) false) y eq_refl ltac:(cbn; lia) ltac:(cbn [ll_total]; lia)) as (done & z & Hp & Hw & Hd).
    exists done, z. split; [exact Hp|]. rewrite Hw. split.
    + cbn [ll_count ll_total ll_moved fold_right]. fold c. fold (ll_moved ram (ll_path fuel ram start (Z.land (ll_next ram addr) 0x1FFFFC))). apply end_eq; [unfold zlen; cbn [length]; lia | lia].
    + rewrite Hd. apply goes_on, Es.
Qed.

(** ** An upload that continues in the next packet *)

Lemma store_pixel_words p g : gpu_transfer_words (tx (store_pixel p g)) = gpu_transfer_words (tx g).
Proof.
  unfold store_pixel. cbv zeta. destruct (_ <? s32 _); [|reflexivity]. destruct (_ && _); [|reflexivity]. destruct (_ || _); reflexivity.
Qed.

Lemma transfer_word_counts d x : gpu_transfer_words (tx (gp (transfer_word d x))) = gpu_transfer_words (tx (gp x)) - 1.
Proof.
  unfold transfer_word.
  assert (Hc : forall y, gpu_transfer_words (tx (gp (transfer_count d y))) = gpu_transfer_words (tx (gp y)) - 1).
  { intros y. unfold transfer_count. cbv zeta. destruct (_ =? 0); [destruct (1024 <? _)|]; cbn; lia. }
  rewrite Hc. f_equal. unfold transfer_store. destruct (0 <? _); [|reflexivity]. cbv zeta.
  match goal with |- context [upd_gpu (fun g => store_pixel ?a (store_pixel ?b g)) x] =>
    change (gp (upd_gpu _ x)) with (store_pixel a (store_pixel b (gp x))) end.
  rewrite !store_pixel_words. reflexivity.
Qed.

Lemma pending_word_counts d x : 0 < gpu_transfer_words (tx (gp x)) ->
  gpu_transfer_words (tx (gp (GPU_WriteGP0 d x))) = gpu_transfer_words (tx (gp x)) - 1.
Proof.
  intros Hp. unfold GPU_WriteGP0. cbv zeta.
  set (x1 := if gpu_pending_vblank_flush (gp x) then _ else x).
  assert (E : tx (gp x1) = tx (gp x)) by (subst x1; destruct (gpu_pending_vblank_flush (gp x)); reflexivity).
  rewrite E, (proj2 (Z.ltb_lt 0 _)) by exact Hp. rewrite transfer_word_counts, E. reflexivity.
Qed.

Lemma pending_words_count data i m x : 0 <= m <= gpu_transfer_words (tx (gp x)) ->
  gpu_transfer_words (tx (gp (write_words data i m x))) = gpu_transfer_words (tx (gp x)) - m.
Proof.
  intros Hm. rewrite <- (Z2Nat.id m) by lia. assert (Hle : Z.of_nat (Z.to_nat m) <= gpu_transfer_words (tx (gp x))) by lia.
  induction (Z.to_nat m) as [|k IH]; [change (write_words data i (Z.of_nat 0) x) with x; lia|].
  rewrite Nat2Z.inj_succ, <- Z.add_1_r, write_words_S by lia. specialize (IH ltac:(lia)).
  rewrite pending_word_counts by lia. lia.
Qed.

Lemma block_takes_pending data n x : 0 <= n <= gpu_transfer_words (tx (gp x)) ->
  gpu_transfer_words (tx (gp (GPU_ProcessDmaBlock data n x))) = gpu_transfer_words (tx (gp x)) - n.
Proof.
  intros Hn. unfold GPU_ProcessDmaBlock.
  destruct (feed_while_eq data (Z.to_nat n) 0 n x ltac:(lia) ltac:(lia)) as (j & -> & Hj & Hb).
  rewrite Z.sub_0_r in *. assert (j = n) as ->.
  { destruct (Z.eq_dec j n) as [E|E]; [exact E|]. exfalso. specialize (Hb ltac:(lia)). unfold busy_parsing in Hb.
    rewrite pending_words_count in Hb by lia. rewrite (proj2 (Z.ltb_lt 0 _)) in Hb by lia. discriminate. }
  destruct (Z.to_nat n); cbn [block_loop]; rewrite ?Z.ltb_irrefl; apply pending_words_count; lia.
Qed.

(** A command the packet loop gives to the renderer leaves the upload alone. *)
Definition drawn_word (d : Z) : Prop := Z.shiftr d 24 <= 0x7F /\ gpu_cmd_size (Z.shiftr d 24) <> 0.

Lemma ll_round_drawn ram count i addr x : mem_ok ram -> drawn_word (rd32 ram addr) ->
  exists s y, ll_round ram count i addr x = (i + s, wrap_addr (addr + s * 4), y) /\ 0 < s /\ tx (gp y) = tx (gp x).
Proof.
  intros Hm [H7 Hz]. unfold ll_round. cbv zeta.
  pose proof (byte_range _ (rd32_range ram addr Hm)) as Hr.
  assert (E0 : ram_words ram addr 0 = rd32 ram addr) by (unfold ram_words; f_equal; lia). rewrite E0.
  rewrite (proj2 (Z.eqb_neq _ 0) Hz), (proj2 (Z.leb_le _ 0x7F) H7).
  pose proof (rl_batch (ram_words ram addr) x) as Hb. destruct (Gpu.GPU_TryBatchAdd (ram_words ram addr) x) as [s y].
  destruct Hb as (Ht & _). cbn [snd] in Ht. destruct (Z.ltb_spec 0 s); [exists s, y; auto|].
  pose proof (drawn_size (ram_words ram addr) (call C_FlushBatch y)) as Hd.
  pose proof (rl_fast_parser (ram_words ram addr) (call C_FlushBatch y)) as (Hf & _).
  destruct (GPU_TryFastEmit (ram_words ram addr) (call C_FlushBatch y)) as [s1 y1]. cbn [snd] in Hf.
  destruct (s1 <=? 0).
  - pose proof (rl_parser (ram_words ram addr) y1) as (Hp & _).
    destruct (Translate_GP0_to_GS _ y1) as [s2 y2]. cbn [fst snd] in *.
    exists s2, y2. split; [reflexivity|]. split; [lia|]. rewrite Hp, Hf. exact Ht.
  - cbn [fst] in Hd. exists s1, y1. split; [reflexivity|]. split; [lia|]. rewrite Hf. exact Ht.
Qed.

Lemma wrap_addr_small a : 0 <= a < 0x200000 -> a mod 4 = 0 -> wrap_addr a = a.
Proof.
  intros Ha Hm. unfold wrap_addr. rewrite u32_small by (unfold is_u32; lia).
  apply Z.bits_inj'. intros k Hk. rewrite Z.land_spec.
  destruct (Z_lt_ge_dec k 2) as [H2|H2].
  - assert (Hb : Z.testbit a k = false).
    { pose proof (Z.div_mod a 4 ltac:(lia)) as Hdm. replace a with (Z.shiftl (a / 4) 2) by (rewrite Z.shiftl_mul_pow2 by lia; lia). apply Z.shiftl_spec_low. exact H2. }
    rewrite Hb. reflexivity.
  - destruct (Z_lt_ge_dec k 21) as [H3|H3].
    + assert (Hb : Z.testbit 0x1FFFFC k = true).
      { assert (Hin : forallb (fun j => Z.testbit 0x1FFFFC (2 + j)) (zseq 19) = true) by reflexivity.
        rewrite forallb_forall in Hin. replace k with (2 + (k - 2)) by lia. apply Hin, in_zseq. lia. }
      rewrite Hb, andb_true_r. reflexivity.
    + assert (Hb : Z.testbit a k = false).
      { destruct (Z.eq_dec a 0) as [->|Hne]; [apply Z.testbit_0_l|]. apply Z.bits_above_log2; [lia|]. pose proof (Z.log2_lt_pow2 a 21 ltac:(lia)). lia. }
      rewrite Hb. reflexivity.
Qed.

Lemma ll_words_drawn ram count addr : mem_ok ram -> 0 <= addr -> addr mod 4 = 0 -> addr + 4 * count <= 0x200000 ->
  (forall k, 0 <= k < count -> drawn_word (rd32 ram (addr + 4 * k))) ->
  forall fuel i a x, 0 <= i -> count - i <= Z.of_nat fuel -> (i < count -> a = addr + 4 * i) ->
  exists y, ll_words fuel ram count i a x = Some y /\ tx (gp y) = tx (gp x).
Proof.
  intros Hm H0 H4 Hfit Hw. induction fuel as [|fuel IH]; intros i a x Hi Hf Ha; cbn [ll_words].
  - rewrite (proj2 (Z.ltb_ge i count)) by lia. exists x. auto.
  - destruct (Z.ltb_spec i count) as [Hlt|Hge]; [|exists x; auto]. rewrite (Ha Hlt) in *.
    destruct (ll_round_drawn ram count i (addr + 4 * i) x Hm (Hw i ltac:(lia))) as (s & y & -> & Hs & Ht).
    destruct (IH (i + s) (wrap_addr (addr + 4 * i + s * 4)) y ltac:(lia) ltac:(lia)) as (y' & -> & Hy').
    + intros Hlt'. rewrite wrap_addr_small; [lia | lia |].
      replace (addr + 4 * i + s * 4) with (addr + (i + s) * 4) by lia. rewrite Z.mod_add by lia. exact H4.
    + exists y'. rewrite Hy'. auto.
Qed.

(** An upload that continues in the next packet of a display list is
    not received: the packet loop continues a polyline that is in progress but
    not an upload, and takes the data words for commands.  A packet of words
    with a top byte of at most 7Fh (dark pixels, say) leaves the upload
    exactly where it was, while the block dispatch, like the port, receives
    every one of the same words. *)
Theorem list_drops_split_upload ram count addr x : mem_ok ram ->
  0 <= addr -> addr mod 4 = 0 -> addr + 4 * count <= 0x200000 ->
  (forall k, 0 <= k < count -> drawn_word (rd32 ram (addr + 4 * k))) ->
  polyline_active (poly (gp x)) = false -> 0 < count <= gpu_transfer_words (tx (gp x)) ->
  (exists y, ll_packet ram count addr x = Some y /\ tx (gp y) = tx (gp x)) /\
  gpu_transfer_words (tx (gp (GPU_ProcessDmaBlock (ram_words ram addr) count x))) = gpu_transfer_words (tx (gp x)) - count.
Proof.
  intros Hm H0 H4 Hfit Hw Hp Hc. split; [|apply block_takes_pending; lia].
  unfold ll_packet. rewrite Hp. apply (ll_words_drawn ram count addr); try assumption; lia.
Qed.

(** ** Settings read back through a query *)

Lemma land_lor_upper a d m n : Z.land m n = 0 -> Z.land (Z.lor (Z.land a m) (Z.land (Z.land d n) n)) n = Z.land d n.
Proof.
  intros Hmn. rewrite Z.land_lor_distr_l, <- !Z.land_assoc, Hmn, !Z.land_diag, Z.land_0_r, Z.lor_0_l. reflexivity.
Qed.

(** GP1(10h) reads back the drawing environment: after the commands
    GP0(E2h) to GP0(E5h) the query with the same number makes the next read
    return the argument's 20 bits (22 for the drawing offset), whether or not
    the command was skipped as a repetition. *)
Theorem gpu_query_roundtrip k data x : idle (gp x) -> is_u32 data -> 2 <= k <= 5 ->
  Z.shiftr data 24 = 0xE0 + k -> vram_read_remaining (rdx (gp x)) <= 0 ->
  let m := if k =? 5 then 0x3FFFFF else 0xFFFFF in
  Z.land (fst (GPU_Read (gp (GPU_WriteGP1 (0x10000000 + k) (GPU_WriteGP0 data x))))) m = Z.land data m.
Proof.
  intros Hid Hu Hk Hc Hr. cbv zeta. rewrite idle_first by exact Hid. unfold first_word. rewrite cmd_byte_small by exact Hu. rewrite Hc.
  assert (Hread : forall g, vram_read_remaining (rdx g) = vram_read_remaining (rdx (gp x)) -> GPU_Read g = (gpu_read g, g)).
  { intros g E. unfold GPU_Read. rewrite E, (proj2 (Z.ltb_ge 0 _)) by exact Hr. reflexivity. }
  assert (Hcases : k = 2 \/ k = 3 \/ k = 4 \/ k = 5) by lia.
  destruct Hcases as [-> | [-> | [-> | ->] ] ].
  - rewrite Hread by reflexivity. apply (land_lor_upper _ data 0xFFF00000 0xFFFFF). reflexivity.
  - match goal with |- context [GPU_WriteGP1 _ ?y] => change y with (draw_area_tl data x) end. unfold draw_area_tl. cbv zeta.
    destruct (_ =? _); (rewrite Hread by reflexivity; apply (land_lor_upper _ data 0xFFF00000 0xFFFFF); reflexivity).
  - match goal with |- context [GPU_WriteGP1 _ ?y] => change y with (draw_area_br data x) end. unfold draw_area_br. cbv zeta.
    destruct (_ =? _); (rewrite Hread by reflexivity; apply (land_lor_upper _ data 0xFFF00000 0xFFFFF); reflexivity).
  - match goal with |- context [GPU_WriteGP1 _ ?y] => change y with (draw_offset data x) end. unfold draw_offset. cbv zeta.
    destruct (_ =? _); (rewrite Hread by reflexivity; apply (land_lor_upper _ data 0xFFC00000 0x3FFFFF); reflexivity).
Qed.

(** ** The interrupt request *)

(** The interrupt of GP0(1Fh) is raised once: while bit 24 of the status
    is set a further request changes nothing, and GP1(02h) clears the bit so
    that the next request raises the interrupt again. *)
Theorem gpu_irq_once d d' x : is_u32 d -> Z.shiftr d 24 = 0x1F -> Z.land (Z.shiftr d' 24) 0xFF = 2 -> idle (gp x) ->
  (tst (gpu_stat (gp x)) 0x01000000 = true -> GPU_WriteGP0 d x = x) /\
  (let y := GPU_WriteGP0 d (GPU_WriteGP1 d' x) in
   sys y = SignalInterrupt 1 (sys x) /\ tst (gpu_stat (gp y)) 0x01000000 = true /\ GPU_WriteGP0 d y = y).
Proof.
  intros Hu Hc Hc' Hid.
  assert (Hreq : forall z, idle (gp z) -> GPU_WriteGP0 d z = irq_request z).
  { intros z Hz. rewrite idle_first by exact Hz. unfold first_word. rewrite cmd_byte_small by exact Hu. rewrite Hc. reflexivity. }
  assert (Hack : GPU_WriteGP1 d' x = set_stat (fun v => Z.land v (not32 0x01000000)) x) by (unfold GPU_WriteGP1; rewrite Hc'; reflexivity).
  assert (Hid' : idle (gp (GPU_WriteGP1 d' x))) by (rewrite Hack; destruct Hid; split; assumption).
  assert (Hclr : tst (gpu_stat (gp (GPU_WriteGP1 d' x))) 0x01000000 = false).
  { rewrite Hack. change (tst (Z.land (gpu_stat (gp x)) (not32 0x01000000)) 0x01000000 = false). unfold tst.
    rewrite <- Z.land_assoc. change (Z.land (not32 0x01000000) 0x01000000) with 0. rewrite Z.land_0_r. reflexivity. }
  split.
  - intros Hs. rewrite Hreq by exact Hid. unfold irq_request. rewrite Hs. reflexivity.
  - cbv zeta. rewrite (Hreq (GPU_WriteGP1 d' x)) by exact Hid'.
    assert (Hy : irq_request (GPU_WriteGP1 d' x)
      = upd_rest (SignalInterrupt 1) (set_stat (fun v => Z.lor v 0x01000000) (GPU_WriteGP1 d' x)))
      by (unfold irq_request; rewrite Hclr; reflexivity).
    assert (Hset : tst (gpu_stat (gp (irq_request (GPU_WriteGP1 d' x)))) 0x01000000 = true).
    { rewrite Hy. change (tst (Z.lor (gpu_stat (gp (GPU_WriteGP1 d' x))) 0x01000000) 0x01000000 = true). unfold tst.
      rewrite Z.land_lor_distr_l. change (Z.land 0x01000000 0x01000000) with 0x01000000.
      apply negb_true_iff, Z.eqb_neq. intros E. apply Z.lor_eq_0_iff in E. destruct E as [_ E]. discriminate. }
    split; [rewrite Hy, Hack; reflexivity|]. split; [exact Hset|].
    rewrite Hreq by (rewrite Hy; destruct Hid'; split; assumption). unfold irq_request at 1. rewrite Hset. reflexivity.
Qed.
End Lists.

(** ** Examples *)

(** Two packets: a fill at 100h with the next at 200h, which ends the list. *)
Definition list_ram : gmap Z Z :=
  wr32 (wr32 (wr32 (wr32 (wr32 (wr32 ∅ 0x100 0x03000200) 0x104 0x02112233) 0x108 0x00100010) 0x10C 0x00080008) 0x200 0x01FFFFFF) 0x204 0xE1000508.

Lemma list_ram_ok : mem_ok list_ram.
Proof. repeat apply mem_ok_wr32. apply map_Forall_empty. Qed.

Lemma list_walk_exact_witness :
  ll_path (Z.to_nat max_packets) list_ram 0x100 0x100 = [0x100; 0x200] /\
  exists y, ll_walk (Z.to_nat max_packets) list_ram 0x100 0x100 (mkLlEnd 0 0 false) renderer_start = Some (mkLlEnd 2 6 true, y).
Proof.
  assert (Hp : ll_path (Z.to_nat max_packets) list_ram 0x100 0x100 = [0x100; 0x200]) by (vm_compute; reflexivity).
  destruct (list_walk_exact list_ram 0x100 (Z.to_nat max_packets) list_ram_ok 0x100 (mkLlEnd 0 0 false) renderer_start eq_refl (Z.le_refl 0)
    ltac:(rewrite Z2Nat.id by discriminate; reflexivity))
    as (done & y & _ & Hw & Hc).
  split; [exact Hp|]. exists y. rewrite Hp in Hw. rewrite Hw.
  rewrite (proj2 Hc); [vm_compute; reflexivity|]. exists 2%nat. split; [unfold max_packets; lia|].
  apply marked_next; [vm_compute; discriminate | vm_compute; discriminate | vm_compute; discriminate | reflexivity|].
  apply marked_end. vm_compute. reflexivity.
Defined.

(** An upload of eight words is in progress; the next packet holds three. *)
Definition pending_start : GpuSys Prim :=
  upd_tx (fun _ => mkVramTx 8 8 0 0 4 4 0) renderer_start.

Lemma list_drops_split_upload_witness :
  gpu_transfer_words (tx (gp (GPU_ProcessDmaBlock (ram_words list_ram 0x104) 3 pending_start))) = 5 /\
  exists y, ll_packet list_ram 3 0x104 pending_start = Some y /\ gpu_transfer_words (tx (gp y)) = 8.
Proof.
  destruct (list_drops_split_upload list_ram 3 0x104 pending_start list_ram_ok ltac:(lia) eq_refl ltac:(lia)) as [ (y & Hy & Ht) Hb].
  - intros k Hk. assert (Hc : k = 0 \/ k = 1 \/ k = 2) by lia. destruct Hc as [-> | [-> | ->] ]; split; vm_compute; discriminate.
  - reflexivity.
  - cbn. lia.
  - split; [exact Hb|]. exists y. split; [exact Hy | rewrite Ht; reflexivity].
Defined.

Lemma gpu_query_roundtrip_witness :
  Z.land (fst (GPU_Read (gp (GPU_WriteGP1 0x10000005 (GPU_WriteGP0 0xE5012345 renderer_start))))) 0x3FFFFF = 0x012345.
Proof. exact (gpu_query_roundtrip 5 0xE5012345 renderer_start renderer_start_idle ltac:(unfold is_u32; lia) ltac:(lia) eq_refl ltac:(cbn; lia)). Defined.

Lemma gpu_irq_once_witness :
  GPU_WriteGP0 0x1F000000 (GPU_WriteGP0 0x1F000000 (GPU_WriteGP1 0x02000000 renderer_start)) = GPU_WriteGP0 0x1F000000 (GPU_WriteGP1 0x02000000 renderer_start).
Proof.
  destruct (gpu_irq_once 0x1F000000 0x02000000 renderer_start ltac:(unfold is_u32; lia) eq_refl eq_refl renderer_start_idle) as (_ & _ & _ & H3).
  exact H3.
Defined.
