(* ===== verification/PrimMath.v ===== *)
(** * The renderer's short cuts

    The fast path draws what the general translator draws; the lazily written
    registers hold what a polygon wants, and where they do not; a fill writes
    its rectangle. *)

From S2P Require Import Prelude Scheduler System Gpu Gif GifMath Texture Primitives.

Section Shortcuts.
Context {SDK : GsSdk}.
Implicit Types x : GpuSys Prim.

(** ** The words of a polygon *)

Lemma parse_vertices_len sh tx psx_cmd (is_quad : bool) :
  zlen (fst (parse_vertices sh tx psx_cmd (if is_quad then 4 else 3))) = if is_quad then 4 else 3.
Proof. destruct sh, tx, is_quad; reflexivity. Qed.

Lemma parse_vertices_uv sh psx_cmd (is_quad : bool) :
  let verts := fst (parse_vertices sh true psx_cmd (if is_quad then 4 else 3)) in
  v_uv (vert verts 0) = psx_cmd 2 /\ v_uv (vert verts 1) = psx_cmd (if sh then 5 else 4).
Proof. destruct sh, is_quad; split; reflexivity. Qed.

(** ** The fast path *)

Lemma zlen_quad {A} (is_quad : bool) (l : list A) : zlen l = (if is_quad then 4 else 3) -> (if is_quad then 4 else 3) = zlen l.
Proof. intros ->. reflexivity. Qed.

Lemma state_fast_here a u key (s : GsState) :
  gs_valid s = true -> (key =? last_cmd_key s) = true ->
  (a_textured a = true -> u_hit u && (u_slot u =? last_cache_slot s) && (negb (u_csm u) || (gs_texclut s =? texclut_of u)) = true) ->
  state_fast a u key s = true.
Proof. intros Hv Hk Ht. unfold state_fast. rewrite Hv, Hk. destruct (a_textured a); [rewrite Ht by reflexivity; reflexivity | reflexivity]. Qed.

(** On the fast path the lazy state has nothing to update. *)
Lemma upd_gs_same key (f : Z -> Z) x : (key =? last_cmd_key (gs (prm x))) = true -> f (last_cache_slot (gs (prm x))) = last_cache_slot (gs (prm x)) ->
  upd_gs (fun s => s <| last_cmd_key := key |> <| last_cache_slot ::= f |>) x = x.
Proof.
  intros Hk Hl. destruct x as [ [g p] y]. apply Z.eqb_eq in Hk. subst key. 
  destruct p as [s tc gf b e]. destruct s as [s1 s2 s3 s4 s5 s6 s7 s8 s9]. cbn in Hl. exact (f_equal (fun k => (g, mkPrim (mkGsState s1 s2 s3 s4 s5 s6 s7 s8 k) tc gf b e, y)) Hl).
Qed.

(** What a polygon does once its texture is found and only PRIM has to be
    written. *)
Lemma emit_poly_fast verts n cmd px py u x x1 :
  let a := poly_attrs cmd (dither_enabled (tex (gp x))) in
  (if a_textured a then find_texture (tex_page_format (tex (gp x))) px py (v_uv (vert verts 0)) x else (no_texture, x)) = (u, x1) ->
  state_fast a u (cmd_key a (semi_trans_mode (tex (gp x1)))) (gs (prm x1)) = true ->
  emit_poly_state_and_verts verts n cmd px py x =
    upd_gif (push_vertices (a_textured a) (zlen verts) (poly_vdata a u (tex (gp x1)) (env (gp x1)) px py verts))
      (upd_gif (push_state 0 [] (prim_bits n a)) x1).
Proof.
  intros a Hu Hf. unfold emit_poly_state_and_verts, poly_state. fold a. cbv zeta. rewrite Hu, Hf.
  unfold state_fast in Hf. rewrite upd_gs_same; [reflexivity| |].
  - change (gs (prm (upd_gif (push_state 0 [] (prim_bits n a)) x1))) with (gs (prm x1)).
    destruct (_ =? _); [reflexivity|]. destruct (gs_valid _); discriminate.
  - change (gs (prm (upd_gif (push_state 0 [] (prim_bits n a)) x1))) with (gs (prm x1)).
    destruct (a_textured a); [|reflexivity]. cbn [negb orb] in Hf.
    destruct (u_slot u =? _) eqn:E; [apply Z.eqb_eq, E|].
    rewrite andb_false_r, andb_false_l, andb_false_r in Hf. discriminate.
Qed.

(** A current page is found the same way by both paths. *)
Lemma same_texture_found fmt px py uv x u x1 : same_texture fmt px py uv x = (true, u, x1) ->
  find_texture fmt px py uv x = (u, x1) /\ u_hit u = true /\
  (u_slot u =? last_cache_slot (gs (prm x1))) && (negb (u_csm u) || (gs_texclut (gs (prm x1)) =? texclut_of u)) = true /\
  gp x1 = gp x /\ gs (prm x1) = gs (prm x).
Proof.
  destruct x as [ [g p] y]. destruct p as [s tc gf b e]. unfold same_texture, find_texture, use_page. cbn -[prim_tex_cache_lookup texture_of texclut_of].
  destruct (prim_tex_cache_lookup _ _ _ _ _) as [hit t] eqn:E. intros H. injection H as Hc <- <-.
  destruct hit; [|discriminate]. split; [reflexivity|]. split; [reflexivity|]. split; [exact Hc|]. split; reflexivity.
Qed.

Lemma find_texture_moved fmt px py uv tp n x u x1 : find_texture fmt px py uv x = (u, x1) ->
  find_texture fmt px py uv (add_pixels n (set_tpage tp x)) = (u, add_pixels n (set_tpage tp x1)).
Proof.
  destruct x as [ [g p] y]. unfold find_texture. cbn -[use_page texture_of].
  destruct (use_page _ _ _ _ _ _ _ _ _) as [ [hit t] gf]. intros H. injection H as <- <-. reflexivity.
Qed.

(** [C15] The fast path for polygons is the general translator: whenever it takes a
    polygon, the translator would have consumed the same words and left the
    same state - the same packets, lazy registers, page cache, batch, pixel
    estimate and texture page - provided a textured polygon keeps the blending
    mode that is set (otherwise the fast path draws with the old one).  *)
Theorem fast_polygon_exact psx_cmd x s x' :
  fast_polygon psx_cmd x = (s, x') -> s <> 0 ->
  (tst (cmd_byte psx_cmd) 0x04 = true -> Z.land (Z.shiftr (tpage_of (cmd_byte psx_cmd) psx_cmd) 5) 3 = semi_trans_mode (tex (gp x))) ->
  translate_polygon psx_cmd x = (s, x').
Proof.
  intros Hf Hs Hm. unfold fast_polygon in Hf. cbv zeta in Hf.
  set (cmd := cmd_byte psx_cmd) in *. set (a := poly_attrs cmd _) in Hf.
  destruct (gs_valid (gs (prm x))) eqn:Hv; [|injection Hf; congruence].
  destruct (cmd_key a _ =? _) eqn:Hk; [|injection Hf; congruence]. cbn [negb orb] in Hf.
  unfold translate_polygon. fold cmd. cbv zeta.
  change (a_textured a) with (tst cmd 0x04) in Hf. change (a_shaded a) with (tst cmd 0x10) in Hf.
  pose proof (parse_vertices_len (tst cmd 0x10) (tst cmd 0x04) psx_cmd (tst cmd 0x08)) as Hlen.
  pose proof (parse_vertices_uv (tst cmd 0x10) psx_cmd (tst cmd 0x08)) as Huv.
  destruct (tst cmd 0x04) eqn:Htx.
  - specialize (Hm eq_refl).
    destruct (same_texture _ _ _ _ _) as [ [same u] x1] eqn:Est. destruct same; [|injection Hf; congruence]. cbn [negb] in Hf.
    destruct (same_texture_found _ _ _ _ _ _ _ Est) as (Hfind & Hh & Hsl & Hg & Hgs).
    destruct (parse_vertices _ _ _ _) as [verts idx]. cbn [fst snd] in Hlen, Huv. destruct Huv as [H0 H1].
    apply pair_equal_spec in Hf as [<- <-]. f_equal.
    assert (Htp : Z.shiftr (v_uv (vert verts 1)) 16 = tpage_of cmd psx_cmd) by (rewrite H1; reflexivity).
    rewrite Htp. set (tp := tpage_of cmd psx_cmd) in *. clearbody tp.
    rewrite (emit_poly_fast _ _ _ _ _ u _ (add_pixels (poly_area verts (tst cmd 8)) (set_tpage tp x1))).
    + rewrite <- (zlen_quad _ _ Hlen). change (a_textured _) with (tst cmd 4). rewrite Htx. destruct x1 as [ [g p] y].
      unfold gp in Hg. cbn [fst] in Hg. subst g. reflexivity.
    + change (a_textured _) with (tst cmd 4). rewrite Htx, H0. exact (find_texture_moved _ _ _ _ tp _ _ _ _ Hfind).
    + apply state_fast_here.
      * change (gs (prm (add_pixels _ _))) with (gs (prm x1)). rewrite Hgs. exact Hv.
      * change (gs (prm (add_pixels _ _))) with (gs (prm x1)). rewrite Hgs.
        change (semi_trans_mode _) with (Z.land (Z.shiftr tp 5) 3). rewrite Hm. exact Hk.
      * intros _. change (gs (prm (add_pixels _ _))) with (gs (prm x1)). rewrite Hh. exact Hsl.
  - clear Huv. destruct (parse_vertices _ _ _ _) as [verts idx]. cbn [fst snd negb] in Hlen, Hf. apply pair_equal_spec in Hf as [<- <-]. f_equal.
    rewrite (emit_poly_fast _ _ _ _ _ no_texture _ (add_pixels (poly_area verts (tst cmd 8)) x)).
    + rewrite <- (zlen_quad _ _ Hlen). change (a_textured _) with (tst cmd 4). rewrite Htx. destruct x as [ [g p] y]. reflexivity.
    + change (a_textured _) with (tst cmd 4). rewrite Htx. reflexivity.
    + apply state_fast_here; [exact Hv | exact Hk |]. change (a_textured _) with (tst cmd 4). congruence.
Qed.

(** ** The lazily written registers

    The chip keeps the last value written to each register.  [tracks] allows a
    tracked value to be unknown. *)

Definition write_regs (regs : list Qword) (c : gmap Z Z) : gmap Z Z := fold_left (fun c q => <[snd q := fst q]> c) regs c.

Definition lazy_regs : list GsReg := [DTHE; ALPHA_1; CLAMP_1; TEXCLUT; TEX0; TEXFLUSH; TEST_1].

(** What the SDK promises: registers have addresses of their own, and no
    register uses all its bits. *)
Record SdkLaws : Prop := {
  sl_distinct : forall r1 r2, In r1 lazy_regs -> In r2 lazy_regs -> GS_REG r1 = GS_REG r2 -> r1 = r2;
  sl_set : forall r fields, GS_SET r fields <> UINT64_MAX;
  sl_test : forall check, tex_test check <> UINT64_MAX
}.

Definition tracks (r : GsReg) (v : Z) (c : gmap Z Z) : Prop := v = UINT64_MAX \/ c !! GS_REG r = Some v.

Record coherent_regs (s : GsState) (c : gmap Z Z) : Prop := {
  co_clamp : tracks CLAMP_1 (gs_clamp s) c;
  co_texclut : tracks TEXCLUT (gs_texclut s) c;
  co_rest : gs_valid s = true -> tracks TEX0 (gs_tex0 s) c /\ tracks TEST_1 (gs_test s) c /\ tracks ALPHA_1 (gs_alpha s) c /\ tracks DTHE (gs_dthe s) c
}.

(** What a polygon wants is what the chip has. *)
Record wants_hold (a : Attrs) (u : TexUse) (w : Wants) (c : gmap Z Z) : Prop := {
  wh_dthe : c !! GS_REG DTHE = Some (w_dthe w);
  wh_alpha : a_semi a = true -> c !! GS_REG ALPHA_1 = Some (w_alpha w);
  wh_tex : a_textured a = true -> c !! GS_REG TEX0 = Some (w_tex0 w) /\ c !! GS_REG TEST_1 = Some (w_test w);
  wh_clamp : a_textured a && u_hw u = true -> c !! GS_REG CLAMP_1 = Some (w_clamp w);
  wh_texclut : a_textured a && u_hw u && u_csm u = true -> c !! GS_REG TEXCLUT = Some (w_texclut w)
}.

Section Laws.
Context (Hsdk : SdkLaws).

Lemma write_regs_app l1 l2 c : write_regs (l1 ++ l2) c = write_regs l2 (write_regs l1 c).
Proof. apply fold_left_app. Qed.

Lemma opt_write (b : bool) v r c k : write_regs (opt_regs b [(v, r)]) c !! k = if b && (r =? k) then Some v else c !! k.
Proof.
  destruct b; [|reflexivity]. cbn. destruct (Z.eqb_spec r k) as [->|H]; [apply lookup_insert_eq | apply lookup_insert_ne, H].
Qed.

Lemma reg_eqb r1 r2 : In r1 lazy_regs -> In r2 lazy_regs -> r1 <> r2 -> (GS_REG r1 =? GS_REG r2) = false.
Proof. intros H1 H2 Hn. apply Z.eqb_neq. intros E. apply Hn, (sl_distinct Hsdk); assumption. Qed.

(** The registers after the state packet. *)
Lemma state_regs_written e w c :
  let c' := write_regs (state_regs e w) c in
  c' !! GS_REG DTHE = (if em_dthe e then Some (w_dthe w) else c !! GS_REG DTHE) /\
  c' !! GS_REG ALPHA_1 = (if em_alpha e then Some (w_alpha w) else c !! GS_REG ALPHA_1) /\
  c' !! GS_REG CLAMP_1 = (if em_clamp e then Some (w_clamp w) else c !! GS_REG CLAMP_1) /\
  c' !! GS_REG TEXCLUT = (if em_texclut e then Some (w_texclut w) else c !! GS_REG TEXCLUT) /\
  c' !! GS_REG TEX0 = (if em_tex0 e then Some (w_tex0 w) else c !! GS_REG TEX0) /\
  c' !! GS_REG TEST_1 = (if em_test e then Some (w_test w) else c !! GS_REG TEST_1).
Proof.
  assert (Htex : opt_regs (em_tex0 e) ((w_tex0 w, GS_REG TEX0) :: opt_regs (w_texflush w) [(0, GS_REG TEXFLUSH)]) =
    opt_regs (em_tex0 e) [(w_tex0 w, GS_REG TEX0)] ++ opt_regs (em_tex0 e && w_texflush w) [(0, GS_REG TEXFLUSH)]).
  { destruct (em_tex0 e), (w_texflush w); reflexivity. }
  unfold state_regs. rewrite Htex, !write_regs_app. cbv zeta. rewrite !opt_write, !Z.eqb_refl.
  rewrite !reg_eqb by (try discriminate; cbn; tauto). rewrite !andb_true_r, !andb_false_r. repeat split.
Qed.

(** A register that is wanted is there afterwards: either it is written, or its
    tracked value is the wanted one. *)
Lemma lazy_holds (valid em : bool) tracked want r c : want <> UINT64_MAX -> (valid = true -> tracks r tracked c) ->
  (negb valid || negb (tracked =? want) = true -> em = true) ->
  (if em then Some want else c !! GS_REG r) = Some want.
Proof.
  intros Hw Ht Hem. destruct em; [reflexivity|]. destruct valid; cbn in Hem; [|discriminate (Hem eq_refl)].
  destruct (Z.eqb_spec tracked want) as [->|]; [|discriminate (Hem eq_refl)]. destruct (Ht eq_refl); [contradiction | assumption].
Qed.

Lemma poly_wants_real a u t check :
  let w := poly_wants a u t check in
  w_dthe w <> UINT64_MAX /\ (a_semi a = true -> w_alpha w <> UINT64_MAX) /\
  (a_textured a = true -> w_tex0 w <> UINT64_MAX /\ w_test w <> UINT64_MAX) /\
  (a_textured a && u_hw u = true -> w_clamp w <> UINT64_MAX) /\
  (a_textured a && u_hw u && u_csm u = true -> w_texclut w <> UINT64_MAX).
Proof.
  pose proof (sl_set Hsdk) as Hset. cbn. repeat split.
  - destruct (a_dither a); discriminate.
  - intros ->. unfold Get_Alpha_Reg. destruct (Z.land _ 3) as [|[p|[p|p|]|]|p]; apply Hset.
  - rewrite H. unfold tex0_of. destruct (u_hw u); [destruct (u_csm u); apply Hset|]. destruct (u_decoded u); apply Hset.
  - rewrite H. apply (sl_test Hsdk).
  - intros ->. unfold Compute_TexWin_Clamp. destruct (_ && _); apply Hset.
  - intros ->. apply Hset.
Qed.

Definition poly_emits (s : GsState) (a : Attrs) (u : TexUse) (w : Wants) : Emits :=
  lazy_emits s w (a_semi a) (a_textured a) (a_textured a) (a_textured a && u_hw u) (a_textured a && u_hw u && u_csm u).

Lemma off_alpha a u t check s : a_semi a = false -> em_alpha (poly_emits s a u (poly_wants a u t check)) = false.
Proof. intros H. cbn. rewrite H. reflexivity. Qed.

(** After the general path the chip has what the polygon wants. *)
Lemma lazy_wants_hold a u t check s c : coherent_regs s c ->
  let w := poly_wants a u t check in
  wants_hold a u w (write_regs (state_regs (poly_emits s a u w) w) c).
Proof.
  intros Hc w. destruct (state_regs_written (poly_emits s a u w) w c) as (Hd & Ha & Hcl & Htc & Ht0 & Hte).
  destruct (poly_wants_real a u t check) as (Rd & Ra & Rt & Rcl & Rtc). fold w in Rd, Ra, Rt, Rcl, Rtc.
  pose proof (co_rest _ _ Hc) as Hr. clearbody w.
  split; [rewrite Hd | rewrite Ha | rewrite Ht0, Hte | rewrite Hcl | rewrite Htc].
  - eapply lazy_holds; [exact Rd | intros Hv; exact (proj2 (proj2 (proj2 (Hr Hv)))) | intros H; exact H].
  - intros H. eapply lazy_holds; [exact (Ra H) | intros Hv; exact (proj1 (proj2 (proj2 (Hr Hv)))) |].
    intros Hs. cbn. rewrite H. exact Hs.
  - intros H. destruct (Rt H) as [R0 R1]. split.
    + eapply lazy_holds; [exact R0 | intros Hv; exact (proj1 (Hr Hv)) |].
      intros Hs. cbn. rewrite Hs, H. cbn. rewrite andb_false_r. reflexivity.
    + eapply lazy_holds; [exact R1 | intros Hv; exact (proj1 (proj2 (Hr Hv))) |]. intros Hs. cbn. rewrite H. exact Hs.
  - intros H. eapply lazy_holds; [exact (Rcl H) | intros _; exact (co_clamp _ _ Hc) |]. intros Hs. cbn. rewrite H. exact Hs.
  - intros H. eapply lazy_holds; [exact (Rtc H) | intros _; exact (co_texclut _ _ Hc) |]. intros Hs. cbn. rewrite H. exact Hs.
Qed.

(** Registers a polygon has no use for are not written. *)
Lemma lazy_unused a u t check s c :
  let w := poly_wants a u t check in let c' := write_regs (state_regs (poly_emits s a u w) w) c in
  (a_semi a = false -> c' !! GS_REG ALPHA_1 = c !! GS_REG ALPHA_1) /\
  (a_textured a = false -> c' !! GS_REG TEX0 = c !! GS_REG TEX0 /\ c' !! GS_REG TEST_1 = c !! GS_REG TEST_1) /\
  (a_textured a && u_hw u = false -> c' !! GS_REG CLAMP_1 = c !! GS_REG CLAMP_1) /\
  (a_textured a && u_hw u && u_csm u = false -> c' !! GS_REG TEXCLUT = c !! GS_REG TEXCLUT).
Proof.
  intros w c'. destruct (state_regs_written (poly_emits s a u w) w c) as (_ & Ha & Hcl & Htc & Ht0 & Hte).
  subst c'. rewrite Ha, Hcl, Htc, Ht0, Hte. cbn -[poly_wants]. split; [|split; [|split]]; intros H; rewrite H; repeat split.
Qed.

Lemma tracks_eq r v c c' : c' !! GS_REG r = c !! GS_REG r -> tracks r v c -> tracks r v c'.
Proof. unfold tracks. intros ->. tauto. Qed.

Lemma tracks_want r v c : c !! GS_REG r = Some v -> tracks r v c.
Proof. right. assumption. Qed.

Lemma tracks_unknown r c : tracks r UINT64_MAX c.
Proof. left. reflexivity. Qed.

Lemma poly_track_fields a u w s :
  let s' := poly_track a u w s in
  let unknown (b : bool) v := if gs_valid s || b then v else UINT64_MAX in
  gs_valid s' = true /\ gs_dthe s' = w_dthe w /\
  gs_alpha s' = (if a_semi a then w_alpha w else unknown (a_semi a) (gs_alpha s)) /\
  gs_tex0 s' = (if a_textured a then w_tex0 w else unknown (a_textured a) (gs_tex0 s)) /\
  gs_test s' = (if a_textured a then w_test w else unknown (a_textured a) (gs_test s)) /\
  gs_clamp s' = (if a_textured a && u_hw u then w_clamp w else unknown (a_textured a) (gs_clamp s)) /\
  gs_texclut s' = (if a_textured a && u_hw u && u_csm u then w_texclut w else gs_texclut s).
Proof.
  unfold poly_track. destruct s as [s1 s2 s3 s4 s5 s6 v s8 s9]. cbn [gs_valid].
  destruct (a_textured a), (a_semi a), (u_hw u), (u_csm u), v; repeat split.
Qed.

Lemma lazy_coherent a u t check s c : coherent_regs s c ->
  let w := poly_wants a u t check in
  coherent_regs (poly_track a u w s) (write_regs (state_regs (poly_emits s a u w) w) c).
Proof.
  intros Hc w. destruct (lazy_wants_hold a u t check s c Hc) as [Wd Wa Wt Wcl Wtc]. fold w in Wd, Wa, Wt, Wcl, Wtc.
  destruct (lazy_unused a u t check s c) as (Ua & Ut & Ucl & Utc). fold w in Ua, Ut, Ucl, Utc.
  destruct (poly_track_fields a u w s) as (_ & Fd & Fa & F0 & Ft & Fc & Fx). destruct Hc as [Ccl Ctc Cr].
  set (c' := write_regs _ c) in *. clearbody c' w.
  split; [rewrite Fc | rewrite Fx | intros _; rewrite Fd, Fa, F0, Ft].
  - destruct (a_textured a && u_hw u); [apply tracks_want, Wcl; reflexivity|].
    destruct (gs_valid s || a_textured a); [exact (tracks_eq _ _ _ _ (Ucl eq_refl) Ccl) | apply tracks_unknown].
  - destruct (_ && u_csm u); [apply tracks_want, Wtc; reflexivity | exact (tracks_eq _ _ _ _ (Utc eq_refl) Ctc)].
  - split; [|split; [|split; [|apply tracks_want, Wd] ] ].
    + destruct (a_textured a); [apply tracks_want, (Wt eq_refl)|]. destruct (gs_valid s); [|apply tracks_unknown].
      exact (tracks_eq _ _ _ _ (proj1 (Ut eq_refl)) (proj1 (Cr eq_refl))).
    + destruct (a_textured a); [apply tracks_want, (Wt eq_refl)|]. destruct (gs_valid s); [|apply tracks_unknown].
      exact (tracks_eq _ _ _ _ (proj2 (Ut eq_refl)) (proj1 (proj2 (Cr eq_refl)))).
    + destruct (a_semi a); [apply tracks_want, Wa; reflexivity|]. destruct (gs_valid s); [|apply tracks_unknown].
      exact (tracks_eq _ _ _ _ (Ua eq_refl) (proj1 (proj2 (proj2 (Cr eq_refl))))).
Qed.

(** *** The polygon drawn last *)

(** [last_cmd_key] stands for the attributes of the last polygon: its values
    are the ones tracked. *)
Definition keyed (s : GsState) (tc : TexCache) (check : Z) : Prop :=
  gs_valid s = true -> 0 <= last_cmd_key s -> exists a m, 0 <= m < 4 /\ last_cmd_key s = cmd_key a m /\
    gs_dthe s = b2z (a_dither a) /\ (a_semi a = true -> gs_alpha s = Get_Alpha_Reg m) /\
    (a_textured a = true -> gs_test s = tex_test check /\
       gs_tex0 s = tex0_of (e_tex_format (prim_entry tc (last_cache_slot s))) (a_raw a)
                     (texture_of true 0 (tc <| prim_tex_cache_last := last_cache_slot s |>))).

Lemma cmd_key_sum a m : 0 <= m < 4 -> cmd_key a m = b2z (a_raw a) + 2 * b2z (a_dither a) + 4 * b2z (a_semi a) + 8 * m + 32 * b2z (a_textured a).
Proof.
  intros Hm. assert (Hc : m = 0 \/ m = 1 \/ m = 2 \/ m = 3) by lia. unfold cmd_key.
  destruct Hc as [-> | [-> | [-> | ->] ] ], (a_raw a), (a_dither a), (a_semi a), (a_textured a); reflexivity.
Qed.

Lemma cmd_key_inj a m a' m' : 0 <= m < 4 -> 0 <= m' < 4 -> cmd_key a m = cmd_key a' m' ->
  m = m' /\ a_raw a = a_raw a' /\ a_dither a = a_dither a' /\ a_semi a = a_semi a' /\ a_textured a = a_textured a'.
Proof.
  intros Hm Hm'. rewrite !cmd_key_sum by assumption.
  destruct (a_raw a), (a_raw a'), (a_dither a), (a_dither a'), (a_semi a), (a_semi a'), (a_textured a), (a_textured a');
    cbn; intros H; repeat split; lia.
Qed.

(** The texture a polygon is given is the last one looked up. *)
Definition found (a : Attrs) (u : TexUse) (tc : TexCache) (fmt : Z) : Prop :=
  a_textured a = true -> e_tex_format (prim_entry tc (prim_tex_cache_last tc)) = fmt /\ exists hit uv, u = texture_of hit uv tc.

Lemma tex0_found fmt raw hit uv tc : fmt = e_tex_format (prim_entry tc (prim_tex_cache_last tc)) ->
  tex0_of fmt raw (texture_of hit uv tc) = tex0_of (e_tex_format (prim_entry tc (prim_tex_cache_last tc))) raw
    (texture_of true 0 (tc <| prim_tex_cache_last := prim_tex_cache_last tc |>)).
Proof. intros ->. reflexivity. Qed.

Lemma state_fast_inv a u key s : state_fast a u key s = true ->
  gs_valid s = true /\ last_cmd_key s = key /\
  (a_textured a = true -> u_slot u = last_cache_slot s /\ (u_csm u = true -> gs_texclut s = texclut_of u)).
Proof.
  unfold state_fast. intros H. apply andb_prop in H as [H Ht]. apply andb_prop in H as [Hv Hk]. apply Z.eqb_eq in Hk.
  split; [exact Hv | split; [symmetry; exact Hk|] ]. intros Ha. rewrite Ha in Ht. cbn in Ht.
  apply andb_prop in Ht as [Ht Hx]. apply andb_prop in Ht as [_ Hs]. split; [apply Z.eqb_eq, Hs|].
  intros Hc. rewrite Hc in Hx. apply Z.eqb_eq, Hx.
Qed.

Lemma tracks_known r v c want : tracks r v c -> v = want -> want <> UINT64_MAX -> c !! GS_REG r = Some want.
Proof. intros [H|H] <- Hw; [contradiction | exact H]. Qed.

(** When the short cut is taken the tracked values are the wanted ones. *)
Lemma fast_tracked a u t check tc s : keyed s tc check -> 0 <= semi_trans_mode t < 4 ->
  found a u tc (tex_page_format t) -> state_fast a u (cmd_key a (semi_trans_mode t)) s = true ->
  let w := poly_wants a u t check in
  gs_dthe s = w_dthe w /\ (a_semi a = true -> gs_alpha s = w_alpha w) /\
  (a_textured a = true -> gs_test s = w_test w /\ gs_tex0 s = w_tex0 w).
Proof.
  intros Hk Hm Hu Hf. destruct (state_fast_inv _ _ _ _ Hf) as (Hv & Hkey & Htex).
  destruct (Hk Hv) as (a' & m' & Hm' & Hkey' & Hd & Hal & Ht'); [rewrite Hkey, cmd_key_sum by exact Hm; unfold b2z; repeat case_match; lia|].
  rewrite Hkey in Hkey'. destruct (cmd_key_inj _ _ _ _ Hm Hm' Hkey') as (Em & Er & Ed & Es & Et).
  cbn. rewrite <- Ed in Hd. split; [exact Hd | split].
  - intros Hs. rewrite Hal, Hs by congruence. subst m'. reflexivity.
  - intros Ht. destruct (Ht' ltac:(congruence)) as [T1 T0]. destruct (Htex Ht) as [Hsl _]. destruct (Hu Ht) as (Hfmt & hit & uv & ->).
    change (u_slot (texture_of hit uv tc)) with (prim_tex_cache_last tc) in Hsl. rewrite Ht. split; [exact T1|].
    rewrite T0, <- Hsl, <- Er. symmetry. apply tex0_found. symmetry. exact Hfmt.
Qed.

(** The short cut leaves the polygon with what it wants, if the texture window
    is the one that is set. *)
Lemma fast_wants_hold a u t check tc s c : coherent_regs s c -> keyed s tc check -> 0 <= semi_trans_mode t < 4 ->
  found a u tc (tex_page_format t) -> state_fast a u (cmd_key a (semi_trans_mode t)) s = true ->
  (a_textured a && u_hw u = true -> gs_clamp s = Compute_TexWin_Clamp t) ->
  wants_hold a u (poly_wants a u t check) c.
Proof.
  intros Hc Hk Hm Hu Hf Hwin. destruct (fast_tracked a u t check tc s Hk Hm Hu Hf) as (Td & Ta & Tt).
  destruct (state_fast_inv _ _ _ _ Hf) as (Hv & _ & Htex).
  destruct (poly_wants_real a u t check) as (Rd & Ra & Rt & Rcl & Rtc).
  destruct (co_rest _ _ Hc Hv) as (C0 & C1 & C2 & C3).
  split.
  - exact (tracks_known _ _ _ _ C3 Td Rd).
  - intros Hs. exact (tracks_known _ _ _ _ C2 (Ta Hs) (Ra Hs)).
  - intros Ht. split; [exact (tracks_known _ _ _ _ C0 (proj2 (Tt Ht)) (proj1 (Rt Ht))) | exact (tracks_known _ _ _ _ C1 (proj1 (Tt Ht)) (proj2 (Rt Ht)))].
  - intros H. apply (tracks_known _ _ _ _ (co_clamp _ _ Hc)); [|exact (Rcl H)]. rewrite (Hwin H). cbn. rewrite H. reflexivity.
  - intros H. pose proof H as H'. apply andb_prop in H' as [H1 H2]. apply andb_prop in H1 as [H1 _].
    apply (tracks_known _ _ _ _ (co_texclut _ _ Hc)); [|exact (Rtc H)]. rewrite (proj2 (Htex H1) H2). cbn. rewrite H. reflexivity.
Qed.

Lemma state_regs_len e w : zlen (state_regs e w) = state_qws e w.
Proof. unfold state_qws, state_regs. destruct e as [ [] [] [] [] [] [] ], (w_texflush w); reflexivity. Qed.

Lemma push_state_emits n regs prim g : prof_disable_gpu_render g = false ->
  emits ((GIF_TAG_LO (n + 1) 0 0 0 0 1, GIF_REG_AD) :: regs ++ [(GS_PACK_PRIM_FROM_INT prim, GS_REG PRIM)]) g (push_state n regs prim g).
Proof.
  intros Hg. unfold push_state. pose proof (emits_tag (GIF_TAG_LO (n + 1) 0 0 0 0 1) GIF_REG_AD g Hg) as Ht.
  exact (emits_trans [_] _ _ _ _ Ht (emits_qwords _ _ (em_on _ _ _ Ht))).
Qed.

(** Afterwards the key describes this polygon. *)
Lemma keyed_now a u t check tc s : found a u tc (tex_page_format t) -> 0 <= semi_trans_mode t < 4 ->
  (let w := poly_wants a u t check in
   gs_dthe s = w_dthe w /\ (a_semi a = true -> gs_alpha s = w_alpha w) /\
   (a_textured a = true -> gs_test s = w_test w /\ gs_tex0 s = w_tex0 w)) ->
  keyed (s <| last_cmd_key := cmd_key a (semi_trans_mode t) |> <| last_cache_slot ::= fun c => if a_textured a then u_slot u else c |>) tc check.
Proof.
  intros Hu Hm (Hd & Ha & Ht) _ _. exists a, (semi_trans_mode t). split; [exact Hm | split; [reflexivity | split; [exact Hd | split] ] ].
  - intros Hs. change (gs_alpha s = Get_Alpha_Reg (semi_trans_mode t)). rewrite (Ha Hs). cbn. rewrite Hs. reflexivity.
  - intros Htx. destruct (Ht Htx) as [H1 H0]. destruct (Hu Htx) as (Hfmt & hit & uv & ->). cbn [upd last_cache_slot].
    change (gs_test s = tex_test check /\ gs_tex0 s = tex0_of (e_tex_format (prim_entry tc (if a_textured a then prim_tex_cache_last tc else last_cache_slot s))) (a_raw a)
       (texture_of true 0 (tc <| prim_tex_cache_last := if a_textured a then prim_tex_cache_last tc else last_cache_slot s |>))).
    rewrite Htx. rewrite H1, H0. cbn [poly_wants w_test w_tex0]. rewrite Htx. split; [reflexivity|]. apply tex0_found. symmetry. exact Hfmt.
Qed.

(** The registers tracked are the chip's, and the key is the last polygon's. *)
Definition tracked x (c : gmap Z Z) : Prop :=
  coherent_regs (gs (prm x)) c /\ keyed (gs (prm x)) (texc (prm x)) (mask_check_bit (env (gp x))).

Lemma coherent_keys key f s c : coherent_regs s c -> coherent_regs (s <| last_cmd_key := key |> <| last_cache_slot ::= f |>) c.
Proof. intros [H1 H2 H3]. split; assumption. Qed.

(** [C16] The state packet of a polygon gives the chip what the polygon wants,
    provided that on the short cut of a textured polygon the texture window is
    still the one the chip has ([texture_window_lost] is the other case).  If
    the tracked registers agree with the chip and the key describes the last
    polygon, then whatever subset of the registers is written - none on the
    short cut - afterwards every register the polygon needs (dithering,
    blending, texture, alpha test, texture window, palette) has its value, the
    tag counts the words that follow, and the tracking is right again. *)
Theorem poly_state_exact a u prim x c :
  prof_disable_gpu_render (gif (prm x)) = false -> tracked x c -> 0 <= semi_trans_mode (tex (gp x)) < 4 ->
  found a u (texc (prm x)) (tex_page_format (tex (gp x))) ->
  (state_fast a u (cmd_key a (semi_trans_mode (tex (gp x)))) (gs (prm x)) = true -> a_textured a && u_hw u = true ->
     gs_clamp (gs (prm x)) = Compute_TexWin_Clamp (tex (gp x))) ->
  let x' := poly_state a u prim x in
  exists regs,
    emits ((GIF_TAG_LO (zlen regs + 1) 0 0 0 0 1, GIF_REG_AD) :: regs ++ [(GS_PACK_PRIM_FROM_INT prim, GS_REG PRIM)]) (gif (prm x)) (gif (prm x')) /\
    wants_hold a u (poly_wants a u (tex (gp x)) (mask_check_bit (env (gp x)))) (write_regs regs c) /\
    tracked x' (write_regs regs c).
Proof.
  intros Hon [Hc Hk] Hm Hu Hwin. destruct x as [ [g p] y]. destruct p as [s tc gf b ep]. cbn in Hon, Hc, Hk, Hm, Hu, Hwin.
  unfold poly_state. cbn [gp prm gs fst snd]. set (key := cmd_key a (semi_trans_mode (tex g))) in *.
  destruct (state_fast a u key s) eqn:Hf.
  - exists []. split; [exact (push_state_emits 0 [] prim gf Hon) |]. split.
    + exact (fast_wants_hold a u (tex g) _ tc s c Hc Hk Hm Hu Hf (Hwin eq_refl)).
    + split; [exact (coherent_keys _ _ _ _ Hc)|]. apply (keyed_now a u (tex g) (mask_check_bit (env g)) tc s Hu Hm).
      exact (fast_tracked a u (tex g) _ tc s Hk Hm Hu Hf).
  - set (w := poly_wants a u (tex g) (mask_check_bit (env g))). exists (state_regs (poly_emits s a u w) w).
    rewrite state_regs_len. split; [exact (push_state_emits _ _ prim gf Hon) |]. split.
    + exact (lazy_wants_hold a u (tex g) _ s c Hc).
    + split; [exact (coherent_keys _ _ _ _ (lazy_coherent a u (tex g) _ s c Hc))|].
      apply (keyed_now a u (tex g) (mask_check_bit (env g)) tc (poly_track a u w s) Hu Hm).
      destruct (poly_track_fields a u w s) as (_ & Fd & Fa & F0 & Ft & _). cbv zeta. rewrite Fd, Fa, F0, Ft. fold w.
      split; [reflexivity|]. split; intros H; rewrite H; [reflexivity | split; reflexivity].
Qed.

(** The same texture found again. *)
Definition again (u : TexUse) : TexUse :=
  mkTexUse true (u_result u) (u_csm u) (u_tbp0 u) (u_cbp u) (u_clut_x u) (u_clut_y u) (u_slot u).

Lemma fast_again a u t s : a_textured a && u_hw u = true ->
  gs_valid s = true -> last_cmd_key s = cmd_key a (semi_trans_mode t) -> last_cache_slot s = u_slot u ->
  (u_csm u = true -> gs_texclut s = texclut_of u) ->
  state_fast a (again u) (cmd_key a (semi_trans_mode t)) s = true.
Proof.
  intros Ha Hv Hk Hs Hx. apply andb_prop in Ha as [Ha _]. unfold state_fast. rewrite Hv, Hk, Hs, Ha, Z.eqb_refl. cbn.
  rewrite Z.eqb_refl. destruct (u_csm u); [|reflexivity]. rewrite (Hx eq_refl). apply Z.eqb_refl.
Qed.

(** [C39] The short cut forgets the texture window: when the window is changed after
    a polygon with an indexed texture and the same texture is drawn again, only
    PRIM is written, so the polygon is drawn with the window of the polygon
    before.  *)
Theorem texture_window_lost a u prim x c data :
  prof_disable_gpu_render (gif (prm x)) = false -> tracked x c -> 0 <= semi_trans_mode (tex (gp x)) < 4 ->
  found a u (texc (prm x)) (tex_page_format (tex (gp x))) -> a_textured a && u_hw u = true ->
  state_fast a u (cmd_key a (semi_trans_mode (tex (gp x)))) (gs (prm x)) = false ->
  let x' := texture_window data (poly_state a u prim x) in
  exists regs,
    write_regs regs c !! GS_REG CLAMP_1 = Some (Compute_TexWin_Clamp (tex (gp x))) /\
    emits ((GIF_TAG_LO (zlen regs + 1) 0 0 0 0 1, GIF_REG_AD) :: regs ++ [(GS_PACK_PRIM_FROM_INT prim, GS_REG PRIM)]) (gif (prm x)) (gif (prm x')) /\
    emits [(GIF_TAG_LO 1 0 0 0 0 1, GIF_REG_AD); (GS_PACK_PRIM_FROM_INT prim, GS_REG PRIM)]
      (gif (prm x')) (gif (prm (poly_state a (again u) prim x'))).
Proof.
  intros Hon [Hc Hk] Hm Hu Ha Hf. destruct x as [ [g p] y]. destruct p as [s tc gf b ep]. cbn in Hon, Hc, Hk, Hm, Hu, Hf.
  set (w := poly_wants a u (tex g) (mask_check_bit (env g))). set (regs := state_regs (poly_emits s a u w) w).
  exists regs. split; [|split].
  - transitivity (Some (w_clamp w)); [exact (wh_clamp _ _ _ _ (lazy_wants_hold a u (tex g) (mask_check_bit (env g)) s c Hc) Ha)|].
    cbn. rewrite Ha. reflexivity.
  - unfold poly_state. cbn [gp prm gs fst snd]. rewrite Hf. unfold regs. rewrite state_regs_len. exact (push_state_emits _ _ prim gf Hon).
  - set (x1 := poly_state a u prim _).
    assert (Hg : gs (prm (texture_window data x1)) = (poly_track a u w s) <| last_cmd_key := cmd_key a (semi_trans_mode (tex g)) |>
              <| last_cache_slot ::= fun c => if a_textured a then u_slot u else c |>).
    { unfold x1, poly_state. cbn [gp prm gs fst snd]. rewrite Hf. reflexivity. }
    assert (Hmode : semi_trans_mode (tex (gp (texture_window data x1))) = semi_trans_mode (tex g)).
    { unfold x1, poly_state. cbn [gp prm gs fst snd]. rewrite Hf. reflexivity. }
    assert (Hoff : prof_disable_gpu_render (gif (prm (texture_window data x1))) = false).
    { unfold x1, poly_state. cbn [gp prm gs fst snd]. rewrite Hf. exact (em_on _ _ _ (push_state_emits _ _ prim gf Hon)). }
    destruct (poly_track_fields a u w s) as (Fv & _ & _ & _ & _ & _ & Fx).
    assert (Hfast : state_fast a (again u) (cmd_key a (semi_trans_mode (tex (gp (texture_window data x1))))) (gs (prm (texture_window data x1))) = true).
    { apply fast_again; [exact Ha | rewrite Hg; exact Fv | rewrite Hg, Hmode; reflexivity | |].
      - rewrite Hg. cbn. apply andb_prop in Ha as [-> _]. reflexivity.
      - intros Hx. rewrite Hg. change (gs_texclut (poly_track a u w s) = texclut_of u). rewrite Fx, Ha, Hx. cbn. rewrite Ha, Hx. reflexivity. }
    unfold poly_state at 1. rewrite Hfast. exact (push_state_emits 0 [] prim _ Hoff).
Qed.
End Laws.

(** ** Fills *)

Definition inb (a b i : Z) : bool := (a <=? i) && (i <? b).

(** Filling stretch after stretch fills the whole. *)
Lemma stretches (step : gmap Z Z -> Z -> gmap Z Z) base len (val : Z) :
  0 <= len -> (forall v k i, step v k !! i = if inb (base + len * k) (base + len * k + len) i then Some val else v !! i) ->
  forall n v i, fold_left step (zseq n) v !! i = if inb base (base + len * Z.of_nat n) i then Some val else v !! i.
Proof.
  intros Hl Hstep n. induction n as [|n IH]; intros v i.
  - change (Z.of_nat 0) with 0. rewrite Z.mul_0_r, Z.add_0_r. unfold inb.
    destruct (Z.leb_spec base i), (Z.ltb_spec i base); try reflexivity; lia.
  - rewrite zseq_snoc, fold_left_app. cbn [fold_left]. rewrite Hstep, IH. unfold inb.
    destruct (Z.leb_spec (base + len * Z.of_nat n) i), (Z.ltb_spec i (base + len * Z.of_nat n + len)), (Z.leb_spec base i),
      (Z.ltb_spec i (base + len * Z.of_nat n)), (Z.ltb_spec i (base + len * Z.of_nat (S n))); try reflexivity; exfalso; nia.
Qed.

Lemma fill_pixels base val n (v : gmap Z Z) i :
  fold_left (fun v k => <[base + k := val]> v) (zseq n) v !! i = if inb base (base + Z.of_nat n) i then Some val else v !! i.
Proof.
  rewrite (stretches (fun (v : gmap Z Z) k => <[base + k := val]> v) base 1 val ltac:(lia)); [rewrite Z.mul_1_l; reflexivity|].
  intros v' k j. destruct (Z.eq_dec j (base + k)) as [->|Hn].
  - rewrite lookup_insert_eq. unfold inb. destruct (Z.leb_spec (base + 1 * k) (base + k)), (Z.ltb_spec (base + k) (base + 1 * k + 1)); try reflexivity; lia.
  - rewrite lookup_insert_ne by congruence. unfold inb.
    destruct (Z.leb_spec (base + 1 * k) j), (Z.ltb_spec j (base + 1 * k + 1)); try reflexivity; lia.
Qed.

Definition fill64 (c : Z) : Z := let fill32 := Z.lor c (Z.shiftl c 16) in Z.lor fill32 (Z.shiftl fill32 32).

Lemma fill64_fields c k : 0 <= c < 65536 -> 0 <= k < 4 -> Z.land (Z.shiftr (fill64 c) (16 * k)) 0xFFFF = c.
Proof.
  intros Hc Hk. unfold fill64. cbv zeta.
  rewrite (lor_concat 16 c c) by lia. rewrite (lor_concat 32) by lia.
  change 0xFFFF with (Z.ones 16). rewrite Z.land_ones, Z.shiftr_div_pow2 by lia.
  assert (Hcase : k = 0 \/ k = 1 \/ k = 2 \/ k = 3) by lia.
  destruct Hcase as [-> | [-> | [-> | ->] ] ]; cbn -[Z.div Z.modulo]; Z.div_mod_to_equations; lia.
Qed.

Lemma store64_fill c v i j : 0 <= c < 65536 ->
  store64 v i (fill64 c) !! j = if inb i (i + 4) j then Some c else v !! j.
Proof.
  intros Hc. change 4 with (Z.of_nat 4) at 1. rewrite <- fill_pixels. unfold store64. cbn [zseq]. f_equal.
  change (zseq 4) with [0; 1; 2; 3]. cbn [fold_left]. rewrite !fill64_fields by lia. reflexivity.
Qed.

Lemma fill_row_lookup c w v p i : 0 <= c < 65536 -> 0 <= w ->
  fill_row c w v p !! i = if inb p (p + w) i then Some c else v !! i.
Proof.
  intros Hc Hw. unfold fill_row. cbv zeta. fold (fill64 c).
  assert (Hb : Z.land w (Z.lnot 3) = 4 * (w / 4)).
  { change (Z.lnot 3) with (Z.lnot (Z.ones 2)). rewrite <- Z.ldiff_land, Z.ldiff_ones_r, Z.shiftl_mul_pow2, Z.shiftr_div_pow2 by lia.
    change (2 ^ 2) with 4. lia. }
  rewrite Hb, fill_pixels. replace (4 * (w / 4) / 4) with (w / 4) by (Z.div_mod_to_equations; lia).
  rewrite (stretches (fun v j => store64 v (p + 4 * j) (fill64 c)) p 4 c ltac:(lia)).
  2: { intros v' k j. apply store64_fill, Hc. }
  rewrite !Z2Nat.id by (Z.div_mod_to_equations; lia). unfold inb.
  destruct (Z.leb_spec (p + 4 * (w / 4)) i), (Z.ltb_spec i (p + 4 * (w / 4) + (w - 4 * (w / 4)))), (Z.leb_spec p i),
    (Z.ltb_spec i (p + 4 * (w / 4))), (Z.ltb_spec i (p + w)); try reflexivity; exfalso; Z.div_mod_to_equations; lia.
Qed.

Lemma fill_rows c w rx ry n v px py : 0 <= c < 65536 -> 0 <= w -> 0 <= rx -> rx + w <= 1024 -> 0 <= px < 1024 ->
  fold_left (fun v k => fill_row c w v ((ry + k) * 1024 + rx)) (zseq n) v !! (py * 1024 + px) =
  if inb rx (rx + w) px && inb ry (ry + Z.of_nat n) py then Some c else v !! (py * 1024 + px).
Proof.
  intros Hc Hw Hr He Hp. induction n as [|n IH].
  - change (Z.of_nat 0) with 0. rewrite Z.add_0_r. unfold inb. destruct (Z.leb_spec ry py), (Z.ltb_spec py ry); try lia; rewrite ?andb_false_r; reflexivity.
  - rewrite zseq_snoc, fold_left_app. cbn [fold_left]. rewrite fill_row_lookup by assumption. rewrite IH. unfold inb.
    destruct (Z.leb_spec ((ry + Z.of_nat n) * 1024 + rx) (py * 1024 + px)), (Z.ltb_spec (py * 1024 + px) ((ry + Z.of_nat n) * 1024 + rx + w)),
      (Z.leb_spec rx px), (Z.ltb_spec px (rx + w)), (Z.leb_spec ry py), (Z.ltb_spec py (ry + Z.of_nat n)), (Z.ltb_spec py (ry + Z.of_nat (S n)));
      try reflexivity; exfalso; lia.
Qed.

Lemma psx_color_range color : 0 <= psx_color_of color < 65536.
Proof.
  unfold psx_color_of. cbv zeta.
  assert (Hf : forall s, 0 <= Z.land (Z.shiftr (Z.land (Z.shiftr color s) 0xFF) 3) 0x1F < 32).
  { intros s. change 0x1F with (Z.ones 5). rewrite Z.land_ones by lia. apply Z.mod_pos_bound. lia. }
  pose proof (Hf 0). pose proof (Hf 8). pose proof (Hf 16).
  rewrite (lor_concat 5) by lia. rewrite (lor_concat 10) by lia. lia.
Qed.

Lemma inb_clip a b c i : i < c -> inb a (if b <? c then b else c) i = inb a b i.
Proof. unfold inb. intros H. destruct (Z.ltb_spec b c); [reflexivity|]. f_equal. lia. Qed.

(** [C30] A fill sets exactly the pixels of its rectangle in the video memory, to
    its colour in 15 bits, and leaves every other pixel alone; the rectangle is
    clipped at the edges of the video memory.  *)
Theorem fill_exact psx_cmd x px py : 0 <= px < 1024 -> 0 <= py < 512 ->
  let rx := Z.land (psx_cmd 1) 0x3F0 in
  let ry := Z.land (Z.shiftr (psx_cmd 1) 16) 0x1FF in
  let w := Z.land (Z.land (psx_cmd 2) 0x3FF + 0xF) (Z.lnot 0xF) in
  let h := Z.land (Z.shiftr (psx_cmd 2) 16) 0x1FF in
  shadow_px (vram (gp (snd (translate_fill psx_cmd x)))) px py =
    if inb rx (rx + w) px && inb ry (ry + h) py then psx_color_of (Z.land (psx_cmd 0) 0xFFFFFF) else shadow_px (vram (gp x)) px py.
Proof.
  intros Hx Hy rx ry w h.
  pose proof (land_bound_r (psx_cmd 1) 0x3F0 ltac:(lia)) as Hrx. fold rx in Hrx.
  pose proof (land_bound_r (Z.shiftr (psx_cmd 1) 16) 0x1FF ltac:(lia)) as Hry. fold ry in Hry.
  pose proof (land_bound_r (Z.shiftr (psx_cmd 2) 16) 0x1FF ltac:(lia)) as Hh. fold h in Hh.
  assert (Hw : 0 <= w) by (apply Z.land_nonneg; left; pose proof (land_bound_r (psx_cmd 2) 0x3FF ltac:(lia)); lia).
  unfold translate_fill. cbv zeta. fold rx ry w h. clearbody rx ry w h.
  destruct ((w =? 0) || (h =? 0)) eqn:E.
  - cbn [snd]. apply orb_prop in E. rewrite !Z.eqb_eq in E. unfold inb.
    destruct (Z.leb_spec rx px), (Z.ltb_spec px (rx + w)), (Z.leb_spec ry py), (Z.ltb_spec py (ry + h)); try reflexivity; lia.
  - cbn [snd].
    transitivity (shadow_px (fill_shadow rx ry w h (Z.land (psx_cmd 0) 0xFFFFFF) (vram (gp x))) px py); [case_match; reflexivity|].
    unfold shadow_px, fill_shadow. cbv zeta. rewrite fill_rows; [|apply psx_color_range | | lia | | lia].
    2: { case_match; lia. } 2: { case_match; lia. }
    rewrite Z.add_sub_assoc, Z.add_simpl_l, Z2Nat.id, Z.add_sub_assoc, Z.add_simpl_l by (case_match; lia).
    rewrite (inb_clip rx (rx + w) 1024 px), (inb_clip ry (ry + h) 512 py) by lia.
    destruct (_ && _); reflexivity.
Qed.
End Shortcuts.

(** ** Examples *)

(** Registers of 60 bits at the addresses of [plain_sdk]. *)
#[export] Instance masked_sdk : GsSdk := {
  GS_SET := fun r fields => Z.land (@GS_SET plain_sdk r fields) (Z.ones 60);
  GS_REG := @GS_REG plain_sdk;
  GIF_REG_AD := 0xE; GIF_REG_RGBAQ := 1; GIF_REG_XYZ2 := 5; GIF_REG_UV := 3; GIF_REG_ST := 2; GS_PSM_16S := 0xA; GS_PSM_16 := 2; GS_PSM_8 := 0x13; GS_PSM_4 := 0x14
}.

Lemma masked_laws : @SdkLaws masked_sdk.
Proof.
  assert (Hbit : forall v, Z.testbit v 61 = false -> v <> UINT64_MAX) by (intros v H ->; discriminate H).
  assert (Hset : forall v, Z.testbit (Z.land v (Z.ones 60)) 61 = false) by (intros v; rewrite Z.land_spec, andb_false_r; reflexivity).
  split.
  - intros r1 r2 H1 H2. cbn in H1, H2.
    repeat (destruct H1 as [<-|H1]; [repeat (destruct H2 as [<-|H2]; [try reflexivity; discriminate|]); destruct H2|]). destruct H1.
  - intros r fields. apply Hbit, Hset.
  - intros check. apply Hbit. unfold tex_test. rewrite Z.lor_spec. apply Hset.
Qed.

Definition prim_start : GpuSys Prim := (gpu_init, mkPrim gs_state_init Tex_Cache_Init gif_start batch_init 0, sys0).

(** A triangle with a 4-bit texture, and the same triangle again. *)
Definition tri_words (i : Z) : Z := nth (Z.to_nat i) [0x24808080; 0x00080008; 0x00400000; 0x00080040; 0x00000020; 0x00400008; 0x00002000] 0.
Definition tri_again : GpuSys Prim := snd (translate_polygon tri_words prim_start).

Lemma fast_polygon_exact_witness :
  fast_polygon tri_words tri_again = (7, snd (fast_polygon tri_words tri_again)) /\
  translate_polygon tri_words tri_again = (7, snd (fast_polygon tri_words tri_again)).
Proof.
  assert (H : fst (fast_polygon tri_words tri_again) = 7) by (vm_compute; reflexivity).
  assert (Hf : fast_polygon tri_words tri_again = (7, snd (fast_polygon tri_words tri_again))).
  { rewrite <- H. apply surjective_pairing. }
  split; [exact Hf|]. apply (fast_polygon_exact tri_words tri_again 7 _ Hf); [discriminate|].
  intros _. vm_compute. reflexivity.
Defined.

Lemma find_texture_found `{GsSdk} fmt px py uv (x : GpuSys Prim) : exists hit,
  fst (find_texture fmt px py uv x) = texture_of hit uv (texc (prm (snd (find_texture fmt px py uv x)))).
Proof. unfold find_texture. destruct (use_page _ _ _ _ _ _ _ _ _) as [ [hit t] g]. exists hit. reflexivity. Qed.

Definition semi_attrs : Attrs := mkAttrs false true true false false.
Definition tri_use : TexUse := fst (find_texture 0 0 0 0x00400000 prim_start).
Definition tri_sys : GpuSys Prim := upd_tex (fun t => t <| tex_page_format := 0 |>) (snd (find_texture 0 0 0 0x00400000 prim_start)).
Definition chip_start : gmap Z Z := {[ 8 := 0 ]}.

Lemma tri_tracked : tracked tri_sys chip_start.
Proof.
  split; [|intros H; vm_compute in H; discriminate H].
  assert (Hgs : gs (prm tri_sys) = gs_state_init) by (vm_compute; reflexivity). rewrite Hgs.
  split; [right; vm_compute; reflexivity | left; reflexivity | discriminate].
Qed.

Lemma tri_found : found semi_attrs tri_use (texc (prm tri_sys)) (tex_page_format (tex (gp tri_sys))).
Proof.
  intros _. split; [vm_compute; reflexivity|]. destruct (find_texture_found 0 0 0 0x00400000 prim_start) as [hit H].
  exists hit, 0x00400000. exact H.
Qed.

Lemma poly_state_exact_witness : exists regs,
  emits ((GIF_TAG_LO (zlen regs + 1) 0 0 0 0 1, GIF_REG_AD) :: regs ++ [(GS_PACK_PRIM_FROM_INT 3, GS_REG PRIM)])
    (gif (prm tri_sys)) (gif (prm (poly_state semi_attrs tri_use 3 tri_sys))) /\
  wants_hold semi_attrs tri_use (poly_wants semi_attrs tri_use (tex (gp tri_sys)) 0) (write_regs regs chip_start) /\
  tracked (poly_state semi_attrs tri_use 3 tri_sys) (write_regs regs chip_start).
Proof.
  assert (Hoff : prof_disable_gpu_render (gif (prm tri_sys)) = false) by (vm_compute; reflexivity).
  assert (Hm : semi_trans_mode (tex (gp tri_sys)) = 0) by (vm_compute; reflexivity).
  apply (poly_state_exact masked_laws semi_attrs tri_use 3 tri_sys chip_start Hoff tri_tracked); [rewrite Hm; lia | exact tri_found |].
  intros H. vm_compute in H. discriminate H.
Defined.

Lemma texture_window_lost_witness : exists regs,
  write_regs regs chip_start !! GS_REG CLAMP_1 = Some (Compute_TexWin_Clamp (tex (gp tri_sys))) /\
  emits ((GIF_TAG_LO (zlen regs + 1) 0 0 0 0 1, GIF_REG_AD) :: regs ++ [(GS_PACK_PRIM_FROM_INT 3, GS_REG PRIM)])
    (gif (prm tri_sys)) (gif (prm (texture_window 0xE2000842 (poly_state semi_attrs tri_use 3 tri_sys)))) /\
  emits [(GIF_TAG_LO 1 0 0 0 0 1, GIF_REG_AD); (GS_PACK_PRIM_FROM_INT 3, GS_REG PRIM)]
    (gif (prm (texture_window 0xE2000842 (poly_state semi_attrs tri_use 3 tri_sys))))
    (gif (prm (poly_state semi_attrs (again tri_use) 3 (texture_window 0xE2000842 (poly_state semi_attrs tri_use 3 tri_sys))))).
Proof.
  assert (Hoff : prof_disable_gpu_render (gif (prm tri_sys)) = false) by (vm_compute; reflexivity).
  assert (Hm : semi_trans_mode (tex (gp tri_sys)) = 0) by (vm_compute; reflexivity).
  apply (texture_window_lost masked_laws semi_attrs tri_use 3 tri_sys chip_start 0xE2000842 Hoff tri_tracked);
    [rewrite Hm; lia | exact tri_found | vm_compute; reflexivity | vm_compute; reflexivity].
Defined.

(** A fill of 32 by 2 pixels at (16, 4). *)
Definition fill_words (i : Z) : Z := nth (Z.to_nat i) [0x020000F8; 0x00040010; 0x00020020] 0.

Lemma fill_exact_witness : shadow_px (vram (gp (snd (translate_fill fill_words prim_start)))) 47 5 = 0x1F.
Proof. rewrite (fill_exact fill_words prim_start 47 5 ltac:(lia) ltac:(lia)). vm_compute. reflexivity. Defined.
