(* ===== verification/TextureMath.v ===== *)
(** * The texture slots hold the video memory's pages

    Between writes that are reported with a new generation and uses of pages,
    the slots of the chip hold what the shadow copy holds; and the writes that
    are not reported. *)

From S2P Require Import Prelude Gif GifMath Texture.

(** ** Ranges and arrays *)

Lemma in_zrange a b i : In i (zrange a b) <-> a <= i <= b.
Proof.
  unfold zrange. rewrite in_map_iff. split.
  - intros (k & <- & Hk). apply in_zseq in Hk. lia.
  - intros Hi. exists (i - a). split; [lia|]. apply in_zseq. lia.
Qed.

Lemma fold_flat {A B C} (f : A -> C -> A) (h : B -> list C) (l : list B) : forall a,
  fold_left (fun a b => fold_left f (h b) a) l a = fold_left f (flat_map h l) a.
Proof. induction l as [|b l IH]; intros a; [reflexivity|]. cbn [fold_left flat_map]. rewrite fold_left_app. apply IH. Qed.

Lemma fold_map {A B C} (f : A -> C -> A) (h : B -> C) (l : list B) : forall a,
  fold_left (fun a b => f a (h b)) l a = fold_left f (map h l) a.
Proof. induction l as [|b l IH]; intros a; [reflexivity|]. apply IH. Qed.

Lemma aset_all (v : Z) idxs : forall l i, (forall k, In k idxs -> 0 <= k < zlen l) -> 0 <= i < zlen l ->
  zlen (fold_left (fun l k => aset l k v) idxs l) = zlen l /\
  (In i idxs -> aget (fold_left (fun l k => aset l k v) idxs l) i = v) /\
  (~ In i idxs -> aget (fold_left (fun l k => aset l k v) idxs l) i = aget l i).
Proof.
  induction idxs as [|k idxs IH]; intros l i Hk Hi; cbn [fold_left].
  - split; [reflexivity|]. split; [intros [] | intros _; reflexivity].
  - assert (Hk0 : 0 <= k < zlen l) by (apply Hk; left; reflexivity).
    destruct (IH (aset l k v) i) as (H1 & H2 & H3); [rewrite zlen_aset; intros k' Hin; apply Hk; right; exact Hin | rewrite zlen_aset; exact Hi|].
    rewrite zlen_aset in H1. split; [exact H1|]. split.
    + intros [-> | Hin]; [|apply H2, Hin]. destruct (in_dec Z.eq_dec i idxs) as [Hin|Hno]; [apply H2, Hin|].
      rewrite H3 by exact Hno. apply aget_aset_eq. exact Hi.
    + intros Hno. rewrite H3 by (intros Hin; apply Hno; right; exact Hin). apply aget_aset_ne; [lia | lia | intros ->; apply Hno; left; reflexivity].
Qed.

(** ** Generations *)

(** Generation of the block in column [c] of row [r]. *)
Definition block_gen (t : TexCache) (r c : Z) : Z := aget (vram_page_gen t) (r * 16 + c).

(** The blocks a region touches. *)
Definition touches (rx ry w h r c : Z) : Prop :=
  Z.shiftr rx 6 <= c <= Z.shiftr (rx + w - 1) 6 /\ Z.shiftr ry 4 <= r <= Z.shiftr (ry + h - 1) 4.

Lemma last_col_spec rx w c : 0 <= rx -> 0 < w -> rx + w < 2 ^ 32 -> 0 <= c < 16 -> c <= last_col rx w <-> c <= Z.shiftr (rx + w - 1) 6.
Proof. intros Hx Hw Hs Hc. unfold last_col, VRAM_DIRTY_COLS. rewrite u32_small by (unfold is_u32; lia). lia. Qed.
Lemma last_row_spec ry h r : 0 <= ry -> 0 < h -> ry + h < 2 ^ 32 -> 0 <= r < 32 -> r <= last_row ry h <-> r <= Z.shiftr (ry + h - 1) 4.
Proof. intros Hy Hh Hs Hr. unfold last_row, VRAM_DIRTY_ROWS, VRAM_DIRTY_ROW_SHIFT. rewrite u32_small by (unfold is_u32; lia). lia. Qed.
Lemma last_col_bound rx w : last_col rx w <= 15.
Proof. unfold last_col, VRAM_DIRTY_COLS. lia. Qed.
Lemma last_row_bound ry h : last_row ry h <= 31.
Proof. unfold last_row, VRAM_DIRTY_ROWS. lia. Qed.

Lemma region_first a n : 0 <= a < 2 ^ 32 -> Z.shiftr (u32 a) n = Z.shiftr a n.
Proof. intros Ha. rewrite u32_small by exact Ha. reflexivity. Qed.

Lemma dirty_block rx ry w h gen t r c : zlen (vram_page_gen t) = 512 ->
  0 <= rx -> 0 <= ry -> 0 < w -> 0 < h -> rx + w < 2 ^ 32 -> ry + h < 2 ^ 32 -> 0 <= r < 32 -> 0 <= c < 16 ->
  let t' := Tex_Cache_DirtyRegion rx ry w h gen t in
  zlen (vram_page_gen t') = 512 /\
  (touches rx ry w h r c -> block_gen t' r c = gen) /\ (~ touches rx ry w h r c -> block_gen t' r c = block_gen t r c).
Proof.
  intros Hl Hx Hy Hw Hh Hxw Hyh Hr Hc. cbv zeta. unfold Tex_Cache_DirtyRegion.
  rewrite (proj2 (Z.leb_gt w 0)), (proj2 (Z.leb_gt h 0)) by lia. cbn [orb]. cbv zeta. unfold block_gen. cbn [vram_page_gen upd setter].
  rewrite !region_first by lia. unfold VRAM_DIRTY_ROW_SHIFT, VRAM_DIRTY_COLS.
  set (rows := zrange (Z.shiftr ry 4) (last_row ry h)). set (cols := zrange (Z.shiftr rx 6) (last_col rx w)).
  assert (Hx6 : 0 <= Z.shiftr rx 6) by (apply Z.shiftr_nonneg; exact Hx). assert (Hy4 : 0 <= Z.shiftr ry 4) by (apply Z.shiftr_nonneg; exact Hy).
  replace (fold_left (fun l r0 => fold_left (fun l0 c0 => aset l0 (r0 * 16 + c0) gen) cols l) rows (vram_page_gen t)) with
    (fold_left (fun l k => aset l k gen) (flat_map (fun r0 => map (fun c0 => r0 * 16 + c0) cols) rows) (vram_page_gen t)).
  2: { rewrite <- (fold_flat (fun l k => aset l k gen) (fun r0 => map (fun c0 => r0 * 16 + c0) cols)). clear. generalize (vram_page_gen t) as l.
       induction rows as [|r0 rows IH]; intros l; [reflexivity|]. cbn [fold_left]. rewrite <- (fold_map (fun l k => aset l k gen) (fun c0 => r0 * 16 + c0)). apply IH. }
  set (idxs := flat_map _ rows).
  assert (Hin : forall i, In i idxs <-> exists r0 c0, i = r0 * 16 + c0 /\ In r0 rows /\ In c0 cols).
  { intros i. unfold idxs. rewrite in_flat_map. split.
    - intros (r0 & H1 & H2). apply in_map_iff in H2 as (c0 & <- & H3). exists r0, c0. split; [reflexivity | split; assumption].
    - intros (r0 & c0 & -> & H1 & H2). exists r0. split; [exact H1|]. apply in_map_iff. exists c0. split; [reflexivity | exact H2]. }
  pose proof (last_col_bound rx w) as Hcb. pose proof (last_row_bound ry h) as Hrb.
  destruct (aset_all gen idxs (vram_page_gen t) (r * 16 + c)) as (H1 & H2 & H3).
  { intros k Hk. apply Hin in Hk as (r0 & c0 & -> & Hr0 & Hc0). apply in_zrange in Hr0, Hc0. lia. }
  { lia. }
  split; [lia|]. unfold touches. rewrite <- (last_col_spec rx w c), <- (last_row_spec ry h r) by lia. split.
  - intros [Hcc Hrr]. apply H2, Hin. exists r, c. split; [reflexivity|]. unfold rows, cols. rewrite !in_zrange. split; assumption.
  - intros Hno. apply H3. rewrite Hin. intros (r0 & c0 & E & Hr0 & Hc0). apply in_zrange in Hr0, Hc0. apply Hno.
    assert (r0 = r /\ c0 = c) as [-> ->] by lia. split; assumption.
Qed.

Lemma fold_max (f : Z -> Z) l : forall m, let m' := fold_left (fun m k => let g := f k in if m <? g then g else m) l m in
  m <= m' /\ (forall k, In k l -> f k <= m') /\ (m' = m \/ exists k, In k l /\ m' = f k).
Proof.
  induction l as [|k l IH]; intros m; cbn [fold_left].
  - split; [lia|]. split; [intros k [] | left; reflexivity].
  - cbv zeta in *. set (m1 := if m <? f k then f k else m). destruct (IH m1) as (H1 & H2 & H3).
    assert (Hm : m <= m1 /\ f k <= m1 /\ (m1 = m \/ m1 = f k)) by (unfold m1; destruct (Z.ltb_spec m (f k)); lia).
    split; [lia|]. split.
    + intros j [<- | Hj]; [lia | apply H2, Hj].
    + destruct H3 as [-> | (j & Hj & ->)]; [|right; exists j; split; [right; exact Hj | reflexivity] ].
      destruct Hm as (_ & _ & [-> | ->]); [left; reflexivity | right; exists k; split; [left; reflexivity | reflexivity] ].
Qed.

(** ** Pages *)

(** Format, column and half of a page that lies in the memory. *)
Definition page_ok (fmt k top : Z) : Prop := (fmt = 0 \/ fmt = 1) /\ 0 <= k /\ k + fmt <= 15 /\ (top = 0 \/ top = 1).
Definition slot_of (fmt k top : Z) : Z := page_slot (compute_page_id (64 * k) (256 * top)) fmt.

Lemma slot_of_eq fmt k top : slot_of fmt k top = fmt * 32 + (k + top * 16).
Proof.
  unfold slot_of, page_slot, compute_page_id, PAGE_LOCS. rewrite !Z.shiftr_div_pow2, Z.shiftl_mul_pow2 by lia.
  change (2 ^ 6) with 64. change (2 ^ 8) with 256. change (2 ^ 4) with 16.
  rewrite (Z.mul_comm 64), (Z.mul_comm 256), !Z.div_mul by lia. reflexivity.
Qed.

Lemma slot_of_range fmt k top : page_ok fmt k top -> 0 <= slot_of fmt k top < 64.
Proof. intros (Hf & Hk & Hk2 & Ht). rewrite slot_of_eq. lia. Qed.

Lemma slot_of_inj fmt k top fmt' k' top' : page_ok fmt k top -> page_ok fmt' k' top' ->
  slot_of fmt k top = slot_of fmt' k' top' -> fmt = fmt' /\ k = k' /\ top = top'.
Proof. intros (Hf & Hk & Hk2 & Ht) (Hf' & Hk' & Hk2' & Ht'). rewrite !slot_of_eq. lia. Qed.

Lemma page_cols fmt k : (fmt = 0 \/ fmt = 1) -> 0 <= k -> k + fmt <= 15 ->
  zrange (Z.shiftr (u32 (64 * k)) 6) (last_col (64 * k) (page_width fmt)) = zrange k (k + fmt).
Proof.
  intros Hf Hk Hk2. rewrite region_first by lia. unfold last_col, VRAM_DIRTY_COLS. 
  assert (Hw : page_width fmt = 64 * (1 + fmt)) by (destruct Hf as [-> | ->]; reflexivity). rewrite Hw.
  rewrite u32_small by (unfold is_u32; lia). rewrite !Z.shiftr_div_pow2 by lia. change (2 ^ 6) with 64.
  replace (64 * k + 64 * (1 + fmt) - 1) with (63 + (k + fmt) * 64) by lia. rewrite Z.div_add by lia. change (63 / 64) with 0.
  rewrite (Z.mul_comm 64 k), Z.div_mul by lia. f_equal. lia.
Qed.

Lemma page_rows top : (top = 0 \/ top = 1) ->
  zrange (Z.shiftr (u32 (256 * top)) VRAM_DIRTY_ROW_SHIFT) (last_row (256 * top) 256) = zrange (16 * top) (16 * top + 15).
Proof. intros [-> | ->]; reflexivity. Qed.

Definition page_current (fmt k top : Z) (t : TexCache) : Z := get_region_gen (64 * k) (256 * top) (page_width fmt) 256 t.

Definition in_page (fmt k top r c : Z) : Prop := 16 * top <= r <= 16 * top + 15 /\ k <= c <= k + fmt.

Lemma page_current_spec fmt k top t : page_ok fmt k top ->
  0 <= page_current fmt k top t /\ (forall r c, in_page fmt k top r c -> block_gen t r c <= page_current fmt k top t) /\
  (page_current fmt k top t = 0 \/ exists r c, in_page fmt k top r c /\ page_current fmt k top t = block_gen t r c).
Proof.
  intros (Hf & Hk & Hk2 & Ht). unfold page_current, get_region_gen. cbv zeta. rewrite page_cols, page_rows by assumption.
  set (rows := zrange (16 * top) (16 * top + 15)). set (cols := zrange k (k + fmt)).
  replace (fold_left _ rows 0) with
    (fold_left (fun m i => let g := aget (vram_page_gen t) i in if m <? g then g else m) (flat_map (fun r => map (fun c => r * 16 + c) cols) rows) 0).
  2: { rewrite <- (fold_flat (fun m i => let g := aget (vram_page_gen t) i in if m <? g then g else m) (fun r => map (fun c => r * 16 + c) cols)).
       generalize 0 as m. induction rows as [|r rows IH]; intros m; [reflexivity|]. cbn [fold_left].
       rewrite <- (fold_map (fun m i => let g := aget (vram_page_gen t) i in if m <? g then g else m) (fun c => r * 16 + c)). apply IH. }
  destruct (fold_max (aget (vram_page_gen t)) (flat_map (fun r => map (fun c => r * 16 + c) cols) rows) 0) as (H1 & H2 & H3).
  split; [exact H1|]. split.
  - intros r c [Hr Hc]. apply H2, in_flat_map. exists r. split; [apply in_zrange; exact Hr|]. apply in_map_iff. exists c.
    split; [reflexivity | apply in_zrange; exact Hc].
  - destruct H3 as [H3 | (i & Hi & H3)]; [left; exact H3 | right]. apply in_flat_map in Hi as (r & Hr & Hi). apply in_map_iff in Hi as (c & <- & Hc).
    apply in_zrange in Hr, Hc. exists r, c. split; [split; assumption | exact H3].
Qed.

Lemma row_dirty_spec fmt k top old t br : page_ok fmt k top -> 0 <= br < 16 ->
  row_dirty (64 * k) (256 * top) (page_width fmt) old t br = true <-> exists c, k <= c <= k + fmt /\ old < block_gen t (16 * top + br) c.
Proof.
  intros (Hf & Hk & Hk2 & Ht) Hbr. unfold row_dirty. cbv zeta. rewrite page_cols by assumption.
  assert (Hr : Z.shiftr (u32 (256 * top)) VRAM_DIRTY_ROW_SHIFT = 16 * top) by (destruct Ht as [-> | ->]; reflexivity).
  rewrite Hr. unfold VRAM_DIRTY_ROWS, VRAM_DIRTY_COLS. rewrite (proj2 (Z.ltb_lt _ 32)) by lia. cbn [andb]. rewrite existsb_exists. split.
  - intros (c & Hc & Hg). apply in_zrange in Hc. apply Z.ltb_lt in Hg. exists c. split; assumption.
  - intros (c & Hc & Hg). exists c. split; [apply in_zrange; exact Hc | apply Z.ltb_lt; exact Hg].
Qed.

(** *** The mask and its runs *)

Lemma mask_bits (f : Z -> bool) n : forall i, 0 <= i ->
  Z.testbit (fold_left (fun m br => if f br then Z.lor m (Z.shiftl 1 br) else m) (zseq n) 0) i = (i <? Z.of_nat n) && f i.
Proof.
  induction n as [|n IH]; intros i Hi.
  - change (Z.testbit 0 i = (i <? 0) && f i). rewrite Z.testbit_0_l, (proj2 (Z.ltb_ge i 0)) by lia. reflexivity.
  - rewrite zseq_snoc, fold_left_app. cbn [fold_left]. set (m := fold_left _ (zseq n) 0) in *.
    assert (Hb : forall j, 0 <= j -> Z.testbit (Z.shiftl 1 (Z.of_nat n)) j = (j =? Z.of_nat n)).
    { intros j Hj. rewrite Z.shiftl_1_l, Z.pow2_bits_eqb by lia. apply Z.eqb_sym. }
    destruct (f (Z.of_nat n)) eqn:Ef; [rewrite Z.lor_spec, Hb by lia|]; rewrite IH by exact Hi;
      destruct (Z.ltb_spec i (Z.of_nat n)), (Z.ltb_spec i (Z.of_nat (S n))), (Z.eqb_spec i (Z.of_nat n)); cbn [andb orb]; try lia;
      try subst i; rewrite ?Ef, ?orb_false_r; try reflexivity.
Qed.

Lemma run_end_spec mask : forall fuel br, 0 <= br -> br <= run_end fuel mask br /\
  (forall i, br <= i < run_end fuel mask br -> i < 16 /\ Z.testbit mask i = true) /\
  (br + Z.of_nat fuel > run_end fuel mask br -> run_end fuel mask br < 16 -> Z.testbit mask (run_end fuel mask br) = false).
Proof.
  induction fuel as [|fuel IH]; intros br Hbr; cbn [run_end]; [split; [lia|]; split; lia|].
  destruct (Z.ltb_spec br 16) as [Hlt|Hge]; cbn [andb]; [|split; [lia|]; split; lia].
  rewrite tst_shiftl by exact Hbr. destruct (Z.testbit mask br) eqn:Eb.
  - destruct (IH (br + 1) ltac:(lia)) as (H1 & H2 & H3). split; [lia|]. split.
    + intros i Hi. destruct (Z.eq_dec i br) as [->|Hne]; [split; assumption | apply H2; lia].
    + intros Hf. apply H3. lia.
  - split; [lia|]. split; [lia|]. intros _ _. exact Eb.
Qed.

(** The runs cover the rows of the dirty block rows and no others. *)
Definition covered (runs : list (Z * Z)) (r : Z) : Prop := exists run, In run runs /\ fst run <= r < fst run + snd run.

Lemma dirty_runs_spec mask : forall fuel br, 0 <= br -> 16 - br < Z.of_nat fuel -> forall r, 16 * br <= r < 256 ->
  covered (dirty_runs fuel mask br) r <-> Z.testbit mask (r / 16) = true.
Proof.
  induction fuel as [|fuel IH]; intros br Hbr Hf r Hr; [lia|]. cbn [dirty_runs].
  pose proof (Z.div_mod r 16 ltac:(lia)) as Hdm. pose proof (Z.mod_pos_bound r 16 ltac:(lia)) as Hmb.
  destruct (Z.ltb_spec br 16) as [Hlt|Hge]; [|lia]. rewrite tst_shiftl by exact Hbr.
  destruct (Z.testbit mask br) eqn:Eb; cbn [negb].
  - set (e := run_end 16 mask br). destruct (run_end_spec mask 16 br Hbr) as (H1 & H2 & H3). fold e in H1, H2, H3.
    assert (He : br < e).
    { destruct (Z.eq_dec e br) as [Ee|Hne]; [|lia]. exfalso. rewrite Ee in H3. rewrite H3 in Eb by lia. discriminate. }
    destruct (Z_lt_ge_dec r (16 * e)) as [Hin|Hout].
    + split; [intros _; apply (H2 (r / 16)); lia|]. intros _. exists (br * 16, (e - br) * 16). split; [left; reflexivity | cbn [fst snd]; lia].
    + rewrite <- (IH e ltac:(lia) ltac:(lia) r ltac:(lia)). split.
      * intros (run & [<- | Hrun] & Hc); [cbn [fst snd] in Hc; lia | exists run; auto].
      * intros (run & Hrun & Hc). exists run. split; [right; exact Hrun | exact Hc].
  - destruct (Z_lt_ge_dec r (16 * (br + 1))) as [Hin|Hout]; [|apply IH; lia].
    assert (Er : r / 16 = br) by lia. rewrite Er, Eb. split; [|discriminate]. intros (run & Hrun & Hc). exfalso.
    assert (Hlow : forall fuel br', 0 <= br' -> forall run, In run (dirty_runs fuel mask br') -> 16 * br' <= fst run).
    { clear. induction fuel as [|fuel IH]; intros br' Hb run Hin; cbn [dirty_runs] in Hin; [destruct Hin|].
      destruct (br' <? 16); [|destruct Hin]. destruct (negb _); [specialize (IH (br' + 1) ltac:(lia) run Hin); lia|].
      destruct Hin as [<- | Hin]; [cbn [fst]; lia|]. pose proof (proj1 (run_end_spec mask 16 br' Hb)). specialize (IH (run_end 16 mask br') ltac:(lia) run Hin). lia. }
    specialize (Hlow fuel (br + 1) ltac:(lia) run Hrun). lia.
Qed.

(** ** The slots and the memory *)

(** The texture slots of the chip: the halfwords of row [r] of slot [s]. *)
Definition Chip : Type := Z -> Z -> list Z.

Definition page_row (v : gmap Z Z) (fmt k top r : Z) : list Z :=
  map (fun j => shadow_px v (64 * k + j) (256 * top + r)) (zseq (Z.to_nat (page_width fmt))).

(** A run of rows of a page arrives. *)
Definition receive (v : gmap Z Z) (fmt k top : Z) (run : Z * Z) (chip : Chip) : Chip := fun s r =>
  if (s =? slot_of fmt k top) && (fst run <=? r) && (r <? fst run + snd run) then page_row v fmt k top r else chip s r.

Lemma receive_runs v fmt k top runs : forall chip s r,
  (s = slot_of fmt k top /\ fold_left (fun chip run => receive v fmt k top run chip) runs chip s r = page_row v fmt k top r) \/
  (fold_left (fun chip run => receive v fmt k top run chip) runs chip s r = chip s r /\ ~ (s = slot_of fmt k top /\ covered runs r)).
Proof.
  induction runs as [|run runs IH] using rev_ind; intros chip s r.
  - right. split; [reflexivity|]. intros (_ & run & [] & _).
  - rewrite fold_left_app. cbn [fold_left]. specialize (IH chip s r).
    set (got := fold_left (fun chip run => receive v fmt k top run chip) runs chip) in *. unfold receive.
    destruct (Z.eqb_spec s (slot_of fmt k top)) as [Es|Es]; cbn [andb].
    2: { destruct IH as [H | [H _] ]; [left; exact H | right; split; [exact H | intros [E _]; contradiction] ]. }
    destruct (Z.leb_spec (fst run) r) as [H1|H1]; cbn [andb]; [destruct (Z.ltb_spec r (fst run + snd run)) as [H2|H2]; [left; split; [exact Es | reflexivity] |] |].
    all: destruct IH as [H | [H Hno] ]; [left; exact H | right; split; [exact H|] ];
      intros (_ & run' & Hin & Hr); apply in_app_or in Hin as [Hin | [<- | [] ] ]; [apply Hno; split; [exact Es | exists run'; split; assumption] | lia].
Qed.

(** The generations bound, and a page's slot holds the rows whose blocks were
    not written since the page was sent. *)
Record coherent (v : gmap Z Z) (gen : Z) (t : TexCache) (chip : Chip) : Prop := {
  co_blocks : zlen (vram_page_gen t) = 512;
  co_pages : zlen (page_gen t) = 64;
  co_gen : forall r c, 0 <= r < 32 -> 0 <= c < 16 -> 0 <= block_gen t r c <= gen;
  co_page_gen : forall s, 0 <= s < 64 -> 0 <= aget (page_gen t) s <= gen;
  co_rows : forall fmt k top r, page_ok fmt k top -> 0 <= r < 256 ->
    aget (page_gen t) (slot_of fmt k top) <> 0 ->
    (forall c, k <= c <= k + fmt -> block_gen t (16 * top + r / 16) c <= aget (page_gen t) (slot_of fmt k top)) ->
    chip (slot_of fmt k top) r = page_row v fmt k top r
}.

(** A write to the shadow copy reported with the next generation. *)
Definition reported_write (rx ry w h : Z) (v v' : gmap Z Z) : Prop :=
  forall qx qy, 0 <= qx < 1024 -> 0 <= qy < 512 -> ~ (rx <= qx < rx + w /\ ry <= qy < ry + h) -> shadow_px v' qx qy = shadow_px v qx qy.

Lemma shiftr_mono a b n : 0 <= n -> a <= b -> Z.shiftr a n <= Z.shiftr b n.
Proof. intros Hn Hab. rewrite !Z.shiftr_div_pow2 by lia. apply Z.div_le_mono; [apply Z.pow_pos_nonneg; lia | exact Hab]. Qed.

Lemma write_coherent v v' gen t chip rx ry w h : coherent v gen t chip -> 0 <= rx -> 0 <= ry -> 0 < w -> 0 < h ->
  rx + w < 2 ^ 32 -> ry + h < 2 ^ 32 -> reported_write rx ry w h v v' ->
  coherent v' (gen + 1) (Tex_Cache_DirtyRegion rx ry w h (gen + 1) t) chip.
Proof.
  intros [H1 H2 H3 H4 H5] Hx Hy Hw Hh Hxw Hyh Hv.
  assert (Hpg : page_gen (Tex_Cache_DirtyRegion rx ry w h (gen + 1) t) = page_gen t).
  { unfold Tex_Cache_DirtyRegion. cbv zeta. destruct (_ || _); reflexivity. }
  pose proof (fun r c Hr Hc => dirty_block rx ry w h (gen + 1) t r c H1 Hx Hy Hw Hh Hxw Hyh Hr Hc) as Hd. cbv zeta in Hd.
  assert (Hdec : forall r c, {touches rx ry w h r c} + {~ touches rx ry w h r c}).
  { intros r c. unfold touches. destruct (Z_le_dec (Z.shiftr rx 6) c), (Z_le_dec c (Z.shiftr (rx + w - 1) 6)),
      (Z_le_dec (Z.shiftr ry 4) r), (Z_le_dec r (Z.shiftr (ry + h - 1) 4)); [left; auto | right.. ]; intros [ [? ?] [? ?] ]; contradiction. }
  split; rewrite ?Hpg; [exact (proj1 (Hd 0 0 ltac:(lia) ltac:(lia))) | exact H2 | | |].
  - intros r c Hr Hc. destruct (Hd r c Hr Hc) as (_ & Ht & Hn). specialize (H3 r c Hr Hc).
    destruct (Hdec r c) as [Hin|Hout]; [rewrite Ht by exact Hin; lia | rewrite Hn by exact Hout; lia].
  - intros s Hs. specialize (H4 s Hs). lia.
  - intros fmt k top r Hp Hr Hg Hall. pose proof Hp as (Hf & Hk & Hk2 & Htop).
    pose proof (H4 (slot_of fmt k top) (slot_of_range _ _ _ Hp)) as Hle.
    assert (Hr16 : 0 <= r / 16 < 16) by (split; [apply Z.div_pos; lia | apply Z.div_lt_upper_bound; lia]).
    assert (Hout : forall c, k <= c <= k + fmt -> ~ touches rx ry w h (16 * top + r / 16) c).
    { intros c Hc Hin. specialize (Hall c Hc). destruct (Hd (16 * top + r / 16) c ltac:(lia) ltac:(lia)) as (_ & Ht & _). rewrite Ht in Hall by exact Hin. lia. }
    rewrite (H5 fmt k top r Hp Hr Hg).
    + apply map_ext_in. intros j Hj. apply in_zseq in Hj.
      assert (Hw2 : page_width fmt = 64 * (1 + fmt)) by (destruct Hf as [-> | ->]; reflexivity). rewrite Hw2 in Hj. 
      symmetry. apply Hv; [lia | lia|]. intros [Hqx Hqy]. apply (Hout ((64 * k + j) / 64)).
      * replace (64 * k + j) with (j + k * 64) by lia. rewrite Z.div_add by lia.
        assert (0 <= j / 64) by (apply Z.div_pos; lia). assert (j / 64 < 1 + fmt) by (apply Z.div_lt_upper_bound; lia). lia.
      * assert (Er : 16 * top + r / 16 = Z.shiftr (256 * top + r) 4).
        { rewrite Z.shiftr_div_pow2 by lia. change (2 ^ 4) with 16. replace (256 * top + r) with (r + (16 * top) * 16) by lia. rewrite Z.div_add by lia. lia. }
        assert (Ec : (64 * k + j) / 64 = Z.shiftr (64 * k + j) 6) by (rewrite Z.shiftr_div_pow2 by lia; reflexivity).
        unfold touches. rewrite Er, Ec. split; split; apply shiftr_mono; lia.
    + intros c Hc. specialize (Hall c Hc). destruct (Hd (16 * top + r / 16) c ltac:(lia) ltac:(lia)) as (_ & _ & Hn). rewrite Hn in Hall by (apply Hout, Hc). exact Hall.
Qed.

Section Use.
Context {SDK : GsSdk}.

(** *** Using a page *)

Lemma prim_idx_slot fmt k top : 0 <= k -> (top = 0 \/ top = 1) -> prim_tex_cache_idx fmt (64 * k) (256 * top) = slot_of fmt k top.
Proof.
  intros Hk Ht. rewrite slot_of_eq. unfold prim_tex_cache_idx. rewrite !Z.shiftr_div_pow2 by lia. change (2 ^ 6) with 64. change (2 ^ 8) with 256.
  rewrite (Z.mul_comm 64), (Z.mul_comm 256), !Z.div_mul by lia. lia.
Qed.

Lemma invalidate_page_gens px py t :
  vram_page_gen (Prim_InvalidateTexCache_Page px py t) = vram_page_gen t /\ page_gen (Prim_InvalidateTexCache_Page px py t) = page_gen t /\
  zlen (prim_tex_cache (Prim_InvalidateTexCache_Page px py t)) = zlen (prim_tex_cache t) /\
  prim_tex_cache_last (Prim_InvalidateTexCache_Page px py t) = prim_tex_cache_last t.
Proof. unfold Prim_InvalidateTexCache_Page. change (zseq 3) with [0; 1; 2]. cbn. rewrite !zlen_aset. auto. Qed.

(** What a decoding does besides sending. *)
Lemma decode_shape v fmt k top t g : page_ok fmt k top ->
  let '(res, tbp0, t', _) := Decode_TexPage_Cached v fmt (64 * k) (256 * top) t g in
  res = 3 /\ tbp0 = page_tbp0 (compute_page_id (64 * k) (256 * top)) fmt /\ vram_page_gen t' = vram_page_gen t /\
  (aget (page_gen t) (slot_of fmt k top) = page_current fmt k top t -> t' = t) /\
  (aget (page_gen t) (slot_of fmt k top) <> page_current fmt k top t ->
   t' = Prim_InvalidateTexCache_Page (64 * k) (256 * top) (t <| page_gen ::= fun l => aset l (slot_of fmt k top) (page_current fmt k top t) |>)).
Proof.
  intros (Hf & _). unfold Decode_TexPage_Cached. rewrite (proj2 (Z.ltb_ge 1 fmt)) by lia. cbv zeta.
  fold (slot_of fmt k top). fold (page_current fmt k top t).
  destruct (Z.eqb_spec (aget (page_gen t) (slot_of fmt k top)) (page_current fmt k top t)) as [E|E].
  - repeat split; try reflexivity. intros Hne. contradiction.
  - split; [reflexivity|]. split; [reflexivity|]. split; [rewrite (proj1 (invalidate_page_gens _ _ _)); reflexivity|].
    split; [contradiction | reflexivity].
Qed.

Lemma plan_rows fmt k top t : page_ok fmt k top -> forall r, 0 <= r < 256 ->
  covered (page_plan fmt (64 * k) (256 * top) t) r \/
  (aget (page_gen t) (slot_of fmt k top) = page_current fmt k top t) \/
  (aget (page_gen t) (slot_of fmt k top) <> 0 /\ forall c, k <= c <= k + fmt -> block_gen t (16 * top + r / 16) c <= aget (page_gen t) (slot_of fmt k top)).
Proof.
  intros Hp r Hr. unfold page_plan. fold (slot_of fmt k top). cbv zeta. fold (page_current fmt k top t).
  set (old := aget (page_gen t) (slot_of fmt k top)). destruct (Z.eqb_spec old (page_current fmt k top t)) as [E|E]; [right; left; exact E|].
  set (mask := dirty_mask _ _ _ old t).
  destruct (Z.eqb_spec old 0) as [E0|E0]; cbn [negb andb]; [left; exists (0, 256); split; [left; reflexivity | cbn; lia] |].
  destruct (Z.eqb_spec mask 0xFFFF); cbn [negb]; [left; exists (0, 256); split; [left; reflexivity | cbn; lia] |].
  assert (Hbit : Z.testbit mask (r / 16) = row_dirty (64 * k) (256 * top) (page_width fmt) old t (r / 16)).
  { unfold mask, dirty_mask. rewrite mask_bits by (apply Z.div_pos; lia). change (Z.of_nat 16) with 16.
    rewrite (proj2 (Z.ltb_lt _ 16)) by (apply Z.div_lt_upper_bound; lia). reflexivity. }
  destruct (row_dirty (64 * k) (256 * top) (page_width fmt) old t (r / 16)) eqn:Ed.
  - left. apply (dirty_runs_spec mask 17 0 ltac:(lia) ltac:(lia)); [lia | exact Hbit].
  - right. right. split; [exact E0|]. intros c Hc. apply Z.nlt_ge. intros Hlt.
    assert (Ht : row_dirty (64 * k) (256 * top) (page_width fmt) old t (r / 16) = true); [|congruence].
    apply row_dirty_spec; [exact Hp | split; [apply Z.div_pos; lia | apply Z.div_lt_upper_bound; lia] | exists c; split; assumption].
Qed.

(** The chip after a page was decoded. *)
Definition chip_after (v : gmap Z Z) (fmt k top : Z) (t : TexCache) (chip : Chip) : Chip :=
  fold_left (fun chip run => receive v fmt k top run chip) (page_plan fmt (64 * k) (256 * top) t) chip.

Lemma decode_coherent v gen t chip fmt k top g : page_ok fmt k top -> coherent v gen t chip ->
  let '(_, _, t', _) := Decode_TexPage_Cached v fmt (64 * k) (256 * top) t g in
  coherent v gen t' (chip_after v fmt k top t chip) /\ aget (page_gen t') (slot_of fmt k top) = page_current fmt k top t /\
  (page_current fmt k top t <> 0 -> forall r, 0 <= r < 256 -> chip_after v fmt k top t chip (slot_of fmt k top) r = page_row v fmt k top r).
Proof.
  intros Hp Hco. pose proof Hco as [H1 H2 H3 H4 H5]. pose proof (slot_of_range _ _ _ Hp) as Hs.
  destruct (page_current_spec fmt k top t Hp) as (Hc0 & Hall & Hatt).
  pose proof (decode_shape v fmt k top t g Hp) as Hsh. destruct (Decode_TexPage_Cached _ _ _ _ _ _) as [ [ [res tbp0] t'] g'].
  destruct Hsh as (_ & _ & Hgen & Hhit & Hmiss).
  assert (Hin : forall r c, 0 <= r < 256 -> k <= c <= k + fmt -> block_gen t (16 * top + r / 16) c <= page_current fmt k top t).
  { intros r c Hr Hc. apply Hall. split; [|exact Hc]. assert (0 <= r / 16 < 16) by (split; [apply Z.div_pos; lia | apply Z.div_lt_upper_bound; lia]). lia. }
  assert (Hcur : page_current fmt k top t <> 0 -> forall r, 0 <= r < 256 -> chip_after v fmt k top t chip (slot_of fmt k top) r = page_row v fmt k top r).
  { intros Hne r Hr. destruct (receive_runs v fmt k top (page_plan fmt (64 * k) (256 * top) t) chip (slot_of fmt k top) r) as [ [_ H] | [H Hno] ]; [exact H|].
    unfold chip_after. rewrite H. destruct (plan_rows fmt k top t Hp r Hr) as [Hcv | [Heq | [Hn Hle] ] ]; [exfalso; apply Hno; auto | |].
    - apply H5; [exact Hp | exact Hr | congruence|]. intros c Hc. rewrite Heq. apply Hin; assumption.
    - apply H5; assumption. }
  destruct (Z.eq_dec (aget (page_gen t) (slot_of fmt k top)) (page_current fmt k top t)) as [E|E].
  - rewrite (Hhit E) in *. assert (Hch : chip_after v fmt k top t chip = chip).
    { unfold chip_after, page_plan. fold (slot_of fmt k top). cbv zeta. fold (page_current fmt k top t). rewrite (proj2 (Z.eqb_eq _ _) E). reflexivity. }
    rewrite Hch in *. split; [exact Hco|]. split; [exact E | exact Hcur].
  - rewrite (Hmiss E) in *. set (t1 := t <| page_gen ::= _ |>) in *. destruct (invalidate_page_gens (64 * k) (256 * top) t1) as (G1 & G2 & _).
    assert (Hpg : page_gen t1 = aset (page_gen t) (slot_of fmt k top) (page_current fmt k top t)) by reflexivity.
    split; [|split; [rewrite G2, Hpg; apply aget_aset_eq; lia | exact Hcur] ].
    assert (Hbg : forall r c, block_gen (Prim_InvalidateTexCache_Page (64 * k) (256 * top) t1) r c = block_gen t r c) by (intros; unfold block_gen; rewrite G1; reflexivity).
    split; [rewrite G1; exact H1 | rewrite G2, Hpg, zlen_aset; exact H2 | intros r c Hr Hc; rewrite Hbg; apply H3; assumption | |].
    + intros s Hs'. rewrite G2, Hpg. destruct (Z.eq_dec s (slot_of fmt k top)) as [->|Hne].
      * rewrite aget_aset_eq by lia. split; [exact Hc0|]. destruct Hatt as [-> | (r & c & [Hr Hc] & ->)]; [specialize (H4 _ Hs); lia|].
        pose proof Hp as (Hf & Hk & Hk2 & Ht). apply H3; lia.
      * rewrite aget_aset_ne by lia. apply H4, Hs'.
    + intros fmt' k' top' r Hp' Hr. rewrite G2, Hpg. destruct (Z.eq_dec (slot_of fmt' k' top') (slot_of fmt k top)) as [Es|Es].
      * destruct (slot_of_inj _ _ _ _ _ _ Hp' Hp Es) as (-> & -> & ->). rewrite aget_aset_eq by lia. intros Hne _. apply Hcur; assumption.
      * rewrite aget_aset_ne by (pose proof (slot_of_range _ _ _ Hp'); lia). intros Hne Hle.
        destruct (receive_runs v fmt k top (page_plan fmt (64 * k) (256 * top) t) chip (slot_of fmt' k' top') r) as [ [Es2 _] | [H _] ].
        -- contradiction.
        -- unfold chip_after. rewrite H. apply H5; assumption.
Qed.

(** *** The renderer's cache *)

(** A valid entry belongs to its page, was made when the page was sent last,
    and its snapshot is honest. *)
Definition entry_ok (gen : Z) (t : TexCache) (fmt k top : Z) : Prop :=
  let e := prim_entry t (slot_of fmt k top) in e_valid e = true ->
  e_tex_format e = fmt /\ e_tex_page_x e = 64 * k /\ e_tex_page_y e = 256 * top /\
  e_vram_gen e = aget (page_gen t) (slot_of fmt k top) /\ e_global_gen e <= gen /\
  (e_global_gen e = gen -> page_current fmt k top t = e_vram_gen e).

Record prims_ok (gen : Z) (t : TexCache) : Prop := {
  pr_len : zlen (prim_tex_cache t) = 96;
  pr_entry : forall fmt k top, page_ok fmt k top -> entry_ok gen t fmt k top;
  pr_last : 0 <= prim_tex_cache_last t -> exists fmt k top, page_ok fmt k top /\ prim_tex_cache_last t = slot_of fmt k top
}.

Lemma page_current_gens fmt k top t t' : vram_page_gen t' = vram_page_gen t -> page_current fmt k top t' = page_current fmt k top t.
Proof. intros E. unfold page_current, get_region_gen. rewrite E. reflexivity. Qed.

Lemma GetPageGen_current fmt k top t : page_ok fmt k top -> Tex_Cache_GetPageGen fmt (64 * k) (256 * top) t = page_current fmt k top t.
Proof. intros ([-> | ->] & _); reflexivity. Qed.

Lemma entry_current_spec fmt k top gen t : page_ok fmt k top -> prims_ok gen t -> e_valid (prim_entry t (slot_of fmt k top)) = true ->
  let '(hit, t') := entry_current (slot_of fmt k top) fmt (64 * k) (256 * top) gen t in
  (hit = false -> t' = t) /\
  (hit = true -> prims_ok gen t' /\ vram_page_gen t' = vram_page_gen t /\ page_gen t' = page_gen t /\
     aget (page_gen t) (slot_of fmt k top) = page_current fmt k top t).
Proof.
  intros Hp [H1 H2 H3] Hv. pose proof (slot_of_range _ _ _ Hp) as Hs. destruct (H2 fmt k top Hp Hv) as (E1 & E2 & E3 & E4 & E5 & E6).
  unfold entry_current. rewrite GetPageGen_current by exact Hp.
  destruct (Z.eqb_spec (e_global_gen (prim_entry t (slot_of fmt k top))) gen) as [Eg|Eg].
  - split; [discriminate|]. intros _. split; [|split; [reflexivity|]; split; [reflexivity|]; rewrite <- E4; symmetry; apply E6, Eg].
    split; [exact H1 | exact H2 | intros _; exists fmt, k, top; split; [exact Hp | reflexivity] ].
  - destruct (Z.eqb_spec (e_vram_gen (prim_entry t (slot_of fmt k top))) (page_current fmt k top t)) as [Ev|Ev]; [|split; [reflexivity | discriminate] ].
    split; [discriminate|]. intros _. split; [|split; [reflexivity|]; split; [reflexivity | congruence] ].
    split; [cbn [prim_tex_cache upd setter]; rewrite zlen_aset; exact H1 | | intros _; exists fmt, k, top; split; [exact Hp | reflexivity] ].
    intros fmt' k' top' Hp'. unfold entry_ok, prim_entry. cbn [prim_tex_cache upd setter]. pose proof (slot_of_range _ _ _ Hp') as Hs'.
    rewrite anth_aset by lia. destruct (Z.eqb_spec (slot_of fmt k top) (slot_of fmt' k' top')) as [Es|Es].
    + destruct (slot_of_inj _ _ _ _ _ _ Hp Hp' Es) as (<- & <- & <-). cbn. intros _. repeat split; try assumption; try lia.
      intros _. symmetry. exact Ev.
    + intros Hv'. exact (H2 fmt' k' top' Hp' Hv').
Qed.

Lemma lookup_spec fmt k top gen t : page_ok fmt k top -> prims_ok gen t ->
  let '(hit, t') := prim_tex_cache_lookup fmt (64 * k) (256 * top) gen t in
  (hit = false -> t' = t) /\
  (hit = true -> prims_ok gen t' /\ vram_page_gen t' = vram_page_gen t /\ page_gen t' = page_gen t /\
     aget (page_gen t) (slot_of fmt k top) = page_current fmt k top t).
Proof.
  intros Hp Hok. pose proof Hp as (_ & Hk & _ & Ht). unfold prim_tex_cache_lookup. cbv zeta. rewrite prim_idx_slot by assumption.
  destruct (Z.leb_spec 0 (prim_tex_cache_last t)) as [Hl|Hl]; cbn [andb].
  2: { destruct (e_valid (prim_entry t (slot_of fmt k top))) eqn:Ev; [apply entry_current_spec; assumption | split; [reflexivity | discriminate] ]. }
  destruct (same_page (prim_entry t (prim_tex_cache_last t)) fmt (64 * k) (256 * top)) eqn:Esp.
  2: { destruct (e_valid (prim_entry t (slot_of fmt k top))) eqn:Ev; [apply entry_current_spec; assumption | split; [reflexivity | discriminate] ]. }
  destruct (pr_last _ _ Hok Hl) as (fmt' & k' & top' & Hp' & El). unfold same_page in Esp.
  apply andb_true_iff in Esp as [Esp Ey]. apply andb_true_iff in Esp as [Esp Ex]. apply andb_true_iff in Esp as [Ev Ef].
  rewrite El in *. destruct (pr_entry _ _ Hok fmt' k' top' Hp' Ev) as (G1 & G2 & G3 & _).
  apply Z.eqb_eq in Ef, Ex, Ey. assert (fmt' = fmt /\ k' = k /\ top' = top) as (-> & -> & ->) by lia. apply entry_current_spec; assumption.
Qed.

Lemma invalidate_entry px py t i : zlen (prim_tex_cache t) = 96 -> 0 <= i < 96 -> 0 <= px -> 0 <= py ->
  prim_entry (Prim_InvalidateTexCache_Page px py t) i = prim_entry t i \/ e_valid (prim_entry (Prim_InvalidateTexCache_Page px py t) i) = false.
Proof.
  intros Hl Hi Hx Hy. unfold Prim_InvalidateTexCache_Page. change (zseq 3) with [0; 1; 2]. cbn [fold_left].
  assert (Hstep : forall t fmt, 0 <= fmt -> zlen (prim_tex_cache t) = 96 ->
    let t1 := t <| prim_tex_cache ::= fun l => aset l (prim_tex_cache_idx fmt px py) ((prim_entry t (prim_tex_cache_idx fmt px py)) <| e_valid := false |>) |> in
    zlen (prim_tex_cache t1) = 96 /\ (prim_entry t1 i = prim_entry t i \/ e_valid (prim_entry t1 i) = false)).
  { intros t0 fmt Hf Hl0. cbv zeta. cbn [prim_tex_cache upd setter]. split; [rewrite zlen_aset; exact Hl0|]. unfold prim_entry at 1 4. cbn [prim_tex_cache upd setter].
    assert (Hidx : 0 <= prim_tex_cache_idx fmt px py).
    { unfold prim_tex_cache_idx. assert (0 <= Z.shiftr px 6) by (apply Z.shiftr_nonneg; lia). assert (0 <= Z.shiftr py 8) by (apply Z.shiftr_nonneg; lia). lia. }
    destruct (Z.eq_dec (prim_tex_cache_idx fmt px py) i) as [<-|Hne]; [right; rewrite anth_aset_eq by lia; reflexivity | left; apply anth_aset_ne; lia]. }
  cbv zeta in Hstep. destruct (Hstep t 0 ltac:(lia) Hl) as (L1 & V1). set (t1 := t <| prim_tex_cache ::= _ |>) in *.
  destruct (Hstep t1 1 ltac:(lia) L1) as (L2 & V2). set (t2 := t1 <| prim_tex_cache ::= _ |>) in *.
  destruct (Hstep t2 2 ltac:(lia) L2) as (_ & V3). destruct V3 as [-> | V3]; [|right; exact V3]. destruct V2 as [-> | V2]; [|right; exact V2]. exact V1.
Qed.

Lemma invalidate_own fmt k top t : page_ok fmt k top -> zlen (prim_tex_cache t) = 96 ->
  e_valid (prim_entry (Prim_InvalidateTexCache_Page (64 * k) (256 * top) t) (slot_of fmt k top)) = false.
Proof.
  intros (Hf & Hk & Hk2 & Ht) Hl. unfold Prim_InvalidateTexCache_Page. change (zseq 3) with [0; 1; 2]. cbn [fold_left].
  rewrite !prim_idx_slot by assumption. unfold prim_entry. cbn [prim_tex_cache upd setter]. rewrite !slot_of_eq.
  repeat (rewrite anth_aset by (rewrite ?zlen_aset; lia)).
  destruct Hf as [-> | ->]; repeat match goal with |- context [?a =? ?b] => destruct (Z.eqb_spec a b); try lia end; reflexivity.
Qed.

(** Decoding a page and entering it. *)
Lemma prim_decode_ok v gen t chip fmt k top cx cy g : page_ok fmt k top -> coherent v gen t chip -> prims_ok gen t ->
  let '(_, t', _) := prim_tex_decode v fmt (64 * k) (256 * top) cx cy gen t g in
  coherent v gen t' (chip_after v fmt k top t chip) /\ prims_ok gen t' /\ page_current fmt k top t' = page_current fmt k top t /\
  (page_current fmt k top t <> 0 -> forall r, 0 <= r < 256 -> chip_after v fmt k top t chip (slot_of fmt k top) r = page_row v fmt k top r).
Proof.
  intros Hp Hco Hpr. pose proof Hp as (Hf & Hk & Hk2 & Ht). pose proof (slot_of_range _ _ _ Hp) as Hs.
  unfold prim_tex_decode. pose proof (decode_coherent v gen t chip fmt k top g Hp Hco) as Hd. pose proof (decode_shape v fmt k top t g Hp) as Hsh.
  destruct (Decode_TexPage_Cached _ _ _ _ _ _) as [ [ [res tbp0] t1] g1]. destruct Hd as (Hco1 & Hpg & Hrows).
  destruct Hsh as (_ & _ & Hgens & Hhit & Hmiss). cbv zeta. rewrite prim_idx_slot, GetPageGen_current by assumption.
  rewrite (page_current_gens fmt k top t t1 Hgens).
  set (e := mkPrimTexEntry true _ _ _ _ _ _ _ _ _ _ _ _).
  assert (Hlen : zlen (prim_tex_cache t1) = 96).
  { destruct (Z.eq_dec (aget (page_gen t) (slot_of fmt k top)) (page_current fmt k top t)) as [E|E]; [rewrite (Hhit E); apply (pr_len _ _ Hpr)|].
    rewrite (Hmiss E). rewrite (proj1 (proj2 (proj2 (invalidate_page_gens _ _ _)))). apply (pr_len _ _ Hpr). }
  split; [|split; [|split; [|exact Hrows] ] ].
  - destruct Hco1 as [C1 C2 C3 C4 C5]. split; assumption.
  - split; [cbn [prim_tex_cache upd setter]; rewrite zlen_aset; exact Hlen | | intros _; exists fmt, k, top; split; [exact Hp | reflexivity] ].
    intros fmt' k' top' Hp'. pose proof (slot_of_range _ _ _ Hp') as Hs'. unfold entry_ok, prim_entry. cbn [prim_tex_cache upd setter page_gen].
    rewrite anth_aset by lia. destruct (Z.eqb_spec (slot_of fmt k top) (slot_of fmt' k' top')) as [Es|Es].
    + destruct (slot_of_inj _ _ _ _ _ _ Hp Hp' Es) as (<- & <- & <-). cbn. intros _. do 3 (split; [reflexivity|]). split; [symmetry; exact Hpg|]. split; [lia|].
      intros _. apply page_current_gens. exact Hgens.
    + intros Hv'. destruct (Z.eq_dec (aget (page_gen t) (slot_of fmt k top)) (page_current fmt k top t)) as [E|E].
      * rewrite (Hhit E) in *. exact (pr_entry _ _ Hpr fmt' k' top' Hp' Hv').
      * rewrite (Hmiss E) in *. set (t2 := t <| page_gen ::= _ |>) in *. destruct (invalidate_page_gens (64 * k) (256 * top) t2) as (I1 & I2 & _).
        destruct (invalidate_entry (64 * k) (256 * top) t2 (slot_of fmt' k' top')) as [Ie | Ie]; [apply (pr_len _ _ Hpr) | lia | lia | lia | |].
        2: { unfold prim_entry in Ie. rewrite Ie in Hv'. discriminate. }
        unfold prim_entry in Ie at 1. rewrite Ie in *. destruct (pr_entry _ _ Hpr fmt' k' top' Hp' Hv') as (P1 & P2 & P3 & P4 & P5 & P6).
        split; [exact P1|]. split; [exact P2|]. split; [exact P3|]. split; [|split; [exact P5|] ].
        -- rewrite I2. change (page_gen t2) with (aset (page_gen t) (slot_of fmt k top) (page_current fmt k top t)). rewrite aget_aset_ne by lia. exact P4.
        -- intros Eg. etransitivity; [apply page_current_gens; exact I1 | exact (P6 Eg)].
  - apply page_current_gens. exact Hgens.
Qed.

(** ** Writes and uses *)

Record TexSys := mkTexSys { ts_vram : gmap Z Z; ts_gen : Z; ts_tex : TexCache; ts_chip : Chip; ts_gif : Gif }.

(** A page is used by a primitive; the chip receives what is sent. *)
Definition use_step (fmt k top cx cy : Z) (s : TexSys) : TexSys :=
  let '(hit, t, g) := use_page (ts_vram s) fmt (64 * k) (256 * top) cx cy (ts_gen s) (ts_tex s) (ts_gif s) in
  mkTexSys (ts_vram s) (ts_gen s) t
    (if hit then ts_chip s else chip_after (ts_vram s) fmt k top (ts_tex s) (ts_chip s)) g.

Inductive tex_step : TexSys -> TexSys -> Prop :=
| step_write rx ry w h v' s : 0 <= rx -> 0 <= ry -> 0 < w -> 0 < h -> rx + w < 2 ^ 32 -> ry + h < 2 ^ 32 ->
    ts_gen s + 1 < 2 ^ 32 -> reported_write rx ry w h (ts_vram s) v' ->
    tex_step s (mkTexSys v' (ts_gen s + 1) (Tex_Cache_DirtyRegion rx ry w h (ts_gen s + 1) (ts_tex s)) (ts_chip s) (ts_gif s))
| step_use fmt k top cx cy s : page_ok fmt k top -> tex_step s (use_step fmt k top cx cy s).

Inductive tex_reach : TexSys -> Prop :=
| reach_start v chip g : tex_reach (mkTexSys v 0 Tex_Cache_Init chip g)
| reach_step s s' : tex_reach s -> tex_step s s' -> tex_reach s'.

Definition tex_inv (s : TexSys) : Prop :=
  coherent (ts_vram s) (ts_gen s) (ts_tex s) (ts_chip s) /\ prims_ok (ts_gen s) (ts_tex s).

Lemma init_inv v chip g : tex_inv (mkTexSys v 0 Tex_Cache_Init chip g).
Proof.
  assert (Hz : forall n i, aget (repeat 0 n) i = 0).
  { intros n i. unfold aget, anth. destruct (nth_in_or_default (Z.to_nat i) (repeat 0 n) 0) as [Hin | E]; [apply repeat_spec in Hin; exact Hin | exact E]. }
  split; split; cbn [ts_vram ts_gen ts_tex ts_chip vram_page_gen page_gen prim_tex_cache prim_tex_cache_last Tex_Cache_Init]; try reflexivity.
  - intros r c _ _. unfold block_gen. cbn [vram_page_gen Tex_Cache_Init]. rewrite Hz. lia.
  - intros s _. rewrite Hz. lia.
  - intros fmt k top r _ _ Hne. rewrite Hz in Hne. contradiction.
  - intros fmt k top Hp Hv. pose proof (slot_of_range _ _ _ Hp). exfalso. unfold prim_entry in Hv. cbn [prim_tex_cache Tex_Cache_Init] in Hv.
    unfold anth in Hv. destruct (nth_in_or_default (Z.to_nat (slot_of fmt k top)) (repeat prim_entry0 (Z.to_nat PRIM_TEX_CACHE_SIZE)) prim_entry0) as [Hin | E];
      [apply repeat_spec in Hin; rewrite Hin in Hv; discriminate | rewrite E in Hv; discriminate].
  - lia.
Qed.

Lemma use_spec fmt k top cx cy s : page_ok fmt k top -> tex_inv s ->
  let s' := use_step fmt k top cx cy s in
  tex_inv s' /\ page_current fmt k top (ts_tex s') = page_current fmt k top (ts_tex s) /\
  (page_current fmt k top (ts_tex s') <> 0 -> forall r, 0 <= r < 256 -> ts_chip s' (slot_of fmt k top) r = page_row (ts_vram s') fmt k top r).
Proof.
  intros Hp [Hco Hpr]. destruct s as [v gen t chip g]. cbn [ts_vram ts_gen ts_tex ts_chip] in *. cbv zeta. unfold use_step, use_page. cbn [ts_vram ts_gen ts_tex ts_chip ts_gif].
  pose proof (lookup_spec fmt k top gen t Hp Hpr) as Hl. destruct (prim_tex_cache_lookup _ _ _ _ _) as [hit t1]. destruct Hl as [Hmiss Hhit].
  destruct hit.
  - destruct (Hhit eq_refl) as (Hpr1 & G1 & G2 & Heq). cbn [ts_vram ts_gen ts_tex ts_chip].
    assert (Hb : forall r c, block_gen t1 r c = block_gen t r c) by (intros; unfold block_gen; rewrite G1; reflexivity).
    rewrite (page_current_gens fmt k top t t1 G1). split; [split; [|exact Hpr1]|split; [reflexivity|] ].
    + destruct Hco as [C1 C2 C3 C4 C5]. split; unfold tex_inv; cbn [ts_vram ts_gen ts_tex ts_chip]; rewrite ?G1, ?G2; try assumption.
      * intros r c. rewrite Hb. apply C3.
      * intros f' k' t' r H1 H2 H3 H4. apply C5; try assumption. intros c Hc. rewrite <- Hb. apply H4, Hc.
    + intros Hne r Hr. apply (co_rows _ _ _ _ Hco); [exact Hp | exact Hr | congruence|]. intros c Hc. rewrite Heq.
      apply (page_current_spec fmt k top t Hp). split; [|exact Hc]. assert (0 <= r / 16 < 16) by (split; [apply Z.div_pos; lia | apply Z.div_lt_upper_bound; lia]). lia.
  - rewrite (Hmiss eq_refl). pose proof (prim_decode_ok v gen t chip fmt k top cx cy g Hp Hco Hpr) as Hd.
    destruct (prim_tex_decode _ _ _ _ _ _ _ _ _) as [ [res t2] g2]. destruct Hd as (D1 & D2 & D3 & D4). cbn [ts_vram ts_gen ts_tex ts_chip].
    split; [split; assumption|]. split; [exact D3|]. rewrite D3. exact D4.
Qed.

Lemma write_prims gen t rx ry w h : prims_ok gen t -> prims_ok (gen + 1) (Tex_Cache_DirtyRegion rx ry w h (gen + 1) t).
Proof.
  intros [H1 H2 H3]. assert (Hsame : forall P : TexCache -> Prop, (forall l, P (t <| vram_page_gen := l |>)) -> P t -> P (Tex_Cache_DirtyRegion rx ry w h (gen + 1) t)).
  { intros P Hl H0. unfold Tex_Cache_DirtyRegion. cbv zeta. destruct (_ || _); [exact H0 | apply Hl]. }
  assert (Hent : forall f k tp, page_ok f k tp -> e_valid (prim_entry t (slot_of f k tp)) = true ->
    e_global_gen (prim_entry t (slot_of f k tp)) <= gen) by (intros f k tp Hp Hv; destruct (H2 f k tp Hp Hv) as (_ & _ & _ & _ & H & _); exact H).
  split.
  - apply (Hsame (fun t => zlen (prim_tex_cache t) = 96)); [intros l; exact H1 | exact H1].
  - intros f k tp Hp. unfold entry_ok.
    assert (He : prim_entry (Tex_Cache_DirtyRegion rx ry w h (gen + 1) t) = prim_entry t) by (apply (Hsame (fun t' => prim_entry t' = prim_entry t)); [intros l|]; reflexivity).
    assert (Hg : page_gen (Tex_Cache_DirtyRegion rx ry w h (gen + 1) t) = page_gen t) by (apply (Hsame (fun t' => page_gen t' = page_gen t)); [intros l|]; reflexivity).
    cbv zeta. rewrite He, Hg. intros Hv. specialize (Hent f k tp Hp Hv). destruct (H2 f k tp Hp Hv) as (P1 & P2 & P3 & P4 & P5 & _).
    do 4 (split; [assumption|]). split; [lia | intros; lia].
  - apply (Hsame (fun t => 0 <= prim_tex_cache_last t -> exists f k tp, page_ok f k tp /\ prim_tex_cache_last t = slot_of f k tp)); [intros l; exact H3 | exact H3].
Qed.

Lemma tex_reach_inv s : tex_reach s -> tex_inv s.
Proof.
  induction 1 as [v chip g | s s' _ IH Hs]; [apply init_inv|]. destruct Hs as [rx ry w h v' s Hx Hy Hw Hh Hxw Hyh Hgen Hv | fmt k top cx cy s Hp].
  - destruct IH as [Hco Hpr]. split; cbn [ts_vram ts_gen ts_tex ts_chip]; [apply write_coherent with (ts_vram s); assumption | apply write_prims, Hpr].
  - apply (use_spec fmt k top cx cy s Hp IH).
Qed.

(** [C13] A texture page is current when it is used, for writes to the video
    memory that are reported with the next generation, over any region, as
    uploads and copies are ([tex_reach]).  However such writes and uses of
    indexed pages alternate, through the renderer's cache with its shortcuts
    and through partial uploads of the block rows that changed: when a page is
    used, its slot in the chip holds, in every row, what the shadow copy holds;
    unless nothing of the page was ever written.  Not covered are the changes
    that the code does not report: resets, readbacks, fills of the shadow copy
    and the wrapped part of a copy or an upload.  (The generation is a 32-bit
    counter: the writes are fewer than 2^32.) *)
Theorem texture_page_current s fmt k top cx cy : tex_reach s -> page_ok fmt k top ->
  let s' := use_step fmt k top cx cy s in
  (forall r c, in_page fmt k top r c -> block_gen (ts_tex s') r c = 0) \/
  (forall r, 0 <= r < 256 -> ts_chip s' (slot_of fmt k top) r = page_row (ts_vram s') fmt k top r).
Proof.
  intros Hr Hp. cbv zeta. destruct (use_spec fmt k top cx cy s Hp (tex_reach_inv s Hr)) as ( (Hco & _) & _ & Hrows).
  destruct (Z.eq_dec (page_current fmt k top (ts_tex (use_step fmt k top cx cy s))) 0) as [E|E]; [left | right; exact (Hrows E)].
  intros r c Hin. destruct (page_current_spec fmt k top (ts_tex (use_step fmt k top cx cy s)) Hp) as (_ & Hle & _). specialize (Hle r c Hin).
  destruct Hp as (Hf & Hk & Hk2 & Ht). destruct Hin as [Hrr Hcc]. pose proof (co_gen _ _ _ _ Hco r c ltac:(lia) ltac:(lia)). lia.
Qed.

(** ** What is sent for a page *)

Lemma pair_pixels_lor a b : is_u16 a -> is_u16 b -> pair_pixels (Z.lor a (Z.shiftl b 16)) = [a; b] /\ is_u32 (Z.lor a (Z.shiftl b 16)).
Proof.
  intros Ha Hb. unfold is_u16 in *. rewrite lor_concat by lia. unfold pair_pixels, is_u32. change (2 ^ 16) with 65536.
  split; [|lia]. change 0xFFFF with (Z.ones 16). rewrite Z.land_ones, Z.shiftr_div_pow2 by lia. change (2 ^ 16) with 65536.
  rewrite Z.mod_add, Z.div_add, Z.mod_small, Z.div_small by lia. reflexivity.
Qed.

Lemma mem_qword_pixels v i : vram_ok v -> qword_pixels (mem_qword v i) = map (fun k => default 0 (v !! (i + k))) (zseq 8).
Proof.
  intros Hv. set (hw := fun k => default 0 (v !! (i + k))).
  assert (Hu : forall k, is_u16 (hw k)).
  { intros k. unfold hw. destruct (v !! (i + k)) as [p|] eqn:E; cbn; [exact (map_Forall_lookup_1 _ _ _ _ Hv E) | unfold is_u16; lia]. }
  assert (Eq : mem_qword v i = qword_of [Z.lor (hw 0) (Z.shiftl (hw 1) 16); Z.lor (hw 2) (Z.shiftl (hw 3) 16);
      Z.lor (hw 4) (Z.shiftl (hw 5) 16); Z.lor (hw 6) (Z.shiftl (hw 7) 16)]).
  { unfold mem_qword, qword_of. cbv zeta. cbn [aget anth nth Z.to_nat Pos.to_nat Pos.iter_op]. fold hw.
    change (aget _ 0) with (Z.lor (hw 0) (Z.shiftl (hw 1) 16)). change (aget _ 1) with (Z.lor (hw 2) (Z.shiftl (hw 3) 16)).
    change (aget _ 2) with (Z.lor (hw 4) (Z.shiftl (hw 5) 16)). change (aget _ 3) with (Z.lor (hw 6) (Z.shiftl (hw 7) 16)).
    rewrite !Z.shiftl_lor, !Z.shiftl_shiftl by lia. reflexivity. }
  rewrite Eq, qword_of_pixels by (apply pair_pixels_lor; apply Hu). unfold pend_pixels. cbn [map concat].
  rewrite !(fun a b => proj1 (pair_pixels_lor (hw a) (hw b) (Hu a) (Hu b))). reflexivity.
Qed.

Lemma push_concat {A} (f : A -> list Qword) l : forall g, fold_left (fun g a => push_qwords (f a) g) l g = push_qwords (concat (map f l)) g.
Proof.
  induction l as [|a l IH]; intros g; [reflexivity|]. cbn [fold_left map concat]. rewrite IH. unfold push_qwords. rewrite fold_left_app. reflexivity.
Qed.

(** The 128-bit words of a row: eight or sixteen. *)
Definition row_qwords (v : gmap Z Z) (fmt k top r : Z) : list Qword :=
  map (fun q => mem_qword v ((256 * top + r) * 1024 + 64 * k + 8 * q)) (zseq (Z.to_nat (8 * (1 + fmt)))).

Lemma row_qwords_pixels v fmt k top r : vram_ok v -> (fmt = 0 \/ fmt = 1) -> qwords_pixels (row_qwords v fmt k top r) = page_row v fmt k top r.
Proof.
  intros Hv Hf. unfold qwords_pixels, row_qwords, page_row. rewrite map_map.
  rewrite (map_ext _ (fun q => map (fun j => default 0 (v !! ((256 * top + r) * 1024 + 64 * k + 8 * q + j))) (zseq 8))) by (intros q; apply mem_qword_pixels, Hv).
  assert (Hgen : forall b n, concat (map (fun q => map (fun j => default 0 (v !! (b + 8 * q + j))) (zseq 8)) (zseq n))
            = map (fun j => default 0 (v !! (b + j))) (zseq (8 * n))).
  { intros b n. induction n as [|n IH]; [reflexivity|]. rewrite (zseq_snoc n), map_app, concat_app, IH. cbn [map concat]. rewrite app_nil_r.
    replace (8 * S n)%nat with (8 * n + 8)%nat by lia. rewrite zseq_add, map_app, map_map. f_equal.
    apply map_ext. intros j. do 2 f_equal. lia. }
  rewrite Hgen. replace (8 * Z.to_nat (8 * (1 + fmt)))%nat with (Z.to_nat (page_width fmt)) by (destruct Hf as [-> | ->]; reflexivity).
  apply map_ext. intros j. unfold shadow_px. do 2 f_equal. lia.
Qed.

(** One packet of rows. *)
Lemma delivers_rows v fmt k top rows eop n g : vram_ok v -> (fmt = 0 \/ fmt = 1) -> prof_disable_gpu_render g = false -> eop = 0 \/ eop = 1 ->
  n = 8 * (1 + fmt) * zlen rows -> n < 32768 ->
  delivers (concat (map (page_row v fmt k top) rows)) g
    (fold_left (fun g r => push_qwords (row_qwords v fmt k top r) g) rows (Push_GIF_Tag (GIF_TAG_LO n eop 0 0 2 0) 0 g)).
Proof.
  intros Hv Hf Hg He Hn Hlt. rewrite push_concat. set (qs := concat (map (row_qwords v fmt k top) rows)).
  assert (Hl : zlen qs = n).
  { rewrite Hn. unfold qs, zlen. clear -Hf. induction rows as [|r rows IH]; [cbn; lia|]. cbn [map concat length]. rewrite length_app, Nat2Z.inj_add, IH.
    unfold row_qwords at 1. rewrite length_map, length_zseq. lia. }
  assert (Ep : qwords_pixels qs = concat (map (page_row v fmt k top) rows)).
  { unfold qs. clear -Hv Hf. induction rows as [|r rows IH]; [reflexivity|]. cbn [map concat]. rewrite qwords_pixels_app, IH, row_qwords_pixels by assumption. reflexivity. }
  rewrite <- Ep, <- Hl. apply (delivers_image_packet eop qs g Hg He). lia.
Qed.

(** The rows from [first]. *)
Definition row_range (first n : Z) : list Z := map (fun j => first + j) (zseq (Z.to_nat n)).

Lemma row_range_split first a b : 0 <= a -> 0 <= b -> row_range first (a + b) = row_range first a ++ row_range (first + a) b.
Proof.
  intros Ha Hb. unfold row_range. rewrite Z2Nat.inj_add, zseq_add, map_app, map_map by lia. f_equal. apply map_ext. intros j. lia.
Qed.

Lemma row_range_len first n : 0 <= n -> zlen (row_range first n) = n.
Proof. intros Hn. unfold row_range, zlen. rewrite length_map, length_zseq. lia. Qed.

Lemma fold_rows v fmt k top first n g :
  fold_left (fun g r => push_qwords (row_qwords v fmt k top (first + r)) g) (zseq (Z.to_nat n)) g
  = fold_left (fun g r => push_qwords (row_qwords v fmt k top r) g) (row_range first n) g.
Proof. unfold row_range. generalize (zseq (Z.to_nat n)). intros l. revert g. induction l as [|r l IH]; intros g; [reflexivity|]. apply IH. Qed.

Lemma eop_bit b : b2z b = 0 \/ b2z b = 1.
Proof. destruct b; auto. Qed.

Lemma send_rows_delivers v fmt k top N : vram_ok v -> (fmt = 0 \/ fmt = 1) -> forall fuel d first g,
  prof_disable_gpu_render g = false -> 0 <= d <= N -> N - d <= Z.of_nat fuel ->
  delivers (concat (map (page_row v fmt k top) (row_range first (N - d)))) g
    (send_rows fuel (fun row => push_qwords (row_qwords v fmt k top row)) (8 * (1 + fmt)) (N * (8 * (1 + fmt))) (d * (8 * (1 + fmt))) first g).
Proof.
  intros Hv Hf. set (Q := 8 * (1 + fmt)). assert (HQ : Q = 8 \/ Q = 16) by (unfold Q; lia).
  induction fuel as [|fuel IH]; intros d first g Hg Hd Hn; cbn [send_rows].
  - replace (N - d) with 0 by lia. apply delivers_refl, Hg.
  - destruct (Z.ltb_spec (d * Q) (N * Q)) as [Hlt|Hge].
    2: { replace (N - d) with 0 by (destruct HQ as [-> | ->]; lia). apply delivers_refl, Hg. }
    set (c := Z.min (N - d) (1024 / Q)).
    assert (Hc : Z.min (N * Q - d * Q) 1024 = c * Q /\ 0 < c <= N - d /\ c * Q <= 1024).
    { unfold c. destruct HQ as [E|E]; rewrite E in *; [change (1024 / 8) with 128 | change (1024 / 16) with 64]; lia. }
    destruct Hc as (Hc & Hc0).
    rewrite Hc. assert (Ediv : c * Q / Q = c) by (apply Z.div_mul; lia). rewrite Ediv.
    rewrite (fold_rows v fmt k top first c). replace (N - d) with (c + (N - (d + c))) by lia.
    rewrite row_range_split, map_app, concat_app by lia.
    assert (Hp : forall e, delivers (concat (map (page_row v fmt k top) (row_range first c))) g
      (fold_left (fun g r => push_qwords (row_qwords v fmt k top r) g) (row_range first c) (Push_GIF_Tag (GIF_TAG_LO (c * Q) (b2z e) 0 0 2 0) 0 g))).
    { intros e. apply delivers_rows; [exact Hv | exact Hf | exact Hg | apply eop_bit | rewrite row_range_len by lia; unfold Q; lia | lia]. }
    eapply delivers_trans; [apply Hp|]. replace (d * Q + c * Q) with ((d + c) * Q) by lia.
    apply IH; [exact (delivers_on _ _ _ (Hp _)) | lia | lia].
Qed.

Lemma delivers_page_transfer tbp0 psm first n g : prof_disable_gpu_render g = false -> delivers [] g (page_transfer tbp0 psm first n g).
Proof.
  intros Hg. exact (delivers_regs 4
    [(GS_SET BITBLTBUF [0; 0; 0; tbp0; 4; psm], GS_REG BITBLTBUF); (GS_SET TRXPOS [0; 0; 0; first; 0], GS_REG TRXPOS);
     (GS_SET TRXREG [256; n], GS_REG TRXREG); (GS_SET TRXDIR [0], GS_REG TRXDIR)] g Hg eq_refl eq_refl GIF_REG_AD).
Qed.

(** The whole page, in chunks. *)
Lemma chunks_deliver v fmt k top C m : vram_ok v -> (fmt = 0 \/ fmt = 1) -> 0 < C -> 8 * (1 + fmt) * C = 1024 -> forall n g last,
  prof_disable_gpu_render g = false -> n = Z.of_nat m ->
  delivers (concat (map (page_row v fmt k top) (row_range 0 (n * C)))) g
    (fold_left (fun g chunk =>
      fold_left (fun g row => push_qwords (row_qwords v fmt k top row) g) (map (Z.add (chunk * C)) (zseq (Z.to_nat C)))
        (Push_GIF_Tag (GIF_TAG_LO 1024 (b2z (chunk =? last)) 0 0 2 0) 0 g)) (zseq m) g).
Proof.
  intros Hv Hf HC H1024 n g last Hg ->. induction m as [|m IH]; [apply delivers_refl, Hg|].
  rewrite zseq_snoc, fold_left_app. cbn [fold_left]. replace (Z.of_nat (S m) * C) with (Z.of_nat m * C + C) by lia.
  rewrite row_range_split, map_app, concat_app by lia. eapply delivers_trans; [exact IH|]. rewrite Z.add_0_l.
  change (map (Z.add (Z.of_nat m * C)) (zseq (Z.to_nat C))) with (row_range (Z.of_nat m * C) C).
  apply delivers_rows; [exact Hv | exact Hf | exact (delivers_on _ _ _ IH) | apply eop_bit | rewrite row_range_len by lia; lia | lia].
Qed.

(** What a page's slot receives is the page: sending the whole page or a
    run of its rows, in packets of up to 1024 words of 128 bits, delivers
    exactly the halfwords of those rows of the shadow copy, in order. *)
Theorem page_upload_exact v fmt k top first n g : vram_ok v -> prof_disable_gpu_render g = false -> page_ok fmt k top -> 0 <= n ->
  let tbp0 := page_tbp0 (compute_page_id (64 * k) (256 * top)) fmt in
  delivers (concat (map (page_row v fmt k top) (row_range 0 256))) g
    (send_run v fmt tbp0 (64 * k) (256 * top) true g (0, 256)) /\
  delivers (concat (map (page_row v fmt k top) (row_range first n))) g
    (send_run v fmt tbp0 (64 * k) (256 * top) false g (first, n)).
Proof.
  intros Hv Hg (Hf & _) Hn. cbv zeta. unfold send_run. cbn [fst snd]. destruct Hf as [-> | ->]; cbn [Z.eqb Pos.eqb]; split.
  - pose proof (delivers_page_transfer (page_tbp0 (compute_page_id (64 * k) (256 * top)) 0) GS_PSM_4 0 256 g Hg) as Ht.
    refine (delivers_trans [] _ _ _ _ Ht _). exact (chunks_deliver v 0 k top 128 2 Hv (or_introl eq_refl) ltac:(lia) eq_refl 2 _ 1 (delivers_on _ _ _ Ht) eq_refl).
  - pose proof (delivers_page_transfer (page_tbp0 (compute_page_id (64 * k) (256 * top)) 0) GS_PSM_4 first n g Hg) as Ht.
    refine (delivers_trans [] _ _ _ _ Ht _). unfold Upload_Indexed_4BPP_Partial.
    pose proof (send_rows_delivers v 0 k top n Hv (or_introl eq_refl) (Z.to_nat n) 0 first _ (delivers_on _ _ _ Ht) ltac:(lia) ltac:(lia)) as H.
    rewrite Z.sub_0_r in H. exact H.
  - pose proof (delivers_page_transfer (page_tbp0 (compute_page_id (64 * k) (256 * top)) 1) GS_PSM_8 0 256 g Hg) as Ht.
    refine (delivers_trans [] _ _ _ _ Ht _). exact (chunks_deliver v 1 k top 64 4 Hv (or_intror eq_refl) ltac:(lia) eq_refl 4 _ 3 (delivers_on _ _ _ Ht) eq_refl).
  - pose proof (delivers_page_transfer (page_tbp0 (compute_page_id (64 * k) (256 * top)) 1) GS_PSM_8 first n g Hg) as Ht.
    refine (delivers_trans [] _ _ _ _ Ht _). unfold Upload_Indexed_8BPP_Partial.
    pose proof (send_rows_delivers v 1 k top n Hv (or_intror eq_refl) (Z.to_nat n) 0 first _ (delivers_on _ _ _ Ht) ltac:(lia) ltac:(lia)) as H.
    rewrite Z.sub_0_r in H. exact H.
Qed.
End Use.

(** ** Examples *)

Lemma page_upload_exact_witness :
  delivers (concat (map (page_row dot_vram 1 0 0) (row_range 0 256))) gif_start (send_run dot_vram 1 4096 0 0 true gif_start (0, 256)) /\
  delivers (concat (map (page_row dot_vram 1 0 0) (row_range 16 32))) gif_start (send_run dot_vram 1 4096 0 0 false gif_start (16, 32)).
Proof.
  apply (page_upload_exact dot_vram 1 0 0 16 32 gif_start); [exact dot_vram_ok | reflexivity | | lia].
  split; [right; reflexivity | lia].
Defined.

Definition tex_start : TexSys := mkTexSys ∅ 0 Tex_Cache_Init (fun _ _ => []) gif_start.
Definition tex_written : TexSys :=
  mkTexSys dot_vram 1 (Tex_Cache_DirtyRegion 9 1 1 1 1 Tex_Cache_Init) (fun _ _ => []) gif_start.

Lemma tex_written_reach : tex_reach tex_written.
Proof.
  apply (reach_step tex_start); [apply reach_start|]. apply (step_write 9 1 1 1 dot_vram tex_start); cbn [ts_gen ts_vram tex_start]; try lia.
  intros qx qy Hx Hy Hout. unfold shadow_px, dot_vram. rewrite lookup_insert_ne by lia. reflexivity.
Qed.

Lemma texture_page_current_witness :
  ts_chip (use_step 0 0 0 0 0 tex_written) (slot_of 0 0 0) 1 = page_row dot_vram 0 0 0 1.
Proof.
  assert (Hp : page_ok 0 0 0) by (split; [left; reflexivity | lia]).
  destruct (texture_page_current tex_written 0 0 0 0 0 tex_written_reach Hp) as [H0 | H1].
  - assert (Hin : in_page 0 0 0 0 0) by (unfold in_page; lia). specialize (H0 0 0 Hin).
    exfalso. revert H0. vm_compute. discriminate.
  - rewrite (H1 1) by lia. vm_compute. reflexivity.
Defined.
