(* ===== verification/Interpreter.v ===== *)
(** * The interpreter ([src/interpreter.c])

    One instruction at a time: the boot and BIOS hooks, the fetch, the load
    delay pipeline, the instruction, the branch delay slot and the cycle count
    ([r3000a_cycle_cost], [src/dynarec_compile.c]; the BIOS hooks are in
    [src/dynarec_insn.c]).  The machine is any [Platform]; the two static
    variables of the file and the flag [binary_loaded] stand beside it. *)

From S2P Require Import Prelude Scheduler System Cpu Memory Gte.

Record Interp (S : Type) := mkInterp {
  mach : S; branch_target : Z; branch_state : Z; binary_loaded : Z
}.
Arguments mkInterp {S}.
Arguments mach {S}.
Arguments branch_target {S}.
Arguments branch_state {S}.
Arguments binary_loaded {S}.
#[export] Instance eta_Interp S : Eta (Interp S) := fun i =>
  mkInterp (mach i) (branch_target i) (branch_state i) (binary_loaded i).

(** ** Fields of an instruction *)

Definition OP (opcode : Z) : Z := Z.shiftr opcode 26.
Definition RS (opcode : Z) : Z := Z.land (Z.shiftr opcode 21) 31.
Definition RT (opcode : Z) : Z := Z.land (Z.shiftr opcode 16) 31.
Definition RD (opcode : Z) : Z := Z.land (Z.shiftr opcode 11) 31.
Definition SHAMT (opcode : Z) : Z := Z.land (Z.shiftr opcode 6) 31.
Definition FUNCT (opcode : Z) : Z := Z.land opcode 63.
Definition IMM (opcode : Z) : Z := Z.land opcode 0xFFFF.
Definition IMM_SE (opcode : Z) : Z := s16 (IMM opcode).
Definition TARGET (opcode : Z) : Z := Z.land opcode 0x3FFFFFF.

Definition instruction_is_load (opcode : Z) : bool := (0x20 <=? OP opcode) && (OP opcode <=? 0x26).

Definition instruction_writes_gpr (opcode reg : Z) : bool :=
  let op := OP opcode in
  if reg =? 0 then false
  else if op =? 0x00 then
    let func := Z.land opcode 0x3F in
    if (0x18 <=? func) && (func <=? 0x1B) then false
    else if func =? 0x08 then false
    else if (func =? 0x11) || (func =? 0x13) then false
    else if (func =? 0x0C) || (func =? 0x0D) then false
    else RD opcode =? reg
  else if (0x08 <=? op) && (op <=? 0x0F) then RT opcode =? reg
  else if (0x20 <=? op) && (op <=? 0x26) then RT opcode =? reg
  else if op =? 0x03 then reg =? 31
  else if (op =? 0x12) && ((RS opcode =? 0) || (RS opcode =? 2)) then RT opcode =? reg
  else if (op =? 0x10) && (RS opcode =? 0) then RT opcode =? reg
  else false.

(** [r3000a_cycle_cost]; every operation the switch does not list costs 1. *)
Definition r3000a_cycle_cost (opcode : Z) : Z :=
  match OP opcode with
  | 0x00 =>
    match FUNCT opcode with
    | 0x18 => 6 | 0x19 => 6 | 0x1A => 2 | 0x1B => 2 | _ => 1
    end
  | 0x20 => 2 | 0x21 => 2 | 0x22 => 2 | 0x23 => 2 | 0x24 => 2 | 0x25 => 2 | 0x26 => 2
  | 0x32 => 2
  | _ => 1
  end.

(** The pipeline at the start of an instruction: the load of two instructions
    ago reaches its register unless a newer one targets it, the last load takes
    its place. *)
Definition commit_load (c : R3000CPU) : R3000CPU :=
  let c :=
    if negb (load_commit_reg c =? 0) then
      (if negb (load_delay_reg c =? load_commit_reg c)
       then c <| regs ::= fun l => aset (aset l (load_commit_reg c) (load_commit_val c)) 0 0 |>
       else c) <| load_commit_reg := 0 |>
    else c in
  if negb (load_delay_reg c =? 0) then
    c <| load_commit_reg := load_delay_reg c |> <| load_commit_val := load_delay_val c |>
      <| load_delay_reg := 0 |>
  else c.

Definition cancel_load (opcode : Z) (c : R3000CPU) : R3000CPU :=
  if negb (load_commit_reg c =? 0) && negb (instruction_is_load opcode)
     && instruction_writes_gpr opcode (load_commit_reg c)
  then c <| load_commit_reg := 0 |> else c.

Section Interpreter.
Context {S : Type} `{Platform S}.
Abbreviation I := (Interp S).

Definition sys_of (st : I) : Sys := get_sys (mach st).
Definition cpu_of (st : I) : R3000CPU := cpu (sys_of st).
Definition on_sys (f : Sys -> Sys) (st : I) : I := st <| mach ::= upd_sys f |>.
Definition on_cpu (f : R3000CPU -> R3000CPU) (st : I) : I := on_sys (upd_cpu f) st.
Definition reg (st : I) (i : Z) : Z := get_reg (sys_of st) i.

(** [if (i) cpu.regs[i] = v;] *)
Definition wr (i v : Z) (st : I) : I := if negb (i =? 0) then on_sys (set_reg i v) st else st.

Definition do_branch (target : Z) (st : I) : I := st <| branch_target := target |> <| branch_state := 1 |>.
Definition interpreter_reset_state (st : I) : I := st <| branch_state := 0 |> <| branch_target := 0 |>.

(** How an instruction ends: [break] out of the switch, or [branch_state = 0]
    and [return 0]. *)
Definition next (st : I) : bool * I := (true, st).
Definition leave (st : I) : bool * I := (false, st <| branch_state := 0 |>).

(** ** SPECIAL *)

Definition exec_special (opcode : Z) (st : I) : bool * I :=
  let rs := reg st (RS opcode) in
  let rt := reg st (RT opcode) in
  let rd := RD opcode in
  let set v := next (wr rd v st) in
  let c := cpu_of st in
  match FUNCT opcode with
  | 0x00 => set (u32 (Z.shiftl rt (SHAMT opcode)))
  | 0x02 => set (Z.shiftr rt (SHAMT opcode))
  | 0x03 => set (u32 (Z.shiftr (s32 rt) (SHAMT opcode)))
  | 0x04 => set (u32 (Z.shiftl rt (Z.land rs 31)))
  | 0x06 => set (Z.shiftr rt (Z.land rs 31))
  | 0x07 => set (u32 (Z.shiftr (s32 rt) (Z.land rs 31)))
  | 0x08 => next (do_branch rs st)
  | 0x09 => next (wr rd (u32 (pc c + 4)) (do_branch rs st))
  | 0x0C => leave (on_sys (Helper_Syscall_Exception (current_pc c)) st)
  | 0x0D => leave (on_sys (Helper_Break_Exception (current_pc c)) st)
  | 0x10 => set (hi c)
  | 0x11 => next (on_cpu (fun c => c <| hi := rs |>) st)
  | 0x12 => set (lo c)
  | 0x13 => next (on_cpu (fun c => c <| lo := rs |>) st)
  | 0x18 =>
    let val := s32 rs * s32 rt in
    next (on_cpu (fun c => c <| hi := u32 (Z.shiftr val 32) |> <| lo := u32 val |>) st)
  | 0x19 =>
    let val := rs * rt in
    next (on_cpu (fun c => c <| hi := u32 (Z.shiftr val 32) |> <| lo := u32 val |>) st)
  | 0x1A => let '(l, h) := Helper_DIV rs rt in next (on_cpu (fun c => c <| lo := l |> <| hi := h |>) st)
  | 0x1B => let '(l, h) := Helper_DIVU rs rt in next (on_cpu (fun c => c <| lo := l |> <| hi := h |>) st)
  | 0x20 => next (on_sys (Helper_ADD rs rt rd (current_pc c)) st)
  | 0x21 => set (u32 (rs + rt))
  | 0x22 => next (on_sys (Helper_SUB rs rt rd (current_pc c)) st)
  | 0x23 => set (u32 (rs - rt))
  | 0x24 => set (Z.land rs rt)
  | 0x25 => set (Z.lor rs rt)
  | 0x26 => set (Z.lxor rs rt)
  | 0x27 => set (not32 (Z.lor rs rt))
  | 0x2A => set (b2z (s32 rs <? s32 rt))
  | 0x2B => set (b2z (rs <? rt))
  | _ => leave (on_sys (Helper_Break_Exception (current_pc c)) st)
  end.

(** ** Branches *)

(** [if (taken) do_branch(cpu.pc + (imm_se << 2));] *)
Definition branch_if (taken : bool) (opcode : Z) (st : I) : I :=
  if taken then do_branch (u32 (pc (cpu_of st) + IMM_SE opcode * 4)) st else st.

Definition exec_regimm (opcode : Z) (st : I) : bool * I :=
  let rs := s32 (reg st (RS opcode)) in
  let ret := u32 (pc (cpu_of st) + 4) in
  match RT opcode with
  | 0x00 => next (branch_if (rs <? 0) opcode st)
  | 0x01 => next (branch_if (0 <=? rs) opcode st)
  | 0x10 => next (on_sys (set_reg 31 ret) (branch_if (rs <? 0) opcode st))
  | 0x11 => next (on_sys (set_reg 31 ret) (branch_if (0 <=? rs) opcode st))
  | rt => next (branch_if (if tst rt 1 then 0 <=? rs else rs <? 0) opcode st)
  end.

Definition jump_target (opcode : Z) (st : I) : Z :=
  Z.lor (Z.land (pc (cpu_of st)) 0xF0000000) (Z.shiftl (TARGET opcode) 2).

(** ** Coprocessors *)

Definition set_load (rt v : Z) (st : I) : I :=
  on_cpu (fun c => c <| load_delay_reg := rt |> <| load_delay_val := v |>) st.

Definition exec_cop0 (opcode : Z) (st : I) : I :=
  let rt := RT opcode in
  let rd := RD opcode in
  match RS opcode with
  | 0x00 => if negb (rt =? 0) then set_load rt (get_cop0 (sys_of st) rd) st else st
  | 0x04 =>
    let v := reg st rt in
    let st := on_sys (set_cop0 rd v) st in
    if rd =? PSX_COP0_SR
    then on_cpu (fun c => c <| irq_pending_fast := Z.land (irq_pending c) (Z.land v 1) |>) st else st
  | 0x10 =>
    let sr := get_cop0 (sys_of st) PSX_COP0_SR in
    let mode := Z.land sr 0x3F in
    let new_mode := Z.lor (Z.land (Z.shiftr mode 2) 0x0F) (Z.land mode 0x30) in
    let sr := Z.lor (Z.land sr (not32 0x3F)) new_mode in
    on_cpu (fun c => c <| irq_pending_fast := Z.land (irq_pending c) (Z.land sr 1) |>)
      (on_sys (set_cop0 PSX_COP0_SR sr) st)
  | _ => st
  end.

(** A GTE action on the registers inside the CPU. *)
Definition gte_do (m : M unit) (st : I) : I := on_cpu (fun c => snd (on_gte m c)) st.
Definition gte_read (f : Gte -> Z) (st : I) : Z := fst (on_gte (gets f) (cpu_of st)).

Definition exec_cop2 (opcode : Z) (st : I) : I :=
  let rt := RT opcode in
  let rd := RD opcode in
  match RS opcode with
  | 0x00 => if negb (rt =? 0) then on_sys (set_reg rt (gte_read (GTE_ReadData rd) st)) st else st
  | 0x02 => if negb (rt =? 0) then on_sys (set_reg rt (gte_read (GTE_ReadCtrl rd) st)) st else st
  | 0x04 => gte_do (GTE_WriteData rd (reg st rt)) st
  | 0x06 => gte_do (GTE_WriteCtrl rd (reg st rt)) st
  | _ => gte_do (GTE_Execute opcode) st
  end.

(** ** Loads and stores *)

Definition effective (opcode : Z) (st : I) : Z := u32 (reg st (RS opcode) + IMM_SE opcode).

(** An unaligned access: BADVADDR, the pc of the instruction, the exception. *)
Definition unaligned (code addr : Z) (st : I) : bool * I := leave (st <| mach ::= address_error code addr |>).

(** [if (rt) { load_delay_reg = rt; load_delay_val = f(...); }] *)
Definition load (rt : Z) (f : S -> Z * S) (st : I) : I :=
  if negb (rt =? 0) then
    let st := on_cpu (fun c => c <| load_delay_reg := rt |>) st in
    let '(v, m) := f (mach st) in
    on_cpu (fun c => c <| load_delay_val := v |>) (st <| mach := m |>)
  else st.

Definition signed (extend : Z -> Z) (f : S -> Z * S) (m : S) : Z * S :=
  let '(v, m) := f m in (u32 (extend v), m).

Definition store (f : S -> S) (st : I) : bool * I := next (st <| mach ::= f |>).

(** The register a partial load merges with, forwarded from the pipeline. *)
Definition base_val (rt : Z) (st : I) : Z :=
  let c := cpu_of st in
  if (load_commit_reg c =? rt) && negb (rt =? 0) then load_commit_val c else reg st rt.

Definition exec_memory (opcode : Z) (st : I) : bool * I :=
  let addr := effective opcode st in
  let rt := RT opcode in
  let p := current_pc (cpu_of st) in
  match OP opcode with
  | 0x20 => next (load rt (signed s8 (ReadByte addr)) st)
  | 0x21 => if tst addr 1 then unaligned 4 addr st else next (load rt (signed s16 (ReadHalf addr)) st)
  | 0x22 => next (load rt (Helper_LWL addr (base_val rt st)) st)
  | 0x23 => if tst addr 3 then unaligned 4 addr st else next (load rt (ReadWord addr) st)
  | 0x24 => next (load rt (ReadByte addr) st)
  | 0x25 => if tst addr 1 then unaligned 4 addr st else next (load rt (ReadHalf addr) st)
  | 0x26 => next (load rt (Helper_LWR addr (base_val rt st)) st)
  | 0x28 => store (WriteByte addr (u8 (reg st rt))) st
  | 0x29 => if tst addr 1 then unaligned 5 addr st else store (WriteHalf addr (u16 (reg st rt))) st
  | 0x2A => store (Helper_SWL addr (reg st rt)) st
  | 0x2B => if tst addr 3 then unaligned 5 addr st else store (WriteWord addr (reg st rt)) st
  | 0x2E => store (Helper_SWR addr (reg st rt)) st
  | 0x30 => leave (on_sys (Helper_CU_Exception p 0) st)
  | 0x31 => leave (on_sys (Helper_CU_Exception p 1) st)
  | 0x32 =>
    if tst addr 3 then unaligned 4 addr st
    else let '(val, m) := ReadWord addr (mach st) in next (gte_do (GTE_WriteData rt val) (st <| mach := m |>))
  | 0x33 => leave (on_sys (Helper_CU_Exception p 3) st)
  | 0x38 => leave (on_sys (Helper_CU_Exception p 0) st)
  | 0x39 => leave (on_sys (Helper_CU_Exception p 1) st)
  | 0x3A =>
    if tst addr 3 then unaligned 5 addr st
    else store (WriteWord addr (gte_read (GTE_ReadData rt) st)) st
  | 0x3B => leave (on_sys (Helper_CU_Exception p 3) st)
  | _ => leave (on_sys (Helper_Break_Exception p) st)
  end.

(** ** The switch on the opcode *)

Definition exec (opcode : Z) (st : I) : bool * I :=
  let rs := reg st (RS opcode) in
  let rt := reg st (RT opcode) in
  let dst := RT opcode in
  let imm := IMM opcode in
  let imm_se := IMM_SE opcode in
  let c := cpu_of st in
  let set v := next (wr dst v st) in
  match OP opcode with
  | 0x00 => exec_special opcode st
  | 0x01 => exec_regimm opcode st
  | 0x02 => next (do_branch (jump_target opcode st) st)
  | 0x03 => next (on_sys (set_reg 31 (u32 (pc c + 4))) (do_branch (jump_target opcode st) st))
  | 0x04 => next (branch_if (rs =? rt) opcode st)
  | 0x05 => next (branch_if (negb (rs =? rt)) opcode st)
  | 0x06 => next (branch_if (s32 rs <=? 0) opcode st)
  | 0x07 => next (branch_if (0 <? s32 rs) opcode st)
  | 0x08 => next (on_sys (Helper_ADDI rs (u32 imm_se) dst (current_pc c)) st)
  | 0x09 => set (u32 (rs + imm_se))
  | 0x0A => set (b2z (s32 rs <? imm_se))
  | 0x0B => set (b2z (rs <? u32 imm_se))
  | 0x0C => set (Z.land rs imm)
  | 0x0D => set (Z.lor rs imm)
  | 0x0E => set (Z.lxor rs imm)
  | 0x0F => set (Z.shiftl imm 16)
  | 0x10 => next (exec_cop0 opcode st)
  | 0x11 => leave (on_sys (Helper_CU_Exception (current_pc c) 1) st)
  | 0x12 => next (exec_cop2 opcode st)
  | 0x13 => leave (on_sys (Helper_CU_Exception (current_pc c) 3) st)
  | _ => exec_memory opcode st
  end.

(** ** The hooks *)

Definition boot_hook (st : I) : bool :=
  let p := pc (cpu_of st) in
  (binary_loaded st =? 0) && ((p =? 0x80030000) || ((0x001A45A0 <=? p) && (p <=? 0x001A4620))).

(** The putchar calls of the BIOS; printing is left out. *)
Definition hle_return (v : Z) (st : I) : I :=
  let st := on_sys (set_reg 2 v) st in on_sys (set_pc (reg st 31)) st.
Definition BIOS_HLE_A (st : I) : bool * I :=
  if reg st 9 =? 0x3C then (true, hle_return (reg st 4) st) else (false, st).
Definition BIOS_HLE_B (st : I) : bool * I :=
  if reg st 9 =? 0x3B then (true, hle_return (reg st 4) st)
  else if reg st 9 =? 0x3D then (true, hle_return 1 st) else (false, st).
Definition BIOS_HLE_C (st : I) : bool * I := (false, st).

Definition bios_hle (st : I) : bool * I :=
  let phys := Z.land (pc (cpu_of st)) 0x1FFFFFFF in
  if phys =? 0xA0 then BIOS_HLE_A st
  else if phys =? 0xB0 then BIOS_HLE_B st
  else if phys =? 0xC0 then BIOS_HLE_C st
  else (false, st).

(** ** The loop *)

Definition add_cycles (n : Z) (st : I) : I := on_sys (fun y => y <| global_cycles ::= fun t => u64 (t + n) |>) st.

(** The branch of the previous instruction is taken after this one. *)
Definition advance_branch (st : I) : I :=
  if branch_state st =? 2 then (on_sys (set_pc (branch_target st)) st) <| branch_state := 0 |>
  else if branch_state st =? 1 then st <| branch_state := 2 |>
  else st.

(** After the switch. *)
Definition retire (opcode : Z) (st : I) : bool * I :=
  let st := on_cpu (cancel_load opcode) st in
  let st := advance_branch st in
  let st := add_cycles (r3000a_cycle_cost opcode) st in
  if negb (block_aborted (cpu_of st) =? 0) then
    leave (on_cpu (fun c => c <| block_aborted := 0 |>) (on_sys (fun y => set_pc (psx_abort_pc y) y) st))
  else if (sched_cached_earliest (sched (sys_of st)) <=? global_cycles (sys_of st)) && (branch_state st =? 0)
  then (false, st)
  else (true, st).

Definition fetch (st : I) : Z * I :=
  let st := on_cpu (fun c => c <| current_pc := pc c |>) st in
  let '(opcode, m) := ReadWord (pc (cpu_of st)) (mach st) in
  (opcode, on_cpu (fun c => c <| pc := u32 (pc c + 4) |>) (st <| mach := m |>)).

(** One turn of the loop; the boolean says whether the loop goes on. *)
Definition iterate (st : I) : bool * I :=
  if boot_hook st then (false, st)
  else
    let '(handled, st) := bios_hle st in
    if handled then (true, add_cycles 10 (on_sys (fun y => set_pc (get_reg y 31) y) st))
    else if tst (pc (cpu_of st)) 3 then
      leave (on_sys (fun y => PSX_Exception 4 (set_pc (current_pc (cpu y)) (set_cop0 PSX_COP0_BADVADDR (pc (cpu y)) y))) st)
    else
      let '(opcode, st) := fetch st in
      let st := on_cpu commit_load st in
      let '(go, st) := exec opcode st in
      if go then retire opcode st else (false, st).

Fixpoint run_interpreter_chain (fuel : nat) (deadline : Z) (st : I) : option I :=
  if (global_cycles (sys_of st) <? deadline) || negb (branch_state st =? 0) then
    match fuel with
    | O => None
    | Datatypes.S fuel =>
      let '(go, st) := iterate st in
      if go then run_interpreter_chain fuel deadline st else Some st
    end
  else Some st.

(** The state after [m] turns of the loop. *)
Definition turns (m : nat) (st : I) : I := Nat.iter m (fun s => snd (iterate s)) st.

Lemma turns_S m st : turns (Datatypes.S m) st = turns m (snd (iterate st)).
Proof. unfold turns. rewrite Nat.iter_succ_r. reflexivity. Qed.
End Interpreter.
