(* ===== verification/InterpSafe.v ===== *)
(** * Types of the processor under the interpreter

    What every instruction, trap and hook keeps: registers of 32 bits, the
    zero register zero, load slots that name registers, typed coprocessor
    registers and byte memories.  The devices behind the bus have to keep it
    too: the interface [SafePlatform]. *)

From S2P Require Import Prelude Scheduler System Cpu Memory Gte Interpreter.

Record proc_ok (c : R3000CPU) : Prop := {
  po_regs : zlen (regs c) = 32 /\ Forall is_u32 (regs c) /\ aget (regs c) 0 = 0;
  po_cop0 : zlen (cop0 c) = 32 /\ Forall is_u32 (cop0 c);
  po_pc : is_u32 (pc c) /\ is_u32 (current_pc c);
  po_hilo : is_u32 (hi c) /\ is_u32 (lo c);
  po_loads : 0 <= load_delay_reg c < 32 /\ 0 <= load_commit_reg c < 32;
  po_vals : is_u32 (load_delay_val c) /\ is_u32 (load_commit_val c);
  po_gte : typed (mkGte (cp2_data c) (cp2_ctrl c) 0)
}.

Record sys_ok (y : Sys) : Prop := {
  so_proc : proc_ok (cpu y);
  so_mem : mem_ok (psx_ram y) /\ mem_ok (psx_bios y) /\ mem_ok (scratchpad_buf y);
  so_abort : is_u32 (psx_abort_pc y);
  so_cache : is_u32 (cache_ctrl y)
}.

Class SafePlatform (S : Type) `{Platform S} : Prop := {
  read_safe : forall a s, sys_ok (get_sys s) ->
    is_u32 (fst (ReadHardware a s)) /\ sys_ok (get_sys (snd (ReadHardware a s)));
  write_safe : forall a v n s, sys_ok (get_sys s) -> sys_ok (get_sys (WriteHardware a v n s));
  sio_safe : forall a v s, sys_ok (get_sys s) -> sys_ok (get_sys (SIO_Write a v s))
}.

Create HintDb safe discriminated.

(** ** Words *)

Lemma u32_0 : is_u32 0.
Proof. unfold is_u32. lia. Qed.
Lemma u32_literal x : (0 <=? x) && (x <? 4294967296) = true -> is_u32 x.
Proof. unfold is_u32. lia. Qed.
Lemma u32_u8 x : is_u8 x -> is_u32 x.
Proof. unfold is_u8, is_u32. lia. Qed.
Lemma u32_u16 x : is_u16 x -> is_u32 x.
Proof. unfold is_u16, is_u32. lia. Qed.
Lemma u32_b2z b : is_u32 (b2z b).
Proof. destruct b; unfold is_u32; cbn; lia. Qed.
Lemma u32_not32 x : is_u32 (not32 x).
Proof. apply u32_range. Qed.
Lemma u32_land_mask x m : 0 <= m < 4294967296 -> is_u32 (Z.land x m).
Proof. intros Hm. pose proof (land_bound_r x m). unfold is_u32. lia. Qed.
#[export] Hint Resolve u32_0 u32_range u32_b2z u32_not32 lor_u32 lxor_u32 : safe.

Lemma field_range opcode k : 0 <= Z.land (Z.shiftr opcode k) 31 < 32.
Proof. pose proof (land_bound_r (Z.shiftr opcode k) 31). lia. Qed.
Lemma RS_range o : 0 <= RS o < 32. Proof. apply field_range. Qed.
Lemma RT_range o : 0 <= RT o < 32. Proof. apply field_range. Qed.
Lemma RD_range o : 0 <= RD o < 32. Proof. apply field_range. Qed.
Lemma SHAMT_range o : 0 <= SHAMT o < 32. Proof. apply field_range. Qed.
Lemma IMM_u32 o : is_u32 (IMM o).
Proof. apply u32_land_mask. lia. Qed.
#[export] Hint Resolve RS_range RT_range RD_range SHAMT_range IMM_u32 : safe.

(** ** The processor *)

Ltac proc := intros; match goal with H : proc_ok ?c |- _ => destruct H, c; cbn in *; constructor; cbn; intuition lia end.

Lemma proc_gpr c i : proc_ok c -> is_u32 (aget (regs c) i).
Proof. intros [ (_ & H & _) _ _ _ _ _ _]. apply Forall_aget; [apply u32_0 | exact H]. Qed.
Lemma proc_cop c i : proc_ok c -> is_u32 (aget (cop0 c) i).
Proof. intros [_ [_ H] _ _ _ _ _]. apply Forall_aget; [apply u32_0 | exact H]. Qed.

Lemma proc_set_gpr c i v : i <> 0 -> 0 <= i -> is_u32 v -> proc_ok c -> proc_ok (c <| regs ::= fun l => aset l i v |>).
Proof.
  intros Hi H0 Hv Hc. destruct Hc as [(Hl & Hf & Hz) ? ? ? ? ? ?]. destruct c; cbn in *; constructor; cbn; try assumption.
  rewrite zlen_aset, aget_aset_ne by lia. auto using Forall_aset.
Qed.
Lemma proc_set_cop c i v : is_u32 v -> proc_ok c -> proc_ok (c <| cop0 ::= fun l => aset l i v |>).
Proof.
  intros Hv Hc. destruct Hc as [? [Hl Hf] ? ? ? ? ?]. destruct c; cbn in *; constructor; cbn; try assumption.
  rewrite zlen_aset. auto using Forall_aset.
Qed.
Lemma proc_set_pc c v : is_u32 v -> proc_ok c -> proc_ok (c <| pc := v |>).
Proof. proc. Qed.
Lemma proc_set_current c : proc_ok c -> proc_ok (c <| current_pc := pc c |>).
Proof. proc. Qed.
Lemma proc_set_hi c v : is_u32 v -> proc_ok c -> proc_ok (c <| hi := v |>).
Proof. proc. Qed.
Lemma proc_set_lo c v : is_u32 v -> proc_ok c -> proc_ok (c <| lo := v |>).
Proof. proc. Qed.
Lemma proc_set_load c r v : 0 <= r < 32 -> is_u32 v -> proc_ok c -> proc_ok (c <| load_delay_reg := r |> <| load_delay_val := v |>).
Proof. proc. Qed.
Lemma proc_set_delay_reg c r : 0 <= r < 32 -> proc_ok c -> proc_ok (c <| load_delay_reg := r |>).
Proof. proc. Qed.
Lemma proc_set_delay_val c v : is_u32 v -> proc_ok c -> proc_ok (c <| load_delay_val := v |>).
Proof. proc. Qed.
Lemma proc_no_commit c : proc_ok c -> proc_ok (c <| load_commit_reg := 0 |>).
Proof. proc. Qed.
Lemma proc_irq_fast c v : proc_ok c -> proc_ok (c <| irq_pending_fast := v |>).
Proof. proc. Qed.
Lemma proc_aborted c v : proc_ok c -> proc_ok (c <| block_aborted := v |>).
Proof. proc. Qed.
Lemma proc_shift c : proc_ok c ->
  proc_ok (c <| load_commit_reg := load_delay_reg c |> <| load_commit_val := load_delay_val c |> <| load_delay_reg := 0 |>).
Proof. proc. Qed.
Lemma proc_set_gte c g : typed (mkGte (gdata g) (gctrl g) 0) -> proc_ok c ->
  proc_ok (c <| cp2_data := gdata g |> <| cp2_ctrl := gctrl g |>).
Proof. proc. Qed.

Lemma aset_zero_same l : 0 < zlen l -> aget l 0 = 0 -> aset l 0 0 = l.
Proof.
  intros Hl Hz. unfold aset, aget, anth in *. destruct l as [|x l]; [reflexivity|]. change (x = 0) in Hz. rewrite Hz. reflexivity.
Qed.

Lemma gpr_update_ext c f g : f (regs c) = g (regs c) -> c <| regs ::= f |> = c <| regs ::= g |>.
Proof. intros E. destruct c. unfold upd. cbn in *. rewrite E. reflexivity. Qed.

Lemma proc_commit_load c : proc_ok c -> proc_ok (commit_load c).
Proof.
  intros Hc. unfold commit_load.
  set (c1 := if negb (load_commit_reg c =? 0) then _ else c).
  assert (H1 : proc_ok c1); [|destruct (negb (load_delay_reg c1 =? 0)); [apply proc_shift|]; exact H1].
  subst c1. destruct (Z.eqb_spec (load_commit_reg c) 0); cbn [negb]; [exact Hc|]. apply proc_no_commit.
  destruct (negb _); [|exact Hc].
  assert (H2 : proc_ok (c <| regs ::= fun l => aset l (load_commit_reg c) (load_commit_val c) |>)).
  { apply proc_set_gpr; [assumption | apply Hc | apply Hc | exact Hc]. }
  set (c2 := c <| regs ::= _ |>) in *.
  replace (c <| regs ::= fun l => aset (aset l (load_commit_reg c) (load_commit_val c)) 0 0 |>) with c2; [exact H2|].
  destruct H2 as [(Hl & _ & Hz) _ _ _ _ _ _]. apply gpr_update_ext. symmetry.
  apply aset_zero_same; [|exact Hz]. change (0 < zlen (regs c2)). rewrite Hl. reflexivity.
Qed.

Lemma proc_cancel_load o c : proc_ok c -> proc_ok (cancel_load o c).
Proof. intros Hc. unfold cancel_load. destruct (_ && _); [apply proc_no_commit|]; exact Hc. Qed.

(** ** The machine *)

Lemma sys_on_cpu f y : (proc_ok (cpu y) -> proc_ok (f (cpu y))) -> sys_ok y -> sys_ok (upd_cpu f y).
Proof. intros Hf [Hp Hm Ha Hc]. constructor; try assumption. apply Hf, Hp. Qed.

Lemma sys_set_pc v y : is_u32 v -> sys_ok y -> sys_ok (set_pc v y).
Proof. intros Hv. apply sys_on_cpu, proc_set_pc, Hv. Qed.
Lemma sys_set_cop0 i v y : is_u32 v -> sys_ok y -> sys_ok (set_cop0 i v y).
Proof. intros Hv. apply sys_on_cpu, proc_set_cop, Hv. Qed.
Lemma sys_set_reg i v y : i <> 0 -> 0 <= i -> is_u32 v -> sys_ok y -> sys_ok (set_reg i v y).
Proof. intros Hi H0 Hv. apply sys_on_cpu, proc_set_gpr; assumption. Qed.
Lemma sys_cop0 y i : sys_ok y -> is_u32 (get_cop0 y i).
Proof. intros H. apply proc_cop, H. Qed.
Lemma sys_reg y i : sys_ok y -> is_u32 (get_reg y i).
Proof. intros H. apply proc_gpr, H. Qed.
Lemma sys_pc y : sys_ok y -> is_u32 (pc (cpu y)).
Proof. intros H. apply H. Qed.
Lemma sys_current_pc y : sys_ok y -> is_u32 (current_pc (cpu y)).
Proof. intros H. apply H. Qed.
#[export] Hint Resolve sys_set_pc sys_set_cop0 sys_cop0 sys_reg sys_pc sys_current_pc : safe.

Lemma sys_abort_signal y : sys_ok y -> sys_ok (signal_block_abort y).
Proof.
  intros Hy. unfold signal_block_abort. destruct (psx_block_exception y); [|exact Hy].
  pose proof (sys_on_cpu (fun c => c <| block_aborted := 1 |>) y (proc_aborted _ _) Hy) as [Hp Hm Ha Hc].
  constructor; try assumption. apply Hy.
Qed.

Lemma cause_u32 cause code : is_u32 (Z.lor (Z.land cause 0x0000FF00) (Z.shiftl (Z.land code 0x1F) 2)).
Proof.
  apply lor_u32; [apply u32_land_mask; lia|]. pose proof (land_bound_r code 0x1F).
  rewrite Z.shiftl_mul_pow2 by lia. unfold is_u32. lia.
Qed.

Lemma exception_ok code y : sys_ok y -> sys_ok (PSX_Exception code y).
Proof.
  intros Hy. unfold PSX_Exception. cbv zeta.
  set (cause := if code =? 0 then _ else _).
  assert (Hc : is_u32 cause) by (subst cause; destruct (code =? 0); [apply lor_u32; [|apply u32_literal; reflexivity]|]; apply cause_u32).
  clearbody cause.
  assert (Hs : sys_ok (set_cop0 PSX_COP0_CAUSE cause (set_cop0 PSX_COP0_EPC (pc (cpu y)) y))) by auto with safe.
  set (y1 := set_cop0 PSX_COP0_CAUSE _ _) in *. clearbody y1.
  pose proof (push_mode_u32 (get_cop0 y1 PSX_COP0_SR) (sys_cop0 y1 _ Hs)) as Hm.
  repeat case_match; repeat first [apply sys_abort_signal | apply sys_set_pc | apply sys_set_cop0];
    auto with safe; apply u32_literal; reflexivity.
Qed.

Lemma cu_exception_ok p n y : is_u32 p -> sys_ok y -> sys_ok (Helper_CU_Exception p n y).
Proof.
  intros Hp Hy. unfold Helper_CU_Exception. cbv zeta. apply sys_abort_signal, sys_set_pc.
  { destruct (tst _ _); apply u32_literal; reflexivity. }
  apply sys_set_cop0; [exact Hp|].
  assert (H1 : sys_ok (set_pc p y)) by auto with safe. set (y1 := set_pc p y) in *. clearbody y1.
  set (cause := Z.lor _ (u32 _)). assert (Hc : is_u32 cause) by (apply lor_u32; [apply cause_u32 | apply u32_range]).
  clearbody cause. apply sys_set_cop0; [apply push_mode_u32|]; auto with safe.
Qed.

Lemma helper_ADD_ok a b rd p y : 0 <= rd -> is_u32 p -> sys_ok y -> sys_ok (Helper_ADD a b rd p y).
Proof.
  intros Hd Hp Hy. unfold Helper_ADD. destruct (_ && _); [apply exception_ok; auto with safe|].
  destruct (Z.eqb_spec rd 0); cbn [negb]; [exact Hy | apply sys_set_reg; auto with safe].
Qed.
Lemma helper_SUB_ok a b rd p y : 0 <= rd -> is_u32 p -> sys_ok y -> sys_ok (Helper_SUB a b rd p y).
Proof.
  intros Hd Hp Hy. unfold Helper_SUB. destruct (_ && _); [apply exception_ok; auto with safe|].
  destruct (Z.eqb_spec rd 0); cbn [negb]; [exact Hy | apply sys_set_reg; auto with safe].
Qed.
Lemma helper_ADDI_ok a b rt p y : 0 <= rt -> is_u32 p -> sys_ok y -> sys_ok (Helper_ADDI a b rt p y).
Proof. apply helper_ADD_ok. Qed.
Lemma syscall_ok p y : is_u32 p -> sys_ok y -> sys_ok (Helper_Syscall_Exception p y).
Proof. intros Hp Hy. apply exception_ok; auto with safe. Qed.
Lemma break_ok p y : is_u32 p -> sys_ok y -> sys_ok (Helper_Break_Exception p y).
Proof. intros Hp Hy. apply exception_ok; auto with safe. Qed.

(** ** Memory *)

Lemma rd16_range m a : mem_ok m -> is_u16 (rd16 m a).
Proof.
  intros Hm. unfold rd16. pose proof (rd8_range m a Hm). pose proof (rd8_range m (a + 1) Hm).
  unfold is_u8, is_u16 in *. apply (lor_bound 16); [lia | lia|]. rewrite Z.shiftl_mul_pow2 by lia. lia.
Qed.

Lemma merge_u32 a w x : is_u32 w -> is_u32 x ->
  is_u32 (lwl_merge a w x) /\ is_u32 (lwr_merge a w x) /\ is_u32 (swl_merge a w x) /\ is_u32 (swr_merge a w x).
Proof.
  intros Hw Hx. pose proof (fun n Hn => shiftr_u32 w n Hn Hw). pose proof (fun n Hn => shiftr_u32 x n Hn Hx).
  unfold lwl_merge, lwr_merge, swl_merge, swr_merge.
  split; [|split; [|split] ]; repeat case_match; try assumption; apply lor_u32; try apply u32_range;
    try (apply u32_land_mask; lia); auto with zarith.
Qed.

Section Memory.
Context {S : Type} `{SafePlatform S}.

Lemma upd_sys_ok f (s : S) : (sys_ok (get_sys s) -> sys_ok (f (get_sys s))) -> sys_ok (get_sys s) -> sys_ok (get_sys (upd_sys f s)).
Proof. intros Hf Hs. rewrite get_upd_sys. auto. Qed.

Definition read_ok (f : S -> Z * S) : Prop :=
  forall s, sys_ok (get_sys s) -> is_u32 (fst (f s)) /\ sys_ok (get_sys (snd (f s))).
Definition step_ok (f : S -> S) : Prop := forall s, sys_ok (get_sys s) -> sys_ok (get_sys (f s)).

Lemma address_error_ok code addr : is_u32 addr -> step_ok (address_error code addr).
Proof. intros Ha s Hs. apply upd_sys_ok; [|exact Hs]. intros Hy. apply exception_ok, sys_set_pc; auto with safe. Qed.

Lemma ReadByte_ok addr : read_ok (ReadByte addr).
Proof.
  intros s Hs. unfold ReadByte. pose proof (so_mem _ Hs) as (Hr & Hb & Hp).
  destruct (in_ram _); [split; [apply u32_u8, rd8_range, Hr | exact Hs]|].
  destruct (in_bios _); [split; [apply u32_u8, rd8_range, Hb | exact Hs]|].
  destruct (in_scratchpad _); [split; [apply u32_u8, rd8_range, Hp | exact Hs]|].
  destruct (in_io _); [|split; [apply u32_0 | exact Hs] ].
  destruct (read_safe (translate_addr addr) s Hs) as [_ H2]. destruct (ReadHardware _ s).
  split; [apply u32_u8, u8_range | exact H2].
Qed.
Lemma ReadHalf_ok addr : is_u32 addr -> read_ok (ReadHalf addr).
Proof.
  intros Ha s Hs. unfold ReadHalf. pose proof (so_mem _ Hs) as (Hr & Hb & Hp).
  destruct (tst addr 1); [split; [apply u32_0 | apply address_error_ok; assumption]|].
  destruct (in_ram _); [split; [apply u32_u16, rd16_range, Hr | exact Hs]|].
  destruct (in_bios _); [split; [apply u32_u16, rd16_range, Hb | exact Hs]|].
  destruct (in_scratchpad _); [split; [apply u32_u16, rd16_range, Hp | exact Hs]|].
  destruct (in_io _); [|split; [apply u32_0 | exact Hs] ].
  destruct (read_safe (translate_addr addr) s Hs) as [_ H2]. destruct (ReadHardware _ s).
  split; [apply u32_u16, u16_range | exact H2].
Qed.
Lemma ReadWord_ok addr : is_u32 addr -> read_ok (ReadWord addr).
Proof.
  intros Ha s Hs. unfold ReadWord. pose proof (so_mem _ Hs) as (Hr & Hb & Hp).
  destruct (tst addr 3); [split; [apply u32_0 | apply address_error_ok; assumption]|].
  destruct (in_ram _); [split; [apply rd32_range, Hr | exact Hs]|].
  destruct (in_bios _); [split; [apply rd32_range, Hb | exact Hs]|].
  destruct (in_scratchpad _); [split; [apply rd32_range, Hp | exact Hs]|].
  destruct (in_io _); [apply read_safe, Hs|].
  destruct (_ =? _); split; try exact Hs; [apply Hs | apply u32_0].
Qed.

Lemma sys_ram y f : (mem_ok (psx_ram y) -> mem_ok (f (psx_ram y))) -> sys_ok y -> sys_ok (y <| psx_ram ::= f |>).
Proof. intros Hf [Ho (Hr & Hb & Hp) Ha Hc]. constructor; try assumption. split; [|split]; cbn; auto. Qed.
Lemma sys_spad y f : (mem_ok (scratchpad_buf y) -> mem_ok (f (scratchpad_buf y))) -> sys_ok y -> sys_ok (y <| scratchpad_buf ::= f |>).
Proof. intros Hf [Ho (Hr & Hb & Hp) Ha Hc]. constructor; try assumption. split; [|split]; cbn; auto. Qed.
Lemma sys_cache y v : is_u32 v -> sys_ok y -> sys_ok (y <| cache_ctrl := v |>).
Proof. intros Hv [Ho Hm Ha Hc]. constructor; assumption. Qed.
Lemma sys_invalidate p y : sys_ok y -> sys_ok (jit_invalidate_page p y).
Proof. intros Hy. unfold jit_invalidate_page. destruct (_ && _); [|exact Hy]. destruct Hy. constructor; assumption. Qed.

Lemma WriteByte_ok addr v : step_ok (WriteByte addr v).
Proof.
  intros s Hs. unfold WriteByte. repeat case_match; try exact Hs; try (apply sio_safe || apply write_safe); try exact Hs;
    (apply upd_sys_ok; [|exact Hs]); (apply sys_ram || apply sys_spad); apply mem_ok_wr8.
Qed.
Lemma WriteHalf_ok addr v : is_u32 addr -> step_ok (WriteHalf addr v).
Proof.
  intros Ha s Hs. unfold WriteHalf. repeat case_match; try exact Hs; try (apply sio_safe || apply write_safe); try exact Hs;
    first [apply address_error_ok; assumption | apply upd_sys_ok; [|exact Hs]; (apply sys_ram || apply sys_spad); apply mem_ok_wr16].
Qed.
Lemma WriteWord_ok addr v : is_u32 addr -> is_u32 v -> step_ok (WriteWord addr v).
Proof.
  intros Ha Hv s Hs. unfold WriteWord. repeat case_match; try exact Hs; try apply write_safe; try exact Hs;
    first [apply address_error_ok; assumption | apply upd_sys_ok; [|exact Hs]; intros Hy;
      first [apply sys_invalidate, sys_ram; [apply mem_ok_wr32 | exact Hy] | apply sys_spad; [apply mem_ok_wr32 | exact Hy] | apply sys_cache; [exact Hv | exact Hy] ] ].
Qed.

Lemma align4_u32 a : is_u32 (align4 a).
Proof. apply u32_land_mask. vm_compute. intuition discriminate. Qed.

Lemma Helper_LW_ok addr x : is_u32 x -> read_ok (Helper_LWL addr x) /\ read_ok (Helper_LWR addr x).
Proof.
  intros Hx. split; intros s Hs; unfold Helper_LWL, Helper_LWR;
    destruct (ReadWord_ok (align4 addr) (align4_u32 addr) s Hs) as [H1 H2]; destruct (ReadWord _ s) as [w s1]; cbn [fst snd] in *;
    (split; [apply (merge_u32 addr w x H1 Hx) | exact H2]).
Qed.
Lemma Helper_SW_ok addr x : is_u32 x -> step_ok (Helper_SWL addr x) /\ step_ok (Helper_SWR addr x).
Proof.
  intros Hx. split; intros s Hs; unfold Helper_SWL, Helper_SWR;
    destruct (ReadWord_ok (align4 addr) (align4_u32 addr) s Hs) as [H1 H2]; destruct (ReadWord _ s) as [w s1]; cbn [fst snd] in *;
    (apply WriteWord_ok; [apply align4_u32 | apply (merge_u32 addr w x H1 Hx) | exact H2]).
Qed.
End Memory.

(** ** Instructions *)

Section Instructions.
Context {S : Type} `{SafePlatform S}.

Record ok (st : Interp S) : Prop := {
  ok_sys : sys_ok (sys_of st);
  ok_target : is_u32 (branch_target st);
  ok_state : 0 <= branch_state st <= 2
}.

Lemma ok_on_sys f st : (sys_ok (sys_of st) -> sys_ok (f (sys_of st))) -> ok st -> ok (on_sys f st).
Proof. intros Hf [Hs Ht Hb]. constructor; [apply (upd_sys_ok f (mach st)) | |]; assumption. Qed.
Lemma ok_on_cpu f st : (proc_ok (cpu_of st) -> proc_ok (f (cpu_of st))) -> ok st -> ok (on_cpu f st).
Proof. intros Hf. apply ok_on_sys, sys_on_cpu, Hf. Qed.
Lemma ok_mach f st : step_ok f -> ok st -> ok (st <| mach ::= f |>).
Proof. intros Hf [Hs Ht Hb]. constructor; [apply Hf, Hs | |]; assumption. Qed.
Lemma ok_set_mach m st : sys_ok (get_sys m) -> ok st -> ok (st <| mach := m |>).
Proof. intros Hm [Hs Ht Hb]. constructor; assumption. Qed.

Lemma ok_reg st i : ok st -> is_u32 (reg st i).
Proof. intros Hs. apply sys_reg, Hs. Qed.
Lemma ok_shiftl_reg st i k : is_u32 (u32 (Z.shiftl (reg st i) k)).
Proof. apply u32_range. Qed.
Lemma ok_cop0 st i : ok st -> is_u32 (get_cop0 (sys_of st) i).
Proof. intros Hs. apply sys_cop0, Hs. Qed.
Lemma ok_current st : ok st -> is_u32 (current_pc (cpu_of st)).
Proof. intros Hs. apply sys_current_pc, Hs. Qed.
Lemma ok_hi st : ok st -> is_u32 (hi (cpu_of st)).
Proof. intros Hs. apply Hs. Qed.
Lemma ok_lo st : ok st -> is_u32 (lo (cpu_of st)).
Proof. intros Hs. apply Hs. Qed.
Lemma ok_effective st o : is_u32 (effective o st).
Proof. apply u32_range. Qed.

Lemma ok_wr i v st : 0 <= i -> is_u32 v -> ok st -> ok (wr i v st).
Proof.
  intros Hi Hv Hs. unfold wr. destruct (Z.eqb_spec i 0); cbn [negb]; [exact Hs|].
  apply ok_on_sys; [apply sys_set_reg; assumption | exact Hs].
Qed.
Lemma ok_set_reg i v st : i <> 0 -> 0 <= i -> is_u32 v -> ok st -> ok (on_sys (set_reg i v) st).
Proof. intros Hi H0' Hv Hs. apply ok_on_sys; [apply sys_set_reg; assumption | exact Hs]. Qed.
Lemma ok_branch t st : is_u32 t -> ok st -> ok (do_branch t st).
Proof. intros Ht [Hs _ _]. constructor; [exact Hs | exact Ht | cbn; lia]. Qed.
Lemma ok_branch_if (b : bool) o st : ok st -> ok (branch_if b o st).
Proof. intros Hs. unfold branch_if. destruct b; [apply ok_branch; [apply u32_range | exact Hs] | exact Hs]. Qed.
Lemma ok_next st : ok st -> ok (snd (next st)).
Proof. auto. Qed.
Lemma ok_leave st : ok st -> ok (snd (leave st)).
Proof. intros [Hs Ht _]. constructor; [exact Hs | exact Ht | cbn; lia]. Qed.
Lemma ok_set_load r v st : 0 <= r < 32 -> is_u32 v -> ok st -> ok (set_load r v st).
Proof. intros Hr Hv. apply ok_on_cpu, proc_set_load; assumption. Qed.
Lemma ok_hilo h l st : is_u32 h -> is_u32 l -> ok st -> ok (on_cpu (fun c => c <| hi := h |> <| lo := l |>) st).
Proof. intros Hh Hl. apply ok_on_cpu. intros Hc. apply proc_set_lo, proc_set_hi; assumption. Qed.
Lemma ok_lohi h l st : is_u32 h -> is_u32 l -> ok st -> ok (on_cpu (fun c => c <| lo := l |> <| hi := h |>) st).
Proof. intros Hh Hl. apply ok_on_cpu. intros Hc. apply proc_set_hi, proc_set_lo; assumption. Qed.

Lemma u32_shiftr_any x k : 0 <= k -> is_u32 x -> is_u32 (Z.shiftr x k).
Proof. apply shiftr_u32. Qed.
Lemma u32_imm_high o : is_u32 (Z.shiftl (IMM o) 16).
Proof.
  pose proof (land_bound_r o 0xFFFF) as Hi. fold (IMM o) in Hi. rewrite Z.shiftl_mul_pow2 by lia. unfold is_u32. lia.
Qed.
Lemma u32_land_5 x : 0 <= Z.land x 31.
Proof. pose proof (land_bound_r x 31). lia. Qed.

Lemma jump_target_u32 o st : is_u32 (jump_target o st).
Proof.
  apply lor_u32; [apply u32_land_mask; lia|]. pose proof (land_bound_r o 0x3FFFFFF) as Ht.
  rewrite Z.shiftl_mul_pow2 by lia. unfold TARGET, is_u32. lia.
Qed.

Lemma div_u32 a b : is_u32 a -> is_u32 b ->
  (is_u32 (fst (Helper_DIV a b)) /\ is_u32 (snd (Helper_DIV a b))) /\
  (is_u32 (fst (Helper_DIVU a b)) /\ is_u32 (snd (Helper_DIVU a b))).
Proof.
  intros Ha Hb. split.
  - unfold Helper_DIV. destruct (_ =? 0).
    { split; [destruct (0 <=? _); apply u32_literal; reflexivity | apply u32_range]. }
    destruct (_ && _); [split; apply u32_literal; reflexivity | split; apply u32_range].
  - unfold Helper_DIVU. destruct (Z.eqb_spec b 0); [split; [apply u32_literal; reflexivity | exact Ha]|].
    unfold is_u32 in *. cbn [fst snd]. pose proof (Z.mod_pos_bound a b ltac:(lia)).
    pose proof (Z.div_pos a b ltac:(lia) ltac:(lia)). pose proof (Z.div_le_upper_bound a b a ltac:(lia)).
    assert (a <= b * a) by nia. lia.
Qed.

Lemma gte_typed c g : proc_ok c -> (typed (mkGte (cp2_data c) (cp2_ctrl c) 0) -> typed (snd g : Gte)) ->
  typed (mkGte (gdata (snd g : Gte)) (gctrl (snd (g : unit * Gte))) 0).
Proof. intros Hc Hg. destruct (Hg (po_gte c Hc)) as [Hs Hd Hx]. constructor; assumption. Qed.

Lemma ok_gte_do m st : (forall g, typed g -> typed (snd (m g))) -> ok st -> ok (gte_do m st).
Proof.
  intros Hm. apply ok_on_cpu. intros Hc. unfold on_gte.
  pose proof (gte_typed _ (m (mkGte (cp2_data (cpu_of st)) (cp2_ctrl (cpu_of st)) 0)) Hc (Hm _)) as Hg.
  destruct (m _) as [x g]. apply proc_set_gte; assumption.
Qed.

Lemma gte_read_u32 f st : (forall g, typed g -> is_u32 (f g)) -> ok st -> is_u32 (gte_read f st).
Proof. intros Hf Hs. apply Hf, (so_proc _ (ok_sys st Hs)). Qed.

Lemma read_ctrl_u32 r g : typed g -> is_u32 (GTE_ReadCtrl r g).
Proof. intros Hg. apply typed_ctrl_u32; [exact Hg|]. pose proof (land_bound_r r 0x1F). lia. Qed.

Lemma execute_typed o g : typed g -> typed (snd (GTE_Execute o g)).
Proof. intros Hg. apply typed_flagged; [apply keeps_command | exact Hg]. Qed.

Lemma ok_load r f st : 0 <= r < 32 -> read_ok f -> ok st -> ok (load r f st).
Proof.
  intros Hr Hf Hs. unfold load. destruct (negb _); [|exact Hs].
  assert (H1 : ok (on_cpu (fun c => c <| load_delay_reg := r |>) st))
    by (apply ok_on_cpu; [apply proc_set_delay_reg, Hr | exact Hs]).
  set (st1 := on_cpu _ st) in *. clearbody st1.
  destruct (Hf _ (ok_sys st1 H1)) as [Hv Hm]. unfold sys_of in *. destruct (f (mach st1)) as [v m]. cbn [fst snd] in *.
  apply ok_on_cpu; [apply proc_set_delay_val, Hv | apply ok_set_mach; assumption].
Qed.

Lemma read_ok_signed e f : read_ok f -> read_ok (signed e f).
Proof.
  intros Hf s Hs. unfold signed. destruct (Hf s Hs) as [_ Hm]. destruct (f s) as [v m].
  split; [apply u32_range | exact Hm].
Qed.

Lemma ok_base r st : ok st -> is_u32 (base_val r st).
Proof.
  intros Hs. unfold base_val. destruct (_ && _); [apply (so_proc _ (ok_sys st Hs)) | apply ok_reg, Hs].
Qed.

Lemma ok_unaligned code a st : is_u32 a -> ok st -> ok (snd (unaligned code a st)).
Proof. intros Ha Hs. apply ok_leave, ok_mach; [apply address_error_ok, Ha | exact Hs]. Qed.

Lemma ok_cu p n st : is_u32 p -> ok st -> ok (snd (leave (on_sys (Helper_CU_Exception p n) st))).
Proof. intros Hp Hs. apply ok_leave, ok_on_sys; [apply cu_exception_ok, Hp | exact Hs]. Qed.

(** Goes through the state an instruction builds. *)
Ltac ok_value := first
  [ assumption | apply u32_range | apply u32_b2z | apply u32_imm_high | apply jump_target_u32
  | apply shiftr_u32; [lia | assumption] | apply land_u32_l; assumption | apply lor_u32; assumption | apply lxor_u32; assumption
  | lazymatch goal with
    | |- context [GTE_ReadData] => apply gte_read_u32; [intros; apply read_data_u32; assumption | assumption]
    | |- context [GTE_ReadCtrl] => apply gte_read_u32; [intros; apply read_ctrl_u32; assumption | assumption] end ].
Ltac ok_trap := lazymatch goal with
  | |- context [Helper_Break_Exception] => apply break_ok; assumption
  | |- context [Helper_Syscall_Exception] => apply syscall_ok; assumption
  | |- context [Helper_CU_Exception] => apply cu_exception_ok; assumption
  | |- context [Helper_ADD] => apply helper_ADD_ok; [lia | assumption]
  | |- context [Helper_SUB] => apply helper_SUB_ok; [lia | assumption]
  | |- context [Helper_ADDI] => apply helper_ADDI_ok; [lia | assumption]
  end.
Ltac ok_reader := lazymatch goal with
  | |- read_ok (signed _ _) => apply read_ok_signed; ok_reader
  | |- read_ok (ReadByte _) => apply ReadByte_ok
  | |- read_ok (ReadHalf _) => apply ReadHalf_ok; assumption
  | |- read_ok (ReadWord _) => apply ReadWord_ok; assumption
  | |- read_ok (Helper_LWL ?a ?x) => apply (proj1 (Helper_LW_ok a x ltac:(assumption)))
  | |- read_ok (Helper_LWR ?a ?x) => apply (proj2 (Helper_LW_ok a x ltac:(assumption)))
  end.
Ltac ok_writer := lazymatch goal with
  | |- step_ok (WriteByte _ _) => apply WriteByte_ok
  | |- step_ok (WriteHalf _ _) => apply WriteHalf_ok; assumption
  | |- step_ok (WriteWord _ _) => apply WriteWord_ok; assumption
  | |- step_ok (Helper_SWL ?a ?x) => apply (proj1 (Helper_SW_ok a x ltac:(assumption)))
  | |- step_ok (Helper_SWR ?a ?x) => apply (proj2 (Helper_SW_ok a x ltac:(assumption)))
  end.
Ltac ok_gte := lazymatch goal with
  | |- context [GTE_Execute] => intros; apply execute_typed; assumption
  | |- context [GTE_WriteData] => intros; apply typed_write_data; assumption
  | |- context [GTE_WriteCtrl] => intros; apply typed_write_ctrl; assumption
  end.
Ltac ok_step :=
  lazymatch goal with
  | |- ok (snd (next ?x)) => change (ok x)
  | |- ok (snd (unaligned _ _ _)) => apply ok_unaligned; [assumption|]
  | |- ok (snd (store ?f ?x)) => change (ok (x <| mach ::= f |>)); apply ok_mach; [ok_writer|]
  | |- ok (snd (leave _)) => apply ok_leave
  | |- ok (wr _ _ _) => apply ok_wr; [lia | ok_value|]
  | |- ok (do_branch _ _) => apply ok_branch; [ok_value|]
  | |- ok (branch_if _ _ _) => apply ok_branch_if
  | |- ok (on_sys (set_reg _ _) _) => apply ok_set_reg; [assumption || lia | lia | ok_value|]
  | |- ok (on_sys _ _) => apply ok_on_sys; [ok_trap|]
  | |- ok (on_cpu (fun c => c <| hi := _ |> <| lo := _ |>) _) => apply ok_hilo; [ok_value | ok_value|]
  | |- ok (on_cpu (fun c => c <| lo := _ |> <| hi := _ |>) _) => apply ok_lohi; [ok_value | ok_value|]
  | |- ok (on_cpu (fun c => c <| hi := _ |>) _) => apply ok_on_cpu; [apply proc_set_hi; ok_value|]
  | |- ok (on_cpu (fun c => c <| lo := _ |>) _) => apply ok_on_cpu; [apply proc_set_lo; ok_value|]
  | |- ok (gte_do _ _) => apply ok_gte_do; [ok_gte|]
  | |- ok (load _ _ _) => apply ok_load; [assumption | ok_reader|]
  | |- ok _ => first [assumption | apply ok_set_mach; [assumption|] | solve [auto with safe] ]
  end.
Ltac ok_case := lazymatch goal with
  | |- ok (snd (match ?x with _ => _ end)) => destruct x
  | |- ok (match ?x with _ => _ end) => destruct x
  end.
Ltac ok_go := repeat ok_case; repeat ok_step.

Lemma ok_exec_special o st : ok st -> ok (snd (exec_special o st)).
Proof.
  intros Hs. unfold exec_special.
  pose proof (ok_reg st (RS o) Hs) as Hrs. pose proof (ok_reg st (RT o) Hs) as Hrt.
  pose proof (RD_range o) as Hd. pose proof (SHAMT_range o) as Hsh. pose proof (u32_land_5 (reg st (RS o))) as H5.
  pose proof (ok_current st Hs) as Hcp. pose proof (ok_hi st Hs) as Hh. pose proof (ok_lo st Hs) as Hl.
  destruct (div_u32 _ _ Hrs Hrt) as [ [D1 D2] [D3 D4] ].
  destruct (Helper_DIV _ _) as [q r], (Helper_DIVU _ _) as [qu ru]. cbn [fst snd] in *.
  set (rs := reg st (RS o)) in *. set (rt := reg st (RT o)) in *. clearbody rs rt.
  cbv zeta. ok_go.
Qed.

Lemma ok_exec_regimm o st : ok st -> ok (snd (exec_regimm o st)).
Proof.
  intros Hs. unfold exec_regimm. cbv zeta. ok_go.
Qed.

Lemma ok_exec_cop0 o st : ok st -> ok (exec_cop0 o st).
Proof.
  intros Hs. unfold exec_cop0. pose proof (ok_reg st (RT o) Hs). pose proof (RT_range o).
  repeat case_match; try exact Hs;
    try (apply ok_set_load; [assumption | apply ok_cop0, Hs | exact Hs]);
    try (apply ok_on_cpu; [apply proc_irq_fast|]); apply ok_on_sys; try exact Hs; apply sys_set_cop0; try assumption.
  apply lor_u32; [apply land_u32_l, ok_cop0, Hs | apply lor_u32; [apply u32_land_mask; lia|] ].
  apply land_u32_l, u32_land_mask. lia.
Qed.

Lemma ok_exec_cop2 o st : ok st -> ok (exec_cop2 o st).
Proof.
  intros Hs. unfold exec_cop2. pose proof (ok_reg st (RT o) Hs). pose proof (RT_range o). pose proof (RD_range o).
  destruct (Z.eqb_spec (RT o) 0); cbn [negb]; cbv zeta; ok_go.
Qed.

Lemma ok_exec_memory o st : ok st -> ok (snd (exec_memory o st)).
Proof.
  intros Hs. unfold exec_memory. pose proof (ok_effective st o) as Ha. pose proof (ok_reg st (RT o) Hs) as Hv.
  pose proof (RT_range o) as Hr. pose proof (ok_base (RT o) st Hs) as Hb. pose proof (ok_current st Hs) as Hp.
  destruct (ReadWord_ok (effective o st) Ha _ (ok_sys st Hs)) as [W1 W2].
  assert (HG : is_u32 (gte_read (GTE_ReadData (RT o)) st))
    by (apply gte_read_u32; [intros g Hg; apply read_data_u32; assumption | exact Hs]).
  unfold sys_of in W1, W2. destruct (ReadWord (effective o st) (mach st)) as [w m]. cbn [fst snd] in W1, W2.
  cbv zeta. ok_go.
Qed.

#[local] Hint Resolve ok_exec_special ok_exec_regimm ok_exec_memory ok_exec_cop0 ok_exec_cop2 : safe.

Lemma ok_exec o st : ok st -> ok (snd (exec o st)).
Proof.
  intros Hs. unfold exec. pose proof (ok_reg st (RT o) Hs) as Hrt. pose proof (ok_reg st (RS o) Hs) as Hrs.
  pose proof (RT_range o) as Hr. pose proof (ok_current st Hs) as Hp. pose proof (IMM_u32 o) as Hi.
  cbv zeta. ok_go.
Qed.

(** ** The loop *)

Lemma ok_pc st : ok st -> is_u32 (pc (cpu_of st)).
Proof. intros Hs. apply sys_pc, Hs. Qed.

Lemma ok_set_pc v st : is_u32 v -> ok st -> ok (on_sys (set_pc v) st).
Proof. intros Hv. apply ok_on_sys, sys_set_pc, Hv. Qed.

Lemma ok_hle_return v st : is_u32 v -> ok st -> ok (hle_return v st).
Proof.
  intros Hv Hs. unfold hle_return.
  assert (H1 : ok (on_sys (set_reg 2 v) st)) by (apply ok_set_reg; [lia | lia | exact Hv | exact Hs]).
  apply ok_set_pc; [apply ok_reg|]; exact H1.
Qed.

Lemma ok_bios_hle st : ok st -> ok (snd (bios_hle st)).
Proof.
  intros Hs. unfold bios_hle, BIOS_HLE_A, BIOS_HLE_B, BIOS_HLE_C.
  repeat ok_case; cbn [snd]; try exact Hs; (apply ok_hle_return; [apply ok_reg, Hs || (apply u32_literal; reflexivity) | exact Hs]).
Qed.

Lemma ok_add_cycles n st : ok st -> ok (add_cycles n st).
Proof. apply ok_on_sys. intros [Hp Hm Ha Hc]. constructor; assumption. Qed.

Lemma ok_advance_branch st : ok st -> ok (advance_branch st).
Proof.
  intros Hs. unfold advance_branch. destruct (branch_state st =? 2); [|destruct (branch_state st =? 1)].
  - destruct (ok_set_pc _ _ (ok_target st Hs) Hs) as [H1 H2 _]. constructor; [exact H1 | exact H2 | cbn; lia].
  - constructor; [apply Hs | apply Hs | cbn; lia].
  - exact Hs.
Qed.

Lemma ok_retire o st : ok st -> ok (snd (retire o st)).
Proof.
  intros Hs. unfold retire.
  assert (H1 : ok (on_cpu (cancel_load o) st)) by (apply ok_on_cpu; [apply proc_cancel_load | exact Hs]).
  set (st1 := on_cpu _ st) in *. clearbody st1.
  pose proof (ok_add_cycles (r3000a_cycle_cost o) _ (ok_advance_branch _ H1)) as H2.
  set (st2 := add_cycles _ _) in *. clearbody st2.
  destruct (negb (block_aborted (cpu_of st2) =? 0)); [|destruct (_ && _); exact H2].
  apply ok_leave, ok_on_cpu; [apply proc_aborted|]. apply ok_on_sys; [|exact H2].
  intros Hy. apply sys_set_pc; [apply Hy | exact Hy].
Qed.

Lemma ok_fetch st : ok st -> ok (snd (fetch st)).
Proof.
  intros Hs. unfold fetch.
  assert (H1 : ok (on_cpu (fun c => c <| current_pc := pc c |>) st)) by (apply ok_on_cpu; [apply proc_set_current | exact Hs]).
  set (st1 := on_cpu _ st) in *. clearbody st1.
  destruct (ReadWord_ok _ (ok_pc st1 H1) _ (ok_sys st1 H1)) as [_ Hm]. unfold sys_of in Hm.
  destruct (ReadWord _ (mach st1)) as [o m]. cbn [snd] in *.
  apply ok_on_cpu; [apply proc_set_pc, u32_range | apply ok_set_mach; assumption].
Qed.

Lemma ok_iterate st : ok st -> ok (snd (iterate st)).
Proof.
  intros Hs. unfold iterate. destruct (boot_hook st); [exact Hs|].
  pose proof (ok_bios_hle st Hs) as H1. destruct (bios_hle st) as [handled st1]. cbn [snd] in H1.
  destruct handled.
  { apply ok_add_cycles, ok_on_sys; [|exact H1]. intros Hy. apply sys_set_pc; auto with safe. }
  destruct (tst _ 3).
  { apply ok_leave, ok_on_sys; [|exact H1]. intros Hy. apply exception_ok, sys_set_pc; auto with safe. }
  pose proof (ok_fetch st1 H1) as H2. destruct (fetch st1) as [o st2]. cbn [snd] in H2.
  pose proof (ok_exec o _ (ok_on_cpu _ _ (proc_commit_load _) H2)) as H3.
  destruct (exec o _) as [go st3]. cbn [snd] in H3. destruct go; [apply ok_retire|]; exact H3.
Qed.

(** [C3] The processor keeps its types.  From a machine whose registers are
    32-bit words with [$zero] zero, whose load slots name registers and whose
    coprocessor registers are typed, every turn of the loop (instruction, trap,
    hook or exception) and every chain leaves such a machine, on any platform
    whose devices do. *)
Theorem interpreter_safe (st : Interp S) : ok st ->
  ok (snd (iterate st)) /\
  forall fuel deadline st', run_interpreter_chain fuel deadline st = Some st' -> ok st' /\ reg st' 0 = 0.
Proof.
  intros Hs. split; [apply ok_iterate, Hs|]. intros fuel deadline. revert st Hs.
  induction fuel as [|fuel IH]; intros st Hs st' Hr; cbn [run_interpreter_chain] in Hr; destruct (_ || _); try discriminate.
  - injection Hr as <-. split; [exact Hs | apply Hs].
  - pose proof (ok_iterate st Hs) as H1. destruct (iterate st) as [go st1]. cbn [snd] in H1.
    destruct go; [apply (IH st1); assumption|]. injection Hr as <-. split; [exact H1 | apply H1].
  - injection Hr as <-. split; [exact Hs | apply Hs].
Qed.
End Instructions.

(** ** RAM alone *)

#[export] Instance ram_safe : SafePlatform Sys.
Proof.
  split; intros; try assumption. cbn. split; [apply u32_0 | assumption].
Qed.
