(* ===== verification/InterpTime.v ===== *)
(** * Progress of the interpreter

    Every turn of the loop that goes on moves the clock forward by at least a
    cycle.  Devices may move it too, forward only: a status read of a busy
    graphics processor waits for it, and a DMA transfer started by a write
    takes its time ([TimedPlatform]).  So a chain reaches its deadline, and it
    returns between two instructions that are not a branch and its delay slot,
    except at a boot hook. *)

From S2P Require Import Prelude Scheduler System Cpu Memory Gte Interpreter InterpSafe.

(** From [a] the clock has moved forward to [b], by [n] cycles at most. *)
Definition forward (n a b : Z) : Prop := is_u64 a -> exists k, 0 <= k <= n /\ b = u64 (a + k).

Lemma forward_refl n a b : 0 <= n -> b = a -> forward n a b.
Proof. intros Hn -> Ha. exists 0. split; [lia|]. rewrite Z.add_0_r, u64_small by exact Ha. reflexivity. Qed.
Lemma u64_add_assoc a k j : u64 (u64 (a + k) + j) = u64 (a + (k + j)).
Proof. unfold u64. rewrite Zplus_mod_idemp_l, Z.add_assoc. reflexivity. Qed.
Lemma forward_trans n m a b c : forward n a b -> forward m b c -> forward (n + m) a c.
Proof.
  intros H1 H2 Ha. destruct (H1 Ha) as (k & Hk & ->).
  destruct (H2 ltac:(unfold is_u64, u64; apply Z.mod_pos_bound; lia)) as (j & Hj & ->).
  exists (k + j). split; [lia | apply u64_add_assoc].
Qed.
Lemma forward_le n m a b : n <= m -> forward n a b -> forward m a b.
Proof. intros Hnm H Ha. destruct (H Ha) as (k & Hk & ->). exists k. split; [lia | reflexivity]. Qed.

(** A device access takes some number of cycles, and no more than
    [device_lag]. *)
Class TimedPlatform (S : Type) `{Platform S} : Type := {
  device_lag : Z;
  device_lag_pos : 0 <= device_lag;
  read_time : forall a s, forward device_lag (global_cycles (get_sys s)) (global_cycles (get_sys (snd (ReadHardware a s))));
  write_time : forall a v n s, forward device_lag (global_cycles (get_sys s)) (global_cycles (get_sys (WriteHardware a v n s)));
  sio_time : forall a v s, forward device_lag (global_cycles (get_sys s)) (global_cycles (get_sys (SIO_Write a v s)))
}.

(** Operations on the shared state that leave the clock alone. *)
Definition timeless (f : Sys -> Sys) : Prop := forall y, global_cycles (f y) = global_cycles y.

Create HintDb timeless discriminated.

Lemma timeless_abort : timeless signal_block_abort.
Proof. intros y. unfold signal_block_abort. destruct (psx_block_exception y); reflexivity. Qed.
Lemma timeless_exception code : timeless (PSX_Exception code).
Proof.
  intros y. unfold PSX_Exception. cbv zeta. destruct (tst _ _); [rewrite timeless_abort; reflexivity|].
  destruct (_ && _); [reflexivity | rewrite timeless_abort; reflexivity].
Qed.
Lemma timeless_cu p n : timeless (Helper_CU_Exception p n).
Proof. intros y. unfold Helper_CU_Exception. cbv zeta. rewrite timeless_abort. reflexivity. Qed.
Lemma timeless_syscall p : timeless (Helper_Syscall_Exception p).
Proof. intros y. apply (timeless_exception 8 (set_pc p y)). Qed.
Lemma timeless_break p : timeless (Helper_Break_Exception p).
Proof. intros y. apply (timeless_exception 9 (set_pc p y)). Qed.
Lemma timeless_ADD a b d p : timeless (Helper_ADD a b d p).
Proof. intros y. unfold Helper_ADD. destruct (_ && _); [apply (timeless_exception 12 (set_pc p y))|]. destruct (negb _); reflexivity. Qed.
Lemma timeless_SUB a b d p : timeless (Helper_SUB a b d p).
Proof. intros y. unfold Helper_SUB. destruct (_ && _); [apply (timeless_exception 12 (set_pc p y))|]. destruct (negb _); reflexivity. Qed.
Lemma timeless_ADDI a b d p : timeless (Helper_ADDI a b d p).
Proof. apply timeless_ADD. Qed.
Lemma timeless_cpu f : timeless (upd_cpu f).
Proof. intros y. reflexivity. Qed.
Lemma timeless_pc v : timeless (set_pc v).
Proof. intros y. reflexivity. Qed.
Lemma timeless_reg i v : timeless (set_reg i v).
Proof. intros y. reflexivity. Qed.
Lemma timeless_cop0 i v : timeless (set_cop0 i v).
Proof. intros y. reflexivity. Qed.
#[export] Hint Resolve timeless_exception timeless_cu timeless_syscall timeless_break timeless_ADD timeless_SUB
  timeless_ADDI timeless_cpu timeless_pc timeless_reg timeless_cop0 : timeless.

Section Time.
Context {S : Type} `{Platform S, !TimedPlatform S}.

Definition clock (s : S) : Z := global_cycles (get_sys s).
Definition now (st : Interp S) : Z := clock (mach st).

Lemma clock_upd_sys f s : timeless f -> clock (upd_sys f s) = clock s.
Proof. intros Hf. unfold clock. rewrite get_upd_sys. apply Hf. Qed.
Lemma clock_address_error code a s : clock (address_error code a s) = clock s.
Proof. apply clock_upd_sys. intros y. rewrite timeless_exception. reflexivity. Qed.

(** At most [n] device accesses. *)
Definition within (n a b : Z) : Prop := forward (n * device_lag) a b.
Lemma within_refl n a b : 0 <= n -> b = a -> within n a b.
Proof. intros Hn E. apply forward_refl; [pose proof device_lag_pos; nia | exact E]. Qed.
Lemma within_trans n m a b c : within n a b -> within m b c -> within (n + m) a c.
Proof. intros H1 H2. unfold within. rewrite Z.mul_add_distr_r. exact (forward_trans _ _ _ _ _ H1 H2). Qed.
Lemma within_le n m a b : n <= m -> within n a b -> within m a b.
Proof. intros Hnm. apply forward_le. pose proof device_lag_pos. nia. Qed.
Lemma within_1 a b : forward device_lag a b -> within 1 a b.
Proof. unfold within. rewrite Z.mul_1_l. exact (fun x => x). Qed.

Definition slow_read (n : Z) (f : S -> Z * S) : Prop := forall s, within n (clock s) (clock (snd (f s))).
Definition slow_step (n : Z) (f : S -> S) : Prop := forall s, within n (clock s) (clock (f s)).

(** No access, or one. *)
Ltac one_access := first
  [ apply within_refl; [lia | reflexivity]
  | apply within_1; first [apply read_time | apply write_time | apply sio_time]
  | apply within_refl; [lia | apply clock_address_error]
  | apply within_refl; [lia | apply clock_upd_sys; intros y; reflexivity] ].

Lemma slow_ReadByte a : slow_read 1 (ReadByte a).
Proof.
  intros s. unfold ReadByte. pose proof (read_time (translate_addr a) s) as E. destruct (ReadHardware _ s).
  repeat case_match; first [one_access | exact (within_1 _ _ E)].
Qed.
Lemma slow_ReadHalf a : slow_read 1 (ReadHalf a).
Proof.
  intros s. unfold ReadHalf. destruct (tst a 1); [one_access|].
  pose proof (read_time (translate_addr a) s) as E. destruct (ReadHardware _ s).
  repeat case_match; first [one_access | exact (within_1 _ _ E)].
Qed.
Lemma slow_ReadWord a : slow_read 1 (ReadWord a).
Proof.
  intros s. unfold ReadWord. destruct (tst a 3); [one_access|].
  destruct (in_ram _); [one_access|]. destruct (in_bios _); [one_access|]. destruct (in_scratchpad _); [one_access|].
  destruct (in_io _); [one_access|]. destruct (_ =? _); one_access.
Qed.
Lemma slow_WriteByte a v : slow_step 1 (WriteByte a v).
Proof. intros s. unfold WriteByte. repeat case_match; one_access. Qed.
Lemma slow_WriteHalf a v : slow_step 1 (WriteHalf a v).
Proof. intros s. unfold WriteHalf. destruct (tst a 1); [one_access|]. repeat case_match; one_access. Qed.
Lemma slow_WriteWord a v : slow_step 1 (WriteWord a v).
Proof.
  intros s. unfold WriteWord. destruct (tst a 3); [one_access|]. repeat case_match; try one_access.
  apply within_refl; [lia|]. apply clock_upd_sys. intros y. unfold jit_invalidate_page. destruct (_ && _); reflexivity.
Qed.
Lemma slow_LWL a x : slow_read 1 (Helper_LWL a x).
Proof. intros s. unfold Helper_LWL. pose proof (slow_ReadWord (align4 a) s) as E. destruct (ReadWord _ s). exact E. Qed.
Lemma slow_LWR a x : slow_read 1 (Helper_LWR a x).
Proof. intros s. unfold Helper_LWR. pose proof (slow_ReadWord (align4 a) s) as E. destruct (ReadWord _ s). exact E. Qed.
Lemma slow_SWL a x : slow_step 2 (Helper_SWL a x).
Proof.
  intros s. unfold Helper_SWL. pose proof (slow_ReadWord (align4 a) s) as E. destruct (ReadWord _ s).
  exact (within_trans 1 1 _ _ _ E (slow_WriteWord _ _ _)).
Qed.
Lemma slow_SWR a x : slow_step 2 (Helper_SWR a x).
Proof.
  intros s. unfold Helper_SWR. pose proof (slow_ReadWord (align4 a) s) as E. destruct (ReadWord _ s).
  exact (within_trans 1 1 _ _ _ E (slow_WriteWord _ _ _)).
Qed.
Lemma slow_signed e f : slow_read 1 f -> slow_read 1 (signed e f).
Proof. intros Hf s. unfold signed. specialize (Hf s). destruct (f s). exact Hf. Qed.
#[local] Hint Resolve slow_ReadByte slow_ReadHalf slow_ReadWord slow_WriteByte slow_WriteHalf slow_WriteWord
  slow_LWL slow_LWR slow_SWL slow_SWR slow_signed : timeless.

Lemma now_on_sys f st : timeless f -> now (on_sys f st) = now st.
Proof. intros Hf. apply (clock_upd_sys f (mach st) Hf). Qed.
Lemma now_on_cpu f st : now (on_cpu f st) = now st.
Proof. apply now_on_sys, timeless_cpu. Qed.
Lemma now_wr i v st : now (wr i v st) = now st.
Proof. unfold wr. destruct (negb _); [apply now_on_sys, timeless_reg | reflexivity]. Qed.
Lemma now_branch_if b o st : now (branch_if b o st) = now st.
Proof. destruct b; reflexivity. Qed.
Lemma now_load r f st : slow_read 1 f -> within 1 (now st) (now (load r f st)).
Proof.
  intros Hf. unfold load. destruct (negb _); [|apply within_refl; [lia | reflexivity] ].
  rewrite <- (now_on_cpu (fun c => c <| load_delay_reg := r |>) st).
  set (st1 := on_cpu _ st). specialize (Hf (mach st1)). destruct (f (mach st1)) as [v m]. rewrite now_on_cpu. exact Hf.
Qed.
Lemma now_cop0 o st : now (exec_cop0 o st) = now st.
Proof.
  unfold exec_cop0. cbv zeta. destruct (RS o) as [|p|p]; repeat (case_match; try reflexivity);
    rewrite ?now_on_cpu, ?now_on_sys by auto with timeless; try reflexivity; apply now_on_cpu.
Qed.
Lemma now_cop2 o st : now (exec_cop2 o st) = now st.
Proof.
  unfold exec_cop2. cbv zeta. repeat (case_match; try reflexivity); unfold gte_do;
    rewrite ?now_on_cpu, ?now_on_sys by auto with timeless; reflexivity.
Qed.

Ltac now_go := repeat lazymatch goal with
  | |- within _ _ (now (snd (match ?x with _ => _ end))) => destruct x
  | |- within _ _ (now (snd (let '(_, _) := ?x in _))) => destruct x
  | |- within ?n ?r (now (snd (next ?x))) => change (within n r (now x))
  | |- within ?n ?r (now (snd (leave ?x))) => change (within n r (now x))
  | |- within ?n ?r (now (snd (unaligned ?c ?a ?x))) =>
      change (within n r (now (x <| mach ::= address_error c a |>))); apply within_refl; [lia | apply clock_address_error]
  | |- within ?n ?r (now (snd (store ?f ?x))) => change (within n r (clock (f (mach x))))
  | |- within _ _ (now (wr _ _ _)) => rewrite now_wr
  | |- within ?n ?r (now (do_branch _ ?x)) => change (within n r (now x))
  | |- within _ _ (now (branch_if _ _ _)) => rewrite now_branch_if
  | |- within _ _ (now (on_cpu _ _)) => rewrite now_on_cpu
  | |- within _ _ (now (gte_do _ _)) => unfold gte_do; rewrite now_on_cpu
  | |- within _ _ (now (on_sys _ _)) => rewrite now_on_sys by auto with timeless
  | |- within _ _ (now (snd (exec_special _ _))) => solve [auto with timeless nocore]
  | |- within _ _ (now (snd (exec_regimm _ _))) => solve [auto with timeless nocore]
  | |- within _ _ (now (snd (exec_memory _ _))) => solve [auto with timeless nocore]
  | |- within _ _ (now (exec_cop0 _ _)) => rewrite now_cop0
  | |- within _ _ (now (exec_cop2 _ _)) => rewrite now_cop2
  | |- within _ _ (now (load _ _ _)) => apply (within_le 1); [lia | apply now_load; auto with timeless]
  end; try solve [apply within_refl; [lia | reflexivity] ];
  try solve [lazymatch goal with |- within _ _ (clock (?f ?s)) =>
    first [apply (within_le 1 2); [lia | refine ((_ : slow_step 1 f) s); solve [auto with timeless nocore] ]
          | refine ((_ : slow_step 2 f) s); auto with timeless nocore] end].

Lemma now_special o st : within 2 (now st) (now (snd (exec_special o st))).
Proof. unfold exec_special. cbv zeta. now_go. Qed.
Lemma now_regimm o st : within 2 (now st) (now (snd (exec_regimm o st))).
Proof. unfold exec_regimm. cbv zeta. now_go. Qed.
Lemma now_memory o st : within 2 (now st) (now (snd (exec_memory o st))).
Proof.
  unfold exec_memory. cbv zeta. pose proof (slow_ReadWord (effective o st) (mach st)) as E.
  destruct (ReadWord (effective o st) (mach st)) as [w m]. now_go; exact (within_le 1 2 _ _ ltac:(lia) E).
Qed.
#[local] Hint Resolve now_special now_regimm now_memory : timeless.

Lemma now_exec o st : within 2 (now st) (now (snd (exec o st))).
Proof.
  unfold exec. cbv zeta. now_go.
Qed.

Lemma now_fetch st : within 1 (now st) (now (snd (fetch st))).
Proof.
  unfold fetch. rewrite <- (now_on_cpu (fun c => c <| current_pc := pc c |>) st). set (st1 := on_cpu _ st).
  pose proof (slow_ReadWord (pc (cpu_of st1)) (mach st1)) as E. destruct (ReadWord _ _) as [o m]. cbn [snd].
  rewrite now_on_cpu. exact E.
Qed.

Lemma now_bios_hle st : now (snd (bios_hle st)) = now st.
Proof.
  unfold bios_hle, BIOS_HLE_A, BIOS_HLE_B, BIOS_HLE_C, hle_return.
  repeat case_match; cbn [snd]; rewrite ?now_on_sys by auto with timeless; reflexivity.
Qed.

Lemma now_add_cycles n st : now (add_cycles n st) = u64 (now st + n).
Proof. unfold now, clock, add_cycles, on_sys, upd_sys. cbn. rewrite get_set_sys. reflexivity. Qed.

Lemma cycle_cost_range o : 1 <= r3000a_cycle_cost o <= 6.
Proof. unfold r3000a_cycle_cost. repeat case_match; lia. Qed.

Lemma now_advance_branch st : now (advance_branch st) = now st.
Proof. unfold advance_branch. destruct (_ =? 2); [apply now_on_sys, timeless_cpu|]. destruct (_ =? 1); reflexivity. Qed.

Lemma now_retire o st : now (snd (retire o st)) = u64 (now st + r3000a_cycle_cost o).
Proof.
  unfold retire.
  assert (E : now (add_cycles (r3000a_cycle_cost o) (advance_branch (on_cpu (cancel_load o) st))) = u64 (now st + r3000a_cycle_cost o))
    by (rewrite now_add_cycles, now_advance_branch, now_on_cpu; reflexivity).
  set (st2 := add_cycles _ _) in *. clearbody st2. rewrite <- E.
  destruct (negb _); [|destruct (_ && _); reflexivity].
  cbn [snd]. change (now (snd (leave ?x))) with (now x). rewrite now_on_cpu. apply now_on_sys. intros y. reflexivity.
Qed.

(** A turn that goes on takes a cycle at least, and no more than ten and the
    time of three device accesses: the fetch, and the two of SWL and SWR. *)
Definition turn_lag : Z := 10 + 3 * device_lag.

Lemma iterate_cost st : fst (iterate st) = true -> is_u64 (now st) ->
  exists k, 1 <= k <= turn_lag /\ now (snd (iterate st)) = u64 (now st + k).
Proof.
  unfold iterate, turn_lag. pose proof device_lag_pos as Hlag. destruct (boot_hook st); [discriminate|].
  pose proof (now_bios_hle st) as E0. destruct (bios_hle st) as [handled st1]. cbn [snd] in E0. destruct handled.
  { intros _ _. exists 10. split; [lia|]. cbn [snd]. rewrite now_add_cycles, now_on_sys, E0; [reflexivity|]. intros y. reflexivity. }
  destruct (tst _ 3); [discriminate|].
  pose proof (now_fetch st1) as E1. destruct (fetch st1) as [o st2]. cbn [snd] in E1.
  pose proof (now_exec o (on_cpu commit_load st2)) as E2. rewrite now_on_cpu in E2.
  destruct (exec o _) as [go st3]. cbn [snd] in E2. destruct go; [|discriminate].
  intros _ Hu. rewrite E0 in E1. destruct (within_trans _ _ _ _ _ E1 E2 Hu) as (k & Hk & E).
  exists (k + r3000a_cycle_cost o). pose proof (cycle_cost_range o). split; [lia|].
  rewrite now_retire, E. apply u64_add_assoc.
Qed.

(** ** Termination *)

Lemma running_chain m : forall fuel deadline st,
  run_interpreter_chain fuel deadline st = None -> (m <= fuel)%nat -> is_u64 (now st) ->
  now st + turn_lag * Z.of_nat m < 18446744073709551616 ->
  now st + Z.of_nat m <= now (turns m st) /\ (now (turns m st) < deadline \/ branch_state (turns m st) <> 0).
Proof.
  induction m as [|m IH]; intros fuel deadline st Hr Hm Hu Hn.
  - split; [cbn; lia|]. destruct fuel; cbn [run_interpreter_chain] in Hr; destruct (_ || _) eqn:E; try discriminate;
      change (now (turns 0 st)) with (global_cycles (sys_of st)); apply orb_true_iff in E as [E|E];
      [left; lia | right; apply negb_true_iff, Z.eqb_neq in E; exact E | left; lia | right; apply negb_true_iff, Z.eqb_neq in E; exact E].
  - destruct fuel as [|fuel]; [lia|]. cbn [run_interpreter_chain] in Hr. destruct (_ || _); [|discriminate].
    pose proof (iterate_cost st) as Hc. rewrite turns_S. destruct (iterate st) as [go st1]. cbn [fst snd] in *.
    destruct go; [|discriminate]. destruct (Hc eq_refl Hu) as (k & Hk & E). unfold is_u64 in Hu.
    rewrite u64_small in E by (unfold is_u64; nia).
    destruct (IH fuel deadline st1 Hr) as [H1' H2']; [lia | unfold is_u64; nia | nia |]. split; [lia | exact H2'].
Qed.

(** [C35] A chain ends, on a platform whose devices move the clock only
    forward and by a bounded time per access (a graphics status read that
    waits, a DMA transfer), while the 64-bit clock does not wrap.  The loop
    runs one turn per cycle at most, so after as many turns as the deadline is
    away it has returned, unless the next instruction sits in a branch delay
    slot; then it returns as soon as one does not: with [m] turns past the
    deadline and no branch pending after them, the chain has returned within
    [m] turns. *)
Theorem chain_terminates (m : nat) (deadline : Z) (st : Interp S) :
  is_u64 (now st) -> now st + turn_lag * Z.of_nat m < 18446744073709551616 ->
  deadline <= now st + Z.of_nat m -> branch_state (turns m st) = 0 ->
  exists st', run_interpreter_chain m deadline st = Some st'.
Proof.
  intros Hu Hn Hm Hb. destruct (run_interpreter_chain m deadline st) as [st'|] eqn:E; [exists st'; reflexivity|].
  destruct (running_chain m m deadline st E (le_n m) Hu Hn) as [H1 [H2|H2] ]; [lia | contradiction].
Qed.

(** ** Where a chain returns *)

Lemma leave_state (st : Interp S) : branch_state (snd (leave st)) = 0.
Proof. reflexivity. Qed.

Lemma exec_leaves o st : fst (exec o st) = false -> branch_state (snd (exec o st)) = 0.
Proof.
  unfold exec, exec_special, exec_regimm, exec_memory. cbv zeta.
  repeat lazymatch goal with
    | |- fst (match ?x with _ => _ end) = false -> _ => destruct x
    end; first [discriminate | reflexivity].
Qed.

Lemma retire_leaves o st : fst (retire o st) = false -> branch_state (snd (retire o st)) = 0.
Proof.
  unfold retire. destruct (negb _); [reflexivity|]. destruct (_ && (branch_state _ =? 0)) eqn:E; [|discriminate].
  intros _. apply andb_prop in E as [_ E]. apply Z.eqb_eq, E.
Qed.

Lemma iterate_leaves st : fst (iterate st) = false -> branch_state (snd (iterate st)) = 0 \/ boot_hook (snd (iterate st)) = true.
Proof.
  unfold iterate. destruct (boot_hook st) eqn:Eb; [intros _; right; exact Eb|]. destruct (bios_hle st) as [ [] st1]; [discriminate|].
  destruct (tst _ 3); [intros _; left; reflexivity|]. destruct (fetch st1) as [o st2].
  pose proof (exec_leaves o (on_cpu commit_load st2)) as H1'. destruct (exec o _) as [ [] st3]; intros Hf; left; [apply retire_leaves, Hf | apply H1'; reflexivity].
Qed.

(** A chain returns between instructions: with no branch pending, as the
    comment on top of the loop promises, or else at a boot hook. *)
Theorem chain_returns_settled fuel deadline (st st' : Interp S) :
  run_interpreter_chain fuel deadline st = Some st' -> branch_state st' = 0 \/ boot_hook st' = true.
Proof.
  revert st. induction fuel as [|fuel IH]; intros st Hr; cbn [run_interpreter_chain] in Hr; destruct (_ || _) eqn:E; try discriminate;
    try (injection Hr as <-; left; apply orb_false_iff in E as [_ E]; apply negb_false_iff, Z.eqb_eq in E; exact E).
  pose proof (iterate_leaves st) as Hl. destruct (iterate st) as [ [] st1]; [apply (IH st1 Hr)|].
  injection Hr as <-. apply Hl. reflexivity.
Qed.
End Time.
