(* ===== verification/InterpRef.v ===== *)
(** * The R3000A against which the interpreter is checked

    An instruction-set model with the two delays of the processor stated the
    way the architecture states them: [r_npc] for the branch delay slot and
    [r_load] for the load delay.  Steps are partial: traps, coprocessors,
    accesses outside RAM and a taken branch in a delay slot (unpredictable on
    the hardware) are left to the interpreter's own theorems.  The refinement
    says that one turn of the loop of [src/interpreter.c] is one step. *)

From S2P Require Import Prelude Scheduler System Cpu Memory Gte Interpreter InterpSafe.

Record R3000A := mkR3000A {
  r_pc : Z; r_npc : Z; r_regs : list Z; r_load : option (Z * Z);
  r_hi : Z; r_lo : Z; r_mem : gmap Z Z
}.

(** What an instruction does, before delays: a register write, a delayed load,
    a jump with the register that takes the return address, HI and LO, a
    store. *)
Inductive effect :=
| EWrite (rd v : Z)
| ELoad (rt v : Z)
| EJump (taken : bool) (target rd v : Z)
| EHiLo (h l : Z)
| EStore (m : gmap Z Z).

Definition fits32 (x : Z) : bool := (- 2147483648 <=? x) && (x <? 2147483648).

Section Effects.
(** The state an instruction sees; [next] is the address after its own. *)
Variables (rgs : list Z) (load : option (Z * Z)) (vhi vlo next : Z) (mem : gmap Z Z).

Definition sum_or_trap (rd x : Z) : option effect := if fits32 x then Some (EWrite rd (u32 x)) else None.

Definition special_effect (o : Z) : option effect :=
  let rs := aget rgs (RS o) in
  let rt := aget rgs (RT o) in
  let rd := RD o in
  let w v := Some (EWrite rd v) in
  let product p := Some (EHiLo (u32 (Z.shiftr p 32)) (u32 p)) in
  match FUNCT o with
  | 0x00 => w (u32 (Z.shiftl rt (SHAMT o)))
  | 0x02 => w (Z.shiftr rt (SHAMT o))
  | 0x03 => w (u32 (Z.shiftr (s32 rt) (SHAMT o)))
  | 0x04 => w (u32 (Z.shiftl rt (Z.land rs 31)))
  | 0x06 => w (Z.shiftr rt (Z.land rs 31))
  | 0x07 => w (u32 (Z.shiftr (s32 rt) (Z.land rs 31)))
  | 0x08 => Some (EJump true rs 0 0)
  | 0x09 => Some (EJump true rs rd (u32 (next + 4)))
  | 0x10 => w vhi
  | 0x11 => Some (EHiLo rs vlo)
  | 0x12 => w vlo
  | 0x13 => Some (EHiLo vhi rs)
  | 0x18 => product (s32 rs * s32 rt)
  | 0x19 => product (rs * rt)
  | 0x1A => Some (EHiLo (snd (Helper_DIV rs rt)) (fst (Helper_DIV rs rt)))
  | 0x1B => Some (EHiLo (snd (Helper_DIVU rs rt)) (fst (Helper_DIVU rs rt)))
  | 0x20 => sum_or_trap rd (s32 rs + s32 rt)
  | 0x21 => w (u32 (rs + rt))
  | 0x22 => sum_or_trap rd (s32 rs - s32 rt)
  | 0x23 => w (u32 (rs - rt))
  | 0x24 => w (Z.land rs rt)
  | 0x25 => w (Z.lor rs rt)
  | 0x26 => w (Z.lxor rs rt)
  | 0x27 => w (not32 (Z.lor rs rt))
  | 0x2A => w (b2z (s32 rs <? s32 rt))
  | 0x2B => w (b2z (rs <? rt))
  | _ => None
  end.

Definition branch (taken : bool) (o rd : Z) : option effect :=
  Some (EJump taken (u32 (next + IMM_SE o * 4)) rd (u32 (next + 4))).

Definition regimm_effect (o : Z) : option effect :=
  let rs := s32 (aget rgs (RS o)) in
  let taken := if tst (RT o) 1 then 0 <=? rs else rs <? 0 in
  branch taken o (if (RT o =? 0x10) || (RT o =? 0x11) then 31 else 0).

Definition memory_effect (o : Z) : option effect :=
  let rt := aget rgs (RT o) in
  let a := u32 (aget rgs (RS o) + IMM_SE o) in
  let p := translate_addr a in
  let word := rd32 mem (translate_addr (align4 a)) in
  let base := match load with Some (d, v) => if d =? RT o then v else rt | None => rt end in
  let ram (mask : Z) (e : effect) := if negb (tst a mask) && in_ram p then Some e else None in
  let part (e : effect) := if in_ram (translate_addr (align4 a)) then Some e else None in
  let put_word w := EStore (wr32 mem (translate_addr (align4 a)) w) in
  match OP o with
  | 0x20 => ram 0 (ELoad (RT o) (u32 (s8 (rd8 mem p))))
  | 0x21 => ram 1 (ELoad (RT o) (u32 (s16 (rd16 mem p))))
  | 0x22 => part (ELoad (RT o) (lwl_merge a word base))
  | 0x23 => ram 3 (ELoad (RT o) (rd32 mem p))
  | 0x24 => ram 0 (ELoad (RT o) (rd8 mem p))
  | 0x25 => ram 1 (ELoad (RT o) (rd16 mem p))
  | 0x26 => part (ELoad (RT o) (lwr_merge a word base))
  | 0x28 => ram 0 (EStore (wr8 mem p (u8 rt)))
  | 0x29 => ram 1 (EStore (wr16 mem p (u16 rt)))
  | 0x2A => part (put_word (swl_merge a word rt))
  | 0x2B => ram 3 (EStore (wr32 mem p rt))
  | 0x2E => part (put_word (swr_merge a word rt))
  | _ => None
  end.

Definition instruction_effect (o : Z) : option effect :=
  let rs := aget rgs (RS o) in
  let rt := aget rgs (RT o) in
  let w v := Some (EWrite (RT o) v) in
  let target := Z.lor (Z.land next 0xF0000000) (Z.shiftl (TARGET o) 2) in
  match OP o with
  | 0x00 => special_effect o
  | 0x01 => regimm_effect o
  | 0x02 => Some (EJump true target 0 0)
  | 0x03 => Some (EJump true target 31 (u32 (next + 4)))
  | 0x04 => branch (rs =? rt) o 0
  | 0x05 => branch (negb (rs =? rt)) o 0
  | 0x06 => branch (s32 rs <=? 0) o 0
  | 0x07 => branch (0 <? s32 rs) o 0
  | 0x08 => sum_or_trap (RT o) (s32 rs + IMM_SE o)
  | 0x09 => w (u32 (rs + IMM_SE o))
  | 0x0A => w (b2z (s32 rs <? IMM_SE o))
  | 0x0B => w (b2z (rs <? u32 (IMM_SE o)))
  | 0x0C => w (Z.land rs (IMM o))
  | 0x0D => w (Z.lor rs (IMM o))
  | 0x0E => w (Z.lxor rs (IMM o))
  | 0x0F => w (Z.shiftl (IMM o) 16)
  | 0x10 | 0x11 | 0x12 | 0x13 => None
  | _ => memory_effect o
  end.
End Effects.

(** ** One step *)

Definition put (i v : Z) (l : list Z) : list Z := if i =? 0 then l else aset l i v.

(** The pending load reaches its register, unless the instruction is a load of
    the same register; the instruction's own result comes after it. *)
Definition registers_after (e : effect) (load : option (Z * Z)) (l : list Z) : list Z :=
  let settled :=
    match load, e with
    | Some (d, v), ELoad rt _ => if rt =? d then l else aset l d v
    | Some (d, v), _ => aset l d v
    | None, _ => l
    end in
  match e with
  | EWrite rd v => put rd v settled
  | EJump _ _ rd v => put rd v settled
  | _ => settled
  end.

Definition load_after (e : effect) : option (Z * Z) :=
  match e with ELoad rt v => if rt =? 0 then None else Some (rt, v) | _ => None end.

Definition r_step (r : R3000A) : option R3000A :=
  let next := u32 (r_pc r + 4) in
  if tst (r_pc r) 3 || negb (in_ram (translate_addr (r_pc r))) then None
  else
    let o := rd32 (r_mem r) (translate_addr (r_pc r)) in
    match instruction_effect (r_regs r) (r_load r) (r_hi r) (r_lo r) next (r_mem r) o with
    | None => None
    | Some e =>
      let '(taken, target) := match e with EJump b t _ _ => (b, t) | _ => (false, 0) end in
      if taken && negb (r_npc r =? next) then None
      else Some (mkR3000A (r_npc r) (if taken then target else u32 (r_npc r + 4))
        (registers_after e (r_load r) (r_regs r)) (load_after e)
        (match e with EHiLo h _ => h | _ => r_hi r end) (match e with EHiLo _ l => l | _ => r_lo r end)
        (match e with EStore m => m | _ => r_mem r end))
    end.

Fixpoint r_steps (n : nat) (r : R3000A) : option R3000A :=
  match n with O => Some r | S n => match r_step r with Some r' => r_steps n r' | None => None end end.

Lemma guarded {A} (b : bool) (e : A) x : (if b then Some e else None) = Some x -> b = true /\ x = e.
Proof. destruct b; [|discriminate]. intros E. injection E as <-. auto. Qed.

(** Splits on the field both sides dispatch on. *)
Ltac dispatch := repeat lazymatch goal with
  | |- (match ?x with _ => _ end) = Some _ -> _ =>
    lazymatch type of x with Z => destruct x | positive => destruct x end
  end; try discriminate.
Ltac effect_is := let E := fresh in intros E; apply Some_inj in E; rewrite <- E; clear E.

(** ** The abstraction *)

Section Refinement.
Context {S : Type} `{SafePlatform S}.

(** The load slot after the pipeline moved. *)
Definition slot (c : R3000CPU) : option (Z * Z) :=
  if load_commit_reg c =? 0 then None else Some (load_commit_reg c, load_commit_val c).

(** The processor the next instruction sees. *)
Definition view (st : Interp S) : R3000A :=
  let c := cpu_of st in
  mkR3000A (pc c) (if branch_state st =? 2 then branch_target st else u32 (pc c + 4))
    (regs (commit_load c)) (slot (commit_load c)) (hi c) (lo c) (psx_ram (sys_of st)).

(** States between two instructions of ordinary code. *)
Record quiet (st : Interp S) : Prop := {
  q_ok : ok st;
  q_state : branch_state st = 0 \/ branch_state st = 2;
  q_abort : block_aborted (cpu_of st) = 0;
  q_bus : tst (get_cop0 (sys_of st) PSX_COP0_SR) 0x10000 = false
}.

(** The hooks of the emulator and the one instruction whose write the
    interpreter forgets: a linking branch on a condition while a load of
    [$ra] is pending. *)
Definition hooked (st : Interp S) : bool := boot_hook st || fst (bios_hle st).
Definition link_hazard (st : Interp S) : bool :=
  let r := view st in
  let o := rd32 (r_mem r) (translate_addr (r_pc r)) in
  (OP o =? 1) && ((RT o =? 0x10) || (RT o =? 0x11)) &&
  match r_load r with Some (d, _) => d =? 31 | None => false end.

(** ** What an instruction does to the processor, RAM and the branch *)

Definition Core : Type := R3000CPU * gmap Z Z * Z * Z.
Definition core (st : Interp S) : Core := (cpu_of st, psx_ram (sys_of st), branch_state st, branch_target st).

Definition put_reg (i v : Z) (c : R3000CPU) : R3000CPU := if i =? 0 then c else c <| regs ::= fun l => aset l i v |>.

Definition enact (e : effect) (k : Core) : Core :=
  let '(c, m, bs, bt) := k in
  match e with
  | EWrite rd v => (put_reg rd v c, m, bs, bt)
  | ELoad rt v => (if rt =? 0 then c else c <| load_delay_reg := rt |> <| load_delay_val := v |>, m, bs, bt)
  | EJump taken t rd v => (put_reg rd v c, m, if taken then 1 else bs, if taken then t else bt)
  | EHiLo h l => (c <| hi := h |> <| lo := l |>, m, bs, bt)
  | EStore m => (c, m, bs, bt)
  end.

Lemma sys_on_sys f (st : Interp S) : sys_of (on_sys f st) = f (sys_of st).
Proof. apply get_upd_sys. Qed.

Lemma core_on_cpu f (st : Interp S) : core (on_cpu f st) = let '(c, m, bs, bt) := core st in (f c, m, bs, bt).
Proof. unfold core, cpu_of. unfold on_cpu. rewrite sys_on_sys. reflexivity. Qed.

Lemma core_set_reg i v (st : Interp S) : i <> 0 -> core (on_sys (set_reg i v) st) = enact (EWrite i v) (core st).
Proof.
  intros Hi. change (on_sys (set_reg i v) st) with (on_cpu (fun c => c <| regs ::= fun l => aset l i v |>) st).
  rewrite core_on_cpu. unfold enact, put_reg, core. rewrite (proj2 (Z.eqb_neq i 0) Hi). reflexivity.
Qed.

Lemma core_wr i v (st : Interp S) : core (wr i v st) = enact (EWrite i v) (core st).
Proof.
  unfold wr. destruct (Z.eqb_spec i 0) as [->|Hi]; cbn [negb]; [reflexivity | apply core_set_reg, Hi].
Qed.

Lemma core_branch_if (b : bool) o (st : Interp S) : core (branch_if b o st) =
  enact (EJump b (u32 (pc (cpu_of st) + IMM_SE o * 4)) 0 0) (core st).
Proof. destruct b; reflexivity. Qed.

Definition acts (r : bool * Interp S) (st : Interp S) (e : effect) : Prop := fst r = true /\ core (snd r) = enact e (core st).

Lemma acts_wr i v st : acts (next (wr i v st)) st (EWrite i v).
Proof. split; [reflexivity | apply core_wr]. Qed.
Lemma acts_hilo f h l st : f (cpu_of st) = (cpu_of st) <| hi := h |> <| lo := l |> -> acts (next (on_cpu f st)) st (EHiLo h l).
Proof. intros E. split; [reflexivity|]. cbn [snd next]. rewrite core_on_cpu. unfold core, enact. rewrite E. reflexivity. Qed.
Lemma acts_jump t st : acts (next (do_branch t st)) st (EJump true t 0 0).
Proof. split; reflexivity. Qed.
Lemma acts_link t i v st : acts (next (wr i v (do_branch t st))) st (EJump true t i v).
Proof. split; [reflexivity|]. cbn [snd next]. rewrite core_wr. reflexivity. Qed.
Lemma acts_branch b o st v : acts (next (branch_if b o st)) st (EJump b (u32 (pc (cpu_of st) + IMM_SE o * 4)) 0 v).
Proof. split; [reflexivity|]. cbn [snd next]. rewrite core_branch_if. reflexivity. Qed.
Lemma acts_branch_link b o st v :
  acts (next (on_sys (set_reg 31 v) (branch_if b o st))) st (EJump b (u32 (pc (cpu_of st) + IMM_SE o * 4)) 31 v).
Proof. split; [reflexivity|]. cbn [snd next]. rewrite core_set_reg, core_branch_if by lia. reflexivity. Qed.

Lemma acts_trap f rd x (st : Interp S) :
  f (sys_of st) = (if negb (rd =? 0) then set_reg rd (u32 x) (sys_of st) else sys_of st) ->
  acts (next (on_sys f st)) st (EWrite rd (u32 x)).
Proof.
  intros E. split; [reflexivity|]. cbn [snd next]. rewrite <- core_wr. unfold core, cpu_of. rewrite sys_on_sys, E.
  unfold wr. destruct (negb (rd =? 0)); [rewrite sys_on_sys|]; reflexivity.
Qed.

Lemma fits32_s32 x : fits32 x = negb (negb ((-2147483648 <=? x) && (x <? 2147483648))).
Proof. rewrite negb_involutive. reflexivity. Qed.

Lemma acts_ADD a b rd p st e : is_u32 a -> is_u32 b -> sum_or_trap rd (s32 a + s32 b) = Some e ->
  acts (next (on_sys (Helper_ADD a b rd p) st)) st e.
Proof.
  intros Ha Hb. unfold sum_or_trap. rewrite fits32_s32, <- add_overflow_test by assumption.
  destruct (_ && _) eqn:E; [discriminate|]. intros He. injection He as <-. apply acts_trap.
  unfold Helper_ADD. rewrite E, (proj1 (u32_add_s32 a b Ha Hb)). reflexivity.
Qed.

Lemma acts_SUB a b rd p st e : is_u32 a -> is_u32 b -> sum_or_trap rd (s32 a - s32 b) = Some e ->
  acts (next (on_sys (Helper_SUB a b rd p) st)) st e.
Proof.
  intros Ha Hb. unfold sum_or_trap. rewrite fits32_s32, <- sub_overflow_test by assumption.
  destruct (_ && _) eqn:E; [discriminate|]. intros He. injection He as <-. apply acts_trap.
  unfold Helper_SUB. rewrite E, (proj2 (u32_add_s32 a b Ha Hb)). reflexivity.
Qed.

Lemma imm_se_range o : - 32768 <= IMM_SE o < 32768.
Proof. apply s16_range. Qed.

Lemma acts_ADDI a o rt p st e : is_u32 a -> sum_or_trap rt (s32 a + IMM_SE o) = Some e ->
  acts (next (on_sys (Helper_ADDI a (u32 (IMM_SE o)) rt p) st)) st e.
Proof.
  intros Ha He. pose proof (imm_se_range o). apply acts_ADD; [exact Ha | apply u32_range|].
  rewrite s32_u32 by lia. exact He.
Qed.

Lemma special_acts o (st : Interp S) e : ok st ->
  special_effect (regs (cpu_of st)) (hi (cpu_of st)) (lo (cpu_of st)) (pc (cpu_of st)) o = Some e ->
  acts (exec_special o st) st e.
Proof.
  intros Hs. pose proof (ok_reg st (RS o) Hs) as Hrs. pose proof (ok_reg st (RT o) Hs) as Hrt.
  unfold special_effect, exec_special. change (aget (regs (cpu_of st))) with (reg st). cbv zeta.
  destruct (Helper_DIV _ _) as [q r], (Helper_DIVU _ _) as [qu ru]. cbn [fst snd].
  dispatch; first
    [ effect_is; lazymatch goal with
      | |- acts (next (wr _ _ (do_branch _ _))) _ _ => apply acts_link
      | |- acts (next (wr _ _ _)) _ _ => apply acts_wr
      | |- acts (next (do_branch _ _)) _ _ => apply acts_jump
      | |- acts (next (on_cpu _ _)) _ _ => apply acts_hilo; destruct (cpu_of st); reflexivity end
    | apply acts_ADD; assumption | apply acts_SUB; assumption ].
Qed.

Lemma regimm_acts o (st : Interp S) e : regimm_effect (regs (cpu_of st)) (pc (cpu_of st)) o = Some e -> acts (exec_regimm o st) st e.
Proof.
  unfold regimm_effect, exec_regimm, branch. change (aget (regs (cpu_of st))) with (reg st). cbv zeta.
  effect_is. destruct (RT o) as [|p|p]; [apply acts_branch| |apply acts_branch].
  repeat lazymatch goal with |- acts (match ?x with _ => _ end) _ _ => destruct x end;
    first [apply acts_branch | apply acts_branch_link].
Qed.

(** *** RAM *)

Lemma in_ram_not_sio p : in_ram p = true -> in_sio p = false.
Proof. unfold in_ram, in_sio, PSX_RAM_SIZE. lia. Qed.

Lemma ReadByte_ram a (m : S) : in_ram (translate_addr a) = true ->
  ReadByte a m = (rd8 (psx_ram (get_sys m)) (translate_addr a), m).
Proof. intros Hr. unfold ReadByte. rewrite Hr. reflexivity. Qed.
Lemma ReadHalf_ram a (m : S) : tst a 1 = false -> in_ram (translate_addr a) = true ->
  ReadHalf a m = (rd16 (psx_ram (get_sys m)) (translate_addr a), m).
Proof. intros Ha Hr. unfold ReadHalf. rewrite Ha, Hr. reflexivity. Qed.
Lemma WriteByte_ram a v (m : S) : in_ram (translate_addr a) = true -> store_isolated a m = false ->
  psx_ram (get_sys (WriteByte a v m)) = wr8 (psx_ram (get_sys m)) (translate_addr a) v /\
  cpu (get_sys (WriteByte a v m)) = cpu (get_sys m).
Proof. intros Hr Hi. unfold WriteByte. rewrite Hi, (in_ram_not_sio _ Hr), Hr, get_upd_sys. split; reflexivity. Qed.
Lemma WriteHalf_ram a v (m : S) : tst a 1 = false -> in_ram (translate_addr a) = true -> store_isolated a m = false ->
  psx_ram (get_sys (WriteHalf a v m)) = wr16 (psx_ram (get_sys m)) (translate_addr a) v /\
  cpu (get_sys (WriteHalf a v m)) = cpu (get_sys m).
Proof. intros Ha Hr Hi. unfold WriteHalf. rewrite Ha, Hi, (in_ram_not_sio _ Hr), Hr, get_upd_sys. split; reflexivity. Qed.

Lemma not_isolated a (m : S) : tst (get_cop0 (get_sys m) PSX_COP0_SR) 0x10000 = false -> store_isolated a m = false.
Proof. intros E. unfold store_isolated. rewrite E. reflexivity. Qed.

Lemma partial_load_ram a x (m : S) : in_ram (translate_addr (align4 a)) = true ->
  let w := rd32 (psx_ram (get_sys m)) (translate_addr (align4 a)) in
  Helper_LWL a x m = (lwl_merge a w x, m) /\ Helper_LWR a x m = (lwr_merge a w x, m).
Proof.
  intros Hr. unfold Helper_LWL, Helper_LWR. rewrite ReadWord_ram by (apply tst_align4 || exact Hr). split; reflexivity.
Qed.

Lemma partial_store_ram a x (m : S) : in_ram (translate_addr (align4 a)) = true -> store_isolated (align4 a) m = false ->
  let p := translate_addr (align4 a) in
  let w := rd32 (psx_ram (get_sys m)) p in
  (psx_ram (get_sys (Helper_SWL a x m)) = wr32 (psx_ram (get_sys m)) p (swl_merge a w x) /\
   cpu (get_sys (Helper_SWL a x m)) = cpu (get_sys m)) /\
  (psx_ram (get_sys (Helper_SWR a x m)) = wr32 (psx_ram (get_sys m)) p (swr_merge a w x) /\
   cpu (get_sys (Helper_SWR a x m)) = cpu (get_sys m)).
Proof.
  intros Hr Hi. unfold Helper_SWL, Helper_SWR. rewrite ReadWord_ram by (apply tst_align4 || exact Hr).
  split; apply WriteWord_ram; first [apply tst_align4 | exact Hr | exact Hi].
Qed.

Lemma acts_load f rt v (st : Interp S) :
  (forall m, psx_ram (get_sys m) = psx_ram (sys_of st) -> f m = (v, m)) -> acts (next (load rt f st)) st (ELoad rt v).
Proof.
  intros Hf. split; [reflexivity|]. cbn [snd next]. unfold load.
  destruct (Z.eqb_spec rt 0) as [->|Hne]; cbn [negb]; [reflexivity|]. rewrite Hf.
  - rewrite core_on_cpu. unfold core, enact. rewrite (proj2 (Z.eqb_neq rt 0) Hne).
    unfold cpu_of at 1. change (sys_of (?st <| mach := mach ?x |>)) with (sys_of x). unfold on_cpu. rewrite !sys_on_sys. reflexivity.
  - unfold on_cpu, on_sys. cbn. rewrite get_upd_sys. reflexivity.
Qed.

Lemma acts_store f m' (st : Interp S) :
  psx_ram (get_sys (f (mach st))) = m' /\ cpu (get_sys (f (mach st))) = cpu_of st -> acts (store f st) st (EStore m').
Proof.
  intros [Em Ec]. split; [reflexivity|]. unfold core, enact, cpu_of, sys_of. cbn. rewrite Em, Ec. reflexivity.
Qed.

Lemma acts_signed e f rt v (st : Interp S) :
  (forall m, psx_ram (get_sys m) = psx_ram (sys_of st) -> f m = (v, m)) -> acts (next (load rt (signed e f) st)) st (ELoad rt (u32 (e v))).
Proof. intros Hf. apply acts_load. intros m Hm. unfold signed. rewrite (Hf m Hm). reflexivity. Qed.

Lemma base_slot rt (st : Interp S) :
  base_val rt st = match slot (cpu_of st) with Some (d, v) => if d =? rt then v else reg st rt | None => reg st rt end.
Proof.
  unfold base_val, slot. destruct (Z.eqb_spec (load_commit_reg (cpu_of st)) 0) as [->|Hne].
  - destruct (Z.eqb_spec 0 rt) as [<-|]; reflexivity.
  - destruct (Z.eqb_spec (load_commit_reg (cpu_of st)) rt) as [<-|]; [|reflexivity].
    rewrite (proj2 (Z.eqb_neq _ 0) Hne). reflexivity.
Qed.

Lemma memory_acts o (st : Interp S) e : tst (get_cop0 (sys_of st) PSX_COP0_SR) 0x10000 = false ->
  memory_effect (regs (cpu_of st)) (slot (cpu_of st)) (psx_ram (sys_of st)) o = Some e ->
  acts (exec_memory o st) st e.
Proof.
  intros Hbus. pose proof (fun a => not_isolated a (mach st) Hbus) as Hi.
  unfold memory_effect, exec_memory. change (aget (regs (cpu_of st))) with (reg st). rewrite base_slot.
  change (u32 (reg st (RS o) + IMM_SE o)) with (effective o st). cbv zeta.
  set (a := effective o st). set (base := match slot (cpu_of st) with Some (d, v) => if d =? RT o then v else reg st (RT o) | None => reg st (RT o) end).
  clearbody base.
  dispatch; intros Hg; apply guarded in Hg as [Hg ->]; try (apply andb_prop in Hg as [Ha Hr]; apply negb_true_iff in Ha; rewrite ?Ha);
    lazymatch goal with
    | |- acts (next (load _ (signed _ (ReadByte _)) _)) _ _ => apply acts_signed; intros m Hm; rewrite <- Hm; apply ReadByte_ram, Hr
    | |- acts (next (load _ (signed _ (ReadHalf _)) _)) _ _ => apply acts_signed; intros m Hm; rewrite <- Hm; apply ReadHalf_ram; assumption
    | |- acts (next (load _ (ReadByte _) _)) _ _ => apply acts_load; intros m Hm; rewrite <- Hm; apply ReadByte_ram, Hr
    | |- acts (next (load _ (ReadHalf _) _)) _ _ => apply acts_load; intros m Hm; rewrite <- Hm; apply ReadHalf_ram; assumption
    | |- acts (next (load _ (ReadWord _) _)) _ _ => apply acts_load; intros m Hm; rewrite <- Hm; apply ReadWord_ram; assumption
    | |- acts (next (load _ (Helper_LWL _ _) _)) _ _ => apply acts_load; intros m Hm; rewrite <- Hm; exact (proj1 (partial_load_ram a base m Hg))
    | |- acts (next (load _ (Helper_LWR _ _) _)) _ _ => apply acts_load; intros m Hm; rewrite <- Hm; exact (proj2 (partial_load_ram a base m Hg))
    | |- acts (store (WriteByte _ _) _) _ _ => apply acts_store; exact (WriteByte_ram a _ (mach st) Hr (Hi a))
    | |- acts (store (WriteHalf _ _) _) _ _ => apply acts_store; exact (WriteHalf_ram a _ (mach st) Ha Hr (Hi a))
    | |- acts (store (WriteWord _ _) _) _ _ => apply acts_store; exact (WriteWord_ram a _ (mach st) Ha Hr (Hi a))
    | |- acts (store (Helper_SWL _ _) _) _ _ => apply acts_store; exact (proj1 (partial_store_ram a _ (mach st) Hg (Hi _)))
    | |- acts (store (Helper_SWR _ _) _) _ _ => apply acts_store; exact (proj2 (partial_store_ram a _ (mach st) Hg (Hi _)))
    end.
Qed.

Lemma exec_acts o (st : Interp S) e : ok st -> tst (get_cop0 (sys_of st) PSX_COP0_SR) 0x10000 = false ->
  instruction_effect (regs (cpu_of st)) (slot (cpu_of st)) (hi (cpu_of st)) (lo (cpu_of st)) (pc (cpu_of st))
    (psx_ram (sys_of st)) o = Some e ->
  acts (exec o st) st e.
Proof.
  intros Hs Hbus. pose proof (ok_reg st (RS o) Hs) as Hrs.
  unfold instruction_effect, exec. change (aget (regs (cpu_of st))) with (reg st). cbv zeta.
  dispatch; lazymatch goal with
    | |- memory_effect _ _ _ _ = _ -> _ => apply memory_acts, Hbus
    | |- special_effect _ _ _ _ _ = _ -> _ => apply special_acts, Hs
    | |- regimm_effect _ _ _ = _ -> _ => apply regimm_acts
    | |- sum_or_trap _ _ = _ -> _ => apply acts_ADDI, Hrs
    | |- _ => unfold branch; effect_is
    end;
    lazymatch goal with
    | |- acts (next (on_sys _ (do_branch _ _))) _ _ => exact (acts_link _ 31 _ st)
    | |- acts (next (do_branch _ _)) _ _ => apply acts_jump
    | |- acts (next (branch_if _ _ _)) _ _ => apply acts_branch
    | |- acts (next (wr _ _ _)) _ _ => apply acts_wr
    end.
Qed.
End Refinement.

(** ** Which register an instruction writes *)

Definition written (e : effect) : Z := match e with EWrite rd _ => rd | EJump _ _ rd _ => rd | _ => 0 end.
Definition is_load_effect (e : effect) : bool := match e with ELoad _ _ => true | _ => false end.
Definition conditional_link (o : Z) : bool := (OP o =? 1) && ((RT o =? 0x10) || (RT o =? 0x11)).

(** [instruction_writes_gpr] and [instruction_is_load] say what the effect
    does, but for the conditional links. *)
Lemma writes_spec rgs l h w next m o e d : d <> 0 ->
  instruction_effect rgs l h w next m o = Some e ->
  instruction_is_load o = is_load_effect e /\
  (is_load_effect e = false -> instruction_writes_gpr o d = (written e =? d) \/ conditional_link o = true /\ written e = 31).
Proof.
  intros Hd. unfold instruction_effect, instruction_is_load, instruction_writes_gpr, conditional_link,
    special_effect, regimm_effect, memory_effect, sum_or_trap, branch.
  rewrite (proj2 (Z.eqb_neq d 0) Hd). change (Z.land o 0x3F) with (FUNCT o). rewrite (Z.eqb_sym d 31).
  assert (H0 : (0 =? d) = false) by lia.
  dispatch; repeat lazymatch goal with
    | |- (if ?b then Some _ else None) = Some _ -> _ => let Hg := fresh in intros Hg; apply guarded in Hg as [_ ->]
    end; try effect_is; cbn; rewrite ?H0; (split; [reflexivity|]); intros Hf; try discriminate; auto.
  destruct (_ || _); [right; split; reflexivity | left; rewrite H0; reflexivity].
Qed.

(** ** The pipeline on one processor *)

Lemma commit_load_fields c p q : let c' := commit_load (c <| current_pc := p |> <| pc := q |>) in
  regs c' = regs (commit_load c) /\ slot c' = slot (commit_load c) /\ hi c' = hi c /\ lo c' = lo c /\ pc c' = q /\
  load_delay_reg c' = 0 /\ block_aborted c' = block_aborted c /\ cop0 c' = cop0 c.
Proof.
  unfold commit_load, slot. destruct c; cbn.
  destruct (load_commit_reg =? 0) eqn:E1, (load_delay_reg =? 0) eqn:E2, (load_delay_reg =? load_commit_reg); cbn;
    rewrite ?E1, ?E2; cbn; rewrite ?E1, ?E2; repeat split; apply Z.eqb_eq; assumption.
Qed.

(** What the next instruction sees of a processor whose slots are [d] (to
    commit) and [n] (just loaded). *)
Lemma commit_load_regs c : proc_ok c ->
  regs (commit_load c) = match slot c with
    | Some (d, v) => if load_delay_reg c =? d then regs c else aset (regs c) d v | None => regs c end.
Proof.
  intros Hc. pose proof (po_regs c Hc) as (Hl & _ & Hz). pose proof (po_loads c Hc) as [_ Hr].
  unfold commit_load, slot. destruct c; cbn in *.
  destruct (Z.eqb_spec load_commit_reg 0) as [E|E]; cbn; [destruct (negb _); reflexivity|].
  destruct (Z.eqb_spec load_delay_reg load_commit_reg) as [E1|E1]; cbn; [destruct (negb _); reflexivity|].
  assert (Ea : aset (aset regs load_commit_reg load_commit_val) 0 0 = aset regs load_commit_reg load_commit_val).
  { apply aset_zero_same; [rewrite zlen_aset, Hl; lia | rewrite aget_aset_ne by lia; exact Hz]. }
  destruct (negb (load_delay_reg =? 0)); cbn; exact Ea.
Qed.

Lemma commit_load_slot c : slot (commit_load c) = if load_delay_reg c =? 0 then None else Some (load_delay_reg c, load_delay_val c).
Proof.
  unfold commit_load, slot. destruct c; cbn.
  destruct (load_commit_reg =? 0) eqn:E1, (load_delay_reg =? 0) eqn:E2, (load_delay_reg =? load_commit_reg); cbn;
    rewrite ?E1, ?E2; cbn; rewrite ?E1, ?E2; reflexivity.
Qed.

(** The processor after the switch and after the cancelling of a load. *)
Definition cpu_after (e : effect) (c : R3000CPU) : R3000CPU :=
  match e with
  | EWrite rd v | EJump _ _ rd v => put_reg rd v c
  | ELoad rt v => if rt =? 0 then c else c <| load_delay_reg := rt |> <| load_delay_val := v |>
  | EHiLo h l => c <| hi := h |> <| lo := l |>
  | EStore _ => c
  end.

Lemma cancel_fields o c : let c' := cancel_load o c in
  regs c' = regs c /\ hi c' = hi c /\ lo c' = lo c /\ pc c' = pc c /\ load_delay_reg c' = load_delay_reg c /\
  load_delay_val c' = load_delay_val c /\ block_aborted c' = block_aborted c /\ cop0 c' = cop0 c.
Proof. unfold cancel_load. destruct (_ && _); destruct c; repeat split. Qed.

Lemma cancel_slot o c : slot (cancel_load o c) = match slot c with
  | Some (d, v) => if negb (instruction_is_load o) && instruction_writes_gpr o d then None else Some (d, v) | None => None end.
Proof.
  unfold cancel_load, slot. destruct c; cbn. destruct (Z.eqb_spec load_commit_reg 0) as [E|E]; cbn [negb andb].
  - cbn. subst. reflexivity.
  - destruct (_ && _); cbn; [reflexivity|]. rewrite (proj2 (Z.eqb_neq _ 0) E). reflexivity.
Qed.

Lemma aset_aset_same (l : list Z) i v w : aset (aset l i v) i w = aset l i w.
Proof. unfold aset. apply list_insert_insert_eq. Qed.
Lemma aset_comm (l : list Z) i j v w : 0 <= i -> 0 <= j -> i <> j -> aset (aset l i v) j w = aset (aset l j w) i v.
Proof. intros Hi Hj Hij. unfold aset. apply list_insert_insert_ne. lia. Qed.

Lemma cpu_after_fields e c : let c' := cpu_after e c in
  slot c' = slot c /\
  regs c' = match e with EWrite rd v | EJump _ _ rd v => put rd v (regs c) | _ => regs c end /\
  load_delay_reg c' = match e with ELoad rt _ => if rt =? 0 then load_delay_reg c else rt | _ => load_delay_reg c end /\
  load_delay_val c' = match e with ELoad rt v => if rt =? 0 then load_delay_val c else v | _ => load_delay_val c end /\
  hi c' = match e with EHiLo h _ => h | _ => hi c end /\ lo c' = match e with EHiLo _ l => l | _ => lo c end /\
  pc c' = pc c /\ block_aborted c' = block_aborted c /\ cop0 c' = cop0 c.
Proof. destruct e; unfold cpu_after, put_reg, put; cbv zeta; try destruct (_ =? 0); repeat split. Qed.

(** The registers the instruction after [o] sees, from those [o] saw: the
    architecture's rule. *)
Lemma pipeline_registers o e c rgs l h w next m : proc_ok (cancel_load o (cpu_after e c)) -> load_delay_reg c = 0 ->
  0 <= written e < 32 -> 0 <= load_commit_reg c < 32 ->
  instruction_effect rgs l h w next m o = Some e ->
  (conditional_link o = true -> forall v, slot c <> Some (31, v)) ->
  regs (commit_load (cancel_load o (cpu_after e c))) = registers_after e (slot c) (regs c) /\
  slot (commit_load (cancel_load o (cpu_after e c))) = load_after e.
Proof.
  intros Hp Hd Hw Hcr He Hlink. rewrite commit_load_regs, commit_load_slot, cancel_slot by exact Hp.
  destruct (cancel_fields o (cpu_after e c)) as (-> & _ & _ & _ & -> & -> & _).
  destruct (cpu_after_fields e c) as (-> & -> & -> & -> & _). rewrite Hd. split.
  - destruct (slot c) as [ [d v] |] eqn:Es; [|destruct e; reflexivity].
    assert (Hd0 : d <> 0 /\ 0 <= d < 32).
    { unfold slot in Es. destruct (Z.eqb_spec (load_commit_reg c) 0); [discriminate|]. injection Es as <- <-. auto. }
    destruct Hd0 as [Hd0 Hd32]. destruct (writes_spec rgs l h w next m o e d Hd0 He) as [E1 E2]. rewrite E1.
    assert (E0 : (0 =? d) = false) by lia.
    assert (E3 : is_load_effect e = false -> instruction_writes_gpr o d = (written e =? d)).
    { intros Hf. destruct (E2 Hf) as [E|[Ec Ew] ]; [exact E|]. rewrite Ew. destruct (Z.eqb_spec 31 d) as [<-|Hne].
      - exfalso. apply (Hlink Ec v). reflexivity.
      - destruct (instruction_writes_gpr o d) eqn:Ewr; [|reflexivity]. exfalso.
        revert Ewr Ec. unfold instruction_writes_gpr, conditional_link. rewrite (proj2 (Z.eqb_neq d 0) Hd0).
        destruct (Z.eqb_spec (OP o) 1) as [->|]; [|discriminate]. cbn. discriminate. }
    assert (Hput : forall i x, written e = i -> is_load_effect e = false ->
      (if negb false && instruction_writes_gpr o d then put i x (regs c) else aset (put i x (regs c)) d v) = put i x (aset (regs c) d v)).
    { intros i x Ew Hf. rewrite (E3 Hf), Ew. cbn [negb andb]. unfold put. subst i.
      destruct (Z.eqb_spec (written e) d) as [Ed|Hne].
      - rewrite Ed, (proj2 (Z.eqb_neq d 0) Hd0), aset_aset_same. reflexivity.
      - destruct (Z.eqb_spec (written e) 0); [reflexivity|]. apply aset_comm; lia. }
    destruct e as [rd x|rt x|b t rd x|hh ll|m']; cbn [registers_after is_load_effect negb andb written] in *.
    + specialize (Hput rd x eq_refl eq_refl). cbn [negb andb] in Hput. rewrite <- Hput.
      destruct (instruction_writes_gpr o d); [|rewrite E0]; reflexivity.
    + destruct (Z.eqb_spec rt 0) as [->|Hrt]; [rewrite E0|]; reflexivity.
    + specialize (Hput rd x eq_refl eq_refl). cbn [negb andb] in Hput. rewrite <- Hput.
      destruct (instruction_writes_gpr o d); [|rewrite E0]; reflexivity.
    + rewrite (E3 eq_refl), E0. cbv iota. rewrite E0. reflexivity.
    + rewrite (E3 eq_refl), E0. cbv iota. rewrite E0. reflexivity.
  - destruct e as [rd x|rt x|b t rd x|hh ll|m']; cbn [load_after]; try reflexivity.
    destruct (Z.eqb_spec rt 0); [reflexivity|]. rewrite (proj2 (Z.eqb_neq rt 0) n). reflexivity.
Qed.

(** ** One turn of the loop is one step *)

Section Simulation.
Context {S : Type} `{SafePlatform S}.

Lemma bios_hle_declined (st : Interp S) : fst (bios_hle st) = false -> bios_hle st = (false, st).
Proof.
  unfold bios_hle, BIOS_HLE_A, BIOS_HLE_B, BIOS_HLE_C. repeat case_match; intros E; try discriminate; reflexivity.
Qed.

Lemma fetch_ram (st : Interp S) : tst (pc (cpu_of st)) 3 = false -> in_ram (translate_addr (pc (cpu_of st))) = true ->
  let '(c, m, bs, bt) := core st in
  fst (fetch st) = rd32 m (translate_addr (pc c)) /\
  core (snd (fetch st)) = (c <| current_pc := pc c |> <| pc := u32 (pc c + 4) |>, m, bs, bt).
Proof.
  intros Ha Hr. unfold core at 1. unfold fetch.
  set (st1 := on_cpu (fun c => c <| current_pc := pc c |>) st).
  assert (E : core st1 = ((cpu_of st) <| current_pc := pc (cpu_of st) |>, psx_ram (sys_of st), branch_state st, branch_target st))
    by (subst st1; rewrite core_on_cpu; reflexivity).
  clearbody st1. unfold core in E at 1. injection E as Ec Em Eb Et.
  assert (Ep : pc (cpu_of st1) = pc (cpu_of st)) by (rewrite Ec; reflexivity).
  rewrite Ep, ReadWord_ram by assumption. split; [unfold sys_of in *; cbn [fst]; rewrite Em; reflexivity|].
  cbn [snd]. rewrite core_on_cpu. unfold core, cpu_of. change (sys_of (st1 <| mach := mach st1 |>)) with (sys_of st1).
  fold (cpu_of st1). rewrite Em, Ec.
  change (branch_state (st1 <| mach := mach st1 |>)) with (branch_state st1).
  change (branch_target (st1 <| mach := mach st1 |>)) with (branch_target st1). rewrite Eb, Et. reflexivity.
Qed.

Lemma fetch_block (st : Interp S) : tst (pc (cpu_of st)) 3 = false -> in_ram (translate_addr (pc (cpu_of st))) = true ->
  psx_block_exception (sys_of (snd (fetch st))) = psx_block_exception (sys_of st).
Proof.
  intros Ha Hr. unfold fetch. set (st1 := on_cpu (fun c => c <| current_pc := pc c |>) st).
  assert (E : sys_of st1 = upd_cpu (fun c => c <| current_pc := pc c |>) (sys_of st)) by apply sys_on_sys.
  assert (Ep : pc (cpu_of st1) = pc (cpu_of st)) by (unfold cpu_of; rewrite E; reflexivity).
  rewrite Ep, ReadWord_ram by assumption. cbn [snd]. unfold on_cpu. rewrite sys_on_sys.
  change (psx_block_exception (sys_of st1) = psx_block_exception (sys_of st)). rewrite E. reflexivity.
Qed.

Lemma retire_core o (st : Interp S) : block_aborted (cpu_of st) = 0 ->
  let '(c, m, bs, bt) := core st in
  let c' := cancel_load o c in
  core (snd (retire o st)) =
    if bs =? 2 then (c' <| pc := bt |>, m, 0, bt) else if bs =? 1 then (c', m, 2, bt) else (c', m, bs, bt).
Proof.
  intros Hb. unfold core at 1. cbv zeta. unfold retire.
  assert (E : core (add_cycles (r3000a_cycle_cost o) (advance_branch (on_cpu (cancel_load o) st))) =
    let c' := cancel_load o (cpu_of st) in let m := psx_ram (sys_of st) in let bs := branch_state st in let bt := branch_target st in
    if bs =? 2 then (c' <| pc := bt |>, m, 0, bt) else if bs =? 1 then (c', m, 2, bt) else (c', m, bs, bt)).
  { assert (Ea : forall n s, core (add_cycles n s) = core s).
    { intros n s. unfold core, cpu_of, add_cycles. rewrite sys_on_sys. reflexivity. }
    rewrite Ea. set (st1 := on_cpu (cancel_load o) st).
    assert (E1 : core st1 = (cancel_load o (cpu_of st), psx_ram (sys_of st), branch_state st, branch_target st))
      by (subst st1; rewrite core_on_cpu; reflexivity).
    clearbody st1. unfold core in E1 at 1. injection E1 as Ec Em Eb Et. unfold advance_branch. rewrite <- Ec, <- Em, <- Et, <- Eb. cbv zeta.
    destruct (branch_state st1 =? 2); [|destruct (branch_state st1 =? 1); reflexivity].
    unfold core, cpu_of. change (sys_of (?x <| branch_state := 0 |>)) with (sys_of x). rewrite sys_on_sys. reflexivity. }
  set (st2 := add_cycles _ _) in *. clearbody st2. cbv zeta in E. rewrite <- E.
  assert (Hb2 : block_aborted (cpu_of st2) = 0).
  { destruct (cancel_fields o (cpu_of st)) as (_ & _ & _ & _ & _ & _ & Ec & _). rewrite Hb in Ec.
    unfold core in E at 1. repeat case_match; injection E as Ex _ _ _; rewrite Ex; exact Ec. }
  rewrite Hb2. cbn [Z.eqb negb]. destruct (_ && _); reflexivity.
Qed.

Lemma written_range rgs l h w next m o e : instruction_effect rgs l h w next m o = Some e -> 0 <= written e < 32.
Proof.
  pose proof (RT_range o). pose proof (RD_range o).
  unfold instruction_effect, special_effect, regimm_effect, memory_effect, sum_or_trap, branch.
  dispatch; repeat lazymatch goal with
    | |- (if ?b then Some _ else None) = Some _ -> _ => let Hg := fresh in intros Hg; apply guarded in Hg as [_ ->]
    end; try effect_is; cbn; try lia. destruct (_ || _); lia.
Qed.

Lemma commit_load_pc c q : regs (commit_load (c <| pc := q |>)) = regs (commit_load c) /\
  slot (commit_load (c <| pc := q |>)) = slot (commit_load c).
Proof.
  unfold commit_load, slot. destruct c; cbn.
  destruct (load_commit_reg =? 0) eqn:E1, (load_delay_reg =? 0) eqn:E2, (load_delay_reg =? load_commit_reg); cbn;
    rewrite ?E1, ?E2; cbn; rewrite ?E1, ?E2; split; reflexivity.
Qed.

(** The abstraction of a state given by its core. *)
Lemma view_of_core (st : Interp S) c m bs bt : core st = (c, m, bs, bt) -> ok st -> bs = 0 \/ bs = 2 ->
  block_aborted c = 0 -> tst (aget (cop0 c) PSX_COP0_SR) 0x10000 = false ->
  quiet st /\ view st = mkR3000A (pc c) (if bs =? 2 then bt else u32 (pc c + 4)) (regs (commit_load c)) (slot (commit_load c))
                         (hi c) (lo c) m.
Proof.
  intros E Hok Hbs Hab Hbus. unfold core in E. injection E as <- <- <- <-. split; [constructor; assumption | reflexivity].
Qed.

(** The core after one turn: instruction [o] with effect [e] on the processor
    [cc] whose pipeline has moved. *)
Definition turned (o : Z) (e : effect) (cc : R3000CPU) (m : gmap Z Z) (bs bt : Z) : Core :=
  let c := cancel_load o (cpu_after e cc) in
  let m := match e with EStore m => m | _ => m end in
  let bs := match e with EJump true _ _ _ => 1 | _ => bs end in
  let bt := match e with EJump true t _ _ => t | _ => bt end in
  if bs =? 2 then (c <| pc := bt |>, m, 0, bt) else if bs =? 1 then (c, m, 2, bt) else (c, m, bs, bt).

(** The processor after the fetch. *)
Definition fetched (c : R3000CPU) : R3000CPU := commit_load (c <| current_pc := pc c |> <| pc := u32 (pc c + 4) |>).

(** A turn is the fetch, the move of the pipeline and the instruction. *)
Lemma turn_exec (st : Interp S) : ok st -> hooked st = false ->
  let c := cpu_of st in
  let o := rd32 (psx_ram (sys_of st)) (translate_addr (pc c)) in
  tst (pc c) 3 = false -> in_ram (translate_addr (pc c)) = true ->
  exists st3, ok st3 /\ core st3 = (fetched c, psx_ram (sys_of st), branch_state st, branch_target st) /\
    psx_block_exception (sys_of st3) = psx_block_exception (sys_of st) /\
    iterate st = let '(go, st4) := exec o st3 in if go then retire o st4 else (false, st4).
Proof.
  intros Hok Hh c o Ha Hr. apply orb_false_iff in Hh as [Hboot Hbios].
  pose proof (fetch_ram st Ha Hr) as F. unfold core at 1 in F. destruct F as [Fo Fc]. pose proof (ok_fetch st Hok) as Hok2.
  exists (on_cpu commit_load (snd (fetch st))). split; [apply ok_on_cpu; [apply proc_commit_load | exact Hok2]|].
  split; [rewrite core_on_cpu, Fc; reflexivity|].
  split; [unfold on_cpu; rewrite sys_on_sys; exact (fetch_block st Ha Hr)|].
  unfold iterate. rewrite Hboot, (bios_hle_declined st Hbios). fold c. rewrite Ha.
  destruct (fetch st) as [o' st2]. cbn [fst snd] in *. change (o' = o) in Fo. rewrite Fo. reflexivity.
Qed.

Lemma turn_core (st : Interp S) e : quiet st -> hooked st = false ->
  let c := cpu_of st in
  let m := psx_ram (sys_of st) in
  let o := rd32 m (translate_addr (pc c)) in
  tst (pc c) 3 = false -> in_ram (translate_addr (pc c)) = true ->
  instruction_effect (regs (commit_load c)) (slot (commit_load c)) (hi c) (lo c) (u32 (pc c + 4)) m o = Some e ->
  proc_ok (fetched c) /\ proc_ok (cancel_load o (cpu_after e (fetched c))) /\
  core (snd (iterate st)) = turned o e (fetched c) m (branch_state st) (branch_target st).
Proof.
  intros [Hok _ Hab Hbus] Hh c m o Ha Hr He.
  destruct (turn_exec st Hok Hh Ha Hr) as (st3 & Hok3 & K3 & _ & ->). fold c in K3 |- *. fold m o in K3 |- *.
  destruct (commit_load_fields c (pc c) (u32 (pc c + 4))) as (E1 & E2 & E3 & E4 & E5 & E6 & E7 & E8). fold (fetched c) in *.
  assert (K3' := K3). unfold core in K3'. injection K3' as Kc Km _ _.
  assert (B3 : tst (get_cop0 (sys_of st3) PSX_COP0_SR) 0x10000 = false)
    by (unfold get_cop0; fold (cpu_of st3); rewrite Kc, E8; exact Hbus).
  destruct (exec_acts o st3 e Hok3 B3) as [G K4]; [rewrite Kc, Km, E1, E2, E3, E4, E5; exact He|].
  pose proof (ok_exec o st3 Hok3) as Hok4. destruct (exec o st3) as [go st4]. cbn [fst snd] in G, K4, Hok4. subst go.
  rewrite K3 in K4. unfold enact in K4.
  assert (K4' : core st4 = (cpu_after e (fetched c), match e with EStore m => m | _ => m end,
     match e with EJump true _ _ _ => 1 | _ => branch_state st end, match e with EJump true t _ _ => t | _ => branch_target st end))
    by (rewrite K4; destruct e as [| |[] ? ? ?| |]; reflexivity).
  assert (Kc4 : cpu_of st4 = cpu_after e (fetched c)) by (unfold core in K4'; injection K4'; auto).
  split; [rewrite <- Kc; apply (so_proc _ (ok_sys st3 Hok3))|].
  split; [apply proc_cancel_load; rewrite <- Kc4; apply (so_proc _ (ok_sys st4 Hok4))|].
  pose proof (retire_core o st4) as R. rewrite K4' in R. apply R. rewrite Kc4.
  destruct (cpu_after_fields e (fetched c)) as (_ & _ & _ & _ & _ & _ & _ & -> & _). rewrite E7. exact Hab.
Qed.

(** Reading the architectural state off the core of a turn. *)
Lemma view_turned (st : Interp S) o e c m bs bt :
  core st = turned o e (fetched c) m bs bt -> ok st -> bs = 0 \/ bs = 2 -> block_aborted c = 0 ->
  tst (aget (cop0 c) PSX_COP0_SR) 0x10000 = false ->
  let npc := if bs =? 2 then bt else u32 (pc c + 4) in
  let c' := cancel_load o (cpu_after e (fetched c)) in
  match e with EJump true _ _ _ => npc = u32 (pc c + 4) | _ => True end ->
  quiet st /\ view st = mkR3000A npc (match e with EJump true t _ _ => t | _ => u32 (npc + 4) end)
    (regs (commit_load c')) (slot (commit_load c'))
    (match e with EHiLo h _ => h | _ => hi c end) (match e with EHiLo _ l => l | _ => lo c end)
    (match e with EStore m => m | _ => m end).
Proof.
  intros E Hok Hbs Hab Hbus npc c' Hj.
  destruct (commit_load_fields c (pc c) (u32 (pc c + 4))) as (_ & _ & E3 & E4 & E5 & _ & E7 & E8). fold (fetched c) in *.
  destruct (cpu_after_fields e (fetched c)) as (_ & _ & _ & _ & A1 & A2 & A3 & A4 & A5).
  destruct (cancel_fields o (cpu_after e (fetched c))) as (_ & D1 & D2 & D3 & _ & _ & D4 & D5). fold c' in D1, D2, D3, D4, D5.
  rewrite A1, E3 in D1. rewrite A2, E4 in D2. rewrite A3, E5 in D3. rewrite A4, E7, Hab in D4. rewrite A5, E8 in D5.
  rewrite <- D5 in Hbus. unfold turned in E. fold c' in E. rewrite <- D1, <- D2. clearbody c'. clear A1 A2 A3 A4 A5 E3 E4 E5 E7 E8 D1 D2 D5.
  assert (Hplain : forall bs' bt', core st = (c', match e with EStore m => m | _ => m end, bs', bt') -> bs' = 0 \/ bs' = 2 ->
    quiet st /\ view st = mkR3000A (u32 (pc c + 4)) (if bs' =? 2 then bt' else u32 (u32 (pc c + 4) + 4))
      (regs (commit_load c')) (slot (commit_load c')) (hi c') (lo c') (match e with EStore m => m | _ => m end)).
  { intros bs' bt' R Hs. destruct (view_of_core st _ _ _ _ R Hok Hs D4 Hbus) as [HQ ->]. rewrite D3. split; [exact HQ | reflexivity]. }
  assert (Hslot : bs = 2 -> core st = (c' <| pc := bt |>, match e with EStore m => m | _ => m end, 0, bt) ->
    quiet st /\ view st = mkR3000A npc (u32 (npc + 4))
      (regs (commit_load c')) (slot (commit_load c')) (hi c') (lo c') (match e with EStore m => m | _ => m end)).
  { intros E2 R. destruct (view_of_core st _ _ _ _ R Hok (or_introl eq_refl) D4 Hbus) as [HQ ->]. split; [exact HQ|].
    destruct (commit_load_pc c' bt) as [-> ->]. subst npc. rewrite E2. reflexivity. }
  destruct Hbs as [-> | ->], e as [| |[] ? ? ?| |]; cbn [Z.eqb Pos.eqb] in *; try (apply (Hslot eq_refl E));
    try (rewrite Hj); first [exact (Hplain 0 bt E (or_introl eq_refl)) | exact (Hplain 2 _ E (or_intror eq_refl))].
Qed.

Lemma turn_refines (st : Interp S) (r' : R3000A) :
  quiet st -> hooked st = false -> link_hazard st = false -> r_step (view st) = Some r' ->
  quiet (snd (iterate st)) /\ view (snd (iterate st)) = r'.
Proof.
  intros Hq Hh Hl Hstep. unfold r_step in Hstep. destruct (_ || _) eqn:Eg; [discriminate|].
  apply orb_false_iff in Eg as [Ha Hr]. apply negb_false_iff in Hr.
  destruct (instruction_effect _ _ _ _ _ _ _) as [e|] eqn:He; [|discriminate].
  destruct (turn_core st e Hq Hh Ha Hr He) as (P3 & P5 & R).
  set (o := rd32 (psx_ram (sys_of st)) (translate_addr (pc (cpu_of st)))) in *.
  change (rd32 (r_mem (view st)) (translate_addr (r_pc (view st)))) with o in *.
  destruct (commit_load_fields (cpu_of st) (pc (cpu_of st)) (u32 (pc (cpu_of st) + 4))) as (E1 & E2 & _ & _ & _ & E6 & _ & _).
  fold (fetched (cpu_of st)) in E1, E2, E6.
  destruct (pipeline_registers o e _ _ _ _ _ _ _ P5 E6 (written_range _ _ _ _ _ _ _ _ He) (proj2 (po_loads _ P3)) He) as [Q1 Q2].
  { intros Ecl v Ev. rewrite E2 in Ev. unfold link_hazard in Hl. cbv zeta in Hl. fold o in Hl.
    change (rd32 (r_mem (view st)) (translate_addr (r_pc (view st)))) with o in Hl.
    change (r_load (view st)) with (slot (commit_load (cpu_of st))) in Hl.
    unfold conditional_link in Ecl. rewrite Ecl, Ev in Hl. discriminate. }
  rewrite E1, E2 in Q1.
  destruct (view_turned _ _ _ _ _ _ _ R (ok_iterate st (q_ok st Hq)) (q_state st Hq) (q_abort st Hq) (q_bus st Hq)) as [HQ ->].
  - destruct e as [| |[] ? ? ?| |]; try exact I. cbn [andb] in Hstep. destruct (negb _) eqn:En; [discriminate|].
    apply negb_false_iff, Z.eqb_eq in En. exact En.
  - split; [exact HQ|]. rewrite Q1, Q2. destruct e as [| |[] ? ? ?| |]; cbn [andb] in Hstep; try (injection Hstep as <-; reflexivity).
    destruct (negb _); [discriminate|]. injection Hstep as <-. reflexivity.
Qed.

(** [C2] The interpreter implements the processor.  Between two instructions
    of ordinary code (no pending exception signal, stores not isolated), as
    long as the architecture defines the next [n] steps, [n] turns of the loop
    perform them: the same program counter and delay slot, registers, pending
    load, HI, LO and RAM.  The hooks of the emulator must not fire, and one
    instruction is left out: a linking conditional branch while a load of
    [$ra] is pending ([link_lost_to_pending_load]). *)
Theorem interpreter_refines (n : nat) (st : Interp S) (r' : R3000A) :
  quiet st ->
  (forall k, (k < n)%nat -> hooked (turns k st) = false /\ link_hazard (turns k st) = false) ->
  r_steps n (view st) = Some r' ->
  quiet (turns n st) /\ view (turns n st) = r'.
Proof.
  revert st. induction n as [|n IH]; intros st Hq Hh Hr; cbn [r_steps] in Hr.
  - injection Hr as <-. split; [exact Hq | reflexivity].
  - destruct (r_step (view st)) as [r1|] eqn:E; [|discriminate].
    destruct (Hh 0%nat ltac:(lia)) as [H1 H2]. destruct (turn_refines st r1 Hq H1 H2 E) as [Hq1 Hv]. rewrite turns_S.
    apply IH; [exact Hq1 | | rewrite Hv; exact Hr]. intros k Hk. rewrite <- turns_S. apply Hh. lia.
Qed.
End Simulation.
