(* ===== verification/InterpTraps.v ===== *)
(** * Traps and hazards under the interpreter

    The exception a misaligned access takes, the way back by RFE, and the three
    places where [src/interpreter.c] leaves the processor's behaviour: traps in
    branch delay slots, the link register under a pending load, and the boot
    hook in a delay slot. *)

From S2P Require Import Prelude Scheduler System Cpu Memory Gte Interpreter InterpSafe InterpTime InterpRef.

(** ** Misaligned accesses *)

(** The exception code of a misaligned access. *)
Definition misaligned (o a : Z) : option Z :=
  match OP o with
  | 0x21 | 0x25 => if tst a 1 then Some 4 else None
  | 0x23 | 0x32 => if tst a 3 then Some 4 else None
  | 0x29 => if tst a 1 then Some 5 else None
  | 0x2B | 0x3A => if tst a 3 then Some 5 else None
  | _ => None
  end.

Lemma fetched_current c : current_pc (fetched c) = pc c.
Proof.
  unfold fetched, commit_load. destruct c; cbn.
  destruct (load_commit_reg =? 0) eqn:E1, (load_delay_reg =? 0) eqn:E2, (load_delay_reg =? load_commit_reg); cbn;
    rewrite ?E1, ?E2; reflexivity.
Qed.

Lemma fetched_fields c : regs (fetched c) = regs (commit_load c) /\ slot (fetched c) = slot (commit_load c) /\ load_delay_reg (fetched c) = 0.
Proof. destruct (commit_load_fields c (pc c) (u32 (pc c + 4))) as (E1 & E2 & _ & _ & _ & E6 & _). auto. Qed.

(** An exception that has a handler. *)
Lemma exception_fields code y : sys_ok y -> 0 < code < 32 ->
  let y' := PSX_Exception code y in
  get_cop0 y' PSX_COP0_EPC = pc (cpu y) /\
  Z.land (Z.shiftr (get_cop0 y' PSX_COP0_CAUSE) 2) 0x1F = code /\
  get_cop0 y' PSX_COP0_SR = push_mode (get_cop0 y PSX_COP0_SR) /\
  get_cop0 y' PSX_COP0_BADVADDR = get_cop0 y PSX_COP0_BADVADDR /\
  pc (cpu y') = exc_vector y /\ regs (cpu y') = regs (cpu y) /\ psx_ram y' = psx_ram y /\ cop0 (cpu y') = exc_cop0 code y.
Proof.
  intros Hy Hcode y'. pose proof (po_cop0 _ (so_proc _ Hy)) as [Hl _].
  destruct (PSX_Exception_cpu code y Hl (sys_cop0 y _ Hy)) as (Er & Em & _ & _ & Hd).
  destruct Hd as [Hcop Hpc].
  { unfold exc_deliverable. rewrite (proj2 (Z.eqb_neq code 0)) by lia. apply orb_true_r. }
  destruct (exc_cause_fields code (get_cop0 y PSX_COP0_CAUSE) (sys_cop0 y _ Hy) ltac:(lia)) as [F _].
  assert (G : forall i, 0 <= i -> get_cop0 y' i = aget (exc_cop0 code y) i)
    by (intros i Hi; unfold get_cop0; subst y'; rewrite Hcop; reflexivity).
  rewrite !G by (unfold PSX_COP0_BADVADDR, PSX_COP0_EPC, PSX_COP0_CAUSE, PSX_COP0_SR; lia).
  rewrite !exc_cop0_at by (exact Hl || (unfold PSX_COP0_BADVADDR, PSX_COP0_EPC, PSX_COP0_CAUSE, PSX_COP0_SR; lia)).
  split; [reflexivity|]. split; [exact F|]. split; [rewrite Z.eqb_refl; reflexivity|]. split; [reflexivity|].
  split; [exact Hpc|]. split; [exact Er|]. split; [exact Em | exact Hcop].
Qed.

(** The mode bits moved by RFE. *)
Definition rfe (m : Z) : Z :=
  Z.lor (Z.land m (not32 0x3F)) (Z.lor (Z.land (Z.shiftr (Z.land m 0x3F) 2) 0x0F) (Z.land (Z.land m 0x3F) 0x30)).

Ltac low_bits k := apply Z.bits_inj'; let i := fresh "i" in let Hi := fresh "Hi" in let H := fresh "H" in
  intros i Hi; destruct (Z.lt_ge_cases i k) as [H|H];
  [ assert (Hr : 0 <= i < k) by lia; clear Hi H; enum i Hr; eval_bits; reflexivity
  | let m := eval vm_compute in (2 ^ k - 1) in
    rewrite !(Z.land_spec _ m), (bits_above k m i) by lia; rewrite !andb_false_r; reflexivity ].

Lemma rfe_word m : is_u32 m ->
  Z.land (rfe m) 0xF = Z.land (Z.shiftr m 2) 0xF /\ Z.shiftr (rfe m) 6 = Z.shiftr m 6 /\ Z.land (rfe m) 1 = Z.land (Z.shiftr m 2) 1.
Proof.
  intros Hm. unfold rfe. split; [low_bits 4|]. split; [|low_bits 1].
  rewrite !Z.shiftr_lor, !Z.shiftr_land. change (Z.shiftr (not32 0x3F) 6) with (Z.ones 26). change (Z.shiftr 0x30 6) with 0.
  change (Z.shiftr 0x0F 6) with 0. rewrite !Z.land_0_r, !Z.lor_0_r, Z.land_ones by lia.
  apply Z.mod_small. rewrite Z.shiftr_div_pow2 by lia. unfold is_u32 in Hm. change (2 ^ 6) with 64. change (2 ^ 26) with 67108864. zify_div.
Qed.

Lemma push_mode_back sr : Z.land (Z.shiftr (push_mode sr) 2) 0xF = Z.land sr 0xF.
Proof. unfold push_mode. low_bits 4. Qed.
Lemma push_mode_enable sr : Z.land (Z.shiftr (push_mode sr) 2) 1 = Z.land sr 1.
Proof. unfold push_mode. low_bits 1. Qed.

Section Traps.
Context {S : Type} `{SafePlatform S}.

Lemma exec_misaligned o (st : Interp S) code : misaligned o (effective o st) = Some code ->
  exec o st = unaligned code (effective o st) st.
Proof.
  unfold misaligned, exec, exec_memory. cbv zeta. set (a := effective o st).
  repeat lazymatch goal with
    | |- (match ?x with _ => _ end) = Some _ -> _ => lazymatch type of x with Z => destruct x | positive => destruct x end
    end; try discriminate;
    (destruct (tst a _); [|discriminate]); intros E; injection E as <-; reflexivity.
Qed.

Lemma misaligned_code o a code : misaligned o a = Some code -> code = 4 \/ code = 5.
Proof. unfold misaligned. repeat case_match; intros E; try discriminate; injection E as <-; auto. Qed.

(** [C36] A misaligned load or store traps before it touches anything: the turn
    ends the chain with ExcCode 4 (loads) or 5 (stores), the address in
    BADVADDR and the address of the instruction in EPC, at the exception
    vector, with no branch pending; registers are those the instruction saw,
    RAM is unchanged, and no new load is pending. *)
Theorem unaligned_access_traps (st : Interp S) (code : Z) :
  ok st -> hooked st = false ->
  let c := cpu_of st in
  let o := rd32 (psx_ram (sys_of st)) (translate_addr (pc c)) in
  let a := u32 (aget (r_regs (view st)) (RS o) + IMM_SE o) in
  tst (pc c) 3 = false -> in_ram (translate_addr (pc c)) = true -> misaligned o a = Some code ->
  let st' := snd (iterate st) in
  fst (iterate st) = false /\
  get_cop0 (sys_of st') PSX_COP0_BADVADDR = a /\ get_cop0 (sys_of st') PSX_COP0_EPC = pc c /\
  Z.land (Z.shiftr (get_cop0 (sys_of st') PSX_COP0_CAUSE) 2) 0x1F = code /\
  pc (cpu_of st') = exc_vector (sys_of st) /\ branch_state st' = 0 /\
  regs (cpu_of st') = r_regs (view st) /\ psx_ram (sys_of st') = psx_ram (sys_of st).
Proof.
  intros Hok Hh c o a Ha Hr Hm st'.
  destruct (turn_exec st Hok Hh Ha Hr) as (st3 & Hok3 & K3 & Hblk & E). fold c o in K3, E.
  destruct (commit_load_fields c (pc c) (u32 (pc c + 4))) as (E1 & _ & _ & _ & _ & _ & _ & E8). fold (fetched c) in E1, E8.
  assert (Ecur : current_pc (fetched c) = pc c) by apply fetched_current.
  unfold core in K3. injection K3 as Kc Km _ _.
  assert (Ea : effective o st3 = a) by (unfold effective, reg, get_reg; fold (cpu_of st3); rewrite Kc, E1; reflexivity).
  rewrite <- Ea in Hm. rewrite (exec_misaligned o st3 code Hm) in E. rewrite Ea in E. cbn [unaligned leave] in E.
  subst st'. rewrite E. cbn [fst snd].
  set (st' := _ <| branch_state := 0 |>).
  set (y1 := set_pc (pc c) (set_cop0 PSX_COP0_BADVADDR a (sys_of st3))).
  assert (Es : sys_of st' = PSX_Exception code y1).
  { subst st'. change (get_sys (address_error code a (mach st3)) = PSX_Exception code y1).
    unfold address_error. rewrite get_upd_sys. fold (sys_of st3). subst y1. rewrite <- Ecur, <- Kc. reflexivity. }
  pose proof (misaligned_code o _ code Hm) as Hcode.
  assert (Hy1 : sys_ok y1) by (apply sys_set_pc; [apply ok_pc, Hok | apply sys_set_cop0; [apply u32_range | apply ok_sys, Hok3] ]).
  pose proof (po_cop0 _ (so_proc _ (ok_sys st3 Hok3))) as [Hl _].
  assert (G1 : forall i, 0 <= i -> get_cop0 y1 i = if 8 =? i then a else get_cop0 (sys_of st3) i)
    by (intros i Hi; apply (get_set_cop0 (sys_of st3) PSX_COP0_BADVADDR i a Hl); [unfold PSX_COP0_BADVADDR; lia | exact Hi]).
  destruct (exception_fields code y1 Hy1 ltac:(lia)) as (X2 & X3 & _ & X1 & X4 & X5 & X6 & _).
  unfold cpu_of at 1 2. rewrite Es. split; [reflexivity|]. split; [rewrite X1; exact (G1 8 ltac:(lia))|]. split; [exact X2|].
  split; [exact X3|]. split; [rewrite X4; unfold exc_vector; rewrite (G1 PSX_COP0_SR) by (unfold PSX_COP0_SR; lia); unfold get_cop0; fold (cpu_of st3); rewrite Kc, E8; reflexivity|].
  split; [reflexivity|]. split; [rewrite X5; change (regs (cpu_of st3) = regs (commit_load c)); rewrite Kc, E1; reflexivity | rewrite X6; exact Km].
Qed.

(** ** Overflow and the delay slot *)

(** A trapping sum out of range. *)
Definition overflows (o : Z) (rgs : list Z) : bool :=
  let rs := s32 (aget rgs (RS o)) in
  let rt := s32 (aget rgs (RT o)) in
  ((OP o =? 0) && (FUNCT o =? 0x20) && negb (fits32 (rs + rt))) ||
  ((OP o =? 0) && (FUNCT o =? 0x22) && negb (fits32 (rs - rt))) ||
  ((OP o =? 8) && negb (fits32 (rs + IMM_SE o))).

Lemma exec_overflow o (st : Interp S) : ok st -> overflows o (regs (cpu_of st)) = true ->
  exists f, exec o st = next (on_sys f st) /\ f (sys_of st) = PSX_Exception 12 (set_pc (current_pc (cpu_of st)) (sys_of st)).
Proof.
  intros Hok Ho. unfold overflows in Ho. change (aget (regs (cpu_of st))) with (reg st) in Ho.
  pose proof (ok_reg st (RS o) Hok) as Hs. pose proof (ok_reg st (RT o) Hok) as Ht. pose proof (imm_se_range o).
  rewrite !orb_true_iff, !andb_true_iff, !Z.eqb_eq, !negb_true_iff in Ho. unfold fits32 in Ho.
  destruct Ho as [ [ [ [EO EF] Eo] | [ [EO EF] Eo] ] | [EO Eo] ].
  - exists (Helper_ADD (reg st (RS o)) (reg st (RT o)) (RD o) (current_pc (cpu_of st))).
    split; [unfold exec, exec_special; rewrite EO, EF; reflexivity|].
    unfold Helper_ADD. rewrite add_overflow_test, Eo by assumption. reflexivity.
  - exists (Helper_SUB (reg st (RS o)) (reg st (RT o)) (RD o) (current_pc (cpu_of st))).
    split; [unfold exec, exec_special; rewrite EO, EF; reflexivity|].
    unfold Helper_SUB. rewrite sub_overflow_test, Eo by assumption. reflexivity.
  - exists (Helper_ADDI (reg st (RS o)) (u32 (IMM_SE o)) (RT o) (current_pc (cpu_of st))).
    split; [unfold exec; rewrite EO; reflexivity|].
    unfold Helper_ADDI. rewrite add_overflow_test, s32_u32, Eo by (assumption || lia || apply u32_range). reflexivity.
Qed.

Lemma exception_quiet code y : psx_block_exception y = false -> block_aborted (cpu (PSX_Exception code y)) = block_aborted (cpu y).
Proof.
  intros Hb. unfold PSX_Exception, signal_block_abort. cbv zeta.
  repeat case_match; try reflexivity; cbn in *; congruence.
Qed.

(** An overflow trap is lost in a delay slot.  Every overflowing ADD,
    ADDI or SUB pushes the mode stack and saves its address in EPC; outside a
    delay slot the processor continues at the exception vector, but in a delay
    slot it continues at the branch target, in kernel mode with interrupts off
    and no handler running. *)
Theorem overflow_lost_in_delay_slot (st : Interp S) :
  quiet st -> hooked st = false -> psx_block_exception (sys_of st) = false ->
  let c := cpu_of st in
  let o := rd32 (psx_ram (sys_of st)) (translate_addr (pc c)) in
  tst (pc c) 3 = false -> in_ram (translate_addr (pc c)) = true -> overflows o (r_regs (view st)) = true ->
  let st' := snd (iterate st) in
  pc (cpu_of st') = (if branch_state st =? 2 then branch_target st else exc_vector (sys_of st)) /\
  get_cop0 (sys_of st') PSX_COP0_EPC = pc c /\
  get_cop0 (sys_of st') PSX_COP0_SR = push_mode (get_cop0 (sys_of st) PSX_COP0_SR) /\ branch_state st' = 0.
Proof.
  intros [Hok Hbs Hab Hbus] Hh Hbe c o Ha Hr Ho st'.
  destruct (turn_exec st Hok Hh Ha Hr) as (st3 & Hok3 & K3 & Hblk & E). fold c o in K3, E.
  destruct (commit_load_fields c (pc c) (u32 (pc c + 4))) as (E1 & _ & _ & _ & _ & _ & E7 & E8). fold (fetched c) in *.
  unfold core in K3. injection K3 as Kc Km Kb Kt.
  change (r_regs (view st)) with (regs (commit_load c)) in Ho. rewrite <- E1, <- Kc in Ho.
  destruct (exec_overflow o st3 Hok3 Ho) as (f & Ef & Ey). rewrite Ef in E. cbn [next] in E.
  rewrite Kc, fetched_current in Ey. set (y1 := set_pc (pc c) (sys_of st3)) in *.
  set (st4 := on_sys f st3) in *. assert (Es : sys_of st4 = PSX_Exception 12 y1) by (subst st4; rewrite sys_on_sys; exact Ey).
  assert (Hb4 : block_aborted (cpu_of st4) = 0).
  { unfold cpu_of. rewrite Es, exception_quiet by (subst y1; exact (eq_trans Hblk Hbe)).
    change (block_aborted (cpu_of st3) = 0). rewrite Kc, E7. exact Hab. }
  assert (Hy1 : sys_ok y1) by (apply sys_set_pc; [apply ok_pc, Hok | apply ok_sys, Hok3]).
  destruct (exception_fields 12 y1 Hy1 ltac:(lia)) as (X1 & _ & X3 & _ & X4 & _).
  pose proof (retire_core o st4 Hb4) as R. unfold core at 1 in R. cbv zeta in R.
  change (branch_state st4) with (branch_state st3) in R. change (branch_target st4) with (branch_target st3) in R.
  destruct (cancel_fields o (cpu_of st4)) as (_ & _ & _ & D3 & _ & _ & _ & D5).
  assert (Ecop : cop0 (cpu (sys_of st3)) = cop0 c) by (fold (cpu_of st3); rewrite Kc, E8; reflexivity).
  assert (Gsr : get_cop0 y1 PSX_COP0_SR = get_cop0 (sys_of st) PSX_COP0_SR)
    by (change (get_cop0 (sys_of st3) PSX_COP0_SR = get_cop0 (sys_of st) PSX_COP0_SR); unfold get_cop0; rewrite Ecop; reflexivity).
  assert (Ev : exc_vector y1 = exc_vector (sys_of st)) by (unfold exc_vector; rewrite Gsr; reflexivity).
  assert (Hres : forall cx bx, cpu_of st' = cx -> branch_state st' = bx -> cop0 cx = cop0 (cpu_of st4) ->
    get_cop0 (sys_of st') PSX_COP0_EPC = pc c /\
    get_cop0 (sys_of st') PSX_COP0_SR = push_mode (get_cop0 (sys_of st) PSX_COP0_SR)).
  { intros cx bx Ec _ Ecx. unfold get_cop0 in *. fold (cpu_of st'). rewrite Ec, Ecx. unfold cpu_of. rewrite Es. rewrite X1, X3, Gsr. split; reflexivity. }
  subst st'. rewrite E. rewrite Kb, Kt in R. destruct Hbs as [Hbs|Hbs]; rewrite Hbs in R |- *; cbn [Z.eqb Pos.eqb] in R |- *;
    unfold core in R; injection R as Rc _ Rb _; rewrite E in Hres; destruct (Hres _ _ Rc Rb D5) as [HE HS]; rewrite Rc;
    (split; [|split; [exact HE | split; [exact HS | exact Rb] ] ]).
  - rewrite D3. unfold cpu_of. rewrite Es, X4. exact Ev.
  - reflexivity.
Qed.

(** ** The link register *)

(** A pending load overwrites the link.  On the processor the return
    address a BLTZAL or BGEZAL writes to [$ra] wins over a load of [$ra] by the
    instruction before it; [instruction_writes_gpr] does not know that the two
    branches write [$ra], so the next instruction sees the loaded word. *)
Theorem link_lost_to_pending_load (st : Interp S) (d v : Z) :
  quiet st -> hooked st = false -> link_hazard st = true -> branch_state st = 0 ->
  let c := cpu_of st in
  let m := psx_ram (sys_of st) in
  let o := rd32 m (translate_addr (pc c)) in
  tst (pc c) 3 = false -> in_ram (translate_addr (pc c)) = true -> r_load (view st) = Some (d, v) ->
  (exists r', r_step (view st) = Some r' /\ aget (r_regs r') 31 = u32 (u32 (pc c + 4) + 4)) /\
  aget (r_regs (view (snd (iterate st)))) 31 = v.
Proof.
  intros Hq Hh Hl Hbs c m o Ha Hr Hld. unfold link_hazard in Hl. cbv zeta in Hl.
  change (rd32 (r_mem (view st)) (translate_addr (r_pc (view st)))) with o in Hl. rewrite Hld in Hl.
  apply andb_prop in Hl as [Hl Hd]. apply Z.eqb_eq in Hd as ->. apply andb_prop in Hl as [Hop Hrt]. apply Z.eqb_eq in Hop.
  set (rs := s32 (aget (regs (commit_load c)) (RS o))). set (next := u32 (pc c + 4)).
  assert (He : instruction_effect (regs (commit_load c)) (slot (commit_load c)) (hi c) (lo c) next m o =
    Some (EJump (if tst (RT o) 1 then 0 <=? rs else rs <? 0) (u32 (next + IMM_SE o * 4)) 31 (u32 (next + 4))))
    by (unfold instruction_effect, regimm_effect, branch; rewrite Hop, Hrt; reflexivity).
  set (taken := if tst (RT o) 1 then _ else _) in *. clearbody taken.
  destruct (turn_core st _ Hq Hh Ha Hr He) as (P3 & P5 & R). fold c m o in R, P3, P5.
  pose proof (so_proc _ (ok_sys st (q_ok st Hq))) as Pc. fold (cpu_of st) in Pc. fold c in Pc.
  destruct (fetched_fields c) as (E1 & E2 & E6).
  destruct (po_regs _ (proc_commit_load c Pc)) as (Hlen & _).
  split.
  - eexists. split.
    + unfold r_step. change (r_pc (view st)) with (pc c). rewrite Ha, Hr. cbn [orb negb].
      change (rd32 (r_mem (view st)) (translate_addr (pc c))) with o.
      change (instruction_effect (r_regs (view st)) (r_load (view st)) (r_hi (view st)) (r_lo (view st)) (u32 (pc c + 4)) (r_mem (view st)) o)
        with (instruction_effect (regs (commit_load c)) (slot (commit_load c)) (hi c) (lo c) next m o).
      rewrite He. unfold view at 1. cbn [r_npc]. rewrite Hbs. cbn [Z.eqb]. fold c next. rewrite Z.eqb_refl.
      rewrite andb_false_r. reflexivity.
    + cbn [r_regs]. rewrite Hld. cbn [registers_after put Z.eqb]. change (r_regs (view st)) with (regs (commit_load c)).
      apply aget_aset_eq. rewrite zlen_aset. lia.
  - destruct (view_turned _ _ _ _ _ _ _ R (ok_iterate st (q_ok st Hq)) (q_state st Hq) (q_abort st Hq) (q_bus st Hq)) as [_ ->].
    { destruct taken; [|exact I]. rewrite Hbs. reflexivity. }
    cbn [r_regs]. rewrite commit_load_regs, cancel_slot by exact P5.
    destruct (cancel_fields o (cpu_after (EJump taken (u32 (next + IMM_SE o * 4)) 31 (u32 (next + 4))) (fetched c))) as (-> & _ & _ & _ & -> & _).
    destruct (cpu_after_fields (EJump taken (u32 (next + IMM_SE o * 4)) 31 (u32 (next + 4))) (fetched c)) as (-> & -> & -> & _).
    rewrite E1, E2, E6. change (slot (commit_load c)) with (r_load (view st)). rewrite Hld.
    assert (Ew : instruction_writes_gpr o 31 = false) by (unfold instruction_writes_gpr; rewrite Hop; reflexivity).
    rewrite Ew, andb_false_r. cbn [Z.eqb put]. apply aget_aset_eq. unfold put. rewrite zlen_aset. lia.
Qed.

(** ** The way back *)

Definition RFE : Z := 0x42000010.

(** RFE undoes the exception.  After any exception and the RFE of its
    handler, the interrupt enable and the mode of the interrupted code and of
    the code before it are back, the upper half of SR is untouched, and the
    interrupt line is gated by the restored enable bit. *)
Theorem exception_rfe_roundtrip (code : Z) (st : Interp S) : ok st -> 0 < code < 32 ->
  let st' := exec_cop0 RFE (on_sys (PSX_Exception code) st) in
  let sr := get_cop0 (sys_of st) PSX_COP0_SR in
  let sr' := get_cop0 (sys_of st') PSX_COP0_SR in
  Z.land sr' 0xF = Z.land sr 0xF /\ Z.shiftr sr' 6 = Z.shiftr sr 6 /\
  irq_pending_fast (cpu_of st') = Z.land (irq_pending (cpu_of st')) (Z.land sr 1).
Proof.
  intros Hok Hcode st' sr sr'.
  destruct (exception_fields code (sys_of st) (ok_sys st Hok) Hcode) as (_ & _ & X & _ & _ & _ & _ & Xc).
  pose proof (po_cop0 _ (so_proc _ (ok_sys st Hok))) as [Hl _].
  pose proof (sys_cop0 (sys_of st) PSX_COP0_SR (ok_sys st Hok)) as Hu. fold sr in Hu, X.
  pose proof (push_mode_u32 sr Hu) as Hp.
  set (st1 := on_sys (PSX_Exception code) st) in *.
  assert (E1 : sys_of st1 = PSX_Exception code (sys_of st)) by (subst st1; apply sys_on_sys).
  set (sr2 := rfe (push_mode sr)).
  assert (Es : sys_of st' = upd_cpu (fun c => c <| irq_pending_fast := Z.land (irq_pending c) (Z.land sr2 1) |>)
                              (set_cop0 PSX_COP0_SR sr2 (sys_of st1))).
  { subst st'. change (exec_cop0 RFE st1) with
      (on_cpu (fun c => c <| irq_pending_fast := Z.land (irq_pending c) (Z.land (rfe (get_cop0 (sys_of st1) PSX_COP0_SR)) 1) |>)
        (on_sys (set_cop0 PSX_COP0_SR (rfe (get_cop0 (sys_of st1) PSX_COP0_SR))) st1)).
    unfold on_cpu. rewrite !sys_on_sys, E1, X. reflexivity. }
  assert (Esr : sr' = sr2).
  { subst sr'. rewrite Es. change (get_cop0 (set_cop0 PSX_COP0_SR sr2 (sys_of st1)) PSX_COP0_SR = sr2).
    rewrite get_set_cop0; [reflexivity | | unfold PSX_COP0_SR; lia | unfold PSX_COP0_SR; lia].
    rewrite E1, Xc. unfold exc_cop0. rewrite !zlen_aset. exact Hl. }
  assert (B : Z.land sr2 0xF = Z.land sr 0xF /\ Z.shiftr sr2 6 = Z.shiftr sr 6 /\ Z.land sr2 1 = Z.land sr 1)
    by (subst sr2; destruct (rfe_word (push_mode sr) Hp) as (-> & -> & ->); auto using push_mode_back, push_mode_high, push_mode_enable).
  destruct B as (B1 & B2 & B3). rewrite Esr. split; [exact B1|]. split; [exact B2|].
  unfold cpu_of. rewrite Es. cbn. rewrite B3. reflexivity.
Qed.
End Traps.

(** ** Witnesses: programs in RAM *)

(** Words of code at [a] (little-endian, kernel segment). *)
Fixpoint program (a : Z) (ws : list Z) (m : gmap Z Z) : gmap Z Z :=
  match ws with [] => m | w :: ws => program (a + 4) ws (wr32 m a w) end.

(** A machine about to run the program at 80001000h. *)
Definition boot (ws : list Z) (f : R3000CPU -> R3000CPU) : Interp Sys :=
  mkInterp (upd_cpu (fun c => f (c <| pc := 0x80001000 |>)) (sys0 <| psx_ram := program 0x1000 ws ∅ |>)) 0 0 1.

Lemma program_ok ws : forall a m, mem_ok m -> mem_ok (program a ws m).
Proof. induction ws as [|w ws IH]; intros a m Hm; [exact Hm | apply IH, mem_ok_wr32, Hm]. Qed.

Lemma zeros_u32 : Forall is_u32 (repeat 0 32).
Proof. apply Forall_repeat, u32_0. Qed.

Lemma cpu0_ok : proc_ok (cpu0 <| pc := 0x80001000 |>).
Proof.
  constructor; try (split; apply u32_literal; reflexivity).
  - split; [reflexivity|]. split; [exact zeros_u32 | reflexivity].
  - split; [reflexivity | exact zeros_u32].
  - exact gte_reset_typed.
Qed.

Lemma boot_ok ws f : (proc_ok (cpu0 <| pc := 0x80001000 |>) -> proc_ok (f (cpu0 <| pc := 0x80001000 |>))) -> ok (boot ws f).
Proof.
  intros Hf. constructor; [|cbn; unfold is_u32; lia | cbn; lia].
  constructor; [apply Hf, cpu0_ok | | cbn; unfold is_u32; lia | cbn; unfold is_u32; lia].
  split; [apply program_ok, map_Forall_empty | split; apply map_Forall_empty].
Qed.

(** LUI t0, 8000h; LW t1, 1020h(t0); BEQ zero, zero, +3; ADDU t2, t1, zero (in
    the delay slots of both the load and the branch); a skipped word; a
    skipped word; ADDU t3, t1, t1. *)
Definition demo : Interp Sys :=
  boot [0x3C088000; 0x8D091020; 0x10000003; 0x01205021; 0; 0; 0x01295821; 0; 42] (fun c => c).

Lemma demo_quiet : quiet demo.
Proof. constructor; [apply boot_ok; auto | left | |]; reflexivity. Qed.

Lemma interpreter_refines_witness :
  r_steps 5 (view demo) = Some (view (turns 5 demo)) /\ r_pc (view (turns 5 demo)) = 0x8000101C /\
  aget (r_regs (view (turns 5 demo))) 10 = 42 /\ aget (r_regs (view (turns 5 demo))) 11 = 84.
Proof.
  assert (F : option_map (fun r => (r_pc r, aget (r_regs r) 10, aget (r_regs r) 11)) (r_steps 5 (view demo)) = Some (0x8000101C, 42, 84))
    by (vm_compute; reflexivity).
  assert (Hh : forall k, (k < 5)%nat -> hooked (turns k demo) = false /\ link_hazard (turns k demo) = false).
  { intros k Hk. do 5 (destruct k as [|k]; [vm_compute; split; reflexivity|]). lia. }
  destruct (r_steps 5 (view demo)) as [r|] eqn:E; [|discriminate F].
  destruct (interpreter_refines 5 demo r demo_quiet Hh E) as [_ ->].
  cbn [option_map] in F. injection F as F1 F2 F3. repeat split; assumption.
Defined.

(** The memories, with a device behind the bus that takes 100 cycles to read. *)
Definition wait (n : Z) (s : Sys) : Sys := s <| global_cycles ::= fun t => u64 (t + n) |>.

Definition waiting_platform : Platform Sys := {|
  get_sys := fun s => s;
  set_sys := fun x _ => x;
  ReadHardware := fun _ s => (0, wait 100 s);
  WriteHardware := fun _ _ _ s => s;
  SIO_Write := fun _ _ s => s;
  get_set_sys := fun x s => eq_refl;
  set_set_sys := fun x y s => eq_refl;
  set_get_sys := fun s => eq_refl
|}.

Definition waiting_timed : @TimedPlatform Sys waiting_platform.
Proof.
  refine (@Build_TimedPlatform Sys waiting_platform 100 ltac:(lia) _ _ _).
  - intros a s _. exists 100. split; [lia | reflexivity].
  - intros a v n s. apply forward_refl; [lia | reflexivity].
  - intros a v s. apply forward_refl; [lia | reflexivity].
Defined.

Lemma demo_ok : ok demo.
Proof. exact (q_ok demo demo_quiet). Qed.

Lemma interpreter_safe_witness :
  exists st', run_interpreter_chain 7 5 demo = Some st' /\ ok st' /\ reg st' 0 = 0 /\ global_cycles (sys_of st') = 5.
Proof.
  destruct (run_interpreter_chain 7 5 demo) as [st'|] eqn:E; [|exfalso; revert E; vm_compute; discriminate].
  destruct (interpreter_safe demo demo_ok) as [_ H]. destruct (H 7%nat 5 st' E) as [H1 H2].
  exists st'. split; [reflexivity|]. split; [exact H1|]. split; [exact H2|].
  assert (F : option_map (fun s => global_cycles (sys_of s)) (run_interpreter_chain 7 5 demo) = Some 5) by (vm_compute; reflexivity).
  rewrite E in F. injection F as F. exact F.
Defined.

(** LUI t0, 1F80h; LW t1, 1814h(t0), which waits; three NOPs.  A deadline four
    cycles away is reached within four turns, 103 cycles later. *)
Definition waiting_demo : Interp Sys := boot [0x3C081F80; 0x8D091814; 0; 0; 0] (fun c => c).

Lemma chain_terminates_witness :
  exists st', @run_interpreter_chain Sys waiting_platform 4 4 waiting_demo = Some st' /\
    global_cycles (@get_sys Sys waiting_platform (mach st')) = 103.
Proof.
  destruct (@chain_terminates Sys waiting_platform waiting_timed 4 4 waiting_demo) as [st' E];
    [split; [vm_compute; discriminate | vm_compute; reflexivity] | vm_compute; reflexivity | vm_compute; discriminate | vm_compute; reflexivity |].
  exists st'. split; [exact E|].
  assert (F : option_map (fun s => global_cycles (@get_sys Sys waiting_platform (mach s)))
    (@run_interpreter_chain Sys waiting_platform 4 4 waiting_demo) = Some 103) by (vm_compute; reflexivity).
  rewrite E in F. injection F as F. exact F.
Defined.

(** A jump at 8002FFFCh: its delay slot is a boot hook. *)
Definition hook_demo : Interp Sys :=
  mkInterp (upd_cpu (fun c => c <| pc := 0x8002FFFC |>) (sys0 <| psx_ram := program 0x2FFFC [0x08004000; 0] ∅ |>)) 0 0 0.

(** The chain returns in the delay slot, which the comment excludes. *)
Lemma chain_returns_settled_witness : exists st', run_interpreter_chain 5 5 hook_demo = Some st' /\
  branch_state st' = 2 /\ boot_hook st' = true.
Proof.
  destruct (run_interpreter_chain 5 5 hook_demo) as [st'|] eqn:E; [|exfalso; revert E; vm_compute; discriminate].
  exists st'. split; [reflexivity|].
  assert (F : option_map branch_state (run_interpreter_chain 5 5 hook_demo) = Some 2) by (vm_compute; reflexivity).
  rewrite E in F. injection F as F. split; [exact F|].
  destruct (chain_returns_settled 5 5 hook_demo st' E) as [H|H]; [congruence | exact H].
Defined.

(** LW t1, 2(zero). *)
Definition unaligned_demo : Interp Sys := boot [0x8C090002] (fun c => c).

Lemma unaligned_access_traps_witness :
  let y := sys_of (snd (iterate unaligned_demo)) in
  get_cop0 y PSX_COP0_BADVADDR = 2 /\ get_cop0 y PSX_COP0_EPC = 0x80001000 /\ pc (cpu y) = 0x80000080.
Proof.
  pose proof (unaligned_access_traps unaligned_demo 4 (boot_ok _ _ (fun H => H)) ltac:(vm_compute; reflexivity)
    ltac:(vm_compute; reflexivity) ltac:(vm_compute; reflexivity) ltac:(vm_compute; reflexivity)) as H.
  cbv zeta in H |- *. destruct H as (_ & H1 & H2 & _ & H3 & _). unfold cpu_of in H3. rewrite H1, H2, H3.
  split; [|split]; vm_compute; reflexivity.
Defined.

(** BEQ zero, zero, +4; ADD t0, t1, t1 with t1 = 7FFFFFFFh in its delay slot. *)
Definition overflow_demo : Interp Sys :=
  boot [0x10000004; 0x01294020] (fun c => c <| regs ::= fun l => aset l 9 0x7FFFFFFF |>).

Lemma overflow_demo_quiet : quiet (turns 1 overflow_demo).
Proof.
  constructor; [|right | |]; try (vm_compute; reflexivity). unfold turns. cbn [Nat.iter nat_rect].
  apply ok_iterate, boot_ok. intros H. apply proc_set_gpr; [lia | lia | apply u32_literal; reflexivity | exact H].
Qed.

Lemma overflow_lost_in_delay_slot_witness :
  let st' := snd (iterate (turns 1 overflow_demo)) in
  pc (cpu_of st') = 0x80001014 /\ get_cop0 (sys_of st') PSX_COP0_EPC = 0x80001004.
Proof.
  assert (Hs : psx_block_exception (sys_of (turns 1 overflow_demo)) = false) by (vm_compute; reflexivity).
  pose proof (overflow_lost_in_delay_slot (turns 1 overflow_demo) overflow_demo_quiet ltac:(vm_compute; reflexivity) Hs
    ltac:(vm_compute; reflexivity) ltac:(vm_compute; reflexivity) ltac:(vm_compute; reflexivity)) as H.
  cbv zeta in H |- *. destruct H as (H1 & H2 & _). rewrite H1, H2. split; vm_compute; reflexivity.
Defined.

(** LW ra, 1010h(t0); BGEZAL zero, +4. *)
Definition link_demo : Interp Sys :=
  boot [0x8D1F1010; 0x04110004; 0; 0; 0x1234] (fun c => c <| regs ::= fun l => aset l 8 0x80000000 |>).

Lemma link_demo_quiet : quiet (turns 1 link_demo).
Proof.
  constructor; [|left | |]; try (vm_compute; reflexivity). unfold turns. cbn [Nat.iter nat_rect].
  apply ok_iterate, boot_ok. intros H. apply proc_set_gpr; [lia | lia | apply u32_literal; reflexivity | exact H].
Qed.

Lemma link_lost_to_pending_load_witness :
  aget (r_regs (view (snd (iterate (turns 1 link_demo))))) 31 = 0x1234.
Proof.
  pose proof (link_lost_to_pending_load (turns 1 link_demo) 31 0x1234 link_demo_quiet ltac:(vm_compute; reflexivity)
    ltac:(vm_compute; reflexivity) ltac:(vm_compute; reflexivity) ltac:(vm_compute; reflexivity) ltac:(vm_compute; reflexivity)
    ltac:(vm_compute; reflexivity)) as H.
  destruct H as [_ H]. exact H.
Defined.

Lemma exception_rfe_roundtrip_witness :
  let st := on_sys (set_cop0 PSX_COP0_SR 0x40000405) demo in
  Z.land (get_cop0 (sys_of (exec_cop0 RFE (on_sys (PSX_Exception 8) st))) PSX_COP0_SR) 0xF = 5.
Proof.
  cbv zeta.
  assert (Hok : ok (on_sys (set_cop0 PSX_COP0_SR 0x40000405) demo))
    by (apply ok_on_sys; [apply sys_set_cop0, u32_literal; reflexivity | exact demo_ok]).
  destruct (exception_rfe_roundtrip 8 _ Hok ltac:(lia)) as [H _]. rewrite H. vm_compute. reflexivity.
Defined.
