(* ===== verification/Recompiler.v ===== *)
(** * What the recompiler knows about a block ([src/dynarec_compile.c])

    The analyses that run before a block is translated - its boundary, the
    registers it reads and writes, dead instructions, constants set just
    before it - and the shape of the super-block the compile loop builds from
    it, with its cycle count and the loops it recognises as idle.  The code is
    a function from the index of a word to the word. *)

From S2P Require Import Prelude Interpreter.

Definition SCAN_MAX_INSNS : Z := 64.
Definition MAX_CONTINUATIONS : Z := 3.
Definition MAX_SUPER_INSNS : Z := 200.

(** [if (r) m |= 1u << r;] *)
Definition reg_bit (r : Z) : Z := if r =? 0 then 0 else Z.shiftl 1 r.

Definition between (a x b : Z) : bool := (a <=? x) && (x <=? b).

(** ** Cycles of the GTE *)

Definition gte_pipeline_cycles (opcode : Z) : Z :=
  match Z.land opcode 0x3F with
  | 0x01 => 15 | 0x06 => 8 | 0x0C => 6 | 0x10 => 8 | 0x11 => 8 | 0x12 => 8 | 0x13 => 19 | 0x14 => 13
  | 0x16 => 44 | 0x1B => 17 | 0x1C => 11 | 0x1E => 14 | 0x20 => 30 | 0x28 => 5 | 0x29 => 8 | 0x2A => 17
  | 0x2D => 5 | 0x2E => 6 | 0x30 => 23 | 0x3D => 5 | 0x3E => 5 | 0x3F => 39
  | _ => 8
  end.

(** The interlock before an instruction: the cycles added, the cycles the GTE
    still needs afterwards. *)
Definition gte_stall (opcode remaining : Z) : Z * Z :=
  let wait := if 0 <? remaining then (remaining + 1, 0) else (0, remaining) in
  if OP opcode =? 0x12 then
    if tst opcode 0x02000000 then (fst wait, gte_pipeline_cycles opcode)
    else
      let rs := RS opcode in
      if (rs =? 0x00) || (rs =? 0x02) || (rs =? 0x04) || (rs =? 0x06) then wait else (0, remaining)
  else if OP opcode =? 0x32 then wait
  else (0, remaining).

(** ** Operands *)

Definition instruction_reads_gpr (opcode reg : Z) : bool :=
  let op := OP opcode in
  let func := FUNCT opcode in
  if reg =? 0 then false
  else if RS opcode =? reg then
    if op =? 0x00 then
      negb ((func =? 0x00) || (func =? 0x02) || (func =? 0x03) || (func =? 0x10) || (func =? 0x12) || (func =? 0x0C) || (func =? 0x0D))
    else negb ((op =? 0x02) || (op =? 0x03) || (op =? 0x0F))
  else if RT opcode =? reg then
    if op =? 0x00 then
      negb ((func =? 0x08) || (func =? 0x09) || (func =? 0x10) || (func =? 0x12) || (func =? 0x11) || (func =? 0x13)
            || (func =? 0x0C) || (func =? 0x0D))
    else (op =? 0x04) || (op =? 0x05) || (op =? 0x22) || (op =? 0x26) || between 0x28 op 0x2E
  else false.

(** The destination of an instruction, 0 when it has none; loads are left out
    because they write one instruction late. *)
Definition dce_dest_gpr (opcode : Z) : Z :=
  let op := OP opcode in
  let func := FUNCT opcode in
  if op =? 0x00 then
    if between 0x18 func 0x1B then 0
    else if func =? 0x08 then 0
    else if (func =? 0x11) || (func =? 0x13) then 0
    else if (func =? 0x0C) || (func =? 0x0D) then 0
    else RD opcode
  else if op =? 0x03 then 31
  else if op =? 0x01 then if (RT opcode =? 0x10) || (RT opcode =? 0x11) then 31 else 0
  else if between 0x08 op 0x0F then RT opcode
  else 0.

Definition dce_read_mask (opcode : Z) : Z :=
  let op := OP opcode in
  let func := FUNCT opcode in
  let rs := reg_bit (RS opcode) in
  let rt := reg_bit (RT opcode) in
  if op =? 0x00 then
    if func <=? 0x03 then rt
    else if (func =? 0x10) || (func =? 0x12) then 0
    else if (func =? 0x0C) || (func =? 0x0D) then 0
    else if (func =? 0x08) || (func =? 0x09) then rs
    else if (func =? 0x11) || (func =? 0x13) then rs
    else Z.lor rs rt
  else if (op =? 0x02) || (op =? 0x03) then 0
  else if op =? 0x0F then 0
  else if (op =? 0x04) || (op =? 0x05) then Z.lor rs rt
  else if between 0x06 op 0x07 then rs
  else if op =? 0x01 then rs
  else if between 0x08 op 0x0E then rs
  else if between 0x20 op 0x26 then if (op =? 0x22) || (op =? 0x26) then Z.lor rs rt else rs
  else if between 0x28 op 0x2E || (op =? 0x3A) then Z.lor rs rt
  else if (op =? 0x10) && (RS opcode =? 0x04) then rt
  else if (op =? 0x12) && negb (tst opcode 0x02000000) then
    if (RS opcode =? 0x04) || (RS opcode =? 0x06) then rt else 0
  else if (op =? 0x32) || (op =? 0x3A) then rs
  else 0.

Definition dce_is_pure (opcode : Z) : bool :=
  let op := OP opcode in
  let func := FUNCT opcode in
  if op =? 0x00 then (func <=? 0x07) || (func =? 0x10) || (func =? 0x12) || between 0x20 func 0x2B
  else between 0x08 op 0x0F.

Definition scan_write_mask (opcode : Z) : Z :=
  let op := OP opcode in
  let func := FUNCT opcode in
  let rs := RS opcode in
  if op =? 0x00 then
    if between 0x18 func 0x1B then 0
    else if func =? 0x08 then 0
    else if (func =? 0x11) || (func =? 0x13) then 0
    else if (func =? 0x0C) || (func =? 0x0D) then 0
    else reg_bit (RD opcode)
  else if op =? 0x02 then 0
  else if op =? 0x03 then Z.shiftl 1 31
  else if op =? 0x01 then if (RT opcode =? 0x10) || (RT opcode =? 0x11) then Z.shiftl 1 31 else 0
  else if between 0x04 op 0x07 then 0
  else if between 0x08 op 0x0F then reg_bit (RT opcode)
  else if between 0x20 op 0x26 then reg_bit (RT opcode)
  else if between 0x28 op 0x2E then 0
  else if op =? 0x10 then if rs =? 0x00 then reg_bit (RT opcode) else 0
  else if op =? 0x12 then
    if negb (tst opcode 0x02000000) && ((rs =? 0x00) || (rs =? 0x02)) then reg_bit (RT opcode) else 0
  else 0.

(** ** The block scan *)

(** Instructions with a delay slot, and the ones that end a block at once. *)
Definition is_jump (opcode : Z) : bool :=
  let op := OP opcode in
  (op =? 0x02) || (op =? 0x03) || ((op =? 0) && ((FUNCT opcode =? 0x08) || (FUNCT opcode =? 0x09)))
  || between 0x04 op 0x07 || (op =? 0x01).
Definition is_trap (opcode : Z) : bool := (OP opcode =? 0) && ((FUNCT opcode =? 0x0C) || (FUNCT opcode =? 0x0D)).

(** Phase 1, [n] turns from instruction [i] on. *)
Fixpoint boundary (n : nat) (i : Z) (in_ds : bool) (count : Z) (code : Z -> Z) : Z :=
  match n with
  | O => count
  | S n =>
    if in_ds then i + 1
    else if is_jump (code i) then boundary n (i + 1) true (i + 1) code
    else if is_trap (code i) then i + 1
    else boundary n (i + 1) false (i + 1) code
  end.
Definition block_boundary (max_insns : Z) (code : Z -> Z) : Z :=
  boundary (Z.to_nat (Z.min max_insns SCAN_MAX_INSNS)) 0 false 0 code.

Record BlockScanResult := mkScan {
  dce_dead_mask : Z; pinned_written_mask : Z; regs_written_mask : Z; regs_read_mask : Z; reg_write_before_read : Z;
  insn_count : Z; has_mtc0_sr : bool; has_isc_write : bool; has_cop2 : bool; first_cop2_pc : Z;
  reg_access_count : list Z; reg_first_use : list Z; reg_last_use : list Z
}.
#[export] Instance eta_Scan : Eta BlockScanResult := fun s =>
  mkScan (dce_dead_mask s) (pinned_written_mask s) (regs_written_mask s) (regs_read_mask s) (reg_write_before_read s)
    (insn_count s) (has_mtc0_sr s) (has_isc_write s) (has_cop2 s) (first_cop2_pc s)
    (reg_access_count s) (reg_first_use s) (reg_last_use s).

(** The host registers that hold $gp, $sp, $fp and $ra. *)
Definition psx_pinned_reg (r : Z) : Z :=
  if r =? 28 then 22 else if r =? 29 then 20 else if r =? 30 then 23 else if r =? 31 then 21 else 0.
Definition pinned_set : Z :=
  fold_left (fun m r => if psx_pinned_reg r =? 0 then m else Z.lor m (Z.shiftl 1 r)) (zseq 32) 0.

Definition is_mtc0_sr (opcode : Z) : bool := (OP opcode =? 0x10) && (RS opcode =? 0x04) && (RD opcode =? 12).
Definition is_rfe (opcode : Z) : bool := (OP opcode =? 0x10) && (Z.land opcode 0x3F =? 0x10) && tst opcode 0x02000000.
Definition is_cop2 (opcode : Z) : bool := (OP opcode =? 0x12) || (OP opcode =? 0x32) || (OP opcode =? 0x3A).

Definition count_access (i : Z) (s : BlockScanResult) (r : Z) : BlockScanResult :=
  s <| reg_access_count ::= fun l => if aget l r <? 255 then aset l r (aget l r + 1) else l |>
    <| reg_first_use ::= fun l => if aget l r =? 0xFF then aset l r i else l |>
    <| reg_last_use ::= fun l => aset l r i |>.

(** Phase 2, one instruction; [seen] are the registers met so far. *)
Definition scan_insn (code : Z -> Z) (st : BlockScanResult * Z) (i : Z) : BlockScanResult * Z :=
  let '(s, seen) := st in
  let wmask := scan_write_mask (code i) in
  let rmask := dce_read_mask (code i) in
  let seen := Z.lor seen rmask in
  let s := s <| regs_written_mask ::= fun m => Z.lor m wmask |> <| regs_read_mask ::= fun m => Z.lor m rmask |>
             <| reg_write_before_read ::= fun m => Z.lor m (Z.ldiff wmask seen) |>
             <| has_mtc0_sr ::= fun b => b || is_mtc0_sr (code i) || is_rfe (code i) |>
             <| has_isc_write ::= fun b => b || is_mtc0_sr (code i) |> in
  let s := if is_cop2 (code i) && negb (has_cop2 s) then s <| has_cop2 := true |> <| first_cop2_pc := i |> else s in
  let amask := Z.lor rmask wmask in
  (fold_left (count_access i) (List.filter (Z.testbit amask) (zseq 32)) s, Z.lor seen wmask).

(** Phase 3, one instruction, backwards. *)
Definition dce_insn (code : Z -> Z) (st : Z * Z) (i : Z) : Z * Z :=
  let '(dead, live) := st in
  let insn := code i in
  let dest := dce_dest_gpr insn in
  if negb (dest =? 0) && negb (Z.testbit live dest) && dce_is_pure insn then (Z.lor dead (Z.shiftl 1 i), live)
  else (dead, Z.lor (if dest =? 0 then live else Z.ldiff live (Z.shiftl 1 dest)) (dce_read_mask insn)).

Definition scan0 : BlockScanResult := mkScan 0 0 0 0 0 0 false false false 0 (repeat 0 32) (repeat 0xFF 32) (repeat 0 32).

Definition block_scan (code : Z -> Z) (max_insns : Z) : BlockScanResult :=
  let count := block_boundary max_insns code in
  let '(s, _) := fold_left (scan_insn code) (zseq (Z.to_nat count)) (scan0 <| insn_count := count |>, 0) in
  let s := s <| pinned_written_mask := Z.land (regs_written_mask s) pinned_set |> in
  s <| dce_dead_mask := fst (fold_left (dce_insn code) (rev (zseq (Z.to_nat count))) (0, 0xFFFFFFFF)) |>.

(** ** Constants set before the block

    [code] is indexed from the start of the block, so the words before it have
    negative indices; the result lists the registers seeded. *)

Definition lui_max_back (phys : Z) : Z :=
  if phys <? 0x200000 then if phys <? 8 * 4 then phys / 4 else 8
  else if (0x1FC00000 <=? phys) && (phys <? 0x1FC00000 + 0x80000) then
    if phys - 0x1FC00000 <? 8 * 4 then (phys - 0x1FC00000) / 4 else 8
  else 0.

(** The registers a word writes, as this scan sees them; [None] stops it. *)
Definition lui_scan_writes (insn : Z) : option Z :=
  let op := OP insn in
  let func := FUNCT insn in
  if between 0x01 op 0x07 then None
  else if op =? 0x00 then
    if (func =? 0x08) || (func =? 0x09) || (func =? 0x0C) || (func =? 0x0D) then None else Some (reg_bit (RD insn))
  else if between 0x08 op 0x0F then Some (reg_bit (RT insn))
  else if between 0x20 op 0x26 then Some (reg_bit (RT insn))
  else if between 0x30 op 0x32 || between 0x28 op 0x2E then Some 0
  else if between 0x10 op 0x13 then Some (if RS insn =? 0 then reg_bit (RT insn) else 0)
  else None.

Fixpoint lui_scan (n : nat) (i written : Z) (block_writes : Z) (code : Z -> Z) : list (Z * Z) :=
  match n with
  | O => []
  | S n =>
    let insn := code (- i) in
    match lui_scan_writes insn with
    | None => []
    | Some w =>
      let rt := RT insn in
      let seed := if (OP insn =? 0x0F) && negb (rt =? 0) && negb (Z.testbit written rt) && negb (Z.testbit block_writes rt)
                  then [(rt, u32 (Z.shiftl (IMM insn) 16))] else [] in
      seed ++ lui_scan n (i + 1) (Z.lor written w) block_writes code
    end
  end.

Definition scan_backwards_for_lui (psx_pc : Z) (code : Z -> Z) (scan : BlockScanResult) : list (Z * Z) :=
  lui_scan (Z.to_nat (lui_max_back (Z.land psx_pc 0x1FFFFFFF))) 1 0 (regs_written_mask scan) code.

(** ** The shape of a super-block

    The compile loop without the words it emits.  Positions count instructions
    from the start of the block.  What translation knows about constants
    enters as [fold]: the outcome of a conditional branch it can decide. *)

Record Comp := mkComp {
  cur : Z; sub_block_start : Z; continuations : Z; deferred_taken : list (Z * Z);
  block_cycle_count : Z; gte_stall_remaining : Z; in_delay_slot : bool;
  branch_type : Z; jump_to : Z; scan : BlockScanResult; erased : list Z
}.
#[export] Instance eta_Comp : Eta Comp := fun c =>
  mkComp (cur c) (sub_block_start c) (continuations c) (deferred_taken c) (block_cycle_count c) (gte_stall_remaining c)
    (in_delay_slot c) (branch_type c) (jump_to c) (scan c) (erased c).

Section Shape.
Variables (psx_pc : Z) (code : Z -> Z) (fold : Z -> option bool).

Definition code_from (i k : Z) : Z := code (i + k).
Definition pc_at (i : Z) : Z := u32 (psx_pc + 4 * i).

Definition comp_start : Comp :=
  mkComp 0 0 0 [] 0 0 false 0 0 (block_scan code SCAN_MAX_INSNS) [].

(** [scan.dce_dead_mask >> dce_idx & 1] *)
Definition is_dead (c : Comp) : bool :=
  let dce_idx := cur c - sub_block_start c in
  (dce_idx <? SCAN_MAX_INSNS) && Z.testbit (dce_dead_mask (scan c)) dce_idx.

(** [emit_instruction] gives up on SYSCALL and BREAK, which end the block;
    dead instructions are not translated. *)
Definition emit_insn (opcode : Z) (c : Comp) : option Comp :=
  if is_dead c then Some (c <| erased ::= fun l => l ++ [cur c] |>)
  else if is_trap opcode then None else Some c.

(** The cycles of one instruction. *)
Definition count_cycles (opcode : Z) (c : Comp) : Comp :=
  let '(wait, remaining) := gte_stall opcode (gte_stall_remaining c) in
  c <| block_cycle_count ::= fun n => u32 (n + wait + r3000a_cycle_cost opcode) |>
    <| gte_stall_remaining := if 0 <? remaining then remaining - 1 else remaining |>.

(** The branch and its target; a branch decided at compile time is a jump. *)
Definition take_branch (opcode : Z) (c : Comp) : Comp :=
  let op := OP opcode in
  let target :=
    if (op =? 0x02) || (op =? 0x03) then Z.lor (Z.land (u32 (pc_at (cur c) + 4)) 0xF0000000) (Z.shiftl (TARGET opcode) 2)
    else u32 (pc_at (cur c) + 4 + IMM_SE opcode * 4) in
  let '(ty, to) :=
    if (op =? 0x02) || (op =? 0x03) then (1, target)
    else if op =? 0x00 then (3, jump_to c)
    else match fold (cur c) with
         | Some taken => (1, if taken then target else u32 (pc_at (cur c) + 8))
         | None => (4, target)
         end in
  c <| branch_type := ty |> <| jump_to := to |> <| in_delay_slot := true |> <| cur ::= Z.succ |>.

Definition can_continue (c : Comp) : bool :=
  (continuations c <? MAX_CONTINUATIONS) && (4 * cur c <? MAX_SUPER_INSNS * 4) && (zlen (deferred_taken c) <? MAX_CONTINUATIONS).

(** The not-taken side goes on in the same block. *)
Definition continue_block (c : Comp) : Comp :=
  c <| deferred_taken ::= fun l => l ++ [(jump_to c, block_cycle_count c)] |>
    <| sub_block_start := cur c |> <| scan := block_scan (code_from (cur c)) SCAN_MAX_INSNS |>
    <| continuations ::= Z.succ |> <| in_delay_slot := false |> <| branch_type := 0 |>.

(** One turn; the boolean says whether the loop goes on. *)
Definition comp_step (c : Comp) : bool * Comp :=
  let opcode := code (cur c) in
  let c := count_cycles opcode c in
  if in_delay_slot c then
    match emit_insn opcode c with
    | None => (false, c)
    | Some c =>
      let c := c <| cur ::= Z.succ |> in
      if (branch_type c =? 4) && can_continue c then (true, continue_block c) else (false, c)
    end
  else if is_jump opcode then (true, take_branch opcode c)
  else
    match emit_insn opcode c with
    | None => (false, c)
    | Some c =>
      let c := c <| cur ::= Z.succ |> in
      if (256 <=? 4 * (cur c - sub_block_start c)) || (MAX_SUPER_INSNS * 4 <=? 4 * cur c) then (false, c) else (true, c)
    end.

Fixpoint comp_loop (fuel : nat) (c : Comp) : option Comp :=
  match fuel with
  | O => None
  | S fuel => let '(go, c) := comp_step c in if go then comp_loop fuel c else Some c
  end.

(** ** Idle loops *)

Definition idle_breaker (inst : Z) : bool :=
  let sop := OP inst in
  (sop =? 0x28) || (sop =? 0x29) || (sop =? 0x2A) || (sop =? 0x2B) || (sop =? 0x2E) || (sop =? 0x3A)
  || (((sop =? 0x10) || (sop =? 0x12)) && ((RS inst =? 4) || (RS inst =? 6)))
  || is_trap inst.

Definition branch_kind (c : Comp) : Z :=
  if (branch_type c =? 1) && (jump_to c =? psx_pc) then 1
  else if (branch_type c =? 4) && (jump_to c =? psx_pc) then 2 else 0.

(** 3 marks a countdown: ADDIU rx, rx, -1; BNE rx, $zero; NOP. *)
Definition is_timeout : bool :=
  let i0 := code 0 in let i1 := code 1 in
  (OP i0 =? 0x09) && (RS i0 =? RT i0) && negb (RT i0 =? 0) && (IMM_SE i0 =? -1)
  && (OP i1 =? 0x05) && (RS i1 =? RT i0) && (RT i1 =? 0) && (code 2 =? 0).

Definition is_idle (c : Comp) : Z :=
  let kind := branch_kind c in
  let idle := if existsb idle_breaker (map code (zseq (Z.to_nat (cur c)))) then 0 else kind in
  if (idle =? 2) && (cur c =? 3) && is_timeout then 3 else idle.

(** A zero-filling loop: SW $zero, 0(base); ADDIU base, base, 4; BNE; NOP. *)
Definition zfill_limit : Z :=
  let z0 := code 0 in let z1 := code 1 in let z2 := code 2 in
  let base := RS z0 in
  if (OP z0 =? 0x2B) && (RT z0 =? 0) && (IMM_SE z0 =? 0) && (OP z1 =? 0x09) && (RS z1 =? base) && (RT z1 =? base)
     && (IMM_SE z1 =? 4) && (OP z2 =? 0x05) && (code 3 =? 0)
  then if (RS z2 =? base) && negb (RT z2 =? 0) then RT z2
       else if (RT z2 =? base) && negb (RS z2 =? 0) then RS z2 else 0
  else 0.

Definition block_pattern (c : Comp) : Z :=
  if (branch_type c =? 4) && (jump_to c =? psx_pc) && (is_idle c =? 0) && (cur c =? 4) && negb (zfill_limit =? 0) then 1 else 0.

(** [hash = (hash << 5) + hash + opcodes[i]] *)
Definition code_hash_of (n : Z) : Z := fold_left (fun h i => u32 (Z.shiftl h 5 + h + code i)) (zseq (Z.to_nat n)) 0.
End Shape.

(** ** The load delay slot

    A load whose register the next instruction reads is held back: its value
    waits in [cpu.load_delay_val] until that instruction is done.  Other loads
    write at once.  The list says what is emitted: [LandLoad r] copies
    [load_delay_val] to register [r], [HoldLoad] stores the value just loaded
    in [load_delay_val], [Insn o defer lwx] is the instruction itself, its
    load left in the host register when [defer], merging with
    [load_delay_val] when [lwx].  The compile-time state is
    [pending_load_reg] and [pending_load_apply_now]. *)

Inductive delay_op := LandLoad (reg : Z) | Insn (opcode : Z) (defer lwx : bool) | HoldLoad.

Definition jit_instruction_writes_gpr (opcode reg : Z) : bool :=
  let op := OP opcode in
  let func := FUNCT opcode in
  if reg =? 0 then false
  else if op =? 0x00 then
    if between 0x18 func 0x1B then false
    else if func =? 0x08 then false
    else if (func =? 0x11) || (func =? 0x13) then false
    else if (func =? 0x0C) || (func =? 0x0D) then false
    else RD opcode =? reg
  else if between 0x08 op 0x0F then RT opcode =? reg
  else if between 0x20 op 0x26 then RT opcode =? reg
  else if op =? 0x03 then reg =? 31
  else false.

Definition is_load (opcode : Z) : bool := between 0x20 (OP opcode) 0x26.

Definition this_is_load (opcode next_instr : Z) : bool :=
  is_load opcode && negb (RT opcode =? 0)
  && (instruction_reads_gpr next_instr (RT opcode) || (is_load next_instr && (RT next_instr =? RT opcode))).

Definition lwx_pending (opcode reg : Z) : bool :=
  negb (reg =? 0) && ((OP opcode =? 0x22) || (OP opcode =? 0x26)) && (reg =? RT opcode).

Definition land (reg : Z) : list delay_op := if reg =? 0 then [] else [LandLoad reg].

Definition plain_delay (opcode next_instr : Z) (pending : Z * bool) : list delay_op * (Z * bool) :=
  let '(reg, now) := pending in
  let defer := this_is_load opcode next_instr in
  let first := if now then if defer && (RT opcode =? reg) then [] else land reg else [] in
  let reg := if now then 0 else reg in
  let insn := [Insn opcode defer (lwx_pending opcode reg)] in
  if defer then (first ++ insn ++ (if reg =? RT opcode then [] else land reg) ++ [HoldLoad], (RT opcode, false))
  else if jit_instruction_writes_gpr opcode reg then (first ++ insn, (0, false))
  else (first ++ insn, (reg, negb (reg =? 0))).

Definition branch_delay (opcode : Z) (pending : Z * bool) : list delay_op * (Z * bool) :=
  let '(reg, now) := pending in
  if now then (Insn opcode false false :: land reg, (0, false)) else ([Insn opcode false false], (reg, negb (reg =? 0))).

Definition slot_delay (opcode : Z) (pending : Z * bool) : list delay_op :=
  let '(reg, now) := pending in
  let first := if now then land reg else [] in
  let reg := if now then 0 else reg in
  first ++ [Insn opcode false (lwx_pending opcode reg)] ++ land reg.

(** A stretch of code, closed by a branch with its slot or by the end of the
    block; [after] is the word that follows. *)
Fixpoint delay_plan (ops : list Z) (after : Z) (pending : Z * bool) : list delay_op :=
  match ops with
  | [] => land (fst pending)
  | o :: ops =>
    if is_jump o then
      let '(a, pending) := branch_delay o pending in
      a ++ match ops with [] => [] | slot :: _ => slot_delay slot pending end
    else
      let '(a, pending) := plain_delay o (hd after ops) pending in
      a ++ delay_plan ops after pending
  end.
