(* ===== verification/RecompMath.v ===== *)
(** * The recompiler's analyses are right

    Dead code elimination, the register masks and the constants found before a
    block against the reference processor of [InterpRef.v]; the shape of
    super-blocks. *)

From S2P Require Import Prelude Scheduler System Cpu Memory Gte Interpreter InterpSafe InterpRef Recompiler.

(** ** Running given instructions

    [r_exec o] is a step of the reference processor whose instruction is [o]
    whatever memory holds, as for code translated beforehand. *)

Definition r_apply (e : effect) (r : R3000A) : option R3000A :=
  let next := u32 (r_pc r + 4) in
  let '(taken, target) := match e with EJump b t _ _ => (b, t) | _ => (false, 0) end in
  if taken && negb (r_npc r =? next) then None
  else Some (mkR3000A (r_npc r) (if taken then target else u32 (r_npc r + 4))
    (registers_after e (r_load r) (r_regs r)) (load_after e)
    (match e with EHiLo h _ => h | _ => r_hi r end) (match e with EHiLo _ l => l | _ => r_lo r end)
    (match e with EStore m => m | _ => r_mem r end)).

Definition r_effect (o : Z) (r : R3000A) : option effect :=
  instruction_effect (r_regs r) (r_load r) (r_hi r) (r_lo r) (u32 (r_pc r + 4)) (r_mem r) o.

Definition r_exec (o : Z) (r : R3000A) : option R3000A :=
  match r_effect o r with None => None | Some e => r_apply e r end.

Fixpoint r_execs (ops : list Z) (r : R3000A) : option R3000A :=
  match ops with
  | [] => Some r
  | o :: ops => match r_exec o r with None => None | Some r => r_execs ops r end
  end.

(** Fetching from memory is the special case where memory holds [o]. *)
Lemma r_step_exec r o : tst (r_pc r) 3 = false -> in_ram (translate_addr (r_pc r)) = true ->
  rd32 (r_mem r) (translate_addr (r_pc r)) = o -> r_step r = r_exec o r.
Proof. intros Ha Hr <-. unfold r_step, r_exec, r_effect, r_apply. rewrite Ha, Hr. reflexivity. Qed.

Lemma r_execs_app l1 l2 r : r_execs (l1 ++ l2) r = match r_execs l1 r with None => None | Some r => r_execs l2 r end.
Proof. revert r. induction l1 as [|o l1 IH]; intros r; cbn; [reflexivity|]. destruct (r_exec o r); [apply IH | reflexivity]. Qed.

(** ** Register masks *)

Lemma reg_bit_spec r : 0 <= r -> r = 0 \/ Z.testbit (reg_bit r) r = true.
Proof.
  intros Hr. unfold reg_bit. destruct (Z.eqb_spec r 0); [left; assumption | right].
  rewrite Z.shiftl_1_l. apply Z.pow2_bits_true. exact Hr.
Qed.

Lemma reg_bit_other r i : 0 <= r -> i <> r -> Z.testbit (reg_bit r) i = false.
Proof.
  intros Hr Hn. unfold reg_bit. destruct (r =? 0); [apply Z.bits_0|]. rewrite Z.shiftl_1_l, Z.pow2_bits_false by congruence. reflexivity.
Qed.

(** Register files that agree on the registers of a mask. *)
Record agree (m : Z) (l1 l2 : list Z) : Prop := {
  ag_len1 : zlen l1 = 32; ag_len2 : zlen l2 = 32;
  ag_regs : forall i, 0 <= i < 32 -> i = 0 \/ Z.testbit m i = true -> aget l1 i = aget l2 i
}.

Lemma agree_sub m m' l1 l2 : (forall i, 0 <= i < 32 -> Z.testbit m' i = true -> Z.testbit m i = true) -> agree m l1 l2 -> agree m' l1 l2.
Proof. intros Hs [H1 H2 Hr]. split; [exact H1 | exact H2|]. intros i Hi [-> | Hb]; apply Hr; auto. Qed.

(** Splits on the instruction field both sides dispatch on. *)
Ltac dispatch_eq := repeat lazymatch goal with
  | |- (match ?x with _ => _ end) = (match ?x with _ => _ end) =>
    lazymatch type of x with Z => destruct x | positive => destruct x end
  end.

(** An instruction reads no register outside its mask. *)
Lemma effect_agree o l1 l2 load h l next m : agree (dce_read_mask o) l1 l2 ->
  instruction_effect l1 load h l next m o = instruction_effect l2 load h l next m o.
Proof.
  intros [_ _ Hr]. pose proof (Hr (RS o) (RS_range o)) as Hs. pose proof (Hr (RT o) (RT_range o)) as Ht. clear Hr.
  pose proof (reg_bit_spec (RS o) (proj1 (RS_range o))) as Bs. pose proof (reg_bit_spec (RT o) (proj1 (RT_range o))) as Bt.
  unfold instruction_effect, special_effect, regimm_effect, memory_effect, sum_or_trap, branch, dce_read_mask, between in *.
  set (rs := reg_bit (RS o)) in *. set (rt := reg_bit (RT o)) in *.
  assert (Ls : forall x, RS o = 0 \/ Z.testbit (Z.lor rs x) (RS o) = true).
  { intros x. rewrite Z.lor_spec. destruct Bs as [E|E]; [left; exact E | right; rewrite E; reflexivity]. }
  assert (Lt : forall x, RT o = 0 \/ Z.testbit (Z.lor x rt) (RT o) = true).
  { intros x. rewrite Z.lor_spec. destruct Bt as [E|E]; [left; exact E | right; rewrite E; apply orb_true_r]. }
  clearbody rs rt. remember (OP o) as op. remember (FUNCT o) as func.
  dispatch_eq; try reflexivity; cbn in Hs, Ht;
    try (rewrite (Hs (Ls _)) || rewrite (Hs Bs)); try (rewrite (Ht (Lt _)) || rewrite (Ht Bt)); try reflexivity.
Qed.

(** The destination that dead code elimination sees is the one the effect
    writes, at once. *)
Lemma effect_dest o rgs load h l next m e : instruction_effect rgs load h l next m o = Some e -> dce_dest_gpr o <> 0 ->
  is_load_effect e = false /\ written e = dce_dest_gpr o.
Proof.
  unfold instruction_effect, special_effect, regimm_effect, memory_effect, sum_or_trap, branch, dce_dest_gpr, between.
  remember (OP o) as op. remember (FUNCT o) as func.
  dispatch; repeat lazymatch goal with
    | |- (if ?b then Some _ else None) = Some _ -> _ => let Hg := fresh in intros Hg; apply guarded in Hg as [_ ->]
    end; try effect_is; cbn; intros Hd; try (exfalso; apply Hd; reflexivity); split; try reflexivity.
Qed.

(** A pure instruction only writes its destination. *)
Lemma effect_pure o rgs load h l next m e : instruction_effect rgs load h l next m o = Some e -> dce_is_pure o = true ->
  exists v, e = EWrite (dce_dest_gpr o) v.
Proof.
  unfold instruction_effect, special_effect, regimm_effect, memory_effect, sum_or_trap, branch, dce_dest_gpr, dce_is_pure, between.
  remember (OP o) as op. remember (FUNCT o) as func.
  dispatch; repeat lazymatch goal with
    | |- (if ?b then Some _ else None) = Some _ -> _ => let Hg := fresh in intros Hg; apply guarded in Hg as [_ ->]
    end; try effect_is; cbn; intros Hd; try discriminate; eexists; reflexivity.
Qed.

(** ** Agreement through a step *)

Lemma agree_aset m l1 l2 d v : agree m l1 l2 -> agree m (aset l1 d v) (aset l2 d v).
Proof.
  intros [H1 H2 Hr]. split; [rewrite zlen_aset; exact H1 | rewrite zlen_aset; exact H2|]. intros i Hi Hb.
  specialize (Hr i Hi Hb). unfold aget, anth, aset, zlen in *. rewrite !nth_lookup in *.
  destruct (Nat.eq_dec (Z.to_nat d) (Z.to_nat i)) as [E | Hn].
  - rewrite E, !list_lookup_insert_eq by lia. reflexivity.
  - rewrite !list_lookup_insert_ne by exact Hn. exact Hr.
Qed.

(** Writing a register makes the files agree on it. *)
Lemma agree_write m m' l1 l2 d v : 0 <= d < 32 -> d <> 0 ->
  (forall i, 0 <= i < 32 -> i <> d -> Z.testbit m' i = true -> Z.testbit m i = true) ->
  agree m l1 l2 -> agree m' (aset l1 d v) (aset l2 d v).
Proof.
  intros Hd Hd0 Hs [H1 H2 Hr]. split; [rewrite zlen_aset; exact H1 | rewrite zlen_aset; exact H2|]. intros i Hi Hb.
  destruct (Z.eq_dec d i) as [<- | Hn]; [rewrite !aget_aset_eq by lia; reflexivity|].
  rewrite !aget_aset_ne by lia. apply Hr; [exact Hi|]. destruct Hb as [-> | Hb]; [left; reflexivity | right; apply Hs; auto].
Qed.

(** Writing a register outside the mask does not matter. *)
Lemma agree_dead m l1 l2 d v : 0 <= d < 32 -> d <> 0 -> Z.testbit m d = false -> agree m l1 l2 -> agree m (aset l1 d v) l2.
Proof.
  intros Hd Hd0 Hb [H1 H2 Hr]. split; [rewrite zlen_aset; exact H1 | exact H2|]. intros i Hi Hi'.
  rewrite aget_aset_ne; [apply Hr; assumption | lia | lia |]. intros <-. destruct Hi' as [->|E]; [congruence | congruence].
Qed.

Definition settle (e : effect) (load : option (Z * Z)) (l : list Z) : list Z :=
  match load with
  | Some (d, v) => if is_load_effect e && (match e with ELoad rt _ => rt =? d | _ => false end) then l else aset l d v
  | None => l
  end.

Lemma registers_after_settle e load l : registers_after e load l =
  match e with EWrite rd v | EJump _ _ rd v => put rd v (settle e load l) | _ => settle e load l end.
Proof. unfold registers_after, settle. destruct load as [ [d v]|], e; cbn; try reflexivity; destruct (_ =? _); reflexivity. Qed.

Lemma agree_settle m e load l1 l2 : agree m l1 l2 -> agree m (settle e load l1) (settle e load l2).
Proof. intros H. unfold settle. destruct load as [ [d v]|]; [|exact H]. destruct (_ && _); [exact H | apply agree_aset, H]. Qed.

(** The live registers before an instruction that is kept. *)
Definition live_in (o live : Z) : Z :=
  Z.lor (if dce_dest_gpr o =? 0 then live else Z.ldiff live (Z.shiftl 1 (dce_dest_gpr o))) (dce_read_mask o).

Lemma live_in_reads o live i : Z.testbit (dce_read_mask o) i = true -> Z.testbit (live_in o live) i = true.
Proof. intros H. unfold live_in. rewrite Z.lor_spec, H. apply orb_true_r. Qed.

Lemma live_in_other o live i : 0 <= i -> i <> dce_dest_gpr o \/ dce_dest_gpr o = 0 -> Z.testbit live i = true -> Z.testbit (live_in o live) i = true.
Proof.
  intros Hi Hn H. unfold live_in. rewrite Z.lor_spec. destruct (Z.eqb_spec (dce_dest_gpr o) 0) as [|E]; [rewrite H; reflexivity|].
  rewrite Z.ldiff_spec, H, Z.shiftl_1_l. destruct Hn as [Hn|]; [|contradiction]. rewrite Z.pow2_bits_false by congruence. reflexivity.
Qed.

Lemma agree_after o live e load l1 l2 rgs h l next m : instruction_effect rgs load h l next m o = Some e ->
  agree (live_in o live) l1 l2 -> agree live (registers_after e load l1) (registers_after e load l2).
Proof.
  intros He Ha. rewrite !registers_after_settle. pose proof (agree_settle _ e load _ _ Ha) as Hs.
  pose proof (written_range _ _ _ _ _ _ _ _ He) as Hw.
  assert (Hsub : dce_dest_gpr o = 0 -> agree live (settle e load l1) (settle e load l2)).
  { intros Hz. apply (agree_sub (live_in o live)); [|exact Hs]. intros i Hi. apply live_in_other; [lia | right; exact Hz]. }
  assert (Hput : forall rd v, written e = rd -> agree live (put rd v (settle e load l1)) (put rd v (settle e load l2))).
  { intros rd v Hrd. unfold put. destruct (Z.eq_dec (dce_dest_gpr o) 0) as [Hz | Hz].
    - destruct (rd =? 0); [apply Hsub, Hz | apply agree_aset, Hsub, Hz].
    - destruct (effect_dest _ _ _ _ _ _ _ _ He Hz) as [_ Hd]. rewrite Hrd in Hd. rewrite Hd.
      destruct (Z.eqb_spec (dce_dest_gpr o) 0); [contradiction|].
      apply (agree_write (live_in o live)); [rewrite <- Hd, <- Hrd; exact Hw | exact Hz | | exact Hs].
      intros i Hi Hn. apply live_in_other; [lia | left; exact Hn]. }
  destruct e as [rd v|rt v|taken target rd v|hh ll|mm]; try (apply Hput; reflexivity); cbn in Hw;
    (destruct (Z.eq_dec (dce_dest_gpr o) 0) as [Hz | Hz]; [exact (Hsub Hz)|]);
    destruct (effect_dest _ _ _ _ _ _ _ _ He Hz) as [Hl Hd]; cbn in Hl, Hd; congruence.
Qed.

(** ** One step on two register files *)

Definition with_regs (l : list Z) (r : R3000A) : R3000A := mkR3000A (r_pc r) (r_npc r) l (r_load r) (r_hi r) (r_lo r) (r_mem r).

(** The same machine but for registers outside [m]. *)
Definition alike (m : Z) (r1 r2 : R3000A) : Prop := r2 = with_regs (r_regs r2) r1 /\ agree m (r_regs r1) (r_regs r2).

Lemma apply_regs e l r : r_apply e (with_regs l r) =
  match r_apply e r with None => None | Some r' => Some (with_regs (registers_after e (r_load r) l) r') end.
Proof. unfold r_apply. cbn. destruct e as [| |t ? ? ?| |]; cbn; try reflexivity. destruct (t && _); reflexivity. Qed.

Lemma apply_registers e r r' : r_apply e r = Some r' -> r_regs r' = registers_after e (r_load r) (r_regs r).
Proof.
  unfold r_apply. destruct (match e with EJump b t _ _ => (b, t) | _ => (false, 0) end) as [b t].
  destruct (b && _); [discriminate|]. intros E. injection E as <-. reflexivity.
Qed.

(** An instruction that is kept keeps the machines alike. *)
Lemma exec_alike o live r1 r2 r1' : alike (live_in o live) r1 r2 -> r_exec o r1 = Some r1' ->
  exists r2', r_exec o r2 = Some r2' /\ alike live r1' r2'.
Proof.
  intros [Hr Ha] He. unfold r_exec, r_effect in *.
  rewrite Hr. cbn [with_regs r_regs r_load r_hi r_lo r_pc r_mem].
  rewrite <- (effect_agree o (r_regs r1) (r_regs r2)).
  2: { apply (agree_sub (live_in o live)); [|exact Ha]. intros i _. apply live_in_reads. }
  destruct (instruction_effect _ _ _ _ _ _ o) as [e|] eqn:Hef; [|discriminate].
  change (mkR3000A _ _ _ _ _ _ _) with (with_regs (r_regs r2) r1). rewrite apply_regs, He.
  eexists. split; [reflexivity|]. split; [reflexivity|]. cbn [with_regs r_regs].
  rewrite (apply_registers _ _ _ He). exact (agree_after _ _ _ _ _ _ _ _ _ _ _ Hef Ha).
Qed.

(** NOP moves the pipeline and writes nothing. *)
Lemma nop_effect r : r_effect 0 r = Some (EWrite 0 (u32 (Z.shiftl (aget (r_regs r) 0) 0))).
Proof. reflexivity. Qed.

(** A dead instruction may become a NOP. *)
Lemma dead_alike o live r1 r2 r1' : alike live r1 r2 -> r_exec o r1 = Some r1' ->
  dce_dest_gpr o <> 0 -> Z.testbit live (dce_dest_gpr o) = false -> dce_is_pure o = true ->
  exists r2', r_exec 0 r2 = Some r2' /\ alike live r1' r2'.
Proof.
  intros [Hr Ha] He Hd Hl Hp. unfold r_exec in He. destruct (r_effect o r1) as [e|] eqn:Hef; [|discriminate].
  destruct (effect_pure _ _ _ _ _ _ _ _ Hef Hp) as [v ->].
  pose proof (written_range _ _ _ _ _ _ _ _ Hef) as Hw. cbn [written] in Hw.
  unfold r_exec. rewrite nop_effect, Hr, apply_regs. unfold r_apply in *. cbn [andb] in *.
  eexists. split; [reflexivity|]. injection He as <-. split; [reflexivity|]. cbn [with_regs r_regs].
  rewrite !registers_after_settle. unfold put at 1. destruct (Z.eqb_spec (dce_dest_gpr o) 0); [contradiction|].
  change (put 0 ?x ?y) with y.
  apply (agree_dead live); [exact Hw | assumption | exact Hl|]. apply (agree_settle live (EWrite 0 0) (r_load r1) _ _ Ha).
Qed.

(** ** The backward pass *)

Definition kills (o live : Z) : bool := negb (dce_dest_gpr o =? 0) && negb (Z.testbit live (dce_dest_gpr o)) && dce_is_pure o.

(** Which instructions of a list are dead, and what is live before it. *)
Fixpoint dead_flags (ops : list Z) (live_out : Z) : list bool * Z :=
  match ops with
  | [] => ([], live_out)
  | o :: ops =>
    let '(fs, live) := dead_flags ops live_out in
    if kills o live then (true :: fs, live) else (false :: fs, live_in o live)
  end.

Fixpoint erase (ops : list Z) (fs : list bool) : list Z :=
  match ops, fs with
  | o :: ops, f :: fs => (if f then 0 else o) :: erase ops fs
  | _, _ => []
  end.

Lemma erase_alike ops live_out : forall r1 r2 r1', alike (snd (dead_flags ops live_out)) r1 r2 -> r_execs ops r1 = Some r1' ->
  exists r2', r_execs (erase ops (fst (dead_flags ops live_out))) r2 = Some r2' /\ alike live_out r1' r2'.
Proof.
  induction ops as [|o ops IH]; intros r1 r2 r1' Ha He.
  - injection He as <-. exists r2. split; [reflexivity | exact Ha].
  - cbn [dead_flags] in *. destruct (dead_flags ops live_out) as [fs live] eqn:Ef. cbn [r_execs] in He.
    destruct (r_exec o r1) as [m1|] eqn:E1; [|discriminate].
    destruct (kills o live) eqn:Hk; cbn [fst snd erase r_execs] in *.
    + unfold kills in Hk. apply andb_prop in Hk as [Hk Hp]. apply andb_prop in Hk as [Hd Hl].
      apply negb_true_iff in Hd, Hl. apply Z.eqb_neq in Hd.
      destruct (dead_alike o live r1 r2 m1 Ha E1 Hd Hl Hp) as (m2 & -> & Hm). exact (IH m1 m2 r1' Hm He).
    + destruct (exec_alike o live r1 r2 m1 Ha E1) as (m2 & -> & Hm). exact (IH m1 m2 r1' Hm He).
Qed.

(** The masks of the source are these flags. *)
Lemma dce_insn_kills code d live i : dce_insn code (d, live) i =
  if kills (code i) live then (Z.lor d (Z.shiftl 1 i), live) else (d, live_in (code i) live).
Proof. unfold dce_insn, kills, live_in. destruct (_ && _); reflexivity. Qed.

Lemma dce_flags code l d live : List.NoDup l -> Forall (fun i => 0 <= i) l -> (forall i, In i l -> Z.testbit d i = false) ->
  let F := fold_left (dce_insn code) (rev l) (d, live) in
  snd F = snd (dead_flags (map code l) live) /\
  (forall j, 0 <= j -> ~ In j l -> Z.testbit (fst F) j = Z.testbit d j) /\
  map (fun i => if Z.testbit (fst F) i then 0 else code i) l = erase (map code l) (fst (dead_flags (map code l) live)).
Proof.
  induction l as [|i l IH]; intros Hn Hp Hd; [repeat split|].
  apply List.NoDup_cons_iff in Hn as [Hi Hn]. inversion_clear Hp as [|? ? Hi0 Hp'].
  destruct (IH Hn Hp' (fun j Hj => Hd j (or_intror Hj))) as (Hl & Hb & He). clear IH.
  cbn [rev map dead_flags]. rewrite fold_left_app. cbn [fold_left].
  destruct (fold_left (dce_insn code) (rev l) (d, live)) as [d1 l1] eqn:EF. cbn [fst snd] in Hl, Hb, He.
  destruct (dead_flags (map code l) live) as [fs l2] eqn:Ef. cbn [fst snd] in Hl, He. subst l2.
  rewrite dce_insn_kills.
  assert (Hother : forall j, 0 <= j -> j <> i -> Z.testbit (Z.lor d1 (Z.shiftl 1 i)) j = Z.testbit d1 j).
  { intros j Hj Hji. rewrite Z.lor_spec, Z.shiftl_1_l, Z.pow2_bits_false by congruence. apply orb_false_r. }
  destruct (kills (code i) l1); cbn [fst snd erase].
  - split; [reflexivity|]. split.
    + intros j Hj Hnj. rewrite Hother; [apply Hb; [exact Hj | intros Hjl; apply Hnj; right; exact Hjl] | exact Hj | intros ->; apply Hnj; left; reflexivity].
    + rewrite Z.lor_spec, Z.shiftl_1_l, Z.pow2_bits_true, orb_true_r by exact Hi0. f_equal. rewrite <- He.
      apply map_ext_in. intros j Hj. rewrite <- Z.shiftl_1_l, Hother; [reflexivity | | intros ->; contradiction].
      rewrite List.Forall_forall in Hp'. apply Hp', Hj.
  - split; [reflexivity|]. split; [intros j Hj Hnj; apply Hb; [exact Hj | intros Hjl; apply Hnj; right; exact Hjl]|].
    rewrite Hb by (exact Hi0 || exact Hi). rewrite (Hd i (or_introl eq_refl)). f_equal. exact He.
Qed.

(** At the end of the block every register counts. *)
Lemma agree_all l1 l2 : agree 0xFFFFFFFF l1 l2 -> l1 = l2.
Proof.
  intros [H1 H2 Hr]. apply (nth_ext _ _ 0 0); [unfold zlen in *; lia|]. intros n Hn.
  unfold zlen in *. specialize (Hr (Z.of_nat n) ltac:(lia)). unfold aget, anth in Hr. rewrite Nat2Z.id in Hr. apply Hr. right.
  change 0xFFFFFFFF with (Z.ones 32). rewrite Z.ones_spec_low by lia. reflexivity.
Qed.

Lemma alike_all r1 r2 : alike 0xFFFFFFFF r1 r2 -> r2 = r1.
Proof. intros [Hr Ha]. rewrite Hr, <- (agree_all _ _ Ha). destruct r1. reflexivity. Qed.

Lemma alike_refl m r : zlen (r_regs r) = 32 -> alike m r r.
Proof. intros Hl. split; [destruct r; reflexivity | split; [exact Hl | exact Hl | reflexivity] ]. Qed.

(** The code of a block, and the code after dead instructions are dropped. *)
Definition block_code (code : Z -> Z) (n : Z) : list Z := map code (zseq (Z.to_nat n)).
Definition pruned_code (code : Z -> Z) (s : BlockScanResult) : list Z :=
  map (fun i => if Z.testbit (dce_dead_mask s) i then 0 else code i) (zseq (Z.to_nat (insn_count s))).

(** The first pass keeps the boundary. *)
Lemma fold_left_keeps {A B C} (f : A -> B -> A) (g : A -> C) l : (forall a b, g (f a b) = g a) -> forall a, g (fold_left f l a) = g a.
Proof. intros Hg. induction l as [|b l IH]; intros a; cbn; [reflexivity | rewrite IH; apply Hg]. Qed.

Lemma count_access_count i s r : insn_count (count_access i s r) = insn_count s.
Proof. reflexivity. Qed.

Lemma scan_insn_count code st i : insn_count (fst (scan_insn code st i)) = insn_count (fst st).
Proof.
  destruct st as [s seen]. unfold scan_insn. cbv zeta. cbn [fst].
  rewrite (fold_left_keeps _ insn_count) by (intros; apply count_access_count).
  destruct (is_cop2 _ && _); reflexivity.
Qed.

Lemma block_scan_count code n : insn_count (block_scan code n) = block_boundary n code.
Proof.
  unfold block_scan. cbv zeta. destruct (fold_left (scan_insn code) _ _) as [s seen] eqn:E.
  assert (H : insn_count (fst (s, seen)) = block_boundary n code); [|exact H].
  rewrite <- E. rewrite (fold_left_keeps _ (fun st => insn_count (fst st))) by (intros; apply scan_insn_count). reflexivity.
Qed.

Lemma block_scan_dead code n : dce_dead_mask (block_scan code n) =
  fst (fold_left (dce_insn code) (rev (zseq (Z.to_nat (block_boundary n code)))) (0, 0xFFFFFFFF)).
Proof. unfold block_scan. cbv zeta. destruct (fold_left (scan_insn code) _ _) as [s seen]. reflexivity. Qed.

(** Dead code elimination is right: when the instructions of a block run
    on the reference machine without an exception, the block with NOPs in the
    place of those the scan marks dead leaves the same machine - registers,
    pending load, HI, LO, memory and program counter. *)
Theorem dce_sound code max_insns r r' : zlen (r_regs r) = 32 ->
  r_execs (block_code code (insn_count (block_scan code max_insns))) r = Some r' ->
  r_execs (pruned_code code (block_scan code max_insns)) r = Some r'.
Proof.
  intros Hl He. unfold pruned_code, block_code in *. rewrite block_scan_dead in *. rewrite block_scan_count in *.
  set (l := zseq (Z.to_nat (block_boundary max_insns code))) in *.
  destruct (dce_flags code l 0 0xFFFFFFFF) as (_ & _ & ->).
  - apply NoDup_ListNoDup, NoDup_zseq.
  - apply List.Forall_forall. intros i Hi. apply in_zseq in Hi. lia.
  - intros i _. apply Z.bits_0.
  - destruct (erase_alike _ 0xFFFFFFFF r r r' (alike_refl _ r Hl) He) as (r2 & H2 & Ha).
    rewrite H2. f_equal. apply alike_all, Ha.
Qed.

(** ** Dead code in a super-block *)

(** Dropping a tail before which everything is live again changes nothing. *)
Lemma dead_flags_app l1 l2 live : snd (dead_flags l2 live) = live ->
  erase (l1 ++ l2) (fst (dead_flags (l1 ++ l2) live)) = erase l1 (fst (dead_flags l1 live)) ++ erase l2 (fst (dead_flags l2 live)) /\
  snd (dead_flags (l1 ++ l2) live) = snd (dead_flags l1 live).
Proof.
  intros H2. induction l1 as [|o l1 IH]; cbn [app dead_flags]; [cbn; split; [reflexivity | exact H2] |].
  destruct (dead_flags (l1 ++ l2) live) as [f12 v12]. destruct (dead_flags l1 live) as [f1 v1].
  cbn [fst snd] in IH. destruct IH as [He ->]. destruct (kills o v1); cbn [fst snd erase app]; rewrite He; split; reflexivity.
Qed.

Lemma erase_length l live : length (erase l (fst (dead_flags l live))) = length l.
Proof.
  induction l as [|o l IH]; cbn [dead_flags]; [reflexivity|].
  destruct (dead_flags l live) as [fs v]. cbn [fst] in IH. destruct (kills o v); cbn [fst erase length]; rewrite IH; reflexivity.
Qed.

(** SYSCALL and BREAK read and write nothing. *)
Lemma trap_live o live : is_trap o = true -> live_in o live = live /\ kills o live = false.
Proof.
  unfold is_trap. intros H. apply andb_prop in H as [Ho Hf]. unfold kills, live_in, dce_dest_gpr, dce_read_mask, dce_is_pure.
  rewrite Ho. apply orb_prop in Hf as [Hf|Hf]; apply Z.eqb_eq in Hf; rewrite Hf; cbn; split; try reflexivity; apply Z.lor_0_r.
Qed.

(** The words [start], ..., [start + n - 1], and those words as they are
    translated when [dead] are the marks. *)
Definition words (code : Z -> Z) (start : Z) (n : nat) : list Z := map (fun k => code (start + k)) (zseq n).

(** Code that does what other code does. *)
Definition same_run (l1 l2 : list Z) : Prop := forall r r', zlen (r_regs r) = 32 -> r_execs l1 r = Some r' ->
  r_execs l2 r = Some r' /\ zlen (r_regs r') = 32.

Lemma same_run_app a1 a2 b1 b2 : same_run a1 a2 -> same_run b1 b2 -> same_run (a1 ++ b1) (a2 ++ b2).
Proof.
  intros Ha Hb r r' Hl. rewrite !r_execs_app. destruct (r_execs a1 r) as [m|] eqn:E; [|discriminate].
  destruct (Ha r m Hl E) as [-> Hm]. apply Hb, Hm.
Qed.

Lemma same_run_erase l : same_run l (erase l (fst (dead_flags l 0xFFFFFFFF))).
Proof.
  intros r r' Hl He. destruct (erase_alike l 0xFFFFFFFF r r r' (alike_refl _ r Hl) He) as (r2 & H2 & Ha).
  rewrite (alike_all _ _ Ha) in H2. split; [exact H2 | exact (ag_len1 _ _ _ (proj2 Ha))].
Qed.

Lemma same_run_word o : same_run [o] [o].
Proof.
  intros r r' Hl He. split; [exact He|]. cbn in He. destruct (r_exec o r) as [m|] eqn:E; [|discriminate]. injection He as ->.
  destruct (exec_alike o 0xFFFFFFFF r r r' (alike_refl _ r Hl) E) as (m & _ & Ha). exact (ag_len1 _ _ _ (proj2 Ha)).
Qed.

(** An instruction that is not pure stays. *)
Lemma erase_keeps l live : forall m o, nth_error l m = Some o -> dce_is_pure o = false ->
  nth_error (erase l (fst (dead_flags l live))) m = Some o.
Proof.
  induction l as [|x l IH]; intros m o Hm Hp; [destruct m; discriminate|]. cbn [dead_flags].
  destruct (dead_flags l live) as [fs v]. cbn [fst] in IH. destruct m as [|m].
  - injection Hm as ->. unfold kills. rewrite Hp, andb_false_r. reflexivity.
  - destruct (kills x v); cbn [fst erase nth_error]; exact (IH m o Hm Hp).
Qed.

Lemma trap_impure o : is_trap o = true -> dce_is_pure o = false.
Proof.
  unfold is_trap, dce_is_pure. intros H. apply andb_prop in H as [-> Hf]. apply orb_prop in Hf as [Hf|Hf]; apply Z.eqb_eq in Hf; rewrite Hf; reflexivity.
Qed.

Lemma jump_impure o : is_jump o = true -> dce_is_pure o = false.
Proof.
  unfold is_jump, dce_is_pure, between. destruct (Z.eqb_spec (OP o) 0) as [->|Hz]; intros H.
  - cbn in H. rewrite !orb_false_r in H. apply orb_prop in H as [Hf|Hf]; apply Z.eqb_eq in Hf; rewrite Hf; reflexivity.
  - cbn [andb] in H. destruct (8 <=? OP o) eqn:E; [|reflexivity]. apply Z.leb_le in E. exfalso.
    rewrite !orb_false_r in H. repeat (apply orb_prop in H as [H|H]); lia.
Qed.

(** ** The boundary of straight-line code *)

Definition plain (o : Z) : Prop := is_jump o = false /\ is_trap o = false.

Lemma boundary_plain code m : forall n i, (m <= n)%nat -> (forall k, 0 <= k < Z.of_nat m -> plain (code (i + k))) ->
  boundary n i false i code = boundary (n - m) (i + Z.of_nat m) false (i + Z.of_nat m) code.
Proof.
  induction m as [|m IH]; intros n i Hn Hp; [rewrite Nat.sub_0_r, Z.add_0_r; reflexivity|].
  destruct n as [|n]; [lia|]. cbn [boundary]. destruct (Hp 0 ltac:(lia)) as [Hj Ht]. rewrite Z.add_0_r in Hj, Ht. rewrite Hj, Ht.
  rewrite (IH n (i + 1)); [f_equal; lia | lia |]. intros k Hk. replace (i + 1 + k) with (i + (k + 1)) by lia. apply Hp. lia.
Qed.

Lemma block_boundary_plain code m : 0 <= m <= 64 -> (forall k, 0 <= k < m -> plain (code k)) ->
  block_boundary SCAN_MAX_INSNS code = boundary (Z.to_nat (64 - m)) m false m code.
Proof.
  intros Hm Hp. unfold block_boundary. change (Z.to_nat (Z.min SCAN_MAX_INSNS SCAN_MAX_INSNS)) with 64%nat.
  rewrite (boundary_plain code (Z.to_nat m)); [| lia | intros k Hk; apply Hp; lia].
  rewrite Z.add_0_l, Z2Nat.id by lia. f_equal. lia.
Qed.

Lemma block_boundary_trap code m : 0 <= m <= 63 -> (forall k, 0 <= k < m -> plain (code k)) -> is_jump (code m) = false ->
  is_trap (code m) = true -> block_boundary SCAN_MAX_INSNS code = m + 1.
Proof.
  intros Hm Hp Hj Ht. rewrite (block_boundary_plain code m) by (lia || exact Hp).
  destruct (Z.to_nat (64 - m)) eqn:E; [lia|]. cbn [boundary]. rewrite Hj, Ht. reflexivity.
Qed.

Lemma block_boundary_jump code m : 0 <= m <= 63 -> (forall k, 0 <= k < m -> plain (code k)) -> is_jump (code m) = true ->
  block_boundary SCAN_MAX_INSNS code = if m =? 63 then 64 else m + 2.
Proof.
  intros Hm Hp Hj. rewrite (block_boundary_plain code m) by (lia || exact Hp).
  destruct (Z.to_nat (64 - m)) as [|n] eqn:E; [lia|]. cbn [boundary]. rewrite Hj.
  destruct (Z.eqb_spec m 63); destruct n; cbn [boundary]; lia.
Qed.

(** ** A sub-block as it is translated *)

Definition pruned_word (code : Z -> Z) (k : Z) : Z :=
  if (k <? SCAN_MAX_INSNS) && Z.testbit (dce_dead_mask (block_scan code SCAN_MAX_INSNS)) k then 0 else code k.

Lemma scan_pruned code : 0 <= block_boundary SCAN_MAX_INSNS code <= 64 ->
  let l := map code (zseq (Z.to_nat (block_boundary SCAN_MAX_INSNS code))) in
  map (pruned_word code) (zseq (Z.to_nat (block_boundary SCAN_MAX_INSNS code))) = erase l (fst (dead_flags l 0xFFFFFFFF)).
Proof.
  intros Hb. cbv zeta. set (q := zseq _) in *.
  destruct (dce_flags code q 0 0xFFFFFFFF) as (_ & _ & <-).
  - apply NoDup_ListNoDup, NoDup_zseq.
  - apply List.Forall_forall. intros i Hi. apply in_zseq in Hi. lia.
  - intros i _. apply Z.bits_0.
  - apply map_ext_in. intros i Hi. unfold pruned_word. rewrite block_scan_dead. fold q.
    apply in_zseq in Hi. rewrite (proj2 (Z.ltb_lt i SCAN_MAX_INSNS)) by (unfold SCAN_MAX_INSNS; lia). reflexivity.
Qed.

Lemma pruned_keeps code m : 0 <= m < block_boundary SCAN_MAX_INSNS code -> block_boundary SCAN_MAX_INSNS code <= 64 ->
  dce_is_pure (code m) = false -> pruned_word code m = code m.
Proof.
  intros Hm Hb Hp. pose proof (scan_pruned code ltac:(lia)) as E. cbv zeta in E.
  assert (Hn : forall f : Z -> Z, nth_error (map f (zseq (Z.to_nat (block_boundary SCAN_MAX_INSNS code)))) (Z.to_nat m) = Some (f m)).
  { intros f. unfold zseq. rewrite nth_error_map, nth_error_map, nth_error_seq, (proj2 (Nat.ltb_lt _ _)) by lia. cbn. f_equal. f_equal. lia. }
  apply (f_equal (fun l => nth_error l (Z.to_nat m))) in E. rewrite Hn in E.
  rewrite (erase_keeps _ _ _ (code m)) in E; [congruence | apply Hn | exact Hp].
Qed.

(** Everything is live again where the words end. *)
Lemma sub_block_exact code m n : block_boundary SCAN_MAX_INSNS code = Z.of_nat (m + n) -> (m + n <= 64)%nat ->
  snd (dead_flags (map (fun j => code (Z.of_nat m + j)) (zseq n)) 0xFFFFFFFF) = 0xFFFFFFFF ->
  same_run (map code (zseq m)) (map (pruned_word code) (zseq m)).
Proof.
  intros Hb Hmn Hl. pose proof (scan_pruned code ltac:(lia)) as E. cbv zeta in E. rewrite Hb, Nat2Z.id in E.
  rewrite zseq_add, !map_app, (map_map _ code) in E.
  rewrite (proj1 (dead_flags_app _ _ _ Hl)) in E.
  apply app_inj_1 in E as [-> _]; [apply same_run_erase|]. rewrite erase_length, !length_map. reflexivity.
Qed.

(** How a sub-block of [m] words ends: all that was scanned; before a trap;
    with the delay slot after the 64th word. *)
Inductive sub_block_end (code : Z -> Z) (m : Z) : Prop :=
| end_scanned : m = block_boundary SCAN_MAX_INSNS code -> sub_block_end code m
| end_trap : m + 1 = block_boundary SCAN_MAX_INSNS code -> is_trap (code m) = true -> sub_block_end code m
| end_slot : m = 65 -> block_boundary SCAN_MAX_INSNS code = 64 -> sub_block_end code m.

Lemma sub_block_sound code m : 0 <= m <= 65 -> block_boundary SCAN_MAX_INSNS code <= 64 -> sub_block_end code m ->
  same_run (map code (zseq (Z.to_nat m))) (map (pruned_word code) (zseq (Z.to_nat m))).
Proof.
  intros Hm Hb [He|He Ht|He0 He]; [| |subst m].
  - apply (sub_block_exact code _ 0); [lia | lia | reflexivity].
  - apply (sub_block_exact code _ 1); [lia | lia |]. cbn [zseq seq map]. rewrite Z.add_0_r, Z2Nat.id by lia.
    cbn [dead_flags]. destruct (trap_live (code m) 0xFFFFFFFF Ht) as [Hl ->]. exact Hl.
  - change (Z.to_nat 65) with (64 + 1)%nat. rewrite zseq_add, !map_app. apply same_run_app.
    + apply (sub_block_exact code 64 0); [exact He | lia | reflexivity].
    + apply same_run_word.
Qed.

(** ** The compile loop *)

Section Super.
Variables (psx_pc : Z) (code : Z -> Z) (fold : Z -> option bool).

Definition er_word (er : list Z) (i : Z) : Z := if existsb (Z.eqb i) er then 0 else code i.

(** The words up to [cur] as they were translated. *)
Definition emitted (c : Comp) : list Z := map (er_word (erased c)) (zseq (Z.to_nat (cur c))).

(** The length limit ended the block in the middle of what was scanned. *)
Definition cut_short (c : Comp) : bool :=
  negb (in_delay_slot c) && (MAX_SUPER_INSNS <=? cur c) && (cur c - sub_block_start c <? SCAN_MAX_INSNS).

(** Between two turns of the loop. *)
Record compiling (c : Comp) : Prop := {
  cm_start : 0 <= sub_block_start c <= cur c;
  cm_scan : scan c = block_scan (code_from code (sub_block_start c)) SCAN_MAX_INSNS;
  cm_before : same_run (map code (zseq (Z.to_nat (sub_block_start c)))) (map (er_word (erased c)) (zseq (Z.to_nat (sub_block_start c))));
  cm_here : forall k, 0 <= k < cur c - sub_block_start c ->
    er_word (erased c) (sub_block_start c + k) = pruned_word (code_from code (sub_block_start c)) k;
  cm_er : Forall (fun i => i < cur c) (erased c);
  cm_run : if in_delay_slot c then
      exists m, cur c = sub_block_start c + m + 1 /\ 0 <= m <= 63 /\ (forall k, 0 <= k < m -> plain (code_from code (sub_block_start c) k)) /\
        is_jump (code_from code (sub_block_start c) m) = true
    else cur c - sub_block_start c <= 63 /\ cur c < MAX_SUPER_INSNS /\
      (forall k, 0 <= k < cur c - sub_block_start c -> plain (code_from code (sub_block_start c) k))
}.

Lemma er_word_new er n i : i < n -> er_word (er ++ [n]) i = er_word er i.
Proof.
  intros Hi. unfold er_word. rewrite existsb_app. cbn [existsb]. rewrite (proj2 (Z.eqb_neq i n)) by lia. rewrite !orb_false_r. reflexivity.
Qed.

Lemma er_word_at er n : er_word (er ++ [n]) n = 0.
Proof. unfold er_word. rewrite existsb_app. cbn [existsb]. rewrite Z.eqb_refl, orb_true_r. reflexivity. Qed.

Lemma er_word_past er n : Forall (fun i => i < n) er -> er_word er n = code n.
Proof.
  intros H. unfold er_word. replace (existsb (Z.eqb n) er) with false; [reflexivity|].
  symmetry. apply not_true_iff_false. rewrite existsb_exists. intros (i & Hi & He). apply Z.eqb_eq in He.
  rewrite List.Forall_forall in H. specialize (H i Hi). cbn in H. lia.
Qed.

Lemma emitted_map er er' n : (forall i, 0 <= i < n -> er_word er i = er_word er' i) ->
  map (er_word er) (zseq (Z.to_nat n)) = map (er_word er') (zseq (Z.to_nat n)).
Proof. intros H. apply map_ext_in. intros i Hi. apply in_zseq in Hi. apply H. lia. Qed.

Lemma comp_start_compiling : compiling (comp_start code).
Proof.
  split; cbn; try lia; [reflexivity | intros r r' Hl He; injection He as <-; split; [reflexivity | exact Hl] | constructor |].
  split; [lia|]. split; [reflexivity | intros; lia].
Qed.

(** Where the loop stops, the sub-block can be closed. *)
Lemma close_sub_block c : 0 <= sub_block_start c <= cur c -> cur c - sub_block_start c <= 65 ->
  same_run (map code (zseq (Z.to_nat (sub_block_start c)))) (map (er_word (erased c)) (zseq (Z.to_nat (sub_block_start c)))) ->
  (forall k, 0 <= k < cur c - sub_block_start c ->
    er_word (erased c) (sub_block_start c + k) = pruned_word (code_from code (sub_block_start c)) k) ->
  block_boundary SCAN_MAX_INSNS (code_from code (sub_block_start c)) <= 64 ->
  sub_block_end (code_from code (sub_block_start c)) (cur c - sub_block_start c) ->
  same_run (map code (zseq (Z.to_nat (cur c)))) (emitted c).
Proof.
  intros Hs Hc Hb Hh Hn He. unfold emitted. set (s := sub_block_start c) in *. set (m := cur c - s) in *.
  replace (Z.to_nat (cur c)) with (Z.to_nat s + Z.to_nat m)%nat by lia. rewrite zseq_add, !map_app.
  apply same_run_app; [exact Hb|]. rewrite !map_map, Z2Nat.id by lia.
  pose proof (sub_block_sound (code_from code s) m ltac:(lia) Hn He) as Hr.
  replace (map (fun x => er_word (erased c) (s + x)) (zseq (Z.to_nat m))) with (map (pruned_word (code_from code s)) (zseq (Z.to_nat m)));
    [exact Hr|].
  apply map_ext_in. intros k Hk. apply in_zseq in Hk. symmetry. apply Hh. lia.
Qed.

Lemma count_cycles_eq o c : exists n g, count_cycles o c = c <| block_cycle_count := n |> <| gte_stall_remaining := g |>.
Proof. unfold count_cycles. destruct (gte_stall o (gte_stall_remaining c)) as [w g]. do 2 eexists. reflexivity. Qed.

Lemma count_cycles_compiling o c : compiling c -> compiling (count_cycles o c).
Proof. intros H. destruct (count_cycles_eq o c) as (n & g & ->). destruct H. split; assumption. Qed.

(** Translating a word, dead or not. *)
Lemma emit_insn_word o c c1 : compiling c -> emit_insn o c = Some c1 ->
  exists er, c1 = c <| erased := er |> /\ (forall i, i < cur c -> er_word er i = er_word (erased c) i) /\
    er_word er (cur c) = pruned_word (code_from code (sub_block_start c)) (cur c - sub_block_start c) /\
    Forall (fun i => i < cur c + 1) er /\ (is_dead c = true \/ is_trap o = false).
Proof.
  intros H He. unfold emit_insn in He. unfold pruned_word. rewrite <- (cm_scan c H).
  change (((cur c - sub_block_start c <? SCAN_MAX_INSNS) && Z.testbit (dce_dead_mask (scan c)) (cur c - sub_block_start c))) with (is_dead c).
  unfold code_from. replace (sub_block_start c + (cur c - sub_block_start c)) with (cur c) by lia.
  assert (Her : Forall (fun i => i < cur c + 1) (erased c)) by (eapply Forall_impl; [exact (cm_er c H) | intros i Hi; cbn in Hi; lia]).
  destruct (is_dead c) eqn:Ed.
  - injection He as <-. exists (erased c ++ [cur c]). split; [reflexivity|]. split; [intros i Hi; apply er_word_new, Hi|].
    split; [apply er_word_at|]. split; [apply Forall_app; split; [exact Her | repeat constructor; lia] | left; reflexivity].
  - destruct (is_trap o) eqn:Et; [discriminate|]. injection He as <-. exists (erased c). destruct c. split; [reflexivity|].
    split; [reflexivity|]. split; [apply er_word_past; exact (cm_er _ H)|]. split; [exact Her | right; reflexivity].
Qed.

Lemma here_snoc er er' s n : s <= n -> (forall i, i < n -> er_word er' i = er_word er i) ->
  er_word er' n = pruned_word (code_from code s) (n - s) ->
  (forall k, 0 <= k < n - s -> er_word er (s + k) = pruned_word (code_from code s) k) ->
  forall k, 0 <= k < n + 1 - s -> er_word er' (s + k) = pruned_word (code_from code s) k.
Proof.
  intros Hs Hold Hnew Hh k Hk. destruct (Z.eq_dec k (n - s)) as [->|Hne].
  - replace (s + (n - s)) with n by lia. exact Hnew.
  - rewrite Hold by lia. apply Hh. lia.
Qed.

Lemma before_same er er' s n : 0 <= s <= n -> (forall i, i < n -> er_word er' i = er_word er i) ->
  same_run (map code (zseq (Z.to_nat s))) (map (er_word er) (zseq (Z.to_nat s))) ->
  same_run (map code (zseq (Z.to_nat s))) (map (er_word er') (zseq (Z.to_nat s))).
Proof. intros Hs Hold Hb. rewrite (emitted_map er' er s); [exact Hb|]. intros i Hi. apply Hold. lia. Qed.

(** A word that is not a jump. *)
Lemma plain_step c : compiling c -> in_delay_slot c = false -> is_jump (code (cur c)) = false ->
  match emit_insn (code (cur c)) c with
  | None => same_run (map code (zseq (Z.to_nat (cur c)))) (emitted c)
  | Some c1 =>
    let c2 := c1 <| cur ::= Z.succ |> in
    if (256 <=? 4 * (cur c2 - sub_block_start c2)) || (MAX_SUPER_INSNS * 4 <=? 4 * cur c2)
    then cut_short c2 = false -> same_run (map code (zseq (Z.to_nat (cur c2)))) (emitted c2) else compiling c2
  end.
Proof.
  intros H Hd Hj. pose proof (cm_run c H) as Hr. rewrite Hd in Hr. destruct Hr as (Hm & Hn & Hp).
  pose proof (cm_start c H) as Hs. set (s := sub_block_start c) in *. set (w := code_from code s) in *.
  assert (Hw : code (cur c) = w (cur c - s)) by (unfold w, code_from; f_equal; lia).
  assert (Htrap : is_trap (code (cur c)) = true -> block_boundary SCAN_MAX_INSNS w = cur c - s + 1).
  { intros Ht. rewrite Hw in Hj, Ht. apply block_boundary_trap; [lia | exact Hp | exact Hj | exact Ht]. }
  destruct (emit_insn (code (cur c)) c) as [c1|] eqn:He.
  - destruct (emit_insn_word _ _ _ H He) as (er & -> & Hold & Hnew & Her & Hdead). cbv zeta.
    match goal with |- context [4 * cur ?x] => set (c2 := x) end.
    assert (F : cur c2 = cur c + 1 /\ sub_block_start c2 = s /\ erased c2 = er /\ in_delay_slot c2 = false /\
      scan c2 = block_scan w SCAN_MAX_INSNS).
    { split; [reflexivity|]. split; [reflexivity|]. split; [reflexivity|]. split; [exact Hd | exact (cm_scan c H)]. }
    destruct F as (Fc & Fs & Fe & Fd & Fn). clearbody c2. fold s in Hnew. fold w in Hnew.
    assert (Hpl : plain (code (cur c))).
    { split; [exact Hj|]. destruct Hdead as [Hdead|Hdead]; [|exact Hdead]. apply not_true_iff_false. intros Ht.
      pose proof (pruned_keeps w (cur c - s)) as Hk. rewrite (Htrap Ht), <- Hw in Hk.
      specialize (Hk ltac:(lia) ltac:(lia) (trap_impure _ Ht)). unfold pruned_word in Hk. rewrite <- Hw in Hk.
      unfold is_dead in Hdead. rewrite (cm_scan c H) in Hdead. fold s in Hdead. fold w in Hdead. rewrite Hdead in Hk.
      rewrite <- Hk in Ht. discriminate Ht. }
    assert (Hp' : forall k, 0 <= k < cur c + 1 - s -> plain (w k)).
    { intros k Hk. destruct (Z.eq_dec k (cur c - s)) as [->|Hne]; [rewrite <- Hw; exact Hpl | apply Hp; lia]. }
    assert (Hhere : forall k, 0 <= k < cur c2 - s -> er_word er (s + k) = pruned_word w k).
    { rewrite Fc. apply (here_snoc (erased c)); [lia | exact Hold | exact Hnew | exact (cm_here c H)]. }
    pose proof (before_same _ er s (cur c) ltac:(lia) Hold (cm_before c H)) as Hbef.
    rewrite <- Fc in Her, Hp'. unfold MAX_SUPER_INSNS in *. destruct (_ || _) eqn:Elen; rewrite Fs in Elen.
    + intros Hcut. unfold cut_short, MAX_SUPER_INSNS, SCAN_MAX_INSNS in Hcut. rewrite Fd, Fs in Hcut. cbn [negb andb] in Hcut.
      assert (Hbb : block_boundary SCAN_MAX_INSNS w = 64).
      { rewrite (block_boundary_plain w 64); [reflexivity | lia |]. intros k Hk. apply Hp'. lia. }
      apply close_sub_block; rewrite ?Fs, ?Fe; fold w; [lia | lia | exact Hbef | exact Hhere | lia | apply end_scanned; lia].
    + apply orb_false_iff in Elen as [E1 E2]. apply Z.leb_gt in E1, E2.
      split; rewrite ?Fd, ?Fs, ?Fe; unfold MAX_SUPER_INSNS; [lia | exact Fn | exact Hbef | exact Hhere | exact Her |].
      split; [lia|]. split; [lia | exact Hp'].
  - unfold emit_insn in He. destruct (is_dead c); [discriminate|]. destruct (is_trap (code (cur c))) eqn:Et; [|discriminate].
    apply close_sub_block; fold s; fold w; [lia | lia | exact (cm_before c H) | exact (cm_here c H) | rewrite (Htrap eq_refl); lia |].
    apply end_trap; [rewrite (Htrap eq_refl); lia | rewrite <- Hw; exact Et].
Qed.

(** A branch or jump. *)
Lemma jump_step c : compiling c -> in_delay_slot c = false -> is_jump (code (cur c)) = true ->
  compiling (take_branch psx_pc fold (code (cur c)) c).
Proof.
  intros H Hd Hj. pose proof (cm_run c H) as Hr. rewrite Hd in Hr. destruct Hr as (Hm & Hn & Hp).
  pose proof (cm_start c H) as Hs. set (s := sub_block_start c) in *. set (w := code_from code s) in *.
  assert (Hw : code (cur c) = w (cur c - s)) by (unfold w, code_from; f_equal; lia).
  assert (Hk : pruned_word w (cur c - s) = w (cur c - s)).
  { rewrite Hw in Hj. pose proof (block_boundary_jump w (cur c - s) ltac:(lia) Hp Hj) as Hbb.
    apply pruned_keeps; [destruct (_ =? 63) eqn:E; lia | destruct (_ =? 63) eqn:E; lia | apply jump_impure, Hj]. }
  assert (F : exists ty to, take_branch psx_pc fold (code (cur c)) c =
    c <| branch_type := ty |> <| jump_to := to |> <| in_delay_slot := true |> <| cur ::= Z.succ |>).
  { unfold take_branch. destruct (if (OP (code (cur c)) =? 0x02) || (OP (code (cur c)) =? 0x03) then _ else _) as [ty to].
    exists ty, to. reflexivity. }
  destruct F as (ty & to & ->). match goal with |- compiling ?x => set (c2 := x) end.
  assert (F : cur c2 = cur c + 1 /\ sub_block_start c2 = s /\ erased c2 = erased c /\ in_delay_slot c2 = true /\
    scan c2 = block_scan w SCAN_MAX_INSNS).
  { split; [reflexivity|]. split; [reflexivity|]. split; [reflexivity|]. split; [reflexivity | exact (cm_scan c H)]. }
  destruct F as (Fc & Fs & Fe & Fd & Fn). clearbody c2.
  split; rewrite ?Fd, ?Fs, ?Fe; [lia | exact Fn | exact (cm_before c H) | | |].
  - rewrite Fc. apply (here_snoc (erased c)); [lia | reflexivity | | exact (cm_here c H)].
    fold w. rewrite Hk, <- Hw. apply er_word_past. exact (cm_er c H).
  - rewrite Fc. eapply Forall_impl; [exact (cm_er c H) | intros i Hi; cbn in Hi; lia].
  - exists (cur c - s). split; [lia|]. split; [lia|]. split; [exact Hp|]. fold w. rewrite <- Hw. exact Hj.
Qed.

(** The word after it closes the sub-block. *)
Lemma slot_step c : compiling c -> in_delay_slot c = true ->
  match emit_insn (code (cur c)) c with
  | None => same_run (map code (zseq (Z.to_nat (cur c)))) (emitted c)
  | Some c1 =>
    let c2 := c1 <| cur ::= Z.succ |> in
    same_run (map code (zseq (Z.to_nat (cur c2)))) (emitted c2) /\ Forall (fun i => i < cur c2) (erased c2) /\ 0 <= cur c2 /\
    cut_short c2 = false
  end.
Proof.
  intros H Hd. pose proof (cm_run c H) as Hr. rewrite Hd in Hr. destruct Hr as (m & Hc & Hm & Hp & Hj).
  pose proof (cm_start c H) as Hs. set (s := sub_block_start c) in *. set (w := code_from code s) in *.
  pose proof (block_boundary_jump w m Hm Hp Hj) as Hbb.
  assert (Hw : code (cur c) = w (m + 1)) by (unfold w, code_from; f_equal; lia).
  assert (Hb64 : block_boundary SCAN_MAX_INSNS w <= 64) by (destruct (Z.eqb_spec m 63); lia).
  destruct (emit_insn (code (cur c)) c) as [c1|] eqn:He.
  - destruct (emit_insn_word _ _ _ H He) as (er & -> & Hold & Hnew & Her & _). cbv zeta. fold s in Hnew. fold w in Hnew.
    match goal with |- context [cut_short ?x] => set (c2 := x) end.
    assert (F : cur c2 = cur c + 1 /\ sub_block_start c2 = s /\ erased c2 = er /\ in_delay_slot c2 = true).
    { split; [reflexivity|]. split; [reflexivity|]. split; [reflexivity | exact Hd]. }
    destruct F as (Fc & Fs & Fe & Fd). clearbody c2.
    split; [|split; [rewrite Fc, Fe; exact Her | split; [lia | unfold cut_short; rewrite Fd; reflexivity] ] ].
    apply close_sub_block; rewrite ?Fs, ?Fe; fold w; [lia | lia | | | exact Hb64 |].
    + exact (before_same _ er s (cur c) ltac:(lia) Hold (cm_before c H)).
    + rewrite Fc. apply (here_snoc (erased c)); [lia | exact Hold | exact Hnew | exact (cm_here c H)].
    + destruct (Z.eqb_spec m 63); [apply end_slot; lia | apply end_scanned; lia].
  - unfold emit_insn in He. destruct (is_dead c); [discriminate|]. destruct (is_trap (code (cur c))) eqn:Et; [|discriminate].
    apply close_sub_block; fold s; fold w; [lia | lia | exact (cm_before c H) | exact (cm_here c H) | exact Hb64 |].
    destruct (Z.eqb_spec m 63); [apply end_scanned; lia|]. apply end_trap; [lia|].
    replace (cur c - s) with (m + 1) by lia. rewrite <- Hw. exact Et.
Qed.

Lemma continue_compiling c : same_run (map code (zseq (Z.to_nat (cur c)))) (emitted c) -> Forall (fun i => i < cur c) (erased c) ->
  0 <= cur c < MAX_SUPER_INSNS -> compiling (continue_block code c).
Proof.
  intros Hr He Hc. split.
  - change (0 <= cur c <= cur c). lia.
  - reflexivity.
  - exact Hr.
  - intros k Hk. change (0 <= k < cur c - cur c) in Hk. lia.
  - exact He.
  - change (cur c - cur c <= 63 /\ cur c < MAX_SUPER_INSNS /\ (forall k, 0 <= k < cur c - cur c -> plain (code_from code (cur c) k))).
    split; [lia|]. split; [lia | intros; lia].
Qed.

Lemma comp_step_sound c : compiling c ->
  let '(go, c') := comp_step psx_pc code fold c in
  if go then compiling c' else cut_short c' = false -> same_run (map code (zseq (Z.to_nat (cur c')))) (emitted c').
Proof.
  intros H. unfold comp_step. cbv zeta. pose proof (count_cycles_compiling (code (cur c)) c H) as H1.
  assert (E : code (cur c) = code (cur (count_cycles (code (cur c)) c))).
  { f_equal. destruct (count_cycles_eq (code (cur c)) c) as (n & g & ->). reflexivity. }
  set (o := code (cur c)) in *. set (c1 := count_cycles o c) in *. clearbody c1. rewrite E. clear E o H c.
  destruct (in_delay_slot c1) eqn:Ed.
  - pose proof (slot_step c1 H1 Ed) as Hs. cbv zeta in Hs. destruct (emit_insn (code (cur c1)) c1) as [c2|]; [|intros _; exact Hs].
    destruct Hs as (Hr & He & Hc & _). destruct (_ && _) eqn:Ec; [|intros _; exact Hr].
    apply continue_compiling; [exact Hr | exact He |]. apply andb_prop in Ec as [_ Ec]. unfold can_continue in Ec.
    apply andb_prop in Ec as [Ec _]. apply andb_prop in Ec as [_ Ec]. apply Z.ltb_lt in Ec. lia.
  - destruct (is_jump (code (cur c1))) eqn:Ej; [apply jump_step; assumption|].
    pose proof (plain_step c1 H1 Ed Ej) as Hs. cbv zeta in Hs. destruct (emit_insn (code (cur c1)) c1) as [c2|]; [|intros _; exact Hs].
    destruct (_ || _); exact Hs.
Qed.

Lemma comp_loop_sound fuel : forall c c', compiling c -> comp_loop psx_pc code fold fuel c = Some c' -> cut_short c' = false ->
  same_run (map code (zseq (Z.to_nat (cur c')))) (emitted c').
Proof.
  induction fuel as [|fuel IH]; intros c c' H E Hcut; [discriminate|]. cbn [comp_loop] in E.
  pose proof (comp_step_sound c H) as Hs. destruct (comp_step psx_pc code fold c) as [ [|] c1].
  - exact (IH c1 c' Hs E Hcut).
  - injection E as <-. exact (Hs Hcut).
Qed.
End Super.

(** [C5] The words of a whole super-block run as the words it was translated
    from: along the path where no branch leaves it, with NOPs in the place of
    the instructions dropped as dead, in all its sub-blocks, the reference
    machine ends in the same state - unless the length limit cut the last
    sub-block short. *)
Theorem super_block_dce psx_pc code fold fuel c r r' :
  comp_loop psx_pc code fold fuel (comp_start code) = Some c -> cut_short c = false -> zlen (r_regs r) = 32 ->
  r_execs (map code (zseq (Z.to_nat (cur c)))) r = Some r' -> r_execs (emitted code c) r = Some r'.
Proof.
  intros E Hcut Hl He. exact (proj1 (comp_loop_sound psx_pc code fold fuel _ c (comp_start_compiling code) E Hcut r r' Hl He)).
Qed.

(** ** The loop ends *)

Record bounded (code : Z -> Z) (c : Comp) : Prop := {
  bd_start : 0 <= sub_block_start c <= cur c;
  bd_cont : 0 <= continuations c <= MAX_CONTINUATIONS;
  bd_taken : zlen (deferred_taken c) = continuations c;
  bd_words : 2 * continuations c <= sub_block_start c;
  bd_where : if in_delay_slot c then 0 < cur c <= MAX_SUPER_INSNS /\ 1 <= cur c - sub_block_start c <= 64 /\ is_jump (code (cur c - 1)) = true
    else cur c < MAX_SUPER_INSNS /\ cur c - sub_block_start c <= 63 /\ branch_type c = 0
}.

(** What holds of a finished block; a conditional branch is at its end only
    when no continuation was left. *)
Record finished (code : Z -> Z) (c : Comp) : Prop := {
  fi_cur : 0 <= cur c <= MAX_SUPER_INSNS + 1;
  fi_sub : 0 <= cur c - sub_block_start c <= 65;
  fi_cont : continuations c <= MAX_CONTINUATIONS;
  fi_taken : zlen (deferred_taken c) = continuations c;
  fi_cond : branch_type c = 4 -> 8 <= cur c \/ (0 < cur c /\ is_jump (code (cur c - 1)) = true)
}.

Lemma emit_insn_shape o c c1 : emit_insn o c = Some c1 -> exists er, c1 = c <| erased := er |>.
Proof.
  unfold emit_insn. intros H. destruct (is_dead c); [injection H as <-; eexists; reflexivity|].
  destruct (is_trap o); [discriminate|]. injection H as <-. exists (erased c). destruct c. reflexivity.
Qed.

Lemma bounded_finished code c : bounded code c -> finished code c.
Proof.
  intros [Hs Hc Ht Hw Hr]. unfold MAX_SUPER_INSNS in *. destruct (in_delay_slot c).
  - destruct Hr as (H1 & H2 & H3). split; unfold MAX_SUPER_INSNS; [lia | lia | lia | exact Ht | intros _; right; split; [lia | exact H3] ].
  - destruct Hr as (H1 & H2 & H3). split; unfold MAX_SUPER_INSNS; [lia | lia | lia | exact Ht | rewrite H3; discriminate].
Qed.

Lemma slot_bounded code c er : bounded code c -> in_delay_slot c = true ->
  let c2 := c <| erased := er |> <| cur ::= Z.succ |> in
  if (branch_type c2 =? 4) && can_continue c2 then bounded code (continue_block code c2) /\ cur (continue_block code c2) = cur c + 1
  else finished code c2.
Proof.
  intros [Hs Hc Ht Hw Hr] Hd. rewrite Hd in Hr. destruct Hr as (H1 & H2 & H3). cbv zeta.
  destruct ((branch_type _ =? 4) && can_continue _) eqn:E.
  - split; [|reflexivity]. apply andb_prop in E as [_ E]. unfold can_continue in E.
    apply andb_prop in E as [E _]. apply andb_prop in E as [E1 E2]. apply Z.ltb_lt in E1, E2.
    change (continuations c < MAX_CONTINUATIONS) in E1. change (4 * Z.succ (cur c) < MAX_SUPER_INSNS * 4) in E2.
    unfold MAX_SUPER_INSNS, MAX_CONTINUATIONS in *. split.
    + change (0 <= Z.succ (cur c) <= Z.succ (cur c)). lia.
    + change (0 <= Z.succ (continuations c) <= 3). lia.
    + change (zlen (deferred_taken c ++ [(jump_to c, block_cycle_count c)]) = Z.succ (continuations c)).
      unfold zlen in *. rewrite length_app. cbn [length]. lia.
    + change (2 * Z.succ (continuations c) <= Z.succ (cur c)). lia.
    + change (Z.succ (cur c) < 200 /\ Z.succ (cur c) - Z.succ (cur c) <= 63 /\ 0 = 0). lia.
  - split.
    + change (0 <= Z.succ (cur c) <= MAX_SUPER_INSNS + 1). unfold MAX_SUPER_INSNS in *. lia.
    + change (0 <= Z.succ (cur c) - sub_block_start c <= 65). lia.
    + exact (proj2 Hc).
    + exact Ht.
    + change (branch_type c = 4 -> 8 <= Z.succ (cur c) \/ (0 < Z.succ (cur c) /\ is_jump (code (Z.succ (cur c) - 1)) = true)).
      intros H4. left. change ((branch_type c =? 4) && can_continue (c <| cur ::= Z.succ |>) = false) in E.
      rewrite H4 in E. cbn [Z.eqb Pos.eqb andb] in E.
      change ((continuations c <? MAX_CONTINUATIONS) && (4 * Z.succ (cur c) <? MAX_SUPER_INSNS * 4) && (zlen (deferred_taken c) <? MAX_CONTINUATIONS) = false) in E.
      rewrite Ht in E. unfold MAX_SUPER_INSNS, MAX_CONTINUATIONS in *. clear -E Hw Hs H2 H1 Hc.
      destruct (Z.ltb_spec (continuations c) 3); [|lia]. destruct (Z.ltb_spec (4 * Z.succ (cur c)) (200 * 4)); [discriminate | lia].
Qed.

Lemma jump_bounded psx_pc code fold c : bounded code c -> in_delay_slot c = false -> is_jump (code (cur c)) = true ->
  bounded code (take_branch psx_pc fold (code (cur c)) c) /\ cur (take_branch psx_pc fold (code (cur c)) c) = cur c + 1.
Proof.
  intros [Hs Hc Ht Hw Hr] Hd Hj. rewrite Hd in Hr. destruct Hr as (H1 & H2 & H3). unfold take_branch. cbv zeta.
  destruct (if (OP (code (cur c)) =? 0x02) || (OP (code (cur c)) =? 0x03) then _ else _) as [ty to]. split; [|reflexivity]. split.
  - change (0 <= sub_block_start c <= Z.succ (cur c)). lia.
  - exact Hc.
  - exact Ht.
  - exact Hw.
  - change (0 < Z.succ (cur c) <= MAX_SUPER_INSNS /\ 1 <= Z.succ (cur c) - sub_block_start c <= 64 /\ is_jump (code (Z.succ (cur c) - 1)) = true).
    replace (Z.succ (cur c) - 1) with (cur c) by lia. split; [lia|]. split; [lia | exact Hj].
Qed.

Lemma plain_bounded code c er : bounded code c -> in_delay_slot c = false ->
  let c2 := c <| erased := er |> <| cur ::= Z.succ |> in
  if (256 <=? 4 * (cur c2 - sub_block_start c2)) || (MAX_SUPER_INSNS * 4 <=? 4 * cur c2) then finished code c2
  else bounded code c2 /\ cur c2 = cur c + 1.
Proof.
  intros [Hs Hc Ht Hw Hr] Hd. rewrite Hd in Hr. destruct Hr as (H1 & H2 & H3). cbv zeta.
  destruct ((256 <=? _) || _) eqn:E.
  - split.
    + change (0 <= Z.succ (cur c) <= MAX_SUPER_INSNS + 1). lia.
    + change (0 <= Z.succ (cur c) - sub_block_start c <= 65). lia.
    + exact (proj2 Hc).
    + exact Ht.
    + intros H4. change (branch_type c = 4) in H4. lia.
  - split; [|reflexivity]. change ((256 <=? 4 * (Z.succ (cur c) - sub_block_start c)) || (MAX_SUPER_INSNS * 4 <=? 4 * Z.succ (cur c)) = false) in E.
    split.
    + change (0 <= sub_block_start c <= Z.succ (cur c)). lia.
    + exact Hc.
    + exact Ht.
    + exact Hw.
    + change (if in_delay_slot c then 0 < Z.succ (cur c) <= MAX_SUPER_INSNS /\ 1 <= Z.succ (cur c) - sub_block_start c <= 64 /\ is_jump (code (Z.succ (cur c) - 1)) = true
        else Z.succ (cur c) < MAX_SUPER_INSNS /\ Z.succ (cur c) - sub_block_start c <= 63 /\ branch_type c = 0).
      rewrite Hd. apply orb_false_iff in E as [E1 E2]. apply Z.leb_gt in E1, E2. unfold MAX_SUPER_INSNS in *.
      split; [lia|]. split; [lia | exact H3].
Qed.

Lemma comp_step_bounded psx_pc code fold c : bounded code c ->
  let '(go, c') := comp_step psx_pc code fold c in
  if go then bounded code c' /\ cur c' = cur c + 1 else finished code c'.
Proof.
  intros H. unfold comp_step. cbv zeta.
  destruct (count_cycles_eq (code (cur c)) c) as (n & g & E). set (c1 := count_cycles (code (cur c)) c) in *.
  assert (H1 : bounded code c1) by (rewrite E; destruct H; split; assumption).
  assert (Ec : cur c = cur c1) by (rewrite E; reflexivity). rewrite Ec. clearbody c1. clear E H Ec c.
  destruct (in_delay_slot c1) eqn:Ed.
  - destruct (emit_insn (code (cur c1)) c1) as [c2|] eqn:He; [|apply bounded_finished, H1].
    destruct (emit_insn_shape _ _ _ He) as (er & ->). pose proof (slot_bounded code c1 er H1 Ed) as Hs. cbv zeta in Hs.
    destruct (_ && _); exact Hs.
  - destruct (is_jump (code (cur c1))) eqn:Ej; [apply jump_bounded; assumption|].
    destruct (emit_insn (code (cur c1)) c1) as [c2|] eqn:He; [|apply bounded_finished, H1].
    destruct (emit_insn_shape _ _ _ He) as (er & ->). pose proof (plain_bounded code c1 er H1 Ed) as Hs. cbv zeta in Hs.
    destruct (_ || _); exact Hs.
Qed.

Lemma bounded_cur code c : bounded code c -> 0 <= cur c <= 200.
Proof. intros [Hs Hc Ht Hw Hr]. unfold MAX_SUPER_INSNS in *. destruct (in_delay_slot c); lia. Qed.

Lemma comp_loop_finished psx_pc code fold fuel : forall c, bounded code c -> 200 < cur c + Z.of_nat fuel ->
  exists c', comp_loop psx_pc code fold fuel c = Some c' /\ finished code c'.
Proof.
  induction fuel as [|fuel IH]; intros c H Hf; pose proof (bounded_cur code c H) as Hc; [lia|].
  cbn [comp_loop]. pose proof (comp_step_bounded psx_pc code fold c H) as Hs.
  destruct (comp_step psx_pc code fold c) as [ [|] c1].
  - destruct Hs as [Hb Hn]. apply IH; [exact Hb | lia].
  - exists c1. split; [reflexivity | exact Hs].
Qed.

Lemma comp_start_bounded code : bounded code (comp_start code).
Proof. split; cbn; unfold MAX_CONTINUATIONS, MAX_SUPER_INSNS; try lia; try reflexivity. Qed.

(** [C26] Compilation ends, whatever the code: after at most 201 turns of the
    loop the block is closed, with at most 201 words, at most 65 of them since
    the last continuation, and at most three continuations, each with its
    deferred exit. *)
Theorem comp_loop_ends psx_pc code fold : exists c, comp_loop psx_pc code fold 201 (comp_start code) = Some c /\
  0 <= cur c <= 201 /\ cur c - sub_block_start c <= 65 /\ continuations c <= 3 /\ zlen (deferred_taken c) = continuations c.
Proof.
  destruct (comp_loop_finished psx_pc code fold 201 (comp_start code) (comp_start_bounded code) ltac:(cbn; lia)) as (c & E & [H1 H2 H3 H4 _]).
  exists c. split; [exact E|]. unfold MAX_SUPER_INSNS, MAX_CONTINUATIONS in *. repeat split; lia.
Qed.

(** The loop is deterministic in its fuel. *)
Lemma comp_loop_more psx_pc code fold n : forall m c c' c'', comp_loop psx_pc code fold n c = Some c' ->
  comp_loop psx_pc code fold m c = Some c'' -> c' = c''.
Proof.
  induction n as [|n IH]; intros m c c' c'' E1 E2; [discriminate|]. destruct m as [|m]; [discriminate|]. cbn [comp_loop] in *.
  destruct (comp_step psx_pc code fold c) as [ [|] c1]; [exact (IH m c1 c' c'' E1 E2) | congruence].
Qed.

(** The countdown and zero-fill loops are never recognised: a conditional
    branch that could close such a loop of three or four words always opens a
    continuation instead, so no finished block is marked with idle kind 3 or
    with a pattern. *)
Theorem idle_patterns_unreachable psx_pc code fold fuel c : comp_loop psx_pc code fold fuel (comp_start code) = Some c ->
  is_idle psx_pc code c <> 3 /\ block_pattern psx_pc code c = 0.
Proof.
  intros E. destruct (comp_loop_finished psx_pc code fold 201 (comp_start code) (comp_start_bounded code) ltac:(cbn; lia)) as (c' & E' & Hf).
  rewrite <- (comp_loop_more _ _ _ _ _ _ _ _ E E') in Hf. pose proof (fi_cond code c Hf) as Hb. clear E E' Hf.
  assert (Hz : forall i, is_jump (code i) = true -> code i <> 0) by (intros i Hj E0; rewrite E0 in Hj; discriminate Hj).
  assert (Hk : branch_kind psx_pc c = 2 -> branch_type c = 4).
  { unfold branch_kind. destruct (_ && _); [discriminate|]. destruct (Z.eqb_spec (branch_type c) 4); [auto | discriminate]. }
  assert (Hr : 0 <= branch_kind psx_pc c <= 2) by (unfold branch_kind; repeat (destruct (_ && _)); lia).
  assert (Ht : branch_type c = 4 -> (cur c =? 3) && is_timeout code = false /\ (cur c =? 4) && negb (zfill_limit code =? 0) = false).
  { intros H4. destruct (Hb H4) as [H8|[Hp Hj] ].
    - rewrite (proj2 (Z.eqb_neq (cur c) 3)), (proj2 (Z.eqb_neq (cur c) 4)) by lia. split; reflexivity.
    - apply Hz in Hj. split.
      + destruct (Z.eqb_spec (cur c) 3) as [E3|E3]; [|reflexivity]. rewrite E3 in Hj. change (3 - 1) with 2 in Hj.
        unfold is_timeout. rewrite (proj2 (Z.eqb_neq _ _) Hj). apply andb_false_r.
      + destruct (Z.eqb_spec (cur c) 4) as [E4|E4]; [|reflexivity]. rewrite E4 in Hj. change (4 - 1) with 3 in Hj.
        unfold zfill_limit. rewrite (proj2 (Z.eqb_neq _ _) Hj), andb_false_r. reflexivity. }
  split.
  - unfold is_idle. destruct (existsb _ _); [cbn; lia|]. destruct (Z.eqb_spec (branch_kind psx_pc c) 2) as [E2|E2]; [|cbn; lia].
    cbn [andb]. rewrite (proj1 (Ht (Hk E2))), E2. lia.
  - unfold block_pattern. destruct (Z.eqb_spec (branch_type c) 4) as [H4|H4]; [|reflexivity].
    rewrite <- andb_assoc, (proj2 (Ht H4)), andb_false_r. reflexivity.
Qed.

(** ** Concrete blocks *)

Definition idle_cpu : R3000A := mkR3000A 0x80010000 0x80010004 (repeat 0 32) None 0 0 ∅.

(** LUI t0, 1; LUI t0, 2; BEQ t0, zero, +4; NOP; ADDIU t1, zero, 5;
    LUI t1, 3; JR ra; NOP. *)
Definition demo_code (i : Z) : Z :=
  aget [0x3C080001; 0x3C080002; 0x11000004; 0; 0x24090005; 0x3C090003; 0x03E00008; 0] i.

Definition demo_block : Comp := default (comp_start demo_code) (comp_loop 0x80010000 demo_code (fun _ => None) 201 (comp_start demo_code)).

Lemma super_block_dce_witness :
  erased demo_block = [0; 4] /\ cur demo_block = 8 /\
  exists r', r_execs (emitted demo_code demo_block) idle_cpu = Some r' /\ aget (r_regs r') 8 = 0x20000 /\ aget (r_regs r') 9 = 0x30000.
Proof.
  split; [vm_compute; reflexivity|]. split; [vm_compute; reflexivity|].
  destruct (r_execs (map demo_code (zseq 8)) idle_cpu) as [r'|] eqn:E; [|exfalso; revert E; vm_compute; discriminate].
  exists r'. split; [|revert E; vm_compute; intros E; injection E as <-; split; reflexivity].
  apply (super_block_dce 0x80010000 demo_code (fun _ => None) 201 demo_block idle_cpu r'); [vm_compute; reflexivity | vm_compute; reflexivity | reflexivity |].
  change (Z.to_nat (cur demo_block)) with 8%nat. exact E.
Defined.

Lemma idle_patterns_unreachable_witness :
  is_idle 0x80010000 demo_code demo_block <> 3 /\ block_pattern 0x80010000 demo_code demo_block = 0.
Proof. apply (idle_patterns_unreachable 0x80010000 demo_code (fun _ => None) 201). vm_compute. reflexivity. Defined.

(** LUI t0, 0x7FFF; ADD t1, t0, t0; LUI t1, 1; JR ra; NOP. *)
Definition overflow_code (i : Z) : Z := aget [0x3C087FFF; 0x01084820; 0x3C090001; 0x03E00008; 0] i.

(** A dead addition takes its overflow exception with it: the block
    raises on the processor at its second instruction and runs through when
    recompiled. *)
Theorem dead_add_loses_overflow :
  let s := block_scan overflow_code SCAN_MAX_INSNS in
  dce_dead_mask s = 2 /\ r_execs (block_code overflow_code 2) idle_cpu = None /\
  exists r', r_execs (pruned_code overflow_code s) idle_cpu = Some r' /\ aget (r_regs r') 9 = 0x10000.
Proof.
  split; [vm_compute; reflexivity|]. split; [vm_compute; reflexivity|].
  eexists. split; vm_compute; reflexivity.
Qed.

(** Three sub-blocks of 62 words, then ADDIU t1, zero, 5 and, past the limit of
    200 words, LUI t1, 1. *)
Definition long_code (i : Z) : Z :=
  if (i =? 60) || (i =? 122) || (i =? 184) then 0x15000004
  else if i =? 190 then 0x24090005 else if i =? 220 then 0x3C090001 else 0.
Definition long_block : Comp := default (comp_start long_code) (comp_loop 0x80010000 long_code (fun _ => None) 201 (comp_start long_code)).

(** The exception is real: when the limit of 200 words cuts a sub-block
    that was scanned further, a register counted as dead may be live where the
    block now ends; here [t1] leaves the block stale. *)
Theorem cut_block_stale :
  cut_short long_block = true /\ cur long_block = 200 /\ erased long_block = [190] /\
  exists r1 r2, r_execs (map long_code (zseq 200)) idle_cpu = Some r1 /\ r_execs (emitted long_code long_block) idle_cpu = Some r2 /\
    aget (r_regs r1) 9 = 5 /\ aget (r_regs r2) 9 = 0.
Proof.
  split; [vm_compute; reflexivity|]. split; [vm_compute; reflexivity|]. split; [vm_compute; reflexivity|].
  do 2 eexists. split; [vm_compute; reflexivity|]. split; [vm_compute; reflexivity|]. split; vm_compute; reflexivity.
Qed.

(** ** Constants found before the block *)

(** The [n] words before the block, in order. *)
Fixpoint words_before (n : nat) (code : Z -> Z) : list Z :=
  match n with O => [] | S n => code (- Z.of_nat (S n)) :: words_before n code end.

(** Register [rt] holds [v], whatever load is still on its way. *)
Definition holds (rt v : Z) (r : R3000A) : Prop :=
  zlen (r_regs r) = 32 /\ aget (r_regs r) rt = v /\ match r_load r with Some (d, _) => 0 <= d /\ d <> rt | None => True end.

Lemma lui_writes_effect o rgs load h l next m e w : instruction_effect rgs load h l next m o = Some e -> lui_scan_writes o = Some w ->
  0 <= written e < 32 /\ (written e = 0 \/ Z.testbit w (written e) = true) /\
  match e with ELoad rt _ => 0 <= rt < 32 /\ (rt = 0 \/ Z.testbit w rt = true) | EJump _ _ _ _ => False | _ => True end.
Proof.
  intros He. pose proof (written_range _ _ _ _ _ _ _ _ He) as Hw. revert He.
  pose proof (reg_bit_spec (RD o) (proj1 (RD_range o))) as Bd. pose proof (reg_bit_spec (RT o) (proj1 (RT_range o))) as Bt.
  pose proof (RT_range o) as Rt.
  unfold instruction_effect, special_effect, regimm_effect, memory_effect, sum_or_trap, branch, lui_scan_writes, between.
  remember (OP o) as op. remember (FUNCT o) as func.
  dispatch; repeat lazymatch goal with
    | |- (if ?b then Some _ else None) = Some _ -> _ => let Hg := fresh in intros Hg; apply guarded in Hg as [_ ->]
    end; try (intros E0; apply Some_inj in E0; subst e); cbn in *; intros Ew; try discriminate; try (injection Ew as <-);
    (split; [lia|]); split; auto.
Qed.

Lemma aget_aset_other l d rt x : 0 <= d -> 0 <= rt -> d <> rt -> aget (aset l d x) rt = aget l rt.
Proof. intros Hd Hr Hn. apply aget_aset_ne; lia. Qed.

(** A scanned word that does not write the register leaves it. *)
Lemma holds_step o r r' rt v w : 0 < rt < 32 -> holds rt v r -> r_exec o r = Some r' -> lui_scan_writes o = Some w ->
  Z.testbit w rt = false -> holds rt v r'.
Proof.
  intros Hrt (Hl & Hv & Hd) He Hw Hb. unfold r_exec in He. destruct (r_effect o r) as [e|] eqn:Hef; [|discriminate].
  destruct (lui_writes_effect _ _ _ _ _ _ _ _ _ Hef Hw) as (Hr & Hwr & Hx).
  assert (Hexec : r_execs [o] r = Some r') by (cbn [r_execs]; unfold r_exec; rewrite Hef, He; reflexivity).
  split; [exact (proj2 (same_run_word o r r' Hl Hexec))|]. pose proof (apply_registers e r r' He) as Hregs.
  assert (Hload : r_load r' = load_after e).
  { unfold r_apply in He. destruct (match e with EJump b t _ _ => (b, t) | _ => (false, 0) end) as [b t].
    destruct (b && negb (r_npc r =? u32 (r_pc r + 4))); [discriminate|]. injection He as <-. reflexivity. }
  split.
  - assert (Hs : aget (settle e (r_load r) (r_regs r)) rt = v).
    { unfold settle. destruct (r_load r) as [ [d x]|]; [|exact Hv]. destruct (_ && _); [exact Hv|].
      destruct Hd as [Hd Hn]. rewrite aget_aset_other; [exact Hv | exact Hd | lia | exact Hn]. }
    assert (Hput : forall rd x, written e = rd -> aget (put rd x (settle e (r_load r) (r_regs r))) rt = v).
    { intros rd x E. rewrite E in Hr, Hwr. unfold put. destruct (Z.eqb_spec rd 0) as [|Hn]; [exact Hs|].
      rewrite aget_aset_other; [exact Hs | lia | lia |]. intros ->. destruct Hwr; congruence. }
    rewrite Hregs, registers_after_settle. destruct e; try exact Hs; apply Hput; reflexivity.
  - rewrite Hload. destruct e as [?|d x|?|?|?]; cbn; trivial. destruct (Z.eqb_spec d 0) as [|Hn]; [trivial|].
    destruct Hx as (Hx & Hz). split; [lia|]. intros ->. destruct Hz; congruence.
Qed.

(** LUI sets it. *)
Lemma lui_exec o r r' : OP o = 0x0F -> RT o <> 0 -> zlen (r_regs r) = 32 -> r_exec o r = Some r' -> holds (RT o) (u32 (Z.shiftl (IMM o) 16)) r'.
Proof.
  intros Ho Hz Hl He. pose proof (same_run_word o r r' Hl) as Hlen. cbn [r_execs] in Hlen. rewrite He in Hlen.
  unfold r_exec, r_effect, instruction_effect in He. rewrite Ho in He. cbn in He. injection He as <-.
  split; [exact (proj2 (Hlen eq_refl))|]. cbn [r_regs r_load]. split; [|exact I].
  unfold put. rewrite (proj2 (Z.eqb_neq _ _) Hz). pose proof (RT_range o) as Hr.
  assert (Hb : 0 <= IMM o < 65536) by (unfold IMM; change 65535 with (Z.ones 16); rewrite Z.land_ones by lia; apply Z.mod_pos_bound; lia).
  rewrite aget_aset_eq.
  - rewrite Z.shiftl_mul_pow2 by lia. rewrite u32_small; [reflexivity|]. unfold is_u32. change (2 ^ 16) with 65536. lia.
  - destruct (r_load r) as [ [d x]|]; rewrite ?zlen_aset; lia.
Qed.

(** What the scan knows of a seed. *)
Lemma lui_scan_spec n code bw rt v : forall i written, In (rt, v) (lui_scan n i written bw code) ->
  exists j w, (j < n)%nat /\ OP (code (- (i + Z.of_nat j))) = 0x0F /\ RT (code (- (i + Z.of_nat j))) = rt /\ rt <> 0 /\
    v = u32 (Z.shiftl (IMM (code (- (i + Z.of_nat j)))) 16) /\ lui_scan_writes (code (- (i + Z.of_nat j))) = Some w /\
    Z.testbit written rt = false /\
    forall k, (k < j)%nat -> exists w, lui_scan_writes (code (- (i + Z.of_nat k))) = Some w /\ Z.testbit w rt = false.
Proof.
  induction n as [|n IH]; intros i written Hin; [destruct Hin|]. cbn [lui_scan] in Hin.
  destruct (lui_scan_writes (code (- i))) as [w|] eqn:Ew; [|destruct Hin]. apply in_app_or in Hin as [Hin|Hin].
  - destruct (_ && _) eqn:E; [|destruct Hin]. destruct Hin as [Hin|[] ]. injection Hin as Hrt Hv.
    apply andb_prop in E as [E _]. apply andb_prop in E as [E Hb]. apply andb_prop in E as [Ho Hz].
    apply Z.eqb_eq in Ho. apply negb_true_iff in Hz, Hb. apply Z.eqb_neq in Hz. exists 0%nat, w. rewrite Z.add_0_r. subst rt.
    split; [lia|]. split; [exact Ho|]. split; [reflexivity|]. split; [exact Hz|]. split; [symmetry; exact Hv|].
    split; [exact Ew|]. split; [exact Hb | intros; lia].
  - destruct (IH _ _ Hin) as (j & w' & Hj & Ho & Ht & Hz & Hv & Hw & Hb & Hk). exists (S j), w'.
    replace (i + Z.of_nat (S j)) with (i + 1 + Z.of_nat j) by lia. rewrite Z.lor_spec in Hb. apply orb_false_iff in Hb as [Hb Hb2].
    split; [lia|]. split; [exact Ho|]. split; [exact Ht|]. split; [exact Hz|]. split; [exact Hv|]. split; [exact Hw|]. split; [exact Hb|].
    intros [|k] Hlt; [exists w; rewrite Z.add_0_r; split; assumption|].
    replace (i + Z.of_nat (S k)) with (i + 1 + Z.of_nat k) by lia. apply Hk. lia.
Qed.

Lemma holds_run n code rt v : 0 < rt < 32 ->
  (forall k, (k < n)%nat -> exists w, lui_scan_writes (code (- (1 + Z.of_nat k))) = Some w /\ Z.testbit w rt = false) ->
  forall r r', holds rt v r -> r_execs (words_before n code) r = Some r' -> holds rt v r'.
Proof.
  intros Hrt. induction n as [|n IH]; intros Hk r r' Hh He; [injection He as <-; exact Hh|].
  cbn [words_before r_execs] in He. destruct (r_exec _ r) as [m|] eqn:Em; [|discriminate].
  destruct (Hk n ltac:(lia)) as (w & Hw & Hb). replace (- Z.of_nat (S n)) with (- (1 + Z.of_nat n)) in Em by lia.
  apply (IH (fun k Hlt => Hk k ltac:(lia)) m r'); [exact (holds_step _ r m rt v w Hrt Hh Em Hw Hb) | exact He].
Qed.

Lemma execs_length l : forall r r', zlen (r_regs r) = 32 -> r_execs l r = Some r' -> zlen (r_regs r') = 32.
Proof.
  intros r r' Hl He. exact (proj2 (same_run_erase l r r' Hl He)).
Qed.

Lemma words_before_split n m code : (m < n)%nat -> exists l, words_before n code = l ++ code (- Z.of_nat (S m)) :: words_before m code.
Proof.
  induction n as [|n IH]; intros Hm; [lia|]. destruct (Nat.eq_dec m n) as [->|Hn]; [exists []; reflexivity|].
  destruct (IH ltac:(lia)) as [l E]. exists (code (- Z.of_nat (S n)) :: l). cbn [words_before]. rewrite E. reflexivity.
Qed.

(** [C28] The constants are right where the block is entered from above, for
    windows the reference processor runs, which have no coprocessor
    instruction: when the processor runs the words before the block one after
    the other, every register the scan seeds holds its value at the entry, and
    no load is on its way to it.  (A CFC2 in the window is a finding.) *)
Theorem lui_scan_sound psx_pc code s r r' rt v :
  zlen (r_regs r) = 32 -> r_execs (words_before (Z.to_nat (lui_max_back (Z.land psx_pc 0x1FFFFFFF))) code) r = Some r' ->
  In (rt, v) (scan_backwards_for_lui psx_pc code s) -> holds rt v r' /\ Z.testbit (regs_written_mask s) rt = false.
Proof.
  intros Hl He Hin. unfold scan_backwards_for_lui in Hin. set (n := Z.to_nat _) in *.
  split; [|clear He; revert Hin; generalize 0 as written; generalize 1 as i; induction n as [|n IH]; intros i written Hin; [destruct Hin|];
    cbn [lui_scan] in Hin; destruct (lui_scan_writes _); [|destruct Hin]; apply in_app_or in Hin as [Hin|Hin]; [|exact (IH _ _ Hin)];
    destruct (_ && _) eqn:E; [|destruct Hin]; destruct Hin as [Hin|[] ]; injection Hin as <- _; apply andb_prop in E as [_ E]; apply negb_true_iff in E; exact E].
  destruct (lui_scan_spec n code _ rt v 1 0 Hin) as (j & w & Hj & Ho & Ht & Hz & -> & _ & _ & Hk).
  destruct (words_before_split n j code Hj) as [l E]. rewrite E, r_execs_app in He.
  destruct (r_execs l r) as [m|] eqn:Em; [|discriminate]. cbn [r_execs] in He.
  replace (- Z.of_nat (S j)) with (- (1 + Z.of_nat j)) in He by lia. destruct (r_exec _ m) as [m1|] eqn:E1; [|discriminate].
  pose proof (RT_range (code (- (1 + Z.of_nat j)))) as Hr. subst rt.
  pose proof (lui_exec _ m m1 Ho Hz (execs_length _ _ _ Hl Em) E1) as Hh.
  assert (Hrt : 0 < RT (code (- (1 + Z.of_nat j))) < 32) by lia.
  exact (holds_run j code _ _ Hrt Hk m1 r' Hh He).
Qed.

(** LUI t0, 0x8001; LUI t1, 2; ADDU t1, t0, zero; NOP before the block. *)
Definition entry_code (i : Z) : Z :=
  if i =? -4 then 0x3C088001 else if i =? -3 then 0x3C090002 else if i =? -2 then 0x01004821 else 0.

Lemma lui_scan_sound_witness :
  scan_backwards_for_lui 0x80010000 entry_code (block_scan entry_code 64) = [(8, 0x80010000)] /\
  exists r', r_execs (words_before 8 entry_code) idle_cpu = Some r' /\ aget (r_regs r') 8 = 0x80010000.
Proof.
  split; [vm_compute; reflexivity|].
  destruct (r_execs (words_before 8 entry_code) idle_cpu) as [r'|] eqn:E; [|exfalso; revert E; vm_compute; discriminate].
  exists r'. split; [reflexivity|].
  refine (proj1 (proj2 (proj1 (lui_scan_sound 0x80010000 entry_code (block_scan entry_code 64) idle_cpu r' 8 0x80010000 _ _ _)))).
  - reflexivity.
  - exact E.
  - vm_compute. left. reflexivity.
Defined.
