(* ===== verification/LoadDelay.v ===== *)
(** * The load delay slot in recompiled code

    What the emitted sequence of [Recompiler.v] does to a machine with a
    [load_delay_val], against the pending load of the reference processor. *)

From S2P Require Import Prelude Scheduler System Cpu Memory Gte Interpreter InterpSafe InterpRef Recompiler RecompMath.

(** ** The emitted code on the host

    [h_cpu] has no pending load of its own; [h_v0] is the host register a held
    load leaves its value in. *)

Record host := mkHost { h_cpu : R3000A; h_delay_val : Z; h_v0 : Z }.

Definition no_load (r : R3000A) : R3000A := mkR3000A (r_pc r) (r_npc r) (r_regs r) None (r_hi r) (r_lo r) (r_mem r).

Definition h_insn (o : Z) (defer lwx : bool) (h : host) : option host :=
  let c := h_cpu h in
  match instruction_effect (r_regs c) (if lwx then Some (RT o, h_delay_val h) else None) (r_hi c) (r_lo c) (u32 (r_pc c + 4)) (r_mem c) o with
  | None => None
  | Some e =>
    match r_apply e c with
    | None => None
    | Some c' =>
      match e with
      | ELoad rt v =>
        if defer then Some (mkHost (no_load c') (h_delay_val h) v)
        else Some (mkHost (with_regs (put rt v (r_regs c')) (no_load c')) (h_delay_val h) (h_v0 h))
      | _ => Some (mkHost c' (h_delay_val h) (h_v0 h))
      end
    end
  end.

Definition h_exec (d : delay_op) (h : host) : option host :=
  match d with
  | LandLoad r => Some (mkHost (with_regs (aset (r_regs (h_cpu h)) r (h_delay_val h)) (h_cpu h)) (h_delay_val h) (h_v0 h))
  | HoldLoad => Some (mkHost (h_cpu h) (h_v0 h) (h_v0 h))
  | Insn o defer lwx => h_insn o defer lwx h
  end.

Fixpoint h_execs (l : list delay_op) (h : host) : option host :=
  match l with
  | [] => Some h
  | d :: l => match h_exec d h with None => None | Some h => h_execs l h end
  end.

Lemma h_execs_app l1 l2 h : h_execs (l1 ++ l2) h = match h_execs l1 h with None => None | Some h => h_execs l2 h end.
Proof. revert h. induction l1 as [|d l1 IH]; intros h; cbn; [reflexivity|]. destruct (h_exec d h); [apply IH | reflexivity]. Qed.

(** The processor with its pending load landed. *)
Definition landed (r : R3000A) : R3000A :=
  match r_load r with Some (d, v) => with_regs (aset (r_regs r) d v) (no_load r) | None => r end.

(** ** What the analysis sees of an instruction *)

(** Shifts by a constant whose unused [rs] field names their operand escape
    [instruction_reads_gpr]. *)
Definition clean (o : Z) : bool :=
  negb ((OP o =? 0) && ((FUNCT o =? 0) || (FUNCT o =? 2) || (FUNCT o =? 3)) && (RS o =? RT o) && negb (RT o =? 0)).

Lemma reg_bit_not r d : 0 <= r -> r <> d -> Z.testbit (reg_bit r) d = false.
Proof. intros Hr Hn. apply reg_bit_other; congruence. Qed.

Lemma reads_covers o d rgs load h l next m e : clean o = true -> instruction_effect rgs load h l next m o = Some e -> d <> 0 ->
  instruction_reads_gpr o d = false -> Z.testbit (dce_read_mask o) d = false.
Proof.
  intros Hc He Hd Hr. revert Hc He Hr.
  pose proof (reg_bit_not (RS o) d (proj1 (RS_range o))) as Bs. pose proof (reg_bit_not (RT o) d (proj1 (RT_range o))) as Bt.
  unfold instruction_effect, special_effect, regimm_effect, memory_effect, sum_or_trap, branch, instruction_reads_gpr, dce_read_mask, clean, between.
  rewrite (proj2 (Z.eqb_neq d 0) Hd). set (rs := reg_bit (RS o)) in *. set (rt := reg_bit (RT o)) in *. clearbody rs rt.
  assert (Ls : RS o <> d -> RT o <> d -> Z.testbit (Z.lor rs rt) d = false) by (intros Hs Ht; rewrite Z.lor_spec, Bs, Bt by assumption; reflexivity).
  destruct (Z.eqb_spec (RS o) d) as [Es|Es], (Z.eqb_spec (RT o) d) as [Et|Et], (Z.eqb_spec (RS o) (RT o)) as [Est|Est], (Z.eqb_spec (RT o) 0) as [E0|E0];
    try congruence; intros Hc He; revert Hc; revert He; remember (OP o) as op; remember (FUNCT o) as func;
    dispatch; intros _; cbn; intros Hc Hr; try discriminate; try apply Z.bits_0; auto.
Qed.

(** Splits on the instruction, all the equations about it at once. *)
Ltac each_effect := dispatch; repeat lazymatch goal with
    | |- (if ?b then Some _ else None) = Some _ -> _ => let Hg := fresh in intros Hg; apply guarded in Hg as [_ ->]
    end; try effect_is.

(** Loads are the effects of the load opcodes, jumps those of the jumps. *)
Lemma effect_kind o rgs load h l next m e : instruction_effect rgs load h l next m o = Some e ->
  match e with
  | ELoad rt _ => is_load o = true /\ is_jump o = false /\ rt = RT o
  | EJump _ _ rd _ => is_load o = false /\ is_jump o = true /\ rd = dce_dest_gpr o
  | _ => is_load o = false /\ is_jump o = false
  end.
Proof.
  unfold instruction_effect, special_effect, regimm_effect, memory_effect, sum_or_trap, branch, is_load, is_jump, dce_dest_gpr, between.
  remember (OP o) as op. remember (FUNCT o) as func. each_effect; cbn; repeat split; reflexivity.
Qed.

Lemma effect_writes o rgs load h l next m e d : instruction_effect rgs load h l next m o = Some e -> d <> 0 -> is_jump o = false ->
  jit_instruction_writes_gpr o d = match e with ELoad rt _ => rt =? d | _ => written e =? d end.
Proof.
  intros He Hd. revert He. unfold instruction_effect, special_effect, regimm_effect, memory_effect, sum_or_trap, branch,
    is_jump, jit_instruction_writes_gpr, between.
  rewrite (proj2 (Z.eqb_neq d 0) Hd).
  remember (OP o) as op. remember (FUNCT o) as func. each_effect; cbn; intros Hj; first [congruence | destruct d; congruence].
Qed.

(** Only the merging loads look at the pending one. *)
Definition merges (o : Z) : bool := (OP o =? 0x22) || (OP o =? 0x26).
Definition pending_for (load : option (Z * Z)) (r : Z) : option Z :=
  match load with Some (d, v) => if d =? r then Some v else None | None => None end.

Lemma effect_pending o rgs l1 l2 h l next m : (merges o = true -> pending_for l1 (RT o) = pending_for l2 (RT o)) ->
  instruction_effect rgs l1 h l next m o = instruction_effect rgs l2 h l next m o.
Proof.
  intros H. unfold merges in H. destruct (Z.eqb_spec (OP o) 0x22) as [E|E]; [|destruct (Z.eqb_spec (OP o) 0x26) as [E'|E'] ].
  - specialize (H eq_refl). unfold instruction_effect, memory_effect. rewrite E. unfold pending_for in H. revert H.
    destruct l1 as [ [d1 v1]|], l2 as [ [d2 v2]|]; try destruct (d1 =? RT o); try destruct (d2 =? RT o); intros H; try discriminate; try injection H as ->; reflexivity.
  - specialize (H eq_refl). unfold instruction_effect, memory_effect. rewrite E'. unfold pending_for in H. revert H.
    destruct l1 as [ [d1 v1]|], l2 as [ [d2 v2]|]; try destruct (d1 =? RT o); try destruct (d2 =? RT o); intros H; try discriminate; try injection H as ->; reflexivity.
  - unfold instruction_effect, memory_effect. remember (OP o) as op. dispatch_eq; try reflexivity; contradiction.
Qed.

(** A merging load reads its own register. *)
Lemma merges_reads o d : merges o = true -> RT o = d -> d <> 0 -> instruction_reads_gpr o d = true.
Proof.
  unfold merges, instruction_reads_gpr. intros Hm Ht Hd. rewrite (proj2 (Z.eqb_neq d 0) Hd), Ht, Z.eqb_refl.
  apply orb_prop in Hm as [E|E]; apply Z.eqb_eq in E; rewrite E; cbn; destruct (RS o =? d); reflexivity.
Qed.

(** ** Writing registers in either order *)

Lemma put_aset_comm r v d x l : r <> d -> 0 <= r -> 0 <= d -> aset (put r v l) d x = put r v (aset l d x).
Proof.
  intros Hn Hr Hd. unfold put, aset. destruct (r =? 0); [reflexivity|]. apply list_insert_insert_ne. lia.
Qed.

Lemma put_aset_same r v x l : r <> 0 -> put r v (aset l r x) = put r v l.
Proof. intros Hr. unfold put, aset. destruct (Z.eqb_spec r 0); [contradiction|]. apply list_insert_insert_eq. Qed.

(** ** One instruction on the host *)

(** The registers an effect writes at once, a load included or not. *)
Definition written_now (e : effect) (l : list Z) : list Z := match e with EWrite rd v | EJump _ _ rd v => put rd v l | _ => l end.
Definition written_all (e : effect) (l : list Z) : list Z := match e with ELoad rt v => put rt v l | _ => written_now e l end.

Definition same_load (e : effect) (d : Z) : bool := match e with ELoad rt _ => rt =? d | _ => false end.

Lemma registers_after_some e d v l : registers_after e (Some (d, v)) l = written_now e (if same_load e d then l else aset l d v).
Proof. destruct e; reflexivity. Qed.

Lemma registers_after_none e l : registers_after e None l = written_now e l.
Proof. destruct e; reflexivity. Qed.

Lemma apply_fields e r r' : r_apply e r = Some r' ->
  r_regs r' = registers_after e (r_load r) (r_regs r) /\ r_load r' = load_after e /\
  forall l, r_apply e (with_regs l (no_load r)) = Some (with_regs (written_now e l) r').
Proof.
  unfold r_apply. destruct (match e with EJump b t _ _ => (b, t) | _ => (false, 0) end) as [b t].
  cbn [r_pc r_npc with_regs no_load r_regs r_load r_hi r_lo r_mem].
  intros H. destruct (b && negb (r_npc r =? u32 (r_pc r + 4))) eqn:Eb; [discriminate|]. injection H as <-. cbn [r_regs r_load].
  split; [reflexivity|]. split; [reflexivity|]. intros l. rewrite registers_after_none. reflexivity.
Qed.

(** [h] runs the instruction [r] runs when it sees the same operands. *)
Lemma h_insn_run o (defer lwx : bool) h r r' e l : h_cpu h = with_regs l (no_load r) -> r_apply e r = Some r' ->
  instruction_effect l (if lwx then Some (RT o, h_delay_val h) else None) (r_hi r) (r_lo r) (u32 (r_pc r + 4)) (r_mem r) o = Some e ->
  h_insn o defer lwx h = Some (match e with
    | ELoad rt v => if defer then mkHost (with_regs l (no_load r')) (h_delay_val h) v
                    else mkHost (with_regs (put rt v l) (no_load r')) (h_delay_val h) (h_v0 h)
    | _ => mkHost (with_regs (written_now e l) (no_load r')) (h_delay_val h) (h_v0 h)
    end).
Proof.
  intros Hc Ha He. unfold h_insn. rewrite Hc. cbn [with_regs no_load r_regs r_load r_hi r_lo r_pc r_mem]. rewrite He.
  destruct (apply_fields e r r' Ha) as (_ & Hl & Hx).
  change (mkR3000A (r_pc r) (r_npc r) l None (r_hi r) (r_lo r) (r_mem r)) with (with_regs l (no_load r)). rewrite Hx.
  destruct e; cbn in Hl; try (destruct defer; reflexivity); unfold with_regs, no_load; cbn [r_pc r_npc r_hi r_lo r_mem r_load];
    rewrite Hl; reflexivity.
Qed.

(** ** The host follows the processor *)

(** A load that landed at once is not missed by the next instruction. *)
Definition quiet (o : Z) (r : R3000A) : Prop := match r_load r with
  | Some (d, _) => d <> 0 /\ 0 <= d < 32 /\ instruction_reads_gpr o d = false /\ (is_load o = true -> RT o <> d)
  | None => True end.

Inductive tracks (o : Z) (r : R3000A) (h : host) : Z * bool -> Prop :=
| tracks_none : h_cpu h = landed r -> quiet o r -> tracks o r h (0, false)
| tracks_held reg : reg <> 0 -> 0 <= reg < 32 -> r_load r = Some (reg, h_delay_val h) -> h_cpu h = no_load r -> tracks o r h (reg, false)
| tracks_due reg : reg <> 0 -> 0 <= reg < 32 ->
    h_cpu h = with_regs (r_regs (h_cpu h)) (landed r) -> aset (r_regs (h_cpu h)) reg (h_delay_val h) = r_regs (landed r) ->
    quiet o r -> tracks o r h (reg, true).

Lemma landed_shape r : landed r = with_regs (r_regs (landed r)) (no_load r).
Proof. unfold landed. destruct r as [a b c [ [d v]|] e f g]; reflexivity. Qed.

Lemma landed_none r : r_load r = None -> landed r = r /\ no_load r = r.
Proof. unfold landed. destruct r; cbn. intros ->. split; reflexivity. Qed.

Lemma effect_landed o r e : clean o = true -> quiet o r -> zlen (r_regs r) = 32 -> r_effect o r = Some e ->
  instruction_effect (r_regs (landed r)) None (r_hi r) (r_lo r) (u32 (r_pc r + 4)) (r_mem r) o = Some e.
Proof.
  intros Hc Hq Hl He. unfold r_effect in He. unfold quiet, landed in *. destruct (r_load r) as [ [d v]|] eqn:Er; [|exact He].
  destruct Hq as (Hd & Hr & Hn & Hrt). cbn [with_regs r_regs].
  pose proof (reads_covers o d _ _ _ _ _ _ _ Hc He Hd Hn) as Hm.
  rewrite (effect_pending o _ None (Some (d, v))).
  2: { unfold pending_for. destruct (Z.eqb_spec d (RT o)) as [E|E]; [|reflexivity]. intros Hg.
       rewrite (merges_reads o d Hg (eq_sym E) Hd) in Hn. discriminate. }
  rewrite (effect_agree o _ (r_regs r)); [exact He|]. split; [rewrite zlen_aset; exact Hl | exact Hl|].
  intros i Hi Hb. apply aget_aset_ne; [lia | lia |]. intros <-. destruct Hb; congruence.
Qed.

(** What the processor's registers become when its pending load does not meet
    another load. *)
Lemma regs_landed o r r' e : quiet o r -> r_effect o r = Some e -> r_apply e r = Some r' -> r_regs r' = written_now e (r_regs (landed r)).
Proof.
  intros Hq He Ha. destruct (apply_fields e r r' Ha) as (-> & _ & _). unfold quiet, landed in *.
  destruct (r_load r) as [ [d v]|]; [|apply registers_after_none]. destruct Hq as (_ & _ & _ & Hrt).
  rewrite registers_after_some. cbn [with_regs r_regs]. pose proof (effect_kind _ _ _ _ _ _ _ _ He) as Hk.
  destruct e; cbn [same_load]; try reflexivity. destruct Hk as (Hl & _ & ->). rewrite (proj2 (Z.eqb_neq _ _) (Hrt Hl)). reflexivity.
Qed.

Lemma quiet_next o nxt r r' e : r_effect o r = Some e -> r_apply e r = Some r' -> this_is_load o nxt = false -> quiet nxt r'.
Proof.
  intros He Ha Ht. destruct (apply_fields e r r' Ha) as (_ & El & _). pose proof (effect_kind _ _ _ _ _ _ _ _ He) as Hk.
  unfold quiet. rewrite El. destruct e; cbn; trivial. destruct Hk as (Hl & _ & ->).
  destruct (Z.eqb_spec (RT o) 0) as [E|E]; [trivial|]. unfold this_is_load in Ht. rewrite Hl, (proj2 (Z.eqb_neq _ _) E) in Ht. cbn [andb negb] in Ht.
  apply orb_false_iff in Ht as [H1 H2]. split; [exact E|]. split; [apply RT_range|]. split; [exact H1|].
  intros Hn Heq. rewrite Hn, Heq, Z.eqb_refl in H2. discriminate.
Qed.

Lemma exec_effect o r r' : r_exec o r = Some r' -> exists e, r_effect o r = Some e /\ r_apply e r = Some r'.
Proof. unfold r_exec. destruct (r_effect o r) as [e|]; [|discriminate]. intros H. exists e. split; [reflexivity | exact H]. Qed.

Lemma landed_regs r : r_regs (landed r) = match r_load r with Some (d, v) => aset (r_regs r) d v | None => r_regs r end.
Proof. unfold landed. destruct (r_load r) as [ [d v]|]; reflexivity. Qed.

(** The registers once everything has landed. *)
Lemma landed_after o r r' e : r_effect o r = Some e -> r_apply e r = Some r' ->
  r_regs (landed r') = match e with ELoad rt v => put rt v (r_regs r') | _ => r_regs r' end.
Proof.
  intros He Ha. destruct (apply_fields e r r' Ha) as (_ & El & _). rewrite landed_regs, El. unfold put.
  destruct e; cbn; try reflexivity. destruct (rt =? 0); reflexivity.
Qed.

(** A load that is held back. *)
Lemma held_effect o nxt r r' e : this_is_load o nxt = true -> r_effect o r = Some e -> r_apply e r = Some r' ->
  RT o <> 0 /\ exists v, e = ELoad (RT o) v /\ r_load r' = Some (RT o, v).
Proof.
  intros Et He Ha. destruct (apply_fields e r r' Ha) as (_ & El & _). pose proof (effect_kind _ _ _ _ _ _ _ _ He) as Hk.
  unfold this_is_load in Et. apply andb_prop in Et as [Et _]. apply andb_prop in Et as [Hld Hz].
  apply negb_true_iff, Z.eqb_neq in Hz. split; [exact Hz|].
  destruct e as [?|rt v|?|?|?]; try (destruct Hk as (Hk & _); congruence). destruct Hk as (_ & _ & ->). exists v. split; [reflexivity|].
  rewrite El. cbn. rewrite (proj2 (Z.eqb_neq _ _) Hz). reflexivity.
Qed.

(** Nothing was held back. *)
Lemma step_none o nxt r h r' : clean o = true -> is_jump o = false -> h_cpu h = landed r -> quiet o r -> zlen (r_regs r) = 32 ->
  r_exec o r = Some r' ->
  exists h', h_execs (fst (plain_delay o nxt (0, false))) h = Some h' /\ tracks nxt r' h' (snd (plain_delay o nxt (0, false))).
Proof.
  intros Hc Hj Hh Hq Hl He. destruct (exec_effect o r r' He) as (e & Hef & Ha).
  pose proof (regs_landed o r r' e Hq Hef Ha) as Hr. pose proof (landed_after o r r' e Hef Ha) as Hla.
  rewrite landed_shape in Hh. pose proof (fun d => h_insn_run o d false h r r' e _ Hh Ha (effect_landed o r e Hc Hq Hl Hef)) as Hi.
  unfold plain_delay. change (lwx_pending o 0) with false. destruct (this_is_load o nxt) eqn:Et.
  - destruct (held_effect o nxt r r' e Et Hef Ha) as (Hz & v & -> & El). cbn [written_now] in Hr.
    replace (if 0 =? RT o then [] else land 0) with (@nil delay_op) by (destruct (0 =? RT o); reflexivity).
    cbn [fst snd app h_execs h_exec]. rewrite Hi. cbn [h_v0 h_cpu].
    eexists. split; [reflexivity|]. apply tracks_held; [exact Hz | apply RT_range | exact El |]. cbn [h_cpu]. rewrite <- Hr. reflexivity.
  - change (jit_instruction_writes_gpr o 0) with false. cbn [fst snd app h_execs h_exec negb Z.eqb]. rewrite Hi. eexists. split; [reflexivity|].
    apply tracks_none; [|exact (quiet_next o nxt r r' e Hef Ha Et)]. rewrite (landed_shape r'), Hla, Hr. destruct e; reflexivity.
Qed.

(** A value is held back: this is the instruction that must not see it. *)
Lemma step_held o nxt reg r h r' : is_jump o = false -> reg <> 0 -> 0 <= reg < 32 -> r_load r = Some (reg, h_delay_val h) -> h_cpu h = no_load r ->
  r_exec o r = Some r' ->
  exists h', h_execs (fst (plain_delay o nxt (reg, false))) h = Some h' /\ tracks nxt r' h' (snd (plain_delay o nxt (reg, false))).
Proof.
  intros Hj Hreg Hrange Hload Hh He. destruct (exec_effect o r r' He) as (e & Hef & Ha).
  destruct (apply_fields e r r' Ha) as (Hr & El & _). rewrite Hload, registers_after_some in Hr.
  pose proof (landed_after o r r' e Hef Ha) as Hla.
  assert (Hh' : h_cpu h = with_regs (r_regs r) (no_load r)) by exact Hh.
  assert (Hi : forall d, h_insn o d (lwx_pending o reg) h = Some (match e with
    | ELoad rt v => if d then mkHost (with_regs (r_regs r) (no_load r')) (h_delay_val h) v
                    else mkHost (with_regs (put rt v (r_regs r)) (no_load r')) (h_delay_val h) (h_v0 h)
    | _ => mkHost (with_regs (written_now e (r_regs r)) (no_load r')) (h_delay_val h) (h_v0 h)
    end)).
  { intros d. apply h_insn_run with (r := r); [exact Hh' | exact Ha|]. rewrite <- Hef. unfold r_effect. apply effect_pending.
    unfold merges, lwx_pending. intros ->. rewrite (proj2 (Z.eqb_neq _ _) Hreg), Hload. cbn [negb andb pending_for].
    destruct (reg =? RT o); cbn [pending_for]; [rewrite Z.eqb_refl; reflexivity | reflexivity]. }
  pose proof (effect_kind _ _ _ _ _ _ _ _ Hef) as Hk. unfold plain_delay. destruct (this_is_load o nxt) eqn:Et.
  - destruct (held_effect o nxt r r' e Et Hef Ha) as (Hz & v & -> & El'). cbn [written_now same_load] in Hr.
    rewrite (Z.eqb_sym reg). cbn [fst snd app h_execs h_exec]. rewrite Hi. cbn [h_v0 h_cpu].
    destruct (Z.eqb_spec (RT o) reg) as [E|E].
    + cbn [app h_execs h_exec h_cpu h_v0]. eexists. split; [reflexivity|]. apply tracks_held; [exact Hz | apply RT_range | exact El' |].
      cbn [h_cpu]. rewrite <- Hr. reflexivity.
    + unfold land. rewrite (proj2 (Z.eqb_neq _ _) Hreg). cbn [app h_execs h_exec h_cpu h_v0 h_delay_val].
      eexists. split; [reflexivity|]. apply tracks_held; [exact Hz | apply RT_range | exact El' |].
      cbn [h_cpu with_regs r_regs]. rewrite <- Hr. reflexivity.
  - pose proof (effect_writes o _ _ _ _ _ _ _ reg Hef Hreg Hj) as Hw. pose proof (quiet_next o nxt r r' e Hef Ha Et) as Hq.
    destruct (jit_instruction_writes_gpr o reg) eqn:Ew; cbn [fst snd app h_execs h_exec]; rewrite Hi; eexists; (split; [reflexivity|]).
    + apply tracks_none; [|exact Hq]. rewrite (landed_shape r'), Hla, Hr.
      destruct e as [rd v|rt v|tk tg rd v|hh ll|mm]; cbn [written] in Hw; symmetry in Hw; apply Z.eqb_eq in Hw; try congruence; subst.
      * cbn [written_now h_cpu same_load]. rewrite put_aset_same by exact Hreg. reflexivity.
      * cbn [written_now h_cpu same_load]. rewrite Z.eqb_refl. reflexivity.
      * cbn [written_now h_cpu same_load]. rewrite put_aset_same by exact Hreg. reflexivity.
    + rewrite (proj2 (Z.eqb_neq _ _) Hreg). cbn [negb]. apply tracks_due; [exact Hreg | exact Hrange | | | exact Hq].
      * rewrite (landed_shape r'). destruct e; reflexivity.
      * rewrite Hla, Hr. pose proof (written_range _ _ _ _ _ _ _ _ Hef) as Hwr.
        destruct e as [rd v|rt v|tk tg rd v|hh ll|mm]; cbn [written] in Hw; symmetry in Hw; apply Z.eqb_neq in Hw; cbn [written_now h_cpu h_delay_val same_load with_regs r_regs]; try reflexivity.
        -- apply put_aset_comm; [exact Hw | apply Hwr | lia].
        -- rewrite (proj2 (Z.eqb_neq _ _) Hw). apply put_aset_comm; [exact Hw | destruct Hk as (_ & _ & ->); apply RT_range | lia].
        -- apply put_aset_comm; [exact Hw | apply Hwr | lia].
Qed.

(** A held value that lands first. *)
Lemma land_due o reg r h : tracks o r h (reg, true) ->
  exists h', h_execs (land reg) h = Some h' /\ h_cpu h' = landed r /\ quiet o r /\ reg <> 0.
Proof.
  intros Ht. inversion Ht as [| |? Hz Hr Hc Hl Hq]; subst. unfold land. rewrite (proj2 (Z.eqb_neq _ _) Hz). cbn [h_execs h_exec].
  eexists. split; [reflexivity|]. split; [|split; assumption]. cbn [h_cpu]. rewrite Hl, Hc. rewrite (landed_shape r). reflexivity.
Qed.

(** What the protocol does not get right is left out: a load held back that
    cancels a value just about to land; a jump that reads, or links to, the
    register of a held value. *)
Definition delay_ok (o nxt : Z) (pending : Z * bool) : bool :=
  let '(reg, now) := pending in
  clean o &&
  if is_jump o then (reg =? 0) || (negb (dce_dest_gpr o =? reg) && negb (now && Z.testbit (dce_read_mask o) reg))
  else negb (now && this_is_load o nxt && (RT o =? reg)).

Lemma plain_delay_due o nxt reg : delay_ok o nxt (reg, true) = true -> is_jump o = false ->
  plain_delay o nxt (reg, true) = (land reg ++ fst (plain_delay o nxt (0, false)), snd (plain_delay o nxt (0, false))).
Proof.
  unfold delay_ok, plain_delay. intros H Hj. rewrite Hj in H. apply andb_prop in H as [_ H]. apply negb_true_iff in H. cbn [andb] in H. rewrite H.
  destruct (this_is_load o nxt); [reflexivity|]. destruct (jit_instruction_writes_gpr o 0); reflexivity.
Qed.

Lemma plain_delay_step o nxt pending r h r' : tracks o r h pending -> delay_ok o nxt pending = true -> is_jump o = false -> zlen (r_regs r) = 32 ->
  r_exec o r = Some r' ->
  exists h', h_execs (fst (plain_delay o nxt pending)) h = Some h' /\ tracks nxt r' h' (snd (plain_delay o nxt pending)).
Proof.
  intros Ht Hok Hj Hl He.
  assert (Hc : clean o = true) by (destruct pending; unfold delay_ok in Hok; apply andb_prop in Hok; tauto).
  inversion Ht as [Hh Hq|reg Hz Hr Hload Hh|reg Hz Hr Hc1 Hl1 Hq]; subst.
  - exact (step_none o nxt r h r' Hc Hj Hh Hq Hl He).
  - exact (step_held o nxt reg r h r' Hj Hz Hr Hload Hh He).
  - destruct (land_due o reg r h Ht) as (h1 & E1 & Hh1 & _ & _). rewrite (plain_delay_due o nxt reg Hok Hj). cbn [fst snd].
    rewrite h_execs_app, E1. exact (step_none o nxt r h1 r' Hc Hj Hh1 Hq Hl He).
Qed.

(** A jump, whose slot comes next. *)
Lemma jump_delay_step o nxt pending r h r' : tracks o r h pending -> delay_ok o nxt pending = true -> is_jump o = true -> zlen (r_regs r) = 32 ->
  r_exec o r = Some r' ->
  exists h', h_execs (fst (branch_delay o pending)) h = Some h' /\ tracks nxt r' h' (snd (branch_delay o pending)) /\ r_load r' = None.
Proof.
  intros Ht Hok Hj Hl He. destruct (exec_effect o r r' He) as (e & Hef & Ha). destruct (apply_fields e r r' Ha) as (Hr & El & _).
  pose proof (effect_kind _ _ _ _ _ _ _ _ Hef) as Hk. pose proof (written_range _ _ _ _ _ _ _ _ Hef) as Hwr.
  destruct e as [?|?|tk tg rd v|?|?]; try (destruct Hk as (_ & Hk & _) || destruct Hk as (_ & Hk); congruence). destruct Hk as (_ & _ & ->).
  cbn [load_after written] in El, Hwr. destruct (landed_none r' El) as [Hlr Hnl].
  assert (Hqn : quiet nxt r') by (unfold quiet; rewrite El; trivial).
  unfold delay_ok in Hok. destruct pending as [reg0 now0]. rewrite Hj in Hok. apply andb_prop in Hok as [Hc Hok].
  inversion Ht as [Hh Hq|reg Hz Hrg Hload Hh|reg Hz Hrg Hc1 Hl1 Hq]; subst; unfold branch_delay.
  - cbn [fst snd negb Z.eqb h_execs h_exec]. pose proof Hh as Hh2. rewrite landed_shape in Hh2.
    rewrite (h_insn_run o false false h r r' _ _ Hh2 Ha (effect_landed o r _ Hc Hq Hl Hef)). eexists. split; [reflexivity|]. split; [|exact El].
    apply tracks_none; [|exact Hqn]. cbn [h_cpu]. rewrite Hlr, Hnl. pose proof (regs_landed o r r' _ Hq Hef Ha) as Hx. rewrite <- Hx. destruct r'; reflexivity.
  - rewrite Hload, registers_after_some in Hr. cbn [same_load written_now] in Hr.
    rewrite (proj2 (Z.eqb_neq _ _) Hz) in Hok. cbn [orb andb negb] in Hok. rewrite andb_true_r in Hok. apply negb_true_iff, Z.eqb_neq in Hok.
    cbn [fst snd h_execs h_exec]. rewrite (h_insn_run o false false h r r' (EJump tk tg (dce_dest_gpr o) v) (r_regs r)); [| exact Hh | exact Ha |].
    2: { rewrite <- Hef. unfold r_effect. apply effect_pending. unfold merges. intros Hg. exfalso. clear -Hj Hg.
         unfold is_jump, between in Hj. apply orb_prop in Hg as [E|E]; apply Z.eqb_eq in E; rewrite E in Hj; discriminate. }
    eexists. split; [reflexivity|]. split; [|exact El]. rewrite (proj2 (Z.eqb_neq _ _) Hz). cbn [negb].
    apply tracks_due; [exact Hz | exact Hrg | rewrite Hlr; cbn [h_cpu]; rewrite Hnl; reflexivity | | exact Hqn].
    cbn [h_cpu h_delay_val with_regs r_regs written_now]. rewrite Hlr, Hr. apply put_aset_comm; [exact Hok | apply Hwr | lia].
  - rewrite (proj2 (Z.eqb_neq _ _) Hz) in Hok. cbn [orb andb] in Hok. apply andb_prop in Hok as [Hd Hm].
    apply negb_true_iff, Z.eqb_neq in Hd. apply negb_true_iff in Hm.
    assert (Hagree : agree (dce_read_mask o) (r_regs (h_cpu h)) (r_regs (landed r))).
    { rewrite <- Hl1. assert (Hlen : zlen (r_regs (h_cpu h)) = 32).
      { apply (f_equal zlen) in Hl1. rewrite zlen_aset in Hl1. rewrite Hl1, landed_regs. destruct (r_load r) as [ [? ?]|]; [rewrite zlen_aset|]; exact Hl. }
      split; [exact Hlen | rewrite zlen_aset; exact Hlen |]. intros i Hi Hb. symmetry. apply aget_aset_ne; [lia | lia |].
      intros <-. destruct Hb; congruence. }
    pose proof Hc1 as Hh2. rewrite landed_shape in Hh2. cbn [fst snd].
    cbn [h_execs h_exec]. rewrite (h_insn_run o false false h r r' (EJump tk tg (dce_dest_gpr o) v) (r_regs (h_cpu h))); [| exact Hh2 | exact Ha |].
    2: { rewrite (effect_agree o _ _ None _ _ _ _ Hagree). exact (effect_landed o r _ Hc Hq Hl Hef). }
    unfold land. rewrite (proj2 (Z.eqb_neq _ _) Hz). cbn [h_execs h_exec]. eexists. split; [reflexivity|]. split; [|exact El].
    apply tracks_none; [|exact Hqn]. cbn [h_cpu h_delay_val with_regs r_regs written_now]. rewrite put_aset_comm by (exact Hd || apply Hwr || lia).
    rewrite Hl1, Hlr, Hnl. pose proof (regs_landed o r r' _ Hq Hef Ha) as Hx. cbn [written_now] in Hx. rewrite <- Hx. destruct r'; reflexivity.
Qed.

(** The instruction in the slot. *)
Lemma slot_delay_step o pending r h r' : tracks o r h pending -> r_load r = None -> clean o = true -> zlen (r_regs r) = 32 -> r_exec o r = Some r' ->
  exists h', h_execs (slot_delay o pending) h = Some h' /\ h_cpu h' = landed r'.
Proof.
  intros Ht Hn Hc Hl He. destruct (exec_effect o r r' He) as (e & Hef & Ha).
  assert (Hs : exists h1, h_execs (if snd pending then land (fst pending) else []) h = Some h1 /\ h_cpu h1 = landed r /\ quiet o r /\
    slot_delay o pending = (if snd pending then land (fst pending) else []) ++ [Insn o false false]).
  { inversion Ht as [Hh Hq|reg Hz Hrg Hload Hh|reg Hz Hrg Hc1 Hl1 Hq]; subst; cbn [fst snd].
    - exists h. split; [reflexivity|]. split; [exact Hh|]. split; [exact Hq | reflexivity].
    - congruence.
    - destruct (land_due o reg r h Ht) as (h1 & E1 & Hh1 & _ & _). exists h1. split; [exact E1|]. split; [exact Hh1|]. split; [exact Hq | reflexivity]. }
  destruct Hs as (h1 & E1 & Hh1 & Hq & ->). rewrite h_execs_app, E1. cbn [h_execs h_exec].
  pose proof (regs_landed o r r' e Hq Hef Ha) as Hr. pose proof (landed_after o r r' e Hef Ha) as Hla. rewrite landed_shape in Hh1.
  rewrite (h_insn_run o false false h1 r r' e _ Hh1 Ha (effect_landed o r e Hc Hq Hl Hef)). eexists. split; [reflexivity|].
  rewrite (landed_shape r'), Hla, Hr. destruct e; reflexivity.
Qed.

Lemma end_step o pending r h : tracks o r h pending -> exists h', h_execs (land (fst pending)) h = Some h' /\ h_cpu h' = landed r.
Proof.
  intros Ht. inversion Ht as [Hh Hq|reg Hz Hrg Hload Hh|reg Hz Hrg Hc1 Hl1 Hq]; subst; cbn [fst].
  - exists h. split; [reflexivity | exact Hh].
  - unfold land. rewrite (proj2 (Z.eqb_neq _ _) Hz). cbn [h_execs h_exec]. eexists. split; [reflexivity|]. cbn [h_cpu]. rewrite Hh. unfold landed. rewrite Hload. reflexivity.
  - destruct (land_due o reg r h Ht) as (h1 & E1 & Hh1 & _ & _). exists h1. split; [exact E1 | exact Hh1].
Qed.

(** The code keeps to what the protocol covers; a jump has one word after
    it. *)
Fixpoint delay_all_ok (ops : list Z) (after : Z) (pending : Z * bool) : bool :=
  match ops with
  | [] => true
  | o :: ops =>
    delay_ok o (hd after ops) pending &&
    if is_jump o then match ops with [slot] => clean slot | _ => false end
    else delay_all_ok ops after (snd (plain_delay o (hd after ops) pending))
  end.

Lemma exec_length o r r' : zlen (r_regs r) = 32 -> r_exec o r = Some r' -> zlen (r_regs r') = 32.
Proof. intros Hl He. apply (same_run_word o r r' Hl). cbn. rewrite He. reflexivity. Qed.

Lemma delay_plan_sound after ops : forall pending r h r', tracks (hd after ops) r h pending -> zlen (r_regs r) = 32 ->
  delay_all_ok ops after pending = true -> r_execs ops r = Some r' ->
  exists h', h_execs (delay_plan ops after pending) h = Some h' /\ h_cpu h' = landed r'.
Proof.
  induction ops as [|o ops IH]; intros pending r h r' Ht Hl Hok He; [injection He as <-; exact (end_step _ _ _ _ Ht)|].
  cbn [delay_all_ok] in Hok. apply andb_prop in Hok as [Ho Hok]. cbn [r_execs] in He. destruct (r_exec o r) as [m|] eqn:Em; [|discriminate].
  pose proof (exec_length o r m Hl Em) as Hlm. cbn [delay_plan hd] in *. destruct (is_jump o) eqn:Ej.
  - destruct ops as [|slot [|? ?] ]; try discriminate. cbn [hd] in Ho.
    destruct (jump_delay_step o slot pending r h m Ht Ho Ej Hl Em) as (h1 & E1 & Ht1 & Hn1).
    destruct (branch_delay o pending) as [a p1]. cbn [fst snd] in *. rewrite h_execs_app, E1.
    cbn [r_execs] in He. destruct (r_exec slot m) as [m2|] eqn:E2; [|discriminate]. injection He as <-.
    exact (slot_delay_step slot p1 m h1 m2 Ht1 Hn1 Hok Hlm E2).
  - destruct (plain_delay_step o (hd after ops) pending r h m Ht Ho Ej Hl Em) as (h1 & E1 & Ht1).
    destruct (plain_delay o (hd after ops) pending) as [a p1]. cbn [fst snd] in *. rewrite h_execs_app, E1.
    exact (IH p1 m h1 r' Ht1 Hlm Hok He).
Qed.


(** ** Concrete code *)

(** A processor with [a0] = 0x80001000, [t0] = 5 and memory holding 7 and 9
    there. *)
Definition load_cpu : R3000A := mkR3000A 0x80010000 0x80010004 (aset (aset (repeat 0 32) 4 0x80001000) 8 5) None 0 0
  (wr32 (wr32 ∅ 0x1000 7) 0x1004 9).

(** LW t0, 0(a0); ADDU t1, t0, zero; LW t2, 4(a0); ADDU t3, t0, t2; BEQ t3, zero, +4; NOP *)
Definition load_ops : list Z := [0x8C880000; 0x01004821; 0x8C8A0004; 0x010A5821; 0x11600004; 0].


(** LW t0, 0(a0); ADDU t1, t0, zero; BEQ t0, t1, +4; NOP *)
Definition stale_branch : list Z := [0x8C880000; 0x01004821; 0x11090004; 0].
(** LW t0, 0(a0); ADDU t1, t0, zero; LW t0, 4(a0); ADDU t2, t0, zero *)
Definition lost_load : list Z := [0x8C880000; 0x01004821; 0x8C880004; 0x01005021].

(** Two sequences it gets wrong: a branch two instructions after a load
    that was held back compares the old register and goes the other way; and a
    load of the same register there makes the first one's value vanish before
    the instruction that should read it. *)
Theorem load_delay_gaps :
  (exists r' h', r_execs stale_branch load_cpu = Some r' /\ h_execs (delay_plan stale_branch 0 (0, false)) (mkHost load_cpu 0 0) = Some h' /\
    r_pc r' = 0x80010010 /\ r_pc (h_cpu h') = 0x8001001C) /\
  (exists r' h', r_execs lost_load load_cpu = Some r' /\ h_execs (delay_plan lost_load 0 (0, false)) (mkHost load_cpu 0 0) = Some h' /\
    aget (r_regs r') 10 = 7 /\ aget (r_regs (h_cpu h')) 10 = 5).
Proof.
  split; do 2 eexists; (split; [vm_compute; reflexivity|]); (split; [vm_compute; reflexivity|]); split; vm_compute; reflexivity.
Qed.
