(* ===== verification/Emit.v ===== *)
(** * The code the recompiler emits ([src/dynarec_emit.c], [src/dynarec_insn.c])

    The registers of the PlayStation live in three places while a block runs:
    four are pinned to host registers, up to eight have a slot in T0-T7 whose
    store to [cpu.regs] is deferred, the others stay in [cpu.regs] with T8 and
    T9 as scratch; a register may also be a constant not yet written anywhere.
    An emitter is a function of this compile-time state that returns the words
    it emits and the new state.  The machine these words run on is in
    [EmitMath.v]. *)

From S2P Require Import Prelude Interpreter Recompiler.

(** ** Host registers and instruction words *)

Definition REG_ZERO : Z := 0.
Definition REG_AT : Z := 1.
Definition REG_S0 : Z := 16.
Definition REG_S2 : Z := 18.
Definition REG_S4 : Z := 20.
Definition REG_S5 : Z := 21.
Definition REG_S6 : Z := 22.
Definition REG_S7 : Z := 23.
Definition REG_T0 : Z := 8.
Definition REG_T8 : Z := 24.
Definition REG_T9 : Z := 25.
Definition REG_SP : Z := 29.

Definition CPU_CYCLES_LEFT : Z := 0x00.
Definition CPU_BLOCK_ABORTED : Z := 0x04.
Definition CPU_PC : Z := 0x18.
Definition CPU_CURRENT_PC : Z := 0x1C.
Definition CPU_HI : Z := 0x20.
Definition CPU_LO : Z := 0x24.
Definition CPU_REG (n : Z) : Z := 0x48 + n * 4.

Definition DYN_SLOT_COUNT : Z := 8.

Definition MK_R (op rs rt rd sa fn : Z) : Z :=
  Z.lor (Z.shiftl op 26) (Z.lor (Z.shiftl rs 21) (Z.lor (Z.shiftl rt 16) (Z.lor (Z.shiftl rd 11) (Z.lor (Z.shiftl sa 6) fn)))).
Definition MK_I (op rs rt imm : Z) : Z :=
  Z.lor (Z.shiftl op 26) (Z.lor (Z.shiftl rs 21) (Z.lor (Z.shiftl rt 16) (Z.land imm 0xFFFF))).

Definition MK_J (op tgt : Z) : Z := Z.lor (Z.shiftl op 26) (Z.land tgt 0x03FFFFFF).

(** ** The compile-time state *)

Record RegStatus := mkReg { vvalue : Z; vconst : bool; vdirty : bool }.
#[export] Instance eta_Reg : Eta RegStatus := fun v => mkReg (vvalue v) (vconst v) (vdirty v).

(** An overflow check whose exit is emitted at the end of the block:
    the position of its branch, the address, the cycles, the register to
    restore. *)
Record OverflowColdEntry := mkOvf { branch_patch : Z; ovf_pc : Z; cycle_offset : Z; restore_psx : Z }.

Record Em := mkEm {
  vregs : list RegStatus; dirty_const_mask : Z; smrv_known_ram : Z; align_known_mask : Z;
  t8_cached_psx_reg : Z; t9_cached_psx_reg : Z; mem_host_base_psx : Z;
  dyn_slot_psx : list Z; psx_to_slot : list Z; dyn_slots_active : bool;
  dyn_dirty_mask : Z; dyn_slot_loaded_mask : Z; dyn_slot_entry_loaded : Z;
  mult_count : Z; overflow_cold : list OverflowColdEntry; code_len : Z; emit_cycle_offset : Z;
  block_full_calls : Z; block_lite_calls : Z
}.
#[export] Instance eta_Em : Eta Em := fun m =>
  mkEm (vregs m) (dirty_const_mask m) (smrv_known_ram m) (align_known_mask m) (t8_cached_psx_reg m) (t9_cached_psx_reg m)
    (mem_host_base_psx m) (dyn_slot_psx m) (psx_to_slot m) (dyn_slots_active m) (dyn_dirty_mask m) (dyn_slot_loaded_mask m)
    (dyn_slot_entry_loaded m) (mult_count m) (overflow_cold m) (code_len m) (emit_cycle_offset m)
    (block_full_calls m) (block_lite_calls m).

(** ** Emitters *)

Definition E (A : Type) : Type := Em -> A * (list Z * Em).
Definition eret {A} (x : A) : E A := fun m => (x, ([], m)).
Definition ebind {A B} (e : E A) (k : A -> E B) : E B := fun m =>
  let '(x, (w1, m1)) := e m in let '(y, (w2, m2)) := k x m1 in (y, (w1 ++ w2, m2)).
Definition emodify (f : Em -> Em) : E unit := fun m => (tt, ([], f m)).
Definition egets {A} (f : Em -> A) : E A := fun m => (f m, ([], m)).
Definition ewhen (b : bool) (e : E unit) : E unit := if b then e else eret tt.

Declare Scope emit_scope.
Delimit Scope emit_scope with emit.
Notation "'do' x <- m ; k" := (ebind m (fun x => k)) (at level 10, x name, m at level 100, k at level 200) : emit_scope.
Notation "m1 >> m2" := (ebind m1 (fun _ => m2)) (at level 100, right associativity) : emit_scope.
#[local] Open Scope emit_scope.

(** [for (...) e(i)] *)
Fixpoint eiter (l : list Z) (e : Z -> E unit) : E unit :=
  match l with [] => eret tt | i :: l => e i >> eiter l e end.

Definition emit (inst : Z) : E unit := fun m => (tt, ([inst], m <| code_len ::= Z.succ |>)).

Definition EMIT_NOP : E unit := emit 0.
Definition EMIT_LW (rt off base : Z) : E unit := emit (MK_I 0x23 base rt off).
Definition EMIT_SW (rt off base : Z) : E unit := emit (MK_I 0x2B base rt off).
Definition EMIT_ADDIU (rt rs imm : Z) : E unit := emit (MK_I 0x09 rs rt imm).
Definition EMIT_ADDU (rd rs rt : Z) : E unit := emit (MK_R 0 rs rt rd 0 0x21).
Definition EMIT_OR (rd rs rt : Z) : E unit := emit (MK_R 0 rs rt rd 0 0x25).
Definition EMIT_LUI (rt imm : Z) : E unit := emit (MK_I 0x0F 0 rt imm).
Definition EMIT_ORI (rt rs imm : Z) : E unit := emit (MK_I 0x0D rs rt imm).
Definition EMIT_MOVE (rd rs : Z) : E unit := EMIT_ADDU rd rs 0.
Definition EMIT_MOVZ (rd rs rt : Z) : E unit := emit (MK_R 0 rs rt rd 0 0x0A).
Definition EMIT_MULT1 (rs rt : Z) : E unit := emit (MK_R 0x1C rs rt 0 0 0x18).
Definition EMIT_MULTU1 (rs rt : Z) : E unit := emit (MK_R 0x1C rs rt 0 0 0x19).
Definition EMIT_MFLO1 (rd : Z) : E unit := emit (MK_R 0x1C 0 0 rd 0 0x12).
Definition EMIT_MFHI1 (rd : Z) : E unit := emit (MK_R 0x1C 0 0 rd 0 0x10).

Definition emit_load_imm32 (hwreg val : Z) : E unit :=
  if val =? 0 then EMIT_MOVE hwreg REG_ZERO
  else if Z.land val 0xFFFF0000 =? 0 then EMIT_ORI hwreg REG_ZERO (Z.land val 0xFFFF)
  else if (-32768 <=? s32 val) && (s32 val <? 0) then EMIT_ADDIU hwreg REG_ZERO (s16 val)
  else if Z.land val 0xFFFF =? 0 then EMIT_LUI hwreg (Z.shiftr val 16)
  else EMIT_LUI hwreg (Z.shiftr val 16) >> EMIT_ORI hwreg hwreg (Z.land val 0xFFFF).

(** ** Facts about registers known at compile time *)

Definition vreg0 : RegStatus := mkReg 0 false false.
Definition vreg (m : Em) (r : Z) : RegStatus := anth vreg0 (vregs m) r.
Definition upd_vreg (r : Z) (f : RegStatus -> RegStatus) (m : Em) : Em := m <| vregs ::= fun l => aset l r (f (anth vreg0 l r)) |>.
Definition lazy_const (m : Em) (r : Z) : bool := vconst (vreg m r) && vdirty (vreg m r).

Definition set_bit (r x : Z) : Z := Z.lor x (Z.shiftl 1 r).
Definition clear_bit (r x : Z) : Z := Z.ldiff x (Z.shiftl 1 r).

Definition smrv_is_known_ram (m : Em) (r : Z) : bool := Z.testbit (smrv_known_ram m) r.
Definition smrv_set_ram (r : Z) (m : Em) : Em := if r =? 0 then m else m <| smrv_known_ram ::= set_bit r |>.
Definition align_is_known (m : Em) (r : Z) : bool := Z.testbit (align_known_mask m) r.
Definition align_set (r : Z) (m : Em) : Em := if r =? 0 then m else m <| align_known_mask ::= set_bit r |>.
Definition ALIGN_PINNED_MASK : Z := 0xF0000000.

(** [SCRATCH_INVALIDATE_PSX], [SCRATCH_INVALIDATE_HWREG],
    [reg_cache_invalidate] *)
Definition scratch_invalidate_psx (r : Z) (m : Em) : Em :=
  m <| t8_cached_psx_reg ::= fun c => if c =? r then -1 else c |> <| t9_cached_psx_reg ::= fun c => if c =? r then -1 else c |>.
Definition scratch_invalidate_hwreg (hw : Z) (m : Em) : Em :=
  if hw =? REG_T8 then m <| t8_cached_psx_reg := -1 |> else if hw =? REG_T9 then m <| t9_cached_psx_reg := -1 |> else m.
Definition reg_cache_invalidate (m : Em) : Em := m <| t8_cached_psx_reg := -1 |> <| t9_cached_psx_reg := -1 |>.

(** The slot of a register; -1 when it has none or slots are off. *)
Definition dyn_slot_find (m : Em) (r : Z) : Z := anth (-1) (psx_to_slot m) r.
Definition dyn_slot_of (m : Em) (r : Z) : Z := if dyn_slots_active m then dyn_slot_find m r else -1.
Definition has_slot (m : Em) (r : Z) : bool := 0 <=? dyn_slot_of m r.
Definition dyn_slot_ee (si : Z) : Z := REG_T0 + si.
Definition pinned (r : Z) : bool := negb (psx_pinned_reg r =? 0).

(** [dyn_dirty_mask |= (1u << si); dyn_slot_loaded_mask |= (1u << si);] *)
Definition slot_written (si : Z) (m : Em) : Em := m <| dyn_dirty_mask ::= set_bit si |> <| dyn_slot_loaded_mask ::= set_bit si |>.

(** The value of a lazy constant is in its place now. *)
Definition const_stored (r : Z) (m : Em) : Em := upd_vreg r (fun v => v <| vdirty := false |>) m <| dirty_const_mask ::= clear_bit r |>.

(** [t8_cached_psx_reg] or [t9_cached_psx_reg], after a load or a store. *)
Definition cache_loaded (hw r : Z) (m : Em) : Em :=
  if hw =? REG_T8 then m <| t8_cached_psx_reg := r |> else if hw =? REG_T9 then m <| t9_cached_psx_reg := r |> else m.
Definition cache_stored (hw r : Z) (m : Em) : Em :=
  if hw =? REG_T8 then m <| t8_cached_psx_reg := r |> <| t9_cached_psx_reg ::= fun c => if c =? r then -1 else c |>
  else if hw =? REG_T9 then m <| t9_cached_psx_reg := r |> <| t8_cached_psx_reg ::= fun c => if c =? r then -1 else c |>
  else m.

(** ** Moving registers of the PlayStation ([dynarec_emit.c]) *)

(** The value in [hwreg] becomes the stored value of a lazy constant. *)
Definition materialized (hwreg r : Z) : E unit :=
  do m <- egets (fun m => m);
  if pinned r then ewhen (negb (hwreg =? psx_pinned_reg r)) (EMIT_MOVE (psx_pinned_reg r) hwreg)
  else if has_slot m r then
    ewhen (negb (dyn_slot_ee (dyn_slot_of m r) =? hwreg)) (EMIT_MOVE (dyn_slot_ee (dyn_slot_of m r)) hwreg) >>
    emodify (slot_written (dyn_slot_of m r))
  else EMIT_SW hwreg (CPU_REG r) REG_S0.

(** A slot that was not loaded at entry is loaded before its first read. *)
Definition load_slot (r : Z) : E unit :=
  do m <- egets (fun m => m);
  ewhen (negb (Z.testbit (dyn_slot_loaded_mask m) (dyn_slot_of m r)))
    (EMIT_LW (dyn_slot_ee (dyn_slot_of m r)) (CPU_REG r) REG_S0 >> emodify (fun m => m <| dyn_slot_loaded_mask ::= set_bit (dyn_slot_of m r) |>)).

Definition emit_load_psx_reg (hwreg r : Z) : E unit :=
  do m <- egets (fun m => m);
  if r =? 0 then EMIT_MOVE hwreg REG_ZERO >> emodify (scratch_invalidate_hwreg hwreg)
  else if lazy_const m r then
    emit_load_imm32 hwreg (vvalue (vreg m r)) >> materialized hwreg r >> emodify (const_stored r) >>
    emodify (scratch_invalidate_hwreg hwreg)
  else if pinned r then
    ewhen (negb (hwreg =? psx_pinned_reg r)) (EMIT_MOVE hwreg (psx_pinned_reg r)) >> emodify (scratch_invalidate_hwreg hwreg)
  else if has_slot m r then
    load_slot r >> ewhen (negb (hwreg =? dyn_slot_ee (dyn_slot_of m r))) (EMIT_MOVE hwreg (dyn_slot_ee (dyn_slot_of m r))) >>
    emodify (scratch_invalidate_hwreg hwreg)
  else if (hwreg =? REG_T8) && (t8_cached_psx_reg m =? r) then eret tt
  else if (hwreg =? REG_T9) && (t9_cached_psx_reg m =? r) then eret tt
  else EMIT_LW hwreg (CPU_REG r) REG_S0 >> emodify (cache_loaded hwreg r).

(** The place of a register, [scratch] when it has none. *)
Definition emit_use_reg (r scratch : Z) : E Z :=
  do m <- egets (fun m => m);
  if r =? 0 then eret REG_ZERO
  else if lazy_const m r then
    let dst := if pinned r then psx_pinned_reg r else if has_slot m r then dyn_slot_ee (dyn_slot_of m r) else scratch in
    emit_load_imm32 dst (vvalue (vreg m r)) >>
    ewhen (negb (pinned r)) (if has_slot m r then emodify (slot_written (dyn_slot_of m r)) else EMIT_SW dst (CPU_REG r) REG_S0) >>
    emodify (const_stored r) >> emodify (scratch_invalidate_hwreg dst) >> eret dst
  else if pinned r then eret (psx_pinned_reg r)
  else if has_slot m r then load_slot r >> eret (dyn_slot_ee (dyn_slot_of m r))
  else if (scratch =? REG_T8) && (t8_cached_psx_reg m =? r) then eret REG_T8
  else if (scratch =? REG_T9) && (t9_cached_psx_reg m =? r) then eret REG_T9
  else EMIT_LW scratch (CPU_REG r) REG_S0 >> emodify (cache_loaded scratch r) >> eret scratch.

(** Where a result for [r] is computed; T8 for $zero, whose results are
    thrown away. *)
Definition emit_dst_reg (r scratch : Z) : E Z :=
  egets (fun m => if r =? 0 then REG_T8 else if pinned r then psx_pinned_reg r else if has_slot m r then dyn_slot_ee (dyn_slot_of m r) else scratch).

(** [hwreg] is the new value of [r]. *)
Definition store_unpinned (r hwreg : Z) : E unit :=
  do m <- egets (fun m => m);
  if has_slot m r then
    ewhen (negb (dyn_slot_ee (dyn_slot_of m r) =? hwreg)) (EMIT_MOVE (dyn_slot_ee (dyn_slot_of m r)) hwreg) >>
    emodify (slot_written (dyn_slot_of m r)) >> emodify (scratch_invalidate_psx r)
  else EMIT_SW hwreg (CPU_REG r) REG_S0 >> emodify (cache_stored hwreg r).
Definition emit_store_psx_reg (r hwreg : Z) : E unit :=
  if r =? 0 then eret tt
  else if pinned r then ewhen (negb (psx_pinned_reg r =? hwreg)) (EMIT_MOVE (psx_pinned_reg r) hwreg)
  else store_unpinned r hwreg.
Definition emit_sync_reg (r host_reg : Z) : E unit := if (r =? 0) || pinned r then eret tt else store_unpinned r host_reg.

(** A lazy constant goes to its place, AT being the scratch. *)
Definition store_const (r val : Z) : E unit :=
  do m <- egets (fun m => m);
  if pinned r then emit_load_imm32 (psx_pinned_reg r) val
  else if has_slot m r then
    emit_load_imm32 (dyn_slot_ee (dyn_slot_of m r)) val >> emodify (slot_written (dyn_slot_of m r)) >> emodify (scratch_invalidate_psx r)
  else emit_load_imm32 REG_AT val >> EMIT_SW REG_AT (CPU_REG r) REG_S0 >> emodify (scratch_invalidate_psx r).

Definition flush_dirty_consts : E unit :=
  do m <- egets (fun m => m);
  ewhen (negb (dirty_const_mask m =? 0))
    (emodify (fun m => m <| dirty_const_mask := 0 |>) >>
     eiter (List.filter (Z.testbit (dirty_const_mask m)) (zseq 32)) (fun r =>
       do m <- egets (fun m => m);
       ewhen (lazy_const m r) (store_const r (vvalue (vreg m r)) >> emodify (upd_vreg r (fun v => v <| vdirty := false |>))))).

Definition leave_host_base (r : Z) (m : Em) : Em := if mem_host_base_psx m =? r then m <| mem_host_base_psx := -1 |> else m.

Definition mark_vreg_const (r val : Z) : E unit :=
  ewhen (negb (r =? 0)) (emodify (leave_host_base r) >> emodify (upd_vreg r (fun _ => mkReg val true false))).

Definition mark_vreg_const_lazy (r val : Z) : E unit :=
  ewhen (negb (r =? 0))
    (emodify (leave_host_base r) >> emodify (upd_vreg r (fun _ => mkReg val true true)) >>
     emodify (fun m => m <| dirty_const_mask ::= set_bit r |>
       <| smrv_known_ram ::= if Z.land val 0x1FFFFFFF <? 0x200000 then set_bit r else clear_bit r |>
       <| align_known_mask ::= if Z.land val 3 =? 0 then set_bit r else clear_bit r |>)).

Definition mark_vreg_var (r : Z) : E unit :=
  ewhen (negb (r =? 0))
    (emodify (leave_host_base r) >>
     emodify (fun m => m <| smrv_known_ram ::= clear_bit r |> <| align_known_mask ::= clear_bit r |>) >>
     (do m <- egets (fun m => m); ewhen (lazy_const m r) (store_const r (vvalue (vreg m r)))) >>
     emodify (fun m => upd_vreg r (fun v => v <| vconst := false |> <| vdirty := false |>) m <| dirty_const_mask ::= clear_bit r |>)).

Definition is_vreg_const (m : Em) (r : Z) : bool := if r =? 0 then true else vconst (vreg m r).
Definition get_vreg_const (m : Em) (r : Z) : Z := if r =? 0 then 0 else vvalue (vreg m r).

Definition emit_cpu_field_to_psx_reg (field_offset r : Z) : E unit :=
  mark_vreg_var r >>
  do m <- egets (fun m => m);
  if r =? 0 then eret tt
  else if pinned r then EMIT_LW (psx_pinned_reg r) field_offset REG_S0
  else if has_slot m r then EMIT_LW (dyn_slot_ee (dyn_slot_of m r)) field_offset REG_S0 >> emodify (slot_written (dyn_slot_of m r))
  else EMIT_LW REG_AT field_offset REG_S0 >> EMIT_SW REG_AT (CPU_REG r) REG_S0 >> emodify (scratch_invalidate_psx r).

Definition emit_materialize_psx_imm (r value : Z) : E unit :=
  do m <- egets (fun m => m);
  if r =? 0 then eret tt
  else if pinned r then emit_load_imm32 (psx_pinned_reg r) value
  else if has_slot m r then emit_load_imm32 (dyn_slot_ee (dyn_slot_of m r)) value >> emodify (slot_written (dyn_slot_of m r))
  else emit_load_imm32 REG_AT value >> EMIT_SW REG_AT (CPU_REG r) REG_S0 >> emodify (scratch_invalidate_psx r).

Definition emit_imm_to_cpu_field (field_offset value : Z) : E unit :=
  emit_load_imm32 REG_AT value >> EMIT_SW REG_AT field_offset REG_S0.

(** ** Slots *)

(** The unassigned register with the most accesses, at least two; the first
    of several. *)
Definition best_reg (score : Z -> Z) (taken : list Z) : Z * Z :=
  fold_left (fun '(best, best_score) r =>
    if score r <=? best_score then (best, best_score)
    else if existsb (Z.eqb r) taken then (best, best_score) else (r, score r)) (tl (zseq 32)) (-1, 0).

Fixpoint assign_slots (n : nat) (score : Z -> Z) (taken : list Z) : list Z :=
  match n with
  | O => taken
  | S n => let best := fst (best_reg score taken) in if best <? 0 then taken else assign_slots n score (taken ++ [best])
  end.

Definition slot_score (scan : BlockScanResult) (r : Z) : Z :=
  if (aget (reg_access_count scan) r <? 2) || pinned r then 0 else aget (reg_access_count scan) r.

Definition assigned (scan : BlockScanResult) : list Z := assign_slots (Z.to_nat DYN_SLOT_COUNT) (slot_score scan) [].

Fixpoint index_of (r : Z) (l : list Z) : Z :=
  match l with [] => -1 | x :: l => if x =? r then 0 else if index_of r l <? 0 then -1 else 1 + index_of r l end.

Definition dyn_assign_slots (scan : BlockScanResult) (m : Em) : Em :=
  let l := assigned scan in
  m <| dyn_slot_psx := l ++ repeat (-1) (Z.to_nat DYN_SLOT_COUNT - length l) |>
    <| psx_to_slot := map (fun r => index_of r l) (zseq 32) |> <| dyn_slots_active := 0 <? zlen l |>.

Definition slots : list Z := zseq (Z.to_nat DYN_SLOT_COUNT).
Definition slot_reg (m : Em) (i : Z) : Z := aget (dyn_slot_psx m) i.

Definition load_one_slot (skip : Z) (i : Z) : E unit :=
  do m <- egets (fun m => m);
  ewhen ((0 <=? slot_reg m i) && negb (Z.testbit skip (slot_reg m i)))
    (EMIT_LW (dyn_slot_ee i) (CPU_REG (slot_reg m i)) REG_S0 >> emodify (fun m => m <| dyn_slot_loaded_mask ::= set_bit i |>)).

Definition dyn_load_slots (write_before_read : Z) : E unit :=
  emodify (fun m => m <| dyn_slot_loaded_mask := 0 |>) >> eiter slots (load_one_slot write_before_read) >>
  emodify (fun m => m <| dyn_slot_entry_loaded := dyn_slot_loaded_mask m |>).

Definition dyn_reload_slots : E unit :=
  do m <- egets (fun m => m);
  ewhen (dyn_slots_active m)
    (emodify (fun m => m <| dyn_dirty_mask := 0 |> <| dyn_slot_loaded_mask := 0 |>) >> eiter slots (load_one_slot 0)).

Definition dyn_flush_dirty_slots : E unit :=
  do m <- egets (fun m => m);
  ewhen (dyn_slots_active m && negb (dyn_dirty_mask m =? 0))
    (eiter slots (fun i => ewhen (Z.testbit (dyn_dirty_mask m) i && (0 <=? slot_reg m i)) (EMIT_SW (dyn_slot_ee i) (CPU_REG (slot_reg m i)) REG_S0)) >>
     emodify (fun m => m <| dyn_dirty_mask := 0 |>)).

Definition dyn_flush_all_slots : E unit :=
  do m <- egets (fun m => m);
  ewhen (dyn_slots_active m)
    (eiter slots (fun i => ewhen (0 <=? slot_reg m i) (EMIT_SW (dyn_slot_ee i) (CPU_REG (slot_reg m i)) REG_S0)) >>
     emodify (fun m => m <| dyn_dirty_mask := 0 |>)).

Definition dyn_flush_one_slot (r : Z) : E unit :=
  do m <- egets (fun m => m);
  ewhen ((0 <? r) && has_slot m r && Z.testbit (dyn_dirty_mask m) (dyn_slot_of m r)) (EMIT_SW (dyn_slot_ee (dyn_slot_of m r)) (CPU_REG r) REG_S0).

Definition dyn_reload_one_slot (r : Z) : E unit :=
  do m <- egets (fun m => m);
  ewhen ((0 <? r) && has_slot m r) (EMIT_LW (dyn_slot_ee (dyn_slot_of m r)) (CPU_REG r) REG_S0).

Definition dyn_reset_slots (m : Em) : Em :=
  m <| dyn_slot_psx := repeat (-1) (Z.to_nat DYN_SLOT_COUNT) |> <| dyn_slots_active := false |> <| dyn_dirty_mask := 0 |> <| dyn_slot_loaded_mask := 0 |>.

Definition reset_vregs (m : Em) : Em :=
  dyn_reset_slots (reg_cache_invalidate (m <| vregs := repeat vreg0 32 |> <| dirty_const_mask := 0 |>
    <| smrv_known_ram := 0x20000000 |> <| align_known_mask := ALIGN_PINNED_MASK |>)).

(** ** The pinned registers *)

Definition emit_flush_pinned : E unit :=
  EMIT_SW REG_S6 (CPU_REG 28) REG_S0 >> EMIT_SW REG_S4 (CPU_REG 29) REG_S0 >> EMIT_SW REG_S7 (CPU_REG 30) REG_S0 >> EMIT_SW REG_S5 (CPU_REG 31) REG_S0.
Definition emit_reload_pinned : E unit :=
  EMIT_LW REG_S6 (CPU_REG 28) REG_S0 >> EMIT_LW REG_S4 (CPU_REG 29) REG_S0 >> EMIT_LW REG_S7 (CPU_REG 30) REG_S0 >> EMIT_LW REG_S5 (CPU_REG 31) REG_S0.
Definition emit_flush_pinned_selective (mask : Z) : E unit :=
  ewhen (Z.testbit mask 28) (EMIT_SW REG_S6 (CPU_REG 28) REG_S0) >> ewhen (Z.testbit mask 29) (EMIT_SW REG_S4 (CPU_REG 29) REG_S0) >>
  ewhen (Z.testbit mask 30) (EMIT_SW REG_S7 (CPU_REG 30) REG_S0) >> ewhen (Z.testbit mask 31) (EMIT_SW REG_S5 (CPU_REG 31) REG_S0).

(** ** Arithmetic ([emit_instruction]) *)

(** Shifts by a constant and the other operations on one register: [f] the
    folded value, [enc s d] the word. *)
Definition unary (src dst : Z) (f : Z -> Z) (enc : Z -> Z -> Z) (known : Em -> Em -> Em) : E unit :=
  do m0 <- egets (fun m => m);
  if is_vreg_const m0 src then mark_vreg_const_lazy dst (f (get_vreg_const m0 src))
  else
    mark_vreg_var dst >>
    do s <- emit_use_reg src REG_T8;
    do d <- emit_dst_reg dst REG_T8;
    emit (enc s d) >> emit_sync_reg dst d >> emodify (known m0).

Definition no_facts (m0 m : Em) : Em := m.

(** [mem_host_base_psx = -1;] *)
Definition drop_host_base : E unit := emodify (fun m => m <| mem_host_base_psx := -1 |>).

(** Operations on two registers; [fold] is missing for the variable shifts. *)
Definition binary (rs rt rd : Z) (fold : option (Z -> Z -> Z)) (first second : Z) (enc : Z -> Z -> Z -> Z) (known : Em -> Em -> Em) : E unit :=
  do m0 <- egets (fun m => m);
  match fold with
  | Some f =>
    if is_vreg_const m0 rs && is_vreg_const m0 rt then mark_vreg_const_lazy rd (f (get_vreg_const m0 rs) (get_vreg_const m0 rt))
    else
      mark_vreg_var rd >> drop_host_base >>
      do s1 <- emit_use_reg first REG_T8;
      do s2 <- emit_use_reg second REG_T9;
      do d <- emit_dst_reg rd REG_T8;
      emit (enc s1 s2 d) >> emit_sync_reg rd d >> emodify (known m0)
  | None =>
    mark_vreg_var rd >> drop_host_base >>
    do s1 <- emit_use_reg first REG_T8;
    do s2 <- emit_use_reg second REG_T9;
    do d <- emit_dst_reg rd REG_T8;
    emit (enc s1 s2 d) >> emit_sync_reg rd d >> emodify (known m0)
  end.

(** ** Calls of C helpers and overflow checks

    The addresses the linker and the trampoline generator chose are
    parameters. *)

(** The words of an emitter, not yet emitted: for a branch over them. *)
Definition capture {A} (e : E A) : E (A * list Z) := fun m => let '(x, (w, m)) := e m in ((x, w), ([], m)).
Definition emit_words (w : list Z) : E unit := fun m => (tt, (w, m)).

Section Calls.
Variables call_c_trampoline_addr call_c_trampoline_lite_addr abort_trampoline_addr Helper_Overflow_Exception : Z.

Definition EMIT_JAL_ABS (addr : Z) : E unit := emit (MK_J 3 (Z.shiftr addr 2)).
Definition EMIT_J_ABS (addr : Z) : E unit := emit (MK_J 2 (Z.shiftr addr 2)).

Definition emit_call_c (func_addr : Z) : E unit :=
  emodify (fun m => m <| block_full_calls ::= Z.succ |>) >>
  flush_dirty_consts >> dyn_flush_dirty_slots >> emit_load_imm32 REG_T8 func_addr >>
  EMIT_JAL_ABS call_c_trampoline_addr >> EMIT_SW REG_S2 CPU_CYCLES_LEFT REG_S0 >> dyn_reload_slots >>
  emodify (fun m => reg_cache_invalidate m <| mem_host_base_psx := -1 |> <| smrv_known_ram := 0x20000000 |> <| align_known_mask := ALIGN_PINNED_MASK |>).

Definition emit_call_c_lite (func_addr : Z) : E unit :=
  emodify (fun m => m <| block_lite_calls ::= Z.succ |>) >>
  flush_dirty_consts >> dyn_flush_dirty_slots >> emit_load_imm32 REG_T8 func_addr >>
  EMIT_JAL_ABS call_c_trampoline_lite_addr >> EMIT_SW REG_S2 CPU_CYCLES_LEFT REG_S0 >>
  emodify (fun m => reg_cache_invalidate m <| mem_host_base_psx := -1 |>).

Definition emit_abort_check (cycles : Z) : E unit :=
  EMIT_LW REG_AT CPU_BLOCK_ABORTED REG_S0 >>
  do saved <- egets dyn_dirty_mask;
  do c <- capture (EMIT_NOP >> dyn_flush_dirty_slots >> emodify (fun m => m <| dyn_dirty_mask := saved |>) >>
                   EMIT_J_ABS abort_trampoline_addr >> EMIT_ADDIU REG_S2 REG_S2 (- s16 cycles));
  emit (MK_I 0x04 REG_AT REG_ZERO (zlen (snd c) - 1)) >> emit_words (snd c).

(** A sum known at compile time to overflow raises without a check. *)
Definition raise_overflow (psx_pc : Z) : E unit :=
  emit_imm_to_cpu_field CPU_CURRENT_PC psx_pc >> emit_call_c Helper_Overflow_Exception >>
  do m <- egets (fun m => m); emit_abort_check (emit_cycle_offset m).

(** The branch on bit 31 of AT, its target filled in at the end. *)
Definition overflow_branch (psx_pc dst : Z) : E unit :=
  do m <- egets (fun m => m);
  emit (MK_I 0x01 REG_AT 0x00 0) >> EMIT_NOP >>
  emodify (fun m' => m' <| overflow_cold ::= fun l => l ++ [mkOvf (code_len m) psx_pc (s16 (emit_cycle_offset m)) dst] |>).

(** The old value of the destination is kept in [cpu.regs] for the exit. *)
Definition save_old (dst : Z) : E unit :=
  if negb (dst =? 0) && pinned dst then EMIT_SW (psx_pinned_reg dst) (CPU_REG dst) REG_S0 else dyn_flush_one_slot dst.

(** ADD, ADDI ([sub] false) and SUB; the second operand is [s2]. *)
Definition trapping (sub : bool) (psx_pc dst s1 s2 : Z) : E unit :=
  emit (MK_R 0 s1 s2 REG_AT 0 0x26) >> EMIT_SW s1 76 REG_SP >>
  do d <- emit_dst_reg dst REG_T8;
  let sr := if d =? REG_T8 then REG_T9 else REG_T8 in
  emit (MK_R 0 s1 s2 d 0 (if sub then 0x23 else 0x21)) >> EMIT_LW sr 76 REG_SP >>
  (if sub then EMIT_NOP else emit (MK_R 0 REG_AT REG_ZERO REG_AT 0 0x27)) >>
  emit (MK_R 0 d sr sr 0 0x26) >> emit (MK_R 0 REG_AT sr REG_AT 0 0x24) >>
  overflow_branch psx_pc dst >> emodify reg_cache_invalidate >> emit_sync_reg dst d.

Definition add_overflows (a b : Z) : bool := negb (tst (Z.lxor a b) 0x80000000) && tst (Z.lxor (u32 (a + b)) a) 0x80000000.
Definition sub_overflows (a b : Z) : bool := tst (Z.lxor a b) 0x80000000 && tst (Z.lxor (u32 (a - b)) a) 0x80000000.

Definition emit_ADD_SUB (sub : bool) (psx_pc rs rt rd : Z) : E unit :=
  do m <- egets (fun m => m);
  if is_vreg_const m rs && is_vreg_const m rt then
    let a := get_vreg_const m rs in let b := get_vreg_const m rt in
    if (if sub then sub_overflows a b else add_overflows a b) then raise_overflow psx_pc
    else mark_vreg_const_lazy rd (u32 (if sub then a - b else a + b))
  else
    mark_vreg_var rd >> drop_host_base >>
    do s1 <- emit_use_reg rs REG_T8;
    do s2 <- emit_use_reg rt REG_T9;
    save_old rd >> trapping sub psx_pc rd s1 s2.

Definition emit_ADDI (psx_pc rs rt imm : Z) : E unit :=
  do m <- egets (fun m => m);
  if is_vreg_const m rs then
    let a := get_vreg_const m rs in
    if add_overflows a (u32 imm) then raise_overflow psx_pc else mark_vreg_const_lazy rt (u32 (a + imm))
  else
    mark_vreg_var rt >> drop_host_base >>
    do s1 <- emit_use_reg rs REG_T8;
    save_old rt >> emit_load_imm32 REG_T9 (u32 imm) >> trapping false psx_pc rt s1 REG_T9 >>
    emodify (fun m' =>
      let m' := if smrv_is_known_ram m rs then smrv_set_ram rt m' else m' in
      if align_is_known m rs && (Z.land imm 3 =? 0) then align_set rt m' else m').

(** The exits of the overflow checks, at the end of a block: the stub they
    share, then one entry per check.  Returned are the branches to patch with
    their offsets. [code_base] is the address of the first word. *)
Definition MAX_OVERFLOW_COLD : Z := 32.

Definition cold_entry (code_base shared_stub : Z) (e : OverflowColdEntry) : E (Z * Z) :=
  do here <- egets code_len;
  ewhen (0 <? restore_psx e)
    (if pinned (restore_psx e) then EMIT_LW (psx_pinned_reg (restore_psx e)) (CPU_REG (restore_psx e)) REG_S0 else dyn_reload_one_slot (restore_psx e)) >>
  emit_load_imm32 REG_AT (ovf_pc e) >>
  emit (MK_J 2 (Z.shiftr (u32 (code_base + 4 * shared_stub)) 2)) >>
  emit (MK_I 0x09 REG_ZERO REG_T9 (u16 (- s16 (cycle_offset e)))) >>
  eret (branch_patch e, here - branch_patch e - 1).

Fixpoint cold_entries (code_base shared_stub : Z) (l : list OverflowColdEntry) : E (list (Z * Z)) :=
  match l with
  | [] => eret []
  | e :: l => do p <- cold_entry code_base shared_stub e; do k <- cold_entries code_base shared_stub l; eret (p :: k)
  end.

(** The part of the stub that saves the address, the cycles and all slots. *)
Definition cold_flush : E unit :=
  do m <- egets (fun m => m);
  EMIT_SW REG_AT CPU_CURRENT_PC REG_S0 >> EMIT_SW REG_T9 76 REG_SP >>
  ewhen (dyn_slots_active m) (eiter slots (fun i => ewhen (0 <=? slot_reg m i) (EMIT_SW (dyn_slot_ee i) (CPU_REG (slot_reg m i)) REG_S0))).

Definition overflow_cold_emit_all (code_base : Z) : E (list (Z * Z)) :=
  do m <- egets (fun m => m);
  match overflow_cold m with
  | [] => eret []
  | _ =>
    cold_flush >> emit_load_imm32 REG_T8 Helper_Overflow_Exception >> EMIT_JAL_ABS call_c_trampoline_addr >> EMIT_SW REG_S2 CPU_CYCLES_LEFT REG_S0 >>
    EMIT_LW REG_T9 76 REG_SP >> EMIT_J_ABS abort_trampoline_addr >> emit (MK_R 0 REG_S2 REG_T9 REG_S2 0 0x21) >>
    do patches <- cold_entries code_base (code_len m) (overflow_cold m);
    emodify (fun m => m <| overflow_cold := [] |>) >> eret patches
  end.

(** What is known of a sum: a RAM address plus little stays in RAM; sums of
    aligned values are aligned. *)
Definition little (v : Z) : bool := (-0x8000 <=? s32 v) && (s32 v <=? 0x7FFF).

Definition facts_ADDU (rs rt rd : Z) (m0 m : Em) : Em :=
  let ram := ((rt =? 0) && smrv_is_known_ram m0 rs) || ((rs =? 0) && smrv_is_known_ram m0 rt)
    || (smrv_is_known_ram m0 rs && is_vreg_const m0 rt && little (get_vreg_const m0 rt))
    || (smrv_is_known_ram m0 rt && is_vreg_const m0 rs && little (get_vreg_const m0 rs)) in
  let aligned := ((rt =? 0) && align_is_known m0 rs) || ((rs =? 0) && align_is_known m0 rt)
    || (align_is_known m0 rs && align_is_known m0 rt)
    || (align_is_known m0 rs && is_vreg_const m0 rt && (Z.land (get_vreg_const m0 rt) 3 =? 0))
    || (align_is_known m0 rt && is_vreg_const m0 rs && (Z.land (get_vreg_const m0 rs) 3 =? 0)) in
  let m := if ram then smrv_set_ram rd m else m in if aligned then align_set rd m else m.

Definition facts_SUBU (rs rt rd : Z) (m0 m : Em) : Em :=
  let ram := smrv_is_known_ram m0 rs && is_vreg_const m0 rt && little (get_vreg_const m0 rt) in
  let m := if ram then smrv_set_ram rd m else m in
  if align_is_known m0 rs && align_is_known m0 rt then align_set rd m else m.

Definition facts_OR (rs rt rd : Z) (m0 m : Em) : Em :=
  if ((rt =? 0) && smrv_is_known_ram m0 rs) || ((rs =? 0) && smrv_is_known_ram m0 rt) then smrv_set_ram rd m else m.

Definition facts_IMM (rs rt imm : Z) (m0 m : Em) : Em :=
  let m := if smrv_is_known_ram m0 rs then smrv_set_ram rt m else m in
  if align_is_known m0 rs && (Z.land imm 3 =? 0) then align_set rt m else m.

(** HI and LO after a multiplication; every other one uses the second
    pipeline. *)
Definition emit_mult (unsigned : bool) (rs rt : Z) : E unit :=
  drop_host_base >> emit_load_psx_reg REG_T8 rs >> emit_load_psx_reg REG_T9 rt >>
  do n <- egets mult_count;
  emodify (fun m => m <| mult_count ::= Z.succ |>) >>
  (if Z.land n 1 =? 0 then
     (if unsigned then EMIT_MULTU1 REG_T8 REG_T9 else EMIT_MULT1 REG_T8 REG_T9) >> EMIT_MFLO1 REG_T8 >>
     EMIT_SW REG_T8 CPU_LO REG_S0 >> EMIT_MFHI1 REG_T8
   else
     emit (MK_R 0 REG_T8 REG_T9 0 0 (if unsigned then 0x19 else 0x18)) >> emit (MK_R 0 0 0 REG_T8 0 0x12) >>
     EMIT_SW REG_T8 CPU_LO REG_S0 >> emit (MK_R 0 0 0 REG_T8 0 0x10)) >>
  EMIT_SW REG_T8 CPU_HI REG_S0 >> emodify reg_cache_invalidate.

(** Division; MOVZ puts the results for a zero divisor in their place. *)
Definition emit_div (unsigned : bool) (rs rt : Z) : E unit :=
  drop_host_base >>
  do s1 <- emit_use_reg rs REG_T8;
  do s2 <- emit_use_reg rt REG_T9;
  emit (MK_R 0 s1 s2 0 0 (if unsigned then 0x1B else 0x1A)) >>
  (if unsigned then EMIT_ADDIU REG_AT REG_ZERO (-1)
   else emit (MK_R 0 0 s1 REG_AT 31 0x03) >> emit (MK_R 0 0 REG_AT REG_AT 1 0x00) >> emit (MK_R 0 REG_AT REG_ZERO REG_AT 0 0x27)) >>
  emit (MK_R 0 0 0 REG_T8 0 0x12) >> EMIT_MOVZ REG_T8 REG_AT s2 >> EMIT_SW REG_T8 CPU_LO REG_S0 >>
  emit (MK_R 0 0 0 REG_T8 0 0x10) >>
  (if s1 =? REG_T8 then EMIT_LW REG_AT (CPU_REG rs) REG_S0 >> EMIT_MOVZ REG_T8 REG_AT s2 else EMIT_MOVZ REG_T8 s1 s2) >>
  EMIT_SW REG_T8 CPU_HI REG_S0 >> emodify reg_cache_invalidate.

Definition emit_special (opcode psx_pc : Z) : option (E unit) :=
  let rs := RS opcode in let rt := RT opcode in let rd := RD opcode in let sa := SHAMT opcode in
  let shift (f : Z -> Z) fn := Some (unary rt rd f (fun s d => MK_R 0 0 s d sa fn) no_facts) in
  let shiftv fn := Some (binary rs rt rd None rt rs (fun s1 s2 d => MK_R 0 s2 s1 d 0 fn) no_facts) in
  let op2 (f : Z -> Z -> Z) fn facts := Some (binary rs rt rd (Some f) rs rt (fun s1 s2 d => MK_R 0 s1 s2 d 0 fn) facts) in
  match FUNCT opcode with
  | 0x00 => shift (fun v => u32 (Z.shiftl v sa)) 0x00
  | 0x02 => shift (fun v => Z.shiftr v sa) 0x02
  | 0x03 => shift (fun v => u32 (Z.shiftr (s32 v) sa)) 0x03
  | 0x04 => shiftv 0x04
  | 0x06 => shiftv 0x06
  | 0x07 => shiftv 0x07
  | 0x0C | 0x0D => None
  | 0x10 => Some (emit_cpu_field_to_psx_reg CPU_HI rd)
  | 0x11 => Some (emit_load_psx_reg REG_T8 rs >> EMIT_SW REG_T8 CPU_HI REG_S0)
  | 0x12 => Some (emit_cpu_field_to_psx_reg CPU_LO rd)
  | 0x13 => Some (emit_load_psx_reg REG_T8 rs >> EMIT_SW REG_T8 CPU_LO REG_S0)
  | 0x18 => Some (emit_mult false rs rt)
  | 0x19 => Some (emit_mult true rs rt)
  | 0x1A => Some (emit_div false rs rt)
  | 0x1B => Some (emit_div true rs rt)
  | 0x20 => Some (emit_ADD_SUB false psx_pc rs rt rd)
  | 0x21 => op2 (fun a b => u32 (a + b)) 0x21 (facts_ADDU rs rt rd)
  | 0x22 => Some (emit_ADD_SUB true psx_pc rs rt rd)
  | 0x23 => op2 (fun a b => u32 (a - b)) 0x23 (facts_SUBU rs rt rd)
  | 0x24 => op2 Z.land 0x24 no_facts
  | 0x25 => op2 Z.lor 0x25 (facts_OR rs rt rd)
  | 0x26 => op2 Z.lxor 0x26 no_facts
  | 0x27 => op2 (fun a b => not32 (Z.lor a b)) 0x27 no_facts
  | 0x2A => op2 (fun a b => b2z (s32 a <? s32 b)) 0x2A no_facts
  | 0x2B => op2 (fun a b => b2z (a <? b)) 0x2B no_facts
  | _ => Some (eret tt)
  end.

(** The arithmetic instructions; [None] for the others, which call C or
    touch memory and coprocessors. *)
Definition emit_alu (opcode psx_pc : Z) : option (E unit) :=
  let rs := RS opcode in let rt := RT opcode in let imm := IMM_SE opcode in let uimm := IMM opcode in
  let op1 (f : Z -> Z) op i facts := Some (unary rs rt f (fun s d => MK_I op s d i) facts) in
  if opcode =? 0 then Some (eret tt)
  else match OP opcode with
  | 0x00 => emit_special opcode psx_pc
  | 0x08 => Some (emit_ADDI psx_pc rs rt imm)
  | 0x09 => op1 (fun a => u32 (a + imm)) 0x09 imm (facts_IMM rs rt imm)
  | 0x0A => op1 (fun a => b2z (s32 a <? imm)) 0x0A imm no_facts
  | 0x0B => op1 (fun a => b2z (a <? u32 imm)) 0x0B imm no_facts
  | 0x0C => op1 (fun a => Z.land a uimm) 0x0C uimm no_facts
  | 0x0D => op1 (fun a => Z.lor a uimm) 0x0D uimm (facts_IMM rs rt uimm)
  | 0x0E => op1 (fun a => Z.lxor a uimm) 0x0E uimm no_facts
  | 0x0F => Some (mark_vreg_const_lazy rt (Z.shiftl uimm 16))
  | _ => None
  end.
End Calls.

(** ** A block of arithmetic

    The registers are loaded as at the entry of a block, the constants found
    before it are seeded, the instructions are translated one after the other,
    and everything goes back to [cpu.regs] as before a jump to another
    block. *)
Section Block.
Variables call_c_trampoline_addr abort_trampoline_addr Helper_Overflow_Exception : Z.

Fixpoint mark_seeds (seeds : list (Z * Z)) : E unit :=
  match seeds with [] => eret tt | (r, v) :: seeds => mark_vreg_const r v >> mark_seeds seeds end.

Definition block_entry (scan : BlockScanResult) (seeds : list (Z * Z)) : E unit :=
  emodify (fun m => m <| mem_host_base_psx := -1 |>) >> emodify reset_vregs >> mark_seeds seeds >>
  emit_reload_pinned >> emodify (dyn_assign_slots scan) >> dyn_load_slots (reg_write_before_read scan).

Fixpoint emit_all (ops : list Z) (psx_pc : Z) : option (E unit) :=
  match ops with
  | [] => Some (eret tt)
  | o :: ops =>
    match emit_alu call_c_trampoline_addr abort_trampoline_addr Helper_Overflow_Exception o psx_pc, emit_all ops (u32 (psx_pc + 4)) with
    | Some e, Some k => Some (e >> k)
    | _, _ => None
    end
  end.

Definition block_exit : E unit := flush_dirty_consts >> dyn_flush_dirty_slots >> emit_flush_pinned.
End Block.
