(* ===== verification/EmitMath.v ===== *)
(** * The emitted code computes what the instructions compute

    The host processor, restricted to the words the emitter uses: encoding and
    decoding, runs of emitted words, registers and fields. *)

From S2P Require Import Prelude Scheduler System Cpu Memory Gte Interpreter InterpSafe InterpRef Recompiler RecompMath Emit.
#[local] Open Scope emit_scope.

(** ** The host

    Registers hold 32-bit values (the upper halves are sign extensions).
    [cpu_mem] is the processor structure that S0 points to, [stack_mem] the
    frame of the block, by offset.  What a division by zero leaves is not
    specified: [div0] is any function. *)

Record Ee := mkEe { gpr : list Z; ehi : Z; elo : Z; ehi1 : Z; elo1 : Z; cpu_mem : gmap Z Z; stack_mem : gmap Z Z }.
#[export] Instance eta_Ee : Eta Ee := fun h => mkEe (gpr h) (ehi h) (elo h) (ehi1 h) (elo1 h) (cpu_mem h) (stack_mem h).

Section Host.
Variable div0 : Z -> Z * Z.

Definition reg_of (h : Ee) (i : Z) : Z := aget (gpr h) i.
Definition set_gpr (i v : Z) (h : Ee) : Ee := h <| gpr ::= put i v |>.
Definition field (h : Ee) (off : Z) : Z := default 0 (cpu_mem h !! off).

Definition host_div (a b : Z) : Z * Z := if b =? 0 then div0 a else (u32 (Z.quot (s32 a) (s32 b)), u32 (Z.rem (s32 a) (s32 b))).
Definition host_divu (a b : Z) : Z * Z := if b =? 0 then div0 a else (a / b, a mod b).

(** A word of the SPECIAL group, by its fields. *)
Definition ee_special (fn rs rt rd sa : Z) (h : Ee) : option Ee :=
  let a := reg_of h rs in
  let b := reg_of h rt in
  let w v := Some (set_gpr rd v h) in
  let hilo p := Some (h <| ehi := snd p |> <| elo := fst p |>) in
  match fn with
  | 0x00 => w (u32 (Z.shiftl b sa))
  | 0x02 => w (Z.shiftr b sa)
  | 0x03 => w (u32 (Z.shiftr (s32 b) sa))
  | 0x04 => w (u32 (Z.shiftl b (Z.land a 31)))
  | 0x06 => w (Z.shiftr b (Z.land a 31))
  | 0x07 => w (u32 (Z.shiftr (s32 b) (Z.land a 31)))
  | 0x0A => if b =? 0 then w a else Some h
  | 0x10 => w (ehi h)
  | 0x12 => w (elo h)
  | 0x18 => hilo (u32 (s32 a * s32 b), u32 (Z.shiftr (s32 a * s32 b) 32))
  | 0x19 => hilo (u32 (a * b), u32 (Z.shiftr (a * b) 32))
  | 0x1A => hilo (host_div a b)
  | 0x1B => hilo (host_divu a b)
  | 0x21 => w (u32 (a + b))
  | 0x23 => w (u32 (a - b))
  | 0x24 => w (Z.land a b)
  | 0x25 => w (Z.lor a b)
  | 0x26 => w (Z.lxor a b)
  | 0x27 => w (not32 (Z.lor a b))
  | 0x2A => w (b2z (s32 a <? s32 b))
  | 0x2B => w (b2z (a <? b))
  | _ => None
  end.

(** The second multiplier of the R5900. *)
Definition ee_mmi (fn rs rt rd : Z) (h : Ee) : option Ee :=
  let a := reg_of h rs in
  let b := reg_of h rt in
  let hilo1 p := Some (h <| ehi1 := snd p |> <| elo1 := fst p |>) in
  match fn with
  | 0x10 => Some (set_gpr rd (ehi1 h) h)
  | 0x12 => Some (set_gpr rd (elo1 h) h)
  | 0x18 => hilo1 (u32 (s32 a * s32 b), u32 (Z.shiftr (s32 a * s32 b) 32))
  | 0x19 => hilo1 (u32 (a * b), u32 (Z.shiftr (a * b) 32))
  | _ => None
  end.

(** A word with an immediate; loads and stores go to the processor structure
    or the frame.  BLTZ leaves the straight line when it is taken. *)
Definition ee_imm (op rs rt imm : Z) (h : Ee) : option Ee :=
  let a := reg_of h rs in
  let w v := Some (set_gpr rt v h) in
  match op with
  | 0x01 => if (rt =? 0) && negb (s32 a <? 0) then Some h else None
  | 0x09 => w (u32 (a + s16 imm))
  | 0x0A => w (b2z (s32 a <? s16 imm))
  | 0x0B => w (b2z (a <? u32 (s16 imm)))
  | 0x0C => w (Z.land a imm)
  | 0x0D => w (Z.lor a imm)
  | 0x0E => w (Z.lxor a imm)
  | 0x0F => w (Z.shiftl imm 16)
  | 0x23 => if rs =? REG_S0 then w (field h (s16 imm)) else if rs =? REG_SP then w (default 0 (stack_mem h !! s16 imm)) else None
  | 0x2B => if rs =? REG_S0 then Some (h <| cpu_mem ::= <[s16 imm := reg_of h rt]> |>)
            else if rs =? REG_SP then Some (h <| stack_mem ::= <[s16 imm := reg_of h rt]> |>) else None
  | _ => None
  end.

Definition ee_step (w : Z) (h : Ee) : option Ee :=
  if OP w =? 0 then ee_special (FUNCT w) (RS w) (RT w) (RD w) (SHAMT w) h
  else if OP w =? 0x1C then ee_mmi (FUNCT w) (RS w) (RT w) (RD w) h
  else ee_imm (OP w) (RS w) (RT w) (IMM w) h.

Fixpoint ee_run (ws : list Z) (h : Ee) : option Ee :=
  match ws with
  | [] => Some h
  | w :: ws => match ee_step w h with None => None | Some h => ee_run ws h end
  end.

Lemma ee_run_app w1 w2 h : ee_run (w1 ++ w2) h = match ee_run w1 h with None => None | Some h => ee_run w2 h end.
Proof. revert h. induction w1 as [|w w1 IH]; intros h; cbn; [reflexivity|]. destruct (ee_step w h); [apply IH | reflexivity]. Qed.

(** ** Encoding and decoding *)

Lemma MK_R_sum op rs rt rd sa fn : 0 <= fn < 64 -> 0 <= sa < 32 -> 0 <= rd < 32 -> 0 <= rt < 32 -> 0 <= rs < 32 -> 0 <= op ->
  MK_R op rs rt rd sa fn = fn + sa * 2 ^ 6 + rd * 2 ^ 11 + rt * 2 ^ 16 + rs * 2 ^ 21 + op * 2 ^ 26.
Proof.
  intros Hf Hs Hd Ht Hr Ho. unfold MK_R.
  rewrite (Z.lor_comm (Z.shiftl sa 6)), (lor_concat 6) by lia.
  rewrite (Z.lor_comm (Z.shiftl rd 11)), (lor_concat 11) by lia.
  rewrite (Z.lor_comm (Z.shiftl rt 16)), (lor_concat 16) by lia.
  rewrite (Z.lor_comm (Z.shiftl rs 21)), (lor_concat 21) by lia.
  rewrite (Z.lor_comm (Z.shiftl op 26)), (lor_concat 26) by lia. reflexivity.
Qed.

Lemma MK_I_sum op rs rt imm : 0 <= rt < 32 -> 0 <= rs < 32 -> 0 <= op ->
  MK_I op rs rt imm = u16 imm + rt * 2 ^ 16 + rs * 2 ^ 21 + op * 2 ^ 26.
Proof.
  intros Ht Hr Ho. unfold MK_I. change 0xFFFF with (Z.ones 16). rewrite Z.land_ones by lia. change (imm mod 2 ^ 16) with (u16 imm).
  pose proof (u16_range imm) as Hi. unfold is_u16 in Hi.
  rewrite (Z.lor_comm (Z.shiftl rt 16)), (lor_concat 16) by lia.
  rewrite (Z.lor_comm (Z.shiftl rs 21)), (lor_concat 21) by lia.
  rewrite (Z.lor_comm (Z.shiftl op 26)), (lor_concat 26) by lia. reflexivity.
Qed.

Lemma field_at x lo n hi : 0 <= n -> 0 <= lo < 2 ^ n -> 0 <= x < 32 -> Z.land (Z.shiftr (lo + x * 2 ^ n + hi * 2 ^ (n + 5)) n) 31 = x.
Proof.
  intros Hn Hl Hx. change 31 with (Z.ones 5). rewrite Z.land_ones, Z.shiftr_div_pow2 by lia.
  rewrite Z.pow_add_r by lia. replace (lo + x * 2 ^ n + hi * (2 ^ n * 2 ^ 5)) with (lo + (x + hi * 2 ^ 5) * 2 ^ n) by ring.
  rewrite Z.div_add, (Z.div_small lo) by lia. rewrite Z.add_0_l, Z.mod_add by lia. apply Z.mod_small. lia.
Qed.

Lemma op_at lo op : 0 <= lo < 2 ^ 26 -> Z.shiftr (lo + op * 2 ^ 26) 26 = op.
Proof. intros Hl. rewrite Z.shiftr_div_pow2, Z.div_add, Z.div_small by lia. lia. Qed.

Lemma decode_R op rs rt rd sa fn : 0 <= fn < 64 -> 0 <= sa < 32 -> 0 <= rd < 32 -> 0 <= rt < 32 -> 0 <= rs < 32 -> 0 <= op ->
  let w := MK_R op rs rt rd sa fn in OP w = op /\ RS w = rs /\ RT w = rt /\ RD w = rd /\ SHAMT w = sa /\ FUNCT w = fn.
Proof.
  intros Hf Hs Hd Ht Hr Ho. cbv zeta. rewrite MK_R_sum by assumption. unfold OP, RS, RT, RD, SHAMT, FUNCT.
  split; [apply op_at; lia|].
  split; [replace (_ + op * 2 ^ 26) with (fn + sa * 2 ^ 6 + rd * 2 ^ 11 + rt * 2 ^ 16 + rs * 2 ^ 21 + op * 2 ^ (21 + 5)) by reflexivity; apply field_at; lia|].
  split; [replace (_ + op * 2 ^ 26) with (fn + sa * 2 ^ 6 + rd * 2 ^ 11 + rt * 2 ^ 16 + (rs + op * 2 ^ 5) * 2 ^ (16 + 5)) by lia; apply field_at; lia|].
  split; [replace (_ + op * 2 ^ 26) with (fn + sa * 2 ^ 6 + rd * 2 ^ 11 + (rt + rs * 2 ^ 5 + op * 2 ^ 10) * 2 ^ (11 + 5)) by lia; apply field_at; lia|].
  split; [replace (_ + op * 2 ^ 26) with (fn + sa * 2 ^ 6 + (rd + rt * 2 ^ 5 + rs * 2 ^ 10 + op * 2 ^ 15) * 2 ^ (6 + 5)) by lia; apply field_at; lia|].
  change 63 with (Z.ones 6). rewrite Z.land_ones by lia.
  replace (_ + op * 2 ^ 26) with (fn + (sa + rd * 2 ^ 5 + rt * 2 ^ 10 + rs * 2 ^ 15 + op * 2 ^ 20) * 2 ^ 6) by lia.
  rewrite Z.mod_add, Z.mod_small by lia. reflexivity.
Qed.

Lemma decode_I op rs rt imm : 0 <= rt < 32 -> 0 <= rs < 32 -> 0 <= op ->
  let w := MK_I op rs rt imm in OP w = op /\ RS w = rs /\ RT w = rt /\ IMM w = u16 imm.
Proof.
  intros Ht Hr Ho. cbv zeta. pose proof (u16_range imm) as Hi. unfold is_u16 in Hi. rewrite MK_I_sum by assumption. unfold OP, RS, RT, IMM.
  split; [apply op_at; lia|].
  split; [replace (_ + op * 2 ^ 26) with (u16 imm + rt * 2 ^ 16 + rs * 2 ^ 21 + op * 2 ^ (21 + 5)) by reflexivity; apply field_at; lia|].
  split; [replace (_ + op * 2 ^ 26) with (u16 imm + rt * 2 ^ 16 + (rs + op * 2 ^ 5) * 2 ^ (16 + 5)) by lia; apply field_at; lia|].
  change 65535 with (Z.ones 16). rewrite Z.land_ones by lia.
  replace (_ + op * 2 ^ 26) with (u16 imm + (rt + rs * 2 ^ 5 + op * 2 ^ 10) * 2 ^ 16) by lia.
  rewrite Z.mod_add, Z.mod_small by lia. reflexivity.
Qed.

Lemma step_special rs rt rd sa fn h : 0 <= fn < 64 -> 0 <= sa < 32 -> 0 <= rd < 32 -> 0 <= rt < 32 -> 0 <= rs < 32 ->
  ee_step (MK_R 0 rs rt rd sa fn) h = ee_special fn rs rt rd sa h.
Proof.
  intros Hf Hs Hd Ht Hr. destruct (decode_R 0 rs rt rd sa fn Hf Hs Hd Ht Hr ltac:(lia)) as (Eo & Es & Et & Ed & Ea & Ef).
  unfold ee_step. rewrite Eo, Es, Et, Ed, Ea, Ef. reflexivity.
Qed.

Lemma step_mmi rs rt rd fn h : 0 <= fn < 64 -> 0 <= rd < 32 -> 0 <= rt < 32 -> 0 <= rs < 32 ->
  ee_step (MK_R 0x1C rs rt rd 0 fn) h = ee_mmi fn rs rt rd h.
Proof.
  intros Hf Hd Ht Hr. destruct (decode_R 0x1C rs rt rd 0 fn Hf ltac:(lia) Hd Ht Hr ltac:(lia)) as (Eo & Es & Et & Ed & _ & Ef).
  unfold ee_step. rewrite Eo, Es, Et, Ed, Ef. reflexivity.
Qed.

Lemma step_imm op rs rt imm h : 0 < op -> op <> 0x1C -> 0 <= rt < 32 -> 0 <= rs < 32 ->
  ee_step (MK_I op rs rt imm) h = ee_imm op rs rt (u16 imm) h.
Proof.
  intros Ho Hn Ht Hr. destruct (decode_I op rs rt imm Ht Hr ltac:(lia)) as (Eo & Es & Et & Ei).
  unfold ee_step. rewrite Eo, Es, Et, Ei. destruct (Z.eqb_spec op 0); [lia|]. destruct (Z.eqb_spec op 0x1C); [lia | reflexivity].
Qed.

(** ** Emitting and running *)

(** The state after an emitter and after the words it emitted. *)
Definition exec {A} (e : E A) (m : Em) (h : Ee) : option (A * (Em * Ee)) :=
  let '(x, (w, m)) := e m in match ee_run w h with None => None | Some h => Some (x, (m, h)) end.

Lemma exec_ret {A} (x : A) m h : exec (eret x) m h = Some (x, (m, h)).
Proof. reflexivity. Qed.

Lemma exec_bind {A B} (e : E A) (k : A -> E B) m h :
  exec (ebind e k) m h = match exec e m h with None => None | Some (x, (m, h)) => exec (k x) m h end.
Proof.
  unfold exec, ebind. destruct (e m) as [x [w1 m1]] eqn:E1. destruct (k x m1) as [y [w2 m2]] eqn:E2.
  rewrite ee_run_app. destruct (ee_run w1 h) as [h1|]; [|reflexivity]. rewrite E2. reflexivity.
Qed.

Lemma exec_modify f m h : exec (emodify f) m h = Some (tt, (f m, h)).
Proof. reflexivity. Qed.

Lemma exec_gets {A} (f : Em -> A) m h : exec (egets f) m h = Some (f m, (m, h)).
Proof. reflexivity. Qed.

Lemma exec_when b e m h : exec (ewhen b e) m h = if b then exec e m h else Some (tt, (m, h)).
Proof. destruct b; reflexivity. Qed.

Lemma exec_if {A} (b : bool) (e1 e2 : E A) m h : exec (if b then e1 else e2) m h = if b then exec e1 m h else exec e2 m h.
Proof. destruct b; reflexivity. Qed.

(** Emission counts words and nothing else. *)
Definition counted (n : Z) (m : Em) : Em := m <| code_len := n |>.

Lemma exec_emit w m h : exec (emit w) m h = match ee_step w h with None => None | Some h => Some (tt, (counted (Z.succ (code_len m)) m, h)) end.
Proof. unfold exec, emit. cbn [ee_run]. destruct (ee_step w h); reflexivity. Qed.

Lemma exec_special rs rt rd sa fn m h : 0 <= fn < 64 -> 0 <= sa < 32 -> 0 <= rd < 32 -> 0 <= rt < 32 -> 0 <= rs < 32 ->
  exec (emit (MK_R 0 rs rt rd sa fn)) m h =
  match ee_special fn rs rt rd sa h with None => None | Some h => Some (tt, (counted (Z.succ (code_len m)) m, h)) end.
Proof. intros. rewrite exec_emit, step_special by assumption. reflexivity. Qed.

Lemma exec_mmi rs rt rd fn m h : 0 <= fn < 64 -> 0 <= rd < 32 -> 0 <= rt < 32 -> 0 <= rs < 32 ->
  exec (emit (MK_R 0x1C rs rt rd 0 fn)) m h =
  match ee_mmi fn rs rt rd h with None => None | Some h => Some (tt, (counted (Z.succ (code_len m)) m, h)) end.
Proof. intros. rewrite exec_emit, step_mmi by assumption. reflexivity. Qed.

Lemma exec_imm op rs rt imm m h : 0 < op -> op <> 0x1C -> 0 <= rt < 32 -> 0 <= rs < 32 ->
  exec (emit (MK_I op rs rt imm)) m h =
  match ee_imm op rs rt (u16 imm) h with None => None | Some h => Some (tt, (counted (Z.succ (code_len m)) m, h)) end.
Proof. intros. rewrite exec_emit, step_imm by assumption. reflexivity. Qed.

Lemma s16_u16 x : s16 (u16 x) = s16 x.
Proof. unfold s16. replace (u16 (u16 x)) with (u16 x); [reflexivity|]. unfold u16. rewrite Z.mod_mod by lia. reflexivity. Qed.

Lemma s16_small x : 0 <= x < 32768 -> s16 x = x.
Proof. intros H. unfold s16, u16. rewrite Z.mod_small by lia. destruct (Z.ltb_spec x 32768); lia. Qed.

(** Loads and stores of the emitter. *)
Lemma exec_LW_cpu rt off m h : 0 <= rt < 32 -> 0 <= off < 32768 ->
  exec (EMIT_LW rt off REG_S0) m h = Some (tt, (counted (Z.succ (code_len m)) m, set_gpr rt (field h off) h)).
Proof. intros Ht Ho. unfold EMIT_LW. rewrite exec_imm by (unfold REG_S0; lia). cbn [ee_imm]. rewrite s16_u16, s16_small by lia. reflexivity. Qed.

Definition set_field (off v : Z) (h : Ee) : Ee := h <| cpu_mem ::= <[off := v]> |>.

Lemma exec_SW_cpu rt off m h : 0 <= rt < 32 -> 0 <= off < 32768 ->
  exec (EMIT_SW rt off REG_S0) m h = Some (tt, (counted (Z.succ (code_len m)) m, set_field off (reg_of h rt) h)).
Proof. intros Ht Ho. unfold EMIT_SW. rewrite exec_imm by (unfold REG_S0; lia). cbn [ee_imm]. rewrite s16_u16, s16_small by lia. reflexivity. Qed.

Lemma exec_LW_stack rt off m h : 0 <= rt < 32 -> 0 <= off < 32768 ->
  exec (EMIT_LW rt off REG_SP) m h = Some (tt, (counted (Z.succ (code_len m)) m, set_gpr rt (default 0 (stack_mem h !! off)) h)).
Proof. intros Ht Ho. unfold EMIT_LW. rewrite exec_imm by (unfold REG_SP; lia). cbn [ee_imm]. rewrite s16_u16, s16_small by lia. reflexivity. Qed.

Lemma exec_SW_stack rt off m h : 0 <= rt < 32 -> 0 <= off < 32768 ->
  exec (EMIT_SW rt off REG_SP) m h = Some (tt, (counted (Z.succ (code_len m)) m, h <| stack_mem ::= <[off := reg_of h rt]> |>)).
Proof. intros Ht Ho. unfold EMIT_SW. rewrite exec_imm by (unfold REG_SP; lia). cbn [ee_imm]. rewrite s16_u16, s16_small by lia. reflexivity. Qed.

(** ** Registers and fields of the host *)

Definition gpr_ok (h : Ee) : Prop := zlen (gpr h) = 32 /\ reg_of h 0 = 0.

Lemma reg_set_eq i v h : gpr_ok h -> 0 < i < 32 -> reg_of (set_gpr i v h) i = v.
Proof.
  intros [Hl _] Hi. unfold reg_of. change (gpr (set_gpr i v h)) with (put i v (gpr h)). unfold put.
  rewrite (proj2 (Z.eqb_neq i 0)) by lia. apply aget_aset_eq. lia.
Qed.

Lemma reg_set_ne i v h j : 0 <= i -> 0 <= j -> i <> j -> reg_of (set_gpr i v h) j = reg_of h j.
Proof.
  intros Hi Hj Hn. unfold reg_of. change (gpr (set_gpr i v h)) with (put i v (gpr h)). unfold put.
  destruct (i =? 0); [reflexivity | apply aget_aset_ne; lia].
Qed.

Lemma gpr_set_ok i v h : 0 <= i -> gpr_ok h -> gpr_ok (set_gpr i v h).
Proof.
  intros Hi [Hl Hz]. destruct (Z.eq_dec i 0) as [->|Hn]; [destruct h; split; assumption|]. split.
  - change (gpr (set_gpr i v h)) with (put i v (gpr h)). unfold put. destruct (i =? 0); [exact Hl | rewrite zlen_aset; exact Hl].
  - rewrite reg_set_ne by lia. exact Hz.
Qed.

Lemma field_set_gpr i v h off : field (set_gpr i v h) off = field h off.
Proof. reflexivity. Qed.

Lemma field_set_eq off v h : field (set_field off v h) off = v.
Proof. unfold field, set_field. destruct h; cbn. rewrite lookup_insert_eq. reflexivity. Qed.

Lemma field_set_ne off v h off' : off <> off' -> field (set_field off v h) off' = field h off'.
Proof. intros Hn. unfold field, set_field. destruct h; cbn. rewrite lookup_insert_ne by exact Hn. reflexivity. Qed.

Lemma set_gpr_twice i v v' h : set_gpr i v (set_gpr i v' h) = set_gpr i v h.
Proof.
  destruct h as [g a b c d e f]. change (mkEe (put i v (put i v' g)) a b c d e f = mkEe (put i v g) a b c d e f). f_equal.
  unfold put. destruct (i =? 0); [reflexivity|]. unfold aset. apply list_insert_insert_eq.
Qed.

(** A constant in one or two words. *)
Lemma exec_load_imm32 x val m h : 0 < x < 32 -> is_u32 val -> gpr_ok h ->
  exists n, exec (emit_load_imm32 x val) m h = Some (tt, (counted n m, set_gpr x val h)).
Proof.
  intros Hx Hv Hg. unfold emit_load_imm32, is_u32 in *.
  assert (Hhi : Z.shiftr val 16 = val / 65536) by (rewrite Z.shiftr_div_pow2 by lia; reflexivity).
  assert (Hlo : Z.land val 0xFFFF = val mod 65536) by (change 0xFFFF with (Z.ones 16); apply Z.land_ones; lia).
  assert (H1 : forall imm, u16 imm = imm mod 65536) by reflexivity.
  assert (Hq : 0 <= val / 65536 < 65536) by (Z.to_euclidean_division_equations; lia).
  assert (Hm : val = val / 65536 * 65536 + val mod 65536 /\ 0 <= val mod 65536 < 65536) by (Z.to_euclidean_division_equations; lia).
  destruct (Z.eqb_spec val 0) as [->|Hz].
  { exists (Z.succ (code_len m)). unfold EMIT_MOVE, EMIT_ADDU. rewrite exec_special by (unfold REG_ZERO; lia). cbn [ee_special].
    unfold REG_ZERO. rewrite (proj2 Hg). reflexivity. }
  destruct (Z.eqb_spec (Z.land val 0xFFFF0000) 0) as [Hh|Hh].
  { exists (Z.succ (code_len m)). unfold EMIT_ORI. rewrite exec_imm by (unfold REG_ZERO; lia). cbn [ee_imm]. unfold REG_ZERO. rewrite (proj2 Hg), Z.lor_0_l.
    rewrite H1, Hlo, Z.mod_mod by lia. replace (val mod 65536) with val; [reflexivity|].
    assert (Z.shiftr (Z.land val 0xFFFF0000) 16 = 0) as E by (rewrite Hh; reflexivity).
    rewrite Z.shiftr_land in E. change (Z.shiftr 0xFFFF0000 16) with (Z.ones 16) in E. rewrite Z.land_ones, Hhi in E by lia.
    rewrite Z.mod_small in E by lia. lia. }
  destruct (Z.leb_spec (-32768) (s32 val)) as [Hl|Hl]; [destruct (Z.ltb_spec (s32 val) 0) as [Hs|Hs] |]; cbn [andb].
  { exists (Z.succ (code_len m)). unfold EMIT_ADDIU. rewrite exec_imm by (unfold REG_ZERO; lia). cbn [ee_imm]. unfold REG_ZERO. rewrite (proj2 Hg), Z.add_0_l.
    rewrite s16_u16. replace (u32 (s16 (s16 val))) with val; [reflexivity|].
    unfold s32 in Hl, Hs. rewrite (u32_small val Hv) in Hl, Hs. destruct (Z.ltb_spec val 2147483648); [lia|].
    assert (Ev : s16 val = val - 4294967296).
    { unfold s16, u16. replace (val mod 65536) with (val - 4294967296 + 65536) by (Z.to_euclidean_division_equations; lia).
      rewrite (proj2 (Z.ltb_ge _ _)) by lia. lia. }
    assert (Ew : s16 (val - 4294967296) = val - 4294967296).
    { unfold s16, u16. replace ((val - 4294967296) mod 65536) with (val - 4294967296 + 65536) by (Z.to_euclidean_division_equations; lia).
      rewrite (proj2 (Z.ltb_ge _ _)) by lia. lia. }
    rewrite Ev, Ew. unfold u32. Z.to_euclidean_division_equations; lia. }
  1,2: destruct (Z.eqb_spec (Z.land val 0xFFFF) 0) as [H0|H0].
  1,3: exists (Z.succ (code_len m)); unfold EMIT_LUI; rewrite exec_imm by lia; cbn [ee_imm]; rewrite H1, Hhi, Z.mod_small by lia;
    rewrite Z.shiftl_mul_pow2 by lia; rewrite Hlo in H0; replace (val / 65536 * 2 ^ 16) with val by lia; reflexivity.
  all: exists (Z.succ (Z.succ (code_len m))); rewrite exec_bind; unfold EMIT_LUI, EMIT_ORI; rewrite exec_imm by lia; cbn [ee_imm];
    rewrite exec_imm by lia; cbn [ee_imm]; rewrite !H1, Hhi, Hlo, Z.mod_mod, (Z.mod_small (val / 65536)) by lia;
    rewrite reg_set_eq by (assumption || lia); rewrite Z.lor_comm, lor_concat by lia;
    replace (val mod 65536 + val / 65536 * 2 ^ 16) with val by lia; rewrite set_gpr_twice; destruct m; reflexivity.
Qed.
End Host.
