(* ===== verification/EmitRep.v ===== *)
(** * Where the registers are while translated code runs

    [rep] relates the compile-time state and the host to the registers of the
    PlayStation: every register has its value in the place the emitter
    believes it to be.  The emitters that move registers keep it. *)

From S2P Require Import Prelude Scheduler System Cpu Memory Gte Interpreter InterpSafe InterpRef Recompiler RecompMath Emit EmitMath.
#[local] Open Scope emit_scope.

Lemma set_bit_spec i j x : 0 <= i -> 0 <= j -> Z.testbit (set_bit i x) j = (i =? j) || Z.testbit x j.
Proof.
  intros Hi Hj. unfold set_bit. rewrite Z.lor_spec, Z.shiftl_1_l, Z.pow2_bits_eqb, orb_comm by lia. reflexivity.
Qed.

Lemma clear_bit_spec i j x : 0 <= i -> 0 <= j -> Z.testbit (clear_bit i x) j = negb (i =? j) && Z.testbit x j.
Proof.
  intros Hi Hj. unfold clear_bit. rewrite Z.ldiff_spec, Z.shiftl_1_l, Z.pow2_bits_eqb, andb_comm by lia. reflexivity.
Qed.

Lemma pinned_range r : pinned r = true -> 20 <= psx_pinned_reg r <= 23.
Proof.
  unfold pinned, psx_pinned_reg. repeat match goal with |- context [?a =? ?b] => destruct (Z.eqb_spec a b) end; cbn; intros; try discriminate; lia.
Qed.

Lemma pinned_inj r r' : pinned r = true -> psx_pinned_reg r = psx_pinned_reg r' -> r = r'.
Proof.
  unfold pinned, psx_pinned_reg.
  repeat match goal with |- context [?a =? ?b] => destruct (Z.eqb_spec a b) end; cbn; intros; try discriminate; lia.
Qed.

(** ** Places *)

Definition loaded (m : Em) (r : Z) : bool := Z.testbit (dyn_slot_loaded_mask m) (dyn_slot_of m r).
Definition dirty (m : Em) (r : Z) : bool := Z.testbit (dyn_dirty_mask m) (dyn_slot_of m r).
Definition slot_host (m : Em) (r : Z) : Z := dyn_slot_ee (dyn_slot_of m r).

Definition host_of (m : Em) (r : Z) : option Z :=
  if pinned r then Some (psx_pinned_reg r) else if has_slot m r then Some (slot_host m r) else None.

(** The value the emitter believes [r] to have. *)
Definition content (m : Em) (h : Ee) (r : Z) : Z :=
  if lazy_const m r then vvalue (vreg m r)
  else if pinned r then reg_of h (psx_pinned_reg r)
  else if has_slot m r && loaded m r then reg_of h (slot_host m r)
  else field h (CPU_REG r).

Record wf (m : Em) : Prop := {
  wf_vregs : zlen (vregs m) = 32;
  wf_slot : forall r, 0 <= r < 32 -> has_slot m r = true ->
    0 <= dyn_slot_of m r < 8 /\ pinned r = false /\ 0 < r /\ slot_reg m (dyn_slot_of m r) = r;
  wf_slots : dyn_slots_active m = true -> forall i, 0 <= i < 8 -> 0 <= slot_reg m i ->
    slot_reg m i < 32 /\ dyn_slot_of m (slot_reg m i) = i
}.

Lemma host_range m r x : wf m -> 0 <= r < 32 -> host_of m r = Some x -> 8 <= x <= 15 \/ 20 <= x <= 23.
Proof.
  intros Hw Hr. unfold host_of. destruct (pinned r) eqn:Hp.
  - intros E. injection E as <-. right. apply pinned_range, Hp.
  - destruct (has_slot m r) eqn:Hs; [|discriminate]. intros E. injection E as <-. left.
    destruct (wf_slot m Hw r Hr Hs) as (Hi & _). unfold slot_host, dyn_slot_ee, REG_T0. lia.
Qed.

Lemma host_inj m r r' x : wf m -> 0 <= r < 32 -> 0 <= r' < 32 -> host_of m r = Some x -> host_of m r' = Some x -> r = r'.
Proof.
  intros Hw Hr Hr'. unfold host_of. destruct (pinned r) eqn:Hp, (pinned r') eqn:Hp'.
  - intros E E'. injection E as <-. injection E' as E'. apply pinned_inj; [exact Hp | symmetry; exact E'].
  - destruct (has_slot m r') eqn:Hs; [|discriminate]. intros E E'. injection E as <-. injection E' as E'.
    destruct (wf_slot m Hw r' Hr' Hs) as (Hi & _). pose proof (pinned_range r Hp). unfold slot_host, dyn_slot_ee, REG_T0 in E'. lia.
  - destruct (has_slot m r) eqn:Hs; [|discriminate]. intros E E'. injection E as <-. injection E' as E'.
    destruct (wf_slot m Hw r Hr Hs) as (Hi & _). pose proof (pinned_range r' Hp'). unfold slot_host, dyn_slot_ee, REG_T0 in E'. lia.
  - destruct (has_slot m r) eqn:Hs; [|discriminate]. destruct (has_slot m r') eqn:Hs'; [|discriminate].
    intros E E'. injection E as <-. injection E' as E'.
    destruct (wf_slot m Hw r Hr Hs) as (_ & _ & _ & E1). destruct (wf_slot m Hw r' Hr' Hs') as (_ & _ & _ & E2).
    unfold slot_host, dyn_slot_ee in E'. rewrite <- E1, <- E2. f_equal. lia.
Qed.

Lemma slot_inj m r r' : wf m -> 0 <= r < 32 -> 0 <= r' < 32 -> has_slot m r = true -> has_slot m r' = true ->
  dyn_slot_of m r = dyn_slot_of m r' -> r = r'.
Proof.
  intros Hw Hr Hr' Hs Hs' E. destruct (wf_slot m Hw r Hr Hs) as (_ & _ & _ & E1). destruct (wf_slot m Hw r' Hr' Hs') as (_ & _ & _ & E2).
  rewrite <- E1, <- E2, E. reflexivity.
Qed.

(** One register is where it should be, with value [v]. *)
Record in_place (m : Em) (h : Ee) (r v : Z) : Prop := {
  ip_const : vconst (vreg m r) = true -> vvalue (vreg m r) = v;
  ip_content : content m h r = v;
  ip_mask : lazy_const m r = true -> Z.testbit (dirty_const_mask m) r = true;
  ip_clean : lazy_const m r = false -> has_slot m r = true -> dirty m r = false -> field h (CPU_REG r) = v;
  ip_dirty : has_slot m r = true -> dirty m r = true -> loaded m r = true;
  ip_t8 : t8_cached_psx_reg m = r -> host_of m r = None /\ lazy_const m r = false /\ reg_of h REG_T8 = v;
  ip_t9 : t9_cached_psx_reg m = r -> host_of m r = None /\ lazy_const m r = false /\ reg_of h REG_T9 = v
}.

Record rep (m : Em) (h : Ee) (regs : list Z) (vhi vlo : Z) : Prop := {
  rep_wf : wf m;
  rep_gpr : gpr_ok h;
  rep_len : zlen regs = 32;
  rep_zero : vconst (vreg m 0) = false /\ aget regs 0 = 0;
  rep_words : forall r, is_u32 (aget regs r);
  rep_pair : is_u32 vhi /\ is_u32 vlo;
  rep_regs : forall r, 0 < r < 32 -> in_place m h r (aget regs r);
  rep_hi : field h CPU_HI = vhi;
  rep_lo : field h CPU_LO = vlo
}.

(** ** What a step leaves alone *)

Definition same_slots (m m' : Em) : Prop :=
  dyn_slot_psx m' = dyn_slot_psx m /\ psx_to_slot m' = psx_to_slot m /\ dyn_slots_active m' = dyn_slots_active m.

Lemma same_slots_of m m' : same_slots m m' -> forall r, dyn_slot_of m' r = dyn_slot_of m r.
Proof. intros (_ & E1 & E2) r. unfold dyn_slot_of, dyn_slot_find. rewrite E1, E2. reflexivity. Qed.

Lemma same_slots_has m m' r : same_slots m m' -> has_slot m' r = has_slot m r.
Proof. intros E. unfold has_slot. rewrite (same_slots_of m m' E). reflexivity. Qed.

Lemma same_slots_host m m' r : same_slots m m' -> host_of m' r = host_of m r.
Proof. intros E. unfold host_of, slot_host. rewrite (same_slots_has m m' r E), (same_slots_of m m' E). reflexivity. Qed.

Lemma same_slots_trans m m' m'' : same_slots m m' -> same_slots m' m'' -> same_slots m m''.
Proof. intros (A & B & C) (A' & B' & C'). split; [congruence | split; congruence]. Qed.

Lemma wf_same m m' : same_slots m m' -> zlen (vregs m') = zlen (vregs m) -> wf m -> wf m'.
Proof.
  intros E El [Hv Hs Hi]. pose proof (same_slots_of m m' E) as Es. split.
  - congruence.
  - intros r Hr. rewrite (same_slots_has m m' r E). intros Hh. rewrite Es. destruct (Hs r Hr Hh) as (A & B & C & D).
    split; [exact A | split; [exact B | split; [exact C|]]]. unfold slot_reg in *. rewrite (proj1 E). exact D.
  - destruct E as (E1 & E2 & E3). rewrite E3. intros Ha i Hi' Hp. unfold slot_reg in *. rewrite E1 in *. rewrite Es. apply Hi; assumption.
Qed.

Record untouched (m : Em) (h : Ee) (m' : Em) (h' : Ee) (r : Z) : Prop := {
  un_vreg : vreg m' r = vreg m r;
  un_loaded : has_slot m r = true -> loaded m' r = loaded m r;
  un_dirty : has_slot m r = true -> dirty m' r = dirty m r;
  un_mask : lazy_const m r = true -> Z.testbit (dirty_const_mask m) r = true -> Z.testbit (dirty_const_mask m') r = true;
  un_host : forall x, host_of m r = Some x -> reg_of h' x = reg_of h x;
  un_field : field h' (CPU_REG r) = field h (CPU_REG r);
  un_t8 : t8_cached_psx_reg m' = r -> t8_cached_psx_reg m = r /\ reg_of h' REG_T8 = reg_of h REG_T8;
  un_t9 : t9_cached_psx_reg m' = r -> t9_cached_psx_reg m = r /\ reg_of h' REG_T9 = reg_of h REG_T9
}.

Lemma untouched_in_place m h m' h' r v : same_slots m m' -> untouched m h m' h' r -> in_place m h r v -> in_place m' h' r v.
Proof.
  intros Es [Uv Ul Ud Um Uh Uf U8 U9] [Ic Ip Im Icl Id I8 I9].
  pose proof (same_slots_has m m' r Es) as Eh. pose proof (same_slots_host m m' r Es) as Ho.
  assert (El : lazy_const m' r = lazy_const m r) by (unfold lazy_const; rewrite Uv; reflexivity).
  split.
  - rewrite Uv. exact Ic.
  - rewrite <- Ip. unfold content, slot_host. rewrite El, Uv, Eh, (same_slots_of m m' Es).
    unfold host_of, slot_host in Uh. destruct (lazy_const m r); [reflexivity|]. destruct (pinned r); [apply Uh; reflexivity|].
    destruct (has_slot m r); [|cbn [andb]; exact Uf]. cbn [andb]. rewrite Ul by reflexivity.
    destruct (loaded m r); [apply Uh; reflexivity | exact Uf].
  - rewrite El. intros H. apply Um; [exact H | apply Im, H].
  - rewrite El, Eh, Uf. intros H1 H2. rewrite Ud by exact H2. intros H3. apply Icl; assumption.
  - rewrite Eh. intros H1. rewrite Ud, Ul by exact H1. apply Id, H1.
  - intros E. destruct (U8 E) as [E' ->]. rewrite El, Ho. apply I8, E'.
  - intros E. destruct (U9 E) as [E' ->]. rewrite El, Ho. apply I9, E'.
Qed.

(** The state with a new value for one register ([r0] = 0: for none). *)
Lemma rep_update m h m' h' regs vhi vlo r0 v : rep m h regs vhi vlo -> same_slots m m' -> zlen (vregs m') = zlen (vregs m) ->
  gpr_ok h' -> 0 <= r0 < 32 -> is_u32 v ->
  vconst (vreg m' 0) = false ->
  (r0 <> 0 -> in_place m' h' r0 v) -> (forall r, 0 < r < 32 -> r <> r0 -> untouched m h m' h' r) ->
  field h' CPU_HI = field h CPU_HI -> field h' CPU_LO = field h CPU_LO ->
  rep m' h' (put r0 v regs) vhi vlo.
Proof.
  intros [Hw Hg Hn [Hz Hz'] Hr Hpr Hp Hh Hl] Es Ev Hg' Hr0 Hv Hz0 Hi Hu Eh El.
  assert (Hget : forall r, 0 <= r -> r <> r0 \/ r0 = 0 -> aget (put r0 v regs) r = aget regs r).
  { intros r Hge Hne. unfold put. destruct (Z.eqb_spec r0 0); [reflexivity|]. apply aget_aset_ne; lia. }
  split.
  - exact (wf_same m m' Es Ev Hw).
  - exact Hg'.
  - unfold put. destruct (r0 =? 0); [exact Hn | rewrite zlen_aset; exact Hn].
  - split; [exact Hz0|]. destruct (Z.eq_dec r0 0) as [E|E]; rewrite Hget by lia; exact Hz'.
  - intros r. unfold put. destruct (r0 =? 0); [apply Hr|]. unfold aget, anth.
    destruct (decide (Z.to_nat r = Z.to_nat r0)) as [En|En].
    + rewrite En. change (nth (Z.to_nat r0) (aset regs r0 v) 0) with (aget (aset regs r0 v) r0). rewrite aget_aset_eq by lia. exact Hv.
    + pose proof (Hr r) as H. unfold aget, anth in H. unfold aset. rewrite nth_lookup, list_lookup_insert_ne by lia.
      rewrite nth_lookup in H. exact H.
  - exact Hpr.
  - intros r Hrr. destruct (Z.eq_dec r r0) as [->|E].
    + unfold put. rewrite (proj2 (Z.eqb_neq r0 0)) by lia. rewrite aget_aset_eq by lia. apply Hi. lia.
    + rewrite Hget by lia. apply (untouched_in_place m h); [exact Es | apply Hu; assumption | apply Hp, Hrr].
  - congruence.
  - congruence.
Qed.

Lemma rep_frame m h m' h' regs vhi vlo : rep m h regs vhi vlo -> same_slots m m' -> zlen (vregs m') = zlen (vregs m) ->
  gpr_ok h' -> vconst (vreg m' 0) = false -> (forall r, 0 < r < 32 -> untouched m h m' h' r) ->
  is_u32 (field h' CPU_HI) /\ is_u32 (field h' CPU_LO) -> rep m' h' regs (field h' CPU_HI) (field h' CPU_LO).
Proof.
  intros [Hw Hg Hn [Hz Hz'] Hr Hpr Hp Hh Hl] Es Ev Hg' Hz0 Hu Hpr'. split; try reflexivity.
  - exact (wf_same m m' Es Ev Hw).
  - exact Hg'.
  - exact Hn.
  - split; assumption.
  - exact Hr.
  - exact Hpr'.
  - intros r Hrr. apply (untouched_in_place m h); [exact Es | apply Hu; assumption | apply Hp, Hrr].
Qed.

(** ** Elementary changes *)

Lemma un_trans m h m1 h1 m2 h2 r : same_slots m m1 -> untouched m h m1 h1 r -> untouched m1 h1 m2 h2 r -> untouched m h m2 h2 r.
Proof.
  intros Es [A1 A2 A3 A4 A5 A6 A7 A8] [B1 B2 B3 B4 B5 B6 B7 B8].
  pose proof (same_slots_has m m1 r Es) as Eh. pose proof (same_slots_host m m1 r Es) as Eo.
  assert (El : lazy_const m1 r = lazy_const m r) by (unfold lazy_const; rewrite A1; reflexivity).
  rewrite Eh in B2, B3. rewrite El in B4. rewrite Eo in B5. split.
  - congruence.
  - intros H. rewrite B2, A2 by exact H. reflexivity.
  - intros H. rewrite B3, A3 by exact H. reflexivity.
  - auto.
  - intros x H. rewrite B5, A5 by exact H. reflexivity.
  - congruence.
  - intros H. destruct (B7 H) as [H1 H2]. destruct (A7 H1) as [H3 H4]. split; congruence.
  - intros H. destruct (B8 H) as [H1 H2]. destruct (A8 H1) as [H3 H4]. split; congruence.
Qed.

Lemma un_refl m h r : untouched m h m h r.
Proof. split; auto. Qed.

Lemma un_set_gpr x v m h r : 0 <= x -> 0 < r < 32 -> wf m -> host_of m r <> Some x ->
  (x = REG_T8 -> t8_cached_psx_reg m <> r) -> (x = REG_T9 -> t9_cached_psx_reg m <> r) -> untouched m h m (set_gpr x v h) r.
Proof.
  intros Hx Hr Hw Hh H8 H9. split; auto.
  - intros y Hy. pose proof (host_range m r y Hw ltac:(lia) Hy). apply reg_set_ne; [lia | lia | congruence].
  - intros E. split; [exact E|]. destruct (Z.eq_dec x REG_T8) as [->|Hn]; [destruct (H8 eq_refl E)|]. apply reg_set_ne; [lia | unfold REG_T8; lia | exact Hn].
  - intros E. split; [exact E|]. destruct (Z.eq_dec x REG_T9) as [->|Hn]; [destruct (H9 eq_refl E)|]. apply reg_set_ne; [lia | unfold REG_T9; lia | exact Hn].
Qed.

Lemma un_set_field off v m h r : off <> CPU_REG r -> untouched m h m (set_field off v h) r.
Proof. intros Hn. split; auto. apply field_set_ne, Hn. Qed.

(** Caches may always be dropped. *)
Lemma un_caches m h m' r : same_slots m m' -> vregs m' = vregs m -> dirty_const_mask m' = dirty_const_mask m ->
  dyn_dirty_mask m' = dyn_dirty_mask m -> dyn_slot_loaded_mask m' = dyn_slot_loaded_mask m ->
  (t8_cached_psx_reg m' = r -> t8_cached_psx_reg m = r) -> (t9_cached_psx_reg m' = r -> t9_cached_psx_reg m = r) ->
  untouched m h m' h r.
Proof.
  intros Es Ev Em Ed El H8 H9. pose proof (same_slots_of m m' Es r) as Eo. split; auto.
  - unfold vreg. rewrite Ev. reflexivity.
  - intros _. unfold loaded. rewrite El, Eo. reflexivity.
  - intros _. unfold dirty. rewrite Ed, Eo. reflexivity.
  - rewrite Em. auto.
Qed.

(** A new value of [r] in its place. *)
Definition place_m (r : Z) (m : Em) : Em := if pinned r then m else if has_slot m r then slot_written (dyn_slot_of m r) m else m.
Definition place_h (m : Em) (r v : Z) (h : Ee) : Ee :=
  match host_of m r with Some x => set_gpr x v h | None => set_field (CPU_REG r) v h end.

Lemma CPU_REG_inj r r' : CPU_REG r = CPU_REG r' -> r = r'.
Proof. unfold CPU_REG. lia. Qed.

Lemma place_same r m : same_slots m (place_m r m).
Proof. unfold place_m. destruct (pinned r), (has_slot m r); repeat split. Qed.

Lemma un_place m h r r0 v : wf m -> 0 < r < 32 -> 0 < r0 < 32 -> r <> r0 -> untouched m h (place_m r0 m) (place_h m r0 v h) r.
Proof.
  intros Hw Hr Hr0 Hn.
  assert (Hm : untouched m h (place_m r0 m) h r).
  { unfold place_m. destruct (pinned r0); [apply un_refl|]. destruct (has_slot m r0) eqn:Hs; [|apply un_refl].
    destruct (wf_slot m Hw r0 ltac:(lia) Hs) as (Hi & _).
    assert (Hb : forall x, has_slot m r = true -> Z.testbit (set_bit (dyn_slot_of m r0) x) (dyn_slot_of m r) = Z.testbit x (dyn_slot_of m r)).
    { intros x Hs'. destruct (wf_slot m Hw r ltac:(lia) Hs') as (Hi' & _). rewrite set_bit_spec by lia.
      destruct (Z.eqb_spec (dyn_slot_of m r0) (dyn_slot_of m r)) as [E|E]; [|reflexivity].
      destruct Hn. exact (slot_inj m r r0 Hw ltac:(lia) ltac:(lia) Hs' Hs (eq_sym E)). }
    split; try reflexivity; auto; exact (Hb _). }
  apply (un_trans m h (place_m r0 m) h); [apply place_same | exact Hm|].
  assert (Hw' : wf (place_m r0 m)) by (apply (wf_same m); [apply place_same | unfold place_m; destruct (pinned r0), (has_slot m r0); reflexivity | exact Hw]).
  unfold place_h. destruct (host_of m r0) as [x|] eqn:Hh.
  - pose proof (host_range m r0 x Hw ltac:(lia) Hh). apply un_set_gpr; [lia | exact Hr | exact Hw' | | unfold REG_T8; lia | unfold REG_T9; lia].
    rewrite (same_slots_host m _ r (place_same r0 m)). intros E. destruct Hn. apply (host_inj m r r0 x Hw); [lia | lia | exact E | exact Hh].
  - apply un_set_field. intros E. destruct Hn. symmetry. apply CPU_REG_inj, E.
Qed.

Lemma placed m m' h' r v : wf m -> 0 < r < 32 -> same_slots m m' ->
  dyn_slot_loaded_mask m' = dyn_slot_loaded_mask (place_m r m) -> dyn_dirty_mask m' = dyn_dirty_mask (place_m r m) ->
  lazy_const m' r = false -> (vconst (vreg m' r) = true -> vvalue (vreg m' r) = v) ->
  (forall x, host_of m r = Some x -> reg_of h' x = v) -> (host_of m r = None -> field h' (CPU_REG r) = v) ->
  (t8_cached_psx_reg m' = r -> host_of m r = None /\ reg_of h' REG_T8 = v) ->
  (t9_cached_psx_reg m' = r -> host_of m r = None /\ reg_of h' REG_T9 = v) -> in_place m' h' r v.
Proof.
  intros Hw Hr Es El Ed Hl Hc Hh Hf H8 H9. pose proof (same_slots_has m m' r Es) as Eh. pose proof (same_slots_host m m' r Es) as Eo.
  assert (Hs : has_slot m r = true -> pinned r = false /\ loaded m' r = true /\ dirty m' r = true).
  { intros Hs. destruct (wf_slot m Hw r ltac:(lia) Hs) as (Hi & Hp & _). split; [exact Hp|].
    unfold loaded, dirty. rewrite El, Ed, (same_slots_of m m' Es). unfold place_m. rewrite Hp, Hs.
    change (Z.testbit (set_bit (dyn_slot_of m r) (dyn_slot_loaded_mask m)) (dyn_slot_of m r) = true /\
      Z.testbit (set_bit (dyn_slot_of m r) (dyn_dirty_mask m)) (dyn_slot_of m r) = true).
    rewrite !set_bit_spec, Z.eqb_refl by lia. auto. }
  split.
  - exact Hc.
  - unfold content, slot_host. rewrite Hl, Eh, (same_slots_of m m' Es). unfold host_of, slot_host in Hh, Hf.
    destruct (pinned r); [apply Hh; reflexivity|]. destruct (has_slot m r) eqn:E; [|apply Hf; reflexivity].
    destruct (Hs eq_refl) as (_ & -> & _). apply Hh. reflexivity.
  - rewrite Hl. discriminate.
  - rewrite Eh. intros _ E Ed'. destruct (Hs E) as (_ & _ & Ed''). congruence.
  - rewrite Eh. intros E _. apply (Hs E).
  - intros E. destruct (H8 E). rewrite Eo. auto.
  - intros E. destruct (H9 E). rewrite Eo. auto.
Qed.

(** ** Emitters that run *)

Section Runs.
Variable div0 : Z -> Z * Z.

Definition runs {A} (e : E A) (m : Em) (h : Ee) (Q : A -> Em -> Ee -> Prop) : Prop :=
  exists x m' h', exec div0 e m h = Some (x, (m', h')) /\ Q x m' h'.

Lemma runs_bind {A B} (e : E A) (k : A -> E B) m h Q : runs e m h (fun x m h => runs (k x) m h Q) -> runs (ebind e k) m h Q.
Proof. intros (x & m1 & h1 & E1 & y & m2 & h2 & E2 & HQ). exists y, m2, h2. rewrite exec_bind, E1. split; assumption. Qed.

Lemma runs_assoc {A B C} (e : E A) (k : A -> E B) (f : E C) m h Q : runs (ebind (ebind e k) (fun _ => f)) m h Q -> runs (ebind e (fun x => ebind (k x) (fun _ => f))) m h Q.
Proof.
  intros (x & m' & h' & E1 & H). exists x, m', h'. split; [|exact H]. rewrite <- E1, !exec_bind. destruct (exec div0 e m h) as [ [y [m1 h1] ]|]; [apply exec_bind | reflexivity].
Qed.

Lemma runs_ret {A} (x : A) m h (Q : A -> Em -> Ee -> Prop) : Q x m h -> runs (eret x) m h Q.
Proof. intros H. exists x, m, h. split; [reflexivity | exact H]. Qed.

Lemma runs_modify f m h (Q : unit -> Em -> Ee -> Prop) : Q tt (f m) h -> runs (emodify f) m h Q.
Proof. intros H. exists tt, (f m), h. split; [reflexivity | exact H]. Qed.

Lemma runs_gets {A} (f : Em -> A) m h (Q : A -> Em -> Ee -> Prop) : Q (f m) m h -> runs (egets f) m h Q.
Proof. intros H. exists (f m), m, h. split; [reflexivity | exact H]. Qed.

Lemma runs_mono {A} (e : E A) m h (Q Q' : A -> Em -> Ee -> Prop) :
  runs e m h Q -> (forall x m h, Q x m h -> Q' x m h) -> runs e m h Q'.
Proof. intros (x & m' & h' & E1 & H) Hi. exists x, m', h'. split; [exact E1 | apply Hi, H]. Qed.

Lemma runs_emit w m h h' (Q : unit -> Em -> Ee -> Prop) : ee_step div0 w h = Some h' -> (forall n, Q tt (counted n m) h') -> runs (emit w) m h Q.
Proof. intros E H. eexists tt, _, h'. rewrite exec_emit, E. split; [reflexivity | apply H]. Qed.

Lemma runs_load_imm32 x val m h (Q : unit -> Em -> Ee -> Prop) : 0 < x < 32 -> is_u32 val -> gpr_ok h ->
  (forall n, Q tt (counted n m) (set_gpr x val h)) -> runs (emit_load_imm32 x val) m h Q.
Proof. intros Hx Hv Hg H. destruct (exec_load_imm32 div0 x val m h Hx Hv Hg) as [n E]. exists tt, (counted n m), (set_gpr x val h). split; [exact E | apply H]. Qed.

Lemma runs_LW rt off m h (Q : unit -> Em -> Ee -> Prop) : 0 <= rt < 32 -> 0 <= off < 32768 ->
  (forall n, Q tt (counted n m) (set_gpr rt (field h off) h)) -> runs (EMIT_LW rt off REG_S0) m h Q.
Proof. intros Ht Ho H. eexists tt, _, _. rewrite exec_LW_cpu by assumption. split; [reflexivity | apply H]. Qed.

Lemma runs_SW rt off m h (Q : unit -> Em -> Ee -> Prop) : 0 <= rt < 32 -> 0 <= off < 32768 ->
  (forall n, Q tt (counted n m) (set_field off (reg_of h rt) h)) -> runs (EMIT_SW rt off REG_S0) m h Q.
Proof. intros Ht Ho H. eexists tt, _, _. rewrite exec_SW_cpu by assumption. split; [reflexivity | apply H]. Qed.

Lemma runs_special rs rt rd sa fn m h h' (Q : unit -> Em -> Ee -> Prop) : 0 <= fn < 64 -> 0 <= sa < 32 -> 0 <= rd < 32 -> 0 <= rt < 32 -> 0 <= rs < 32 ->
  ee_special div0 fn rs rt rd sa h = Some h' -> (forall n, Q tt (counted n m) h') -> runs (emit (MK_R 0 rs rt rd sa fn)) m h Q.
Proof. intros. apply runs_emit with (h' := h'); [rewrite step_special by assumption; assumption | assumption]. Qed.

(** A move; its source is read as an unsigned sum with zero. *)
Lemma runs_MOVE rd rs m h (Q : unit -> Em -> Ee -> Prop) : 0 <= rd < 32 -> 0 <= rs < 32 -> gpr_ok h -> is_u32 (reg_of h rs) ->
  (forall n, Q tt (counted n m) (set_gpr rd (reg_of h rs) h)) -> runs (EMIT_MOVE rd rs) m h Q.
Proof.
  intros Hd Hs Hg Hu H. unfold EMIT_MOVE, EMIT_ADDU. eapply runs_special; try lia; [|exact H].
  cbn [ee_special]. rewrite (proj2 Hg), Z.add_0_r, u32_small by exact Hu. reflexivity.
Qed.

End Runs.

Lemma CPU_REG_range r : 0 <= r < 32 -> 0 <= CPU_REG r < 32768.
Proof. unfold CPU_REG. lia. Qed.

Lemma put_same r l : put r (aget l r) l = l.
Proof.
  unfold put. destruct (r =? 0); [reflexivity|]. unfold aset, aget, anth. destruct (decide (Z.to_nat r < length l)%nat) as [H|H].
  - apply lookup_lt_is_Some_2 in H as [x E]. rewrite nth_lookup, E. apply list_insert_id, E.
  - rewrite list_insert_ge by lia. reflexivity.
Qed.

(** ** Facts the invariant does not mention *)

Definition same_core (m m' : Em) : Prop :=
  same_slots m m' /\ vregs m' = vregs m /\ dirty_const_mask m' = dirty_const_mask m /\ dyn_dirty_mask m' = dyn_dirty_mask m /\
  dyn_slot_loaded_mask m' = dyn_slot_loaded_mask m /\ t8_cached_psx_reg m' = t8_cached_psx_reg m /\ t9_cached_psx_reg m' = t9_cached_psx_reg m.

Lemma same_core_refl m : same_core m m.
Proof. repeat split. Qed.

Lemma same_core_trans m m' m'' : same_core m m' -> same_core m' m'' -> same_core m m''.
Proof. intros (A & B & C & D & E & F & G) (A' & B' & C' & D' & E' & F' & G'). repeat split; try congruence; destruct A as (? & ? & ?), A' as (? & ? & ?); congruence. Qed.

Lemma rep_core m m' h regs vhi vlo : same_core m m' -> rep m h regs vhi vlo -> rep m' h regs vhi vlo.
Proof.
  intros (Es & Ev & Em & Ed & El & E8 & E9) Hr. rewrite <- (rep_hi _ _ _ _ _ Hr), <- (rep_lo _ _ _ _ _ Hr).
  apply (rep_frame m h m' h regs vhi vlo); [exact Hr | exact Es | congruence | apply (rep_gpr _ _ _ _ _ Hr) | | |].
  - unfold vreg. rewrite Ev. apply (rep_zero _ _ _ _ _ Hr).
  - intros r Hrr. apply un_caches; auto; congruence.
  - rewrite (rep_hi _ _ _ _ _ Hr), (rep_lo _ _ _ _ _ Hr). apply (rep_pair _ _ _ _ _ Hr).
Qed.

(** ** Constants reach their places *)

Lemma in_place_relabel m m' h r v : in_place m h r v -> lazy_const m r = false -> same_slots m m' ->
  dyn_slot_loaded_mask m' = dyn_slot_loaded_mask m -> dyn_dirty_mask m' = dyn_dirty_mask m ->
  lazy_const m' r = false -> (vconst (vreg m' r) = true -> vvalue (vreg m' r) = v) ->
  (t8_cached_psx_reg m' = r -> t8_cached_psx_reg m = r) -> (t9_cached_psx_reg m' = r -> t9_cached_psx_reg m = r) -> in_place m' h r v.
Proof.
  intros [Ic Ip Im Icl Id I8 I9] Hl Es El Ed Hl' Hc H8 H9.
  pose proof (same_slots_has m m' r Es) as Eh. pose proof (same_slots_host m m' r Es) as Eo. pose proof (same_slots_of m m' Es r) as Ef.
  split; unfold content, slot_host, loaded, dirty in *; rewrite ?Eh, ?Eo, ?Ef, ?El, ?Ed, ?Hl'; rewrite ?Hl in *; auto; try discriminate.
Qed.

Lemma un_vreg_update r0 f g m h r : 0 < r0 < 32 -> 0 < r < 32 -> r <> r0 ->
  (forall x, Z.testbit x r = true -> Z.testbit (g x) r = true) ->
  untouched m h (upd_vreg r0 f m <| dirty_const_mask ::= g |>) h r.
Proof.
  intros Hr0 Hr Hn Hg. split; try reflexivity; auto.
  - change (anth vreg0 (aset (vregs m) r0 (f (anth vreg0 (vregs m) r0))) r = vreg m r). rewrite anth_aset_ne by lia. reflexivity.
  - intros _. apply Hg.
Qed.

Lemma vreg_update r0 f g m r : zlen (vregs m) = 32 -> 0 <= r0 < 32 -> 0 <= r ->
  vreg (upd_vreg r0 f m <| dirty_const_mask ::= g |>) r = if r0 =? r then f (vreg m r0) else vreg m r.
Proof.
  intros Hl Hr0 Hr. change (anth vreg0 (aset (vregs m) r0 (f (anth vreg0 (vregs m) r0))) r = if r0 =? r then f (vreg m r0) else vreg m r).
  rewrite anth_aset by lia. reflexivity.
Qed.

Definition stored_m (r : Z) (m : Em) : Em := if pinned r then m else if has_slot m r then scratch_invalidate_psx r (place_m r m) else scratch_invalidate_psx r m.
Definition with_AT (m : Em) (r v : Z) (h : Ee) : Ee := match host_of m r with Some _ => h | None => set_gpr REG_AT v h end.

Lemma place_gpr_ok m r v h : wf m -> 0 <= r < 32 -> gpr_ok h -> gpr_ok (place_h m r v h).
Proof.
  intros Hw Hr Hg. unfold place_h. destruct (host_of m r) as [x|] eqn:E; [|exact Hg].
  pose proof (host_range m r x Hw Hr E). apply gpr_set_ok; [lia | exact Hg].
Qed.

Lemma with_AT_gpr_ok m r v h : gpr_ok h -> gpr_ok (with_AT m r v h).
Proof. intros Hg. unfold with_AT. destruct (host_of m r); [exact Hg | apply gpr_set_ok; [unfold REG_AT; lia | exact Hg]]. Qed.

Lemma host_pinned m r : pinned r = true -> host_of m r = Some (psx_pinned_reg r).
Proof. intros H. unfold host_of. rewrite H. reflexivity. Qed.
Lemma host_slot m r : pinned r = false -> has_slot m r = true -> host_of m r = Some (slot_host m r).
Proof. intros H H'. unfold host_of. rewrite H, H'. reflexivity. Qed.
Lemma host_none m r : pinned r = false -> has_slot m r = false -> host_of m r = None.
Proof. intros H H'. unfold host_of. rewrite H, H'. reflexivity. Qed.

(** Registers written on the way. *)
Definition scratch (x : Z) : Prop := x = REG_AT \/ x = REG_T8 \/ x = REG_T9.
Definition via (sx : option Z) (v : Z) (h : Ee) : Ee := match sx with Some x => set_gpr x v h | None => h end.

Lemma scratch_range x : scratch x -> 0 < x < 32 /\ ~ (8 <= x <= 15 \/ 20 <= x <= 23).
Proof. unfold scratch, REG_AT, REG_T8, REG_T9. lia. Qed.

Lemma via_gpr_ok sx v h : (forall x, sx = Some x -> scratch x) -> gpr_ok h -> gpr_ok (via sx v h).
Proof. intros Hs Hg. destruct sx as [x|]; [|exact Hg]. destruct (scratch_range x (Hs x eq_refl)). apply gpr_set_ok; [lia | exact Hg]. Qed.

Lemma field_via sx v h off : field (via sx v h) off = field h off.
Proof. destruct sx; reflexivity. Qed.

Lemma field_place m r v h off : off <> CPU_REG r -> field (place_h m r v h) off = field h off.
Proof. intros Hn. unfold place_h. destruct (host_of m r); [reflexivity | apply field_set_ne; congruence]. Qed.

Lemma placed_host m r v h x : gpr_ok h -> wf m -> 0 <= r < 32 -> host_of m r = Some x -> reg_of (place_h m r v h) x = v.
Proof.
  intros Hg Hw Hr E. pose proof (host_range m r x Hw Hr E). unfold place_h. rewrite E. apply reg_set_eq; [exact Hg | lia].
Qed.

Lemma placed_field m r v h : host_of m r = None -> field (place_h m r v h) (CPU_REG r) = v.
Proof. intros E. unfold place_h. rewrite E. apply field_set_eq. Qed.

(** [r] receives [v] in its place; nothing but scratch registers changes
    besides. *)
Lemma rep_write m h regs vhi vlo r v m' h' : rep m h regs vhi vlo -> 0 < r < 32 -> is_u32 v -> gpr_ok h' ->
  same_slots m m' -> zlen (vregs m') = zlen (vregs m) ->
  dyn_slot_loaded_mask m' = dyn_slot_loaded_mask (place_m r m) -> dyn_dirty_mask m' = dyn_dirty_mask (place_m r m) ->
  lazy_const m' r = false -> (vconst (vreg m' r) = true -> vvalue (vreg m' r) = v) ->
  (forall k, 0 <= k -> k <> r -> vreg m' k = vreg m k) ->
  (forall k, 0 < k < 32 -> k <> r -> Z.testbit (dirty_const_mask m) k = true -> Z.testbit (dirty_const_mask m') k = true) ->
  (forall x, host_of m r = Some x -> reg_of h' x = v) -> (host_of m r = None -> field h' (CPU_REG r) = v) ->
  (forall x, 0 <= x -> ~ scratch x -> host_of m r <> Some x -> reg_of h' x = reg_of h x) ->
  (forall off, off <> CPU_REG r -> field h' off = field h off) ->
  (forall k, 0 < k < 32 -> t8_cached_psx_reg m' = k -> if k =? r then host_of m r = None /\ reg_of h' REG_T8 = v else t8_cached_psx_reg m = k /\ reg_of h' REG_T8 = reg_of h REG_T8) ->
  (forall k, 0 < k < 32 -> t9_cached_psx_reg m' = k -> if k =? r then host_of m r = None /\ reg_of h' REG_T9 = v else t9_cached_psx_reg m = k /\ reg_of h' REG_T9 = reg_of h REG_T9) ->
  rep m' h' (put r v regs) vhi vlo.
Proof.
  intros Hrep Hr Hv Hg Es Ev El Ed Hlz Hc Hvr Hmk Hh Hf Hx Ho H8 H9. pose proof (rep_wf _ _ _ _ _ Hrep) as Hw.
  apply (rep_update m h); [exact Hrep | exact Es | exact Ev | exact Hg | lia | exact Hv | | | | |].
  - rewrite Hvr by lia. apply (rep_zero _ _ _ _ _ Hrep).
  - intros _. apply (placed m); auto.
    + intros E. specialize (H8 r Hr E). rewrite Z.eqb_refl in H8. exact H8.
    + intros E. specialize (H9 r Hr E). rewrite Z.eqb_refl in H9. exact H9.
  - intros k Hk Hkr. pose proof (un_place m h k r v Hw Hk Hr Hkr) as [_ Ul Ud _ _ _ _ _].
    pose proof (same_slots_of m m' Es k) as Eo. pose proof (same_slots_of _ _ (place_same r m) k) as Ep. unfold loaded, dirty in *. rewrite Ep in Ul, Ud. split.
    + apply Hvr; lia.
    + unfold loaded. rewrite El, Eo. exact Ul.
    + unfold dirty. rewrite Ed, Eo. exact Ud.
    + intros _. apply Hmk; lia.
    + intros x E. pose proof (host_range m k x Hw ltac:(lia) E). apply Hx; [lia | unfold scratch, REG_AT, REG_T8, REG_T9; lia|].
      intros E'. apply Hkr, (host_inj m k r x Hw); [lia | lia | exact E | exact E'].
    + apply Ho. intros E. apply Hkr, CPU_REG_inj, E.
    + intros E. specialize (H8 k Hk E). rewrite (proj2 (Z.eqb_neq k r)) in H8 by lia. exact H8.
    + intros E. specialize (H9 k Hk E). rewrite (proj2 (Z.eqb_neq k r)) in H9 by lia. exact H9.
  - apply Ho. unfold CPU_HI, CPU_REG. lia.
  - apply Ho. unfold CPU_LO, CPU_REG. lia.
Qed.

Lemma place_other m r v h x : wf m -> 0 < r < 32 -> 0 <= x -> host_of m r <> Some x -> reg_of (place_h m r v h) x = reg_of h x.
Proof.
  intros Hw Hr Hx Hn. unfold place_h. destruct (host_of m r) as [y|] eqn:E; [|reflexivity].
  pose proof (host_range m r y Hw ltac:(lia) E). apply reg_set_ne; [lia | exact Hx | congruence].
Qed.

Lemma scratch_not_host m r x : wf m -> 0 < r < 32 -> scratch x -> host_of m r <> Some x.
Proof. intros Hw Hr Hx E. apply (proj2 (scratch_range x Hx)), (host_range m r x Hw ltac:(lia) E). Qed.

(** The same through at most one scratch register. *)
Lemma rep_place m h regs vhi vlo r v m' sx sv : rep m h regs vhi vlo -> 0 < r < 32 -> is_u32 v ->
  same_slots m m' -> zlen (vregs m') = zlen (vregs m) ->
  dyn_slot_loaded_mask m' = dyn_slot_loaded_mask (place_m r m) -> dyn_dirty_mask m' = dyn_dirty_mask (place_m r m) ->
  lazy_const m' r = false -> (vconst (vreg m' r) = true -> vvalue (vreg m' r) = v) ->
  (forall k, 0 <= k -> k <> r -> vreg m' k = vreg m k) ->
  (forall k, 0 < k < 32 -> k <> r -> Z.testbit (dirty_const_mask m) k = true -> Z.testbit (dirty_const_mask m') k = true) ->
  (forall x, sx = Some x -> scratch x) ->
  (forall k, 0 < k < 32 -> t8_cached_psx_reg m' = k -> if k =? r then host_of m r = None /\ reg_of (via sx sv h) REG_T8 = v else t8_cached_psx_reg m = k /\ sx <> Some REG_T8) ->
  (forall k, 0 < k < 32 -> t9_cached_psx_reg m' = k -> if k =? r then host_of m r = None /\ reg_of (via sx sv h) REG_T9 = v else t9_cached_psx_reg m = k /\ sx <> Some REG_T9) ->
  rep m' (place_h m r v (via sx sv h)) (put r v regs) vhi vlo.
Proof.
  intros Hrep Hr Hv Es Ev El Ed Hlz Hc Hvr Hmk Hsx H8 H9.
  pose proof (rep_wf _ _ _ _ _ Hrep) as Hw. pose proof (via_gpr_ok sx sv h Hsx (rep_gpr _ _ _ _ _ Hrep)) as Hg.
  assert (Hvia : forall x, 0 <= x -> sx <> Some x -> reg_of (via sx sv h) x = reg_of h x).
  { intros x Hx Hne. destruct sx as [y|]; [|reflexivity]. destruct (scratch_range y (Hsx y eq_refl)). apply reg_set_ne; [lia | exact Hx | congruence]. }
  apply (rep_write m h); auto.
  - apply place_gpr_ok; [exact Hw | lia | exact Hg].
  - intros x E. apply placed_host; [exact Hg | exact Hw | lia | exact E].
  - intros E. apply placed_field, E.
  - intros x Hx Hns Hh. rewrite place_other by assumption. apply Hvia; [exact Hx|]. intros E. apply Hns, Hsx, E.
  - intros off Hn. rewrite field_place by exact Hn. apply field_via.
  - intros k Hk E. specialize (H8 k Hk E). rewrite place_other by (try apply scratch_not_host; unfold scratch; auto; unfold REG_T8; lia).
    destruct (k =? r); [exact H8|]. destruct H8 as [E1 E2]. split; [exact E1 | apply Hvia; [unfold REG_T8; lia | exact E2] ].
  - intros k Hk E. specialize (H9 k Hk E). rewrite place_other by (try apply scratch_not_host; unfold scratch; auto; unfold REG_T9; lia).
    destruct (k =? r); [exact H9|]. destruct H9 as [E1 E2]. split; [exact E1 | apply Hvia; [unfold REG_T9; lia | exact E2] ].
Qed.

(** [r] is in its place: not a constant still to be written, its slot loaded. *)
Definition settled (m : Em) (r : Z) : Prop := lazy_const m r = false /\ (pinned r = false -> has_slot m r = true -> loaded m r = true).

(** Places stay, variables stay variables, what is settled stays settled. *)
Definition later (m m' : Em) : Prop :=
  same_slots m m' /\ (forall r, 0 <= r -> vconst (vreg m r) = false -> vconst (vreg m' r) = false) /\
  (forall r, 0 < r < 32 -> settled m r -> settled m' r).

Lemma later_core m m' : same_core m m' -> later m m'.
Proof.
  intros (Es & Ev & Em & Ed & El & _). split; [exact Es | split].
  - intros r _. unfold vreg. rewrite Ev. auto.
  - intros r _. unfold settled, lazy_const, loaded, vreg. rewrite Ev, El, (same_slots_has m m' r Es), (same_slots_of m m' Es). auto.
Qed.

Lemma later_trans m m' m'' : later m m' -> later m' m'' -> later m m''.
Proof. intros (A & B & C) (A' & B' & C'). split; [eapply same_slots_trans; eassumption | split; auto]. Qed.

Lemma settled_host m h regs vhi vlo r x : rep m h regs vhi vlo -> 0 < r < 32 -> settled m r -> host_of m r = Some x -> reg_of h x = aget regs r.
Proof.
  intros Hrep Hr [Hl Hs] E. rewrite <- (ip_content _ _ _ _ (rep_regs _ _ _ _ _ Hrep r Hr)). unfold content, host_of in *. rewrite Hl.
  destruct (pinned r); [injection E as <-; reflexivity|]. destruct (has_slot m r); [|discriminate].
  rewrite Hs by reflexivity. injection E as <-. reflexivity.
Qed.

(** After [r] was stored in its place. *)
Lemma later_place m m' r : wf m -> 0 < r < 32 -> same_slots m m' -> dyn_slot_loaded_mask m' = dyn_slot_loaded_mask (place_m r m) ->
  lazy_const m' r = false -> (vconst (vreg m r) = false -> vconst (vreg m' r) = false) -> (forall k, 0 <= k -> k <> r -> vreg m' k = vreg m k) -> later m m' /\ settled m' r.
Proof.
  intros Hw Hr Es El Hl Hv Hk. pose proof (same_slots_of m m' Es) as Eo.
  assert (Hs : settled m' r).
  { split; [exact Hl|]. intros Hp. rewrite (same_slots_has m m' r Es). intros Hs. unfold loaded. rewrite El, Eo.
    destruct (wf_slot m Hw r ltac:(lia) Hs) as (Hi & _). unfold place_m. rewrite Hp, Hs.
    change (Z.testbit (set_bit (dyn_slot_of m r) (dyn_slot_loaded_mask m)) (dyn_slot_of m r) = true). rewrite set_bit_spec, Z.eqb_refl by lia. reflexivity. }
  split; [split; [exact Es | split] | exact Hs].
  - intros k Hk0. destruct (Z.eq_dec k r) as [->|E]; [exact Hv|]. rewrite Hk by assumption. auto.
  - intros k Hk0 Hst. destruct (Z.eq_dec k r) as [->|E]; [exact Hs|]. destruct Hst as [H1 H2]. split.
    + unfold lazy_const in *. rewrite Hk by lia. exact H1.
    + intros Hp. rewrite (same_slots_has m m' k Es). intros Hsk. specialize (H2 Hp Hsk). unfold loaded in *. rewrite El, Eo.
      unfold place_m. destruct (pinned r); [exact H2|]. destruct (has_slot m r) eqn:Hsr; [|exact H2].
      destruct (wf_slot m Hw r ltac:(lia) Hsr) as (Hi & _). destruct (wf_slot m Hw k ltac:(lia) Hsk) as (Hi' & _).
      change (Z.testbit (set_bit (dyn_slot_of m r) (dyn_slot_loaded_mask m)) (dyn_slot_of m k) = true).
      rewrite set_bit_spec by lia. rewrite H2. apply orb_true_r.
Qed.

Lemma stored_same r m : same_slots m (stored_m r m).
Proof. unfold stored_m, place_m. destruct (pinned r), (has_slot m r); repeat split. Qed.

Lemma stored_parts r m : vregs (stored_m r m) = vregs m /\ dirty_const_mask (stored_m r m) = dirty_const_mask m /\
  dyn_slot_loaded_mask (stored_m r m) = dyn_slot_loaded_mask (place_m r m) /\ dyn_dirty_mask (stored_m r m) = dyn_dirty_mask (place_m r m) /\
  (forall k, 0 <= k -> t8_cached_psx_reg (stored_m r m) = k -> t8_cached_psx_reg m = k) /\
  (forall k, 0 <= k -> t9_cached_psx_reg (stored_m r m) = k -> t9_cached_psx_reg m = k).
Proof.
  assert (Hc : forall c k, 0 <= k -> (if c =? r then -1 else c) = k -> c = k) by (intros c k Hk; destruct (c =? r); lia).
  unfold stored_m, place_m. destruct (pinned r), (has_slot m r); repeat split; auto; intros k Hk; apply Hc; exact Hk.
Qed.

Lemma not_cached m h r v : in_place m h r v -> lazy_const m r = true -> t8_cached_psx_reg m <> r /\ t9_cached_psx_reg m <> r.
Proof.
  intros Hi Hl. split; intros E.
  - destruct (ip_t8 _ _ _ _ Hi E) as (_ & H & _). congruence.
  - destruct (ip_t9 _ _ _ _ Hi E) as (_ & H & _). congruence.
Qed.

Lemma lazy_value m h r v : in_place m h r v -> lazy_const m r = true -> vvalue (vreg m r) = v.
Proof. intros Hi Hl. apply (ip_const _ _ _ _ Hi). unfold lazy_const in Hl. apply andb_prop in Hl. apply Hl. Qed.

(** A constant reaches its place. *)
Lemma rep_settle m h regs vhi vlo r m' sx : rep m h regs vhi vlo -> 0 < r < 32 -> lazy_const m r = true ->
  same_slots m m' -> zlen (vregs m') = zlen (vregs m) ->
  dyn_slot_loaded_mask m' = dyn_slot_loaded_mask (place_m r m) -> dyn_dirty_mask m' = dyn_dirty_mask (place_m r m) ->
  lazy_const m' r = false -> vvalue (vreg m' r) = vvalue (vreg m r) ->
  (forall k, 0 <= k -> k <> r -> vreg m' k = vreg m k) ->
  (forall k, 0 < k < 32 -> k <> r -> Z.testbit (dirty_const_mask m) k = true -> Z.testbit (dirty_const_mask m') k = true) ->
  (forall x, sx = Some x -> scratch x) ->
  (forall k, 0 < k < 32 -> t8_cached_psx_reg m' = k -> t8_cached_psx_reg m = k /\ sx <> Some REG_T8) ->
  (forall k, 0 < k < 32 -> t9_cached_psx_reg m' = k -> t9_cached_psx_reg m = k /\ sx <> Some REG_T9) ->
  rep m' (place_h m r (aget regs r) (via sx (aget regs r) h)) regs vhi vlo /\ later m m' /\ settled m' r.
Proof.
  intros Hrep Hr Hl Es Ev El Ed Hlz Hvv Hk Hmk Hsx H8 H9.
  pose proof (rep_regs _ _ _ _ _ Hrep r Hr) as Hi. destruct (not_cached _ _ _ _ Hi Hl) as [N8 N9].
  split.
  - pose proof (rep_place m h regs vhi vlo r (aget regs r) m' sx (aget regs r)) as H. rewrite put_same in H.
    apply H; auto; [apply (rep_words _ _ _ _ _ Hrep) | | |].
    + rewrite Hvv. intros _. apply (lazy_value m h); assumption.
    + intros k Hk0 E. destruct (H8 k Hk0 E) as [E1 E2]. destruct (Z.eqb_spec k r); [congruence | auto].
    + intros k Hk0 E. destruct (H9 k Hk0 E) as [E1 E2]. destruct (Z.eqb_spec k r); [congruence | auto].
  - apply (later_place m m' r); auto; [apply (rep_wf _ _ _ _ _ Hrep) |].
    intros Hc. unfold lazy_const in Hl. rewrite Hc in Hl. discriminate.
Qed.

(** A scratch register receives something; the caches know. *)
Definition same_but_caches (m m' : Em) : Prop :=
  same_slots m m' /\ vregs m' = vregs m /\ dirty_const_mask m' = dirty_const_mask m /\ dyn_dirty_mask m' = dyn_dirty_mask m /\
  dyn_slot_loaded_mask m' = dyn_slot_loaded_mask m.

Lemma later_caches m m' : same_but_caches m m' -> later m m'.
Proof.
  intros (Es & Ev & Em & Ed & El). split; [exact Es | split].
  - intros r _. unfold vreg. rewrite Ev. auto.
  - intros r _. unfold settled, lazy_const, loaded, vreg. rewrite Ev, El, (same_slots_has m m' r Es), (same_slots_of m m' Es). auto.
Qed.

Lemma rep_scratch m h regs vhi vlo x v m' : rep m h regs vhi vlo -> scratch x -> same_but_caches m m' ->
  (forall k, 0 < k < 32 -> t8_cached_psx_reg m' = k -> (t8_cached_psx_reg m = k /\ x <> REG_T8) \/
    (host_of m k = None /\ lazy_const m k = false /\ x = REG_T8 /\ v = aget regs k)) ->
  (forall k, 0 < k < 32 -> t9_cached_psx_reg m' = k -> (t9_cached_psx_reg m = k /\ x <> REG_T9) \/
    (host_of m k = None /\ lazy_const m k = false /\ x = REG_T9 /\ v = aget regs k)) ->
  rep m' (set_gpr x v h) regs vhi vlo.
Proof.
  intros [Hw Hg Hlen [Hz Hz'] Hwd Hpr Hi Hh Hlo] Hs (Es & Ev & Em & Ed & El) H8 H9. destruct (scratch_range x Hs) as [Hx Hx'].
  assert (Evr : forall k, vreg m' k = vreg m k) by (intros k; unfold vreg; rewrite Ev; reflexivity).
  assert (Elz : forall k, lazy_const m' k = lazy_const m k) by (intros k; unfold lazy_const; rewrite Evr; reflexivity).
  split; [apply (wf_same m); congruence || assumption | apply gpr_set_ok; [lia | exact Hg] | exact Hlen | rewrite Evr; auto | exact Hwd | exact Hpr | | exact Hh | exact Hlo].
  intros k Hk. destruct (Hi k Hk) as [Ic Ip Im Icl Id I8 I9].
  pose proof (same_slots_has m m' k Es) as Eh. pose proof (same_slots_host m m' k Es) as Eo. pose proof (same_slots_of m m' Es k) as Ef.
  split; rewrite ?Evr, ?Elz, ?Eh, ?Eo, ?Em; unfold loaded, dirty in *; rewrite ?Ef, ?El, ?Ed; auto.
  - rewrite <- Ip. unfold content, slot_host, loaded in *. rewrite Elz, Evr, Eh, Ef, El. destruct (lazy_const m k); [reflexivity|].
    assert (Hne : forall y, host_of m k = Some y -> reg_of (set_gpr x v h) y = reg_of h y).
    { intros y Ey. pose proof (host_range m k y Hw ltac:(lia) Ey). apply reg_set_ne; [lia | lia | intros ->; tauto]. }
    unfold host_of in Hne. destruct (pinned k); [apply Hne; reflexivity|]. destruct (has_slot m k); [|reflexivity].
    cbn [andb]. destruct (Z.testbit _ _); [apply Hne; reflexivity | reflexivity].
  - intros E. destruct (H8 k Hk E) as [ [E1 E2]|(E1 & E2 & E3 & E4) ].
    + destruct (I8 E1) as (A & B & C). split; [exact A | split; [exact B|]]. rewrite reg_set_ne; [exact C | lia | unfold REG_T8; lia | exact E2].
    + split; [exact E1 | split; [exact E2|]]. subst x. rewrite reg_set_eq; [exact E4 | exact Hg | lia].
  - intros E. destruct (H9 k Hk E) as [ [E1 E2]|(E1 & E2 & E3 & E4) ].
    + destruct (I9 E1) as (A & B & C). split; [exact A | split; [exact B|]]. rewrite reg_set_ne; [exact C | lia | unfold REG_T9; lia | exact E2].
    + split; [exact E1 | split; [exact E2|]]. subst x. rewrite reg_set_eq; [exact E4 | exact Hg | lia].
Qed.

(** A slot is loaded. *)
Lemma rep_slot_loaded m h regs vhi vlo r : rep m h regs vhi vlo -> 0 < r < 32 -> has_slot m r = true -> lazy_const m r = false -> field h (CPU_REG r) = aget regs r ->
  let m' := m <| dyn_slot_loaded_mask ::= set_bit (dyn_slot_of m r) |> in
  rep m' (set_gpr (slot_host m r) (aget regs r) h) regs vhi vlo /\ later m m' /\ settled m' r.
Proof.
  intros Hrep Hr Hs Hl Hf m'. pose proof (rep_wf _ _ _ _ _ Hrep) as Hw. destruct (wf_slot m Hw r ltac:(lia) Hs) as (Hsi & Hp & _).
  pose proof (rep_regs _ _ _ _ _ Hrep r Hr) as Hi.
  assert (Hb : forall k, has_slot m k = true -> 0 < k < 32 -> loaded m' k = (r =? k) || loaded m k).
  { intros k Hsk Hk. destruct (wf_slot m Hw k ltac:(lia) Hsk) as (Hki & _).
    change (Z.testbit (set_bit (dyn_slot_of m r) (dyn_slot_loaded_mask m)) (dyn_slot_of m k) = (r =? k) || loaded m k).
    rewrite set_bit_spec by lia. unfold loaded. f_equal. destruct (Z.eqb_spec r k) as [->|E]; [apply Z.eqb_refl|].
    apply Z.eqb_neq. intros E'. apply E, (slot_inj m); auto; lia. }
  assert (Hx : 8 <= slot_host m r <= 15) by (unfold slot_host, dyn_slot_ee, REG_T0; lia).
  split; [| split].
  - rewrite <- (put_same r regs) at 2.
    apply (rep_update m h); [exact Hrep | repeat split | reflexivity | apply gpr_set_ok; [lia | apply (rep_gpr _ _ _ _ _ Hrep)] | lia | apply (rep_words _ _ _ _ _ Hrep) | apply (rep_zero _ _ _ _ _ Hrep) | | | reflexivity | reflexivity].
    + intros _. destruct Hi as [Ic Ip Im Icl Id I8 I9].
      assert (Hh : host_of m r = Some (slot_host m r)) by (apply host_slot; assumption).
      split; auto.
      * unfold content. change (lazy_const m' r) with (lazy_const m r). change (has_slot m' r) with (has_slot m r). rewrite Hl, Hp, Hs, Hb, Z.eqb_refl by assumption.
        cbn [andb orb]. apply reg_set_eq; [apply (rep_gpr _ _ _ _ _ Hrep) | change (slot_host m' r) with (slot_host m r); lia].
      * intros _ _. rewrite Hb, Z.eqb_refl by assumption. reflexivity.
      * intros E. destruct (I8 E) as (A & _). congruence.
      * intros E. destruct (I9 E) as (A & _). congruence.
    + intros k Hk Hkr. split; auto.
      * intros Hsk. rewrite Hb by assumption. rewrite (proj2 (Z.eqb_neq r k)) by lia. reflexivity.
      * intros y Hy. pose proof (host_range m k y Hw ltac:(lia) Hy). apply reg_set_ne; [lia | lia|]. intros E. apply Hkr.
        apply (host_inj m k r y Hw); [lia | lia | exact Hy | rewrite <- E; apply host_slot; assumption].
      * intros E. split; [exact E | apply reg_set_ne; unfold REG_T8; lia].
      * intros E. split; [exact E | apply reg_set_ne; unfold REG_T9; lia].
  - split; [repeat split | split; [auto|]]. intros k Hk [H1 H2]. split; [exact H1|]. intros Hpk Hsk. rewrite Hb, H2 by assumption. apply orb_true_r.
  - split; [exact Hl|]. intros _ _. rewrite Hb, Z.eqb_refl by assumption. reflexivity.
Qed.

(** What fetching register [r] guarantees: [d] holds its value; other host
    registers keep theirs, that of [r] as well if it was settled. *)
Record fetched (m : Em) (h : Ee) (regs : list Z) (vhi vlo r sx d : Z) (m' : Em) (h' : Ee) : Prop := {
  f_rep : rep m' h' regs vhi vlo;
  f_later : later m m';
  f_value : reg_of h' d = aget regs r;
  f_place : if r =? 0 then d = 0 else settled m' r /\ (host_of m r = Some d \/ host_of m r = None /\ d = sx);
  f_other : forall x, 0 <= x -> x <> sx -> (0 < r -> host_of m r = Some x -> settled m r) -> reg_of h' x = reg_of h x;
  f_t8 : sx = REG_T9 -> t8_cached_psx_reg m' = t8_cached_psx_reg m
}.

Lemma settled_t8 dst r n m : dst <> REG_T8 -> t8_cached_psx_reg (scratch_invalidate_hwreg dst (const_stored r (counted n (place_m r m)))) = t8_cached_psx_reg m.
Proof.
  intros Hd. unfold scratch_invalidate_hwreg. rewrite (proj2 (Z.eqb_neq dst REG_T8) Hd). unfold place_m.
  destruct (dst =? REG_T9), (pinned r), (has_slot m r); reflexivity.
Qed.

Lemma const_settled r m h regs vhi vlo dst sx n : rep m h regs vhi vlo -> 0 < r < 32 -> lazy_const m r = true ->
  (forall x, sx = Some x -> scratch x /\ dst = x) -> (sx = None -> dst <> REG_T8 /\ dst <> REG_T9) ->
  let m' := scratch_invalidate_hwreg dst (const_stored r (counted n (place_m r m))) in
  rep m' (place_h m r (aget regs r) (via sx (aget regs r) h)) regs vhi vlo /\ later m m' /\ settled m' r.
Proof.
  intros Hrep Hr Hl Hsx Hns m'. pose proof (wf_vregs m (rep_wf _ _ _ _ _ Hrep)) as Hlen.
  set (m1 := const_stored r (counted n (place_m r m))) in m'.
  assert (P : vregs (place_m r m) = vregs m /\ dirty_const_mask (place_m r m) = dirty_const_mask m /\
    t8_cached_psx_reg (place_m r m) = t8_cached_psx_reg m /\ t9_cached_psx_reg (place_m r m) = t9_cached_psx_reg m).
  { unfold place_m. destruct (pinned r), (has_slot m r); repeat split. }
  destruct P as (P1 & P2 & P3 & P4).
  assert (Hm : same_but_caches m1 m').
  { unfold m', scratch_invalidate_hwreg. destruct (dst =? REG_T8), (dst =? REG_T9); repeat split. }
  destruct Hm as (Q1 & Q2 & Q3 & Q4 & Q5).
  assert (Hv : forall k, 0 <= k -> vreg m' k = if r =? k then (vreg m k) <| vdirty := false |> else vreg m k).
  { intros k Hk. unfold vreg at 1. rewrite Q2. change (anth vreg0 (vregs m1) k) with (vreg m1 k). unfold m1, const_stored.
    rewrite vreg_update; [|change (zlen (vregs (place_m r m)) = 32); rewrite P1; exact Hlen | lia | exact Hk].
    change (vreg (counted n (place_m r m))) with (vreg (place_m r m)). unfold vreg. rewrite P1. destruct (Z.eqb_spec r k) as [->|]; reflexivity. }
  assert (Hc : forall k, 0 < k -> (t8_cached_psx_reg m' = k -> t8_cached_psx_reg m = k /\ dst <> REG_T8) /\ (t9_cached_psx_reg m' = k -> t9_cached_psx_reg m = k /\ dst <> REG_T9)).
  { intros k Hk. rewrite <- P3, <- P4. unfold m', scratch_invalidate_hwreg.
    destruct (Z.eqb_spec dst REG_T8) as [E8|E8]; [|destruct (Z.eqb_spec dst REG_T9) as [E9|E9] ].
    - change ((-1 = k -> t8_cached_psx_reg (place_m r m) = k /\ dst <> REG_T8) /\ (t9_cached_psx_reg (place_m r m) = k -> t9_cached_psx_reg (place_m r m) = k /\ dst <> REG_T9)).
      split; [lia|]. intros E. split; [exact E | rewrite E8; discriminate].
    - change ((t8_cached_psx_reg (place_m r m) = k -> t8_cached_psx_reg (place_m r m) = k /\ dst <> REG_T8) /\ (-1 = k -> t9_cached_psx_reg (place_m r m) = k /\ dst <> REG_T9)).
      split; [auto | lia].
    - change ((t8_cached_psx_reg (place_m r m) = k -> t8_cached_psx_reg (place_m r m) = k /\ dst <> REG_T8) /\ (t9_cached_psx_reg (place_m r m) = k -> t9_cached_psx_reg (place_m r m) = k /\ dst <> REG_T9)).
      auto. }
  apply rep_settle; auto.
  - apply (same_slots_trans m (place_m r m)); [apply place_same | exact Q1].
  - rewrite Q2. change (zlen (aset (vregs (place_m r m)) r ((anth vreg0 (vregs (place_m r m)) r) <| vdirty := false |>)) = zlen (vregs m)). rewrite zlen_aset, P1. reflexivity.
  - unfold lazy_const. rewrite Hv, Z.eqb_refl by lia. apply andb_false_r.
  - rewrite Hv, Z.eqb_refl by lia. reflexivity.
  - intros k Hk Hkr. rewrite Hv, (proj2 (Z.eqb_neq r k)) by lia. reflexivity.
  - intros k Hk Hkr Hb. rewrite Q3. change (Z.testbit (clear_bit r (dirty_const_mask (place_m r m))) k = true). rewrite P2, clear_bit_spec, Hb, (proj2 (Z.eqb_neq r k)) by lia. reflexivity.
  - intros x E. apply Hsx, E.
  - intros k Hk E. destruct (proj1 (Hc k ltac:(lia)) E) as [E1 E2]. split; [exact E1|]. intros ->. destruct (Hsx _ eq_refl). congruence.
  - intros k Hk E. destruct (proj2 (Hc k ltac:(lia)) E) as [E1 E2]. split; [exact E1|]. intros ->. destruct (Hsx _ eq_refl). congruence.
Qed.

Lemma rep_clobber m h regs vhi vlo hw v n : rep m h regs vhi vlo -> hw = REG_T8 \/ hw = REG_T9 ->
  rep (scratch_invalidate_hwreg hw (counted n m)) (set_gpr hw v h) regs vhi vlo.
Proof.
  intros Hrep Hhw. apply (rep_scratch m h); [exact Hrep | unfold scratch; tauto | destruct Hhw as [->| ->]; repeat split | |]; intros k Hk;
    unfold scratch_invalidate_hwreg; destruct Hhw as [->| ->]; cbn [Z.eqb REG_T8 REG_T9 Pos.eqb].
  - change (-1 = k -> (t8_cached_psx_reg m = k /\ 24 <> 24) \/ (host_of m k = None /\ lazy_const m k = false /\ 24 = 24 /\ v = aget regs k)). lia.
  - change (t8_cached_psx_reg m = k -> (t8_cached_psx_reg m = k /\ 25 <> 24) \/ (host_of m k = None /\ lazy_const m k = false /\ 25 = 24 /\ v = aget regs k)). lia.
  - change (t9_cached_psx_reg m = k -> (t9_cached_psx_reg m = k /\ 24 <> 25) \/ (host_of m k = None /\ lazy_const m k = false /\ 24 = 25 /\ v = aget regs k)). lia.
  - change (-1 = k -> (t9_cached_psx_reg m = k /\ 25 <> 25) \/ (host_of m k = None /\ lazy_const m k = false /\ 25 = 25 /\ v = aget regs k)). lia.
Qed.

Lemma rep_loaded m h regs vhi vlo hw r n : rep m h regs vhi vlo -> hw = REG_T8 \/ hw = REG_T9 -> host_of m r = None -> lazy_const m r = false ->
  rep (cache_loaded hw r (counted n m)) (set_gpr hw (aget regs r) h) regs vhi vlo.
Proof.
  intros Hrep Hhw Hh Hl. apply (rep_scratch m h); [exact Hrep | unfold scratch; tauto | destruct Hhw as [->| ->]; repeat split | |]; intros k Hk;
    unfold cache_loaded; destruct Hhw as [->| ->]; cbn [Z.eqb REG_T8 REG_T9 Pos.eqb].
  - change (r = k -> (t8_cached_psx_reg m = k /\ 24 <> 24) \/ (host_of m k = None /\ lazy_const m k = false /\ 24 = 24 /\ aget regs r = aget regs k)). intros <-. auto.
  - change (t8_cached_psx_reg m = k -> (t8_cached_psx_reg m = k /\ 25 <> 24) \/ (host_of m k = None /\ lazy_const m k = false /\ 25 = 24 /\ aget regs r = aget regs k)). lia.
  - change (t9_cached_psx_reg m = k -> (t9_cached_psx_reg m = k /\ 24 <> 25) \/ (host_of m k = None /\ lazy_const m k = false /\ 24 = 25 /\ aget regs r = aget regs k)). lia.
  - change (r = k -> (t9_cached_psx_reg m = k /\ 25 <> 25) \/ (host_of m k = None /\ lazy_const m k = false /\ 25 = 25 /\ aget regs r = aget regs k)). intros <-. auto.
Qed.

Lemma invalidate_same hw m : same_but_caches m (scratch_invalidate_hwreg hw m).
Proof. unfold scratch_invalidate_hwreg. destruct (hw =? REG_T8), (hw =? REG_T9); repeat split. Qed.

Lemma field_value m h regs vhi vlo r : rep m h regs vhi vlo -> 0 < r < 32 -> lazy_const m r = false -> host_of m r = None -> field h (CPU_REG r) = aget regs r.
Proof.
  intros Hrep Hr Hl Hh. rewrite <- (ip_content _ _ _ _ (rep_regs _ _ _ _ _ Hrep r Hr)). unfold content, host_of in *. rewrite Hl.
  destruct (pinned r); [discriminate|]. destruct (has_slot m r); [discriminate | reflexivity].
Qed.

Section Movers.
Variable div0 : Z -> Z * Z.
#[local] Abbreviation runs := (runs div0).

Lemma runs_store_const r val m h (Q : unit -> Em -> Ee -> Prop) : 0 < r < 32 -> wf m -> gpr_ok h -> is_u32 val ->
  (forall n, Q tt (counted n (stored_m r m)) (place_h m r val (with_AT m r val h))) -> runs (store_const r val) m h Q.
Proof.
  intros Hr Hw Hg Hv H. unfold store_const, stored_m, place_m, with_AT, place_h in *. apply runs_bind, runs_gets.
  destruct (pinned r) eqn:Hp.
  - rewrite (host_pinned m r Hp) in H. pose proof (pinned_range r Hp). apply runs_load_imm32; [lia | exact Hv | exact Hg | exact H].
  - destruct (has_slot m r) eqn:Hs.
    + rewrite (host_slot m r Hp Hs) in H. pose proof (host_range m r _ Hw ltac:(lia) (host_slot m r Hp Hs)) as Hx. unfold slot_host in *.
      apply runs_bind, runs_load_imm32; [lia | exact Hv | exact Hg|]. intros n.
      apply runs_bind, runs_modify, runs_modify. exact (H n).
    + rewrite (host_none m r Hp Hs) in H. apply runs_bind, runs_load_imm32; [unfold REG_AT; lia | exact Hv | exact Hg|]. intros n.
      apply runs_bind, runs_SW; [unfold REG_AT; lia | apply CPU_REG_range; lia|]. intros n'. apply runs_modify.
      rewrite reg_set_eq by (exact Hg || unfold REG_AT; lia). exact (H n').
Qed.

(** A register of which nothing is known any more keeps its value. *)
Lemma runs_mark_var r m h regs vhi vlo : rep m h regs vhi vlo -> 0 <= r < 32 ->
  runs (mark_vreg_var r) m h (fun _ m' h' => rep m' h' regs vhi vlo /\ later m m' /\ vconst (vreg m' r) = false).
Proof.
  intros Hrep Hr. unfold mark_vreg_var. destruct (Z.eqb_spec r 0) as [->|Hn].
  { apply runs_ret. split; [exact Hrep | split; [apply later_core, same_core_refl | apply (rep_zero _ _ _ _ _ Hrep)]]. }
  cbn [negb ewhen]. apply runs_bind, runs_modify, runs_bind, runs_modify.
  set (m1 := _ <| smrv_known_ram ::= _ |> <| align_known_mask ::= _ |>).
  assert (Hc : same_core m m1) by (unfold m1, leave_host_base; destruct (mem_host_base_psx m =? r); repeat split).
  clearbody m1. apply (rep_core m m1) in Hrep; [|exact Hc]. apply later_core in Hc.
  assert (Hr' : 0 < r < 32) by lia. pose proof (rep_regs _ _ _ _ _ Hrep r Hr') as Hi. pose proof (rep_wf _ _ _ _ _ Hrep) as Hw. pose proof (wf_vregs m1 Hw) as Hlen.
  apply runs_bind, runs_bind, runs_gets.
  set (f := fun v : RegStatus => v <| vconst := false |> <| vdirty := false |>).
  destruct (lazy_const m1 r) eqn:Hl.
  - cbn [ewhen]. apply runs_store_const; [exact Hr' | exact Hw | apply (rep_gpr _ _ _ _ _ Hrep) | rewrite (lazy_value _ _ _ _ Hi Hl); apply (rep_words _ _ _ _ _ Hrep)|].
    intros n. apply runs_modify. rewrite (lazy_value _ _ _ _ Hi Hl).
    set (m2 := counted n (stored_m r m1)). destruct (stored_parts r m1) as (P1 & P2 & P3 & P4 & P5 & P6).
    assert (Hv2 : forall k, 0 <= k -> vreg (upd_vreg r f m2 <| dirty_const_mask ::= clear_bit r |>) k = if r =? k then f (vreg m1 k) else vreg m1 k).
    { intros k Hk. rewrite vreg_update; [|change (zlen (vregs (stored_m r m1)) = 32); rewrite P1; exact Hlen | lia | exact Hk].
      change (vreg m2) with (vreg (stored_m r m1)). unfold vreg. rewrite P1. destruct (Z.eqb_spec r k) as [->|]; reflexivity. }
    assert (Hlz : vconst (vreg (upd_vreg r f m2 <| dirty_const_mask ::= clear_bit r |>) r) = false) by (rewrite Hv2, Z.eqb_refl by lia; reflexivity).
    unfold with_AT.
    replace (match host_of m1 r with Some _ => h | None => set_gpr REG_AT (aget regs r) h end)
      with (via (match host_of m1 r with Some _ => None | None => Some REG_AT end) (aget regs r) h) by (destruct (host_of m1 r); reflexivity).
    destruct (rep_settle m1 h regs vhi vlo r (upd_vreg r f m2 <| dirty_const_mask ::= clear_bit r |>)
      (match host_of m1 r with Some _ => None | None => Some REG_AT end)) as (A & B & _); auto.
    + exact (stored_same r m1).
    + change (zlen (aset (vregs (stored_m r m1)) r (f (anth vreg0 (vregs (stored_m r m1)) r))) = zlen (vregs m1)). rewrite zlen_aset, P1. reflexivity.
    + unfold lazy_const. rewrite Hlz. reflexivity.
    + rewrite Hv2, Z.eqb_refl by lia. reflexivity.
    + intros k Hk Hkr. rewrite Hv2, (proj2 (Z.eqb_neq r k)) by lia. reflexivity.
    + intros k Hk Hkr Hb. change (Z.testbit (clear_bit r (dirty_const_mask (stored_m r m1))) k = true). rewrite P2, clear_bit_spec, Hb, (proj2 (Z.eqb_neq r k)) by lia. reflexivity.
    + intros x E. destruct (host_of m1 r); [discriminate|]. injection E as <-. left. reflexivity.
    + intros k Hk E. apply P5 in E; [|lia]. split; [exact E | destruct (host_of m1 r); discriminate].
    + intros k Hk E. apply P6 in E; [|lia]. split; [exact E | destruct (host_of m1 r); discriminate].
    + split; [exact A | split; [exact (later_trans _ _ _ Hc B) | exact Hlz]].
  - cbn [ewhen]. apply runs_ret, runs_modify.
    assert (Hv2 : forall k, 0 <= k -> vreg (upd_vreg r f m1 <| dirty_const_mask ::= clear_bit r |>) k = if r =? k then f (vreg m1 k) else vreg m1 k).
    { intros k Hk. rewrite vreg_update by lia. destruct (Z.eqb_spec r k) as [->|]; reflexivity. }
    assert (Hlz : vconst (vreg (upd_vreg r f m1 <| dirty_const_mask ::= clear_bit r |>) r) = false) by (rewrite Hv2, Z.eqb_refl by lia; reflexivity).
    split; [|split; [apply (later_trans _ m1); [exact Hc|] | exact Hlz]].
    + rewrite <- (put_same r regs). apply (rep_update m1 h); [exact Hrep | repeat split | | apply (rep_gpr _ _ _ _ _ Hrep) | lia | apply (rep_words _ _ _ _ _ Hrep) | | | | reflexivity | reflexivity].
      * apply zlen_aset.
      * rewrite Hv2, (proj2 (Z.eqb_neq r 0)) by lia. apply (rep_zero _ _ _ _ _ Hrep).
      * intros _. apply (in_place_relabel m1); auto; [repeat split | unfold lazy_const; rewrite Hlz; reflexivity | rewrite Hlz; discriminate].
      * intros k Hk Hkr. apply un_vreg_update; [exact Hr' | exact Hk | exact Hkr|]. intros x Hx. rewrite clear_bit_spec, Hx, (proj2 (Z.eqb_neq r k)) by lia. reflexivity.
    + split; [repeat split | split].
      * intros k Hk. rewrite Hv2 by exact Hk. destruct (r =? k); [reflexivity | auto].
      * intros k Hk [H1 H2]. split; [|exact H2]. unfold lazy_const in *. rewrite Hv2 by lia. destruct (r =? k); [reflexivity | exact H1].
Qed.

Lemma runs_load_slot r m h regs vhi vlo : rep m h regs vhi vlo -> 0 < r < 32 -> has_slot m r = true -> lazy_const m r = false ->
  runs (load_slot r) m h (fun _ m' h' => rep m' h' regs vhi vlo /\ later m m' /\ settled m' r /\ reg_of h' (slot_host m r) = aget regs r /\
    (forall x, 0 <= x -> (host_of m r = Some x -> settled m r) -> reg_of h' x = reg_of h x) /\ t8_cached_psx_reg m' = t8_cached_psx_reg m).
Proof.
  intros Hrep Hr Hs Hl. pose proof (rep_wf _ _ _ _ _ Hrep) as Hw. destruct (wf_slot m Hw r ltac:(lia) Hs) as (Hi & Hp & _).
  assert (Hh : host_of m r = Some (slot_host m r)) by (apply host_slot; assumption).
  unfold load_slot. apply runs_bind, runs_gets. destruct (loaded m r) eqn:Hld; unfold loaded in Hld; rewrite Hld; cbn [negb ewhen].
  - apply runs_ret. assert (Hst : settled m r) by (split; [exact Hl | intros _ _; exact Hld]).
    split; [exact Hrep | split; [apply later_core, same_core_refl | split; [exact Hst | split; [|split; auto] ] ] ].
    apply (settled_host m h regs vhi vlo); assumption.
  - assert (Hf : field h (CPU_REG r) = aget regs r) by (rewrite <- (ip_content _ _ _ _ (rep_regs _ _ _ _ _ Hrep r Hr)); unfold content; rewrite Hl, Hp, Hs; unfold loaded; rewrite Hld; reflexivity).
    destruct (rep_slot_loaded m h regs vhi vlo r Hrep Hr Hs Hl Hf) as (A & B & C). fold (slot_host m r).
    assert (Hx : 8 <= slot_host m r <= 15) by (unfold slot_host, dyn_slot_ee, REG_T0; lia).
    apply runs_bind, runs_LW; [lia | apply CPU_REG_range; lia|]. intros n. apply runs_modify. rewrite Hf.
    split; [refine (rep_core _ _ _ _ _ _ _ A); repeat split | split; [exact B | split; [exact C | split; [|split; [|reflexivity] ] ] ] ].
    + apply reg_set_eq; [apply (rep_gpr _ _ _ _ _ Hrep) | lia].
    + intros x Hx0 Hst. apply reg_set_ne; [lia | lia|]. intros <-. destruct (Hst Hh) as [_ H]. specialize (H Hp Hs). unfold loaded in H. congruence.
Qed.

Lemma runs_use r sx m h regs vhi vlo : rep m h regs vhi vlo -> 0 <= r < 32 -> sx = REG_T8 \/ sx = REG_T9 ->
  runs (emit_use_reg r sx) m h (fun d m' h' => fetched m h regs vhi vlo r sx d m' h').
Proof.
  intros Hrep Hr Hsx. assert (Hsc : scratch sx) by (unfold scratch; tauto). destruct (scratch_range sx Hsc) as [Hsr Hsr'].
  pose proof (rep_wf _ _ _ _ _ Hrep) as Hw. pose proof (rep_gpr _ _ _ _ _ Hrep) as Hg.
  unfold emit_use_reg. apply runs_bind, runs_gets. destruct (Z.eqb_spec r 0) as [->|Hn].
  { apply runs_ret. split; [exact Hrep | apply later_core, same_core_refl | | reflexivity | auto | auto].
    unfold REG_ZERO. rewrite (proj2 Hg). symmetry. apply (rep_zero _ _ _ _ _ Hrep). }
  assert (Hr' : 0 < r < 32) by lia. pose proof (rep_regs _ _ _ _ _ Hrep r Hr') as Hi.
  destruct (lazy_const m r) eqn:Hl.
  - rewrite (lazy_value _ _ _ _ Hi Hl). set (v := aget regs r). assert (Hv : is_u32 v) by apply (rep_words _ _ _ _ _ Hrep).
    destruct (host_of m r) as [y|] eqn:Hh.
    + assert (Hy : (if pinned r then psx_pinned_reg r else if has_slot m r then dyn_slot_ee (dyn_slot_of m r) else sx) = y).
      { unfold host_of, slot_host in Hh. destruct (pinned r); [congruence|]. destruct (has_slot m r); [congruence | discriminate]. }
      rewrite Hy. pose proof (host_range m r y Hw ltac:(lia) Hh) as Hyr.
      apply runs_bind, runs_load_imm32; [lia | exact Hv | exact Hg|]. intros n.
      assert (Hq : forall m' h', m' = scratch_invalidate_hwreg y (const_stored r (counted n (place_m r m))) -> h' = set_gpr y v h -> fetched m h regs vhi vlo r sx y m' h').
      { intros m' h' -> ->. destruct (const_settled r m h regs vhi vlo y None n Hrep Hr' Hl) as (A & B & C); [discriminate | unfold REG_T8, REG_T9; lia|].
        unfold place_h in A. rewrite Hh in A. cbn [via] in A. split.
        - exact A.
        - exact B.
        - apply reg_set_eq; [exact Hg | lia].
        - rewrite (proj2 (Z.eqb_neq r 0) Hn). split; [exact C | left; exact Hh].
        - intros x Hx _ Hst. apply reg_set_ne; [lia | lia|]. intros ->. destruct (Hst ltac:(lia) Hh) as [H _]. congruence.
        - intros _. rewrite settled_t8 by (unfold REG_T8; lia). reflexivity. }
      unfold place_m in Hq. destruct (pinned r) eqn:Hp; cbn [negb ewhen].
      * apply runs_bind, runs_ret, runs_bind, runs_modify, runs_bind, runs_modify, runs_ret. apply Hq; reflexivity.
      * destruct (has_slot m r) eqn:Hs; [|unfold host_of in Hh; rewrite Hp, Hs in Hh; discriminate].
        apply runs_bind, runs_modify, runs_bind, runs_modify, runs_bind, runs_modify, runs_ret. apply Hq; reflexivity.
    + assert (Hns : pinned r = false /\ has_slot m r = false).
      { unfold host_of in Hh. destruct (pinned r); [discriminate|]. destruct (has_slot m r); [discriminate | auto]. }
      destruct Hns as [Hp Hs]. rewrite Hp, Hs. cbn [negb ewhen].
      apply runs_bind, runs_load_imm32; [lia | exact Hv | exact Hg|]. intros n. apply runs_bind, runs_SW; [lia | apply CPU_REG_range; lia|].
      intros n'. apply runs_bind, runs_modify, runs_bind, runs_modify, runs_ret. rewrite reg_set_eq by (assumption || lia).
      destruct (const_settled r m h regs vhi vlo sx (Some sx) n' Hrep Hr' Hl) as (A & B & C); [intros x E; injection E as <-; auto | discriminate|].
      unfold place_h, place_m in A, B, C. rewrite Hh in A. rewrite Hp, Hs in A, B, C. cbn [via] in A. split.
      * exact A.
      * exact B.
      * change (reg_of (set_gpr sx v h) sx = v). apply reg_set_eq; [exact Hg | lia].
      * rewrite (proj2 (Z.eqb_neq r 0) Hn). split; [exact C | right; auto].
      * intros x Hx Hne _. change (reg_of (set_gpr sx v h) x = reg_of h x). apply reg_set_ne; lia.
      * intros E. rewrite E. reflexivity.
  - destruct (pinned r) eqn:Hp.
    { apply runs_ret. assert (Hst : settled m r) by (split; [exact Hl | congruence]). pose proof (host_pinned m r Hp) as Hh. split.
      - exact Hrep.
      - apply later_core, same_core_refl.
      - apply (settled_host m h regs vhi vlo); assumption.
      - rewrite (proj2 (Z.eqb_neq r 0) Hn). auto.
      - auto.
      - auto. }
    destruct (has_slot m r) eqn:Hs.
    { apply runs_bind. eapply runs_mono; [apply (runs_load_slot r m h regs vhi vlo); assumption|]. intros _ m' h' (A & B & C & D & F & T).
      apply runs_ret. fold (slot_host m r). split; [exact A | exact B | exact D | | intros x Hx _ Hst; apply F; [exact Hx | apply Hst; lia] | intros _; exact T].
      rewrite (proj2 (Z.eqb_neq r 0) Hn). split; [exact C | left; apply host_slot; assumption]. }
    pose proof (host_none m r Hp Hs) as Hh. assert (Hst : settled m r) by (split; [exact Hl | congruence]).
    assert (Hcached : forall y, y = sx -> reg_of h y = aget regs r -> fetched m h regs vhi vlo r sx y m h).
    { intros y -> E. split; [exact Hrep | apply later_core, same_core_refl | exact E | rewrite (proj2 (Z.eqb_neq r 0) Hn); auto | auto | auto]. }
    destruct ((sx =? REG_T8) && (t8_cached_psx_reg m =? r)) eqn:E8.
    { apply andb_prop in E8 as [E1 E2]. apply Z.eqb_eq in E1, E2. apply runs_ret, Hcached; [auto | apply (ip_t8 _ _ _ _ Hi E2)]. }
    destruct ((sx =? REG_T9) && (t9_cached_psx_reg m =? r)) eqn:E9.
    { apply andb_prop in E9 as [E1 E2]. apply Z.eqb_eq in E1, E2. apply runs_ret, Hcached; [auto | apply (ip_t9 _ _ _ _ Hi E2)]. }
    apply runs_bind, runs_LW; [lia | apply CPU_REG_range; lia|]. intros n. apply runs_bind, runs_modify, runs_ret.
    rewrite (field_value m h regs vhi vlo r Hrep Hr' Hl Hh).
    assert (Hlat : later m (cache_loaded sx r (counted n m))) by (apply later_caches; unfold cache_loaded; destruct (sx =? REG_T8), (sx =? REG_T9); repeat split).
    split.
    + apply rep_loaded; assumption.
    + exact Hlat.
    + apply reg_set_eq; [exact Hg | lia].
    + rewrite (proj2 (Z.eqb_neq r 0) Hn). split; [apply (proj2 (proj2 Hlat)); assumption | auto].
    + intros x Hx Hne _. apply reg_set_ne; lia.
    + intros E. rewrite E. reflexivity.
Qed.

(** Loading [r] into T8 or T9. *)
Lemma runs_load r hw m h regs vhi vlo : rep m h regs vhi vlo -> 0 <= r < 32 -> hw = REG_T8 \/ hw = REG_T9 ->
  runs (emit_load_psx_reg hw r) m h (fun _ m' h' => rep m' h' regs vhi vlo /\ later m m' /\ reg_of h' hw = aget regs r /\
    (forall x, scratch x -> x <> hw -> reg_of h' x = reg_of h x)).
Proof.
  intros Hrep Hr Hhw. assert (Hsc : scratch hw) by (unfold scratch; tauto). destruct (scratch_range hw Hsc) as [Hhr Hhr'].
  pose proof (rep_wf _ _ _ _ _ Hrep) as Hw. pose proof (rep_gpr _ _ _ _ _ Hrep) as Hg. set (v := aget regs r).
  assert (Hv : is_u32 v) by apply (rep_words _ _ _ _ _ Hrep).
  assert (Hmove : forall m1 h1 n, rep m1 h1 regs vhi vlo -> later m m1 -> (forall x, scratch x -> reg_of h1 x = reg_of h x) ->
    let m' := scratch_invalidate_hwreg hw (counted n m1) in let h' := set_gpr hw v h1 in
    rep m' h' regs vhi vlo /\ later m m' /\ reg_of h' hw = v /\ (forall x, scratch x -> x <> hw -> reg_of h' x = reg_of h x)).
  { intros m1 h1 n Hrep1 Hlat1 Hot m' h'. split; [apply rep_clobber; assumption | split; [|split] ].
    - apply (later_trans _ m1); [exact Hlat1 | apply (later_caches m1), (invalidate_same hw (counted n m1))].
    - apply reg_set_eq; [apply (rep_gpr _ _ _ _ _ Hrep1) | lia].
    - intros x Hx Hne. destruct (scratch_range x Hx). unfold h'. rewrite reg_set_ne by lia. apply Hot, Hx. }
  unfold emit_load_psx_reg. apply runs_bind, runs_gets. destruct (Z.eqb_spec r 0) as [->|Hn].
  { assert (Ez : reg_of h REG_ZERO = v) by (unfold REG_ZERO, v; rewrite (proj2 Hg); symmetry; apply (rep_zero _ _ _ _ _ Hrep)).
    apply runs_bind, runs_MOVE; [lia | unfold REG_ZERO; lia | exact Hg | rewrite Ez; exact Hv|]. intros n. apply runs_modify. rewrite Ez.
    apply Hmove; [exact Hrep | apply later_core, same_core_refl | auto]. }
  assert (Hr' : 0 < r < 32) by lia. pose proof (rep_regs _ _ _ _ _ Hrep r Hr') as Hi.
  destruct (lazy_const m r) eqn:Hl.
  - rewrite (lazy_value _ _ _ _ Hi Hl). fold v. apply runs_bind, runs_load_imm32; [lia | exact Hv | exact Hg|]. intros n.
    assert (Hq : forall n m' h', m' = scratch_invalidate_hwreg hw (const_stored r (counted n (place_m r m))) -> h' = place_h m r v (set_gpr hw v h) ->
      rep m' h' regs vhi vlo /\ later m m' /\ reg_of h' hw = v /\ (forall x, scratch x -> x <> hw -> reg_of h' x = reg_of h x)).
    { intros n1 m' h' -> ->. destruct (const_settled r m h regs vhi vlo hw (Some hw) n1 Hrep Hr' Hl) as (A & B & C); [intros x E; injection E as <-; auto | discriminate|].
      assert (Hns : forall x, scratch x -> host_of m r <> Some x) by (intros x Hx E; apply (proj2 (scratch_range x Hx)), (host_range m r x Hw ltac:(lia) E)).
      split; [exact A | split; [exact B | split] ].
      - rewrite place_other by (auto; lia). apply reg_set_eq; [exact Hg | lia].
      - intros x Hx Hne. destruct (scratch_range x Hx). rewrite place_other by (auto; lia). apply reg_set_ne; lia. }
    assert (Hgh : gpr_ok (set_gpr hw v h)) by (apply gpr_set_ok; [lia | exact Hg]).
    assert (Ehw : reg_of (set_gpr hw v h) hw = v) by (apply reg_set_eq; [exact Hg | lia]).
    unfold place_h, place_m in Hq. apply runs_bind. unfold materialized. apply runs_bind, runs_gets.
    change (has_slot (counted n m) r) with (has_slot m r). change (dyn_slot_of (counted n m) r) with (dyn_slot_of m r).
    destruct (pinned r) eqn:Hp.
    + rewrite (host_pinned m r Hp) in Hq. pose proof (pinned_range r Hp). rewrite (proj2 (Z.eqb_neq hw _)) by lia. cbn [negb ewhen].
      apply runs_MOVE; [lia | lia | exact Hgh | rewrite Ehw; exact Hv|]. intros n'. rewrite Ehw. apply runs_bind, runs_modify, runs_modify. apply (Hq n'); reflexivity.
    + destruct (has_slot m r) eqn:Hs.
      * pose proof (host_slot m r Hp Hs) as Hh. rewrite Hh in Hq. pose proof (host_range m r _ Hw ltac:(lia) Hh) as Hx. unfold slot_host in *.
        rewrite (proj2 (Z.eqb_neq _ hw)) by lia. cbn [negb ewhen].
        apply runs_bind, runs_MOVE; [lia | lia | exact Hgh | rewrite Ehw; exact Hv|]. intros n'. rewrite Ehw. apply runs_modify, runs_bind, runs_modify, runs_modify. apply (Hq n'); reflexivity.
      * rewrite (host_none m r Hp Hs) in Hq. apply runs_SW; [lia | apply CPU_REG_range; lia|]. intros n'. rewrite Ehw. apply runs_bind, runs_modify, runs_modify. apply (Hq n'); reflexivity.
  - destruct (pinned r) eqn:Hp.
    { pose proof (pinned_range r Hp). rewrite (proj2 (Z.eqb_neq hw _)) by lia. cbn [negb ewhen].
      assert (E : reg_of h (psx_pinned_reg r) = v) by (apply (settled_host m h regs vhi vlo); [exact Hrep | exact Hr' | split; [exact Hl | congruence] | apply host_pinned, Hp]).
      apply runs_bind, runs_MOVE; [lia | lia | exact Hg | rewrite E; exact Hv|]. intros n. rewrite E. apply runs_modify. apply Hmove; [exact Hrep | apply later_core, same_core_refl | auto]. }
    destruct (has_slot m r) eqn:Hs.
    { pose proof (host_range m r _ Hw ltac:(lia) (host_slot m r Hp Hs)) as Hx. fold (slot_host m r).
      apply runs_bind. eapply runs_mono; [apply (runs_load_slot r m h regs vhi vlo); assumption|]. intros _ m1 h1 (A & B & C & D & F & _).
      rewrite (proj2 (Z.eqb_neq hw _)) by lia. cbn [negb ewhen].
      apply runs_bind, runs_MOVE; [lia | lia | apply (rep_gpr _ _ _ _ _ A) | rewrite D; exact Hv|]. intros n. rewrite D. apply runs_modify. apply Hmove; [exact A | exact B|].
      intros x Hsx. destruct (scratch_range x Hsx) as [Hxr Hxr']. apply F; [lia|]. intros E. destruct Hxr'. apply (host_range m r x Hw ltac:(lia) E). }
    pose proof (host_none m r Hp Hs) as Hh.
    destruct ((hw =? REG_T8) && (t8_cached_psx_reg m =? r)) eqn:E8.
    { apply andb_prop in E8 as [E1 E2]. apply Z.eqb_eq in E1, E2. apply runs_ret. rewrite E1.
      split; [exact Hrep | split; [apply later_core, same_core_refl | split; [apply (ip_t8 _ _ _ _ Hi E2) | auto] ] ]. }
    destruct ((hw =? REG_T9) && (t9_cached_psx_reg m =? r)) eqn:E9.
    { apply andb_prop in E9 as [E1 E2]. apply Z.eqb_eq in E1, E2. apply runs_ret. rewrite E1.
      split; [exact Hrep | split; [apply later_core, same_core_refl | split; [apply (ip_t9 _ _ _ _ Hi E2) | auto] ] ]. }
    apply runs_bind, runs_LW; [lia | apply CPU_REG_range; lia|]. intros n. apply runs_modify.
    rewrite (field_value m h regs vhi vlo r Hrep Hr' Hl Hh). split; [apply rep_loaded; assumption | split; [| split] ].
    + apply later_caches. unfold cache_loaded. destruct (hw =? REG_T8), (hw =? REG_T9); repeat split.
    + apply reg_set_eq; [exact Hg | lia].
    + intros x Hx Hne. destruct (scratch_range x Hx). apply reg_set_ne; lia.
Qed.

End Movers.
