(* ===== verification/EmitAlu.v ===== *)
(** * Arithmetic instructions are translated correctly

    Whatever places the registers have, the words emitted for an arithmetic
    instruction take the host from the registers before it to the registers
    after it: sums, logic, shifts, products, quotients and the overflow checks,
    case by case, and all of them together in [insn_correct]. *)

From S2P Require Import Prelude Scheduler System Cpu Memory Gte Interpreter InterpSafe InterpRef Recompiler RecompMath Emit EmitMath EmitRep.
#[local] Open Scope emit_scope.

(** [emit_dst_reg] with T8 for the others. *)
Definition dst_of (m : Em) (r : Z) : Z := match host_of m r with Some x => x | None => REG_T8 end.

Lemma dst_of_eq m r : r <> 0 -> (if r =? 0 then REG_T8 else if pinned r then psx_pinned_reg r else if has_slot m r then dyn_slot_ee (dyn_slot_of m r) else REG_T8) = dst_of m r.
Proof. intros Hn. rewrite (proj2 (Z.eqb_neq r 0) Hn). unfold dst_of, host_of. destruct (pinned r), (has_slot m r); reflexivity. Qed.

Lemma dst_range m r : wf m -> 0 <= r < 32 -> 0 < dst_of m r < 32.
Proof.
  intros Hw Hr. unfold dst_of. destruct (host_of m r) as [x|] eqn:E; [|unfold REG_T8; lia].
  pose proof (host_range m r x Hw Hr E). lia.
Qed.

(** A constant known before the code runs. *)
Lemma rep_lazy m h regs vhi vlo r v m' : rep m h regs vhi vlo -> 0 < r < 32 -> is_u32 v ->
  t8_cached_psx_reg m <> r -> t9_cached_psx_reg m <> r -> same_slots m m' ->
  vregs m' = vregs (upd_vreg r (fun _ => mkReg v true true) m) -> dirty_const_mask m' = set_bit r (dirty_const_mask m) ->
  dyn_dirty_mask m' = dyn_dirty_mask m -> dyn_slot_loaded_mask m' = dyn_slot_loaded_mask m ->
  t8_cached_psx_reg m' = t8_cached_psx_reg m -> t9_cached_psx_reg m' = t9_cached_psx_reg m ->
  rep m' h (put r v regs) vhi vlo.
Proof.
  intros Hrep Hr Hv N8 N9 Es Ev Em Ed El E8 E9. pose proof (wf_vregs m (rep_wf _ _ _ _ _ Hrep)) as Hlen.
  assert (Hvr : forall k, 0 <= k -> vreg m' k = if r =? k then mkReg v true true else vreg m k).
  { intros k Hk. unfold vreg at 1. rewrite Ev. change (vregs (upd_vreg r (fun _ => mkReg v true true) m)) with (aset (vregs m) r (mkReg v true true)).
    rewrite anth_aset by lia. reflexivity. }
  assert (Hl : lazy_const m' r = true) by (unfold lazy_const; rewrite Hvr, Z.eqb_refl by lia; reflexivity).
  apply (rep_update m h); [exact Hrep | exact Es | | apply (rep_gpr _ _ _ _ _ Hrep) | lia | exact Hv | | | | reflexivity | reflexivity].
  - rewrite Ev. apply zlen_aset.
  - rewrite Hvr, (proj2 (Z.eqb_neq r 0)) by lia. apply (rep_zero _ _ _ _ _ Hrep).
  - intros _. destruct (rep_regs _ _ _ _ _ Hrep r Hr) as [Ic Ip Im Icl Id I8 I9]. split.
    + intros _. rewrite Hvr, Z.eqb_refl by lia. reflexivity.
    + unfold content. rewrite Hl, Hvr, Z.eqb_refl by lia. reflexivity.
    + intros _. rewrite Em, set_bit_spec, Z.eqb_refl by lia. reflexivity.
    + congruence.
    + rewrite (same_slots_has m m' r Es). unfold dirty, loaded in *. rewrite (same_slots_of m m' Es), Ed, El. exact Id.
    + congruence.
    + congruence.
  - intros k Hk Hkr. split; auto.
    + rewrite Hvr, (proj2 (Z.eqb_neq r k)) by lia. reflexivity.
    + intros _. unfold loaded. rewrite (same_slots_of m m' Es), El. reflexivity.
    + intros _. unfold dirty. rewrite (same_slots_of m m' Es), Ed. reflexivity.
    + rewrite Em. intros _ Hb. rewrite set_bit_spec, Hb by lia. apply orb_true_r.
    + rewrite E8. auto.
    + rewrite E9. auto.
Qed.

Section Alu.
Variable div0 : Z -> Z * Z.
#[local] Abbreviation runs := (runs div0).

Lemma runs_const_lazy r v m h regs vhi vlo : rep m h regs vhi vlo -> 0 < r < 32 -> is_u32 v ->
  t8_cached_psx_reg m <> r -> t9_cached_psx_reg m <> r ->
  runs (mark_vreg_const_lazy r v) m h (fun _ m' h' => rep m' h' (put r v regs) vhi vlo).
Proof.
  intros Hrep Hr Hv N8 N9. unfold mark_vreg_const_lazy. rewrite (proj2 (Z.eqb_neq r 0)) by lia. cbn [negb ewhen].
  apply runs_bind, runs_modify, runs_bind, runs_modify, runs_modify.
  unfold leave_host_base. destruct (mem_host_base_psx m =? r);
    apply (rep_lazy m h); first [assumption | reflexivity | (repeat split)].
Qed.

(** The caches before a result is stored: as they were, or T8 taken by a
    register that has no other place. *)
Lemma runs_sync m0 h0 regs vhi vlo r v m h : rep m0 h0 regs vhi vlo -> 0 < r < 32 -> is_u32 v -> gpr_ok h ->
  vconst (vreg m0 r) = false -> same_but_caches m0 m -> reg_of h (dst_of m0 r) = v ->
  (forall x, 0 <= x -> ~ scratch x -> host_of m0 r <> Some x -> reg_of h x = reg_of h0 x) ->
  (forall off, off <> CPU_REG r -> field h off = field h0 off) ->
  (forall k, 0 < k < 32 -> t8_cached_psx_reg m = k -> host_of m0 r <> None -> t8_cached_psx_reg m0 = k /\ reg_of h REG_T8 = reg_of h0 REG_T8) ->
  (forall k, 0 < k < 32 -> t9_cached_psx_reg m = k -> t9_cached_psx_reg m0 = k /\ reg_of h REG_T9 = reg_of h0 REG_T9) ->
  runs (emit_sync_reg r (dst_of m0 r)) m h (fun _ m' h' => rep m' h' (put r v regs) vhi vlo).
Proof.
  intros Hrep Hr Hv Hg Hvc (Es & Ev & Em & Ed & El) Hd Hx Hf H8 H9. pose proof (rep_wf _ _ _ _ _ Hrep) as Hw.
  pose proof (rep_regs _ _ _ _ _ Hrep r Hr) as Hi.
  assert (Hgen : forall m' h', same_slots m0 m' -> vregs m' = vregs m0 -> dirty_const_mask m' = dirty_const_mask m0 ->
    dyn_slot_loaded_mask m' = dyn_slot_loaded_mask (place_m r m0) -> dyn_dirty_mask m' = dyn_dirty_mask (place_m r m0) -> gpr_ok h' ->
    gpr h' = gpr h -> (host_of m0 r = None -> field h' (CPU_REG r) = v) -> (forall off, off <> CPU_REG r -> field h' off = field h off) ->
    (forall k, 0 < k < 32 -> t8_cached_psx_reg m' = k -> if k =? r then host_of m0 r = None /\ reg_of h' REG_T8 = v else t8_cached_psx_reg m0 = k /\ reg_of h' REG_T8 = reg_of h0 REG_T8) ->
    (forall k, 0 < k < 32 -> t9_cached_psx_reg m' = k -> if k =? r then host_of m0 r = None /\ reg_of h' REG_T9 = v else t9_cached_psx_reg m0 = k /\ reg_of h' REG_T9 = reg_of h0 REG_T9) ->
    rep m' h' (put r v regs) vhi vlo).
  { intros m' h' Es' Ev' Em' El' Ed' Hg' Eg Hn Hf' H8' H9'.
    assert (Er : forall x, reg_of h' x = reg_of h x) by (intros x; unfold reg_of; rewrite Eg; reflexivity).
    apply (rep_write m0 h0); auto.
    - rewrite Ev'. reflexivity.
    - unfold lazy_const, vreg. rewrite Ev'. change (vconst (vreg m0 r) && vdirty (vreg m0 r) = false). rewrite Hvc. reflexivity.
    - unfold vreg. rewrite Ev'. change (vconst (vreg m0 r) = true -> vvalue (vreg m0 r) = v). congruence.
    - intros k _ _. unfold vreg. rewrite Ev'. reflexivity.
    - rewrite Em'. auto.
    - intros x E. rewrite Er, <- Hd. unfold dst_of. rewrite E. reflexivity.
    - intros x Hx0 Hns Hnh. rewrite Er. auto.
    - intros off Ho. rewrite Hf' by exact Ho. auto. }
  assert (G8 : host_of m0 r <> None -> forall k, 0 < k < 32 -> (if t8_cached_psx_reg m =? r then -1 else t8_cached_psx_reg m) = k ->
    if k =? r then host_of m0 r = None /\ reg_of h REG_T8 = v else t8_cached_psx_reg m0 = k /\ reg_of h REG_T8 = reg_of h0 REG_T8).
  { intros Hh k Hk E. destruct (Z.eqb_spec (t8_cached_psx_reg m) r); [lia|]. destruct (Z.eqb_spec k r); [congruence|]. apply H8; auto. }
  assert (G9 : forall k, 0 < k < 32 -> (if t9_cached_psx_reg m =? r then -1 else t9_cached_psx_reg m) = k ->
    if k =? r then host_of m0 r = None /\ reg_of h REG_T9 = v else t9_cached_psx_reg m0 = k /\ reg_of h REG_T9 = reg_of h0 REG_T9).
  { intros k Hk E. destruct (Z.eqb_spec (t9_cached_psx_reg m) r); [lia|]. destruct (Z.eqb_spec k r); [congruence|]. apply H9; auto. }
  unfold emit_sync_reg. rewrite (proj2 (Z.eqb_neq r 0)) by lia. cbn [orb]. unfold place_m in Hgen.
  destruct (pinned r) eqn:Hp.
  - pose proof (host_pinned m0 r Hp) as Hh. apply runs_ret, Hgen; auto; try congruence.
    + intros k Hk E. destruct (H8 k Hk E ltac:(congruence)) as [E1 E2]. destruct (Z.eqb_spec k r) as [->|]; [|auto].
      destruct (ip_t8 _ _ _ _ Hi E1) as (A & _). congruence.
    + intros k Hk E. destruct (H9 k Hk E) as [E1 E2]. destruct (Z.eqb_spec k r) as [->|]; [|auto].
      destruct (ip_t9 _ _ _ _ Hi E1) as (A & _). congruence.
  - unfold store_unpinned. apply runs_bind, runs_gets. rewrite (same_slots_has m0 m r Es), (same_slots_of m0 m Es).
    destruct (has_slot m0 r) eqn:Hs.
    + pose proof (host_slot m0 r Hp Hs) as Hh. assert (Edst : dst_of m0 r = dyn_slot_ee (dyn_slot_of m0 r)) by (unfold dst_of; rewrite Hh; reflexivity).
      rewrite Edst, Z.eqb_refl. cbn [negb ewhen]. apply runs_bind, runs_ret, runs_bind, runs_modify, runs_modify.
      apply Hgen; auto; try congruence.
      * change (set_bit (dyn_slot_of m0 r) (dyn_slot_loaded_mask m) = set_bit (dyn_slot_of m0 r) (dyn_slot_loaded_mask m0)). rewrite El. reflexivity.
      * change (set_bit (dyn_slot_of m0 r) (dyn_dirty_mask m) = set_bit (dyn_slot_of m0 r) (dyn_dirty_mask m0)). rewrite Ed. reflexivity.
      * apply G8. congruence.
    + pose proof (host_none m0 r Hp Hs) as Hh. assert (Edst : dst_of m0 r = REG_T8) by (unfold dst_of; rewrite Hh; reflexivity).
      rewrite Edst in *. apply runs_bind, runs_SW; [unfold REG_T8; lia | apply CPU_REG_range; lia|]. intros n. rewrite Hd. apply runs_modify.
      apply Hgen; auto.
      * intros _. apply field_set_eq.
      * intros off Ho. apply field_set_ne. congruence.
      * intros k Hk. change (r = k -> if k =? r then host_of m0 r = None /\ reg_of h REG_T8 = v else t8_cached_psx_reg m0 = k /\ reg_of h REG_T8 = reg_of h0 REG_T8).
        intros <-. rewrite Z.eqb_refl. auto.
Qed.

(** One word computes the result. *)
Lemma runs_result r v w m h regs vhi vlo known : rep m h regs vhi vlo -> 0 < r < 32 -> is_u32 v -> vconst (vreg m r) = false ->
  ee_step div0 w h = Some (set_gpr (dst_of m r) v h) -> (forall m', same_core m' (known m')) ->
  runs (emit w >> emit_sync_reg r (dst_of m r) >> emodify known) m h (fun _ m' h' => rep m' h' (put r v regs) vhi vlo).
Proof.
  intros Hrep Hr Hv Hvc Hs Hk. pose proof (rep_wf _ _ _ _ _ Hrep) as Hw. pose proof (dst_range m r Hw ltac:(lia)) as Hdr.
  apply runs_bind, (runs_emit div0 w m h (set_gpr (dst_of m r) v h)); [exact Hs|]. intros n. apply runs_bind.
  eapply runs_mono; [apply (runs_sync m h regs vhi vlo r v (counted n m))|].
  - exact Hrep.
  - exact Hr.
  - exact Hv.
  - apply gpr_set_ok; [lia | apply (rep_gpr _ _ _ _ _ Hrep)].
  - exact Hvc.
  - repeat split.
  - apply reg_set_eq; [apply (rep_gpr _ _ _ _ _ Hrep) | exact Hdr].
  - intros x Hx Hns Hh. unfold dst_of. destruct (host_of m r) as [y|] eqn:E.
    + pose proof (host_range m r y Hw ltac:(lia) E). apply reg_set_ne; [lia | exact Hx | congruence].
    + apply reg_set_ne; [unfold REG_T8; lia | exact Hx|]. intros <-. apply Hns. unfold scratch. auto.
  - reflexivity.
  - intros k Hk0 E Hh. split; [exact E|]. unfold dst_of. destruct (host_of m r) as [y|] eqn:Ey; [|congruence].
    pose proof (host_range m r y Hw ltac:(lia) Ey). apply reg_set_ne; unfold REG_T8; lia.
  - intros k Hk0 E. split; [exact E|]. unfold dst_of. destruct (host_of m r) as [y|] eqn:Ey.
    + pose proof (host_range m r y Hw ltac:(lia) Ey). apply reg_set_ne; unfold REG_T9; lia.
    + apply reg_set_ne; unfold REG_T8, REG_T9; lia.
  - intros [] m' h' H. apply runs_modify. exact (rep_core _ _ _ _ _ _ (Hk m') H).
Qed.

Lemma const_value m h regs vhi vlo r : rep m h regs vhi vlo -> 0 <= r < 32 -> is_vreg_const m r = true -> get_vreg_const m r = aget regs r.
Proof.
  intros Hrep Hr. unfold is_vreg_const, get_vreg_const. destruct (Z.eqb_spec r 0) as [->|Hn].
  - intros _. symmetry. apply (rep_zero _ _ _ _ _ Hrep).
  - intros Hc. apply (ip_const _ _ _ _ (rep_regs _ _ _ _ _ Hrep r ltac:(lia)) Hc).
Qed.

(** The place of an operand is a register. *)
Lemma fetched_range m h regs vhi vlo r sx d m' h' : wf m -> fetched m h regs vhi vlo r sx d m' h' -> 0 <= r < 32 -> sx = REG_T8 \/ sx = REG_T9 -> 0 <= d < 32.
Proof.
  intros Hw F Hr Hsx. pose proof (f_place _ _ _ _ _ _ _ _ _ _ F) as H. destruct (r =? 0); [lia|].
  destruct H as [_ [H|[_ ->] ] ]; [pose proof (host_range m r d Hw Hr H); lia | unfold REG_T8, REG_T9 in Hsx; lia].
Qed.

Lemma later_dst m m' r : later m m' -> dst_of m' r = dst_of m r.
Proof. intros (Es & _). unfold dst_of. rewrite (same_slots_host m m' r Es). reflexivity. Qed.

Definition cached (m : Em) (r : Z) : bool := (t8_cached_psx_reg m =? r) || (t9_cached_psx_reg m =? r).

Lemma runs_unary src dst f enc known m h regs vhi vlo : rep m h regs vhi vlo -> 0 <= src < 32 -> 0 < dst < 32 ->
  is_vreg_const m src = false \/ cached m dst = false -> is_u32 (f (aget regs src)) ->
  (forall s d h, 0 <= s < 32 -> 0 <= d < 32 -> ee_step div0 (enc s d) h = Some (set_gpr d (f (reg_of h s)) h)) ->
  (forall m0 m', same_core m' (known m0 m')) ->
  runs (unary src dst f enc known) m h (fun _ m' h' => rep m' h' (put dst (f (aget regs src)) regs) vhi vlo).
Proof.
  intros Hrep Hs Hd Hok Hv Henc Hk. unfold unary. apply runs_bind, runs_gets.
  destruct (is_vreg_const m src) eqn:Hc.
  - destruct Hok as [Hok|Hok]; [discriminate|]. unfold cached in Hok. apply orb_false_elim in Hok as [N8 N9]. apply Z.eqb_neq in N8, N9.
    rewrite (const_value m h regs vhi vlo src Hrep Hs Hc). apply runs_const_lazy; assumption.
  - apply runs_bind. eapply runs_mono; [apply (runs_mark_var div0 dst m h regs vhi vlo Hrep); lia|]. intros _ m1 h1 (Hrep1 & _ & Hvc1).
    apply runs_bind. eapply runs_mono; [apply (runs_use div0 src REG_T8 m1 h1 regs vhi vlo Hrep1 Hs); auto|]. intros s m2 h2 F.
    pose proof (f_rep _ _ _ _ _ _ _ _ _ _ F) as Hrep2. pose proof (fetched_range _ _ _ _ _ _ _ _ _ _ (rep_wf _ _ _ _ _ Hrep1) F Hs ltac:(auto)) as Hsr.
    destruct (f_later _ _ _ _ _ _ _ _ _ _ F) as (_ & Hvar & _).
    apply runs_bind, runs_gets. rewrite dst_of_eq by lia. pose proof (dst_range m2 dst (rep_wf _ _ _ _ _ Hrep2) ltac:(lia)).
    apply runs_result; auto; [apply Hvar; [lia | exact Hvc1]|]. rewrite Henc, (f_value _ _ _ _ _ _ _ _ _ _ F) by lia. reflexivity.
Qed.

(** Two operands: fetching the second leaves the first. *)
Lemma runs_operands r1 r2 m h regs vhi vlo (k : Z -> Z -> E unit) (Q : unit -> Em -> Ee -> Prop) : rep m h regs vhi vlo -> 0 <= r1 < 32 -> 0 <= r2 < 32 ->
  (forall s1 s2 m' h', rep m' h' regs vhi vlo -> later m m' -> 0 <= s1 < 32 -> 0 <= s2 < 32 -> reg_of h' s1 = aget regs r1 -> reg_of h' s2 = aget regs r2 ->
    (s1 = REG_T8 -> r1 <> 0 /\ host_of m r1 = None /\ lazy_const m' r1 = false) -> s1 <> REG_T9 -> s2 <> REG_T8 -> s1 <> REG_AT -> s2 <> REG_AT -> runs (k s1 s2) m' h' Q) ->
  runs (do s1 <- emit_use_reg r1 REG_T8; do s2 <- emit_use_reg r2 REG_T9; k s1 s2) m h Q.
Proof.
  intros Hrep H1 H2 Hk. pose proof (rep_wf _ _ _ _ _ Hrep) as Hw. apply runs_bind.
  eapply runs_mono; [apply (runs_use div0 r1 REG_T8 m h regs vhi vlo Hrep H1); auto|]. intros s1 m1 h1 F1.
  pose proof (f_rep _ _ _ _ _ _ _ _ _ _ F1) as Hrep1. pose proof (rep_wf _ _ _ _ _ Hrep1) as Hw1.
  pose proof (f_later _ _ _ _ _ _ _ _ _ _ F1) as L1. pose proof (fetched_range _ _ _ _ _ _ _ _ _ _ Hw F1 H1 ltac:(auto)) as R1.
  apply runs_bind. eapply runs_mono; [apply (runs_use div0 r2 REG_T9 m1 h1 regs vhi vlo Hrep1 H2); auto|]. intros s2 m2 h2 F2.
  pose proof (f_later _ _ _ _ _ _ _ _ _ _ F2) as L2. pose proof (fetched_range _ _ _ _ _ _ _ _ _ _ Hw1 F2 H2 ltac:(auto)) as R2.
  pose proof (f_place _ _ _ _ _ _ _ _ _ _ F1) as P1. pose proof (f_place _ _ _ _ _ _ _ _ _ _ F2) as P2.
  assert (Hp1 : (s1 = REG_T8 -> r1 <> 0 /\ host_of m r1 = None) /\ s1 <> REG_T9 /\ s1 <> REG_AT).
  { destruct (Z.eqb_spec r1 0); [rewrite P1; unfold REG_T8, REG_T9, REG_AT; lia|]. destruct P1 as [_ [P|[P ->] ] ].
    - pose proof (host_range m r1 s1 Hw H1 P). unfold REG_T8, REG_T9, REG_AT. lia.
    - split; [auto | unfold REG_T8, REG_T9, REG_AT; lia]. }
  assert (Hp2 : s2 <> REG_T8 /\ s2 <> REG_AT).
  { destruct (Z.eqb_spec r2 0); [rewrite P2; unfold REG_T8, REG_AT; lia|]. destruct P2 as [_ [P|[_ ->] ] ]; [|unfold REG_T8, REG_T9, REG_AT; lia].
    pose proof (host_range m1 r2 s2 Hw1 H2 P). unfold REG_T8, REG_AT. lia. }
  apply Hk; auto; try tauto.
  - apply (f_rep _ _ _ _ _ _ _ _ _ _ F2).
  - exact (later_trans _ _ _ L1 L2).
  - rewrite (f_other _ _ _ _ _ _ _ _ _ _ F2), (f_value _ _ _ _ _ _ _ _ _ _ F1); [reflexivity | lia | tauto |].
    intros Hr2 Hh2. destruct (Z.eqb_spec r1 0) as [->|Hn].
    { pose proof (host_range m1 r2 s1 Hw1 H2 Hh2). lia. }
    destruct P1 as [St [P|[P ->] ] ].
    + rewrite <- (same_slots_host m m1 r1 (proj1 L1)) in P. rewrite (host_inj m1 r2 r1 s1 Hw1 H2 H1 Hh2 P). exact St.
    + destruct (scratch_not_host m1 r2 REG_T8 Hw1 ltac:(lia) ltac:(unfold scratch; auto) Hh2).
  - apply (f_value _ _ _ _ _ _ _ _ _ _ F2).
  - intros E. destruct (proj1 Hp1 E) as [Hn Hh]. split; [exact Hn | split; [exact Hh|]].
    rewrite (proj2 (Z.eqb_neq r1 0) Hn) in P1. destruct P1 as [St _]. destruct L2 as (_ & _ & L2). apply (L2 r1 ltac:(lia) St).
Qed.

Lemma runs_drop_base m h (Q : unit -> Em -> Ee -> Prop) : (forall m', same_core m m' -> Q tt m' h) -> runs drop_host_base m h Q.
Proof. intros H. apply runs_modify, H. repeat split. Qed.

(** [op] is the value of the two fetched registers. *)
Lemma runs_binary rs rt rd fold first second op enc known m h regs vhi vlo : rep m h regs vhi vlo ->
  0 <= first < 32 -> 0 <= second < 32 -> 0 <= rs < 32 -> 0 <= rt < 32 -> 0 < rd < 32 ->
  (forall f, fold = Some f -> first = rs /\ second = rt /\ f = op /\ (is_vreg_const m rs && is_vreg_const m rt = false \/ cached m rd = false)) ->
  is_u32 (op (aget regs first) (aget regs second)) ->
  (forall s1 s2 d h, 0 <= s1 < 32 -> 0 <= s2 < 32 -> 0 <= d < 32 -> ee_step div0 (enc s1 s2 d) h = Some (set_gpr d (op (reg_of h s1) (reg_of h s2)) h)) ->
  (forall m0 m', same_core m' (known m0 m')) ->
  runs (binary rs rt rd fold first second enc known) m h (fun _ m' h' => rep m' h' (put rd (op (aget regs first) (aget regs second)) regs) vhi vlo).
Proof.
  intros Hrep H1 H2 Hrs Hrt Hd Hok Hv Henc Hk.
  set (v := op (aget regs first) (aget regs second)) in *.
  assert (Hslow : forall m0, runs (mark_vreg_var rd >> drop_host_base >>
      do s1 <- emit_use_reg first REG_T8; do s2 <- emit_use_reg second REG_T9; do d <- emit_dst_reg rd REG_T8;
      emit (enc s1 s2 d) >> emit_sync_reg rd d >> emodify (known m0)) m h (fun _ m' h' => rep m' h' (put rd v regs) vhi vlo)).
  { intros m0. apply runs_bind. eapply runs_mono; [apply (runs_mark_var div0 rd m h regs vhi vlo Hrep); lia|]. intros _ m1 h1 (Hrep1 & _ & Hvc1).
    apply runs_bind, runs_drop_base. intros m2 Hc. apply (rep_core _ _ _ _ _ _ Hc) in Hrep1.
    apply (runs_operands first second m2 h1 regs vhi vlo); [exact Hrep1 | exact H1 | exact H2|].
    intros s1 s2 m3 h3 Hrep3 L R1 R2 V1 V2 _ _ _ _ _. apply runs_bind, runs_gets. rewrite dst_of_eq by lia.
    pose proof (dst_range m3 rd (rep_wf _ _ _ _ _ Hrep3) ltac:(lia)).
    apply runs_result; auto.
    - apply L; [lia|]. apply (later_core m1 m2 Hc); [lia | exact Hvc1].
    - rewrite Henc, V1, V2 by lia. reflexivity. }
  unfold binary. apply runs_bind, runs_gets. destruct fold as [f|]; [|apply Hslow].
  destruct (Hok f eq_refl) as (-> & -> & -> & Hok'). clear Hok.
  destruct (is_vreg_const m rs && is_vreg_const m rt) eqn:Hc; [|apply Hslow].
  destruct Hok' as [Hok|Hok]; [discriminate|]. unfold cached in Hok. apply orb_false_elim in Hok as [N8 N9]. apply Z.eqb_neq in N8, N9.
  apply andb_prop in Hc as [C1 C2].
  rewrite (const_value m h regs vhi vlo rs Hrep Hrs C1), (const_value m h regs vhi vlo rt Hrep Hrt C2). apply runs_const_lazy; assumption.
Qed.

(** ** HI and LO *)

Lemma set_gpr_0 v h : set_gpr 0 v h = h.
Proof. destruct h. reflexivity. Qed.

Lemma rep_hilo m h regs vhi vlo m' h' : rep m h regs vhi vlo -> same_but_caches m m' -> gpr_ok h' ->
  (forall x, 0 <= x -> ~ scratch x -> reg_of h' x = reg_of h x) ->
  (forall off, off <> CPU_HI -> off <> CPU_LO -> field h' off = field h off) ->
  t8_cached_psx_reg m' = -1 -> t9_cached_psx_reg m' = -1 -> is_u32 (field h' CPU_HI) /\ is_u32 (field h' CPU_LO) ->
  rep m' h' regs (field h' CPU_HI) (field h' CPU_LO).
Proof.
  intros Hrep (Es & Ev & Em & Ed & El) Hg Hx Hf E8 E9 Hpr. pose proof (rep_wf _ _ _ _ _ Hrep) as Hw.
  apply (rep_frame m h m' h' regs vhi vlo); [exact Hrep | exact Es | congruence | exact Hg | unfold vreg; rewrite Ev; apply (rep_zero _ _ _ _ _ Hrep) | | exact Hpr].
  intros k Hk. pose proof (same_slots_of m m' Es k) as Eo. split.
  - unfold vreg. rewrite Ev. reflexivity.
  - intros _. unfold loaded. rewrite El, Eo. reflexivity.
  - intros _. unfold dirty. rewrite Ed, Eo. reflexivity.
  - rewrite Em. auto.
  - intros x E. pose proof (host_range m k x Hw ltac:(lia) E). apply Hx; [lia|]. unfold scratch, REG_AT, REG_T8, REG_T9. lia.
  - apply Hf; unfold CPU_HI, CPU_LO, CPU_REG; lia.
  - lia.
  - lia.
Qed.

Lemma rep_set_hi_lo m h regs vhi vlo n (isHi : bool) : rep m h regs vhi vlo ->
  let off := if isHi then CPU_HI else CPU_LO in
  forall v, is_u32 v -> rep (counted n m) (set_field off v h) regs (if isHi then v else vhi) (if isHi then vlo else v).
Proof.
  intros Hrep off v Hv. pose proof (rep_pair _ _ _ _ _ Hrep) as [Ph Pl]. pose proof (rep_hi _ _ _ _ _ Hrep) as Ehi. pose proof (rep_lo _ _ _ _ _ Hrep) as Elo.
  assert (E : field (set_field off v h) CPU_HI = (if isHi then v else vhi) /\ field (set_field off v h) CPU_LO = (if isHi then vlo else v)).
  { unfold off. destruct isHi; rewrite field_set_eq, field_set_ne by discriminate; auto. }
  assert (P : is_u32 (field (set_field off v h) CPU_HI) /\ is_u32 (field (set_field off v h) CPU_LO)) by (destruct E as [-> ->]; destruct isHi; auto).
  destruct E as [<- <-].
  apply (rep_frame m h _ _ regs vhi vlo); [exact Hrep | repeat split | reflexivity | apply (rep_gpr _ _ _ _ _ Hrep) | apply (rep_zero _ _ _ _ _ Hrep) | | exact P].
  intros k Hk. split; auto. apply field_set_ne. unfold off, CPU_HI, CPU_LO, CPU_REG. destruct isHi; lia.
Qed.

Lemma runs_move_to_hilo (isHi : bool) r m h regs vhi vlo : rep m h regs vhi vlo -> 0 <= r < 32 ->
  runs (emit_load_psx_reg REG_T8 r >> EMIT_SW REG_T8 (if isHi then CPU_HI else CPU_LO) REG_S0) m h
    (fun _ m' h' => rep m' h' regs (if isHi then aget regs r else vhi) (if isHi then vlo else aget regs r)).
Proof.
  intros Hrep Hr. apply runs_bind. eapply runs_mono; [apply (runs_load div0 r REG_T8 m h regs vhi vlo Hrep Hr); auto|].
  intros _ m1 h1 (Hrep1 & _ & V & _). apply runs_SW; [unfold REG_T8; lia | destruct isHi; unfold CPU_HI, CPU_LO; lia|]. intros n. rewrite V.
  apply (rep_set_hi_lo m1 h1 regs vhi vlo n isHi Hrep1). apply (rep_words _ _ _ _ _ Hrep).
Qed.

(** The two halves go to [cpu.lo] and [cpu.hi] through T8; [wl] and [wh] are
    the words that fetch them. *)
Lemma hilo_stored m h regs vhi vlo h4 vh vl n : rep m h regs vhi vlo -> is_u32 vh -> is_u32 vl -> gpr h4 = gpr h -> cpu_mem h4 = cpu_mem h ->
  let h5 := set_field CPU_LO vl (set_gpr REG_T8 vl h4) in
  let h6 := set_field CPU_HI vh (set_gpr REG_T8 vh h5) in
  rep (reg_cache_invalidate (counted n m)) h6 regs vh vl.
Proof.
  intros Hrep Hvh Hvl Eg Ec h5 h6. pose proof (rep_gpr _ _ _ _ _ Hrep) as Hg.
  assert (Ef : forall off, field h6 off = if off =? CPU_HI then vh else if off =? CPU_LO then vl else field h off).
  { intros off. unfold h6. destruct (Z.eqb_spec off CPU_HI) as [->|N1]; [apply field_set_eq|]. rewrite field_set_ne, field_set_gpr by congruence.
    unfold h5. destruct (Z.eqb_spec off CPU_LO) as [->|N2]; [apply field_set_eq|]. rewrite field_set_ne, field_set_gpr by congruence. unfold field. rewrite Ec. reflexivity. }
  enough (H : rep (reg_cache_invalidate (counted n m)) h6 regs (field h6 CPU_HI) (field h6 CPU_LO)) by (rewrite !Ef in H; exact H).
  apply (rep_hilo m h regs vhi vlo); [exact Hrep | repeat split | | | | reflexivity | reflexivity | rewrite !Ef; split; assumption].
  - assert (gpr_ok h4) by (destruct Hg as [A B]; split; [rewrite Eg; exact A | unfold reg_of in *; rewrite Eg; exact B]).
    apply gpr_set_ok; [unfold REG_T8; lia|]. apply (gpr_set_ok REG_T8 vl); [unfold REG_T8; lia | assumption].
  - intros x Hx Hns. assert (x <> REG_T8) by (intros ->; apply Hns; unfold scratch; auto).
    change (reg_of (set_gpr REG_T8 vh (set_gpr REG_T8 vl h4)) x = reg_of h x).
    rewrite !reg_set_ne by (unfold REG_T8 in *; lia). unfold reg_of. rewrite Eg. reflexivity.
  - intros off N1 N2. rewrite Ef, (proj2 (Z.eqb_neq _ _) N1), (proj2 (Z.eqb_neq _ _) N2). reflexivity.
Qed.

Lemma runs_hilo_tail wl wh m h regs vhi vlo h4 vh vl : rep m h regs vhi vlo -> is_u32 vh -> is_u32 vl -> gpr h4 = gpr h -> cpu_mem h4 = cpu_mem h ->
  ee_step div0 wl h4 = Some (set_gpr REG_T8 vl h4) ->
  (let h5 := set_field CPU_LO vl (set_gpr REG_T8 vl h4) in ee_step div0 wh h5 = Some (set_gpr REG_T8 vh h5)) ->
  forall n, runs (emit wl >> EMIT_SW REG_T8 CPU_LO REG_S0 >> emit wh) (counted n m) h4 (fun _ m' h' =>
    runs (EMIT_SW REG_T8 CPU_HI REG_S0 >> emodify reg_cache_invalidate) m' h' (fun _ m'' h'' => rep m'' h'' regs vh vl)).
Proof.
  intros Hrep Hvh Hvl Eg Ec Sl Sh n. pose proof (rep_gpr _ _ _ _ _ Hrep) as Hg.
  assert (Hg4 : gpr_ok h4) by (destruct Hg as [A B]; split; [rewrite Eg; exact A | unfold reg_of in *; rewrite Eg; exact B]).
  apply runs_bind. apply (runs_emit div0 _ _ _ _ _ Sl). intros n1.
  apply runs_bind, runs_SW; [unfold REG_T8; lia | unfold CPU_LO; lia|]. intros n2. rewrite reg_set_eq by (exact Hg4 || unfold REG_T8; lia).
  apply (runs_emit div0 _ _ _ _ _ Sh). intros n3.
  apply runs_bind, runs_SW; [unfold REG_T8; lia | unfold CPU_HI; lia|]. intros n4.
  rewrite reg_set_eq by (first [apply (gpr_set_ok REG_T8 vl h4); [unfold REG_T8; lia | exact Hg4] | unfold REG_T8; lia]).
  apply runs_modify. exact (hilo_stored m h regs vhi vlo h4 vh vl n4 Hrep Hvh Hvl Eg Ec).
Qed.

Lemma runs_mult (unsigned : bool) rs rt m h regs vhi vlo : rep m h regs vhi vlo -> 0 <= rs < 32 -> 0 <= rt < 32 ->
  let p := if unsigned then aget regs rs * aget regs rt else s32 (aget regs rs) * s32 (aget regs rt) in
  runs (emit_mult unsigned rs rt) m h (fun _ m' h' => rep m' h' regs (u32 (Z.shiftr p 32)) (u32 p)).
Proof.
  intros Hrep Hrs Hrt p. unfold emit_mult. apply runs_bind, runs_drop_base. intros m1 Hc. apply (rep_core _ _ _ _ _ _ Hc) in Hrep.
  apply runs_bind. eapply runs_mono; [apply (runs_load div0 rs REG_T8 m1 h regs vhi vlo Hrep Hrs); auto|]. intros _ m2 h2 (Hrep2 & _ & V1 & _).
  apply runs_bind. eapply runs_mono; [apply (runs_load div0 rt REG_T9 m2 h2 regs vhi vlo Hrep2 Hrt); auto|]. intros _ m3 h3 (Hrep3 & _ & V2 & K).
  rewrite <- (K REG_T8) in V1 by (unfold scratch, REG_T8, REG_T9; lia).
  apply runs_bind, runs_gets, runs_bind, runs_modify. set (m4 := m3 <| mult_count ::= Z.succ |>) in *.
  assert (Hrep4 : rep m4 h3 regs vhi vlo) by (apply (rep_core m3); [repeat split | exact Hrep3]).
  apply runs_bind. destruct (Z.land (mult_count m3) 1 =? 0).
  - set (h4 := h3 <| ehi1 := u32 (Z.shiftr p 32) |> <| elo1 := u32 p |>).
    assert (Hm : runs (if unsigned then EMIT_MULTU1 REG_T8 REG_T9 else EMIT_MULT1 REG_T8 REG_T9) m4 h3 (fun _ m' h' => exists n, m' = counted n m4 /\ h' = h4)).
    { unfold EMIT_MULTU1, EMIT_MULT1. destruct unsigned; apply (runs_emit div0 _ m4 h3 h4);
        solve [intros n; eexists; split; reflexivity | rewrite step_mmi by (unfold REG_T8, REG_T9; lia); cbn [ee_mmi]; rewrite V1, V2; reflexivity]. }
    apply runs_bind. eapply runs_mono; [exact Hm|]. intros _ m5 h5 (n & -> & ->).
    apply (runs_hilo_tail _ _ m4 h3 regs vhi vlo h4); first [reflexivity | exact Hrep4 | apply u32_range].
  - set (h4 := h3 <| ehi := u32 (Z.shiftr p 32) |> <| elo := u32 p |>). apply runs_bind, (runs_emit div0 _ m4 h3 h4).
    { destruct unsigned; rewrite step_special by (unfold REG_T8, REG_T9; lia); cbn [ee_special]; rewrite V1, V2; reflexivity. }
    intros n. apply (runs_hilo_tail _ _ m4 h3 regs vhi vlo h4); first [reflexivity | exact Hrep4 | apply u32_range].
Qed.

Lemma runs_move_from_hilo (isHi : bool) r m h regs vhi vlo : rep m h regs vhi vlo -> 0 <= r < 32 ->
  runs (emit_cpu_field_to_psx_reg (if isHi then CPU_HI else CPU_LO) r) m h (fun _ m' h' => rep m' h' (put r (if isHi then vhi else vlo) regs) vhi vlo).
Proof.
  intros Hrep Hr. set (off := if isHi then CPU_HI else CPU_LO). set (v := if isHi then vhi else vlo). unfold emit_cpu_field_to_psx_reg.
  assert (Hoff : 0 <= off < 32768) by (unfold off, CPU_HI, CPU_LO; destruct isHi; lia).
  apply runs_bind. eapply runs_mono; [apply (runs_mark_var div0 r m h regs vhi vlo Hrep Hr)|]. intros _ m1 h1 (Hrep1 & _ & Hvc).
  assert (Ev : field h1 off = v /\ is_u32 v).
  { destruct (rep_pair _ _ _ _ _ Hrep1). unfold off, v. destruct isHi; split; auto; [apply (rep_hi _ _ _ _ _ Hrep1) | apply (rep_lo _ _ _ _ _ Hrep1)]. }
  destruct Ev as [Ev Hv]. pose proof (rep_wf _ _ _ _ _ Hrep1) as Hw. pose proof (rep_gpr _ _ _ _ _ Hrep1) as Hg.
  apply runs_bind, runs_gets. destruct (Z.eqb_spec r 0) as [->|Hn]; [apply runs_ret; exact Hrep1|].
  assert (Hr' : 0 < r < 32) by lia. pose proof (rep_regs _ _ _ _ _ Hrep1 r Hr') as Hi.
  assert (Hq : forall m' sx, same_slots m1 m' -> vregs m' = vregs m1 -> dirty_const_mask m' = dirty_const_mask m1 ->
    dyn_slot_loaded_mask m' = dyn_slot_loaded_mask (place_m r m1) -> dyn_dirty_mask m' = dyn_dirty_mask (place_m r m1) ->
    (forall k, 0 < k -> t8_cached_psx_reg m' = k -> t8_cached_psx_reg m1 = k /\ k <> r) -> (forall k, 0 < k -> t9_cached_psx_reg m' = k -> t9_cached_psx_reg m1 = k /\ k <> r) ->
    (sx = None \/ sx = Some REG_AT) -> rep m' (place_h m1 r v (via sx v h1)) (put r v regs) vhi vlo).
  { intros m' sx A B C D E F8 F9 S. apply (rep_place m1 h1); auto.
    - congruence.
    - unfold lazy_const, vreg. rewrite B. change (vconst (vreg m1 r) && vdirty (vreg m1 r) = false). rewrite Hvc. reflexivity.
    - unfold vreg. rewrite B. change (vconst (vreg m1 r) = true -> vvalue (vreg m1 r) = v). congruence.
    - intros k _ _. unfold vreg. rewrite B. reflexivity.
    - rewrite C. auto.
    - intros x Ex. unfold scratch. destruct S as [->| ->]; [discriminate | injection Ex as <-; auto].
    - intros k Hk E8. destruct (F8 k ltac:(lia) E8) as [G1 G2]. rewrite (proj2 (Z.eqb_neq k r) G2). split; [exact G1 | destruct S as [->| ->]; discriminate].
    - intros k Hk E9. destruct (F9 k ltac:(lia) E9) as [G1 G2]. rewrite (proj2 (Z.eqb_neq k r) G2). split; [exact G1 | destruct S as [->| ->]; discriminate]. }
  assert (Hnc : host_of m1 r <> None -> t8_cached_psx_reg m1 <> r /\ t9_cached_psx_reg m1 <> r).
  { intros Hh. split; intros E; apply Hh; [apply (ip_t8 _ _ _ _ Hi E) | apply (ip_t9 _ _ _ _ Hi E)]. }
  unfold place_m, place_h in Hq. destruct (pinned r) eqn:Hp.
  - rewrite (host_pinned m1 r Hp) in Hq, Hnc. destruct (Hnc ltac:(discriminate)). pose proof (pinned_range r Hp).
    apply runs_LW; [lia | exact Hoff|]. intros n. rewrite Ev.
    apply (Hq (counted n m1) None); auto; [repeat split | |]; intros k _ E;
        [change (t8_cached_psx_reg m1 = k) in E | change (t9_cached_psx_reg m1 = k) in E]; split; congruence.
  - destruct (has_slot m1 r) eqn:Hs.
    + pose proof (host_slot m1 r Hp Hs) as Hh. rewrite Hh in Hq, Hnc. destruct (Hnc ltac:(discriminate)). pose proof (host_range m1 r _ Hw ltac:(lia) Hh). fold (slot_host m1 r).
      apply runs_bind, runs_LW; [lia | exact Hoff|]. intros n. rewrite Ev. apply runs_modify.
      apply (Hq (slot_written (dyn_slot_of m1 r) (counted n m1)) None); auto; [repeat split | |]; intros k _ E;
        [change (t8_cached_psx_reg m1 = k) in E | change (t9_cached_psx_reg m1 = k) in E]; split; congruence.
    + rewrite (host_none m1 r Hp Hs) in Hq. apply runs_bind, runs_LW; [unfold REG_AT; lia | exact Hoff|]. intros n. rewrite Ev.
      apply runs_bind, runs_SW; [unfold REG_AT; lia | apply CPU_REG_range; lia|]. intros n'. rewrite reg_set_eq by (exact Hg || unfold REG_AT; lia). apply runs_modify.
      apply (Hq (scratch_invalidate_psx r (counted n' m1)) (Some REG_AT)); auto; [repeat split | |].
      * intros k Hk. change ((if t8_cached_psx_reg m1 =? r then -1 else t8_cached_psx_reg m1) = k -> t8_cached_psx_reg m1 = k /\ k <> r). destruct (Z.eqb_spec (t8_cached_psx_reg m1) r); lia.
      * intros k Hk. change ((if t9_cached_psx_reg m1 =? r then -1 else t9_cached_psx_reg m1) = k -> t9_cached_psx_reg m1 = k /\ k <> r). destruct (Z.eqb_spec (t9_cached_psx_reg m1) r); lia.
Qed.

(** ** Division *)

(** The quotient of a division by zero. *)
Definition zero_quot (unsigned : bool) (a : Z) : Z := if unsigned then 0xFFFFFFFF else if 0 <=? s32 a then 0xFFFFFFFF else 1.

Lemma shiftr_sign a : Z.shiftr (s32 a) 31 = if 0 <=? s32 a then 0 else -1.
Proof. pose proof (s32_range a). rewrite Z.shiftr_div_pow2 by lia. destruct (Z.leb_spec 0 (s32 a)); Z.to_euclidean_division_equations; lia. Qed.

Lemma runs_zero_quot (unsigned : bool) s1 m h : gpr_ok h -> 0 <= s1 < 32 ->
  runs (if unsigned then EMIT_ADDIU REG_AT REG_ZERO (-1)
        else emit (MK_R 0 0 s1 REG_AT 31 0x03) >> emit (MK_R 0 0 REG_AT REG_AT 1 0x00) >> emit (MK_R 0 REG_AT REG_ZERO REG_AT 0 0x27))
    m h (fun _ m' h' => (exists n, m' = counted n m) /\ h' = set_gpr REG_AT (zero_quot unsigned (reg_of h s1)) h).
Proof.
  intros Hg Hs. destruct unsigned.
  - unfold EMIT_ADDIU. eapply runs_emit; [rewrite step_imm by (unfold REG_AT, REG_ZERO; lia); cbn [ee_imm]; reflexivity|].
    intros n. split; [eexists; reflexivity|]. unfold REG_ZERO. rewrite (proj2 Hg). reflexivity.
  - set (v1 := if 0 <=? s32 (reg_of h s1) then 0 else 0xFFFFFFFF). set (v2 := u32 (Z.shiftl v1 1)).
    assert (Hat : forall v, reg_of (set_gpr REG_AT v h) REG_AT = v) by (intros v; apply reg_set_eq; [exact Hg | unfold REG_AT; lia]).
    assert (Hz : forall v, reg_of (set_gpr REG_AT v h) REG_ZERO = 0) by (intros v; rewrite reg_set_ne by (unfold REG_AT, REG_ZERO; lia); apply Hg).
    apply runs_bind, (runs_emit div0 _ _ _ (set_gpr REG_AT v1 h)).
    { rewrite step_special by (unfold REG_AT; lia). cbn [ee_special]. rewrite shiftr_sign. unfold v1. destruct (0 <=? _); reflexivity. }
    intros n. apply runs_bind, (runs_emit div0 _ _ _ (set_gpr REG_AT v2 h)).
    { rewrite step_special by (unfold REG_AT; lia). cbn [ee_special]. rewrite Hat, set_gpr_twice. reflexivity. }
    intros n'. apply (runs_emit div0 _ _ _ (set_gpr REG_AT (zero_quot false (reg_of h s1)) h)).
    { rewrite step_special by (unfold REG_AT, REG_ZERO; lia). cbn [ee_special]. rewrite Hat, Hz, set_gpr_twice. unfold v2, v1, zero_quot. destruct (0 <=? _); reflexivity. }
    intros n''. split; [eexists; reflexivity | reflexivity].
Qed.

(** MFLO or MFHI, then the value for a zero divisor. *)
Lemma runs_MOVZ x s2 m h (Q : unit -> Em -> Ee -> Prop) : 0 <= x < 32 -> 0 <= s2 < 32 ->
  (forall n, Q tt (counted n m) (if reg_of h s2 =? 0 then set_gpr REG_T8 (reg_of h x) h else h)) -> runs (EMIT_MOVZ REG_T8 x s2) m h Q.
Proof.
  intros Hx Hs H. unfold EMIT_MOVZ. eapply runs_emit; [rewrite step_special by (unfold REG_T8; lia); cbn [ee_special]; instantiate (1 := if reg_of h s2 =? 0 then set_gpr REG_T8 (reg_of h x) h else h); destruct (reg_of h s2 =? 0); reflexivity | exact H].
Qed.

Lemma runs_hi_part rs s1 s2 a b m h : gpr_ok h -> 0 <= rs < 32 -> 0 <= s1 < 32 -> 0 <= s2 < 32 -> s2 <> REG_T8 -> s2 <> REG_AT -> s1 <> REG_AT -> reg_of h s2 = b ->
  (s1 = REG_T8 -> field h (CPU_REG rs) = a) -> (s1 <> REG_T8 -> reg_of h s1 = a) ->
  runs (emit (MK_R 0 0 0 REG_T8 0 0x10) >>
    (if s1 =? REG_T8 then EMIT_LW REG_AT (CPU_REG rs) REG_S0 >> EMIT_MOVZ REG_T8 REG_AT s2 else EMIT_MOVZ REG_T8 s1 s2))
    m h (fun _ m' h' => (exists n, m' = counted n m) /\ gpr_ok h' /\ reg_of h' REG_T8 = (if b =? 0 then a else ehi h) /\
      (forall x, 0 <= x -> ~ scratch x -> reg_of h' x = reg_of h x) /\ cpu_mem h' = cpu_mem h).
Proof.
  intros Hg Hrs R1 R2 N1 N2 N3 Eb E8 En.
  apply runs_bind, (runs_emit div0 _ m h (set_gpr REG_T8 (ehi h) h)); [rewrite step_special by (unfold REG_T8; lia); reflexivity|]. intros n.
  set (h1 := set_gpr REG_T8 (ehi h) h). assert (Hg1 : gpr_ok h1) by (apply gpr_set_ok; [unfold REG_T8; lia | exact Hg]).
  assert (Eb1 : reg_of h1 s2 = b) by (unfold h1; rewrite reg_set_ne by (unfold REG_T8 in *; lia); exact Eb).
  assert (H8 : reg_of h1 REG_T8 = ehi h) by (apply reg_set_eq; [exact Hg | unfold REG_T8; lia]).
  assert (Ho : forall x, 0 <= x -> ~ scratch x -> reg_of h1 x = reg_of h x).
  { intros x Hx Hns. apply reg_set_ne; [unfold REG_T8; lia | exact Hx|]. intros <-. apply Hns. unfold scratch. auto. }
  assert (Hset : forall v h2 x, 0 <= x -> ~ scratch x -> reg_of (set_gpr REG_T8 v h2) x = reg_of h2 x).
  { intros v h2 x Hx Hns. apply reg_set_ne; [unfold REG_T8; lia | exact Hx|]. intros <-. apply Hns. unfold scratch. auto. }
  destruct (Z.eqb_spec s1 REG_T8) as [E1|E1].
  - apply runs_bind, runs_LW; [unfold REG_AT; lia | apply CPU_REG_range; lia|]. intros n'. change (field h1 (CPU_REG rs)) with (field h (CPU_REG rs)). rewrite (E8 E1).
    set (h2 := set_gpr REG_AT a h1). assert (Hg2 : gpr_ok h2) by (apply gpr_set_ok; [unfold REG_AT; lia | exact Hg1]).
    assert (Ho2 : forall x, 0 <= x -> ~ scratch x -> reg_of h2 x = reg_of h x).
    { intros x Hx Hns. rewrite <- Ho by assumption. apply reg_set_ne; [unfold REG_AT; lia | exact Hx|]. intros <-. apply Hns. unfold scratch. auto. }
    apply runs_MOVZ; [unfold REG_AT; lia | exact R2|]. intros n''.
    assert (Eb2 : reg_of h2 s2 = b) by (unfold h2; rewrite reg_set_ne by (unfold REG_AT in *; lia); exact Eb1).
    assert (EA : reg_of h2 REG_AT = a) by (apply reg_set_eq; [exact Hg1 | unfold REG_AT; lia]). rewrite Eb2, EA.
    split; [eexists; reflexivity|]. destruct (b =? 0).
    + split; [apply gpr_set_ok; [unfold REG_T8; lia | exact Hg2] | split; [apply reg_set_eq; [exact Hg2 | unfold REG_T8; lia] | split; [|reflexivity] ] ].
      intros x Hx Hns. rewrite Hset by assumption. auto.
    + split; [exact Hg2 | split; [|split; [exact Ho2 | reflexivity] ] ]. unfold h2. rewrite reg_set_ne by (unfold REG_AT, REG_T8; lia). exact H8.
  - apply runs_MOVZ; [exact R1 | exact R2|]. intros n'. rewrite Eb1.
    assert (EA : reg_of h1 s1 = a) by (unfold h1; rewrite reg_set_ne by (unfold REG_T8 in *; lia); auto). rewrite EA.
    split; [eexists; reflexivity|]. destruct (b =? 0).
    + split; [apply gpr_set_ok; [unfold REG_T8; lia | exact Hg1] | split; [apply reg_set_eq; [exact Hg1 | unfold REG_T8; lia] | split; [|reflexivity] ] ].
      intros x Hx Hns. rewrite Hset by assumption. auto.
    + auto 6.
Qed.

(** The divider of the host with the values for a zero divisor is that of the
    PlayStation. *)
Lemma div_results (unsigned : bool) a b : is_u32 a -> is_u32 b ->
  let p := if unsigned then host_divu div0 a b else host_div div0 a b in
  let q := if unsigned then Helper_DIVU a b else Helper_DIV a b in
  (if b =? 0 then zero_quot unsigned a else fst p) = fst q /\ (if b =? 0 then a else snd p) = snd q /\ is_u32 (fst q) /\ is_u32 (snd q).
Proof.
  intros Ha Hb p q. unfold p, q, host_div, host_divu, Helper_DIV, Helper_DIVU, zero_quot. destruct unsigned; destruct (Z.eqb_spec b 0) as [->|Hn]; cbn [fst snd].
  - rewrite (is_u32_lit 0xFFFFFFFF) || idtac. repeat split; try lia; apply Ha || (unfold is_u32; lia).
  - unfold is_u32 in *. repeat split; try reflexivity; Z.to_euclidean_division_equations; nia.
  - change (s32 0 =? 0) with true. cbn [fst snd]. rewrite u32_s32, (u32_small a Ha). split; [reflexivity | split; [reflexivity | split; [|exact Ha] ] ].
    destruct (0 <=? s32 a); unfold is_u32; lia.
  - assert (Hs : s32 b <> 0) by (unfold s32; rewrite (u32_small b Hb); unfold is_u32 in Hb; destruct (b <? 2147483648) eqn:E; [|apply Z.ltb_ge in E]; lia).
    rewrite (proj2 (Z.eqb_neq _ _) Hs). rewrite u32_s32, (u32_small a Ha).
    destruct ((a =? 0x80000000) && (s32 b =? -1)) eqn:E; cbn [fst snd].
    + apply andb_prop in E as [E1 E2]. apply Z.eqb_eq in E1, E2. rewrite E1, E2. split; [reflexivity | split; [reflexivity | split; unfold is_u32; lia] ].
    + split; [reflexivity | split; [reflexivity | split; apply u32_range] ].
Qed.

Lemma runs_div (unsigned : bool) rs rt m h regs vhi vlo : rep m h regs vhi vlo -> 0 <= rs < 32 -> 0 <= rt < 32 ->
  let q := if unsigned then Helper_DIVU (aget regs rs) (aget regs rt) else Helper_DIV (aget regs rs) (aget regs rt) in
  runs (emit_div unsigned rs rt) m h (fun _ m' h' => rep m' h' regs (snd q) (fst q)).
Proof.
  intros Hrep Hrs Hrt q. unfold emit_div. apply runs_bind, runs_drop_base. intros m1 Hc. apply (rep_core _ _ _ _ _ _ Hc) in Hrep.
  apply (runs_operands rs rt m1 h regs vhi vlo); [exact Hrep | exact Hrs | exact Hrt|].
  intros s1 s2 m2 h2 Hrep2 L R1 R2 V1 V2 P8 N1 N2 N3 N4. set (a := aget regs rs) in *. set (b := aget regs rt) in *.
  pose proof (rep_gpr _ _ _ _ _ Hrep2) as Hg. assert (Ha : is_u32 a) by apply (rep_words _ _ _ _ _ Hrep2). assert (Hb : is_u32 b) by apply (rep_words _ _ _ _ _ Hrep2).
  destruct (div_results unsigned a b Ha Hb) as (El & Eh & Ul & Uh). fold q in El, Eh, Ul, Uh.
  set (p := if unsigned then host_divu div0 a b else host_div div0 a b) in *.
  set (h3 := h2 <| ehi := snd p |> <| elo := fst p |>).
  assert (Hg3 : gpr_ok h3) by exact Hg.
  apply runs_bind, (runs_emit div0 _ m2 h2 h3).
  { unfold h3, p. destruct unsigned; rewrite step_special by lia; cbn [ee_special]; rewrite V1, V2; reflexivity. }
  intros n3. apply runs_bind. eapply runs_mono; [apply (runs_zero_quot unsigned s1); [exact Hg3 | exact R1]|]. intros _ m4 h4 ((n4 & ->) & ->).
  change (reg_of h3 s1) with (reg_of h2 s1). rewrite V1. set (h4 := set_gpr REG_AT (zero_quot unsigned a) h3).
  assert (Hg4 : gpr_ok h4) by (apply gpr_set_ok; [unfold REG_AT; lia | exact Hg3]).
  apply runs_bind, (runs_emit div0 _ _ h4 (set_gpr REG_T8 (fst p) h4)); [rewrite step_special by (unfold REG_T8; lia); reflexivity|]. intros n5.
  apply runs_bind, runs_MOVZ; [unfold REG_AT; lia | exact R2|]. intros n6.
  set (h5 := if reg_of (set_gpr REG_T8 (fst p) h4) s2 =? 0 then _ else _).
  assert (H5 : h5 = set_gpr REG_T8 (fst q) h4).
  { unfold h5. rewrite reg_set_ne by (unfold REG_T8 in *; lia). unfold h4 at 1. rewrite reg_set_ne by (unfold REG_AT in *; lia).
    change (reg_of h3 s2) with (reg_of h2 s2). rewrite V2, <- El. destruct (b =? 0); [|reflexivity].
    rewrite set_gpr_twice, (reg_set_ne REG_T8) by (unfold REG_T8, REG_AT; lia). unfold h4 at 1. rewrite reg_set_eq by (exact Hg3 || unfold REG_AT; lia). reflexivity. }
  clearbody h5. subst h5. apply runs_bind, runs_SW; [unfold REG_T8; lia | unfold CPU_LO; lia|]. intros n7. rewrite reg_set_eq by (exact Hg4 || unfold REG_T8; lia).
  set (h6 := set_field CPU_LO (fst q) (set_gpr REG_T8 (fst q) h4)).
  assert (E6 : forall x, 0 <= x -> x <> REG_T8 -> x <> REG_AT -> reg_of h6 x = reg_of h2 x).
  { intros x Hx X1 X2. change (reg_of (set_gpr REG_T8 (fst q) (set_gpr REG_AT (zero_quot unsigned a) h3)) x = reg_of h3 x). unfold REG_T8, REG_AT in *. rewrite !reg_set_ne by lia. reflexivity. }
  assert (Hg6 : gpr_ok h6) by (apply (gpr_set_ok REG_T8 (fst q) h4); [unfold REG_T8; lia | exact Hg4]).
  assert (F6 : forall off, field h6 off = if off =? CPU_LO then fst q else field h2 off).
  { intros off. unfold h6. destruct (Z.eqb_spec off CPU_LO) as [->|Ho]; [apply field_set_eq|]. rewrite field_set_ne by congruence. reflexivity. }
  pose proof (runs_hi_part rs s1 s2 a b (counted n7 m2) h6 Hg6 Hrs R1 R2 N2 N4 N3) as Hhi. apply runs_assoc.
  apply runs_bind. eapply runs_mono; [apply Hhi|].
  - rewrite E6 by (assumption || lia). exact V2.
  - intros E. destruct (P8 E) as (X1 & X2 & X3). rewrite F6, (proj2 (Z.eqb_neq _ _)) by (unfold CPU_REG, CPU_LO; lia).
    apply (field_value m2 h2 regs vhi vlo); [exact Hrep2 | lia | exact X3 | rewrite (same_slots_host _ _ rs (proj1 L)); exact X2].
  - intros E. rewrite E6 by (assumption || lia). exact V1.
  - intros _ m7 h7 ((n8 & ->) & Hg7 & T8 & O7 & M7). change (ehi h6) with (snd p) in T8. rewrite Eh in T8.
    apply runs_bind, runs_SW; [unfold REG_T8; lia | unfold CPU_HI; lia|]. intros n9. apply runs_modify. rewrite T8.
    assert (F7 : forall off, field (set_field CPU_HI (snd q) h7) off = if off =? CPU_HI then snd q else if off =? CPU_LO then fst q else field h2 off).
    { intros off. destruct (Z.eqb_spec off CPU_HI) as [->|Ho]; [apply field_set_eq|]. rewrite field_set_ne by congruence. rewrite <- F6. unfold field. rewrite M7. reflexivity. }
    enough (H : rep (reg_cache_invalidate (counted n9 m2)) (set_field CPU_HI (snd q) h7) regs (field (set_field CPU_HI (snd q) h7) CPU_HI) (field (set_field CPU_HI (snd q) h7) CPU_LO))
      by (rewrite !F7 in H; exact H).
    apply (rep_hilo m2 h2 regs vhi vlo); [exact Hrep2 | repeat split | exact Hg7 | | | reflexivity | reflexivity | rewrite !F7; split; assumption].
    + intros x Hx Hns. change (reg_of (set_field CPU_HI (snd q) h7) x) with (reg_of h7 x). rewrite O7 by assumption.
      apply E6; [exact Hx | |]; intros ->; apply Hns; unfold scratch; auto.
    + intros off X1 X2. rewrite F7, (proj2 (Z.eqb_neq _ _) X1), (proj2 (Z.eqb_neq _ _) X2). reflexivity.
Qed.

(** ** Sums that may overflow *)

Lemma sign_s32 x : is_u32 x -> (s32 x <? 0) = tst x SIGN.
Proof.
  intros Hx. rewrite tst_sign by exact Hx. unfold s32. rewrite (u32_small x Hx). unfold is_u32 in Hx.
  destruct (Z.ltb_spec x 2147483648), (Z.leb_spec 2147483648 x); try lia; first [apply Z.ltb_ge; lia | apply Z.ltb_lt; lia].
Qed.

Lemma tst_sign_land x y : tst (Z.land x y) SIGN = tst x SIGN && tst y SIGN.
Proof. unfold SIGN. change 0x80000000 with (2 ^ 31). rewrite !tst_pow2, Z.land_spec by lia. reflexivity. Qed.

Lemma tst_sign_not x : tst (not32 (Z.lor x 0)) SIGN = negb (tst x SIGN).
Proof. unfold SIGN, not32. change 0x80000000 with (2 ^ 31). rewrite !tst_pow2, u32_bits, Z.lnot_spec, Z.lor_0_r by lia. reflexivity. Qed.

Definition sum_of (sub : bool) (a b : Z) : Z := u32 (if sub then a - b else a + b).

(** Bit 31 of the word the emitted code computes is the overflow. *)
Lemma overflow_word (sub : bool) a b : is_u32 a -> is_u32 b -> fits32 (if sub then s32 a - s32 b else s32 a + s32 b) = true ->
  let x := Z.lxor a b in let y := if sub then x else not32 (Z.lor x 0) in
  (s32 (Z.land y (Z.lxor (sum_of sub a b) a)) <? 0) = false /\ is_u32 x.
Proof.
  intros Ha Hb Hf x y. assert (Hx : is_u32 x) by (apply lxor_u32; assumption).
  assert (Hs : is_u32 (Z.lxor (sum_of sub a b) a)) by (apply lxor_u32; [apply u32_range | exact Ha]).
  split; [|exact Hx]. rewrite sign_s32 by (apply land_u32_r, Hs). rewrite tst_sign_land. unfold y, sum_of, fits32 in *. destruct sub.
  - pose proof (sub_overflow_test a b Ha Hb) as H. fold x in H. rewrite H, Hf. reflexivity.
  - rewrite tst_sign_not. pose proof (add_overflow_test a b Ha Hb) as H. fold x in H. rewrite H, Hf. reflexivity.
Qed.

Lemma runs_save_old r m h (Q : unit -> Em -> Ee -> Prop) : wf m -> 0 < r < 32 ->
  (forall n h', gpr h' = gpr h -> (forall off, off <> CPU_REG r -> field h' off = field h off) -> Q tt (counted n m) h') -> runs (save_old r) m h Q.
Proof.
  intros Hw Hr H. unfold save_old. rewrite (proj2 (Z.eqb_neq r 0)) by lia. cbn [negb andb].
  assert (H0 : Q tt m h) by (specialize (H (code_len m) h eq_refl (fun _ _ => eq_refl)); destruct m; exact H).
  assert (Hsw : forall x, 0 <= x < 32 -> runs (EMIT_SW x (CPU_REG r) REG_S0) m h Q).
  { intros x Hx. apply runs_SW; [exact Hx | apply CPU_REG_range; lia|]. intros n. apply H; [reflexivity|]. intros off Ho. apply field_set_ne. congruence. }
  destruct (pinned r) eqn:Hp.
  - pose proof (pinned_range r Hp). apply Hsw. lia.
  - unfold dyn_flush_one_slot. apply runs_bind, runs_gets. destruct (has_slot m r) eqn:Hs; [|rewrite andb_false_r; apply runs_ret, H0].
    destruct (wf_slot m Hw r ltac:(lia) Hs) as (Hi & _).
    destruct (_ && _); [|apply runs_ret, H0]. cbn [ewhen]. apply Hsw. unfold dyn_slot_ee, REG_T0. lia.
Qed.

Lemma runs_nop m h (Q : unit -> Em -> Ee -> Prop) : (forall n, Q tt (counted n m) h) -> runs EMIT_NOP m h Q.
Proof. intros H. apply (runs_emit div0 0 m h h); [|exact H]. destruct h; reflexivity. Qed.

Lemma set_gpr_same i h : set_gpr i (reg_of h i) h = h.
Proof. destruct h as [g a b c e f k]. change (mkEe (put i (aget g i) g) a b c e f k = mkEe g a b c e f k). rewrite put_same. reflexivity. Qed.

(** The sequence from the operands to the stored sum. *)
Lemma runs_trapping (sub : bool) psx_pc r s1 s2 m0 h0 regs vhi vlo m h a b : rep m0 h0 regs vhi vlo -> 0 < r < 32 -> vconst (vreg m0 r) = false ->
  same_but_caches m0 m -> gpr h = gpr h0 -> (forall off, off <> CPU_REG r -> field h off = field h0 off) ->
  0 <= s1 < 32 -> 0 <= s2 < 32 -> s1 <> REG_AT -> s2 <> REG_AT -> reg_of h0 s1 = a -> reg_of h0 s2 = b -> is_u32 a -> is_u32 b ->
  fits32 (if sub then s32 a - s32 b else s32 a + s32 b) = true ->
  runs (trapping sub psx_pc r s1 s2) m h (fun _ m' h' => rep m' h' (put r (sum_of sub a b) regs) vhi vlo).
Proof.
  intros Hrep Hr Hvc Hsb Eg Ef R1 R2 N1 N2 V1 V2 Ha Hb Hfit. pose proof (rep_wf _ _ _ _ _ Hrep) as Hw. set (d := dst_of m0 r).
  destruct (overflow_word sub a b Ha Hb Hfit) as [Hsign _]. set (v := sum_of sub a b) in *. assert (Hv : is_u32 v) by apply u32_range.
  set (x := Z.lxor a b) in *. set (y := if sub then x else not32 (Z.lor x 0)) in *. set (sr := if d =? REG_T8 then REG_T9 else REG_T8).
  assert (Hd : 0 < d < 32 /\ d <> REG_AT /\ d <> REG_T9 /\ (host_of m0 r <> None -> d <> REG_T8)).
  { unfold d, dst_of. destruct (host_of m0 r) as [z|] eqn:E; [pose proof (host_range m0 r z Hw ltac:(lia) E)|]; unfold REG_AT, REG_T8, REG_T9; [lia|]. split; [lia | split; [lia | split; [lia | congruence] ] ]. }
  destruct Hd as (Hd1 & Hd2 & Hd3 & Hd4).
  assert (Hsr : scratch sr /\ sr <> d /\ sr <> REG_AT /\ 0 < sr < 32) by (unfold sr; destruct (Z.eqb_spec d REG_T8) as [->|E]; unfold scratch, REG_AT, REG_T8, REG_T9 in *; lia).
  destruct Hsr as (S1 & S2 & S3 & S4).
  assert (Hg : gpr_ok h) by (destruct (rep_gpr _ _ _ _ _ Hrep) as [A B]; split; [rewrite Eg; exact A | unfold reg_of in *; rewrite Eg; exact B]).
  assert (Er : forall z, reg_of h z = reg_of h0 z) by (intros z; unfold reg_of; rewrite Eg; reflexivity).
  unfold REG_AT in N1, N2, Hd2, S3.
  set (hA := set_gpr REG_AT x h). set (hB := hA <| stack_mem ::= <[76 := a]> |>). set (hC := set_gpr d v hB). set (hD := set_gpr sr a hC).
  set (hE := set_gpr REG_AT y hD). set (hF := set_gpr sr (Z.lxor v a) hE). set (hG := set_gpr REG_AT (Z.land y (Z.lxor v a)) hF).
  assert (GA : gpr_ok hA) by (apply gpr_set_ok; [unfold REG_AT; lia | exact Hg]). assert (GB : gpr_ok hB) by exact GA.
  assert (GC : gpr_ok hC) by (apply gpr_set_ok; [lia | exact GB]). assert (GD : gpr_ok hD) by (apply gpr_set_ok; [lia | exact GC]).
  assert (GE : gpr_ok hE) by (apply gpr_set_ok; [unfold REG_AT; lia | exact GD]). assert (GF : gpr_ok hF) by (apply gpr_set_ok; [lia | exact GE]).
  assert (GG : gpr_ok hG) by (apply gpr_set_ok; [unfold REG_AT; lia | exact GF]).
  assert (B1 : forall z, 0 <= z -> z <> 1 -> reg_of hB z = reg_of h0 z) by (intros z Hz0 Hz1; change (reg_of hA z = reg_of h0 z); rewrite <- Er; apply reg_set_ne; unfold REG_AT; lia).
  assert (BAT : reg_of hB REG_AT = x) by (apply (reg_set_eq REG_AT x h); [exact Hg | unfold REG_AT; lia]).
  assert (DAT : reg_of hD REG_AT = x) by (unfold hD, hC; rewrite !reg_set_ne by (unfold REG_AT; lia); exact BAT).
  unfold trapping.
  apply runs_bind, (runs_emit div0 _ _ _ hA); [rewrite step_special by (unfold REG_AT; lia); cbn [ee_special]; rewrite !Er, V1, V2; reflexivity|]. intros n1.
  apply runs_bind. eexists tt, _, _. rewrite exec_SW_stack by lia. split; [reflexivity|]. replace (reg_of hA s1) with a by (change (reg_of hA s1) with (reg_of hB s1); rewrite B1 by lia; congruence). fold hB.
  apply runs_bind, runs_gets. rewrite dst_of_eq by lia. change (dst_of _ r) with (dst_of m r).
  replace (dst_of m r) with d by (unfold d, dst_of; rewrite (same_slots_host m0 m r (proj1 Hsb)); reflexivity). fold sr.
  apply runs_bind, (runs_emit div0 _ _ _ hC).
  { unfold hC, v, sum_of. rewrite <- V1, <- V2, <- (B1 s1), <- (B1 s2) by lia. destruct sub; rewrite step_special by lia; reflexivity. }
  intros n2. apply runs_bind. eexists tt, _, _. rewrite exec_LW_stack by lia. split; [reflexivity|].
  replace (default 0 (stack_mem hC !! 76)) with a by (change (stack_mem hC) with (<[76 := a]> (stack_mem hA)); rewrite lookup_insert_eq; reflexivity). fold hD.
  apply runs_bind. assert (HE : forall Q mx, (forall n h', gpr_ok h' -> h' = hE -> Q tt (counted n mx) h') -> runs (if sub then EMIT_NOP else emit (MK_R 0 REG_AT REG_ZERO REG_AT 0 0x27)) mx hD Q).
  { intros Q mx HQ. unfold y in hE. destruct sub.
    - apply runs_nop. intros n3. apply HQ; [exact GD|]. unfold hE. rewrite <- DAT. symmetry. apply set_gpr_same.
    - apply (runs_emit div0 _ _ _ hE); [|intros n3; apply HQ; [exact GE | reflexivity] ]. rewrite step_special by (unfold REG_AT, REG_ZERO; lia). cbn [ee_special].
      unfold REG_ZERO. rewrite DAT, (proj2 GD). reflexivity. }
  apply HE. intros n3 h' _ ->.
  assert (DE : reg_of hE d = v) by (unfold hE, hD; rewrite !reg_set_ne by (unfold REG_AT; lia); apply reg_set_eq; [exact GB | lia]).
  assert (SE : reg_of hE sr = a) by (unfold hE; rewrite reg_set_ne by (unfold REG_AT; lia); apply reg_set_eq; [exact GC | lia]).
  assert (AF : reg_of hF REG_AT = y) by (unfold hF; rewrite reg_set_ne by (unfold REG_AT; lia); apply reg_set_eq; [exact GD | unfold REG_AT; lia]).
  assert (SF : reg_of hF sr = Z.lxor v a) by (apply reg_set_eq; [exact GE | lia]).
  apply runs_bind, (runs_emit div0 _ _ _ hF); [rewrite step_special by lia; cbn [ee_special]; rewrite DE, SE; reflexivity|]. intros n4.
  apply runs_bind, (runs_emit div0 _ _ _ hG); [rewrite step_special by (unfold REG_AT; lia); cbn [ee_special]; rewrite AF, SF; reflexivity|]. intros n5.
  assert (AG : reg_of hG REG_AT = Z.land y (Z.lxor v a)) by (apply reg_set_eq; [exact GF | unfold REG_AT; lia]).
  apply runs_bind. unfold overflow_branch. apply runs_bind, runs_gets, runs_bind, (runs_emit div0 _ _ _ hG).
  { rewrite step_imm by (unfold REG_AT; lia). cbn [ee_imm]. rewrite AG, Hsign. reflexivity. }
  intros n6. apply runs_bind, runs_nop. intros n7. apply runs_modify, runs_bind, runs_modify.
  assert (Hreads : forall z, 0 <= z -> z <> 1 -> z <> sr -> z <> d -> reg_of hG z = reg_of h0 z).
  { intros z Hz Z1 Z2 Z3. unfold hG, hF, hE, hD, hC. rewrite !reg_set_ne by (unfold REG_AT; lia). apply B1; assumption. }
  unfold d. eapply runs_mono; [apply (runs_sync m0 h0 regs vhi vlo r v)|]; auto.
  - fold d. unfold hG, hF. rewrite !reg_set_ne by (unfold REG_AT; lia). exact DE.
  - intros z Hz Hns Hnh. apply Hreads; [exact Hz | | |].
    + intros ->. apply Hns. unfold scratch. auto.
    + intros ->. apply Hns, S1.
    + intros ->. unfold d, dst_of in Hns, Hnh. destruct (host_of m0 r) as [w|]; [congruence | apply Hns; unfold scratch; auto].
  - intros k Hk E. change (-1 = k) in E. lia.
  - intros k Hk E. change (-1 = k) in E. lia.
Qed.

Variables call_c_trampoline_addr abort_trampoline_addr Helper_Overflow_Exception : Z.

Lemma not_cached_of m r : cached m r = false -> t8_cached_psx_reg m <> r /\ t9_cached_psx_reg m <> r.
Proof. intros H. apply orb_false_elim in H as [A B]. apply Z.eqb_neq in A, B. auto. Qed.

Lemma runs_ADD_SUB (sub : bool) psx_pc rs rt rd m h regs vhi vlo : rep m h regs vhi vlo -> 0 <= rs < 32 -> 0 <= rt < 32 -> 0 < rd < 32 ->
  let a := aget regs rs in let b := aget regs rt in
  is_vreg_const m rs && is_vreg_const m rt = false \/ cached m rd = false -> fits32 (if sub then s32 a - s32 b else s32 a + s32 b) = true ->
  runs (emit_ADD_SUB call_c_trampoline_addr abort_trampoline_addr Helper_Overflow_Exception sub psx_pc rs rt rd) m h
    (fun _ m' h' => rep m' h' (put rd (sum_of sub a b) regs) vhi vlo).
Proof.
  intros Hrep Hrs Hrt Hrd a b Hok Hfit. assert (Ha : is_u32 a) by apply (rep_words _ _ _ _ _ Hrep). assert (Hb : is_u32 b) by apply (rep_words _ _ _ _ _ Hrep).
  unfold emit_ADD_SUB. apply runs_bind, runs_gets. destruct (is_vreg_const m rs && is_vreg_const m rt) eqn:Hc.
  - destruct Hok as [Hok|Hok]; [discriminate|]. apply andb_prop in Hc as [C1 C2]. destruct (not_cached_of m rd Hok).
    rewrite (const_value m h regs vhi vlo rs Hrep Hrs C1), (const_value m h regs vhi vlo rt Hrep Hrt C2). fold a b.
    replace (if sub then sub_overflows a b else add_overflows a b) with false.
    + apply runs_const_lazy; auto. apply u32_range.
    + unfold fits32 in Hfit. destruct sub; [pose proof (sub_overflow_test a b Ha Hb) as H1 | pose proof (add_overflow_test a b Ha Hb) as H1]; rewrite Hfit in H1; symmetry; exact H1.
  - apply runs_bind. eapply runs_mono; [apply (runs_mark_var div0 rd m h regs vhi vlo Hrep); lia|]. intros _ m1 h1 (Hrep1 & _ & Hvc1).
    apply runs_bind, runs_drop_base. intros m2 Hc2. apply (rep_core _ _ _ _ _ _ Hc2) in Hrep1.
    apply (runs_operands rs rt m2 h1 regs vhi vlo); [exact Hrep1 | exact Hrs | exact Hrt|].
    intros s1 s2 m3 h3 Hrep3 L R1 R2 V1 V2 _ _ _ N1 N2.
    apply runs_bind, runs_save_old; [apply (rep_wf _ _ _ _ _ Hrep3) | exact Hrd|]. intros n h4 Eg Ef.
    apply (runs_trapping sub psx_pc rd s1 s2 m3 h3 regs vhi vlo (counted n m3) h4 a b); auto; [|repeat split].
    apply L; [lia|]. apply (later_core m1 m2 Hc2); [lia | exact Hvc1].
Qed.

Lemma facts_core (c1 c2 : bool) r m : same_core m (let m' := if c1 then smrv_set_ram r m else m in if c2 then align_set r m' else m').
Proof. unfold smrv_set_ram, align_set. destruct c1, c2; [destruct (r =? 0) | destruct (r =? 0) | destruct (r =? 0) |]; repeat split. Qed.

Lemma runs_ADDI psx_pc rs rt imm m h regs vhi vlo : rep m h regs vhi vlo -> 0 <= rs < 32 -> 0 < rt < 32 -> -32768 <= imm < 32768 ->
  let a := aget regs rs in
  is_vreg_const m rs = false \/ cached m rt = false -> fits32 (s32 a + imm) = true ->
  runs (emit_ADDI call_c_trampoline_addr abort_trampoline_addr Helper_Overflow_Exception psx_pc rs rt imm) m h
    (fun _ m' h' => rep m' h' (put rt (u32 (a + imm)) regs) vhi vlo).
Proof.
  intros Hrep Hrs Hrt Himm a Hok Hfit. assert (Ha : is_u32 a) by apply (rep_words _ _ _ _ _ Hrep).
  assert (Hi : is_u32 (u32 imm)) by apply u32_range. assert (Es : s32 (u32 imm) = imm) by (apply s32_u32; lia).
  assert (Ev : u32 (a + imm) = sum_of false a (u32 imm)) by (unfold sum_of, u32; rewrite Z.add_mod_idemp_r by lia; reflexivity).
  unfold emit_ADDI. apply runs_bind, runs_gets. destruct (is_vreg_const m rs) eqn:Hc.
  - destruct Hok as [Hok|Hok]; [discriminate|]. destruct (not_cached_of m rt Hok).
    rewrite (const_value m h regs vhi vlo rs Hrep Hrs Hc). fold a. replace (add_overflows a (u32 imm)) with false.
    + apply runs_const_lazy; auto. apply u32_range.
    + pose proof (add_overflow_test a (u32 imm) Ha Hi) as H1. rewrite Es in H1. unfold fits32 in Hfit. rewrite Hfit in H1. symmetry. exact H1.
  - apply runs_bind. eapply runs_mono; [apply (runs_mark_var div0 rt m h regs vhi vlo Hrep); lia|]. intros _ m1 h1 (Hrep1 & _ & Hvc1).
    apply runs_bind, runs_drop_base. intros m2 Hc2. apply (rep_core _ _ _ _ _ _ Hc2) in Hrep1.
    apply runs_bind. eapply runs_mono; [apply (runs_use div0 rs REG_T8 m2 h1 regs vhi vlo Hrep1 Hrs); auto|]. intros s1 m3 h3 F.
    pose proof (f_rep _ _ _ _ _ _ _ _ _ _ F) as Hrep3. pose proof (rep_wf _ _ _ _ _ Hrep1) as Hw2.
    pose proof (fetched_range _ _ _ _ _ _ _ _ _ _ Hw2 F Hrs ltac:(auto)) as R1. pose proof (f_place _ _ _ _ _ _ _ _ _ _ F) as P1.
    assert (N1 : s1 <> REG_AT /\ s1 <> REG_T9).
    { destruct (rs =? 0); [rewrite P1; unfold REG_AT, REG_T9; lia|]. destruct P1 as [_ [P|[_ ->] ] ]; [|unfold REG_AT, REG_T8, REG_T9; lia].
      pose proof (host_range m2 rs s1 Hw2 Hrs P). unfold REG_AT, REG_T9. lia. }
    apply runs_bind, runs_save_old; [apply (rep_wf _ _ _ _ _ Hrep3) | exact Hrt|]. intros n h4 Eg Ef.
    pose proof (rep_gpr _ _ _ _ _ Hrep3) as Hg3. assert (Hg4 : gpr_ok h4) by (destruct Hg3 as [A B]; split; [rewrite Eg; exact A | unfold reg_of in *; rewrite Eg; exact B]).
    apply runs_bind, runs_load_imm32; [unfold REG_T9; lia | exact Hi | exact Hg4|]. intros n'. apply runs_bind. rewrite Ev.
    eapply runs_mono; [apply (runs_trapping false psx_pc rt s1 REG_T9 (scratch_invalidate_hwreg REG_T9 (counted n' m3)) (set_gpr REG_T9 (u32 imm) h3) regs vhi vlo _ _ a (u32 imm))|].
    + apply rep_clobber; auto.
    + exact Hrt.
    + destruct (f_later _ _ _ _ _ _ _ _ _ _ F) as (_ & Hvar & _). apply Hvar; [lia|]. apply (later_core m1 m2 Hc2); [lia | exact Hvc1].
    + repeat split.
    + change (put REG_T9 (u32 imm) (gpr h4) = put REG_T9 (u32 imm) (gpr h3)). rewrite Eg. reflexivity.
    + intros off Ho. rewrite !field_set_gpr. apply Ef, Ho.
    + exact R1.
    + unfold REG_T9. lia.
    + apply N1.
    + discriminate.
    + rewrite reg_set_ne by (unfold REG_T9 in *; lia). apply (f_value _ _ _ _ _ _ _ _ _ _ F).
    + apply reg_set_eq; [exact Hg3 | unfold REG_T9; lia].
    + exact Ha.
    + exact Hi.
    + cbn beta iota. rewrite Es. exact Hfit.
    + intros [] m' h' H. apply runs_modify. refine (rep_core _ _ _ _ _ _ _ H). apply facts_core.
Qed.

(** ** One instruction *)

Lemma rep_put m h regs regs' vhi vhi' vlo vlo' : rep m h regs vhi vlo -> regs' = regs -> vhi' = vhi -> vlo' = vlo -> rep m h regs' vhi' vlo'.
Proof. intros H -> -> ->. exact H. Qed.

Lemma exec_write o r r' rd v : r_load r = None -> r_effect o r = Some (EWrite rd v) -> r_exec o r = Some r' ->
  r_regs r' = put rd v (r_regs r) /\ r_hi r' = r_hi r /\ r_lo r' = r_lo r /\ r_load r' = None.
Proof. intros Hl He. unfold r_exec, r_apply. rewrite He. cbn [andb]. intros E. injection E as <-. cbn. rewrite Hl. auto. Qed.

Lemma exec_hilo o r r' vh vl : r_load r = None -> r_effect o r = Some (EHiLo vh vl) -> r_exec o r = Some r' ->
  r_regs r' = r_regs r /\ r_hi r' = vh /\ r_lo r' = vl /\ r_load r' = None.
Proof. intros Hl He. unfold r_exec, r_apply. rewrite He. cbn [andb]. intros E. injection E as <-. cbn. rewrite Hl. auto. Qed.

Lemma five_bits x : 0 <= Z.land x 31 < 32.
Proof. pose proof (land_bound_r x 31). lia. Qed.

Lemma exec_none o r r' : r_effect o r = None -> r_exec o r = Some r' -> False.
Proof. unfold r_exec. intros ->. discriminate. Qed.

Lemma s16_IMM_SE o : s16 (u16 (IMM_SE o)) = IMM_SE o.
Proof.
  rewrite s16_u16. unfold IMM_SE. set (y := s16 (IMM o)). assert (H : -32768 <= y < 32768).
  { unfold y, s16, u16. destruct (Z.ltb_spec (IMM o mod 65536) 32768); Z.to_euclidean_division_equations; lia. }
  unfold s16, u16. destruct (Z.ltb_spec (y mod 65536) 32768); Z.to_euclidean_division_equations; lia.
Qed.

Lemma u16_IMM o : u16 (IMM o) = IMM o.
Proof. unfold IMM. change 0xFFFF with (Z.ones 16). rewrite Z.land_ones by lia. unfold u16. rewrite Z.mod_mod by lia. reflexivity. Qed.

Lemma IMM_range o : 0 <= IMM o < 65536.
Proof. unfold IMM. change 0xFFFF with (Z.ones 16). rewrite Z.land_ones by lia. apply Z.mod_pos_bound. lia. Qed.

Lemma b2z_u32 b : is_u32 (b2z b).
Proof. destruct b; unfold is_u32; cbn; lia. Qed.

(** Which register an arithmetic instruction computes, and whether its value
    is already known when it is translated. *)
Definition computes (o : Z) : bool := negb (OP o =? 0) || negb (existsb (Z.eqb (FUNCT o)) [0x10; 0x11; 0x12; 0x13; 0x18; 0x19; 0x1A; 0x1B]).
Definition result_reg (o : Z) : Z := if OP o =? 0 then RD o else RT o.
Definition folded (m : Em) (o : Z) : bool :=
  if OP o =? 0 then
    match FUNCT o with
    | 0x00 | 0x02 | 0x03 => is_vreg_const m (RT o)
    | 0x04 | 0x06 | 0x07 => false
    | _ => is_vreg_const m (RS o) && is_vreg_const m (RT o)
    end
  else if OP o =? 0x0F then true else is_vreg_const m (RS o).

(** JR and JALR belong to the block compiler. *)
Definition register_jump (o : Z) : bool := (OP o =? 0) && ((FUNCT o =? 0x08) || (FUNCT o =? 0x09)).

(** The instructions the emitter gets right: not a result for $zero, and not a
    constant for a register T8 or T9 still has. *)
Definition insn_ok (m : Em) (o : Z) : bool :=
  negb (register_jump o) && ((o =? 0) || negb (computes o) || (negb (result_reg o =? 0) && negb (folded m o && cached m (result_reg o)))).

Lemma insn_ok_spec m o : insn_ok m o = true -> o <> 0 -> computes o = true -> result_reg o <> 0 /\ (folded m o = false \/ cached m (result_reg o) = false).
Proof.
  unfold insn_ok. intros H Ho Hc. apply andb_prop in H as [_ H]. rewrite (proj2 (Z.eqb_neq o 0) Ho), Hc in H. cbn [negb orb] in H. apply andb_prop in H as [H1 H2].
  apply negb_true_iff, Z.eqb_neq in H1. apply negb_true_iff, andb_false_iff in H2. auto.
Qed.

Definition correct (o : Z) (e : E unit) (m : Em) (h : Ee) (r r' : R3000A) : Prop :=
  runs e m h (fun _ m' h' => rep m' h' (r_regs r') (r_hi r') (r_lo r')) /\ r_load r' = None.

Lemma correct_write o e m h r r' rd v : r_load r = None -> r_effect o r = Some (EWrite rd v) -> r_exec o r = Some r' ->
  runs e m h (fun _ m' h' => rep m' h' (put rd v (r_regs r)) (r_hi r) (r_lo r)) -> correct o e m h r r'.
Proof. intros Hl He Hx H. destruct (exec_write o r r' rd v Hl He Hx) as (E1 & E2 & E3 & E4). unfold correct. rewrite E1, E2, E3. auto. Qed.

Lemma correct_hilo o e m h r r' vh vl : r_load r = None -> r_effect o r = Some (EHiLo vh vl) -> r_exec o r = Some r' ->
  runs e m h (fun _ m' h' => rep m' h' (r_regs r) vh vl) -> correct o e m h r r'.
Proof. intros Hl He Hx H. destruct (exec_hilo o r r' vh vl Hl He Hx) as (E1 & E2 & E3 & E4). unfold correct. rewrite E1, E2, E3. auto. Qed.

Section Insn.
Variables (o psx_pc : Z) (m : Em) (h : Ee) (r r' : R3000A).
Hypotheses (Hrep : rep m h (r_regs r) (r_hi r) (r_lo r)) (Hload : r_load r = None) (Hexec : r_exec o r = Some r').

Lemma rs_range : 0 <= RS o < 32. Proof. apply five_bits. Qed.
Lemma rt_range : 0 <= RT o < 32. Proof. apply five_bits. Qed.
Lemma rd_range : 0 <= RD o < 32. Proof. apply five_bits. Qed.
Lemma sa_range : 0 <= SHAMT o < 32. Proof. apply five_bits. Qed.
Lemma reg_u32 i : is_u32 (aget (r_regs r) i). Proof. apply (rep_words _ _ _ _ _ Hrep). Qed.

(** Shift by a constant. *)
Lemma shift_correct f fn : OP o = 0 -> FUNCT o = fn -> RD o <> 0 -> is_vreg_const m (RT o) = false \/ cached m (RD o) = false ->
  0 <= fn < 64 -> (forall s d hx, ee_special div0 fn 0 s d (SHAMT o) hx = Some (set_gpr d (f (reg_of hx s)) hx)) ->
  (forall v, is_u32 v -> is_u32 (f v)) -> r_effect o r = Some (EWrite (RD o) (f (aget (r_regs r) (RT o)))) ->
  correct o (unary (RT o) (RD o) f (fun s d => MK_R 0 0 s d (SHAMT o) fn) no_facts) m h r r'.
Proof.
  intros HO HF Hd Hok Hfn Hs Hu He. pose proof rd_range. apply (correct_write _ _ _ _ _ _ _ _ Hload He Hexec).
  apply runs_unary; [exact Hrep | apply rt_range | lia | exact Hok | apply Hu, reg_u32 | | intros m0 m'; apply same_core_refl].
  intros s d hx Rs Rd. rewrite step_special by (lia || apply sa_range). apply Hs.
Qed.

(** Operation with an immediate. *)
Lemma imm_correct f op i facts : OP o = op -> RT o <> 0 -> is_vreg_const m (RS o) = false \/ cached m (RT o) = false ->
  0 < op -> op <> 0x1C -> (forall s d hx, ee_imm op s d (u16 i) hx = Some (set_gpr d (f (reg_of hx s)) hx)) ->
  is_u32 (f (aget (r_regs r) (RS o))) -> (forall m0 m', same_core m' (facts m0 m')) -> r_effect o r = Some (EWrite (RT o) (f (aget (r_regs r) (RS o)))) ->
  correct o (unary (RS o) (RT o) f (fun s d => MK_I op s d i) facts) m h r r'.
Proof.
  intros HO Hd Hok H1 H2 Hs Hu Hf He. pose proof rt_range. apply (correct_write _ _ _ _ _ _ _ _ Hload He Hexec).
  apply runs_unary; [exact Hrep | apply rs_range | lia | exact Hok | exact Hu | | exact Hf].
  intros s d hx Rs Rd. rewrite step_imm by lia. apply Hs.
Qed.

(** Operation on two registers. *)
Lemma op2_correct f fn facts : OP o = 0 -> FUNCT o = fn -> RD o <> 0 -> is_vreg_const m (RS o) && is_vreg_const m (RT o) = false \/ cached m (RD o) = false ->
  0 <= fn < 64 -> (forall s1 s2 d hx, ee_special div0 fn s1 s2 d 0 hx = Some (set_gpr d (f (reg_of hx s1) (reg_of hx s2)) hx)) ->
  (forall v w, is_u32 v -> is_u32 w -> is_u32 (f v w)) -> (forall m0 m', same_core m' (facts m0 m')) ->
  r_effect o r = Some (EWrite (RD o) (f (aget (r_regs r) (RS o)) (aget (r_regs r) (RT o)))) ->
  correct o (binary (RS o) (RT o) (RD o) (Some f) (RS o) (RT o) (fun s1 s2 d => MK_R 0 s1 s2 d 0 fn) facts) m h r r'.
Proof.
  intros HO HF Hd Hok Hfn Hs Hu Hf He. pose proof rd_range. apply (correct_write _ _ _ _ _ _ _ _ Hload He Hexec).
  apply (runs_binary (RS o) (RT o) (RD o) (Some f) (RS o) (RT o) f); [exact Hrep | apply rs_range | apply rt_range | apply rs_range | apply rt_range | lia | | apply Hu; apply reg_u32 | | exact Hf].
  - intros f0 E. injection E as <-. auto.
  - intros s1 s2 d hx R1 R2 Rd. rewrite step_special by lia. apply Hs.
Qed.

(** Shift by a register. *)
Lemma shiftv_correct f fn : OP o = 0 -> FUNCT o = fn -> RD o <> 0 ->
  0 <= fn < 64 -> (forall s1 s2 d hx, ee_special div0 fn s2 s1 d 0 hx = Some (set_gpr d (f (reg_of hx s1) (reg_of hx s2)) hx)) ->
  (forall v w, is_u32 v -> is_u32 (f v w)) ->
  r_effect o r = Some (EWrite (RD o) (f (aget (r_regs r) (RT o)) (aget (r_regs r) (RS o)))) ->
  correct o (binary (RS o) (RT o) (RD o) None (RT o) (RS o) (fun s1 s2 d => MK_R 0 s2 s1 d 0 fn) no_facts) m h r r'.
Proof.
  intros HO HF Hd Hfn Hs Hu He. pose proof rd_range. apply (correct_write _ _ _ _ _ _ _ _ Hload He Hexec).
  apply (runs_binary (RS o) (RT o) (RD o) None (RT o) (RS o) f); [exact Hrep | apply rt_range | apply rs_range | apply rs_range | apply rt_range | lia | | apply Hu; apply reg_u32 | | intros m0 m'; apply same_core_refl].
  - discriminate.
  - intros s1 s2 d hx R1 R2 Rd. rewrite step_special by lia. apply Hs.
Qed.

Lemma facts_ADDU_core rs rt rd m0 m' : same_core m' (facts_ADDU rs rt rd m0 m').
Proof. apply facts_core. Qed.
Lemma facts_SUBU_core rs rt rd m0 m' : same_core m' (facts_SUBU rs rt rd m0 m').
Proof. apply facts_core. Qed.
Lemma facts_OR_core rs rt rd m0 m' : same_core m' (facts_OR rs rt rd m0 m').
Proof. exact (facts_core _ false rd m'). Qed.
Lemma facts_IMM_core rs rt imm m0 m' : same_core m' (facts_IMM rs rt imm m0 m').
Proof. apply facts_core. Qed.

Ltac effect_at := unfold r_effect, instruction_effect, special_effect; repeat match goal with H : OP o = _ |- _ => rewrite H | H : FUNCT o = _ |- _ => rewrite H end; reflexivity.
Ltac ok_at HO HF Hok :=
  let Hd := fresh "Hd" in let Hf := fresh "Hf" in
  destruct (insn_ok_spec m o Hok ltac:(assumption) ltac:(unfold computes; rewrite HO; try rewrite HF; reflexivity)) as [Hd Hf];
  unfold result_reg, folded in Hd, Hf; rewrite HO in Hd, Hf; try rewrite HF in Hf; cbn [Z.eqb Pos.eqb] in Hd, Hf.

Lemma shifts_correct e : OP o = 0 -> o <> 0 -> insn_ok m o = true ->
  In (FUNCT o) [0x00; 0x02; 0x03; 0x04; 0x06; 0x07] ->
  emit_special call_c_trampoline_addr abort_trampoline_addr Helper_Overflow_Exception o psx_pc = Some e -> correct o e m h r r'.
Proof.
  intros HO Hne Hok Hin He. unfold emit_special in He. cbn [In] in Hin.
  destruct Hin as [HF|[HF|[HF|[HF|[HF|[HF|[] ] ] ] ] ] ]; symmetry in HF; rewrite HF in He; injection He as <-; ok_at HO HF Hok.
  - apply (shift_correct (fun v => u32 (Z.shiftl v (SHAMT o)))); auto; [lia | intros; apply u32_range | effect_at].
  - apply (shift_correct (fun v => Z.shiftr v (SHAMT o))); auto; [lia | intros; apply shiftr_u32; [pose proof sa_range; lia | assumption] | effect_at].
  - apply (shift_correct (fun v => u32 (Z.shiftr (s32 v) (SHAMT o)))); auto; [lia | intros; apply u32_range | effect_at].
  - apply (shiftv_correct (fun v w => u32 (Z.shiftl v (Z.land w 31)))); auto; [lia | intros; apply u32_range | effect_at].
  - apply (shiftv_correct (fun v w => Z.shiftr v (Z.land w 31))); auto; [lia | intros v w; apply shiftr_u32; apply five_bits | effect_at].
  - apply (shiftv_correct (fun v w => u32 (Z.shiftr (s32 v) (Z.land w 31)))); auto; [lia | intros; apply u32_range | effect_at].
Qed.

Lemma hilo_correct e : OP o = 0 -> In (FUNCT o) [0x10; 0x11; 0x12; 0x13; 0x18; 0x19; 0x1A; 0x1B] ->
  emit_special call_c_trampoline_addr abort_trampoline_addr Helper_Overflow_Exception o psx_pc = Some e -> correct o e m h r r'.
Proof.
  intros HO Hin He. unfold emit_special in He. cbn [In] in Hin. pose proof rs_range as Rs. pose proof rt_range as Rt. pose proof rd_range as Rd.
  destruct Hin as [HF|[HF|[HF|[HF|[HF|[HF|[HF|[HF|[] ] ] ] ] ] ] ] ]; symmetry in HF; rewrite HF in He; injection He as <-.
  - apply (correct_write _ _ _ _ _ _ (RD o) (r_hi r) Hload ltac:(effect_at) Hexec). apply (runs_move_from_hilo true (RD o) m h); assumption.
  - apply (correct_hilo _ _ _ _ _ _ (aget (r_regs r) (RS o)) (r_lo r) Hload ltac:(effect_at) Hexec). apply (runs_move_to_hilo true (RS o) m h _ _ _ Hrep Rs).
  - apply (correct_write _ _ _ _ _ _ (RD o) (r_lo r) Hload ltac:(effect_at) Hexec). apply (runs_move_from_hilo false (RD o) m h); assumption.
  - apply (correct_hilo _ _ _ _ _ _ (r_hi r) (aget (r_regs r) (RS o)) Hload ltac:(effect_at) Hexec). apply (runs_move_to_hilo false (RS o) m h _ _ _ Hrep Rs).
  - eapply (correct_hilo _ _ _ _ _ _ _ _ Hload ltac:(effect_at) Hexec). apply (runs_mult false (RS o) (RT o) m h _ _ _ Hrep Rs Rt).
  - eapply (correct_hilo _ _ _ _ _ _ _ _ Hload ltac:(effect_at) Hexec). apply (runs_mult true (RS o) (RT o) m h _ _ _ Hrep Rs Rt).
  - eapply (correct_hilo _ _ _ _ _ _ _ _ Hload ltac:(effect_at) Hexec). apply (runs_div false (RS o) (RT o) m h _ _ _ Hrep Rs Rt).
  - eapply (correct_hilo _ _ _ _ _ _ _ _ Hload ltac:(effect_at) Hexec). apply (runs_div true (RS o) (RT o) m h _ _ _ Hrep Rs Rt).
Qed.

Lemma trap_correct (sub : bool) e : OP o = 0 -> o <> 0 -> insn_ok m o = true -> FUNCT o = (if sub then 0x22 else 0x20) ->
  emit_special call_c_trampoline_addr abort_trampoline_addr Helper_Overflow_Exception o psx_pc = Some e -> correct o e m h r r'.
Proof.
  intros HO Hne Hok HF He. unfold emit_special in He. set (a := aget (r_regs r) (RS o)). set (b := aget (r_regs r) (RT o)).
  assert (Hd : RD o <> 0 /\ (is_vreg_const m (RS o) && is_vreg_const m (RT o) = false \/ cached m (RD o) = false)) by (destruct sub; ok_at HO HF Hok; auto).
  destruct Hd as [Hd Hf]. pose proof rd_range.
  assert (Heff : r_effect o r = sum_or_trap (RD o) (if sub then s32 a - s32 b else s32 a + s32 b)).
  { unfold r_effect, instruction_effect, special_effect. rewrite HO, HF. destruct sub; reflexivity. }
  unfold sum_or_trap in Heff. destruct (fits32 _) eqn:Hfit; [|destruct (exec_none o r r' Heff Hexec)].
  assert (Ev : u32 (if sub then s32 a - s32 b else s32 a + s32 b) = sum_of sub a b).
  { destruct (u32_add_s32 a b (reg_u32 _) (reg_u32 _)). unfold sum_of. destruct sub; assumption. }
  rewrite Ev in Heff. apply (correct_write _ _ _ _ _ _ _ _ Hload Heff Hexec).
  destruct sub; rewrite HF in He; injection He as <-; apply runs_ADD_SUB; auto; try apply five_bits; lia.
Qed.

Lemma op2s_correct e : OP o = 0 -> o <> 0 -> insn_ok m o = true -> In (FUNCT o) [0x21; 0x23; 0x24; 0x25; 0x26; 0x27; 0x2A; 0x2B] ->
  emit_special call_c_trampoline_addr abort_trampoline_addr Helper_Overflow_Exception o psx_pc = Some e -> correct o e m h r r'.
Proof.
  intros HO Hne Hok Hin He. unfold emit_special in He. cbn [In] in Hin.
  destruct Hin as [HF|[HF|[HF|[HF|[HF|[HF|[HF|[HF|[] ] ] ] ] ] ] ] ]; symmetry in HF; rewrite HF in He; injection He as <-; ok_at HO HF Hok.
  - apply op2_correct; auto; [lia | intros; apply u32_range | apply facts_ADDU_core | effect_at].
  - apply op2_correct; auto; [lia | intros; apply u32_range | apply facts_SUBU_core | effect_at].
  - apply op2_correct; auto with word; [lia | intros; apply same_core_refl | effect_at].
  - apply op2_correct; auto with word; [lia | apply facts_OR_core | effect_at].
  - apply op2_correct; auto with word; [lia | intros; apply same_core_refl | effect_at].
  - apply (op2_correct (fun v w => not32 (Z.lor v w))); auto; [lia | intros; apply u32_range | intros; apply same_core_refl | effect_at].
  - apply (op2_correct (fun v w => b2z (s32 v <? s32 w))); auto; [lia | intros; apply b2z_u32 | intros; apply same_core_refl | effect_at].
  - apply (op2_correct (fun v w => b2z (v <? w))); auto; [lia | intros; apply b2z_u32 | intros; apply same_core_refl | effect_at].
Qed.

Lemma imm_se_u32 : is_u32 (u32 (IMM_SE o)).
Proof. apply u32_range. Qed.

Lemma imms_correct e : o <> 0 -> insn_ok m o = true -> In (OP o) [0x09; 0x0A; 0x0B; 0x0C; 0x0D; 0x0E] ->
  emit_alu call_c_trampoline_addr abort_trampoline_addr Helper_Overflow_Exception o psx_pc = Some e -> correct o e m h r r'.
Proof.
  intros Hne Hok Hin He. unfold emit_alu in He. rewrite (proj2 (Z.eqb_neq o 0) Hne) in He. cbn [In] in Hin.
  pose proof (IMM_range o) as Hi. assert (Hu : is_u32 (IMM o)) by (unfold is_u32; lia).
  destruct Hin as [HO|[HO|[HO|[HO|[HO|[HO|[] ] ] ] ] ] ]; symmetry in HO; rewrite HO in He; injection He as <-; ok_at HO HO Hok.
  - apply (imm_correct (fun v => u32 (v + IMM_SE o))); auto; [lia | intros; cbn [ee_imm]; rewrite s16_IMM_SE; reflexivity | apply u32_range | apply facts_IMM_core | effect_at].
  - apply (imm_correct (fun v => b2z (s32 v <? IMM_SE o))); auto; [lia | intros; cbn [ee_imm]; rewrite s16_IMM_SE; reflexivity | apply b2z_u32 | intros; apply same_core_refl | effect_at].
  - apply (imm_correct (fun v => b2z (v <? u32 (IMM_SE o)))); auto; [lia | intros; cbn [ee_imm]; rewrite s16_IMM_SE; reflexivity | apply b2z_u32 | intros; apply same_core_refl | effect_at].
  - apply (imm_correct (fun v => Z.land v (IMM o))); auto; [lia | intros; cbn [ee_imm]; rewrite u16_IMM; reflexivity | apply land_u32_r, Hu | intros; apply same_core_refl | effect_at].
  - apply (imm_correct (fun v => Z.lor v (IMM o))); auto; [lia | intros; cbn [ee_imm]; rewrite u16_IMM; reflexivity | apply lor_u32; [apply reg_u32 | exact Hu] | apply facts_IMM_core | effect_at].
  - apply (imm_correct (fun v => Z.lxor v (IMM o))); auto; [lia | intros; cbn [ee_imm]; rewrite u16_IMM; reflexivity | apply lxor_u32; [apply reg_u32 | exact Hu] | intros; apply same_core_refl | effect_at].
Qed.

Lemma lui_correct e : o <> 0 -> insn_ok m o = true -> OP o = 0x0F ->
  emit_alu call_c_trampoline_addr abort_trampoline_addr Helper_Overflow_Exception o psx_pc = Some e -> correct o e m h r r'.
Proof.
  intros Hne Hok HO He. unfold emit_alu in He. rewrite (proj2 (Z.eqb_neq o 0) Hne), HO in He. injection He as <-. ok_at HO HO Hok.
  destruct Hf as [Hf|Hf]; [discriminate|]. destruct (not_cached_of m (RT o) Hf). pose proof rt_range.
  apply (correct_write _ _ _ _ _ _ (RT o) (Z.shiftl (IMM o) 16) Hload ltac:(effect_at) Hexec).
  apply runs_const_lazy; auto; [lia|]. pose proof (IMM_range o). rewrite Z.shiftl_mul_pow2 by lia. unfold is_u32. lia.
Qed.

Lemma addi_correct e : o <> 0 -> insn_ok m o = true -> OP o = 0x08 ->
  emit_alu call_c_trampoline_addr abort_trampoline_addr Helper_Overflow_Exception o psx_pc = Some e -> correct o e m h r r'.
Proof.
  intros Hne Hok HO He. unfold emit_alu in He. rewrite (proj2 (Z.eqb_neq o 0) Hne), HO in He. injection He as <-. ok_at HO HO Hok.
  pose proof rt_range. pose proof (imm_se_range o). set (a := aget (r_regs r) (RS o)). assert (Ha : is_u32 a) by apply reg_u32.
  assert (Heff : r_effect o r = sum_or_trap (RT o) (s32 a + IMM_SE o)) by effect_at.
  unfold sum_or_trap in Heff. destruct (fits32 _) eqn:Hfit; [|destruct (exec_none o r r' Heff Hexec)].
  assert (Ev : u32 (s32 a + IMM_SE o) = u32 (a + IMM_SE o)).
  { unfold u32. rewrite <- Z.add_mod_idemp_l, <- (Z.add_mod_idemp_l a) by lia. do 2 f_equal. exact (u32_s32 a). }
  rewrite Ev in Heff. apply (correct_write _ _ _ _ _ _ _ _ Hload Heff Hexec).
  apply runs_ADDI; auto; try apply five_bits; lia.
Qed.

(** The opcodes the emitter has arithmetic for. *)
Lemma alu_cases e : emit_alu call_c_trampoline_addr abort_trampoline_addr Helper_Overflow_Exception o psx_pc = Some e -> o <> 0 ->
  (OP o = 0 /\ emit_special call_c_trampoline_addr abort_trampoline_addr Helper_Overflow_Exception o psx_pc = Some e) \/ OP o = 0x08 \/ OP o = 0x0F \/
  In (OP o) [0x09; 0x0A; 0x0B; 0x0C; 0x0D; 0x0E].
Proof.
  unfold emit_alu. intros He Hne. rewrite (proj2 (Z.eqb_neq o 0) Hne) in He.
  destruct (OP o) as [|p|p]; [left; auto | right | discriminate].
  do 4 (destruct p as [p|p|]; try discriminate); cbn [In]; auto 12.
Qed.

Lemma special_cases e : OP o = 0 -> register_jump o = false ->
  emit_special call_c_trampoline_addr abort_trampoline_addr Helper_Overflow_Exception o psx_pc = Some e ->
  In (FUNCT o) [0x00; 0x02; 0x03; 0x04; 0x06; 0x07] \/ In (FUNCT o) [0x10; 0x11; 0x12; 0x13; 0x18; 0x19; 0x1A; 0x1B] \/
  FUNCT o = 0x20 \/ FUNCT o = 0x22 \/ In (FUNCT o) [0x21; 0x23; 0x24; 0x25; 0x26; 0x27; 0x2A; 0x2B].
Proof.
  intros HO Hj He. assert (Hx : special_effect (r_regs r) (r_hi r) (r_lo r) (u32 (r_pc r + 4)) o <> None).
  { intros E. apply (exec_none o r r'); [|exact Hexec]. unfold r_effect, instruction_effect. rewrite HO. exact E. }
  unfold register_jump in Hj. rewrite HO in Hj. cbn [Z.eqb andb] in Hj. unfold special_effect in Hx. unfold emit_special in He.
  destruct (FUNCT o) as [|p|p]; [cbn [In]; auto | | destruct Hx; reflexivity].
  do 6 (try (destruct p as [p|p|]; try discriminate; try (destruct Hx; reflexivity))); cbn [In]; auto 14.
Qed.

Lemma special_correct e : OP o = 0 -> o <> 0 -> insn_ok m o = true ->
  emit_special call_c_trampoline_addr abort_trampoline_addr Helper_Overflow_Exception o psx_pc = Some e -> correct o e m h r r'.
Proof.
  intros HO Hne Hok He. assert (Hj : register_jump o = false) by (unfold insn_ok in Hok; apply andb_prop in Hok as [Hj _]; apply negb_true_iff, Hj).
  destruct (special_cases e HO Hj He) as [H|[H|[H|[H|H] ] ] ].
  - apply shifts_correct; assumption.
  - apply hilo_correct; assumption.
  - apply (trap_correct false); assumption.
  - apply (trap_correct true); assumption.
  - apply op2s_correct; assumption.
Qed.

Lemma insn_correct e : insn_ok m o = true ->
  emit_alu call_c_trampoline_addr abort_trampoline_addr Helper_Overflow_Exception o psx_pc = Some e -> correct o e m h r r'.
Proof.
  intros Hok He. destruct (Z.eq_dec o 0) as [E0|Hne].
  - unfold emit_alu in He. rewrite E0 in He. injection He as <-.
    apply (correct_write _ _ _ _ _ _ 0 (u32 (Z.shiftl (aget (r_regs r) 0) 0)) Hload ltac:(rewrite E0; apply nop_effect) Hexec). apply runs_ret. exact Hrep.
  - destruct (alu_cases e He Hne) as [ [HO H]|[H|[H|H] ] ].
    + apply special_correct; assumption.
    + apply addi_correct; assumption.
    + apply lui_correct; assumption.
    + apply imms_correct; assumption.
Qed.

End Insn.

End Alu.
