(* ===== verification/EmitBlock.v ===== *)
(** * A translated block leaves the registers of the processor

    Slots are assigned to distinct registers that are not pinned; at the entry
    of a block every register is in its place, at the exit every register is
    back in [cpu.regs].  With [EmitAlu.v] in between, the words of a block of
    arithmetic compute what the processor computes. *)

From S2P Require Import Prelude Scheduler System Cpu Memory Gte Interpreter InterpSafe InterpRef Recompiler RecompMath Emit EmitMath EmitRep EmitAlu.
#[local] Open Scope emit_scope.

(** ** Assignment of slots *)

Definition best_step (score : Z -> Z) (taken : list Z) : Z * Z -> Z -> Z * Z := fun '(best, best_score) r =>
  if score r <=? best_score then (best, best_score) else if existsb (Z.eqb r) taken then (best, best_score) else (r, score r).

(** The choice is -1, or a register not taken, with the largest score. *)
Lemma best_reg_spec score taken :
  let '(b, s) := best_reg score taken in
  0 <= s /\ (b = -1 /\ s = 0 \/ In b (tl (zseq 32)) /\ ~ In b taken /\ score b = s /\ 0 < s) /\
  (forall r, In r (tl (zseq 32)) -> ~ In r taken -> score r <= s).
Proof.
  unfold best_reg. change (fun '(best, best_score) r => _) with (best_step score taken).
  cut (forall l seen b s, (0 <= s /\ (b = -1 /\ s = 0 \/ In b seen /\ ~ In b taken /\ score b = s /\ 0 < s) /\ (forall r, In r seen -> ~ In r taken -> score r <= s)) ->
    let '(b', s') := fold_left (best_step score taken) l (b, s) in
    0 <= s' /\ (b' = -1 /\ s' = 0 \/ In b' (seen ++ l) /\ ~ In b' taken /\ score b' = s' /\ 0 < s') /\ (forall r, In r (seen ++ l) -> ~ In r taken -> score r <= s')).
  { intros H. apply (H _ []). split; [lia | split; [auto | intros r []] ]. }
  induction l as [|x l IH]; intros seen b s Hi; cbn [fold_left].
  - rewrite app_nil_r. exact Hi.
  - replace (seen ++ x :: l) with ((seen ++ [x]) ++ l) by (rewrite <- app_assoc; reflexivity).
    destruct (best_step score taken (b, s) x) as [b1 s1] eqn:E. apply IH. clear IH. destruct Hi as (H0 & H1 & H2). unfold best_step in E.
    assert (Hin : forall y, In y seen -> In y (seen ++ [x])) by (intros y Hy; apply in_or_app; auto).
    assert (Hsnoc : forall y, In y (seen ++ [x]) -> In y seen \/ y = x) by (intros y Hy; apply in_app_or in Hy as [Hy|[Hy|[] ] ]; auto).
    destruct (Z.leb_spec (score x) s) as [Hs|Hs]; [|destruct (existsb (Z.eqb x) taken) eqn:Et].
    + injection E as <- <-. split; [exact H0 | split]; [destruct H1 as [H1|(A & B)]; [auto | right; split; [apply Hin, A | exact B] ]|].
      intros r Hr Hn. destruct (Hsnoc r Hr) as [Hr'| ->]; [apply H2; assumption | exact Hs].
    + apply existsb_exists in Et as (z & Hz & Ez). apply Z.eqb_eq in Ez as <-.
      injection E as <- <-. split; [exact H0 | split]; [destruct H1 as [H1|(A & B)]; [auto | right; split; [apply Hin, A | exact B] ]|].
      intros r Hr Hn. destruct (Hsnoc r Hr) as [Hr'| ->]; [apply H2; assumption | contradiction].
    + injection E as <- <-. split; [lia | split].
      * right. split; [apply in_or_app; right; left; reflexivity | split; [|split; [reflexivity | lia] ] ].
        intros Ht. rewrite (proj2 (existsb_exists (Z.eqb x) taken)) in Et; [discriminate|]. exists x. split; [exact Ht | apply Z.eqb_refl].
      * intros r Hr Hn. destruct (Hsnoc r Hr) as [Hr'| ->]; [specialize (H2 r Hr' Hn); lia | lia].
Qed.

Lemma candidates r : In r (tl (zseq 32)) <-> 1 <= r < 32.
Proof.
  change (tl (zseq 32)) with (map (fun i => Z.of_nat i) (seq 1 31)). rewrite in_map_iff. split.
  - intros (i & <- & Hi). apply in_seq in Hi. lia.
  - intros Hr. exists (Z.to_nat r). split; [lia|]. apply in_seq. lia.
Qed.

(** What the assignment promises: distinct registers, most used first, none
    left out that is used more than one that has a slot. *)
Record slots_good (score : Z -> Z) (n : nat) (l : list Z) : Prop := {
  sg_nodup : List.NoDup l;
  sg_in : forall r, In r l -> 1 <= r < 32 /\ 0 < score r;
  sg_len : (length l <= n)%nat;
  sg_best : forall r s, 1 <= r < 32 -> ~ In r l -> In s l -> score r <= score s
}.

Lemma assign_slots_good score k : forall taken n, slots_good score n taken -> (length taken + k = n)%nat ->
  slots_good score n (assign_slots k score taken) /\
  ((length (assign_slots k score taken) < n)%nat -> forall r, 1 <= r < 32 -> ~ In r (assign_slots k score taken) -> score r <= 0).
Proof.
  induction k as [|k IH]; intros taken n Hg Hn; cbn [assign_slots]; [split; [exact Hg | lia]|].
  pose proof (best_reg_spec score taken) as Hb. destruct (best_reg score taken) as [b s]. cbn [fst]. destruct Hb as (H0 & H1 & H2).
  pose proof Hg as [A B C D]. destruct (Z.ltb_spec b 0) as [Hneg|Hpos].
  - assert (s = 0) by (destruct H1 as [ [_ H1]|(H1 & _)]; [exact H1 | apply candidates in H1; lia]). subst s.
    split; [exact Hg|]. intros _ r Hr Hnr. apply H2; [apply candidates, Hr | exact Hnr].
  - destruct H1 as [ [-> _]|(Hin & Hnot & Hs & Hpos')]; [lia|]. apply candidates in Hin.
    apply IH; [|rewrite length_app; cbn; lia].
    assert (Hsn : forall r, In r (taken ++ [b]) <-> In r taken \/ r = b) by (intros r; rewrite in_app_iff; cbn; intuition).
    split.
    + apply NoDup_ListNoDup, NoDup_app. split; [apply NoDup_ListNoDup, A | split; [|apply NoDup_singleton] ].
      intros x Hx Hx'. apply list_elem_of_In in Hx, Hx'. destruct Hx' as [<-|[] ]. contradiction.
    + intros r Hr. apply Hsn in Hr as [Hr| ->]; [apply B, Hr | lia].
    + rewrite length_app. cbn. lia.
    + intros r t Hr Hnr Ht. assert (Hnr' : ~ In r taken) by (intros H; apply Hnr, Hsn; auto).
      apply Hsn in Ht as [Ht| ->]; [apply D; assumption|]. rewrite Hs. apply H2; [apply candidates, Hr | exact Hnr'].
Qed.

Lemma assigned_ok scan : List.NoDup (assigned scan) /\ (length (assigned scan) <= 8)%nat /\
  (forall r, In r (assigned scan) -> 1 <= r < 32 /\ pinned r = false /\ 2 <= aget (reg_access_count scan) r).
Proof.
  assert (H0 : slots_good (slot_score scan) 8 []) by (split; [constructor | intros r [] | cbn; lia | intros r s _ _ [] ]).
  destruct (assign_slots_good (slot_score scan) 8 [] 8 H0 eq_refl) as [ [A B C D] F]. change (assign_slots 8 (slot_score scan) []) with (assigned scan) in *.
  split; [exact A | split; [exact C|] ]. intros r Hr. destruct (B r Hr) as [H1 H2]. unfold slot_score in H2.
  destruct (Z.ltb_spec (aget (reg_access_count scan) r) 2); [cbn in H2; lia|]. destruct (pinned r); [cbn in H2; lia | auto].
Qed.

(** [C27] Slots go to at most eight distinct registers, none of them $zero or
    pinned, each accessed at least twice in the block; a register without a
    slot is accessed at most as often as each register with one, and when a
    slot is free no register that could use it is left. *)
Theorem slots_to_most_used scan : let l := assigned scan in let uses r := aget (reg_access_count scan) r in
  List.NoDup l /\ (length l <= 8)%nat /\ (forall r, In r l -> 1 <= r < 32 /\ pinned r = false /\ 2 <= uses r) /\
  (forall r s, 1 <= r < 32 -> pinned r = false -> ~ In r l -> In s l -> uses r <= uses s) /\
  ((length l < 8)%nat -> forall r, 1 <= r < 32 -> pinned r = false -> ~ In r l -> uses r < 2).
Proof.
  intros l uses. assert (H0 : slots_good (slot_score scan) 8 []) by (split; [constructor | intros r [] | cbn; lia | intros r s _ _ [] ]).
  destruct (assign_slots_good (slot_score scan) 8 [] 8 H0 eq_refl) as [ [A B C D] F]. change (assign_slots 8 (slot_score scan) []) with l in *.
  assert (Hu : forall r, pinned r = false -> 2 <= uses r -> slot_score scan r = uses r).
  { intros r Hp Hr. unfold slot_score. fold (uses r). rewrite Hp, (proj2 (Z.ltb_ge _ _)) by lia. reflexivity. }
  destruct (assigned_ok scan) as (_ & _ & Hin). fold l in Hin.
  split; [exact A | split; [exact C | split; [exact Hin | split] ] ].
  - intros r s Hr Hp Hn Hs. destruct (Hin s Hs) as (_ & Ps & Us). change (2 <= uses s) in Us. destruct (Z.le_gt_cases 2 (uses r)) as [Hr2|Hr2]; [|lia].
    rewrite <- (Hu r Hp Hr2), <- (Hu s Ps Us). apply D; assumption.
  - intros Hl r Hr Hp Hn. destruct (Z.le_gt_cases 2 (uses r)) as [Hr2|Hr2]; [|exact Hr2].
    specialize (F Hl r Hr Hn). rewrite (Hu r Hp Hr2) in F. lia.
Qed.

(** ** The entry of a block *)

Lemma index_of_spec r l : List.NoDup l ->
  (In r l -> 0 <= index_of r l < zlen l /\ aget l (index_of r l) = r) /\ (~ In r l -> index_of r l = -1).
Proof.
  induction l as [|x l IH]; intros Hn; [split; [intros [] | reflexivity]|]. inversion Hn as [|? ? Hx Hl]; subst. destruct (IH Hl) as [I1 I2]. clear IH.
  assert (Hlen : zlen (x :: l) = 1 + zlen l) by (unfold zlen; cbn [length]; lia). pose proof (Zle_0_nat (length l)) as Hpos. fold (zlen l) in Hpos.
  cbn [index_of]. destruct (Z.eqb_spec x r) as [->|Hne].
  - split; [intros _; split; [lia | reflexivity] | intros H; destruct H; left; reflexivity].
  - split.
    + intros [E|H]; [contradiction|]. destruct (I1 H) as [R E]. rewrite (proj2 (Z.ltb_ge _ _)) by lia. split; [lia|].
      unfold aget, anth in *. replace (Z.to_nat (1 + index_of r l)) with (S (Z.to_nat (index_of r l))) by lia. exact E.
    + intros H. rewrite I2 by (intros Hi; apply H; right; exact Hi). reflexivity.
Qed.

Lemma index_of_nth l i : List.NoDup l -> 0 <= i < zlen l -> index_of (aget l i) l = i.
Proof.
  intros Hn Hi. assert (Hin : In (aget l i) l) by (apply nth_In; unfold zlen in Hi; lia).
  destruct (index_of_spec (aget l i) l Hn) as [H _]. destruct (H Hin) as [R E].
  apply (proj1 (NoDup_nth l 0) Hn) in E; unfold zlen in *; lia.
Qed.

Section Assigned.
Variables (scan : BlockScanResult) (m0 : Em).
Let l := assigned scan.
Let m := dyn_assign_slots scan m0.

Lemma assigned_slot_of r : 0 <= r < 32 -> dyn_slot_of m r = index_of r l.
Proof.
  intros Hr. change (dyn_slot_of m r) with (if 0 <? zlen l then anth (-1) (map (fun r => index_of r l) (zseq 32)) r else -1).
  destruct (Z.ltb_spec 0 (zlen l)) as [H|H].
  - unfold anth. change (zseq 32) with (map Z.of_nat (seq 0 32)). rewrite map_map.
    rewrite (nth_indep _ _ ((fun x => index_of (Z.of_nat x) l) 0%nat)) by (rewrite length_map, length_seq; lia).
    rewrite (map_nth (fun x => index_of (Z.of_nat x) l)), seq_nth by lia. f_equal. lia.
  - destruct (assigned_ok scan) as (Hn & _). fold l in Hn. destruct l as [|x k]; [reflexivity | unfold zlen in H; cbn [length] in H; lia].
Qed.

Lemma assigned_slot_reg i : 0 <= i < 8 -> slot_reg m i = if i <? zlen l then aget l i else -1.
Proof.
  intros Hi. change (slot_reg m i) with (aget (l ++ repeat (-1) (8 - length l)) i). destruct (assigned_ok scan) as (_ & Hl & _). fold l in Hl.
  unfold aget, anth, zlen. destruct (Z.ltb_spec i (Z.of_nat (length l))).
  - apply app_nth1. lia.
  - rewrite app_nth2 by lia. apply nth_repeat_lt. lia.
Qed.

Lemma assigned_wf : zlen (vregs m0) = 32 -> wf m.
Proof.
  intros Hv. destruct (assigned_ok scan) as (Hn & Hl & Hin). fold l in Hn, Hl, Hin. assert (Hz : zlen l <= 8) by (unfold zlen; lia). split.
  - exact Hv.
  - intros r Hr Hs. unfold has_slot in Hs. apply Z.leb_le in Hs. rewrite assigned_slot_of in * by exact Hr.
    destruct (index_of_spec r l Hn) as [I1 I2]. destruct (in_dec Z.eq_dec r l) as [H|H]; [|rewrite I2 in Hs by exact H; lia].
    destruct (I1 H) as [R E]. destruct (Hin r H) as (P1 & P2 & _). split; [lia | split; [exact P2 | split; [lia|] ] ].
    rewrite assigned_slot_reg by lia. rewrite (proj2 (Z.ltb_lt _ _)) by lia. exact E.
  - intros _ i Hi Hp. rewrite assigned_slot_reg in * by exact Hi. destruct (Z.ltb_spec i (zlen l)) as [H|H]; [|lia].
    assert (Hin' : In (aget l i) l) by (apply nth_In; unfold zlen in H; lia). destruct (Hin _ Hin') as (P1 & _).
    split; [lia|]. rewrite assigned_slot_of by lia. apply index_of_nth; [exact Hn | lia].
Qed.
End Assigned.

Section Block.
Variable div0 : Z -> Z * Z.
#[local] Abbreviation runs := (runs div0).

Lemma runs_eiter (I : Z -> Em -> Ee -> Prop) e l : (forall i m h, In i l -> I i m h -> runs (e i) m h (fun _ m' h' => I (i + 1) m' h')) ->
  forall n k m h, l = map (fun j => n + Z.of_nat j) (seq 0 k) -> I n m h -> runs (eiter l e) m h (fun _ m' h' => I (n + Z.of_nat k) m' h').
Proof.
  revert e. induction l as [|i l IH]; intros e He n k m h El Hi.
  - destruct k; [|discriminate]. apply runs_ret. rewrite Z.add_0_r. exact Hi.
  - destruct k as [|k]; [discriminate|]. cbn [seq map] in El. injection El as Ei El. rewrite Z.add_0_r in Ei. subst i.
    cbn [eiter]. apply runs_bind. eapply runs_mono; [apply (He n m h); [left; reflexivity | exact Hi]|]. intros [] m1 h1 H1.
    eapply runs_mono; [apply (IH e) with (n := n + 1) (k := k)|]; [intros j mj hj Hj; apply He; right; exact Hj | | exact H1 |].
    + rewrite El, <- seq_shift, map_map. apply map_ext. intros j. lia.
    + intros [] m2 h2 H2. replace (n + Z.of_nat (S k)) with (n + 1 + Z.of_nat k) by lia. exact H2.
Qed.

(** *** The compile-time state before the slots are assigned *)

Record blank (regs : list Z) (m : Em) : Prop := {
  bl_len : zlen (vregs m) = 32;
  bl_vregs : forall r, 0 <= r < 32 -> vdirty (vreg m r) = false /\ (vconst (vreg m r) = true -> r <> 0 /\ vvalue (vreg m r) = aget regs r);
  bl_masks : dyn_dirty_mask m = 0 /\ dyn_slot_loaded_mask m = 0;
  bl_caches : t8_cached_psx_reg m = -1 /\ t9_cached_psx_reg m = -1
}.

Lemma blank_reset regs m : blank regs (reset_vregs m).
Proof.
  assert (E : forall r, 0 <= r < 32 -> vreg (reset_vregs m) r = vreg0).
  { intros r Hr. change (vreg (reset_vregs m) r) with (nth (Z.to_nat r) (repeat vreg0 32) vreg0). apply nth_repeat_lt. lia. }
  split; [reflexivity | | split; reflexivity | split; reflexivity].
  intros r Hr. rewrite E by exact Hr. split; [reflexivity | discriminate].
Qed.

Definition seeds_hold (regs : list Z) (seeds : list (Z * Z)) : Prop := Forall (fun '(r, v) => 0 <= r < 32 /\ v = aget regs r) seeds.

Lemma runs_mark_seeds regs seeds : seeds_hold regs seeds -> forall m h, blank regs m -> runs (mark_seeds seeds) m h (fun _ m' h' => blank regs m' /\ h' = h).
Proof.
  induction 1 as [|[r v] seeds [Hr ->] Hs IH]; intros m h Hb; cbn [mark_seeds]; [apply runs_ret; auto|].
  apply runs_bind. eapply runs_mono with (Q := fun _ m' h' => blank regs m' /\ h' = h); [|intros _ m1 h1 [Hb1 ->]; apply IH, Hb1].
  unfold mark_vreg_const. destruct (Z.eqb_spec r 0) as [->|Hn]; [apply runs_ret; auto|]. cbn [negb ewhen].
  apply runs_bind, runs_modify, runs_modify. split; [|reflexivity].
  set (m1 := leave_host_base r m). assert (Hm : vregs m1 = vregs m /\ dyn_dirty_mask m1 = dyn_dirty_mask m /\ dyn_slot_loaded_mask m1 = dyn_slot_loaded_mask m /\ t8_cached_psx_reg m1 = t8_cached_psx_reg m /\ t9_cached_psx_reg m1 = t9_cached_psx_reg m).
  { unfold m1, leave_host_base. destruct (mem_host_base_psx m =? r); repeat split. }
  clearbody m1. destruct Hm as (Ev & Ed & El & E8 & E9). destruct Hb as [B1 B2 [B3 B3'] [B4 B4'] ]. split.
  - change (zlen (aset (vregs m1) r (mkReg (aget regs r) true false)) = 32). rewrite zlen_aset, Ev. exact B1.
  - intros k Hk. change (vreg (upd_vreg r (fun _ => mkReg (aget regs r) true false) m1) k) with (anth vreg0 (aset (vregs m1) r (mkReg (aget regs r) true false)) k).
    rewrite anth_aset by (rewrite ?Ev; lia). destruct (Z.eqb_spec r k) as [->|]; [split; [reflexivity | intros _; split; [exact Hn | reflexivity] ]|].
    rewrite Ev. apply B2, Hk.
  - change (dyn_dirty_mask m1 = 0 /\ dyn_slot_loaded_mask m1 = 0). rewrite Ed, El. auto.
  - change (t8_cached_psx_reg m1 = -1 /\ t9_cached_psx_reg m1 = -1). rewrite E8, E9. auto.
Qed.

(** The pinned registers are in their host registers. *)
Lemma runs_reload_pinned m h (Q : unit -> Em -> Ee -> Prop) : gpr_ok h ->
  (forall n h', gpr_ok h' -> (forall r, 0 <= r < 32 -> pinned r = true -> reg_of h' (psx_pinned_reg r) = field h (CPU_REG r)) ->
    (forall off, field h' off = field h off) -> Q tt (counted n m) h') -> runs emit_reload_pinned m h Q.
Proof.
  intros Hg H. unfold emit_reload_pinned, REG_S4, REG_S5, REG_S6, REG_S7.
  apply runs_bind, runs_LW; [lia | unfold CPU_REG; lia|]. intros n1. apply runs_bind, runs_LW; [lia | unfold CPU_REG; lia|]. intros n2.
  apply runs_bind, runs_LW; [lia | unfold CPU_REG; lia|]. intros n3. apply runs_LW; [lia | unfold CPU_REG; lia|]. intros n4.
  rewrite !field_set_gpr. apply (H n4); [repeat (apply gpr_set_ok; [lia|]); exact Hg | | intros off; reflexivity].
  intros r Hr Hp. unfold pinned, psx_pinned_reg in *.
  destruct (Z.eqb_spec r 28) as [->|]; [|destruct (Z.eqb_spec r 29) as [->|]; [|destruct (Z.eqb_spec r 30) as [->|]; [|destruct (Z.eqb_spec r 31) as [->|]; [|discriminate] ] ] ].
  all: repeat first [rewrite reg_set_ne by lia | rewrite reg_set_eq by (first [lia | repeat (apply gpr_set_ok; [lia|]); exact Hg]) ]; reflexivity.
Qed.

(** The registers in [cpu.regs], HI and LO. *)
Record in_cpu (h : Ee) (regs : list Z) (vhi vlo : Z) : Prop := {
  ic_regs : forall r, 0 < r < 32 -> field h (CPU_REG r) = aget regs r;
  ic_hi : field h CPU_HI = vhi;
  ic_lo : field h CPU_LO = vlo
}.

Definition words_ok (regs : list Z) (vhi vlo : Z) : Prop :=
  zlen regs = 32 /\ aget regs 0 = 0 /\ (forall r, is_u32 (aget regs r)) /\ is_u32 vhi /\ is_u32 vlo.

Lemma rep_entry scan m h regs vhi vlo : blank regs m -> words_ok regs vhi vlo -> gpr_ok h -> in_cpu h regs vhi vlo ->
  (forall r, 0 <= r < 32 -> pinned r = true -> reg_of h (psx_pinned_reg r) = aget regs r) -> rep (dyn_assign_slots scan m) h regs vhi vlo.
Proof.
  intros [B1 B2 [B3 B3'] [B4 B4'] ] (W1 & W2 & W3 & W4 & W5) Hg [I1 I2 I3] Hp. set (m' := dyn_assign_slots scan m).
  assert (Hlz : forall r, 0 <= r < 32 -> lazy_const m' r = false).
  { intros r Hr. change (vconst (vreg m r) && vdirty (vreg m r) = false). destruct (B2 r Hr) as [-> _]. apply andb_false_r. }
  split; [apply assigned_wf, B1 | exact Hg | exact W1 | split; [|exact W2] | exact W3 | split; assumption | | exact I2 | exact I3].
  - change (vconst (vreg m 0) = false). destruct (B2 0 ltac:(lia)) as [_ H]. destruct (vconst (vreg m 0)); [destruct (H eq_refl); lia | reflexivity].
  - intros r Hr.
    assert (Hld : loaded m' r = false) by (change (Z.testbit (dyn_slot_loaded_mask m) (dyn_slot_of m' r) = false); rewrite B3'; apply Z.bits_0).
    assert (Hdt : dirty m' r = false) by (change (Z.testbit (dyn_dirty_mask m) (dyn_slot_of m' r) = false); rewrite B3; apply Z.bits_0).
    split.
    + intros Hc. apply (B2 r ltac:(lia)). exact Hc.
    + unfold content. rewrite Hlz, Hld, andb_false_r by lia. destruct (pinned r) eqn:E; [apply Hp; [lia | exact E] | apply I1, Hr].
    + rewrite Hlz by lia. discriminate.
    + intros _ _ _. apply I1, Hr.
    + rewrite Hdt. discriminate.
    + change (t8_cached_psx_reg m = r -> host_of m' r = None /\ lazy_const m' r = false /\ reg_of h REG_T8 = aget regs r). lia.
    + change (t9_cached_psx_reg m = r -> host_of m' r = None /\ lazy_const m' r = false /\ reg_of h REG_T9 = aget regs r). lia.
Qed.

(** Loading slots at the entry. *)
Lemma runs_load_one_slot skip i m h regs vhi vlo : rep m h regs vhi vlo -> 0 <= i < 8 -> dyn_slots_active m = true \/ slot_reg m i < 0 ->
  (forall r, 0 < r < 32 -> lazy_const m r = false /\ field h (CPU_REG r) = aget regs r) ->
  runs (load_one_slot skip i) m h (fun _ m' h' => rep m' h' regs vhi vlo /\ same_slots m m' /\ (forall r, 0 < r < 32 -> lazy_const m' r = false /\ field h' (CPU_REG r) = aget regs r)).
Proof.
  intros Hrep Hi Ha Hf. unfold load_one_slot. apply runs_bind, runs_gets.
  destruct (Z.leb_spec 0 (slot_reg m i)) as [Hs|Hs]; [|apply runs_ret; split; [exact Hrep | split; [repeat split | exact Hf] ] ].
  destruct (negb (Z.testbit skip (slot_reg m i))); [|apply runs_ret; split; [exact Hrep | split; [repeat split | exact Hf] ] ].
  destruct Ha as [Ha|Ha]; [|lia]. pose proof (rep_wf _ _ _ _ _ Hrep) as Hw. destruct (wf_slots m Hw Ha i Hi Hs) as [R E]. set (r := slot_reg m i) in *.
  assert (Hh : has_slot m r = true) by (unfold has_slot; rewrite E; apply Z.leb_le; lia). destruct (wf_slot m Hw r ltac:(lia) Hh) as (_ & _ & Hpos & _).
  cbn [andb ewhen]. apply runs_bind, runs_LW; [unfold dyn_slot_ee, REG_T0; lia | apply CPU_REG_range; lia|]. intros n. apply runs_modify.
  destruct (Hf r ltac:(lia)) as [Hl Hv]. destruct (rep_slot_loaded m h regs vhi vlo r Hrep ltac:(lia) Hh Hl Hv) as (A & B & _).
  unfold slot_host in A. rewrite E in A. rewrite Hv. split; [|split].
  - refine (rep_core _ _ _ _ _ _ _ A). rewrite E in *. repeat split.
  - repeat split.
  - intros k Hk. exact (Hf k Hk).
Qed.

Lemma slots_are : slots = map (fun j => 0 + Z.of_nat j) (seq 0 8).
Proof. reflexivity. Qed.

Lemma inactive_slots scan m i : dyn_slots_active (dyn_assign_slots scan m) = false -> 0 <= i < 8 -> slot_reg (dyn_assign_slots scan m) i < 0.
Proof.
  intros Ha Hi. change ((0 <? zlen (assigned scan)) = false) in Ha. apply Z.ltb_ge in Ha. rewrite assigned_slot_reg by exact Hi. rewrite (proj2 (Z.ltb_ge i _)) by lia. lia.
Qed.

(** After the entry every register is in its place. *)
Lemma runs_entry scan seeds m h regs vhi vlo : words_ok regs vhi vlo -> gpr_ok h -> in_cpu h regs vhi vlo -> seeds_hold regs seeds ->
  runs (block_entry scan seeds) m h (fun _ m' h' => rep m' h' regs vhi vlo).
Proof.
  intros Hok Hg Hin Hs. unfold block_entry. apply runs_bind, runs_modify, runs_bind, runs_modify, runs_bind.
  eapply runs_mono; [apply (runs_mark_seeds regs seeds Hs), blank_reset|]. intros _ m1 h1 [Hb ->].
  apply runs_bind, runs_reload_pinned; [exact Hg|]. intros n h2 Hg2 Hp2 Hf2. apply runs_bind, runs_modify.
  assert (Hin2 : in_cpu h2 regs vhi vlo) by (destruct Hin as [I1 I2 I3]; split; [intros r Hr; rewrite Hf2; auto | rewrite Hf2; exact I2 | rewrite Hf2; exact I3]).
  assert (Hrep : rep (dyn_assign_slots scan (counted n m1)) h2 regs vhi vlo).
  { apply rep_entry; auto; [destruct Hb; split; assumption|]. intros r Hr Hp. rewrite Hp2 by assumption.
    apply (ic_regs _ _ _ _ Hin). unfold pinned in Hp. destruct (Z.eqb_spec r 0) as [->|]; [discriminate | lia]. }
  assert (Hlz : forall r, 0 < r < 32 -> lazy_const (dyn_assign_slots scan (counted n m1)) r = false /\ field h2 (CPU_REG r) = aget regs r).
  { intros r Hr. split; [|apply (ic_regs _ _ _ _ Hin2), Hr]. change (vconst (vreg m1 r) && vdirty (vreg m1 r) = false). destruct (bl_vregs _ _ Hb r ltac:(lia)) as [-> _]. apply andb_false_r. }
  pose proof (inactive_slots scan (counted n m1)) as Hact. set (ms := dyn_assign_slots scan (counted n m1)) in *.
  unfold dyn_load_slots. apply runs_bind, runs_modify. apply runs_bind.
  set (I := fun (i : Z) (mi : Em) (hi : Ee) => rep mi hi regs vhi vlo /\ same_slots ms mi /\ (forall r, 0 < r < 32 -> lazy_const mi r = false /\ field hi (CPU_REG r) = aget regs r)).
  eapply runs_mono; [apply (runs_eiter I) with (n := 0) (k := 8%nat); [| exact slots_are |]|].
  - intros i mi hi Hi (A & B & C). apply in_zseq in Hi. assert (Hi' : 0 <= i < 8) by (unfold DYN_SLOT_COUNT in Hi; lia).
    eapply runs_mono; [apply (runs_load_one_slot (reg_write_before_read scan) i mi hi regs vhi vlo); auto|].
    + destruct B as (B1 & B2 & B3). rewrite B3. unfold slot_reg. rewrite B1. destruct (dyn_slots_active ms) eqn:E; [auto | right; exact (Hact i eq_refl Hi')].
    + intros _ m' h' (A' & B' & C'). split; [exact A' | split; [exact (same_slots_trans _ _ _ B B') | exact C'] ].
  - split; [|split; [repeat split | exact Hlz] ]. apply (rep_core ms); [|exact Hrep]. repeat split. symmetry; exact (proj2 (bl_masks _ _ Hb)).
  - intros _ m3 h3 (A & _). apply runs_modify. apply (rep_core m3); [repeat split | exact A].
Qed.

(** ** The exit of a block *)

(** [flush_dirty_consts] clears the mask before its loop: the invariant is
    that of the mask before. *)
Definition with_mask (x : Z) (m : Em) : Em := m <| dirty_const_mask := x |>.

Lemma runs_flush_one x r m h regs vhi vlo : rep (with_mask x m) h regs vhi vlo -> 0 <= r < 32 ->
  runs (do m <- egets (fun m => m); ewhen (lazy_const m r) (store_const r (vvalue (vreg m r)) >> emodify (upd_vreg r (fun v => v <| vdirty := false |>)))) m h
    (fun _ m' h' => rep (with_mask x m') h' regs vhi vlo /\ lazy_const m' r = false /\ (forall k, 0 < k < 32 -> lazy_const m k = false -> lazy_const m' k = false)
      /\ dirty_const_mask m' = dirty_const_mask m).
Proof.
  intros Hrep Hr. apply runs_bind, runs_gets. destruct (lazy_const m r) eqn:Hl; [|apply runs_ret; auto]. cbn [ewhen].
  assert (Hr' : 0 < r < 32).
  { destruct (Z.eq_dec r 0) as [->|]; [|lia]. pose proof (proj1 (rep_zero _ _ _ _ _ Hrep)) as Hz. unfold lazy_const in Hl. change (vconst (vreg m 0) = false) in Hz. rewrite Hz in Hl. discriminate. }
  pose proof (rep_regs _ _ _ _ _ Hrep r Hr') as Hi. pose proof (lazy_value (with_mask x m) h r _ Hi Hl) as Hval. change (vvalue (vreg m r) = aget regs r) in Hval.
  assert (Hw : wf m) by (apply (wf_same (with_mask x m)); [repeat split | reflexivity | apply (rep_wf _ _ _ _ _ Hrep)]). pose proof (wf_vregs m Hw) as Hlen.
  rewrite Hval. apply runs_bind, runs_store_const; [exact Hr' | exact Hw | apply (rep_gpr _ _ _ _ _ Hrep) | apply (rep_words _ _ _ _ _ Hrep)|]. intros n. apply runs_modify.
  destruct (stored_parts r m) as (P1 & P2 & P3 & P4 & P5 & P6). set (f := fun v : RegStatus => v <| vdirty := false |>).
  set (m' := upd_vreg r f (counted n (stored_m r m))).
  assert (Hv : forall k, 0 <= k -> vreg m' k = if r =? k then f (vreg m k) else vreg m k).
  { intros k Hk. change (vreg m' k) with (anth vreg0 (aset (vregs (stored_m r m)) r (f (anth vreg0 (vregs (stored_m r m)) r))) k). rewrite P1.
    rewrite anth_aset by lia. destruct (Z.eqb_spec r k) as [->|]; reflexivity. }
  assert (Hlz : lazy_const m' r = false) by (unfold lazy_const; rewrite Hv, Z.eqb_refl by lia; apply andb_false_r).
  unfold with_AT. replace (match host_of m r with Some _ => h | None => set_gpr REG_AT (aget regs r) h end)
    with (via (match host_of m r with Some _ => None | None => Some REG_AT end) (aget regs r) h) by (destruct (host_of m r); reflexivity).
  split; [|split; [exact Hlz | split; [|exact P2] ] ].
  - destruct (rep_settle (with_mask x m) h regs vhi vlo r (with_mask x m') (match host_of m r with Some _ => None | None => Some REG_AT end)) as (A & _); auto.
    + exact (stored_same r m).
    + change (zlen (aset (vregs (stored_m r m)) r (f (anth vreg0 (vregs (stored_m r m)) r))) = zlen (vregs m)). rewrite zlen_aset, P1. reflexivity.
    + change (dyn_slot_loaded_mask (stored_m r m) = dyn_slot_loaded_mask (place_m r (with_mask x m))). rewrite P3. unfold place_m. change (has_slot (with_mask x m) r) with (has_slot m r). destruct (pinned r), (has_slot m r); reflexivity.
    + change (dyn_dirty_mask (stored_m r m) = dyn_dirty_mask (place_m r (with_mask x m))). rewrite P4. unfold place_m. change (has_slot (with_mask x m) r) with (has_slot m r). destruct (pinned r), (has_slot m r); reflexivity.
    + change (vvalue (vreg m' r) = vvalue (vreg m r)). rewrite Hv, Z.eqb_refl by lia. reflexivity.
    + intros k Hk Hkr. change (vreg m' k = vreg m k). rewrite Hv, (proj2 (Z.eqb_neq r k)) by lia. reflexivity.
    + intros y E. destruct (host_of m r); [discriminate|]. injection E as <-. left. reflexivity.
    + intros k Hk E. apply P5 in E; [|lia]. split; [exact E | destruct (host_of m r); discriminate].
    + intros k Hk E. apply P6 in E; [|lia]. split; [exact E | destruct (host_of m r); discriminate].
  - intros k Hk Hlk. unfold lazy_const in *. rewrite Hv by lia. destruct (r =? k); [apply andb_false_r | exact Hlk].
Qed.

Lemma runs_flush_list x l : Forall (fun r => 0 <= r < 32) l -> forall m h regs vhi vlo, rep (with_mask x m) h regs vhi vlo ->
  runs (eiter l (fun r => do m <- egets (fun m => m); ewhen (lazy_const m r) (store_const r (vvalue (vreg m r)) >> emodify (upd_vreg r (fun v => v <| vdirty := false |>))))) m h
    (fun _ m' h' => rep (with_mask x m') h' regs vhi vlo /\ (forall r, 0 < r < 32 -> In r l \/ lazy_const m r = false -> lazy_const m' r = false)).
Proof.
  induction 1 as [|r l Hr Hl IH]; intros m h regs vhi vlo Hrep; cbn [eiter].
  - apply runs_ret. split; [exact Hrep|]. intros r _ [ [] |H]. exact H.
  - apply runs_bind. eapply runs_mono; [apply (runs_flush_one x r m h regs vhi vlo Hrep Hr)|]. intros _ m1 h1 (A & B & C & _).
    eapply runs_mono; [apply (IH m1 h1 regs vhi vlo A)|]. intros _ m2 h2 [A' B']. split; [exact A'|].
    intros k Hk [ [<-|H]|H]; apply B'; auto.
Qed.

Lemma runs_flush_consts m h regs vhi vlo : rep m h regs vhi vlo ->
  runs flush_dirty_consts m h (fun _ m' h' => rep m' h' regs vhi vlo /\ (forall r, 0 < r < 32 -> lazy_const m' r = false)).
Proof.
  intros Hrep. unfold flush_dirty_consts. apply runs_bind, runs_gets.
  assert (Hnl : forall r, 0 < r < 32 -> Z.testbit (dirty_const_mask m) r = false -> lazy_const m r = false).
  { intros r Hr Hb. destruct (lazy_const m r) eqn:E; [|reflexivity]. pose proof (ip_mask _ _ _ _ (rep_regs _ _ _ _ _ Hrep r Hr) E). congruence. }
  destruct (Z.eqb_spec (dirty_const_mask m) 0) as [E|E]; cbn [negb ewhen].
  - apply runs_ret. split; [exact Hrep|]. intros r Hr. apply Hnl; [exact Hr|]. rewrite E. apply Z.bits_0.
  - apply runs_bind, runs_modify. set (x := dirty_const_mask m). set (m1 := m <| dirty_const_mask := 0 |>).
    assert (Hrep1 : rep (with_mask x m1) h regs vhi vlo) by (apply (rep_core m); [repeat split | exact Hrep]).
    assert (Hall : Forall (fun r => 0 <= r < 32) (List.filter (Z.testbit x) (zseq 32))).
    { apply List.Forall_forall. intros r Hr. apply filter_In in Hr as [Hr _]. apply in_zseq in Hr. lia. }
    eapply runs_mono; [apply (runs_flush_list x _ Hall m1 h regs vhi vlo Hrep1)|].
    intros _ m2 h2 [A B].
    assert (Hnone : forall r, 0 < r < 32 -> lazy_const m2 r = false).
    { intros r Hr. apply B; [exact Hr|]. destruct (Z.testbit x r) eqn:Eb; [left; apply filter_In; split; [apply in_zseq; lia | exact Eb] | right; exact (Hnl r Hr Eb)]. }
    split; [|exact Hnone]. rewrite <- (rep_hi _ _ _ _ _ A), <- (rep_lo _ _ _ _ _ A).
    apply (rep_frame (with_mask x m2) h2 m2 h2 regs vhi vlo); [exact A | repeat split | reflexivity | apply (rep_gpr _ _ _ _ _ A) | apply (rep_zero _ _ _ _ _ A) | |].
    + intros r Hr. split; auto. intros Hl. rewrite (Hnone r Hr : lazy_const (with_mask x m2) r = false) in Hl. discriminate.
    + rewrite (rep_hi _ _ _ _ _ A), (rep_lo _ _ _ _ _ A). apply (rep_pair _ _ _ _ _ A).
Qed.

(** Fields that differ from [h] hold the value of a register. *)
Definition writes_back (h h' : Ee) (regs : list Z) : Prop :=
  gpr h' = gpr h /\ (forall off, field h' off = field h off \/ exists r, 0 < r < 32 /\ off = CPU_REG r /\ field h' off = aget regs r).

Lemma writes_back_refl h regs : writes_back h h regs.
Proof. split; auto. Qed.

Lemma writes_back_one h h' regs r v : writes_back h h' regs -> 0 < r < 32 -> v = aget regs r -> writes_back h (set_field (CPU_REG r) v h') regs.
Proof.
  intros [Hg Hf] Hr Hv. split; [exact Hg|]. intros off. destruct (Z.eq_dec off (CPU_REG r)) as [->|Hn].
  - right. exists r. rewrite field_set_eq. auto.
  - rewrite field_set_ne by congruence. apply Hf.
Qed.

Lemma writes_back_keeps h h' regs r : writes_back h h' regs -> field h (CPU_REG r) = aget regs r -> field h' (CPU_REG r) = aget regs r.
Proof.
  intros [_ Hf] Hr. destruct (Hf (CPU_REG r)) as [->|(k & _ & E & H)]; [exact Hr|]. rewrite H. apply CPU_REG_inj in E as ->. reflexivity.
Qed.

Lemma runs_flush_slots m h regs vhi vlo : rep m h regs vhi vlo -> (forall r, 0 < r < 32 -> lazy_const m r = false) ->
  runs dyn_flush_dirty_slots m h (fun _ m' h' => writes_back h h' regs /\ (forall r, 0 < r < 32 -> has_slot m r = true -> field h' (CPU_REG r) = aget regs r)).
Proof.
  intros Hrep Hl. pose proof (rep_wf _ _ _ _ _ Hrep) as Hw. unfold dyn_flush_dirty_slots. apply runs_bind, runs_gets.
  assert (Hclean : forall r, 0 < r < 32 -> has_slot m r = true -> dirty m r = false -> field h (CPU_REG r) = aget regs r).
  { intros r Hr Hs Hd. apply (ip_clean _ _ _ _ (rep_regs _ _ _ _ _ Hrep r Hr) (Hl r Hr) Hs Hd). }
  assert (Hdirty : forall r, 0 < r < 32 -> has_slot m r = true -> dirty m r = true -> reg_of h (slot_host m r) = aget regs r).
  { intros r Hr Hs Hd. pose proof (rep_regs _ _ _ _ _ Hrep r Hr) as Hi. destruct (wf_slot m Hw r ltac:(lia) Hs) as (_ & Hp & _).
    rewrite <- (ip_content _ _ _ _ Hi). unfold content. rewrite (Hl r Hr), Hp, Hs, (ip_dirty _ _ _ _ Hi Hs Hd). reflexivity. }
  destruct (dyn_slots_active m) eqn:Ha; cbn [andb ewhen].
  2: { apply runs_ret. split; [apply writes_back_refl|]. intros r _ Hs. unfold has_slot, dyn_slot_of in Hs. rewrite Ha in Hs. discriminate. }
  destruct (Z.eqb_spec (dyn_dirty_mask m) 0) as [E|_]; cbn [negb ewhen].
  { apply runs_ret. split; [apply writes_back_refl|]. intros r Hr Hs. apply Hclean; [exact Hr | exact Hs|]. unfold dirty. rewrite E. apply Z.bits_0. }
  set (I := fun (i : Z) (mi : Em) (hi : Ee) => writes_back h hi regs /\ (forall r, 0 < r < 32 -> has_slot m r = true -> dyn_slot_of m r < i -> field hi (CPU_REG r) = aget regs r)).
  apply runs_bind. eapply runs_mono; [apply (runs_eiter I) with (n := 0) (k := 8%nat); [|exact slots_are|]|].
  - intros i mi hi Hi [A B]. apply in_zseq in Hi. assert (Hi' : 0 <= i < 8) by (unfold DYN_SLOT_COUNT in Hi; lia).
    assert (Hnext : forall hj, writes_back h hj regs -> (forall r, 0 < r < 32 -> has_slot m r = true -> dyn_slot_of m r < i -> field hj (CPU_REG r) = aget regs r) ->
      (forall r, 0 < r < 32 -> has_slot m r = true -> dyn_slot_of m r = i -> field hj (CPU_REG r) = aget regs r) -> forall mj, I (i + 1) mj hj).
    { intros hj A' B' C' mj. split; [exact A'|]. intros r Hr Hs Hlt. destruct (Z.eq_dec (dyn_slot_of m r) i); [apply C'; assumption | apply B'; [assumption.. | lia] ]. }
    destruct (Z.testbit (dyn_dirty_mask m) i) eqn:Ed; cbn [andb].
    + destruct (Z.leb_spec 0 (slot_reg m i)) as [Hs|Hs]; cbn [ewhen].
      * destruct (wf_slots m Hw Ha i Hi' Hs) as [R E]. set (r := slot_reg m i) in *.
        assert (Hh : has_slot m r = true) by (unfold has_slot; rewrite E; apply Z.leb_le; lia). destruct (wf_slot m Hw r ltac:(lia) Hh) as (_ & _ & Hpos & _).
        assert (Hv : reg_of hi (dyn_slot_ee i) = aget regs r).
        { rewrite <- (Hdirty r) by (auto; unfold dirty; rewrite E; exact Ed). unfold slot_host, reg_of. rewrite E, (proj1 A). reflexivity. }
        apply runs_SW; [unfold dyn_slot_ee, REG_T0; lia | apply CPU_REG_range; lia|]. intros n. rewrite Hv.
        pose proof (writes_back_one h hi regs r _ A ltac:(lia) eq_refl) as A'. apply Hnext; [exact A' | |].
        -- intros k Hk Hsk Hlt. destruct (Z.eq_dec k r) as [->|Hne]; [apply field_set_eq|]. rewrite field_set_ne by (intros X; apply Hne; symmetry; apply CPU_REG_inj, X). apply B; assumption.
        -- intros k Hk Hsk Hki. assert (k = r) as -> by (apply (slot_inj m); auto; first [lia | congruence]). apply field_set_eq.
      * apply runs_ret, Hnext; auto. intros r Hr Hsr E. destruct (wf_slot m Hw r ltac:(lia) Hsr) as (_ & _ & _ & X). rewrite E in X. lia.
    + apply runs_ret, Hnext; auto. intros r Hr Hsr E. apply (writes_back_keeps h); [exact A|]. apply Hclean; auto. unfold dirty. rewrite E. exact Ed.
  - split; [apply writes_back_refl|]. intros r Hr Hs Hlt. destruct (wf_slot m Hw r ltac:(lia) Hs) as (Hi & _). lia.
  - intros _ m2 h2 [A B]. apply runs_modify. split; [exact A|]. intros r Hr Hs. apply B; auto. destruct (wf_slot m Hw r ltac:(lia) Hs) as (Hi & _). lia.
Qed.

Lemma runs_flush_pinned m h regs (Q : unit -> Em -> Ee -> Prop) :
  (forall r, 0 < r < 32 -> pinned r = true -> reg_of h (psx_pinned_reg r) = aget regs r) ->
  (forall m' h', writes_back h h' regs -> (forall r, 0 < r < 32 -> pinned r = true -> field h' (CPU_REG r) = aget regs r) -> Q tt m' h') ->
  runs emit_flush_pinned m h Q.
Proof.
  intros Hp H. unfold emit_flush_pinned, REG_S4, REG_S5, REG_S6, REG_S7.
  do 3 (apply runs_bind, runs_SW; [lia | unfold CPU_REG; lia|]; intros ?). apply runs_SW; [lia | unfold CPU_REG; lia|]. intros ?.
  change (reg_of (set_field ?a ?b ?x) ?y) with (reg_of x y).
  pose proof (Hp 28 ltac:(lia) eq_refl) as E1. pose proof (Hp 29 ltac:(lia) eq_refl) as E2. pose proof (Hp 30 ltac:(lia) eq_refl) as E3. pose proof (Hp 31 ltac:(lia) eq_refl) as E4.
  change (psx_pinned_reg 28) with 22 in E1. change (psx_pinned_reg 29) with 20 in E2. change (psx_pinned_reg 30) with 23 in E3. change (psx_pinned_reg 31) with 21 in E4.
  apply H.
  - repeat (apply writes_back_one; [| lia | assumption]). apply writes_back_refl.
  - intros r Hr Hpr. assert (r = 28 \/ r = 29 \/ r = 30 \/ r = 31) as Hc.
    { unfold pinned, psx_pinned_reg in Hpr. destruct (Z.eqb_spec r 28), (Z.eqb_spec r 29), (Z.eqb_spec r 30), (Z.eqb_spec r 31); auto. discriminate. }
    destruct Hc as [->|[->|[->| ->] ] ]; repeat first [rewrite field_set_eq | rewrite field_set_ne by (unfold CPU_REG; lia)]; assumption.
Qed.

(** After the exit every register is in [cpu.regs]. *)
Lemma runs_exit m h regs vhi vlo : rep m h regs vhi vlo -> runs block_exit m h (fun _ _ h' => in_cpu h' regs vhi vlo).
Proof.
  intros Hrep. unfold block_exit. apply runs_bind. eapply runs_mono; [apply (runs_flush_consts m h regs vhi vlo Hrep)|]. intros _ m1 h1 [Hrep1 Hl].
  apply runs_bind. eapply runs_mono; [apply (runs_flush_slots m1 h1 regs vhi vlo Hrep1 Hl)|]. intros _ m2 h2 [Hb Hs].
  assert (Hpin : forall r, 0 < r < 32 -> pinned r = true -> reg_of h1 (psx_pinned_reg r) = aget regs r).
  { intros r Hr Hp. apply (settled_host m1 h1 regs vhi vlo); [exact Hrep1 | exact Hr | split; [apply Hl, Hr | congruence] | apply host_pinned, Hp]. }
  apply (runs_flush_pinned m2 h2 regs).
  { intros r Hr Hp. rewrite <- Hpin by assumption. unfold reg_of. rewrite (proj1 Hb). reflexivity. }
  intros m3 h3 Hb3 Hp3.
  assert (Hother : forall off, (forall r, 0 < r < 32 -> off <> CPU_REG r) -> field h3 off = field h1 off).
  { intros off Ho. destruct (proj2 Hb3 off) as [->|(r & R & E & _)]; [|destruct (Ho r R E)]. destruct (proj2 Hb off) as [->|(r & R & E & _)]; [reflexivity | destruct (Ho r R E)]. }
  split.
  - intros r Hr. destruct (pinned r) eqn:Hp; [apply Hp3; assumption|]. apply (writes_back_keeps h2); [exact Hb3|].
    destruct (has_slot m1 r) eqn:Hh; [apply Hs; assumption|]. apply (writes_back_keeps h1); [exact Hb|].
    apply (field_value m1 h1 regs vhi vlo); [exact Hrep1 | exact Hr | apply Hl, Hr | apply host_none; assumption].
  - rewrite Hother by (intros r; unfold CPU_HI, CPU_REG; lia). apply (rep_hi _ _ _ _ _ Hrep1).
  - rewrite Hother by (intros r; unfold CPU_LO, CPU_REG; lia). apply (rep_lo _ _ _ _ _ Hrep1).
Qed.

(** ** A block of arithmetic *)

Variables call_c_trampoline_addr abort_trampoline_addr Helper_Overflow_Exception : Z.
#[local] Abbreviation alu := (emit_alu call_c_trampoline_addr abort_trampoline_addr Helper_Overflow_Exception).
#[local] Abbreviation all := (emit_all call_c_trampoline_addr abort_trampoline_addr Helper_Overflow_Exception).

(** No instruction of the block meets a case the emitter gets wrong. *)
Fixpoint alu_block_ok (ops : list Z) (psx_pc : Z) (m : Em) : bool :=
  match ops with
  | [] => true
  | o :: ops => insn_ok m o && match alu o psx_pc with None => false | Some e => alu_block_ok ops (u32 (psx_pc + 4)) (snd (snd (e m))) end
  end.

Lemma runs_state {A} (e : E A) m h Q : runs e m h Q -> runs e m h (fun x m' h' => Q x m' h' /\ m' = snd (snd (e m))).
Proof.
  intros (x & m' & h' & E & HQ). exists x, m', h'. split; [exact E | split; [exact HQ|] ]. unfold exec in E. destruct (e m) as [y [w m1] ].
  destruct (ee_run div0 w h); [|discriminate]. injection E as _ <- _. reflexivity.
Qed.

Lemma runs_all ops : forall psx_pc e m h r r', all ops psx_pc = Some e -> alu_block_ok ops psx_pc m = true ->
  rep m h (r_regs r) (r_hi r) (r_lo r) -> r_load r = None -> r_execs ops r = Some r' ->
  runs e m h (fun _ m' h' => rep m' h' (r_regs r') (r_hi r') (r_lo r')).
Proof.
  induction ops as [|o ops IH]; intros psx_pc e m h r r' He Hok Hrep Hl Hx; cbn [emit_all alu_block_ok r_execs] in *.
  - injection He as <-. injection Hx as <-. apply runs_ret. exact Hrep.
  - destruct (alu o psx_pc) as [e1|] eqn:E1; [|discriminate]. destruct (all ops (u32 (psx_pc + 4))) as [e2|] eqn:E2; [|discriminate].
    destruct (r_exec o r) as [r1|] eqn:X1; [|discriminate]. injection He as <-. apply andb_prop in Hok as [Hok1 Hok2].
    destruct (insn_correct div0 call_c_trampoline_addr abort_trampoline_addr Helper_Overflow_Exception o psx_pc m h r r1 Hrep Hl X1 e1 Hok1 E1) as [Hr Hl1].
    apply runs_bind. eapply runs_mono; [apply runs_state, Hr|]. intros [] m1 h1 [Hrep1 ->].
    exact (IH _ _ _ _ _ _ E2 Hok2 Hrep1 Hl1 Hx).
Qed.

Definition translated (scan : BlockScanResult) (seeds : list (Z * Z)) (e : E unit) : E unit := block_entry scan seeds >> e >> block_exit.

End Block.

(** One arithmetic instruction: whatever place each register has - pinned,
    in a slot loaded or not, in [cpu.regs], in T8 or T9, or a constant not
    written yet - the words emitted for the instruction take a host that holds
    the registers, HI and LO of the processor before it to one that holds those
    after it.  Excluded by [insn_ok]: results for $zero and constants for a
    register that is still cached in T8 or T9, which the emitter gets wrong. *)
Theorem alu_exact div0 cc ab ov o psx_pc e m h r r' : emit_alu cc ab ov o psx_pc = Some e -> insn_ok m o = true ->
  rep m h (r_regs r) (r_hi r) (r_lo r) -> r_load r = None -> r_exec o r = Some r' ->
  exists m' h', exec div0 e m h = Some (tt, (m', h')) /\ rep m' h' (r_regs r') (r_hi r') (r_lo r').
Proof.
  intros He Hok Hrep Hl Hx. destruct (insn_correct div0 cc ab ov o psx_pc m h r r' Hrep Hl Hx e Hok He) as [ ([] & m' & h' & E & H) _].
  exists m', h'. auto.
Qed.


(** ** A concrete block *)

(** ADDIU $2, $0, 5; ADDU $3, $4, $2; SUB $5, $3, $4; MULT $5, $4; MFLO $6;
    SLT $31, $4, $3 *)
Definition demo_ops : list Z := [0x24020005; 0x00821821; 0x00642822; 0x00A40018; 0x00003012; 0x0083F82A].
Definition demo_regs : list Z := aset (aset (repeat 0 32) 4 7) 5 9.
Definition demo_cpu : R3000A := mkR3000A 0x80010000 0x80010004 demo_regs None 0 0 ∅.
Definition demo_host : Ee := mkEe (repeat 0 32) 0 0 0 0 {[CPU_REG 4 := 7; CPU_REG 5 := 9]} ∅.
Definition demo_scan : BlockScanResult := block_scan (fun i => if i <? 6 then aget demo_ops i else 0x0000000D) 200.
Definition em0 : Em := mkEm [] 0 0 0 (-1) (-1) (-1) [] [] false 0 0 0 0 [] 0 0 0 0.
Definition demo_div0 (a : Z) : Z * Z := (a, 0xFFFFFFFF).

Lemma demo_words : words_ok demo_regs 0 0.
Proof.
  split; [reflexivity | split; [reflexivity | split; [|split; unfold is_u32; lia] ] ]. intros r. unfold aget, anth, is_u32.
  let l := eval vm_compute in demo_regs in change demo_regs with l.
  set (k := Z.to_nat r). destruct (decide (k < 32)%nat) as [Hk|Hk]; [|rewrite nth_overflow by (cbn; lia); lia].
  do 32 (destruct k as [|k]; [cbn; lia|]). lia.
Qed.

Lemma demo_gpr : gpr_ok demo_host.
Proof. split; reflexivity. Qed.

Lemma demo_in_cpu : in_cpu demo_host demo_regs 0 0.
Proof. split; [|reflexivity..]. intros r Hr. assert (Hr' : 0 <= r < 32) by lia. enum r Hr'; reflexivity. Qed.

(** The state after the slots are assigned. *)
Lemma demo_rep scan : rep (dyn_assign_slots scan (reset_vregs em0)) demo_host demo_regs 0 0.
Proof.
  apply rep_entry; [apply blank_reset | exact demo_words | exact demo_gpr | exact demo_in_cpu |].
  intros r Hr Hp. revert Hp. enum r Hr; intros Hp; first [discriminate | reflexivity].
Qed.

Lemma alu_exact_witness : exists m' h', exec demo_div0 (from_option id (eret tt) (emit_alu 0 0 0 0x00821821 0x80010004)) (dyn_assign_slots demo_scan (reset_vregs em0)) demo_host = Some (tt, (m', h')) /\
  exists regs', aget regs' 3 = 7 /\ rep m' h' regs' 0 0.
Proof.
  destruct (emit_alu 0 0 0 0x00821821 0x80010004) as [e|] eqn:E; [|discriminate E].
  destruct (r_exec 0x00821821 demo_cpu) as [r'|] eqn:X; [|exfalso; revert X; vm_compute; discriminate].
  destruct (alu_exact demo_div0 0 0 0 0x00821821 0x80010004 e (dyn_assign_slots demo_scan (reset_vregs em0)) demo_host demo_cpu r' E) as (m' & h' & H1 & H2);
    [vm_compute; reflexivity | apply demo_rep | reflexivity | exact X|].
  exists m', h'. split; [exact H1|]. vm_compute in X. injection X as <-. eexists. split; [|exact H2]. reflexivity.
Defined.

