(* ===== verification/EmitTraps.v ===== *)
(** * Where the emitted code departs from the processor

    Results for $zero and constants of cached registers, which the theorem of
    [EmitBlock.v] excludes, leave a wrong value in T8 or T9; the exit of an
    overflow check stores every slot, loaded or not, and no constant. *)

From S2P Require Import Prelude Scheduler System Cpu Memory Gte Interpreter InterpSafe InterpRef Recompiler RecompMath Emit EmitMath EmitRep EmitAlu EmitBlock.
#[local] Open Scope emit_scope.

Section Traps.
Variable div0 : Z -> Z * Z.
#[local] Abbreviation runs := (runs div0).

(** A register without another place, once fetched, is cached. *)
Lemma use_caches r m h (Q : Z -> Em -> Ee -> Prop) : 0 < r < 32 -> pinned r = false -> has_slot m r = false -> lazy_const m r = false ->
  (t8_cached_psx_reg m = r -> Q REG_T8 m h) ->
  (forall n, Q REG_T8 (counted n m <| t8_cached_psx_reg := r |>) (set_gpr REG_T8 (field h (CPU_REG r)) h)) -> runs (emit_use_reg r REG_T8) m h Q.
Proof.
  intros Hr Hp Hs Hl H8 H. unfold emit_use_reg. apply runs_bind, runs_gets. rewrite (proj2 (Z.eqb_neq r 0)), Hl, Hp, Hs by lia.
  cbn [Z.eqb REG_T8 REG_T9 Pos.eqb andb]. destruct (Z.eqb_spec (t8_cached_psx_reg m) r) as [E|E]; [apply runs_ret, H8, E|].
  apply runs_bind, runs_LW; [unfold REG_T8; lia | apply CPU_REG_range; lia|]. intros n. apply runs_bind, runs_modify, runs_ret. exact (H n).
Qed.

Lemma fetch_cached r m h (Q : Z -> Em -> Ee -> Prop) sx : 0 < r -> pinned r = false -> has_slot m r = false -> lazy_const m r = false ->
  (sx = REG_T8 /\ t8_cached_psx_reg m = r \/ sx = REG_T9 /\ t9_cached_psx_reg m = r) -> Q sx m h -> runs (emit_use_reg r sx) m h Q.
Proof.
  intros Hr Hp Hs Hl Hc H. unfold emit_use_reg. apply runs_bind, runs_gets. rewrite (proj2 (Z.eqb_neq r 0)), Hl, Hp, Hs by lia.
  destruct Hc as [ [-> E]|[-> E] ]; rewrite E; cbn [Z.eqb REG_T8 REG_T9 Pos.eqb andb]; rewrite ?Z.eqb_refl; apply runs_ret; exact H.
Qed.

Lemma no_host m r : host_of m r = None -> pinned r = false /\ has_slot m r = false.
Proof. unfold host_of. destruct (pinned r); [discriminate|]. destruct (has_slot m r); [discriminate | auto]. Qed.

Lemma runs_zero_result rs rt facts m h regs vhi vlo : rep m h regs vhi vlo -> 0 < rs < 32 -> 0 <= rt < 32 ->
  host_of m rs = None -> is_vreg_const m rs = false -> (forall m0 m', same_core m' (facts m0 m')) ->
  runs (binary rs rt 0 (Some (fun a b => u32 (a + b))) rs rt (fun s1 s2 d => MK_R 0 s1 s2 d 0 0x21) facts >> emit_use_reg rs REG_T8) m h
    (fun d m' h' => d = REG_T8 /\ reg_of h' REG_T8 = u32 (aget regs rs + aget regs rt)).
Proof.
  intros Hrep Hrs Hrt Hh Hc Hf. destruct (no_host m rs Hh) as [Hp Hs].
  assert (Hl : lazy_const m rs = false). { unfold is_vreg_const in Hc. rewrite (proj2 (Z.eqb_neq rs 0)) in Hc by lia. unfold lazy_const. rewrite Hc. reflexivity. }
  apply runs_bind. unfold binary. apply runs_bind, runs_gets. rewrite Hc. cbn [andb]. unfold mark_vreg_var. cbn [Z.eqb negb ewhen].
  apply runs_bind, runs_ret, runs_bind, runs_modify. set (m1 := m <| mem_host_base_psx := -1 |>).
  assert (Hrep1 : rep m1 h regs vhi vlo) by (apply (rep_core m); [repeat split | exact Hrep]).
  assert (Hnext : forall m2 h2, rep m2 h2 regs vhi vlo -> t8_cached_psx_reg m2 = rs -> later m1 m2 ->
    runs (do s2 <- emit_use_reg rt REG_T9; do d <- emit_dst_reg 0 REG_T8; emit (MK_R 0 REG_T8 s2 d 0 0x21) >> emit_sync_reg 0 d >> emodify (facts m)) m2 h2
      (fun _ m' h' => runs (emit_use_reg rs REG_T8) m' h' (fun d _ h'' => d = REG_T8 /\ reg_of h'' REG_T8 = u32 (aget regs rs + aget regs rt)))).
  { intros m2 h2 Hrep2 E8 L2. pose proof (rep_wf _ _ _ _ _ Hrep2) as Hw2.
    assert (V1 : reg_of h2 REG_T8 = aget regs rs) by apply (ip_t8 _ _ _ _ (rep_regs _ _ _ _ _ Hrep2 rs Hrs) E8).
    apply runs_bind. eapply runs_mono; [apply (runs_use div0 rt REG_T9 m2 h2 regs vhi vlo Hrep2 Hrt); auto|]. intros s2 m3 h3 F.
    pose proof (fetched_range _ _ _ _ _ _ _ _ _ _ Hw2 F Hrt ltac:(auto)) as R2. pose proof (f_rep _ _ _ _ _ _ _ _ _ _ F) as Hrep3.
    assert (V1' : reg_of h3 REG_T8 = aget regs rs).
    { rewrite (f_other _ _ _ _ _ _ _ _ _ _ F); [exact V1 | unfold REG_T8; lia | discriminate|]. intros Hr X. destruct (scratch_not_host m2 rt REG_T8 Hw2 ltac:(lia) ltac:(unfold scratch; auto) X). }
    pose proof (f_t8 _ _ _ _ _ _ _ _ _ _ F eq_refl) as T8. pose proof (later_trans _ _ _ L2 (f_later _ _ _ _ _ _ _ _ _ _ F)) as L3.
    apply runs_bind, runs_gets. cbn [Z.eqb]. apply runs_bind. eapply runs_emit; [rewrite step_special by (unfold REG_T8; lia); cbn [ee_special]; reflexivity|]. intros n.
    apply runs_bind, runs_ret, runs_modify. rewrite V1', (f_value _ _ _ _ _ _ _ _ _ _ F). destruct (Hf m (counted n m3)) as (Es & Ev & _ & _ & _ & Ec8 & _).
    apply fetch_cached; [lia | exact Hp | | | left; split; [reflexivity | rewrite Ec8; change (t8_cached_psx_reg m3 = rs); congruence] |].
    - rewrite (same_slots_has (counted n m3) _ rs Es). change (has_slot m3 rs = false). rewrite (same_slots_has _ _ rs (proj1 L3)). exact Hs.
    - unfold lazy_const, vreg. rewrite Ev. destruct (proj2 (proj2 L3) rs Hrs) as [X _]; [|exact X]. split; [exact Hl|]. intros _ X. change (has_slot m rs = true) in X. congruence.
    - split; [reflexivity|]. apply reg_set_eq; [apply (rep_gpr _ _ _ _ _ Hrep3) | unfold REG_T8; lia]. }
  apply runs_bind, use_caches; [exact Hrs | exact Hp | exact Hs | exact Hl | |].
  - intros E8. apply Hnext; [exact Hrep1 | exact E8 | apply later_core, same_core_refl].
  - intros n. rewrite (field_value m1 h regs vhi vlo rs Hrep1 Hrs Hl Hh). apply Hnext; [|reflexivity | apply later_caches; repeat split].
    exact (rep_loaded m1 h regs vhi vlo REG_T8 rs n Hrep1 (or_introl eq_refl) Hh Hl).
Qed.

(** *** The exit of an overflow check *)

Lemma runs_SW_SP rt off m h (Q : unit -> Em -> Ee -> Prop) : 0 <= rt < 32 -> 0 <= off < 32768 ->
  (forall n, Q tt (counted n m) (h <| stack_mem ::= <[off := reg_of h rt]> |>)) -> runs (EMIT_SW rt off REG_SP) m h Q.
Proof. intros Hr Ho H. eexists tt, _, _. rewrite exec_SW_stack by assumption. split; [reflexivity | apply H]. Qed.

Lemma runs_cold_flush m h : wf m -> runs cold_flush m h (fun _ _ h' => gpr h' = gpr h /\ field h' CPU_CURRENT_PC = reg_of h REG_AT /\
  forall r, 0 < r < 32 -> field h' (CPU_REG r) = if has_slot m r then reg_of h (slot_host m r) else field h (CPU_REG r)).
Proof.
  intros Hw. unfold cold_flush. apply runs_bind, runs_gets, runs_bind, runs_SW; [unfold REG_AT; lia | unfold CPU_CURRENT_PC; lia|]. intros n1.
  apply runs_bind, runs_SW_SP; [unfold REG_T9; lia | lia|]. intros n2. match goal with |- context [EmitRep.runs _ _ _ ?x _] => set (h1 := x) end.
  assert (F1 : field h1 CPU_CURRENT_PC = reg_of h REG_AT) by apply (field_set_eq CPU_CURRENT_PC (reg_of h REG_AT) h).
  assert (F2 : forall r, 0 < r -> field h1 (CPU_REG r) = field h (CPU_REG r)) by (intros r Hr; apply (field_set_ne CPU_CURRENT_PC (reg_of h REG_AT) h); unfold CPU_CURRENT_PC, CPU_REG; lia).
  assert (F3 : gpr h1 = gpr h) by reflexivity. clearbody h1.
  destruct (dyn_slots_active m) eqn:Ha; cbn [ewhen].
  2: { apply runs_ret. split; [exact F3 | split; [exact F1|] ]. intros r Hr. unfold has_slot, dyn_slot_of. rewrite Ha. apply F2. lia. }
  set (I := fun (i : Z) (mi : Em) (hi : Ee) => gpr hi = gpr h /\ field hi CPU_CURRENT_PC = reg_of h REG_AT /\
    forall r, 0 < r < 32 -> field hi (CPU_REG r) = if has_slot m r && (dyn_slot_of m r <? i) then reg_of h (slot_host m r) else field h (CPU_REG r)).
  eapply runs_mono; [apply (runs_eiter div0 I) with (n := 0) (k := 8%nat); [|exact slots_are|]|].
  - intros i mi hi Hi (A & B & C). apply in_zseq in Hi. assert (Hi' : 0 <= i < 8) by (unfold DYN_SLOT_COUNT in Hi; lia).
    destruct (Z.leb_spec 0 (slot_reg m i)) as [Hs|Hs]; cbn [ewhen].
    + destruct (wf_slots m Hw Ha i Hi' Hs) as [R E]. set (r := slot_reg m i) in *.
      assert (Hh : has_slot m r = true) by (unfold has_slot; rewrite E; apply Z.leb_le; lia). destruct (wf_slot m Hw r ltac:(lia) Hh) as (_ & _ & Hpos & _).
      apply runs_SW; [unfold dyn_slot_ee, REG_T0; lia | apply CPU_REG_range; lia|]. intros n. split; [exact A | split].
      * rewrite field_set_ne by (unfold CPU_CURRENT_PC, CPU_REG; lia). exact B.
      * intros k Hk. destruct (Z.eq_dec k r) as [->|Hne].
        -- rewrite field_set_eq, Hh, E, (proj2 (Z.ltb_lt i (i + 1))) by lia. unfold slot_host, reg_of. rewrite E, A. reflexivity.
        -- rewrite field_set_ne by (intros X; apply Hne; symmetry; apply CPU_REG_inj, X). rewrite C by exact Hk.
           destruct (has_slot m k) eqn:Hsk; [|reflexivity]. cbn [andb].
           assert (dyn_slot_of m k <> i) by (intros X; apply Hne; apply (slot_inj m); auto; first [lia | congruence]).
           destruct (Z.ltb_spec (dyn_slot_of m k) i), (Z.ltb_spec (dyn_slot_of m k) (i + 1)); try reflexivity; lia.
    + apply runs_ret. split; [exact A | split; [exact B|] ]. intros k Hk. rewrite C by exact Hk. destruct (has_slot m k) eqn:Hsk; [|reflexivity]. cbn [andb].
      assert (dyn_slot_of m k <> i) by (intros X; destruct (wf_slot m Hw k ltac:(lia) Hsk) as (_ & _ & _ & Y); rewrite X in Y; lia).
      destruct (Z.ltb_spec (dyn_slot_of m k) i), (Z.ltb_spec (dyn_slot_of m k) (i + 1)); try reflexivity; lia.
  - split; [exact F3 | split; [exact F1|] ]. intros r Hr. rewrite F2 by lia. destruct (has_slot m r) eqn:Hs; [|reflexivity].
    destruct (wf_slot m Hw r ltac:(lia) Hs) as (Hi & _). rewrite (proj2 (Z.ltb_ge _ 0)) by lia. reflexivity.
  - intros _ m2 h2 (A & B & C). split; [exact A | split; [exact B|] ]. intros r Hr. rewrite C by exact Hr. destruct (has_slot m r) eqn:Hs; [|reflexivity].
    destruct (wf_slot m Hw r ltac:(lia) Hs) as (Hi & _). rewrite (proj2 (Z.ltb_lt _ _)) by lia. reflexivity.
Qed.

End Traps.

(** [C40] A result for $zero is computed in T8 without telling the cache of T8:
    in any state where [rs] has no host register of its own and is no constant,
    the next fetch of [rs] after ADDU $zero, rs, rt emits nothing and gives the
    sum, a wrong value of [rs] whenever [rt] is not zero. *)
Theorem zero_result_corrupts div0 cc ab ov o psx_pc m h regs vhi vlo : rep m h regs vhi vlo ->
  OP o = 0 -> FUNCT o = 0x21 -> RD o = 0 -> RS o <> 0 -> host_of m (RS o) = None -> is_vreg_const m (RS o) = false ->
  exists e m' h', emit_alu cc ab ov o psx_pc = Some e /\ exec div0 (e >> emit_use_reg (RS o) REG_T8) m h = Some (REG_T8, (m', h')) /\
    reg_of h' REG_T8 = u32 (aget regs (RS o) + aget regs (RT o)) /\ (aget regs (RT o) <> 0 -> reg_of h' REG_T8 <> aget regs (RS o)).
Proof.
  intros Hrep HO HF HD Hs Hh Hc. assert (Hne : o <> 0) by (intros ->; discriminate HF).
  destruct (runs_zero_result div0 (RS o) (RT o) (facts_ADDU (RS o) (RT o) 0) m h regs vhi vlo Hrep) as (d & m' & h' & E & -> & V); auto;
    [pose proof (five_bits (Z.shiftr o 21)) as X; fold (RS o) in X; lia | apply five_bits | intros; apply facts_core |].
  eexists _, m', h'. split; [unfold emit_alu, emit_special; rewrite (proj2 (Z.eqb_neq o 0) Hne), HO, HF, HD; reflexivity|].
  split; [exact E | split; [exact V|] ]. intros Hr. rewrite V. pose proof (rep_words _ _ _ _ _ Hrep (RS o)) as A. pose proof (rep_words _ _ _ _ _ Hrep (RT o)) as B.
  unfold is_u32, u32 in *. intros X. Z.to_euclidean_division_equations. lia.
Qed.

(** A constant does not displace the value T9 holds of its register: the
    constant is fetched into T8, the next fetch into T9 still gives the old
    value, in any state where T9 is known to hold that register. *)
Theorem lazy_constant_stale div0 r v m h regs vhi vlo : rep m h regs vhi vlo -> 0 < r < 32 -> is_u32 v -> t9_cached_psx_reg m = r ->
  exists m' h', exec div0 (mark_vreg_const_lazy r v >> (do d1 <- emit_use_reg r REG_T8; do d2 <- emit_use_reg r REG_T9; eret (d1, d2))) m h = Some ((REG_T8, REG_T9), (m', h')) /\
    reg_of h' REG_T8 = v /\ reg_of h' REG_T9 = aget regs r.
Proof.
  intros Hrep Hr Hv E9. pose proof (rep_gpr _ _ _ _ _ Hrep) as Hg. destruct (ip_t9 _ _ _ _ (rep_regs _ _ _ _ _ Hrep r Hr) E9) as (Hh & _ & V9).
  destruct (no_host m r Hh) as [Hp Hs]. pose proof (wf_vregs m (rep_wf _ _ _ _ _ Hrep)) as Hlen.
  set (m1 := leave_host_base r m). assert (Hm1 : same_core m m1) by (unfold m1, leave_host_base; destruct (mem_host_base_psx m =? r); repeat split).
  destruct Hm1 as (Es & Ev & _ & _ & _ & _ & Ec9).
  assert (H : EmitRep.runs div0 (mark_vreg_const_lazy r v >> (do d1 <- emit_use_reg r REG_T8; do d2 <- emit_use_reg r REG_T9; eret (d1, d2))) m h
    (fun d _ h' => d = (REG_T8, REG_T9) /\ reg_of h' REG_T8 = v /\ reg_of h' REG_T9 = aget regs r)).
  { apply runs_bind. unfold mark_vreg_const_lazy. rewrite (proj2 (Z.eqb_neq r 0)) by lia. cbn [negb ewhen].
    apply runs_bind, runs_modify, runs_bind, runs_modify, runs_modify. fold m1.
    set (m2 := _ <| dirty_const_mask ::= _ |> <| smrv_known_ram ::= _ |> <| align_known_mask ::= _ |>).
    assert (Hv2 : vreg m2 r = mkReg v true true).
    { change (anth vreg0 (aset (vregs m1) r (mkReg v true true)) r = mkReg v true true). apply anth_aset_eq. rewrite Ev. lia. }
    assert (Hs2 : has_slot m2 r = false) by (change (has_slot m1 r = false); rewrite (same_slots_has m m1 r Es); exact Hs).
    assert (Hc2 : t9_cached_psx_reg m2 = r) by (change (t9_cached_psx_reg m1 = r); congruence).
    assert (Hl2 : zlen (vregs m2) = 32) by (change (zlen (aset (vregs m1) r (mkReg v true true)) = 32); rewrite zlen_aset, Ev; exact Hlen). clearbody m2.
    apply runs_bind. unfold emit_use_reg at 1. apply runs_bind, runs_gets. unfold lazy_const. rewrite (proj2 (Z.eqb_neq r 0)), Hv2, Hp, Hs2 by lia. cbn [vconst vdirty vvalue andb negb ewhen].
    apply runs_bind, runs_load_imm32; [unfold REG_T8; lia | exact Hv | exact Hg|]. intros n. apply runs_bind, runs_SW; [unfold REG_T8; lia | apply CPU_REG_range; lia|]. intros n'.
    apply runs_bind, runs_modify, runs_bind, runs_modify, runs_ret.
    set (m3 := scratch_invalidate_hwreg REG_T8 (const_stored r (counted n' (counted n m2)))).
    apply runs_bind, fetch_cached; [lia | exact Hp | exact Hs2 | | right; split; [reflexivity | exact Hc2] |].
    - unfold lazy_const. replace (vdirty (vreg m3 r)) with false; [apply andb_false_r|].
      change (false = vdirty (anth vreg0 (aset (vregs m2) r ((vreg m2 r) <| vdirty := false |>)) r)). rewrite anth_aset_eq by lia. reflexivity.
    - apply runs_ret. split; [reflexivity|].
      split; [apply (reg_set_eq REG_T8 v h); [exact Hg | unfold REG_T8; lia]|]. rewrite <- V9. apply (reg_set_ne REG_T8 v h); unfold REG_T8, REG_T9; lia. }
  destruct H as (d & m' & h' & E & -> & A & B). exists m', h'. auto.
Qed.

(** The exit of an overflow check: the registers with a slot get what
    their host register holds, loaded or not; the others - pinned ones and
    constants not written yet among them - keep what [cpu.regs] holds.  So the
    exception sees the right value of a register in a loaded slot, the old one
    of a constant without a slot, and whatever the host register held of a
    slot that was not loaded. *)
Theorem overflow_exit_flush div0 m h regs vhi vlo : rep m h regs vhi vlo ->
  exists m' h', exec div0 cold_flush m h = Some (tt, (m', h')) /\ field h' CPU_CURRENT_PC = reg_of h REG_AT /\
    (forall r, 0 < r < 32 -> field h' (CPU_REG r) = if has_slot m r then reg_of h (slot_host m r) else field h (CPU_REG r)) /\
    (forall r, 0 < r < 32 -> has_slot m r = true -> settled m r -> field h' (CPU_REG r) = aget regs r).
Proof.
  intros Hrep. pose proof (rep_wf _ _ _ _ _ Hrep) as Hw. destruct (runs_cold_flush div0 m h Hw) as ([] & m' & h' & E & _ & A & B).
  exists m', h'. split; [exact E | split; [exact A | split; [exact B|] ] ]. intros r Hr Hs Hst. rewrite B, Hs by exact Hr.
  destruct (wf_slot m Hw r ltac:(lia) Hs) as (_ & Hp & _). apply (settled_host m h regs vhi vlo); [exact Hrep | exact Hr | exact Hst | apply host_slot; assumption].
Qed.

(** ADDU $zero, $4, $5 with nothing cached and no slots. *)
Lemma zero_result_corrupts_witness : exists e m' h', emit_alu 0 0 0 0x00850021 0 = Some e /\
  exec demo_div0 (e >> emit_use_reg 4 REG_T8) (dyn_assign_slots scan0 (reset_vregs em0)) demo_host = Some (REG_T8, (m', h')) /\
  reg_of h' REG_T8 = 16 /\ reg_of h' REG_T8 <> aget demo_regs 4.
Proof.
  destruct (zero_result_corrupts demo_div0 0 0 0 0x00850021 0 _ _ _ 0 0 (demo_rep scan0)) as (e & m' & h' & A & B & C & D); try reflexivity; [discriminate|].
  exists e, m', h'. split; [exact A | split; [exact B | split; [exact C | apply D; discriminate] ] ].
Defined.

(** $4 is in T9 when it becomes the constant 5. *)
Lemma lazy_constant_stale_witness : exists m h m' h', t9_cached_psx_reg m = 4 /\
  exec demo_div0 (mark_vreg_const_lazy 4 5 >> (do d1 <- emit_use_reg 4 REG_T8; do d2 <- emit_use_reg 4 REG_T9; eret (d1, d2))) m h = Some ((REG_T8, REG_T9), (m', h')) /\
  reg_of h' REG_T8 = 5 /\ reg_of h' REG_T9 = 7.
Proof.
  pose proof (rep_loaded _ _ _ 0 0 REG_T9 4 0 (demo_rep scan0) (or_intror eq_refl) eq_refl eq_refl) as Hrep.
  destruct (lazy_constant_stale demo_div0 4 5 _ _ _ 0 0 Hrep) as (m' & h' & A & B & C); [lia | unfold is_u32; lia | reflexivity |].
  exists (cache_loaded REG_T9 4 (counted 0 (dyn_assign_slots scan0 (reset_vregs em0)))), (set_gpr REG_T9 7 demo_host), m', h'.
  split; [reflexivity | split; [exact A | split; [exact B | exact C] ] ].
Defined.

(** Nothing is loaded: $4, which has a slot, is overwritten with what T0 held. *)
Lemma overflow_exit_flush_witness : exists m' h', has_slot (dyn_assign_slots demo_scan (reset_vregs em0)) 4 = true /\
  exec demo_div0 cold_flush (dyn_assign_slots demo_scan (reset_vregs em0)) demo_host = Some (tt, (m', h')) /\ field h' (CPU_REG 4) = 0.
Proof.
  destruct (overflow_exit_flush demo_div0 _ _ _ 0 0 (demo_rep demo_scan)) as (m' & h' & A & _ & B & _).
  exists m', h'. split; [vm_compute; reflexivity | split; [exact A|] ]. rewrite B by lia. vm_compute. reflexivity.
Defined.
